(* ===== verification/_CoqProject ===== *)
-Q . S2P
Prelude.v
Types.v
StringC.v
Spinlock.v
Kalloc.v
PageTable.v
Vm.v
VmCopy.v
VmUser.v
VmFork.v
Sched.v
Liveness.v
Sleeplock.v
Run.v
Sleep.v
Bio.v
Cache.v
BioProps.v
Log.v
Recover.v
LogOps.v
Tx.v
Fs.v
FsPure.v
Icache.v
FsBlocks.v
FsFile.v
FsWrite.v
FsProps.v
FsDir.v
FsPath.v
Riscv.v
Uart.v
UartProps.v
Printf.v
Console.v
ConsoleProps.v
Pipe.v
PipeProps.v
File.v
FsCall.v
Proc.v
Exec.v
SysArgs.v
Sysfile.v
VirtioDisk.v
VirtioProps.v
Syscall.v
Trap.v
Main.v
TypeInv.v
TypeFs.v
TypeKernel.v
UserLib.v
Grep.v
Sh.v
ShGrammar.v
ShProps.v
ShRun.v
Umalloc.v
UmallocProps.v
UmallocClient.v
User.v
UserProps.v
UserPrintf.v
Find.v
FindProps.v
Filters.v
FilterProps.v
Mkfs.v
MkfsProps.v
