(* ===== verification/Prelude.v ===== *)
(** * xv6 for RISC-V: a verification development

    ** The program

    src/kernel is a small Unix kernel: spin locks and interrupt control
    (spinlock.c), a page allocator (kalloc.c), Sv39 page tables (vm.c), processes,
    the scheduler and sleep/wakeup (proc.c, sleeplock.c), a buffer cache over a
    virtio disk (bio.c, virtio_disk.c), a write-ahead log (log.c), a file system
    (fs.c), open files and pipes (file.c, pipe.c), a console on a serial port
    (console.c, uart.c, printf.c), traps and system calls (trap.c, syscall.c,
    sysproc.c, sysfile.c, exec.c) and booting (start.c, main.c, plic.c).  src/user
    has the library and the programs of user space, of which the shell (sh.c), the
    allocator (umalloc.c), ulib.c, printf.c, grep.c, find.c, cat.c, wc.c and echo.c
    are modelled; src/mkfs/mkfs.c makes the first disk image.

    ** The model

    The globals of the kernel are the fields of one record, [world] (Types): the
    cpus and processes, physical memory as bytes, the lock tables, the buffers, the
    log, the inodes, the files, the devices.  A C function is a function of the
    monad [K] below: it may change the world, panic, or wait.  Waiting is spinning
    on a lock or switching to another process; each time, the rest of the machine
    does one thing, an element of the list [env] that the function is run with, any
    function on worlds.  With no element left the outcome is [Blocked].  A pointer
    to an element of a table is its index, a pointer into memory its address; a
    struct on the stack is a record or the bytes it consists of; w-bit integers are
    in Z with the wrap-around written out where the code can reach it.

    Run has the logic most proofs use: [runs m w r w'] says that [m] returns [r]
    without waiting, in any world that looks like [w].  Sleep and the theorems on
    pipes and the disk driver follow code through its waits.  Two protocols are
    step relations of single memory accesses instead, for any number of parties
    and any interleaving: the spin lock among harts (Spinlock, Module Harts) and
    sleep/wakeup (Sched, Module Handoff).

    A user program is modelled on its own state: the shell on its input line and a
    trace of its system calls, malloc on the bytes between the heap's start and the
    break, mkfs on the image file it writes, find, cat, wc and echo on their memory,
    their descriptors and the bytes they have written.

    ** The files

    - Prelude: the monad, its rules and tactics, lemmas on functions, lists, rings.
    - Types: constants and structs of the headers, [world].
    - StringC: string.c and the words of memory.  Spinlock: spinlock.c, riscv.h.
    - Kalloc: kalloc.c.  PageTable, Vm: vm.c.  VmCopy, VmUser, VmFork: what
      copyin/copyout, uvmalloc/uvmdealloc/mappages and uvmcopy do.
    - Sched: sleep, wakeup, sched, yield, scheduler, kill of proc.c.  Sleeplock.
    - Liveness: fair runs of the sleep/wakeup protocol.
    - Run, Sleep: the logic.
    - Bio: bio.c.  Cache, BioProps: the cache as a store of blocks.
    - Log: log.c.  Recover, LogOps: crash recovery and transactions.
    - Tx: blocks inside a transaction.  Fs: fs.c.  FsPure: dinodes and path names.
      Icache: inode references.  FsBlocks: the free map.  FsFile, FsWrite, FsProps:
      files as byte sequences.  FsDir: directories as maps.  FsPath: path names as
      walks in the tree of directories.
    - Riscv: control registers, plic.c.  Uart, UartProps: uart.c.  Printf: printf.c.
      Console, ConsoleProps: console.c.  Pipe, PipeProps: pipe.c.
    - File: file.c.  FsCall: write(2) from the call down to the disk.  Proc: the rest of proc.c.  Exec: exec.c.
    - SysArgs, Sysfile, Syscall: the system calls.  Trap: trap.c.  Main: booting.
    - VirtioDisk, VirtioProps: virtio_disk.c.
    - TypeInv, TypeFs, TypeKernel: the types of the whole kernel.  TypeInv has the
      invariant [wt] and the logic for it, up to the buffer cache; TypeFs has the log
      and the file system, TypeKernel the rest and the theorem.
    - UserLib, Grep: user/ulib.c and user/grep.c.
    - Sh: user/sh.c.  ShGrammar: the grammar of commands.  ShProps: the parser.
      ShRun: runcmd.
    - Umalloc: user/umalloc.c.  UmallocProps: the free list.  UmallocClient: any
      sequence of malloc and free.
    - User: the system calls that programs use, user/printf.c.  UserProps: their
      logic, [does m u a u'].  UserPrintf: what printf writes.
    - Find, FindProps: user/find.c.  Filters, FilterProps: user/cat.c, wc.c, echo.c.
    - Mkfs, MkfsProps: mkfs/mkfs.c and the image it makes.

    ** Interfaces

    - [DiskOps] with the laws [Disk] (Run) is what virtio_disk_rw promises to the
      buffer cache.  Everything from Bio up to FsDir is proved against it, and
      VirtioProps shows that the driver provides it, given a device that follows
      the virtio protocol (class [Device]).
    - [Layout] with [LayoutOk] (Types) is what the linker script gives: end, etext
      and the trampoline.
    - [Kernel] (User) is what the system promises to find, cat, wc and echo: the file
      a path leads to, the pieces in which read returns it, the writes that succeed.
    - [Sink] (FsFile) is a destination of readi, kernel buffer or user memory.

    ** The theorems

    - Types: in every state that booting, traps and system calls lead to, the
      integers of the kernel are in the ranges of their C types, the pointers point
      into their tables, and nothing was stored outside of an array.  The rest of
      the machine is assumed to keep this and to leave room in the log as begin_op
      does; the first call of fsinit, which trusts the log header on the disk, is
      not covered.
    - Disk: a crash at any point of a commit leaves a disk that recovers to the old
      or to the new contents; recovery computes an abstract function of the log;
      bread, brelse and log_write keep the cache a faithful copy with pinned logged
      blocks; the driver refines the abstract disk.
    - Files: readi and writei read and write byte sequences; directories are maps
      from names to inode numbers, with dirlookup as lookup and dirlink as
      insertion; balloc and bfree keep the bitmap; the inode cache has one entry
      per inode; namei returns the inode to which a path leads; write(2) is atomic
      piece by piece under crashes, from the system call to the disk; mkfs makes an
      image in which the files given to it are found.
    - Memory: the page allocator is a stack of pages; mappages, uvmalloc,
      uvmdealloc and uvmcopy change exactly the intended part of an address space;
      copyin, copyout and copyinstr move the bytes the process sees.
    - Concurrency: mutual exclusion, no lost wakeup, and in every fair run a
      process that waits for a condition wakes when it comes to hold.
    - Devices: the serial port is a FIFO, the console an abstract line editor,
      pipes are FIFOs that wake and sleep as they should.
    - User space: grep's matcher decides its language of patterns; the parser of
      the shell accepts its grammar and builds the tree, and runcmd runs it; malloc
      returns disjoint blocks inside the heap for any client that obeys its rules;
      printf writes what its format says; find returns on every file system and
      prints the matching paths; wc counts lines, words and bytes.
    - Shortcomings of the code, proved of the model: recovery drops references that
      were never taken, the log is one block smaller than what operations may
      reserve, kill(0) marks a free slot, writei hides a failed copy.

    ** Bounds

    A loop whose bound is not structural takes fuel and returns [NoFuel] when it is
    exhausted, which is an outcome of its own and never a result.  The fuel is the
    length of the data for loops over it, the number of pages or blocks a request
    can touch (readi, writei, uvmalloc, uvmcopy, copyin, copyout), the number of
    buffers for the LRU list and the length of the path in namex; the shell's loops
    take the length of the line, those of malloc the number of blocks of the heap,
    the recursion of find the number of descriptors, since each call holds one.
    The theorems say that a result is returned, so that the fuel is enough.

    ** Not modelled

    The assembly files (entry.S, kernelvec.S, swtch.S, trampoline.S, initcode.S),
    since the model has no general registers and takes a context switch as one
    event; ramdisk.c, which is not built; the build and grading scripts; the
    remaining user programs (init, ls, kill, ln, mkdir, rm, sleep, pingpong, zombie)
    and the tests, which only call the kernel.  The memory model is sequentially consistent; kernel stacks are not
    memory of the model.  Theorems about code that calls sleep state what happens up
    to and after the wait, not which of the waiting processes runs first. *)

From stdpp Require Export base tactics list strings numbers functions sets.
From Stdlib Require Export ZArith Lia FunctionalExtensionality.

#[global] Open Scope Z_scope.
Declare Scope xv6_scope.
#[global] Open Scope xv6_scope.

(** ** The kernel monad

    Kernel code runs on a world [W].  It returns a value, panics, or waits:
    [env] is the list of what the rest of the machine (other harts, devices,
    other processes) does, one element for each time the code spins on a lock
    or gives up the cpu in [swtch].  When the list is exhausted the code is
    still waiting: [Blocked].  [NoFuel] is the outcome of a loop whose bound is
    too small; the loops whose bound is not structural come with a theorem that
    it is never reached. *)

Inductive outcome (W A : Type) : Type :=
| Ret (a : A) (env : list (W → W)) (w : W)
| Panic (msg : string)
| Blocked (w : W)
| NoFuel.
Arguments Ret {W A} a env w.
Arguments Panic {W A} msg.
Arguments Blocked {W A} w.
Arguments NoFuel {W A}.

Definition M (W A : Type) : Type := list (W → W) → W → outcome W A.

Section Monad.
Context {W : Type}.

Definition ret {A} (a : A) : M W A := λ env w, Ret a env w.

Definition bind {A B} (m : M W A) (k : A → M W B) : M W B := λ env w,
  match m env w with
  | Ret a env' w' => k a env' w'
  | Panic s => Panic s
  | Blocked w' => Blocked w'
  | NoFuel => NoFuel
  end.

Definition panic {A} (s : string) : M W A := λ _ _, Panic s.
Definition hang {A} : M W A := λ _ w, Blocked w.
Definition gets {A} (f : W → A) : M W A := λ env w, Ret (f w) env w.
Definition modify (f : W → W) : M W unit := λ env w, Ret tt env (f w).

(** Let the rest of the machine run once. *)
Definition wait_event : M W unit := λ env w,
  match env with
  | [] => Blocked w
  | f :: env' => Ret tt env' (f w)
  end.

Definition when (b : bool) (m : M W unit) : M W unit := if b then m else ret tt.

(** [for (x in l) body]. *)
Fixpoint for_each {A} (l : list A) (body : A → M W unit) : M W unit :=
  match l with
  | [] => ret tt
  | x :: l' => bind (body x) (λ _, for_each l' body)
  end.

(** [for (x in l) body] where the body may leave the loop with a value. *)
Fixpoint for_find {A B} (l : list A) (body : A → M W (option B)) : M W (option B) :=
  match l with
  | [] => ret None
  | x :: l' => bind (body x) (λ r,
      match r with Some b => ret (Some b) | None => for_find l' body end)
  end.

(** [for (;;) body]; [None] is "again", [Some] leaves the loop. *)
Fixpoint loop {A} (fuel : nat) (body : M W (option A)) : M W A :=
  match fuel with
  | O => λ _ _, NoFuel
  | S n => bind body (λ r, match r with Some a => ret a | None => loop n body end)
  end.

(** A loop that goes round again only after having waited: as many rounds as
    the environment has events left, and one more. *)
Definition loop_wait {A} (body : M W (option A)) : M W A :=
  λ env w, loop (S (length env)) body env w.

(** A loop with a state of local variables. *)
Fixpoint loop_st {S A} (fuel : nat) (st : S) (body : S → M W (S + A)) : M W A :=
  match fuel with
  | O => λ _ _, NoFuel
  | Datatypes.S n => bind (body st) (λ r,
      match r with inl st' => loop_st n st' body | inr a => ret a end)
  end.
End Monad.

#[global] Arguments bind : simpl never.
#[global] Arguments ret : simpl never.
#[global] Arguments gets : simpl never.
#[global] Arguments modify : simpl never.
#[global] Arguments wait_event : simpl never.
#[global] Arguments panic : simpl never.
#[global] Arguments when : simpl never.
#[global] Arguments loop_wait : simpl never.

Notation "x <- m ;; k" := (bind m (λ x, k))
  (at level 100, m at next level, k at level 200, right associativity) : xv6_scope.
Notation "m ;; k" := (bind m (λ _, k))
  (at level 100, k at level 200, right associativity) : xv6_scope.

(** Total correctness: [m] returns, and its result satisfies [Q]. *)
Definition wp {W A} (m : M W A) (env : list (W → W)) (w : W)
    (Q : A → list (W → W) → W → Prop) : Prop :=
  match m env w with Ret a env' w' => Q a env' w' | _ => False end.

Section MonadLemmas.
Context {W : Type}.
Implicit Types (env : list (W → W)) (w : W).

Lemma bind_Ret {A B} (m : M W A) (k : A → M W B) env w a env' w' :
  m env w = Ret a env' w' → bind m k env w = k a env' w'.
Proof. unfold bind. by intros ->. Qed.

Lemma bind_Panic {A B} (m : M W A) (k : A → M W B) env w s :
  m env w = Panic s → bind m k env w = Panic s.
Proof. unfold bind. by intros ->. Qed.

Lemma bind_Blocked {A B} (m : M W A) (k : A → M W B) env w w' :
  m env w = Blocked w' → bind m k env w = Blocked w'.
Proof. unfold bind. by intros ->. Qed.

Lemma bind_ret_l {A B} (a : A) (k : A → M W B) env w :
  bind (ret a) k env w = k a env w.
Proof. done. Qed.

Lemma bind_assoc {A B C} (m : M W A) (k : A → M W B) (h : B → M W C) env w :
  bind (bind m k) h env w = bind m (λ a, bind (k a) h) env w.
Proof. unfold bind. by destruct (m env w). Qed.

Lemma bind_Ret_inv {A B} (m : M W A) (k : A → M W B) env w b env' w' :
  bind m k env w = Ret b env' w' →
  ∃ a env1 w1, m env w = Ret a env1 w1 ∧ k a env1 w1 = Ret b env' w'.
Proof. unfold bind. destruct (m env w) eqn:E; naive_solver. Qed.

Lemma wp_intro {A} (m : M W A) env w Q a env' w' :
  m env w = Ret a env' w' → Q a env' w' → wp m env w Q.
Proof. unfold wp. by intros ->. Qed.

Lemma wp_elim {A} (m : M W A) env w Q :
  wp m env w Q → ∃ a env' w', m env w = Ret a env' w' ∧ Q a env' w'.
Proof. unfold wp. destruct (m env w); naive_solver. Qed.

Lemma wp_bind {A B} (m : M W A) (k : A → M W B) env w Q :
  wp m env w (λ a env' w', wp (k a) env' w' Q) → wp (bind m k) env w Q.
Proof. unfold wp, bind. destruct (m env w); naive_solver. Qed.

Lemma wp_mono {A} (m : M W A) env w (Q Q' : A → list (W → W) → W → Prop) :
  wp m env w Q → (∀ a e v, Q a e v → Q' a e v) → wp m env w Q'.
Proof. unfold wp. destruct (m env w); naive_solver. Qed.

(** The invariant rule for loops over a list: [I] holds of the elements
    already visited. *)
Lemma wp_for_each {A} (I : list A → list (W → W) → W → Prop) (l : list A)
    (body : A → M W unit) env w :
  I [] env w →
  (∀ seen x rest e v, l = seen ++ x :: rest → I seen e v →
     wp (body x) e v (λ _ e' v', I (seen ++ [x]) e' v')) →
  wp (for_each l body) env w (λ _ e v, I l e v).
Proof.
  intros H0 Hstep.
  assert (Hgen : ∀ rest seen e v, l = seen ++ rest → I seen e v →
    wp (for_each rest body) e v (λ _ e' v', I l e' v')).
  { induction rest as [|x rest IH]; intros seen e v Hl HI; simpl.
    - rewrite app_nil_r in Hl. by subst.
    - apply wp_bind. eapply wp_mono; [by eapply Hstep|].
      intros ? e' v' HI'. apply (IH (seen ++ [x])); [|done].
      by rewrite <-app_assoc. }
  by apply (Hgen l []).
Qed.

Lemma for_each_app {A} (l1 l2 : list A) (body : A → M W unit) env w :
  for_each (l1 ++ l2) body env w = bind (for_each l1 body) (λ _, for_each l2 body) env w.
Proof.
  revert env w. induction l1 as [|x l1 IH]; intros env w; [done|].
  simpl. rewrite bind_assoc. unfold bind. destruct (body x env w); [|done..].
  apply IH.
Qed.

Lemma for_find_None {A B} (l : list A) (body : A → M W (option B)) env w :
  (∀ x, x ∈ l → body x env w = Ret None env w) →
  for_find l body env w = Ret None env w.
Proof.
  induction l as [|x l IH]; intros H; [done|].
  simpl. rewrite (bind_Ret _ _ _ _ _ _ _ (H x ltac:(set_solver))).
  apply IH. set_solver.
Qed.

(** The body leaves the loop at [x], after elements on which it does not. *)
Lemma for_find_Some {A B} (l1 l2 : list A) (x : A) (body : A → M W (option B)) env w b env' w' :
  (∀ y, y ∈ l1 → body y env w = Ret None env w) →
  body x env w = Ret (Some b) env' w' →
  for_find (l1 ++ x :: l2) body env w = Ret (Some b) env' w'.
Proof.
  intros H1 Hx. induction l1 as [|y l1 IH]; simpl.
  - by rewrite (bind_Ret _ _ _ _ _ _ _ Hx).
  - rewrite (bind_Ret _ _ _ _ _ _ _ (H1 y ltac:(set_solver))).
    apply IH. set_solver.
Qed.

(** Counting loops whose body does not leave the loop before [k]; [I i] holds
    before round [i]. *)
Lemma for_find_until {B} (I : Z → W → Prop) (n k : Z) (body : Z → M W (option B)) env w b (w' : W → W) :
  0 ≤ k < n → I 0 w →
  (∀ i v, 0 ≤ i < k → I i v → ∃ v', body i env v = Ret None env v' ∧ I (i + 1) v') →
  (∀ v, I k v → body k env v = Ret (Some b) env (w' v)) →
  ∃ v, I k v ∧ for_find (seqZ 0 n) body env w = Ret (Some b) env (w' v).
Proof.
  intros Hk H0 Hs Hb.
  assert (Hg : ∀ (d : nat) i v, i + Z.of_nat d = k → 0 ≤ i → I i v →
    ∃ v', I k v' ∧ for_find (seqZ i (n - i)) body env v = Ret (Some b) env (w' v')).
  { induction d as [|d IH]; intros i v Hi Hi0 HI; rewrite seqZ_cons by lia; cbn [for_find].
    - rewrite Z.add_0_r in Hi. subst i. exists v. split; [done|].
      by rewrite (bind_Ret _ _ _ _ _ _ _ (Hb v HI)).
    - destruct (Hs i v) as (v' & E & HI'); [lia|done|]. rewrite (bind_Ret _ _ _ _ _ _ _ E).
      destruct (IH (i + 1) v') as (u & HIu & Eu); [lia|lia|done|]. exists u. split; [done|].
      rewrite <-Z.add_1_r. replace (Z.pred (n - i)) with (n - (i + 1)) by lia. exact Eu. }
  rewrite <-(Z.sub_0_r n). apply (Hg (Z.to_nat k)); [lia|lia|done].
Qed.

Lemma for_find_through {B} (I : Z → W → Prop) (n : Z) (body : Z → M W (option B)) env w :
  0 ≤ n → I 0 w →
  (∀ i v, 0 ≤ i < n → I i v → ∃ v', body i env v = Ret None env v' ∧ I (i + 1) v') →
  ∃ v, I n v ∧ for_find (seqZ 0 n) body env w = Ret None env v.
Proof.
  intros Hn H0 Hs.
  assert (Hg : ∀ (d : nat) i v, i + Z.of_nat d = n → 0 ≤ i → I i v →
    ∃ v', I n v' ∧ for_find (seqZ i (n - i)) body env v = Ret None env v').
  { induction d as [|d IH]; intros i v Hi Hi0 HI.
    - rewrite Z.add_0_r in Hi. subst i. exists v. by rewrite Z.sub_diag.
    - rewrite seqZ_cons by lia. cbn [for_find].
      destruct (Hs i v) as (v' & E & HI'); [lia|done|]. rewrite (bind_Ret _ _ _ _ _ _ _ E).
      destruct (IH (i + 1) v') as (u & HIu & Eu); [lia|lia|done|]. exists u. split; [done|].
      rewrite <-Z.add_1_r. replace (Z.pred (n - i)) with (n - (i + 1)) by lia. exact Eu. }
  destruct (Hg (Z.to_nat n) 0 w) as (v & Hv & E); [lia|lia|done|]. rewrite Z.sub_0_r in E. by exists v.
Qed.

(** Code that never runs out of rounds, and at most consumes events. *)
Definition total {A} (m : M W A) : Prop := ∀ env w,
  match m env w with
  | Ret _ env' _ => length env' ≤ length env
  | NoFuel => False
  | _ => True
  end%nat.

(** Code that, moreover, has waited when it returns. *)
Definition waited {A} (m : M W A) : Prop := ∀ env w,
  match m env w with
  | Ret _ env' _ => length env' < length env
  | NoFuel => False
  | _ => True
  end%nat.

(** A loop body that goes round again only after an event. *)
Definition waits {A} (body : M W (option A)) : Prop := ∀ env w,
  match body env w with
  | Ret None env' _ => length env' < length env
  | Ret (Some _) env' _ => length env' ≤ length env
  | NoFuel => False
  | _ => True
  end%nat.

Lemma total_ret {A} (a : A) : total (ret a).
Proof. intros env w. exact (le_n (length env)). Qed.
Lemma total_gets {A} (f : W → A) : total (gets f).
Proof. intros env w. exact (le_n (length env)). Qed.
Lemma total_modify (f : W → W) : total (modify f).
Proof. intros env w. exact (le_n (length env)). Qed.
Lemma total_panic {A} s : total (panic (A := A) s).
Proof. intros env w. done. Qed.
Lemma total_wait_event : total wait_event.
Proof. intros [|f env] w; unfold wait_event; cbn; [done|lia]. Qed.
Lemma waited_wait_event : waited wait_event.
Proof. intros [|f env] w; unfold wait_event; cbn; [done|lia]. Qed.

Lemma total_bind {A B} (m : M W A) (k : A → M W B) :
  total m → (∀ a, total (k a)) → total (bind m k).
Proof.
  intros Hm Hk env w. unfold bind. specialize (Hm env w). destruct (m env w) as [a e v| | |]; try done.
  specialize (Hk a e v). destruct (k a e v); try done. lia.
Qed.

Lemma waited_total {A} (m : M W A) : waited m → total m.
Proof. intros Hm env w. specialize (Hm env w). destruct (m env w); try done. lia. Qed.

Lemma waited_bind_l {A B} (m : M W A) (k : A → M W B) :
  waited m → (∀ a, total (k a)) → waited (bind m k).
Proof.
  intros Hm Hk env w. unfold bind. specialize (Hm env w). destruct (m env w) as [a e v| | |]; try done.
  specialize (Hk a e v). destruct (k a e v); try done. lia.
Qed.

Lemma waited_bind_r {A B} (m : M W A) (k : A → M W B) :
  total m → (∀ a, waited (k a)) → waited (bind m k).
Proof.
  intros Hm Hk env w. unfold bind. specialize (Hm env w). destruct (m env w) as [a e v| | |]; try done.
  specialize (Hk a e v). destruct (k a e v); try done. lia.
Qed.

Lemma waited_panic {A} s : waited (panic (A := A) s).
Proof. intros env w. done. Qed.

Lemma total_when b (m : M W unit) : total m → total (when b m).
Proof. destruct b; [done|]. intros _. apply total_ret. Qed.

Lemma total_for_each {A} (l : list A) (body : A → M W unit) :
  (∀ x, total (body x)) → total (for_each l body).
Proof. intros Hb. induction l as [|x l IH]; [apply total_ret|]. by apply total_bind. Qed.

Lemma total_for_find {A B} (l : list A) (body : A → M W (option B)) :
  (∀ x, total (body x)) → total (for_find l body).
Proof.
  intros Hb. induction l as [|x l IH]; [apply total_ret|]. apply total_bind; [done|].
  intros [b|]; [apply total_ret|done].
Qed.

Lemma waits_some {A} (m : M W A) : total m → waits (bind m (λ a, ret (Some a))).
Proof. intros Hm env w. unfold bind, ret. specialize (Hm env w). by destruct (m env w). Qed.
Lemma waits_ret_some {A} (a : A) : waits (ret (Some a)).
Proof. intros env w. exact (le_n (length env)). Qed.
Lemma waits_waited {A} (m : M W (option A)) : waited m → waits m.
Proof. intros Hm env w. specialize (Hm env w). destruct (m env w) as [[]| | |]; try done. lia. Qed.
Lemma waits_panic {A} s : waits (panic (A := option A) s).
Proof. intros env w. done. Qed.

Lemma waits_bind {A B} (m : M W B) (k : B → M W (option A)) :
  total m → (∀ b, waits (k b)) → waits (bind m k).
Proof.
  intros Hm Hk env w. unfold bind. specialize (Hm env w). destruct (m env w) as [a e v| | |]; try done.
  specialize (Hk a e v). destruct (k a e v) as [[]| | |]; try done; lia.
Qed.

Lemma loop_fuel {A} (body : M W (option A)) n env w :
  waits body → (length env < n)%nat → loop n body env w ≠ NoFuel.
Proof.
  intros Hb. revert env w. induction n as [|n IH]; intros env w Hn; [lia|].
  simpl. unfold bind. specialize (Hb env w).
  destruct (body env w) as [[a|] env' w'| | |]; try done.
  apply IH. lia.
Qed.

Lemma total_loop_wait {A} (body : M W (option A)) : waits body → total (loop_wait body).
Proof.
  intros Hb env w. unfold loop_wait. assert (Hn : (length env < S (length env))%nat) by lia. revert Hn.
  generalize (S (length env)). intros n. revert env w. induction n as [|n IH]; intros env w Hn; [lia|].
  simpl. unfold bind. specialize (Hb env w). destruct (body env w) as [[a|] e v| | |]; try done.
  specialize (IH e v ltac:(lia)). destruct (loop n body e v); try done. lia.
Qed.

Lemma loop_None {A} n (body : M W (option A)) env w env' w' :
  body env w = Ret None env' w' → loop (S n) body env w = loop n body env' w'.
Proof. intros H. cbn [loop]. by rewrite (bind_Ret _ _ _ _ _ _ _ H). Qed.
Lemma loop_Some {A} n (body : M W (option A)) env w a env' w' :
  body env w = Ret (Some a) env' w' → loop (S n) body env w = Ret a env' w'.
Proof. intros H. cbn [loop]. by rewrite (bind_Ret _ _ _ _ _ _ _ H). Qed.

Lemma loop_wait_Some {A} (body : M W (option A)) env w a env' w' :
  body env w = Ret (Some a) env' w' → loop_wait body env w = Ret a env' w'.
Proof. intros H. unfold loop_wait. simpl. by rewrite (bind_Ret _ _ _ _ _ _ _ H). Qed.

Lemma loop_wait_fuel {A} (body : M W (option A)) env w :
  waits body → loop_wait body env w ≠ NoFuel.
Proof. intros Hb. apply loop_fuel; [done|lia]. Qed.
End MonadLemmas.

(** [total] decomposes code into the calls it makes; what the database [total]
    knows of those calls closes the rest. *)
Create HintDb total.
#[export] Hint Resolve total_ret total_gets total_modify total_panic total_wait_event waited_wait_event
  waited_panic waits_ret_some waits_panic : total.

Ltac total_step :=
  match goal with
  | |- ∀ _, _ => intro
  | |- total (bind _ _) => apply total_bind
  | |- total (when _ _) => apply total_when
  | |- total (for_each _ _) => apply total_for_each
  | |- total (for_find _ _) => apply total_for_find
  | |- total (loop_wait _) => apply total_loop_wait
  | |- total (match ?x with _ => _ end) => destruct x
  | |- total (let _ := _ in _) => cbv zeta
  | |- waits (bind wait_event _) => apply waits_waited
  | |- waits (bind _ (λ _, ret None)) => apply waits_waited
  | |- waits (bind _ _) => apply waits_bind
  | |- waits (match ?x with _ => _ end) => destruct x
  | |- waited (bind wait_event _) => apply waited_bind_l
  | |- waited (bind _ (λ _, ret None)) => apply waited_bind_l
  | |- waited (bind _ _) => apply waited_bind_r
  | |- waited (match ?x with _ => _ end) => destruct x
  | |- _ => solve [eauto with total]
  end.
Ltac total := repeat total_step.

(** [mrun H] runs the first command of a bind with the equation [H]. *)
Ltac mrun H := rewrite (bind_Ret _ _ _ _ _ _ _ H).

(** [mcall lem] runs the first command with the equation [lem] about it; what
    [lem] asks for is looked for among the hypotheses. *)
Tactic Notation "mcall" uconstr(lem) :=
  lazymatch goal with
  | |- wp _ _ _ _ => eapply wp_intro; [eapply lem; try eassumption|cbv beta]
  | |- _ => etransitivity; [eapply bind_Ret; eapply lem; try eassumption|cbv beta]
  end.

(** [mstep] runs the first command when it is one of the primitive ones, in a
    goal [m env w = r] or [wp m env w Q]. *)
Ltac mstep :=
  lazymatch goal with
  | |- bind (bind ?m ?k) ?h ?e ?w = _ => rewrite (bind_assoc m k h e w)
  | |- bind (gets ?f) ?k ?e ?w = ?R => change (k (f w) e w = R)
  | |- bind (modify ?f) ?k ?e ?w = ?R => change (k tt e (f w) = R)
  | |- bind (ret ?a) ?k ?e ?w = ?R => change (k a e w = R)
  | |- bind (when true ?m) ?k ?e ?w = ?R => change (bind m k e w = R)
  | |- bind (when false ?m) ?k ?e ?w = ?R => change (k tt e w = R)
  | |- bind (panic ?s) ?k ?e ?w = ?R => change (Panic s = R)
  | |- gets ?f ?e ?w = ?R => change (Ret (f w) e w = R)
  | |- modify ?f ?e ?w = ?R => change (Ret tt e (f w) = R)
  | |- ret ?a ?e ?w = ?R => change (Ret a e w = R)
  | |- when true ?m ?e ?w = ?R => change (m e w = R)
  | |- when false ?m ?e ?w = ?R => change (Ret tt e w = R)
  | |- panic ?s ?e ?w = ?R => change (Panic s = R)
  | |- wp (bind ?m ?k) ?e ?w ?Q => apply wp_bind
  | |- wp (gets ?f) ?e ?w ?Q => change (Q (f w) e w)
  | |- wp (modify ?f) ?e ?w ?Q => change (Q tt e (f w))
  | |- wp (ret ?a) ?e ?w ?Q => change (Q a e w)
  | |- wp (when true ?m) ?e ?w ?Q => change (wp m e w Q)
  | |- wp (when false ?m) ?e ?w ?Q => change (Q tt e w)
  end; cbv beta.
Ltac msteps := repeat mstep.

(** ** Searching *)

Lemma seqZ_split a n i : a ≤ i < a + n → seqZ a n = seqZ a (i - a) ++ i :: seqZ (i + 1) (a + n - i - 1).
Proof.
  intros Hi. replace (a + n - i - 1) with (Z.pred (a + n - i)) by lia.
  rewrite <-(seqZ_cons i) by lia. replace i with (a + (i - a)) at 2 by lia.
  rewrite <-seqZ_app by lia. f_equal. lia.
Qed.

Lemma find_skip {A} (f : A → bool) l1 l2 : (∀ x, x ∈ l1 → f x = false) → List.find f (l1 ++ l2) = List.find f l2.
Proof.
  induction l1 as [|x l1 IH]; intros Hf; [done|]. cbn. rewrite (Hf x) by (by left). apply IH. intros y Hy. apply Hf. by right.
Qed.

Lemma find_seqZ_first (f : Z → bool) a n i :
  a ≤ i < a + n → f i = true → (∀ j, a ≤ j < i → f j = false) → List.find f (seqZ a n) = Some i.
Proof.
  intros Hi Ht Hf. rewrite (seqZ_split a n i) by done. rewrite find_skip; [cbn; by rewrite Ht|].
  intros j Hj%elem_of_seqZ. apply Hf. lia.
Qed.

Lemma find_seqZ_none (f : Z → bool) a n : (∀ j, a ≤ j < a + n → f j = false) → List.find f (seqZ a n) = None.
Proof. intros Hf. rewrite <-(app_nil_r (seqZ a n)), find_skip; [done|]. intros j Hj%elem_of_seqZ. apply Hf. lia. Qed.

(** ** C integers

    A C integer is a [Z]; the conversions to a width are written out. *)

Definition u8 (x : Z) : Z := x `mod` 2 ^ 8.
Definition u16 (x : Z) : Z := x `mod` 2 ^ 16.
Definition u32 (x : Z) : Z := x `mod` 2 ^ 32.
Definition u64 (x : Z) : Z := x `mod` 2 ^ 64.
Definition i16 (x : Z) : Z := (x + 2 ^ 15) `mod` 2 ^ 16 - 2 ^ 15.
Definition i32 (x : Z) : Z := (x + 2 ^ 31) `mod` 2 ^ 32 - 2 ^ 31.
Definition i64 (x : Z) : Z := (x + 2 ^ 63) `mod` 2 ^ 64 - 2 ^ 63.

(** [nz x] is the truth value of the C expression [x]. *)
Definition nz (x : Z) : bool := negb (x =? 0).

Lemma nz_true x : nz x = true ↔ x ≠ 0.
Proof. unfold nz. rewrite negb_true_iff, Z.eqb_neq. done. Qed.
Lemma nz_false x : nz x = false ↔ x = 0.
Proof. unfold nz. rewrite negb_false_iff, Z.eqb_eq. done. Qed.

Lemma u32_small x : 0 ≤ x < 2 ^ 32 → u32 x = x.
Proof. apply Z.mod_small. Qed.
Lemma u64_small x : 0 ≤ x < 2 ^ 64 → u64 x = x.
Proof. apply Z.mod_small. Qed.
Lemma u64_range x : 0 ≤ u64 x < 2 ^ 64.
Proof. by apply Z.mod_pos_bound. Qed.
Lemma u32_range x : 0 ≤ u32 x < 2 ^ 32.
Proof. by apply Z.mod_pos_bound. Qed.
Lemma i32_small x : - 2 ^ 31 ≤ x < 2 ^ 31 → i32 x = x.
Proof. intros. unfold i32. rewrite Z.mod_small; lia. Qed.

(** Counters that run modulo 2^32. *)
Lemma u32_mod_pow x k : 0 ≤ k ≤ 32 → u32 x `mod` 2 ^ k = x `mod` 2 ^ k.
Proof.
  intros Hk. unfold u32. apply Z.mod_mod_divide. exists (2 ^ (32 - k)). rewrite <-Z.pow_add_r by lia. f_equal. lia.
Qed.
Lemma u32_sub_small x y : 0 ≤ y < 2 ^ 32 → u32 (u32 (x + y) - x) = y.
Proof. intros Hy. unfold u32. rewrite Zminus_mod_idemp_l. replace (x + y - x) with y by lia. by apply Z.mod_small. Qed.

Lemma u32_pred x : u32 (u32 x - 1) = u32 (x - 1).
Proof. unfold u32. apply Zminus_mod_idemp_l. Qed.
Lemma u32_succ x : u32 (u32 x + 1) = u32 (x + 1).
Proof. unfold u32. apply Zplus_mod_idemp_l. Qed.

Lemma u32_inj_near x a b : 0 ≤ a < 2 ^ 32 → 0 ≤ b < 2 ^ 32 → u32 (x + a) = u32 (x + b) → a = b.
Proof. intros Ha Hb E. rewrite <-(u32_sub_small x a Ha), <-(u32_sub_small x b Hb). by rewrite E. Qed.

(** ** Functions as arrays *)

Lemma fn_lookup_insert_if {A T} `{EqDecision A} (f : A → T) a b x :
  (<[a := x]> f) b = if decide (a = b) then x else f b.
Proof. case_decide as Hab; [subst; apply fn_lookup_insert|by apply fn_lookup_insert_ne]. Qed.

Lemma fn_insert_id {A T} `{EqDecision A} (f : A → T) a : <[a := f a]> f = f.
Proof.
  extensionality b. destruct (decide (a = b)) as [->|].
  - by rewrite fn_lookup_insert.
  - by rewrite fn_lookup_insert_ne.
Qed.

Lemma fn_insert_insert {A T} `{EqDecision A} (f : A → T) a x y :
  <[a := x]> (<[a := y]> f) = <[a := x]> f.
Proof.
  extensionality b. destruct (decide (a = b)) as [->|].
  - by rewrite !fn_lookup_insert.
  - by rewrite !fn_lookup_insert_ne.
Qed.

Lemma fn_insert_same {A T} `{EqDecision A} (f : A → T) a x : f a = x → <[a := x]> f = f.
Proof. intros <-. apply fn_insert_id. Qed.

Lemma fn_insert_comm {A T} `{EqDecision A} (f : A → T) a b x y :
  a ≠ b → <[a := x]> (<[b := y]> f) = <[b := y]> (<[a := x]> f).
Proof.
  intros Hab. extensionality c.
  destruct (decide (a = c)) as [->|], (decide (b = c)) as [->|]; try done.
  - by rewrite fn_lookup_insert, fn_lookup_insert_ne, fn_lookup_insert.
  - by rewrite fn_lookup_insert, (fn_lookup_insert_ne _ a), fn_lookup_insert.
  - by rewrite !fn_lookup_insert_ne.
Qed.

Lemma fn_alter_insert {A T} `{EqDecision A} (g : T → T) a (f : A → T) :
  alter g a f = <[a := g (f a)]> f.
Proof. done. Qed.

Create HintDb xv6.
Create Rewrite HintDb xv6.
#[export] Hint Rewrite @fn_alter_insert @fn_lookup_insert @fn_insert_id @fn_insert_insert : xv6.
#[export] Hint Rewrite @fn_lookup_insert_ne using (congruence || lia) : xv6.

(** ** Ring buffers

    [ring buf n r len] is the [len] elements of an array of [n] that start at
    index [r], wrapping round. *)

Definition ring (buf : Z → Z) (n r len : Z) : list Z := (λ i, buf ((r + i) `mod` n)) <$> seqZ 0 len.

Lemma ring_length buf n r len : length (ring buf n r len) = Z.to_nat len.
Proof. unfold ring. by rewrite length_fmap, length_seqZ. Qed.

Lemma ring_nil buf n r : ring buf n r 0 = [].
Proof. done. Qed.

(** Only the index modulo [n] matters. *)
Lemma ring_mod buf n r r' len : r `mod` n = r' `mod` n → ring buf n r len = ring buf n r' len.
Proof.
  intros E. unfold ring. apply list_fmap_ext. intros _ i _. f_equal.
  by rewrite <-(Zplus_mod_idemp_l r), E, Zplus_mod_idemp_l.
Qed.

Lemma ring_cons buf n r len : 0 < len → ring buf n r len = buf (r `mod` n) :: ring buf n (r + 1) (len - 1).
Proof.
  intros Hl. unfold ring. rewrite seqZ_cons by done. rewrite fmap_cons, Z.add_0_r. f_equal.
  rewrite <-Z.sub_1_r. change (Z.succ 0) with (1 + 0). rewrite <-(fmap_add_seqZ 1 0), <-list_fmap_compose.
  apply list_fmap_ext. intros _ i _. cbn. f_equal. f_equal. lia.
Qed.

Lemma ring_snoc buf n r len : 0 ≤ len → ring buf n r (len + 1) = ring buf n r len ++ [buf ((r + len) `mod` n)].
Proof. intros Hl. unfold ring. by rewrite seqZ_app, fmap_app by lia. Qed.

(** Storing behind the last element of a ring that is not full. *)
Lemma ring_insert buf n r len c :
  0 ≤ len < n → ring (<[(r + len) `mod` n := c]> buf) n r len = ring buf n r len.
Proof.
  intros Hl. unfold ring. apply list_fmap_ext. intros k i [-> Hk]%lookup_seqZ. apply fn_lookup_insert_ne.
  intros E. assert (Hm : (r + len - (r + (0 + Z.of_nat k))) `mod` n = 0).
  { rewrite Zminus_mod, E, Z.sub_diag. apply Z.mod_0_l. lia. }
  replace (r + len - (r + (0 + Z.of_nat k))) with (len - Z.of_nat k) in Hm by lia.
  rewrite Z.mod_small in Hm by lia. lia.
Qed.

Lemma ring_push buf n r len c :
  0 ≤ len < n → ring (<[(r + len) `mod` n := c]> buf) n r (len + 1) = ring buf n r len ++ [c].
Proof. intros Hl. rewrite ring_snoc by lia. by rewrite ring_insert, fn_lookup_insert. Qed.

(** Dropping the last element. *)
Lemma ring_removelast buf n r len : 0 < len → ring buf n r (len - 1) = removelast (ring buf n r len).
Proof.
  intros Hl. replace len with (len - 1 + 1) at 2 by lia. rewrite ring_snoc by lia. by rewrite removelast_last.
Qed.

Lemma ring_app buf n r l1 l2 :
  0 ≤ l1 → 0 ≤ l2 → ring buf n r (l1 + l2) = ring buf n r l1 ++ ring buf n (r + l1) l2.
Proof.
  intros H1 H2. unfold ring. rewrite seqZ_app by done. rewrite fmap_app. f_equal.
  rewrite (Z.add_comm 0), <-(fmap_add_seqZ l1 0), <-list_fmap_compose. apply list_fmap_ext. intros _ i _. cbn.
  f_equal. f_equal. lia.
Qed.
