(* ===== verification/Types.v ===== *)
(** * The data of the kernel

    The constants of param.h, riscv.h, memlayout.h, fs.h, stat.h, fcntl.h and
    elf.h, the structs of the headers as records, and the state of the whole
    kernel as one record [world] with one field per global of the C code. *)

From S2P Require Import Prelude.

(** ** Constants (param.h) *)

Definition NPROC : Z := 64.
Definition NCPU : Z := 8.
Definition NOFILE : Z := 16.
Definition NFILE : Z := 100.
Definition NINODE : Z := 50.
Definition NDEV : Z := 10.
Definition ROOTDEV : Z := 1.
Definition MAXARG : Z := 32.
Definition MAXOPBLOCKS : Z := 10.
Definition LOGSIZE : Z := MAXOPBLOCKS * 3.
Definition NBUF : Z := MAXOPBLOCKS * 3.
Definition FSSIZE : Z := 1000.
Definition MAXPATH : Z := 128.

(** ** Registers and page tables (riscv.h) *)

Definition SSTATUS_SPP : Z := 1 ≪ 8.
Definition SSTATUS_SPIE : Z := 1 ≪ 5.
Definition SSTATUS_SIE : Z := 1 ≪ 1.
Definition SATP_SV39 : Z := 8 ≪ 60.
Definition MAKE_SATP (pagetable : Z) : Z := Z.lor SATP_SV39 (pagetable ≫ 12).

Definition PGSIZE : Z := 4096.
Definition PGSHIFT : Z := 12.

(** [PGROUNDUP] of a 64-bit value: the addition may wrap. *)
Definition PGROUNDUP (sz : Z) : Z := Z.land (u64 (sz + PGSIZE - 1)) (Z.lnot (PGSIZE - 1)).
Definition PGROUNDDOWN (a : Z) : Z := Z.land a (Z.lnot (PGSIZE - 1)).

Definition PTE_V : Z := 1 ≪ 0.
Definition PTE_R : Z := 1 ≪ 1.
Definition PTE_W : Z := 1 ≪ 2.
Definition PTE_X : Z := 1 ≪ 3.
Definition PTE_U : Z := 1 ≪ 4.

Definition PA2PTE (pa : Z) : Z := u64 ((pa ≫ 12) ≪ 10).
Definition PTE2PA (pte : Z) : Z := u64 ((pte ≫ 10) ≪ 12).
Definition PTE_FLAGS (pte : Z) : Z := Z.land pte 0x3FF.

Definition PXMASK : Z := 0x1FF.
Definition PXSHIFT (level : Z) : Z := PGSHIFT + 9 * level.
Definition PX (level va : Z) : Z := Z.land (va ≫ PXSHIFT level) PXMASK.

Definition MAXVA : Z := 1 ≪ (9 + 9 + 9 + 12 - 1).

(** ** Physical memory (memlayout.h) *)

Definition UART0 : Z := 0x10000000.
Definition UART0_IRQ : Z := 10.
Definition VIRTIO0 : Z := 0x10001000.
Definition VIRTIO0_IRQ : Z := 1.
Definition CLINT : Z := 0x2000000.
Definition PLIC : Z := 0x0c000000.
Definition PLIC_SENABLE (hart : Z) : Z := PLIC + 0x2080 + hart * 0x100.
Definition PLIC_SPRIORITY (hart : Z) : Z := PLIC + 0x201000 + hart * 0x2000.
Definition PLIC_SCLAIM (hart : Z) : Z := PLIC + 0x201004 + hart * 0x2000.
Definition KERNBASE : Z := 0x80000000.
Definition PHYSTOP : Z := KERNBASE + 128 * 1024 * 1024.
Definition TRAMPOLINE : Z := MAXVA - PGSIZE.
Definition KSTACK (p : Z) : Z := TRAMPOLINE - (p + 1) * 2 * PGSIZE.
Definition TRAPFRAME : Z := TRAMPOLINE - PGSIZE.

(** ** On-disk format (fs.h), stat.h, fcntl.h *)

Definition ROOTINO : Z := 1.
Definition BSIZE : Z := 1024.
Definition FSMAGIC : Z := 0x10203040.
Definition NDIRECT : Z := 12.
Definition NINDIRECT : Z := BSIZE / 4.
Definition MAXFILE : Z := NDIRECT + NINDIRECT.
Definition DIRSIZ : Z := 14.
Definition sizeof_dinode : Z := 2 + 2 + 2 + 2 + 4 + 4 * (NDIRECT + 1).
Definition sizeof_dirent : Z := 2 + DIRSIZ.
Definition IPB : Z := BSIZE / sizeof_dinode.
Definition BPB : Z := BSIZE * 8.

Definition T_DIR : Z := 1.
Definition T_FILE : Z := 2.
Definition T_DEVICE : Z := 3.

Definition O_RDONLY : Z := 0x000.
Definition O_WRONLY : Z := 0x001.
Definition O_RDWR : Z := 0x002.
Definition O_CREATE : Z := 0x200.
Definition O_TRUNC : Z := 0x400.

Definition CONSOLE : Z := 1.
Definition PIPESIZE : Z := 512.
Definition INPUT_BUF : Z := 128.
Definition UART_TX_BUF_SIZE : Z := 32.

(** ** Byte-addressed memory

    Physical memory and a disk block are both arrays of bytes.  Words are
    little-endian. *)

Abbreviation bytes := (Z → Z) (only parsing).

(** The [n] bytes at [a]. *)
Definition ld_bytes (m : bytes) (a n : Z) : list Z := m <$> seqZ a n.

Definition ld (n : Z) (m : bytes) (a : Z) : Z := little_endian_to_Z 8 (ld_bytes m a n).

Fixpoint st_bytes (m : bytes) (a : Z) (l : list Z) : bytes :=
  match l with
  | [] => m
  | b :: l' => st_bytes (<[a := b]> m) (a + 1) l'
  end.

Definition st (n : Z) (m : bytes) (a v : Z) : bytes :=
  st_bytes m a (Z_to_little_endian n 8 v).

Definition ld8 (m : bytes) (a : Z) : Z := m a.
Definition ld16 : bytes → Z → Z := ld 2.
Definition ld32 : bytes → Z → Z := ld 4.
Definition ld64 : bytes → Z → Z := ld 8.
Definition st8 (m : bytes) (a v : Z) : bytes := <[a := u8 v]> m.
Definition st16 : bytes → Z → Z → bytes := st 2.
Definition st32 : bytes → Z → Z → bytes := st 4.
Definition st64 : bytes → Z → Z → bytes := st 8.

(** What memset and memmove leave in memory (see StringC for the loops):
    [n] bytes filled with [c]; [n] bytes of [src] at [s] copied to [d]. *)
Definition mem_fill (m : bytes) (a n c : Z) : bytes :=
  λ x, if (a <=? x) && (x <? a + n) then u8 c else m x.

Definition mem_copy (m : bytes) (d : Z) (src : bytes) (s n : Z) : bytes :=
  λ x, if (d <=? x) && (x <? d + n) then src (x - d + s) else m x.

Definition zeroes : bytes := λ _, 0.

(** ** Field updates

    Every record comes with its expansion [eta r]; [set_field f v r] is [eta r]
    with [v] in the place of [f r]. *)

Class Eta (R : Type) := eta : R → R.

Ltac set_field f v r :=
  let e := eval cbv delta [eta] beta in (eta r) in
  let e := lazymatch e with ?i r => eval cbv delta [i] beta in (i r) end in
  let p := eval pattern (f r) in e in
  lazymatch p with ?F _ => let t := eval cbv beta in (F v) in exact t end.

(** [rsimpl] reads the fields of updated records in the goal. *)
Ltac rsimpl_term t k :=
  lazymatch t with
  | ?p (?s ?v ?r) =>
      let t' := constr:(p (s v r)) in is_proj t';
      lazymatch type of r with ?R => let _ := constr:(_ : Eta R) in idtac end;
      let u := eval cbn [s p] in t' in k t' u
  | ?p ?r =>
      let t' := constr:(p r) in is_proj t';
      let u := eval cbn [p] in t' in k t' u
  end.
Ltac rsimpl :=
  repeat match goal with
  | |- context [?p ?r] =>
      let t := constr:(p r) in
      rsimpl_term t ltac:(fun t u => progress change t with u)
  end.
Ltac rsimpl_in H :=
  repeat match type of H with
  | context [?p ?r] =>
      let t := constr:(p r) in
      rsimpl_term t ltac:(fun t u => progress change t with u in H)
  end.

#[local] Set Primitive Projections.

(** ** Locks (spinlock.h, sleeplock.h)

    A lock is named rather than pointed to: [sleepid] names the sleep locks and
    [lockid] the spin locks, among them the spin lock inside each sleep lock. *)

Inductive sleepid := SBuf (b : Z) | SInode (ip : Z).

Inductive lockid :=
| LKmem | LPid | LProc (p : Z) | LTicks | LBcache | LSleep (s : sleepid) | LLog
| LIcache | LFtable | LPipe (pi : Z) | LCons | LUart | LDisk | LPr.

#[export] Instance sleepid_eq_dec : EqDecision sleepid.
Proof. solve_decision. Defined.
#[export] Instance lockid_eq_dec : EqDecision lockid.
Proof. solve_decision. Defined.

Record spinlock := mkSpinlock {
  lk_locked : bool;
  lk_name : string;
  lk_cpu : option Z
}.

#[export] Instance spinlock_eta : Eta spinlock := λ r,
  mkSpinlock (lk_locked r) (lk_name r) (lk_cpu r).
Definition set_lk_locked (v : bool) (r : spinlock) : spinlock := ltac:(set_field lk_locked v r).
Definition set_lk_name (v : string) (r : spinlock) : spinlock := ltac:(set_field lk_name v r).
Definition set_lk_cpu (v : option Z) (r : spinlock) : spinlock := ltac:(set_field lk_cpu v r).

Record sleeplock := mkSleeplock {
  sl_locked : bool;
  sl_name : string;
  sl_pid : Z
}.

#[export] Instance sleeplock_eta : Eta sleeplock := λ r,
  mkSleeplock (sl_locked r) (sl_name r) (sl_pid r).
Definition set_sl_locked (v : bool) (r : sleeplock) : sleeplock := ltac:(set_field sl_locked v r).
Definition set_sl_name (v : string) (r : sleeplock) : sleeplock := ltac:(set_field sl_name v r).
Definition set_sl_pid (v : Z) (r : sleeplock) : sleeplock := ltac:(set_field sl_pid v r).

(** ** Processes and cpus (proc.h)

    [chan] names the addresses the kernel sleeps on. *)

Inductive chan :=
| CProc (p : Z)        (* a struct proc, in wait *)
| CSleep (s : sleepid) (* a sleep lock *)
| CLog                 (* &log *)
| CPipeRead (pi : Z)   (* &pi->nread *)
| CPipeWrite (pi : Z)  (* &pi->nwrite *)
| CTicks               (* &ticks *)
| CCons                (* &cons.r *)
| CUart                (* &uart_tx_r *)
| CDiskFree            (* &disk.free[0] *)
| CBuf (b : Z).        (* a struct buf, in virtio_disk_rw *)

#[export] Instance chan_eq_dec : EqDecision chan.
Proof. solve_decision. Defined.

Inductive procstate := UNUSED | SLEEPING | RUNNABLE | RUNNING | ZOMBIE.

#[export] Instance procstate_eq_dec : EqDecision procstate.
Proof. solve_decision. Defined.

(** Saved registers for a kernel context switch; [ctx_s] is s0 to s11. *)
Record context := mkContext {
  ctx_ra : Z;
  ctx_sp : Z;
  ctx_s : list Z
}.

#[export] Instance context_eta : Eta context := λ r, mkContext (ctx_ra r) (ctx_sp r) (ctx_s r).
Definition set_ctx_ra (v : Z) (r : context) : context := ltac:(set_field ctx_ra v r).
Definition set_ctx_sp (v : Z) (r : context) : context := ltac:(set_field ctx_sp v r).
Definition set_ctx_s (v : list Z) (r : context) : context := ltac:(set_field ctx_s v r).

(** Per-cpu state; the scheduler's saved registers are part of [swtch]. *)
Record cpu := mkCpu {
  c_proc : option Z;
  c_noff : Z;
  c_intena : bool
}.

#[export] Instance cpu_eta : Eta cpu := λ r, mkCpu (c_proc r) (c_noff r) (c_intena r).
Definition set_c_proc (v : option Z) (r : cpu) : cpu := ltac:(set_field c_proc v r).
Definition set_c_noff (v : Z) (r : cpu) : cpu := ltac:(set_field c_noff v r).
Definition set_c_intena (v : bool) (r : cpu) : cpu := ltac:(set_field c_intena v r).

(** The control registers of a hart that the kernel reads and writes. *)
Record hart := mkHart {
  h_sstatus : Z;
  h_sip : Z;
  h_scause : Z;
  h_sepc : Z;
  h_stval : Z;
  h_stvec : Z;
  h_satp : Z
}.

#[export] Instance hart_eta : Eta hart := λ r,
  mkHart (h_sstatus r) (h_sip r) (h_scause r) (h_sepc r) (h_stval r) (h_stvec r) (h_satp r).
Definition set_h_sstatus (v : Z) (r : hart) : hart := ltac:(set_field h_sstatus v r).
Definition set_h_sip (v : Z) (r : hart) : hart := ltac:(set_field h_sip v r).
Definition set_h_scause (v : Z) (r : hart) : hart := ltac:(set_field h_scause v r).
Definition set_h_sepc (v : Z) (r : hart) : hart := ltac:(set_field h_sepc v r).
Definition set_h_stval (v : Z) (r : hart) : hart := ltac:(set_field h_stval v r).
Definition set_h_stvec (v : Z) (r : hart) : hart := ltac:(set_field h_stvec v r).
Definition set_h_satp (v : Z) (r : hart) : hart := ltac:(set_field h_satp v r).

(** The machine-mode registers, and sie, which only start.c writes. *)
Record mhart := mkMhart {
  m_hartid : Z;
  m_status : Z;
  m_epc : Z;
  m_edeleg : Z;
  m_ideleg : Z;
  m_sie : Z;
  m_pmpaddr0 : Z;
  m_pmpcfg0 : Z;
  m_scratch : Z;
  m_tvec : Z;
  m_ie : Z
}.

#[export] Instance mhart_eta : Eta mhart := λ r,
  mkMhart (m_hartid r) (m_status r) (m_epc r) (m_edeleg r) (m_ideleg r) (m_sie r) (m_pmpaddr0 r)
    (m_pmpcfg0 r) (m_scratch r) (m_tvec r) (m_ie r).
Definition set_m_hartid (v : Z) (r : mhart) : mhart := ltac:(set_field m_hartid v r).
Definition set_m_status (v : Z) (r : mhart) : mhart := ltac:(set_field m_status v r).
Definition set_m_epc (v : Z) (r : mhart) : mhart := ltac:(set_field m_epc v r).
Definition set_m_edeleg (v : Z) (r : mhart) : mhart := ltac:(set_field m_edeleg v r).
Definition set_m_ideleg (v : Z) (r : mhart) : mhart := ltac:(set_field m_ideleg v r).
Definition set_m_sie (v : Z) (r : mhart) : mhart := ltac:(set_field m_sie v r).
Definition set_m_pmpaddr0 (v : Z) (r : mhart) : mhart := ltac:(set_field m_pmpaddr0 v r).
Definition set_m_pmpcfg0 (v : Z) (r : mhart) : mhart := ltac:(set_field m_pmpcfg0 v r).
Definition set_m_scratch (v : Z) (r : mhart) : mhart := ltac:(set_field m_scratch v r).
Definition set_m_tvec (v : Z) (r : mhart) : mhart := ltac:(set_field m_tvec v r).
Definition set_m_ie (v : Z) (r : mhart) : mhart := ltac:(set_field m_ie v r).

(** struct proc.  A process, file or inode pointer is the index in its table; a page is its physical address. *)
Record proc := mkProc {
  p_state : procstate;
  p_parent : option Z;
  p_chan : option chan;
  p_killed : bool;
  p_xstate : Z;
  p_pid : Z;
  p_kstack : Z;
  p_sz : Z;
  p_pagetable : Z;
  p_trapframe : Z;
  p_context : context;
  p_ofile : Z → option Z;
  p_cwd : option Z;
  p_name : list Z
}.

#[export] Instance proc_eta : Eta proc := λ r,
  mkProc (p_state r) (p_parent r) (p_chan r) (p_killed r) (p_xstate r) (p_pid r) (p_kstack r)
    (p_sz r) (p_pagetable r) (p_trapframe r) (p_context r) (p_ofile r) (p_cwd r) (p_name r).
Definition set_p_state (v : procstate) (r : proc) : proc := ltac:(set_field p_state v r).
Definition set_p_parent (v : option Z) (r : proc) : proc := ltac:(set_field p_parent v r).
Definition set_p_chan (v : option chan) (r : proc) : proc := ltac:(set_field p_chan v r).
Definition set_p_killed (v : bool) (r : proc) : proc := ltac:(set_field p_killed v r).
Definition set_p_xstate (v : Z) (r : proc) : proc := ltac:(set_field p_xstate v r).
Definition set_p_pid (v : Z) (r : proc) : proc := ltac:(set_field p_pid v r).
Definition set_p_kstack (v : Z) (r : proc) : proc := ltac:(set_field p_kstack v r).
Definition set_p_sz (v : Z) (r : proc) : proc := ltac:(set_field p_sz v r).
Definition set_p_pagetable (v : Z) (r : proc) : proc := ltac:(set_field p_pagetable v r).
Definition set_p_trapframe (v : Z) (r : proc) : proc := ltac:(set_field p_trapframe v r).
Definition set_p_context (v : context) (r : proc) : proc := ltac:(set_field p_context v r).
Definition set_p_ofile (v : Z → option Z) (r : proc) : proc := ltac:(set_field p_ofile v r).
Definition set_p_cwd (v : option Z) (r : proc) : proc := ltac:(set_field p_cwd v r).
Definition set_p_name (v : list Z) (r : proc) : proc := ltac:(set_field p_name v r).

(** ** Buffers, log, inodes, files (buf.h, log.c, fs.h, file.h, pipe.c) *)

(** struct buf.  [b_prev] and [b_next] are indices; index [NBUF] is [bcache.head]. *)
Record buf := mkBuf {
  b_valid : bool;
  b_disk : bool;
  b_dev : Z;
  b_blockno : Z;
  b_refcnt : Z;
  b_prev : Z;
  b_next : Z;
  b_data : bytes
}.

#[export] Instance buf_eta : Eta buf := λ r,
  mkBuf (b_valid r) (b_disk r) (b_dev r) (b_blockno r) (b_refcnt r) (b_prev r) (b_next r)
    (b_data r).
Definition set_b_valid (v : bool) (r : buf) : buf := ltac:(set_field b_valid v r).
Definition set_b_disk (v : bool) (r : buf) : buf := ltac:(set_field b_disk v r).
Definition set_b_dev (v : Z) (r : buf) : buf := ltac:(set_field b_dev v r).
Definition set_b_blockno (v : Z) (r : buf) : buf := ltac:(set_field b_blockno v r).
Definition set_b_refcnt (v : Z) (r : buf) : buf := ltac:(set_field b_refcnt v r).
Definition set_b_prev (v : Z) (r : buf) : buf := ltac:(set_field b_prev v r).
Definition set_b_next (v : Z) (r : buf) : buf := ltac:(set_field b_next v r).
Definition set_b_data (v : bytes) (r : buf) : buf := ltac:(set_field b_data v r).

(** struct log, with its logheader [lh] as [l_n] and [l_block]. *)
Record logstate := mkLog {
  l_start : Z;
  l_size : Z;
  l_outstanding : Z;
  l_committing : bool;
  l_dev : Z;
  l_n : Z;
  l_block : Z → Z
}.

#[export] Instance logstate_eta : Eta logstate := λ r,
  mkLog (l_start r) (l_size r) (l_outstanding r) (l_committing r) (l_dev r) (l_n r) (l_block r).
Definition set_l_start (v : Z) (r : logstate) : logstate := ltac:(set_field l_start v r).
Definition set_l_size (v : Z) (r : logstate) : logstate := ltac:(set_field l_size v r).
Definition set_l_outstanding (v : Z) (r : logstate) : logstate := ltac:(set_field l_outstanding v r).
Definition set_l_committing (v : bool) (r : logstate) : logstate := ltac:(set_field l_committing v r).
Definition set_l_dev (v : Z) (r : logstate) : logstate := ltac:(set_field l_dev v r).
Definition set_l_n (v : Z) (r : logstate) : logstate := ltac:(set_field l_n v r).
Definition set_l_block (v : Z → Z) (r : logstate) : logstate := ltac:(set_field l_block v r).

Record superblock := mkSuperblock {
  sb_magic : Z;
  sb_size : Z;
  sb_nblocks : Z;
  sb_ninodes : Z;
  sb_nlog : Z;
  sb_logstart : Z;
  sb_inodestart : Z;
  sb_bmapstart : Z
}.

#[export] Instance superblock_eta : Eta superblock := λ r,
  mkSuperblock (sb_magic r) (sb_size r) (sb_nblocks r) (sb_ninodes r) (sb_nlog r) (sb_logstart r)
    (sb_inodestart r) (sb_bmapstart r).
Definition set_sb_magic (v : Z) (r : superblock) : superblock := ltac:(set_field sb_magic v r).
Definition set_sb_size (v : Z) (r : superblock) : superblock := ltac:(set_field sb_size v r).
Definition set_sb_nblocks (v : Z) (r : superblock) : superblock := ltac:(set_field sb_nblocks v r).
Definition set_sb_ninodes (v : Z) (r : superblock) : superblock := ltac:(set_field sb_ninodes v r).
Definition set_sb_nlog (v : Z) (r : superblock) : superblock := ltac:(set_field sb_nlog v r).
Definition set_sb_logstart (v : Z) (r : superblock) : superblock := ltac:(set_field sb_logstart v r).
Definition set_sb_inodestart (v : Z) (r : superblock) : superblock := ltac:(set_field sb_inodestart v r).
Definition set_sb_bmapstart (v : Z) (r : superblock) : superblock := ltac:(set_field sb_bmapstart v r).

(** In-memory copy of an inode. *)
Record inode := mkInode {
  i_dev : Z;
  i_inum : Z;
  i_ref : Z;
  i_valid : bool;
  i_type : Z;
  i_major : Z;
  i_minor : Z;
  i_nlink : Z;
  i_size : Z;
  i_addrs : Z → Z
}.

#[export] Instance inode_eta : Eta inode := λ r,
  mkInode (i_dev r) (i_inum r) (i_ref r) (i_valid r) (i_type r) (i_major r) (i_minor r)
    (i_nlink r) (i_size r) (i_addrs r).
Definition set_i_dev (v : Z) (r : inode) : inode := ltac:(set_field i_dev v r).
Definition set_i_inum (v : Z) (r : inode) : inode := ltac:(set_field i_inum v r).
Definition set_i_ref (v : Z) (r : inode) : inode := ltac:(set_field i_ref v r).
Definition set_i_valid (v : bool) (r : inode) : inode := ltac:(set_field i_valid v r).
Definition set_i_type (v : Z) (r : inode) : inode := ltac:(set_field i_type v r).
Definition set_i_major (v : Z) (r : inode) : inode := ltac:(set_field i_major v r).
Definition set_i_minor (v : Z) (r : inode) : inode := ltac:(set_field i_minor v r).
Definition set_i_nlink (v : Z) (r : inode) : inode := ltac:(set_field i_nlink v r).
Definition set_i_size (v : Z) (r : inode) : inode := ltac:(set_field i_size v r).
Definition set_i_addrs (v : Z → Z) (r : inode) : inode := ltac:(set_field i_addrs v r).

Inductive fdtype := FD_NONE | FD_PIPE | FD_INODE | FD_DEVICE.

#[export] Instance fdtype_eq_dec : EqDecision fdtype.
Proof. solve_decision. Defined.

Record file := mkFile {
  f_type : fdtype;
  f_ref : Z;
  f_readable : bool;
  f_writable : bool;
  f_pipe : Z;
  f_ip : option Z;
  f_off : Z;
  f_major : Z
}.

#[export] Instance file_eta : Eta file := λ r,
  mkFile (f_type r) (f_ref r) (f_readable r) (f_writable r) (f_pipe r) (f_ip r) (f_off r)
    (f_major r).
Definition set_f_type (v : fdtype) (r : file) : file := ltac:(set_field f_type v r).
Definition set_f_ref (v : Z) (r : file) : file := ltac:(set_field f_ref v r).
Definition set_f_readable (v : bool) (r : file) : file := ltac:(set_field f_readable v r).
Definition set_f_writable (v : bool) (r : file) : file := ltac:(set_field f_writable v r).
Definition set_f_pipe (v : Z) (r : file) : file := ltac:(set_field f_pipe v r).
Definition set_f_ip (v : option Z) (r : file) : file := ltac:(set_field f_ip v r).
Definition set_f_off (v : Z) (r : file) : file := ltac:(set_field f_off v r).
Definition set_f_major (v : Z) (r : file) : file := ltac:(set_field f_major v r).

(** struct pipe; it fills a page of its own, whose address names it. *)
Record pipe := mkPipe {
  pi_data : Z → Z;
  pi_nread : Z;
  pi_nwrite : Z;
  pi_readopen : bool;
  pi_writeopen : bool
}.

#[export] Instance pipe_eta : Eta pipe := λ r,
  mkPipe (pi_data r) (pi_nread r) (pi_nwrite r) (pi_readopen r) (pi_writeopen r).
Definition set_pi_data (v : Z → Z) (r : pipe) : pipe := ltac:(set_field pi_data v r).
Definition set_pi_nread (v : Z) (r : pipe) : pipe := ltac:(set_field pi_nread v r).
Definition set_pi_nwrite (v : Z) (r : pipe) : pipe := ltac:(set_field pi_nwrite v r).
Definition set_pi_readopen (v : bool) (r : pipe) : pipe := ltac:(set_field pi_readopen v r).
Definition set_pi_writeopen (v : bool) (r : pipe) : pipe := ltac:(set_field pi_writeopen v r).

(** ** Console and uart (console.c, uart.c) *)

Record consstate := mkCons {
  cons_buf : Z → Z;
  cons_r : Z;
  cons_w : Z;
  cons_e : Z
}.

#[export] Instance consstate_eta : Eta consstate := λ r,
  mkCons (cons_buf r) (cons_r r) (cons_w r) (cons_e r).
Definition set_cons_buf (v : Z → Z) (r : consstate) : consstate := ltac:(set_field cons_buf v r).
Definition set_cons_r (v : Z) (r : consstate) : consstate := ltac:(set_field cons_r v r).
Definition set_cons_w (v : Z) (r : consstate) : consstate := ltac:(set_field cons_w v r).
Definition set_cons_e (v : Z) (r : consstate) : consstate := ltac:(set_field cons_e v r).

Record uartstate := mkUart {
  uart_tx_buf : Z → Z;
  uart_tx_w : Z;
  uart_tx_r : Z
}.

#[export] Instance uartstate_eta : Eta uartstate := λ r,
  mkUart (uart_tx_buf r) (uart_tx_w r) (uart_tx_r r).
Definition set_uart_tx_buf (v : Z → Z) (r : uartstate) : uartstate := ltac:(set_field uart_tx_buf v r).
Definition set_uart_tx_w (v : Z) (r : uartstate) : uartstate := ltac:(set_field uart_tx_w v r).
Definition set_uart_tx_r (v : Z) (r : uartstate) : uartstate := ltac:(set_field uart_tx_r v r).

(** ** The virtio block device (virtio_disk.c, virtio.h)

    [daddr] is what a descriptor's addr points to: the request header on a kernel
    stack (with its contents), the data of a buffer, or a status byte. *)

Definition NUM : Z := 8.
Definition VRING_DESC_F_NEXT : Z := 1.
Definition VRING_DESC_F_WRITE : Z := 2.
Definition VIRTIO_BLK_T_IN : Z := 0.
Definition VIRTIO_BLK_T_OUT : Z := 1.

Inductive daddr := ANull | AHdr (type sector : Z) | AData (b : Z) | AStatus (i : Z).

Record vdesc := mkVdesc {
  d_addr : daddr;
  d_len : Z;
  d_flags : Z;
  d_next : Z
}.

#[export] Instance vdesc_eta : Eta vdesc := λ r, mkVdesc (d_addr r) (d_len r) (d_flags r) (d_next r).
Definition set_d_addr (v : daddr) (r : vdesc) : vdesc := ltac:(set_field d_addr v r).
Definition set_d_len (v : Z) (r : vdesc) : vdesc := ltac:(set_field d_len v r).
Definition set_d_flags (v : Z) (r : vdesc) : vdesc := ltac:(set_field d_flags v r).
Definition set_d_next (v : Z) (r : vdesc) : vdesc := ltac:(set_field d_next v r).

(** struct disk: descriptors, avail[1] and avail[2...], used->id and
    used->elems[].id, free[], used_idx, info[].b and info[].status; [v_seen] is
    the device's own position in the avail ring, [v_regs] the stores to its
    registers, newest last. *)
Record vdisk := mkVdisk {
  v_desc : Z → vdesc;
  v_avail_idx : Z;
  v_avail : Z → Z;
  v_used_id : Z;
  v_used : Z → Z;
  v_free : Z → bool;
  v_used_idx : Z;
  v_info_b : Z → option Z;
  v_info_status : Z → Z;
  v_seen : Z;
  v_regs : list (Z * Z)
}.

#[export] Instance vdisk_eta : Eta vdisk := λ r,
  mkVdisk (v_desc r) (v_avail_idx r) (v_avail r) (v_used_id r) (v_used r) (v_free r) (v_used_idx r)
    (v_info_b r) (v_info_status r) (v_seen r) (v_regs r).
Definition set_v_desc (v : Z → vdesc) (r : vdisk) : vdisk := ltac:(set_field v_desc v r).
Definition set_v_avail_idx (v : Z) (r : vdisk) : vdisk := ltac:(set_field v_avail_idx v r).
Definition set_v_avail (v : Z → Z) (r : vdisk) : vdisk := ltac:(set_field v_avail v r).
Definition set_v_used_id (v : Z) (r : vdisk) : vdisk := ltac:(set_field v_used_id v r).
Definition set_v_used (v : Z → Z) (r : vdisk) : vdisk := ltac:(set_field v_used v r).
Definition set_v_free (v : Z → bool) (r : vdisk) : vdisk := ltac:(set_field v_free v r).
Definition set_v_used_idx (v : Z) (r : vdisk) : vdisk := ltac:(set_field v_used_idx v r).
Definition set_v_info_b (v : Z → option Z) (r : vdisk) : vdisk := ltac:(set_field v_info_b v r).
Definition set_v_info_status (v : Z → Z) (r : vdisk) : vdisk := ltac:(set_field v_info_status v r).
Definition set_v_seen (v : Z) (r : vdisk) : vdisk := ltac:(set_field v_seen v r).
Definition set_v_regs (v : list (Z * Z)) (r : vdisk) : vdisk := ltac:(set_field v_regs v r).

(** ** The kernel

    One field per global variable of the kernel, and the hardware it drives. *)

Record world := mkWorld {
  w_tp : Z;  (* this hart: the tp register *)
  w_harts : Z → hart;  (* control registers *)
  w_cpus : Z → cpu;  (* cpus[NCPU] *)
  w_lk : lockid → spinlock;  (* every spin lock *)
  w_slk : sleepid → sleeplock;  (* every sleep lock *)
  w_procs : Z → proc;  (* proc[NPROC] *)
  w_initproc : option Z;
  w_nextpid : Z;
  w_first : bool;  (* forkret's static *)
  w_ticks : Z;
  w_mem : bytes;  (* physical memory *)
  w_freelist : Z;  (* kmem.freelist *)
  w_kpgtbl : Z;  (* kernel_pagetable *)
  w_disk : Z → bytes;  (* the blocks of the disk *)
  w_dtrace : list (Z * bytes);  (* the block writes so far, newest last *)
  w_bufs : Z → buf;  (* bcache.buf and bcache.head *)
  w_log : logstate;
  w_sb : superblock;
  w_inodes : Z → inode;  (* icache.inode *)
  w_files : Z → file;  (* ftable.file *)
  w_pipes : Z → pipe;  (* pipes by page *)
  w_cons : consstate;
  w_uart : uartstate;
  w_thr : list Z;  (* bytes sent to the uart, newest last *)
  w_panicked : bool;
  w_vd : vdisk;  (* struct disk *)
  w_rx : list Z;  (* bytes the uart has received, oldest first *)
  w_txspace : nat;  (* bytes the uart can take *)
  w_dev : Z → Z;  (* what device registers read as *)
  w_mmio : list (Z * Z);  (* stores to device registers, newest last *)
  w_mharts : Z → mhart;  (* machine-mode registers *)
  w_mscratch0 : Z → Z;  (* mscratch0[NCPU * 32] *)
  w_pr_locking : bool;  (* pr.locking *)
  w_devsw : Z → bool;  (* devsw[]: whether the handlers (the console's) are set *)
  w_started : bool  (* main's static *)
}.

#[export] Instance world_eta : Eta world := λ r,
  mkWorld (w_tp r) (w_harts r) (w_cpus r) (w_lk r) (w_slk r) (w_procs r) (w_initproc r)
    (w_nextpid r) (w_first r) (w_ticks r) (w_mem r) (w_freelist r) (w_kpgtbl r) (w_disk r)
    (w_dtrace r) (w_bufs r) (w_log r) (w_sb r) (w_inodes r) (w_files r) (w_pipes r) (w_cons r)
    (w_uart r) (w_thr r) (w_panicked r)
    (w_vd r)
    (w_rx r)
    (w_txspace r)
    (w_dev r)
    (w_mmio r)
    (w_mharts r) (w_mscratch0 r) (w_pr_locking r) (w_devsw r) (w_started r).
Definition set_tp (v : Z) (r : world) : world := ltac:(set_field w_tp v r).
Definition set_harts (v : Z → hart) (r : world) : world := ltac:(set_field w_harts v r).
Definition set_cpus (v : Z → cpu) (r : world) : world := ltac:(set_field w_cpus v r).
Definition set_lk (v : lockid → spinlock) (r : world) : world := ltac:(set_field w_lk v r).
Definition set_slk (v : sleepid → sleeplock) (r : world) : world := ltac:(set_field w_slk v r).
Definition set_procs (v : Z → proc) (r : world) : world := ltac:(set_field w_procs v r).
Definition set_initproc (v : option Z) (r : world) : world := ltac:(set_field w_initproc v r).
Definition set_nextpid (v : Z) (r : world) : world := ltac:(set_field w_nextpid v r).
Definition set_first (v : bool) (r : world) : world := ltac:(set_field w_first v r).
Definition set_ticks (v : Z) (r : world) : world := ltac:(set_field w_ticks v r).
Definition set_mem (v : bytes) (r : world) : world := ltac:(set_field w_mem v r).
Definition set_freelist (v : Z) (r : world) : world := ltac:(set_field w_freelist v r).
Definition set_kpgtbl (v : Z) (r : world) : world := ltac:(set_field w_kpgtbl v r).
Definition set_disk (v : Z → bytes) (r : world) : world := ltac:(set_field w_disk v r).
Definition set_dtrace (v : list (Z * bytes)) (r : world) : world := ltac:(set_field w_dtrace v r).
Definition set_bufs (v : Z → buf) (r : world) : world := ltac:(set_field w_bufs v r).
Definition set_log (v : logstate) (r : world) : world := ltac:(set_field w_log v r).
Definition set_sb (v : superblock) (r : world) : world := ltac:(set_field w_sb v r).
Definition set_inodes (v : Z → inode) (r : world) : world := ltac:(set_field w_inodes v r).
Definition set_files (v : Z → file) (r : world) : world := ltac:(set_field w_files v r).
Definition set_pipes (v : Z → pipe) (r : world) : world := ltac:(set_field w_pipes v r).
Definition set_cons (v : consstate) (r : world) : world := ltac:(set_field w_cons v r).
Definition set_uart (v : uartstate) (r : world) : world := ltac:(set_field w_uart v r).
Definition set_thr (v : list Z) (r : world) : world := ltac:(set_field w_thr v r).
Definition set_panicked (v : bool) (r : world) : world := ltac:(set_field w_panicked v r).
Definition set_vd (v : vdisk) (r : world) : world := ltac:(set_field w_vd v r).
Definition set_rx (v : list Z) (r : world) : world := ltac:(set_field w_rx v r).
Definition set_txspace (v : nat) (r : world) : world := ltac:(set_field w_txspace v r).
Definition set_dev (v : Z → Z) (r : world) : world := ltac:(set_field w_dev v r).
Definition set_mmio (v : list (Z * Z)) (r : world) : world := ltac:(set_field w_mmio v r).

Definition set_mharts (v : Z → mhart) (r : world) : world := ltac:(set_field w_mharts v r).
Definition set_mscratch0 (v : Z → Z) (r : world) : world := ltac:(set_field w_mscratch0 v r).
Definition set_pr_locking (v : bool) (r : world) : world := ltac:(set_field w_pr_locking v r).
Definition set_devsw (v : Z → bool) (r : world) : world := ltac:(set_field w_devsw v r).
Definition set_started (v : bool) (r : world) : world := ltac:(set_field w_started v r).

Arguments mkWorld : clear implicits.

(** Kernel code. *)
Definition K (A : Type) : Type := M world A.

(** The globals as the kernel image has them before any code runs: zero, but
    for the initialised nextpid and forkret's first. *)
Definition zero_proc : proc :=
  mkProc UNUSED None None false 0 0 0 0 0 0 (mkContext 0 0 []) (λ _, None) None (replicate 16 0).

Definition image_world : world := {|
  w_tp := 0;
  w_harts := λ _, mkHart 0 0 0 0 0 0 0;
  w_cpus := λ _, mkCpu None 0 false;
  w_lk := λ _, mkSpinlock false "" None;
  w_slk := λ _, mkSleeplock false "" 0;
  w_procs := λ _, zero_proc;
  w_initproc := None;
  w_nextpid := 1;
  w_first := true;
  w_ticks := 0;
  w_mem := zeroes;
  w_freelist := 0;
  w_kpgtbl := 0;
  w_disk := λ _, zeroes;
  w_dtrace := [];
  w_bufs := λ _, mkBuf false false 0 0 0 0 0 zeroes;
  w_log := mkLog 0 0 0 false 0 0 zeroes;
  w_sb := mkSuperblock 0 0 0 0 0 0 0 0;
  w_inodes := λ _, mkInode 0 0 0 false 0 0 0 0 0 zeroes;
  w_files := λ _, mkFile FD_NONE 0 false false 0 None 0 0;
  w_pipes := λ _, mkPipe zeroes 0 0 false false;
  w_cons := mkCons zeroes 0 0 0;
  w_uart := mkUart zeroes 0 0;
  w_thr := [];
  w_panicked := false;
  w_vd := mkVdisk (λ _, mkVdesc ANull 0 0 0) 0 zeroes 0 zeroes (λ _, false) 0 (λ _, None) zeroes 0 [];
  w_rx := [];
  w_txspace := 16%nat;
  w_dev := zeroes;
  w_mmio := [];
  w_mharts := λ _, mkMhart 0 0 0 0 0 0 0 0 0 0 0;
  w_mscratch0 := zeroes;
  w_pr_locking := false;
  w_devsw := λ _, false;
  w_started := false
|}.

(** ** The kernel image

    What kernel.ld and the assembly sources fix: the end of the text and of the
    image, and the addresses of the trampoline page and of the entry points. *)

Class Layout := {
  etext : Z;
  kend : Z;
  trampoline : Z;
  uservec : Z;
  userret : Z;
  kernelvec : Z;
  usertrap_addr : Z;
  forkret_addr : Z;
  main_addr : Z;
  timervec : Z;
  mscratch0_addr : Z;
  disk_pages : Z
}.

Class LayoutOk (L : Layout) := {
  etext_aligned : etext `mod` PGSIZE = 0;
  trampoline_etext : trampoline + PGSIZE = etext;
  text_start : KERNBASE ≤ trampoline;
  etext_kend : etext < kend;
  kend_phystop : kend < PHYSTOP;
  uservec_in : trampoline ≤ uservec < trampoline + PGSIZE;
  userret_in : trampoline ≤ userret < trampoline + PGSIZE
}.

Definition sample_layout : Layout :=
  {| etext := KERNBASE + 8 * PGSIZE; kend := KERNBASE + 32 * PGSIZE + 48;
     trampoline := KERNBASE + 7 * PGSIZE; uservec := KERNBASE + 7 * PGSIZE;
     userret := KERNBASE + 7 * PGSIZE + 0x90; kernelvec := KERNBASE + 6 * PGSIZE;
     usertrap_addr := KERNBASE + 3 * PGSIZE;
     forkret_addr := KERNBASE + 2 * PGSIZE; main_addr := KERNBASE + PGSIZE;
     timervec := KERNBASE + 6 * PGSIZE + 0x100; mscratch0_addr := KERNBASE + 16 * PGSIZE;
     disk_pages := KERNBASE + 20 * PGSIZE |}.

Lemma sample_layout_ok : LayoutOk sample_layout.
Proof. split; vm_compute; done. Qed.
