(* ===== verification/StringC.v ===== *)
(** * Memory words and string.c

    The loops of kernel/string.c on byte-addressed memory, and the lemmas on
    loading and storing words that every component below shares. *)

From S2P Require Import Prelude Types.

(** ** string.c *)

(** [for (i = 0; i < n; i++) cdst[i] = c;] *)
Definition memset (m : bytes) (dst c n : Z) : bytes :=
  foldl (λ m i, st8 m (dst + i) c) m (seqZ 0 n).

(** [while (n-- > 0) { if ( *s1 != *s2) return *s1 - *s2; s1++, s2++; }] *)
Fixpoint memcmp_loop (n : nat) (m : bytes) (s1 s2 : Z) : Z :=
  match n with
  | O => 0
  | S n' => if negb (m s1 =? m s2) then m s1 - m s2 else memcmp_loop n' m (s1 + 1) (s2 + 1)
  end.

Definition memcmp (m : bytes) (v1 v2 n : Z) : Z := memcmp_loop (Z.to_nat n) m v1 v2.

(** [while (n-- > 0) *d++ = *s++;] *)
Fixpoint copy_up (n : nat) (m : bytes) (d s : Z) : bytes :=
  match n with
  | O => m
  | S n' => copy_up n' (<[d := m s]> m) (d + 1) (s + 1)
  end.

(** [while (n-- > 0) *--d = *--s;] *)
Fixpoint copy_down (n : nat) (m : bytes) (d s : Z) : bytes :=
  match n with
  | O => m
  | S n' => copy_down n' (<[d - 1 := m (s - 1)]> m) (d - 1) (s - 1)
  end.

Definition memmove (m : bytes) (dst src n : Z) : bytes :=
  if (src <? dst) && (src + n >? dst)
  then copy_down (Z.to_nat n) m (dst + n) (src + n)
  else copy_up (Z.to_nat n) m dst src.

Definition memcpy (m : bytes) (dst src n : Z) : bytes := memmove m dst src n.

(** [while (n > 0 && *p && *p == *q) n--, p++, q++;] then the difference. *)
Fixpoint strncmp_loop (n : nat) (m : bytes) (p q : Z) : Z :=
  match n with
  | O => 0
  | S n' => if nz (m p) && (m p =? m q) then strncmp_loop n' m (p + 1) (q + 1) else m p - m q
  end.

Definition strncmp (m : bytes) (p q n : Z) : Z := strncmp_loop (Z.to_nat n) m p q.

(** [while (n-- > 0) *s++ = 0;] *)
Fixpoint zero_up (n : nat) (m : bytes) (s : Z) : bytes :=
  match n with
  | O => m
  | S n' => zero_up n' (<[s := 0]> m) (s + 1)
  end.

(** [while (n-- > 0 && ( *s++ = *t++ ) != 0);] then the padding. *)
Fixpoint strncpy_loop (n : nat) (m : bytes) (s t : Z) : bytes :=
  match n with
  | O => m
  | S n' =>
      let m' := <[s := m t]> m in
      if nz (m t) then strncpy_loop n' m' (s + 1) (t + 1) else zero_up n' m' (s + 1)
  end.

Definition strncpy (m : bytes) (s t n : Z) : bytes := strncpy_loop (Z.to_nat n) m s t.

(** [while (--n > 0 && ( *s++ = *t++ ) != 0); *s = 0;] *)
Fixpoint safestrcpy_loop (n : nat) (m : bytes) (s t : Z) : bytes :=
  match n with
  | O => <[s := 0]> m
  | S n' =>
      let m' := <[s := m t]> m in
      if nz (m t) then safestrcpy_loop n' m' (s + 1) (t + 1) else <[s + 1 := 0]> m'
  end.

Definition safestrcpy (m : bytes) (s t n : Z) : bytes :=
  if n <=? 0 then m else safestrcpy_loop (Z.to_nat (n - 1)) m s t.

(** [for (n = 0; s[n]; n++);] over at most [fuel] bytes. *)
Fixpoint strlen_loop (fuel : nat) (m : bytes) (s n : Z) : option Z :=
  match fuel with
  | O => None
  | S f => if nz (m (s + n)) then strlen_loop f m s (n + 1) else Some n
  end.

Definition strlen (fuel : nat) (m : bytes) (s : Z) : option Z := strlen_loop fuel m s 0.

(** The array of the characters of a string, nul-terminated. *)
Definition string_bytes (l : list Z) : bytes := λ x, if x <? 0 then 0 else default 0 (l !! Z.to_nat x).

(** ** Bytes and words *)

(** Case analysis on the integer comparisons of the goal. *)
Ltac range_cases :=
  repeat match goal with
  | |- context [?a <=? ?b] => destruct (Z.leb_spec a b)
  | |- context [?a <? ?b] => destruct (Z.ltb_spec a b)
  end; simpl; try done; try lia.

Lemma mem_fill_in m a n c x : a ≤ x < a + n → mem_fill m a n c x = u8 c.
Proof. intros H. unfold mem_fill. by rewrite (proj2 (Z.leb_le _ _)), (proj2 (Z.ltb_lt _ _)) by lia. Qed.

Lemma mem_fill_out m a n c x : ¬ (a ≤ x < a + n) → mem_fill m a n c x = m x.
Proof.
  intros H. unfold mem_fill.
  destruct (Z.leb_spec a x), (Z.ltb_spec x (a + n)); simpl; try done; lia.
Qed.

Lemma mem_copy_in m d src s n x : d ≤ x < d + n → mem_copy m d src s n x = src (x - d + s).
Proof. intros H. unfold mem_copy. by rewrite (proj2 (Z.leb_le _ _)), (proj2 (Z.ltb_lt _ _)) by lia. Qed.

Lemma mem_copy_out m d src s n x : ¬ (d ≤ x < d + n) → mem_copy m d src s n x = m x.
Proof.
  intros H. unfold mem_copy.
  destruct (Z.leb_spec d x), (Z.ltb_spec x (d + n)); simpl; try done; lia.
Qed.

Lemma st_bytes_out m a l x : ¬ (a ≤ x < a + Z.of_nat (length l)) → st_bytes m a l x = m x.
Proof.
  revert m a. induction l as [|b l IH]; intros m a H; [done|].
  simpl in *. rewrite IH by lia. apply fn_lookup_insert_ne. lia.
Qed.

Lemma st_bytes_in m a l (i : nat) b : l !! i = Some b → st_bytes m a l (a + Z.of_nat i) = b.
Proof.
  revert m a i. induction l as [|b' l IH]; intros m a [|i] H; simplify_eq/=.
  - rewrite st_bytes_out by lia. rewrite Z.add_0_r. apply fn_lookup_insert.
  - rewrite <-(IH (<[a:=b']> m) (a + 1) i H). f_equal. lia.
Qed.

Lemma ld_bytes_length m a n : length (ld_bytes m a n) = Z.to_nat n.
Proof. unfold ld_bytes. by rewrite length_fmap, length_seqZ. Qed.

Lemma ld_bytes_ext m m' a n : (∀ x, a ≤ x < a + n → m x = m' x) → ld_bytes m a n = ld_bytes m' a n.
Proof.
  intros H. apply list_fmap_ext. intros i x Hx%lookup_seqZ. apply H. lia.
Qed.

Lemma ld_ext n m m' a : (∀ x, a ≤ x < a + n → m x = m' x) → ld n m a = ld n m' a.
Proof. intros H. unfold ld. f_equal. by apply ld_bytes_ext. Qed.

Lemma ld_bytes_st_bytes m a l : ld_bytes (st_bytes m a l) a (Z.of_nat (length l)) = l.
Proof.
  apply list_eq. intros i. unfold ld_bytes. rewrite list_lookup_fmap.
  destruct (l !! i) as [b|] eqn:E.
  - pose proof (lookup_lt_Some _ _ _ E). rewrite lookup_seqZ_lt by lia. simpl.
    f_equal. by apply st_bytes_in.
  - apply lookup_ge_None in E. rewrite lookup_seqZ_ge by lia. done.
Qed.

Lemma ld_st_eq n m a v : 0 ≤ n → ld n (st n m a v) a = v `mod` 2 ^ (n * 8).
Proof.
  intros Hn. unfold ld, st.
  rewrite <-(little_endian_to_Z_to_little_endian n 8 v) by lia. f_equal.
  set (l := Z_to_little_endian n 8 v).
  rewrite <-(ld_bytes_st_bytes m a l) at 2. f_equal.
  symmetry. by apply length_Z_to_little_endian.
Qed.

Lemma st_out n m a v x : 0 ≤ n → ¬ (a ≤ x < a + n) → st n m a v x = m x.
Proof.
  intros Hn H. unfold st. apply st_bytes_out. by rewrite length_Z_to_little_endian.
Qed.

Lemma ld_st_ne n k m a b v : 0 ≤ k → a + n ≤ b ∨ b + k ≤ a → ld n (st k m b v) a = ld n m a.
Proof. intros Hk H. apply ld_ext. intros x Hx. apply st_out; lia. Qed.

Lemma st_in_range n m a v x : 0 ≤ n → a ≤ x < a + n → 0 ≤ st n m a v x < 2 ^ 8.
Proof.
  intros Hn Hx. unfold st.
  destruct (lookup_lt_is_Some_2 (Z_to_little_endian n 8 v) (Z.to_nat (x - a))) as [b Hb].
  { pose proof (length_Z_to_little_endian n 8 v Hn). lia. }
  replace x with (a + Z.of_nat (Z.to_nat (x - a))) by lia.
  rewrite (st_bytes_in _ _ _ _ _ Hb).
  apply (Forall_lookup_1 _ _ _ _ (Z_to_little_endian_bound n 8 v ltac:(lia) Hn) Hb).
Qed.

(** A memory holds bytes. *)
Definition byte_mem (m : bytes) : Prop := ∀ a, 0 ≤ m a < 2 ^ 8.

Lemma ld_range n m a : byte_mem m → 0 ≤ n → 0 ≤ ld n m a < 2 ^ (n * 8).
Proof.
  intros Hm Hn. unfold ld.
  replace n with (Z.of_nat (length (ld_bytes m a n))) at 3
    by (rewrite ld_bytes_length; lia).
  apply little_endian_to_Z_bound; [lia|].
  apply Forall_forall. intros x Hx. apply list_elem_of_fmap in Hx as (y & -> & _). apply Hm.
Qed.

Lemma st_byte_mem n m a v : byte_mem m → 0 ≤ n → byte_mem (st n m a v).
Proof.
  intros Hm Hn x. destruct (decide (a ≤ x < a + n)).
  - by apply st_in_range.
  - rewrite st_out by done. apply Hm.
Qed.

Lemma mem_fill_byte_mem m a n c : byte_mem m → byte_mem (mem_fill m a n c).
Proof.
  intros Hm x. destruct (decide (a ≤ x < a + n)).
  - rewrite mem_fill_in by done. by apply Z.mod_pos_bound.
  - rewrite mem_fill_out by done. apply Hm.
Qed.

Lemma mem_copy_byte_mem m d src s n : byte_mem m → byte_mem src → byte_mem (mem_copy m d src s n).
Proof.
  intros Hm Hs x. destruct (decide (d ≤ x < d + n)).
  - by rewrite mem_copy_in.
  - by rewrite mem_copy_out.
Qed.

Lemma ld_zero n m a : (∀ x, a ≤ x < a + n → m x = 0) → ld n m a = 0.
Proof.
  intros H. unfold ld. rewrite (ld_bytes_ext m zeroes) by done.
  unfold ld_bytes. induction (seqZ a n) as [|i l IH]; [done|].
  rewrite fmap_cons. cbn [little_endian_to_Z]. by rewrite IH.
Qed.

#[export] Hint Resolve st_byte_mem mem_fill_byte_mem mem_copy_byte_mem : core.

(** The string at [p]: its bytes before the first NUL, at most [n] of them. *)
Fixpoint cstr (n : nat) (m : bytes) (p : Z) : list Z :=
  match n with
  | O => []
  | S n' => if nz (m p) then m p :: cstr n' m (p + 1) else []
  end.

Lemma cstr_ext n m m' p : (∀ x, p ≤ x < p + Z.of_nat n → m x = m' x) → cstr n m p = cstr n m' p.
Proof.
  revert p. induction n as [|n IH]; intros p H; [done|].
  simpl. rewrite (H p) by lia. rewrite IH by (intros; apply H; lia). done.
Qed.

Lemma cstr_length n m p : (length (cstr n m p) ≤ n)%nat.
Proof. revert p. induction n as [|n IH]; intros p; simpl; [lia|]. case_match; simpl; [specialize (IH (p+1))|]; lia. Qed.

(** ** What the string functions do *)

Module Strings.

(** memset stores the low byte of [c] in each of the [n] bytes at [dst]
    and nothing else. *)
Theorem memset_fill (m : bytes) (dst c n : Z) :
  memset m dst c n = mem_fill m dst n c.
Proof.
  unfold memset. extensionality x.
  assert (H : ∀ k : nat, foldl (λ m i, st8 m (dst + i) c) m (seqZ 0 (Z.of_nat k)) x
                         = mem_fill m dst (Z.of_nat k) c x).
  { induction k as [|k IH].
    - rewrite mem_fill_out by lia. done.
    - rewrite seqZ_S, foldl_app. simpl. unfold st8 in IH |- *.
      destruct (decide (dst + Z.of_nat k = x)) as [<-|Hne].
      + rewrite Z.add_0_l, fn_lookup_insert, mem_fill_in by lia. done.
      + rewrite fn_lookup_insert_ne by lia. rewrite IH. unfold mem_fill. range_cases. }
  destruct (Z_le_gt_dec 0 n) as [Hn|Hn].
  - specialize (H (Z.to_nat n)). by rewrite Z2Nat.id in H by done.
  - rewrite seqZ_nil by lia. by rewrite mem_fill_out by lia.
Qed.

Lemma copy_up_spec n m d s x :
  d ≤ s ∨ s + Z.of_nat n ≤ d →
  copy_up n m d s x = mem_copy m d m s (Z.of_nat n) x.
Proof.
  revert m d s. induction n as [|n IH]; intros m d s H.
  { by rewrite mem_copy_out by lia. }
  simpl copy_up. rewrite IH by lia.
  destruct (decide (d + 1 ≤ x < d + 1 + Z.of_nat n)).
  - rewrite !mem_copy_in by lia.
    rewrite fn_lookup_insert_ne by lia. f_equal; lia.
  - rewrite mem_copy_out by lia. destruct (decide (d = x)) as [->|].
    + rewrite fn_lookup_insert, mem_copy_in by lia. f_equal. lia.
    + rewrite fn_lookup_insert_ne, mem_copy_out by lia. done.
Qed.

Lemma copy_down_spec n m d s x :
  s ≤ d →
  copy_down n m d s x = mem_copy m (d - Z.of_nat n) m (s - Z.of_nat n) (Z.of_nat n) x.
Proof.
  revert m d s. induction n as [|n IH]; intros m d s H.
  { by rewrite mem_copy_out by lia. }
  simpl copy_down. rewrite IH by lia.
  destruct (decide (d - 1 - Z.of_nat n ≤ x < d - 1)).
  - rewrite !mem_copy_in by lia.
    rewrite fn_lookup_insert_ne by lia. f_equal; lia.
  - rewrite mem_copy_out by lia. destruct (decide (d - 1 = x)) as [<-|].
    + rewrite fn_lookup_insert, mem_copy_in by lia. f_equal. lia.
    + rewrite fn_lookup_insert_ne, mem_copy_out by lia. done.
Qed.

(** memmove leaves at [dst] the [n] bytes that were at [src] before the
    call, also when the two regions overlap, and changes nothing else. *)
Theorem memmove_copy (m : bytes) (dst src n : Z) :
  memmove m dst src n = mem_copy m dst m src n.
Proof.
  extensionality x. unfold memmove.
  destruct (Z_le_gt_dec 0 n) as [Hn|Hn].
  - destruct (Z.ltb_spec src dst); simpl.
    + destruct (Z.gtb_spec (src + n) dst).
      * rewrite copy_down_spec by lia. rewrite !Z2Nat.id by done. f_equal; lia.
      * rewrite copy_up_spec, Z2Nat.id by lia. done.
    + rewrite copy_up_spec, Z2Nat.id by lia. done.
  - rewrite mem_copy_out by lia.
    replace (Z.to_nat n) with O by lia. by case_match.
Qed.

(** strncmp returns 0 exactly when the two strings agree up to their NUL
    or up to [n] bytes. *)
Theorem strncmp_zero_iff (m : bytes) (p q n : Z) :
  strncmp m p q n = 0 ↔ cstr (Z.to_nat n) m p = cstr (Z.to_nat n) m q.
Proof.
  unfold strncmp. generalize (Z.to_nat n). intros k. revert p q.
  induction k as [|k IH]; intros p q; simpl; [done|].
  destruct (nz (m p)) eqn:Ep; simpl.
  - apply nz_true in Ep. destruct (Z.eqb_spec (m p) (m q)) as [E|E].
    + rewrite IH, <-E, (proj2 (nz_true _) Ep). split; [by intros ->|by intros [= ->]].
    + split; [lia|]. case_match; by intros [=].
  - apply nz_false in Ep. rewrite Ep. destruct (nz (m q)) eqn:Eq.
    + apply nz_true in Eq. split; [lia|done].
    + apply nz_false in Eq. rewrite Eq. done.
Qed.

Lemma zero_up_fill n m s : zero_up n m s = mem_fill m s (Z.of_nat n) 0.
Proof.
  extensionality x. revert m s. induction n as [|n IH]; intros m s.
  { by rewrite mem_fill_out by lia. }
  simpl zero_up. rewrite IH. destruct (decide (s = x)) as [->|].
  - rewrite mem_fill_out, mem_fill_in by lia. by rewrite fn_lookup_insert.
  - unfold mem_fill. rewrite fn_lookup_insert_ne by done. range_cases.
Qed.

Lemma strncpy_loop_out n m s t x :
  ¬ (s ≤ x < s + Z.of_nat n) → strncpy_loop n m s t x = m x.
Proof.
  revert m s t. induction n as [|n IH]; intros m s t H; [done|]. simpl.
  case_match; [rewrite IH by lia|rewrite zero_up_fill, mem_fill_out by lia];
    apply fn_lookup_insert_ne; lia.
Qed.

Lemma strncpy_loop_in n m s t :
  t + Z.of_nat n ≤ s ∨ s + Z.of_nat n ≤ t →
  ld_bytes (strncpy_loop n m s t) s (Z.of_nat n) =
    cstr n m t ++ replicate (n - length (cstr n m t)) 0.
Proof.
  revert m s t. induction n as [|n IH]; intros m s t H; [done|].
  unfold ld_bytes. rewrite seqZ_cons by lia. rewrite fmap_cons.
  replace (Z.pred (Z.of_nat (S n))) with (Z.of_nat n) by lia.
  replace (Z.succ s) with (s + 1) by lia.
  simpl strncpy_loop. simpl cstr. destruct (nz (m t)) eqn:Et.
  - rewrite strncpy_loop_out, fn_lookup_insert by lia. simpl. f_equal.
    fold (ld_bytes (strncpy_loop n (<[s:=m t]> m) (s + 1) (t + 1)) (s + 1) (Z.of_nat n)).
    rewrite IH by lia. rewrite (cstr_ext n (<[s:=m t]> m) m); [done|].
    intros x Hx. apply fn_lookup_insert_ne. lia.
  - rewrite zero_up_fill, mem_fill_out, fn_lookup_insert by lia.
    apply nz_false in Et. rewrite Et. simpl. f_equal.
    apply list_eq. intros i. rewrite list_lookup_fmap.
    destruct (decide (i < n)%nat).
    + rewrite lookup_seqZ_lt, lookup_replicate_2 by lia. simpl. by rewrite mem_fill_in by lia.
    + rewrite lookup_seqZ_ge by lia. symmetry. apply lookup_ge_None. rewrite length_replicate. lia.
Qed.

(** strncpy writes exactly [n] bytes at [s]: the string at [t] up to its
    NUL, then zeroes; the rest of memory is unchanged. *)
Theorem strncpy_pads (m : bytes) (s t n : Z) :
  0 ≤ n → t + n ≤ s ∨ s + n ≤ t →
  ld_bytes (strncpy m s t n) s n =
    cstr (Z.to_nat n) m t ++ replicate (Z.to_nat n - length (cstr (Z.to_nat n) m t)) 0
  ∧ ∀ x, ¬ (s ≤ x < s + n) → strncpy m s t n x = m x.
Proof.
  intros Hn H. unfold strncpy. split.
  - rewrite <-(strncpy_loop_in (Z.to_nat n) m s t) by lia. by rewrite Z2Nat.id.
  - intros x Hx. apply strncpy_loop_out. lia.
Qed.

Lemma safestrcpy_loop_cstr n m s t :
  t + Z.of_nat n ≤ s ∨ s + Z.of_nat n < t →
  cstr (S n) (safestrcpy_loop n m s t) s = cstr n m t ∧
  ∀ x, ¬ (s ≤ x ≤ s + Z.of_nat n) → safestrcpy_loop n m s t x = m x.
Proof.
  revert m s t. induction n as [|n IH]; intros m s t H.
  { simpl. rewrite fn_lookup_insert. split; [done|]. intros. apply fn_lookup_insert_ne. lia. }
  simpl safestrcpy_loop. destruct (nz (m t)) eqn:Et.
  - destruct (IH (<[s:=m t]> m) (s + 1) (t + 1) ltac:(lia)) as [IH1 IH2]. split.
    + remember (safestrcpy_loop n (<[s:=m t]> m) (s + 1) (t + 1)) as m2.
      change (cstr (S (S n)) m2 s) with (if nz (m2 s) then m2 s :: cstr (S n) m2 (s + 1) else []).
      rewrite IH1, IH2, fn_lookup_insert by lia. simpl. rewrite Et. f_equal.
      apply cstr_ext. intros x Hx. apply fn_lookup_insert_ne. lia.
    + intros x Hx. rewrite IH2 by lia. apply fn_lookup_insert_ne. lia.
  - split.
    + simpl. rewrite fn_lookup_insert_ne, fn_lookup_insert, Et by lia. done.
    + intros x Hx. rewrite !fn_lookup_insert_ne by lia. done.
Qed.

(** safestrcpy leaves at [s] a string that ends within [n] bytes and is
    the source string cut to [n - 1] bytes. *)
Theorem safestrcpy_terminates (m : bytes) (s t n : Z) :
  0 < n → t + n ≤ s ∨ s + n ≤ t →
  cstr (Z.to_nat n) (safestrcpy m s t n) s = cstr (Z.to_nat (n - 1)) m t
  ∧ ∀ x, ¬ (s ≤ x < s + n) → safestrcpy m s t n x = m x.
Proof.
  intros Hn H. unfold safestrcpy. rewrite (proj2 (Z.leb_gt n 0)) by done.
  destruct (safestrcpy_loop_cstr (Z.to_nat (n - 1)) m s t ltac:(lia)) as [H1 H2]. split.
  - replace (Z.to_nat n) with (S (Z.to_nat (n - 1))) by lia. done.
  - intros x Hx. apply H2. lia.
Qed.

(** The bytes of "ab" followed by two zeroes, at address 16. *)
Definition sample_mem : bytes := st_bytes zeroes 16 [97; 98].

Lemma strncpy_pads_witness :
  0 ≤ 4 ∧ ld_bytes (strncpy sample_mem 32 16 4) 32 4 = [97; 98; 0; 0].
Proof.
  split; [lia|].
  destruct (strncpy_pads sample_mem 32 16 4 ltac:(lia) ltac:(lia)) as [-> _]. reflexivity.
Defined.

Lemma safestrcpy_terminates_witness :
  0 < 2 ∧ cstr 2 (safestrcpy sample_mem 32 16 2) 32 = [97].
Proof.
  split; [lia|].
  destruct (safestrcpy_terminates sample_mem 32 16 2 ltac:(lia) ltac:(lia)) as [H _].
  exact H.
Defined.

End Strings.
