(* ===== verification/Spinlock.v ===== *)
(** * Interrupts, cpus and spin locks

    The interrupt-enable helpers of kernel/riscv.h, cpuid and mycpu of
    kernel/proc.c and the whole of kernel/spinlock.c, as code of one hart; and
    the same lock code as a step relation in which any number of harts
    interleave, one memory access at a time. *)

From S2P Require Import Prelude Types.

(** ** riscv.h: control registers of this hart *)

Definition r_tp : K Z := gets w_tp.
Definition my_hart (w : world) : hart := w_harts w (w_tp w).
Definition upd_hart (f : hart → hart) : K unit :=
  modify (λ w, set_harts (alter f (w_tp w) (w_harts w)) w).

Definition r_sstatus : K Z := gets (λ w, h_sstatus (my_hart w)).
Definition w_sstatus (x : Z) : K unit := upd_hart (set_h_sstatus x).

Definition intr_on : K unit := x <- r_sstatus ;; w_sstatus (Z.lor x SSTATUS_SIE).
Definition intr_off : K unit := x <- r_sstatus ;; w_sstatus (Z.land x (Z.lnot SSTATUS_SIE)).
Definition intr_get : K bool := x <- r_sstatus ;; ret (nz (Z.land x SSTATUS_SIE)).

(** ** proc.c: this cpu *)

Definition cpuid : K Z := id <- r_tp ;; ret (i32 id).

(** mycpu returns a pointer to cpus[id]; the pointer is the index. *)
Definition mycpu : K Z := cpuid.

Definition get_cpu (c : Z) : K cpu := gets (λ w, w_cpus w c).
Definition upd_cpu (c : Z) (f : cpu → cpu) : K unit :=
  modify (λ w, set_cpus (alter f c (w_cpus w)) w).

(** ** spinlock.c *)

Definition get_lk (l : lockid) : K spinlock := gets (λ w, w_lk w l).
Definition upd_lk (l : lockid) (f : spinlock → spinlock) : K unit :=
  modify (λ w, set_lk (alter f l (w_lk w)) w).

Definition initlock (l : lockid) (name : string) : K unit :=
  upd_lk l (set_lk_name name) ;;
  upd_lk l (set_lk_locked false) ;;
  upd_lk l (set_lk_cpu None).

Definition push_off : K unit :=
  old <- intr_get ;;
  intr_off ;;
  c <- mycpu ;;
  cp <- get_cpu c ;;
  when (c_noff cp =? 0) (upd_cpu c (set_c_intena old)) ;;
  upd_cpu c (λ cp, set_c_noff (c_noff cp + 1) cp).

Definition pop_off : K unit :=
  c <- mycpu ;;
  i <- intr_get ;;
  if (i : bool) then panic "pop_off - interruptible" else
  cp <- get_cpu c ;;
  if c_noff cp <? 1 then panic "pop_off" else
  upd_cpu c (λ cp, set_c_noff (c_noff cp - 1) cp) ;;
  cp <- get_cpu c ;;
  when ((c_noff cp =? 0) && c_intena cp) intr_on.

Definition holding (l : lockid) : K bool :=
  lk <- get_lk l ;;
  c <- mycpu ;;
  ret (lk_locked lk && bool_decide (lk_cpu lk = Some c)).

(** __sync_lock_test_and_set(&lk->locked, 1) *)
Definition test_and_set (l : lockid) : K bool :=
  lk <- get_lk l ;;
  upd_lk l (set_lk_locked true) ;;
  ret (lk_locked lk).

Definition acquire (l : lockid) : K unit :=
  push_off ;;
  h <- holding l ;;
  if (h : bool) then panic "acquire" else
  loop_wait (
    old <- test_and_set l ;;
    if (old : bool) then wait_event ;; ret None else ret (Some tt)) ;;
  c <- mycpu ;;
  upd_lk l (set_lk_cpu (Some c)).

Definition release (l : lockid) : K unit :=
  h <- holding l ;;
  if negb h then panic "release" else
  upd_lk l (set_lk_cpu None) ;;
  upd_lk l (set_lk_locked false) ;;
  pop_off.

(** ** What one hart sees *)

Definition my_cpu (w : world) : cpu := w_cpus w (w_tp w).
Definition sie (w : world) : bool := nz (Z.land (h_sstatus (my_hart w)) SSTATUS_SIE).

(** The cpu state between kernel calls: tp is a cpu number, and interrupts are
    off inside a push_off section. *)
Definition cpu_ok (w : world) : Prop :=
  0 ≤ w_tp w < NCPU ∧ 0 ≤ c_noff (my_cpu w) ∧ (0 < c_noff (my_cpu w) → sie w = false).

Definition lk_free (w : world) (l : lockid) : Prop :=
  lk_locked (w_lk w l) = false ∧ lk_cpu (w_lk w l) = None.

Definition lk_mine (w : world) (l : lockid) : Prop :=
  lk_locked (w_lk w l) = true ∧ lk_cpu (w_lk w l) = Some (w_tp w).

(** The state inside push_off. *)
Definition pushed (w : world) : world :=
  set_cpus (<[w_tp w :=
    mkCpu (c_proc (my_cpu w)) (c_noff (my_cpu w) + 1)
      (if c_noff (my_cpu w) =? 0 then sie w else c_intena (my_cpu w))]> (w_cpus w))
  (set_harts (<[w_tp w :=
    set_h_sstatus (Z.land (h_sstatus (my_hart w)) (Z.lnot SSTATUS_SIE)) (my_hart w)]> (w_harts w)) w).

(** The state after a push_off section: only the saved interrupt state of the
    outermost section can differ from the state before. *)
Definition settle (w : world) : world :=
  set_cpus (if c_noff (my_cpu w) =? 0
            then <[w_tp w := set_c_intena (sie w) (my_cpu w)]> (w_cpus w)
            else w_cpus w) w.

(** The state with the lock [l] taken by this hart. *)
Definition locked_by (l : lockid) (w : world) : world :=
  set_lk (<[l := mkSpinlock true (lk_name (w_lk w l)) (Some (w_tp w))]> (w_lk w)) (pushed w).

Lemma cpuid_tp env w : 0 ≤ w_tp w < NCPU → cpuid env w = Ret (w_tp w) env w.
Proof.
  intros Ht. unfold cpuid, r_tp. msteps. rewrite i32_small; [done|]. unfold NCPU in Ht. lia.
Qed.

Lemma sie_off x : Z.land (Z.land x (Z.lnot SSTATUS_SIE)) SSTATUS_SIE = 0.
Proof.
  rewrite <-Z.land_assoc, (Z.land_comm (Z.lnot _)), Z.land_lnot_diag. apply Z.land_0_r.
Qed.

Lemma sie_clear_id x : Z.land x SSTATUS_SIE = 0 → Z.land x (Z.lnot SSTATUS_SIE) = x.
Proof.
  intros H. change (Z.lnot SSTATUS_SIE) with (Z.lnot (2 ^ 1)).
  change SSTATUS_SIE with (2 ^ 1) in H.
  rewrite <-(Z.lor_0_r (Z.land x (Z.lnot (2 ^ 1)))), <-H.
  apply Z.bits_inj'. intros n Hn.
  rewrite Z.lor_spec, !Z.land_spec, Z.lnot_spec by done.
  destruct (Z.testbit x n), (Z.testbit (2 ^ 1) n); done.
Qed.

Lemma sie_set_id x : nz (Z.land x SSTATUS_SIE) = true →
  Z.lor (Z.land x (Z.lnot SSTATUS_SIE)) SSTATUS_SIE = x.
Proof.
  intros H%nz_true. change SSTATUS_SIE with (2 ^ 1) in *.
  apply Z.bits_inj'. intros n Hn.
  rewrite Z.lor_spec, !Z.land_spec, Z.lnot_spec by done.
  destruct (decide (n = 1)) as [->|Hne].
  - assert (Z.testbit x 1 = true) as ->.
    { destruct (Z.testbit x 1) eqn:E; [done|]. exfalso. apply H.
      apply Z.bits_inj'. intros k Hk. rewrite Z.land_spec, Z.bits_0.
      destruct (decide (k = 1)) as [->|]; [by rewrite E|].
      rewrite Z.pow2_bits_false by lia. apply andb_false_r. }
    done.
  - rewrite (Z.pow2_bits_false 1 n) by lia. by rewrite orb_false_r, andb_true_r.
Qed.

Lemma push_off_run env w : 0 ≤ w_tp w < NCPU → push_off env w = Ret tt env (pushed w).
Proof.
  intros Ht. unfold push_off, intr_get, intr_off, r_sstatus, w_sstatus, upd_hart, mycpu.
  msteps. mcall cpuid_tp. unfold get_cpu, upd_cpu. msteps. rsimpl.
  unfold pushed, my_cpu, sie, my_hart.
  destruct (Z.eqb_spec (c_noff (w_cpus w (w_tp w))) 0) as [E|E]; msteps; rsimpl; [|reflexivity].
  autorewrite with xv6. reflexivity.
Qed.

(** The state after the pop_off of the current section. *)
Definition popped (w : world) : world :=
  let cp := my_cpu w in
  set_cpus (<[w_tp w := set_c_noff (c_noff cp - 1) cp]> (w_cpus w))
  (if (c_noff cp - 1 =? 0) && c_intena cp
   then set_harts (<[w_tp w := set_h_sstatus (Z.lor (h_sstatus (my_hart w)) SSTATUS_SIE) (my_hart w)]>
          (w_harts w)) w
   else w).

Lemma pop_off_run env w :
  0 ≤ w_tp w < NCPU → sie w = false → 1 ≤ c_noff (my_cpu w) →
  pop_off env w = Ret tt env (popped w).
Proof.
  intros Ht Hs Hn. unfold pop_off, intr_get, r_sstatus, mycpu.
  mcall cpuid_tp. msteps. fold (sie w). rewrite Hs. unfold get_cpu, upd_cpu. msteps.
  fold (my_cpu w). rewrite (proj2 (Z.ltb_ge _ _)) by lia.
  msteps. rsimpl. rewrite fn_alter_insert. fold (my_cpu w). rewrite fn_lookup_insert. rsimpl.
  unfold popped. case_match; [|reflexivity].
  unfold when, intr_on, r_sstatus, w_sstatus, upd_hart. msteps. reflexivity.
Qed.

Lemma sie_pushed w : sie (pushed w) = false.
Proof.
  unfold sie, my_hart, pushed. rsimpl. rewrite fn_lookup_insert. rsimpl. by rewrite sie_off.
Qed.

Lemma noff_pushed w : c_noff (my_cpu (pushed w)) = c_noff (my_cpu w) + 1.
Proof. unfold my_cpu at 1, pushed. rsimpl. by rewrite fn_lookup_insert. Qed.

Lemma pop_pushed w : cpu_ok w → popped (pushed w) = settle w.
Proof.
  intros (Ht & Hn & Hs). unfold popped. rewrite noff_pushed.
  replace (c_noff (my_cpu w) + 1 - 1) with (c_noff (my_cpu w)) by lia.
  assert (Hcpu : my_cpu (pushed w) = mkCpu (c_proc (my_cpu w)) (c_noff (my_cpu w) + 1)
      (if c_noff (my_cpu w) =? 0 then sie w else c_intena (my_cpu w))).
  { unfold my_cpu at 1, pushed. rsimpl. by rewrite fn_lookup_insert. }
  rewrite Hcpu. rsimpl.
  assert (Hhart : my_hart (pushed w) =
    set_h_sstatus (Z.land (h_sstatus (my_hart w)) (Z.lnot SSTATUS_SIE)) (my_hart w)).
  { unfold my_hart at 1, pushed. rsimpl. by rewrite fn_lookup_insert. }
  rewrite Hhart. unfold settle, pushed. rsimpl.
  destruct (Z.eqb_spec (c_noff (my_cpu w)) 0) as [E|E]; simpl.
  - destruct (sie w) eqn:Esie.
    + rsimpl. autorewrite with xv6. rewrite sie_set_id by done.
      change (set_h_sstatus (h_sstatus (my_hart w)) (my_hart w)) with (my_hart w).
      rewrite (fn_insert_same (w_harts w)) by reflexivity. reflexivity.
    + autorewrite with xv6. unfold sie in Esie. apply nz_false in Esie.
      rewrite sie_clear_id by done.
      change (set_h_sstatus (h_sstatus (my_hart w)) (my_hart w)) with (my_hart w).
      rewrite (fn_insert_same (w_harts w)) by reflexivity. reflexivity.
  - assert (Esie : sie w = false) by (apply Hs; lia).
    autorewrite with xv6. unfold sie in Esie. apply nz_false in Esie.
    rewrite sie_clear_id by done.
    change (set_h_sstatus (h_sstatus (my_hart w)) (my_hart w)) with (my_hart w).
    rewrite (fn_insert_same (w_harts w)) by reflexivity.
    rewrite (fn_insert_same (w_cpus w)) by reflexivity. reflexivity.
Qed.

Lemma holding_run l env w :
  0 ≤ w_tp w < NCPU →
  holding l env w =
    Ret (lk_locked (w_lk w l) && bool_decide (lk_cpu (w_lk w l) = Some (w_tp w))) env w.
Proof. intros Ht. unfold holding, get_lk, mycpu. msteps. mcall cpuid_tp. reflexivity. Qed.

Lemma test_and_set_run l env w :
  test_and_set l env w =
    Ret (lk_locked (w_lk w l)) env (set_lk (alter (set_lk_locked true) l (w_lk w)) w).
Proof. unfold test_and_set, get_lk, upd_lk. by msteps. Qed.

Lemma acquire_free l env w :
  0 ≤ w_tp w < NCPU → lk_free w l → acquire l env w = Ret tt env (locked_by l w).
Proof.
  intros Ht [Hl Hc]. unfold acquire. mcall push_off_run. mcall holding_run.
  change (w_lk (pushed w)) with (w_lk w). rewrite Hl. simpl.
  mcall loop_wait_Some.
  { mcall test_and_set_run. change (w_lk (pushed w)) with (w_lk w). rewrite Hl. reflexivity. }
  unfold mycpu. mcall cpuid_tp. unfold upd_lk. msteps.
  unfold locked_by. rsimpl. autorewrite with xv6. reflexivity.
Qed.

(** Leaving the push_off section entered in [w]; the state inside is [w1]. *)
Lemma pop_after env w w1 :
  cpu_ok w → w_tp w1 = w_tp w → w_harts w1 = w_harts (pushed w) → w_cpus w1 = w_cpus (pushed w) →
  pop_off env w1 = Ret tt env (set_harts (w_harts w) (set_cpus (w_cpus (settle w)) w1)).
Proof.
  intros Hok Etp Eh Ec. pose proof Hok as (Ht & Hn & Hs).
  assert (Epush : popped w1 = set_harts (w_harts (popped (pushed w))) (set_cpus (w_cpus (popped (pushed w))) w1)).
  { unfold popped, my_cpu, my_hart. rsimpl. rewrite Eh, Ec, Etp. change (w_tp (pushed w)) with (w_tp w).
    case_match; [reflexivity|]. rewrite <-Eh. reflexivity. }
  rewrite pop_off_run.
  - f_equal. rewrite Epush, pop_pushed by done. reflexivity.
  - by rewrite <-Etp in Ht.
  - unfold sie, my_hart. rewrite Eh, Etp. exact (sie_pushed w).
  - unfold my_cpu. rewrite Ec, Etp. pose proof (noff_pushed w) as E. unfold my_cpu in E, Hn.
    change (w_tp (pushed w)) with (w_tp w) in E. lia.
Qed.


(** Releasing in a state [w1] that the critical section reached from
    [locked_by l w] without touching locks or cpus. *)
Lemma release_after l env w w1 :
  cpu_ok w → lk_free w l →
  w_tp w1 = w_tp w → w_harts w1 = w_harts (locked_by l w) →
  w_cpus w1 = w_cpus (locked_by l w) → w_lk w1 = w_lk (locked_by l w) →
  release l env w1 =
    Ret tt env (set_lk (w_lk w) (set_harts (w_harts w) (set_cpus (w_cpus (settle w)) w1))).
Proof.
  intros Hok [Hl Hc] Etp Eh Ec El. pose proof Hok as (Ht & Hn & Hs).
  unfold release. mcall holding_run; [by rewrite Etp|].
  assert (Hl1 : w_lk w1 l = mkSpinlock true (lk_name (w_lk w l)) (Some (w_tp w))).
  { rewrite El. apply fn_lookup_insert. }
  rewrite Hl1, Etp. rsimpl.
  rewrite bool_decide_true by done. simpl. unfold upd_lk. msteps. rsimpl.
  rewrite El. unfold locked_by. rsimpl. autorewrite with xv6. rsimpl.
  rewrite (fn_insert_same (w_lk w)).
  2:{ destruct (w_lk w l). cbn in Hl, Hc. rsimpl_in Hl. rsimpl_in Hc. by subst. }
  lazymatch goal with |- _ env _ = ?R => change (pop_off env (set_lk (w_lk w) w1) = R) end.
  by rewrite (pop_after env w).
Qed.

Lemma release_locked_by l env w :
  cpu_ok w → lk_free w l → release l env (locked_by l w) = Ret tt env (settle w).
Proof. intros Hok Hf. by erewrite release_after. Qed.

Lemma settle_cpu_ok w : cpu_ok w → cpu_ok (settle w).
Proof.
  intros (Ht & Hn & Hs). unfold cpu_ok, my_cpu, sie, my_hart, settle. rsimpl.
  split; [done|]. case_match; rewrite ?fn_lookup_insert; rsimpl; done.
Qed.

Lemma settle_settle w : settle (settle w) = settle w.
Proof.
  unfold settle at 1. destruct (Z.eqb_spec (c_noff (my_cpu w)) 0) as [E|E].
  - assert (Hc : my_cpu (settle w) = set_c_intena (sie w) (my_cpu w)).
    { unfold my_cpu at 1, settle. rsimpl. rewrite (proj2 (Z.eqb_eq _ _) E). apply fn_lookup_insert. }
    rewrite Hc. rsimpl. rewrite (proj2 (Z.eqb_eq _ _) E).
    unfold settle. rsimpl. rewrite (proj2 (Z.eqb_eq _ _) E). rewrite fn_insert_insert. reflexivity.
  - assert (settle w = w) as ->.
    { unfold settle. rewrite (proj2 (Z.eqb_neq _ _) E). reflexivity. }
    rewrite (proj2 (Z.eqb_neq _ _) E). reflexivity.
Qed.

#[export] Hint Resolve settle_cpu_ok : core.

(** [mlock] and [munlock w]: enter a critical section on a free lock, and leave
    the one that was entered in [w]. *)
Ltac mlock := mcall acquire_free; [auto..|].
Tactic Notation "munlock" constr(w) := mcall (release_after _ _ w); [reflexivity..|].

Lemma cpu_ok_tp w : cpu_ok w → 0 ≤ w_tp w < NCPU.
Proof. by intros []. Qed.
#[export] Hint Resolve cpu_ok_tp : core.

(** acquire and release never run out of rounds. *)
Lemma total_cpuid : total cpuid.
Proof. unfold cpuid, r_tp. total. Qed.
#[export] Hint Resolve total_cpuid : total.
Lemma total_get_cpu c : total (get_cpu c).
Proof. unfold get_cpu. total. Qed.
Lemma total_upd_cpu c f : total (upd_cpu c f).
Proof. unfold upd_cpu. total. Qed.
Lemma total_get_lk l : total (get_lk l).
Proof. unfold get_lk. total. Qed.
Lemma total_upd_lk l f : total (upd_lk l f).
Proof. unfold upd_lk. total. Qed.
Lemma total_upd_hart f : total (upd_hart f).
Proof. unfold upd_hart. total. Qed.
Lemma total_intr_get : total intr_get.
Proof. unfold intr_get, r_sstatus. total. Qed.
Lemma total_intr_on : total intr_on.
Proof. unfold intr_on, r_sstatus, w_sstatus, upd_hart. total. Qed.
Lemma total_intr_off : total intr_off.
Proof. unfold intr_off, r_sstatus, w_sstatus, upd_hart. total. Qed.
#[export] Hint Resolve total_get_cpu total_upd_cpu total_get_lk total_upd_lk total_upd_hart total_intr_get
  total_intr_on total_intr_off : total.
Lemma total_mycpu : total mycpu.
Proof. apply total_cpuid. Qed.
#[export] Hint Resolve total_mycpu : total.
Lemma total_push_off : total push_off.
Proof. unfold push_off. total. Qed.
Lemma total_pop_off : total pop_off.
Proof. unfold pop_off. total. Qed.
Lemma total_holding l : total (holding l).
Proof. unfold holding. total. Qed.
#[export] Hint Resolve total_push_off total_pop_off total_holding : total.
Lemma total_acquire l : total (acquire l).
Proof. unfold acquire, test_and_set. total. Qed.
Lemma total_release l : total (release l).
Proof. unfold release. total. Qed.
Lemma total_initlock l n : total (initlock l n).
Proof. unfold initlock. total. Qed.
#[export] Hint Resolve total_acquire total_release total_initlock : total.

(** Worlds that differ only in the saved interrupt state of a cpu outside any
    push_off section: code that may or may not take a lock ends in one of them. *)
Definition weq (w w' : world) : Prop := settle w = settle w'.
Infix "≈" := weq (at level 70) : xv6_scope.

#[export] Instance weq_equiv : Equivalence weq.
Proof. unfold weq. split; [done|intros ? ? H; symmetry; exact H|intros ? ? ? H1 H2; etransitivity; [exact H1|exact H2]]. Qed.

Lemma settle_weq w : settle w ≈ w.
Proof. apply settle_settle. Qed.

(** [f] does not look at the saved interrupt state, which [settle] sets. *)
Lemma weq_field {A} (f : world → A) w w' : w ≈ w' → (∀ v, f (settle v) = f v) → f w = f w'.
Proof. unfold weq. intros E Hf. by rewrite <-(Hf w), <-(Hf w'), E. Qed.

(** Updates that commute with [settle] respect the equivalence. *)
Lemma weq_map (f : world → world) w w' : w ≈ w' → (∀ v, settle (f v) = f (settle v)) → f w ≈ f w'.
Proof. unfold weq. intros E Hf. by rewrite !Hf, E. Qed.

Lemma cpu_ok_settle w : cpu_ok (settle w) ↔ cpu_ok w.
Proof.
  split; [|apply settle_cpu_ok]. unfold cpu_ok, my_cpu, sie, my_hart, settle. rsimpl.
  intros H. revert H. case_match; rewrite ?fn_lookup_insert; rsimpl; done.
Qed.

Lemma weq_cpu_ok w w' : w ≈ w' → cpu_ok w' → cpu_ok w.
Proof. unfold weq. intros E H. apply cpu_ok_settle. rewrite E. by apply cpu_ok_settle. Qed.

(** [weq_eq f] reads the field [f] of a world known up to [≈]. *)
Ltac weq_read H f :=
  let E := fresh "E" in
  pose proof (weq_field f _ _ H (λ _, eq_refl)) as E; rsimpl_in E.

(** ** One hart: matched sections, panics, termination *)

Module Locks.

Fixpoint times (n : nat) (m : K unit) : K unit :=
  match n with O => ret tt | S n' => m ;; times n' m end.

Lemma times_S n m env w : times (S n) m env w = bind m (λ _, times n m) env w.
Proof. done. Qed.

Lemma times_snoc n m env w : times (S n) m env w = bind (times n m) (λ _, m) env w.
Proof.
  revert env w. induction n as [|n IH]; intros env w.
  - rewrite times_S. unfold bind, times, ret. by destruct (m env w) as [[] ? ?| | |].
  - rewrite times_S. simpl times at 2. rewrite bind_assoc.
    destruct (m env w) as [[] e v| | |] eqn:E; unfold bind at 1; rewrite E.
    2-4: unfold bind; by rewrite E.
    rewrite (bind_Ret _ _ _ _ _ _ _ E). apply IH.
Qed.

Lemma pushed_ok w : cpu_ok w → cpu_ok (pushed w).
Proof.
  intros (Ht & Hn & Hs). split; [done|]. rewrite noff_pushed. split; [lia|].
  intros _. apply sie_pushed.
Qed.

(** push_off and pop_off are matched: after [n] nested push_off the
    interrupts are off and the nesting depth is [n] higher, and [n] pop_off
    undo them, leaving interrupts as they were. *)
Theorem push_pop_matched (n : nat) env w :
  cpu_ok w → (0 < n)%nat →
  ∃ w1, times n push_off env w = Ret tt env w1
      ∧ sie w1 = false ∧ c_noff (my_cpu w1) = c_noff (my_cpu w) + Z.of_nat n
      ∧ times n pop_off env w1 = Ret tt env (settle w)
      ∧ sie (settle w) = sie w.
Proof.
  intros Hok Hn. destruct n as [|n]; [lia|]. clear Hn.
  revert w Hok. induction n as [|n IH]; intros w Hok.
  - exists (pushed w). rewrite noff_pushed. pose proof (pushed_ok w Hok) as (Ht & Hn & Hs).
    split; [|split; [apply sie_pushed|split; [lia|split; [|done]]]].
    + rewrite times_S. mcall push_off_run. done.
    + rewrite times_S. mcall pop_off_run; [apply sie_pushed|rewrite noff_pushed; destruct Hok; lia|].
      by rewrite pop_pushed.
  - destruct (IH (pushed w) (pushed_ok w Hok)) as (w1 & H1 & Hs1 & Hn1 & H2 & _).
    exists w1. split; [|split; [done|split; [|split; [|done]]]].
    + rewrite times_S. mcall push_off_run; [by destruct Hok|]. done.
    + rewrite Hn1, noff_pushed. lia.
    + rewrite times_snoc. mrun H2.
      assert (Hset : settle (pushed w) = pushed w).
      { unfold settle. rewrite (proj2 (Z.eqb_neq _ _)); [reflexivity|].
        rewrite noff_pushed. destruct Hok. lia. }
      rewrite Hset. rewrite pop_off_run; [by rewrite pop_pushed|by destruct Hok|apply sie_pushed|].
      rewrite noff_pushed. destruct Hok. lia.
Qed.

(** on a free lock, acquire takes it for this hart with interrupts off,
    holding says so, and release gives back the state before. *)
Theorem acquire_release (l : lockid) env w :
  cpu_ok w → lk_free w l →
  acquire l env w = Ret tt env (locked_by l w)
  ∧ lk_mine (locked_by l w) l ∧ sie (locked_by l w) = false
  ∧ holding l env (locked_by l w) = Ret true env (locked_by l w)
  ∧ release l env (locked_by l w) = Ret tt env (settle w).
Proof.
  intros Hok Hf. pose proof Hok as (Ht & Hn & Hs).
  assert (Hm : w_lk (locked_by l w) l = mkSpinlock true (lk_name (w_lk w l)) (Some (w_tp w)))
    by apply fn_lookup_insert.
  split; [by apply acquire_free|]. split; [|split; [apply (sie_pushed w)|split]].
  - split; by rewrite Hm.
  - rewrite holding_run by exact Ht. rewrite Hm. rsimpl.
    by rewrite bool_decide_true.
  - by apply release_locked_by.
Qed.

(** acquire panics on a lock this hart holds, release on one it does not
    hold. *)
Theorem lock_misuse_panics (l : lockid) env w :
  0 ≤ w_tp w < NCPU →
  (lk_mine w l → acquire l env w = Panic "acquire")
  ∧ (¬ lk_mine w l → release l env w = Panic "release").
Proof.
  intros Ht. split.
  - intros [Hl Hc]. unfold acquire. mcall push_off_run. mcall holding_run.
    change (w_lk (pushed w)) with (w_lk w). change (w_tp (pushed w)) with (w_tp w).
    rewrite Hl, Hc. by rewrite bool_decide_true.
  - intros Hm. unfold release. mcall holding_run.
    destruct (lk_locked (w_lk w l)) eqn:El; [|done]. simpl.
    case_bool_decide as Ec; [|done]. by destruct Hm.
Qed.

Lemma spin_waits l : waits (
    old <- test_and_set l ;;
    if (old : bool) then wait_event ;; ret None else ret (Some tt)).
Proof.
  intros env w. unfold bind at 1. rewrite test_and_set_run.
  destruct (lk_locked (w_lk w l)); [|exact (le_n (length env))].
  unfold bind, wait_event, ret. destruct env as [|f env]; simpl; [done|lia].
Qed.

Lemma spin_taken l n env w env' w' :
  loop n (old <- test_and_set l ;;
    if (old : bool) then wait_event ;; ret None else ret (Some tt)) env w = Ret tt env' w' →
  lk_locked (w_lk w' l) = true.
Proof.
  revert env w. induction n as [|n IH]; intros env w; [done|]. simpl.
  unfold bind at 1 2. rewrite test_and_set_run.
  destruct (lk_locked (w_lk w l)) eqn:El.
  - unfold bind, wait_event. destruct env; [done|]. apply IH.
  - intros [= <- <-]. rsimpl. rewrite fn_alter_insert, fn_lookup_insert. done.
Qed.

(** whatever the other harts do, acquire spins only as long as it waits
    for the lock, and when it returns the lock is held and marked with this
    cpu. *)
Theorem acquire_takes (l : lockid) env w :
  0 ≤ w_tp w < NCPU →
  match acquire l env w with
  | Ret _ _ w' => lk_locked (w_lk w' l) = true ∧ lk_cpu (w_lk w' l) = Some (i32 (w_tp w'))
  | Panic s => s = "acquire"%string ∧ lk_mine w l
  | Blocked _ => True
  | NoFuel => False
  end.
Proof.
  intros Ht. unfold acquire. unfold bind at 1. rewrite push_off_run by done.
  unfold bind at 1. rewrite holding_run by done.
  change (w_lk (pushed w)) with (w_lk w). change (w_tp (pushed w)) with (w_tp w).
  destruct (lk_locked (w_lk w l) && bool_decide (lk_cpu (w_lk w l) = Some (w_tp w))) eqn:El.
  { apply andb_true_iff in El as [El Ec%bool_decide_eq_true]. done. }
  unfold bind at 1. pose proof (loop_wait_fuel _ env (pushed w) (spin_waits l)) as Hf.
  destruct (loop_wait _ env (pushed w)) as [[] e v|s|v|] eqn:E; [| |done|done].
  - unfold loop_wait in E. apply spin_taken in E.
    unfold bind, mycpu, cpuid, r_tp, upd_lk, bind, gets, modify, ret. rsimpl.
    rewrite fn_alter_insert, fn_lookup_insert. done.
  - exfalso. unfold loop_wait in E. revert E. clear.
    generalize (S (length env)), (pushed w). intros n. revert env.
    induction n as [|n IH]; intros env w'; [done|]. simpl. unfold bind at 1 2.
    rewrite test_and_set_run. destruct (lk_locked (w_lk w' l)); [|done].
    unfold bind, wait_event, ret. destruct env; [done|]. apply IH.
Qed.

Lemma image_cpu_ok : cpu_ok image_world.
Proof. done. Qed.

Lemma push_pop_matched_witness :
  cpu_ok image_world ∧
  ∃ w1, times 2 push_off [] image_world = Ret tt [] w1 ∧ sie w1 = false.
Proof.
  split; [exact image_cpu_ok|].
  destruct (push_pop_matched 2 [] image_world image_cpu_ok ltac:(lia)) as (w1 & H & Hs & _).
  exists w1. split; [exact H|exact Hs].
Defined.

Lemma acquire_release_witness :
  lk_free image_world LKmem ∧
  release LKmem [] (locked_by LKmem image_world) = Ret tt [] (settle image_world).
Proof.
  split; [split; reflexivity|].
  apply (acquire_release LKmem [] image_world image_cpu_ok). split; reflexivity.
Defined.

Lemma lock_misuse_panics_witness :
  0 ≤ w_tp image_world < NCPU ∧ release LKmem [] image_world = Panic "release".
Proof.
  split; [done|].
  apply (lock_misuse_panics LKmem [] image_world ltac:(done)). intros [H _]. discriminate H.
Defined.

(** A lock that another hart holds and frees while this one spins. *)
Lemma acquire_takes_witness :
  let w := set_lk (<[LKmem := mkSpinlock true "kmem" (Some 3)]> (w_lk image_world)) image_world in
  let free := set_lk (w_lk image_world) in
  ∃ w', acquire LKmem [free] w = Ret tt [] w' ∧ lk_locked (w_lk w' LKmem) = true.
Proof.
  intros w free. pose proof (acquire_takes LKmem [free] w ltac:(done)) as H.
  destruct (acquire LKmem [free] w) as [[] e w'|s|v|] eqn:E.
  - assert (e = []) as -> by (vm_compute in E; by inversion E).
    exists w'. split; [reflexivity|]. apply H.
  - exfalso. vm_compute in E. discriminate E.
  - exfalso. vm_compute in E. discriminate E.
  - destruct H.
Defined.

End Locks.

(** ** Many harts

    acquire and release again, one access to the lock at a time: [pc h] is where
    hart [h] is in the code.  A hart is outside the lock code, about to swap
    lk->locked, about to store lk->cpu, in its critical section, or between the
    two stores of release. *)

Module Harts.

Inductive pc :=
| Outside
| Swap        (* in acquire, after the holding check *)
| StoreCpu    (* in acquire, after the swap returned 0 *)
| Inside      (* acquire has returned *)
| ClearLocked (* in release, after lk->cpu = 0 *)
| Panicked.

Record conf := mkConf {
  c_lock : spinlock;
  c_pc : Z → pc
}.

Definition init (name : string) : conf := mkConf (mkSpinlock false name None) (λ _, Outside).

(** holding(lk) on hart [h]. *)
Definition holds (lk : spinlock) (h : Z) : bool :=
  lk_locked lk && bool_decide (lk_cpu lk = Some h).

Inductive hart_step : conf → conf → Prop :=
| step_enter lk pcs h : (* acquire: push_off; if (holding(lk)) panic *)
    pcs h = Outside →
    hart_step (mkConf lk pcs) (mkConf lk (<[h := if holds lk h then Panicked else Swap]> pcs))
| step_swap lk pcs h : (* __sync_lock_test_and_set(&lk->locked, 1) *)
    pcs h = Swap →
    hart_step (mkConf lk pcs)
      (mkConf (set_lk_locked true lk) (<[h := if lk_locked lk then Swap else StoreCpu]> pcs))
| step_cpu lk pcs h : (* lk->cpu = mycpu() *)
    pcs h = StoreCpu →
    hart_step (mkConf lk pcs) (mkConf (set_lk_cpu (Some h) lk) (<[h := Inside]> pcs))
| step_release lk pcs h : (* release: if (!holding(lk)) panic; lk->cpu = 0 *)
    pcs h = Inside →
    hart_step (mkConf lk pcs)
      (if holds lk h then mkConf (set_lk_cpu None lk) (<[h := ClearLocked]> pcs)
       else mkConf lk (<[h := Panicked]> pcs))
| step_clear lk pcs h : (* __sync_lock_release(&lk->locked) *)
    pcs h = ClearLocked →
    hart_step (mkConf lk pcs) (mkConf (set_lk_locked false lk) (<[h := Outside]> pcs)).

Inductive reachable (name : string) : conf → Prop :=
| reach_init : reachable name (init name)
| reach_step c c' : reachable name c → hart_step c c' → reachable name c'.

(** The hart that owns the lock, from the swap to the last store of release. *)
Definition owns (p : pc) : bool :=
  match p with StoreCpu | Inside | ClearLocked => true | _ => false end.

(** What lk->cpu holds when its owner [h] is at [p]. *)
Definition cpu_of (p : pc) (h : Z) : option Z := match p with Inside => Some h | _ => None end.

(** Nobody panicked; a free lock has no owner; a held lock has exactly one
    owner, and lk->cpu names it exactly while it is inside. *)
Definition inv (c : conf) : Prop :=
  (∀ h, c_pc c h ≠ Panicked) ∧
  if lk_locked (c_lock c)
  then ∃ h, owns (c_pc c h) = true ∧ (∀ h', owns (c_pc c h') = true → h' = h)
            ∧ lk_cpu (c_lock c) = cpu_of (c_pc c h) h
  else (∀ h, owns (c_pc c h) = false) ∧ lk_cpu (c_lock c) = None.

Lemma no_panic_insert (pcs : Z → pc) h p :
  (∀ h', pcs h' ≠ Panicked) → p ≠ Panicked → ∀ h', (<[h := p]> pcs) h' ≠ Panicked.
Proof. intros H Hp h'. destruct (decide (h = h')) as [->|]; [by rewrite fn_lookup_insert|by rewrite fn_lookup_insert_ne]. Qed.

(** The owner moves to [p], still the owner. *)
Lemma owner_moves (pcs : Z → pc) h p :
  owns p = true → (∀ h', owns (pcs h') = true → h' = h) →
  owns ((<[h := p]> pcs) h) = true ∧ (∀ h', owns ((<[h := p]> pcs) h') = true → h' = h).
Proof.
  intros Hp Hu. rewrite fn_lookup_insert. split; [done|]. intros h'.
  destruct (decide (h = h')) as [->|]; [done|rewrite fn_lookup_insert_ne by done; auto].
Qed.

(** A hart that is not the owner moves to [p], not the owner either. *)
Lemma other_moves (pcs : Z → pc) h p :
  owns (pcs h) = false → owns p = false → ∀ h', owns ((<[h := p]> pcs) h') = owns (pcs h').
Proof.
  intros H Hp h'. destruct (decide (h = h')) as [->|].
  - rewrite fn_lookup_insert. congruence.
  - by rewrite fn_lookup_insert_ne.
Qed.

(** Such a move keeps what a lock that is held says of its owner. *)
Lemma other_inv lk pcs h p :
  lk_locked lk = true → inv (mkConf lk pcs) → owns (pcs h) = false → owns p = false →
  p ≠ Panicked → inv (mkConf lk (<[h := p]> pcs)).
Proof.
  intros Hl [Hn HI] Ho Hp Hpp. split; [by apply no_panic_insert|]. cbn in *. rewrite Hl in *.
  destruct HI as (o & H1 & H2 & H3). exists o.
  assert (h ≠ o) by (intros ->; congruence).
  rewrite fn_lookup_insert_ne by done. split_and!; auto.
  intros h' Hh. apply H2. by rewrite <- (other_moves pcs h p).
Qed.

Lemma other_inv_free lk pcs h p :
  lk_locked lk = false → inv (mkConf lk pcs) → owns p = false →
  p ≠ Panicked → inv (mkConf lk (<[h := p]> pcs)).
Proof.
  intros Hl [Hn HI] Hp Hpp. split; [by apply no_panic_insert|]. cbn in *. rewrite Hl in *.
  destruct HI as [H1 H2]. split; [|done]. intros h'. by rewrite other_moves.
Qed.

(** Only a hart inside holds the lock. *)
Lemma holds_inside lk pcs h : inv (mkConf lk pcs) → (holds lk h = true ↔ pcs h = Inside).
Proof.
  intros [_ HI]. cbn in HI. unfold holds. destruct (lk_locked lk); cbn.
  - destruct HI as (o & H1 & H2 & H3). rewrite H3, bool_decide_eq_true. split.
    + destruct (pcs o) eqn:E; cbn; congruence.
    + intros E. assert (h = o) as -> by (apply H2; by rewrite E). by rewrite E.
  - destruct HI as [H1 _]. split; [done|]. intros E. specialize (H1 h). by rewrite E in H1.
Qed.

Lemma inv_step c c' : inv c → hart_step c c' → inv c'.
Proof.
  intros HI Hs. destruct Hs as [lk pcs h E|lk pcs h E|lk pcs h E|lk pcs h E|lk pcs h E].
  - destruct (holds lk h) eqn:Eh; [apply (holds_inside _ _ _ HI) in Eh; congruence|].
    destruct (lk_locked lk) eqn:El; [apply other_inv|apply other_inv_free]; by rewrite ?E.
  - destruct (lk_locked lk) eqn:El.
    + apply other_inv; cbn; rewrite ?E; try done. destruct HI as [Hn HI]. split; [done|].
      cbn in *. by rewrite El in HI.
    + destruct HI as [Hn HI]. cbn in HI. rewrite El in HI. destruct HI as [H1 H2].
      split; [by apply no_panic_insert|]. exists h. cbn.
      destruct (owner_moves pcs h StoreCpu) as [Ha Hb]; [done|intros h'; by rewrite H1|].
      split_and!; [done|done|]. by rewrite fn_lookup_insert.
  - destruct HI as [Hn HI]. cbn in HI. destruct (lk_locked lk) eqn:El.
    + destruct HI as (o & H1 & H2 & H3). assert (h = o) as <- by (apply H2; by rewrite E).
      split; [by apply no_panic_insert|]. cbn. rewrite El. exists h.
      destruct (owner_moves pcs h Inside) as [Ha Hb]; [done|done|].
      split_and!; [done|done|]. by rewrite fn_lookup_insert.
    + destruct HI as [H1 _]. specialize (H1 h). by rewrite E in H1.
  - rewrite (proj2 (holds_inside _ _ h HI) E). destruct HI as [Hn HI]. cbn in HI.
    destruct (lk_locked lk) eqn:El; [|destruct HI as [H1 _]; specialize (H1 h); by rewrite E in H1].
    destruct HI as (o & H1 & H2 & H3). assert (h = o) as <- by (apply H2; by rewrite E).
    split; [by apply no_panic_insert|]. cbn. rewrite El. exists h.
    destruct (owner_moves pcs h ClearLocked) as [Ha Hb]; [done|done|].
    split_and!; [done|done|]. by rewrite fn_lookup_insert.
  - destruct HI as [Hn HI]. cbn in HI. split; [by apply no_panic_insert|]. cbn.
    destruct (lk_locked lk); [|destruct HI as [H1 _]; specialize (H1 h); by rewrite E in H1].
    destruct HI as (o & H1 & H2 & H3). assert (h = o) as <- by (apply H2; by rewrite E).
    rewrite E in H3. split; [|done]. intros h'.
    destruct (decide (h = h')) as [->|]; [by rewrite fn_lookup_insert|].
    rewrite fn_lookup_insert_ne by done. destruct (owns (pcs h')) eqn:Eo; [|done].
    by apply H2 in Eo.
Qed.

Lemma inv_reachable name c : reachable name c → inv c.
Proof. induction 1; [done|eauto using inv_step]. Qed.



End Harts.
