(* ===== verification/Kalloc.v ===== *)
(** * kalloc.c: the physical page allocator

    The free list threads through the free pages themselves: the first word of
    a free page is the address of the next one.  [kmem_inv] says which list of
    pages it represents. *)

From S2P Require Import Prelude Types StringC Spinlock.

Section Kalloc.
Context {L : Layout}.

(** memset on physical memory; the loop is StringC.memset. *)
Definition memset_k (a c n : Z) : K unit :=
  modify (λ w, set_mem (mem_fill (w_mem w) a n c) w).

Definition kfree (pa : Z) : K unit :=
  if negb (pa `mod` PGSIZE =? 0) || (pa <? kend) || (PHYSTOP <=? pa) then panic "kfree" else
  memset_k pa 1 PGSIZE ;;
  acquire LKmem ;;
  modify (λ w, set_mem (st64 (w_mem w) pa (w_freelist w)) w) ;;
  modify (λ w, set_freelist pa w) ;;
  release LKmem.

(** [for (; p + PGSIZE <= pa_end; p += PGSIZE) kfree(p);] *)
Fixpoint freerange_loop (fuel : nat) (p pa_end : Z) : K unit :=
  match fuel with
  | O => λ _ _, NoFuel
  | S n => if p + PGSIZE <=? pa_end then kfree p ;; freerange_loop n (p + PGSIZE) pa_end else ret tt
  end.

Definition freerange (pa_start pa_end : Z) : K unit :=
  let p := PGROUNDUP pa_start in
  freerange_loop (S (Z.to_nat ((pa_end - p) / PGSIZE))) p pa_end.

Definition kinit : K unit :=
  initlock LKmem "kmem" ;;
  freerange kend PHYSTOP.

Definition kalloc : K Z :=
  acquire LKmem ;;
  r <- gets w_freelist ;;
  when (nz r) (modify (λ w, set_freelist (ld64 (w_mem w) r) w)) ;;
  release LKmem ;;
  when (nz r) (memset_k r 5 PGSIZE) ;;
  ret r.

(** ** The list of free pages *)

(** A page kfree accepts. *)
Definition page_ok (pa : Z) : Prop := pa `mod` PGSIZE = 0 ∧ kend ≤ pa < PHYSTOP.

Fixpoint flist (m : bytes) (head : Z) (l : list Z) : Prop :=
  match l with
  | [] => head = 0
  | a :: l' => head = a ∧ flist m (ld64 m a) l'
  end.

Definition kmem_inv (w : world) (free : list Z) : Prop :=
  flist (w_mem w) (w_freelist w) free ∧ Forall page_ok free ∧ NoDup free.

(** [m'] is [m] but for the page [pa]. *)
Definition same_outside (pa : Z) (m m' : bytes) : Prop :=
  ∀ x, ¬ (pa ≤ x < pa + PGSIZE) → m' x = m x.

End Kalloc.

(** Distinct aligned pages do not overlap. *)
Lemma pages_apart a b :
  a `mod` PGSIZE = 0 → b `mod` PGSIZE = 0 → a ≠ b → a + PGSIZE ≤ b ∨ b + PGSIZE ≤ a.
Proof.
  intros Ha Hb Hne. unfold PGSIZE in *.
  pose proof (Z_div_mod_eq_full a 4096). pose proof (Z_div_mod_eq_full b 4096).
  assert (a / 4096 ≠ b / 4096) by congruence. lia.
Qed.

Section KallocLemmas.
Context `{LayoutOk}.
Implicit Types (w : world) (m : bytes).

Lemma kend_pos : 0 < kend.
Proof. pose proof text_start. pose proof etext_kend. pose proof trampoline_etext. unfold KERNBASE, PGSIZE in *. lia. Qed.

Lemma page_ok_pos pa : page_ok pa → 0 < pa < 2 ^ 64.
Proof. intros [_ ?]. pose proof kend_pos. unfold PHYSTOP, KERNBASE in *. lia. Qed.

(** Writing outside the free pages keeps the list. *)
Lemma flist_ext m m' head l :
  (∀ a x, a ∈ l → a ≤ x < a + 8 → m' x = m x) → flist m head l → flist m' head l.
Proof.
  revert head. induction l as [|a l IH]; intros head Hm; [done|]. intros [-> Hl].
  split; [done|]. unfold ld64. rewrite (ld_ext 8 m' m) by (intros; apply (Hm a); set_solver).
  apply IH; [|done]. intros b x Hb. apply (Hm b). set_solver.
Qed.

Lemma flist_outside m m' pa head l :
  same_outside pa m m' → Forall page_ok l → page_ok pa → pa ∉ l →
  flist m head l → flist m' head l.
Proof.
  intros Hs Hl Hpa Hin. apply flist_ext. intros a x Ha Hx. apply Hs.
  rewrite Forall_forall in Hl. destruct (Hl a Ha) as [Ma _], Hpa as [Mp _].
  assert (a ≠ pa) by (intros ->; done).
  destruct (pages_apart a pa); unfold PGSIZE in *; try done; lia.
Qed.

Lemma flist_head m head l : Forall page_ok l → flist m head l → 0 ≤ head < 2 ^ 64.
Proof.
  destruct l as [|a l]; [intros _ ->; lia|]. intros Hl [-> _].
  inversion Hl. pose proof (page_ok_pos a). naive_solver lia.
Qed.

Lemma same_outside_fill pa m c : same_outside pa m (mem_fill m pa PGSIZE c).
Proof. intros x Hx. by apply mem_fill_out. Qed.

Lemma same_outside_st64 pa m m' v : same_outside pa m m' → same_outside pa m (st64 m' pa v).
Proof.
  intros Hs x Hx. unfold st64. rewrite st_out; [by apply Hs|lia|unfold PGSIZE in *; lia].
Qed.

Lemma same_outside_trans pa m1 m2 m3 :
  same_outside pa m1 m2 → same_outside pa m2 m3 → same_outside pa m1 m3.
Proof. intros H1 H2 x Hx. by rewrite H2, H1. Qed.

Definition freed_mem (w : world) (pa : Z) : bytes :=
  st64 (mem_fill (w_mem w) pa PGSIZE 1) pa (w_freelist w).

Lemma kfree_run pa env w :
  cpu_ok w → lk_free w LKmem → page_ok pa →
  kfree pa env w = Ret tt env (set_freelist pa (set_mem (freed_mem w pa) (settle w))).
Proof.
  intros Hok Hlk [Ha Hr]. unfold kfree.
  replace (negb (pa `mod` PGSIZE =? 0) || (pa <? kend) || (PHYSTOP <=? pa)) with false.
  2:{ symmetry. rewrite !orb_false_iff, negb_false_iff, Z.eqb_eq, Z.ltb_ge, Z.leb_gt. lia. }
  unfold memset_k. msteps.
  set (w0 := set_mem (mem_fill (w_mem w) pa PGSIZE 1) w).
  mcall (acquire_free LKmem env w0); [by auto|]. msteps.
  etransitivity; [by apply (release_after LKmem env w0)|]. reflexivity.
Qed.

Lemma kfree_bad pa env w : ¬ page_ok pa → kfree pa env w = Panic "kfree".
Proof.
  intros Hbad. unfold kfree, page_ok in *.
  replace (negb (pa `mod` PGSIZE =? 0) || (pa <? kend) || (PHYSTOP <=? pa)) with true; [done|].
  symmetry. rewrite !orb_true_iff, negb_true_iff, Z.eqb_neq, Z.ltb_lt, Z.leb_le. lia.
Qed.

Lemma freed_inv pa w free :
  kmem_inv w free → page_ok pa → pa ∉ free →
  kmem_inv (set_freelist pa (set_mem (freed_mem w pa) (settle w))) (pa :: free)
  ∧ same_outside pa (w_mem w) (freed_mem w pa).
Proof.
  intros (Hf & Hp & Hn) Hpa Hin.
  assert (Hs : same_outside pa (w_mem w) (freed_mem w pa)).
  { apply same_outside_st64, same_outside_fill. }
  split; [|done]. unfold kmem_inv. rsimpl. split_and!; [split; [done|]|by constructor|by constructor].
  replace (ld64 (freed_mem w pa) pa) with (w_freelist w).
  - by eapply flist_outside.
  - unfold freed_mem, ld64, st64. rewrite ld_st_eq by lia. symmetry. apply Z.mod_small.
    pose proof (flist_head _ _ _ Hp Hf). lia.
Qed.

Lemma kalloc_none env w :
  cpu_ok w → lk_free w LKmem → w_freelist w = 0 → kalloc env w = Ret 0 env (settle w).
Proof.
  intros Hok Hlk Hf. unfold kalloc. mcall (acquire_free LKmem env w); [by auto|]. msteps.
  change (w_freelist (locked_by LKmem w)) with (w_freelist w). rewrite Hf.
  change (nz 0) with false. msteps. mcall (release_after LKmem env w); [reflexivity..|].
  msteps. reflexivity.
Qed.

Lemma kalloc_some env w :
  cpu_ok w → lk_free w LKmem → w_freelist w ≠ 0 →
  kalloc env w = Ret (w_freelist w) env
    (set_mem (mem_fill (w_mem w) (w_freelist w) PGSIZE 5)
      (set_freelist (ld64 (w_mem w) (w_freelist w)) (settle w))).
Proof.
  intros Hok Hlk Hf. unfold kalloc. mcall (acquire_free LKmem env w); [by auto|]. msteps.
  change (w_freelist (locked_by LKmem w)) with (w_freelist w).
  rewrite (proj2 (nz_true _) Hf). msteps.
  mcall (release_after LKmem env w); [reflexivity..|]. unfold memset_k. msteps. reflexivity.
Qed.

Lemma alloc_inv w a free :
  kmem_inv w (a :: free) →
  w_freelist w = a ∧ page_ok a ∧ a ∉ free ∧
  kmem_inv (set_mem (mem_fill (w_mem w) a PGSIZE 5) (set_freelist (ld64 (w_mem w) a) (settle w))) free.
Proof.
  intros ([E Hf] & Hp & Hn). apply Forall_cons in Hp as [Hpa Hp']. subst.
  apply NoDup_cons in Hn as [Hin Hn]. split_and!; [done|done|done|].
  unfold kmem_inv. rsimpl. split_and!; [|done|done].
  eapply flist_outside; [apply same_outside_fill| | | |]; done.
Qed.

End KallocLemmas.

(** ** Histories of the allocator *)

Module Alloc.

(** The abstract allocator: a stack of free pages and the pages in use. *)
Inductive op := Alloc | Free (pa : Z).

Definition abs_step (o : op) (st : list Z * list Z) : option (Z * (list Z * list Z)) :=
  let '(free, used) := st in
  match o with
  | Alloc => match free with
             | [] => Some (0, (free, used))
             | a :: free' => Some (a, (free', a :: used))
             end
  | Free pa => if decide (pa ∈ used) then Some (0, (pa :: free, list_difference used [pa])) else None
  end.

Fixpoint abs_run (ops : list op) (st : list Z * list Z) : option (list Z * (list Z * list Z)) :=
  match ops with
  | [] => Some ([], st)
  | o :: ops' =>
      match abs_step o st with
      | None => None
      | Some (r, st') =>
          match abs_run ops' st' with Some (rs, st'') => Some (r :: rs, st'') | None => None end
      end
  end.

Section Histories.
Context `{LayoutOk}.

Definition run_op (o : op) : K Z :=
  match o with Alloc => kalloc | Free pa => kfree pa ;; ret 0 end.

Fixpoint run_ops (ops : list op) : K (list Z) :=
  match ops with
  | [] => ret []
  | o :: ops' => r <- run_op o ;; rs <- run_ops ops' ;; ret (r :: rs)
  end.

(** The allocator represents the abstract state: [free] is on the free list,
    and no page is in two places. *)
Definition represents (w : world) (st : list Z * list Z) : Prop :=
  let '(free, used) := st in
  kmem_inv w free ∧ Forall page_ok used ∧ NoDup (free ++ used)
  ∧ cpu_ok w ∧ lk_free w LKmem.

Lemma remove_perm (pa : Z) (l : list Z) :
  NoDup l → pa ∈ l → pa :: list_difference l [pa] ≡ₚ l.
Proof.
  intros Hn Hin. apply NoDup_Permutation.
  - constructor; [|by apply NoDup_list_difference]. intros [_ Hx]%list_elem_of_difference. set_solver.
  - done.
  - intros x. rewrite elem_of_cons, list_elem_of_difference, list_elem_of_singleton.
    destruct (decide (x = pa)); naive_solver.
Qed.

Lemma abs_step_perm o st r st' :
  NoDup (st.1 ++ st.2) → abs_step o st = Some (r, st') → st'.1 ++ st'.2 ≡ₚ st.1 ++ st.2.
Proof.
  destruct st as [free used], o as [|pa]; cbn.
  - destruct free as [|a free]; intros Hn E; simplify_eq; cbn; [done|].
    by rewrite Permutation_middle.
  - intros Hn E. case_decide as Hin; simplify_eq. cbn.
    apply NoDup_app in Hn as (_ & _ & Hu).
    rewrite Permutation_middle. by rewrite remove_perm.
Qed.

Lemma refines_step o st r st' env w :
  represents w st → abs_step o st = Some (r, st') →
  ∃ w', run_op o env w = Ret r env w' ∧ represents w' st'.
Proof.
  destruct st as [free used]. intros (Hinv & Hu & Hnd & Hok & Hlk) Hs.
  pose proof (abs_step_perm o (free, used) r st' Hnd Hs) as Hperm.
  destruct o as [|pa]; cbn in Hs.
  - destruct free as [|a free]; simplify_eq; cbn in Hperm |- *.
    + exists (settle w). split; [|by split_and!; auto].
      apply kalloc_none; [done..|apply Hinv].
    + destruct (alloc_inv _ _ _ Hinv) as (Ea & Hpa & Hin & Hinv').
      eexists. rewrite kalloc_some; [|done|done|rewrite Ea; pose proof (page_ok_pos _ Hpa); lia].
      rewrite Ea. split; [reflexivity|]. split_and!; [done|by constructor|by rewrite Hperm| |done].
      by apply (settle_cpu_ok w).
  - case_decide as Hin; simplify_eq. cbn in Hperm |- *.
    assert (Hpa : page_ok pa) by (by rewrite Forall_forall in Hu; apply Hu).
    assert (Hnf : pa ∉ free) by (apply NoDup_app in Hnd as (_ & Hd & _); intros Hf; by apply (Hd pa Hf)).
    destruct (freed_inv pa w free Hinv Hpa Hnf) as [Hinv' _].
    eexists. split; [by mcall kfree_run|]. split_and!; [done| | | |done].
    + rewrite Forall_forall in *. intros x [Hx _]%list_elem_of_difference. auto.
    + by rewrite Hperm.
    + by apply (settle_cpu_ok w).
Qed.

(** C19: kalloc.c refines a stack of free pages.  Along any sequence of kalloc and
    kfree calls that frees only pages in use, the calls return what the stack
    returns (0 exactly when it is empty), the free list keeps representing the
    stack, and the free pages and the pages in use together are always the
    pages there were: none is lost, none handed out twice. *)
Theorem kalloc_refines_stack ops st env w rs st' :
  represents w st → abs_run ops st = Some (rs, st') →
  ∃ w', run_ops ops env w = Ret rs env w' ∧ represents w' st'
        ∧ st'.1 ++ st'.2 ≡ₚ st.1 ++ st.2.
Proof.
  revert st w rs. induction ops as [|o ops IH]; intros st w rs Hr Hs.
  { cbn in Hs. simplify_eq. by exists w. }
  cbn in Hs. destruct (abs_step o st) as [[r st1]|] eqn:E1; [|done].
  destruct (abs_run ops st1) as [[rs1 st2]|] eqn:E2; [|done]. simplify_eq.
  destruct (refines_step _ _ _ _ env _ Hr E1) as (w1 & R1 & Hr1).
  destruct (IH _ _ _ Hr1 E2) as (w2 & R2 & Hr2 & P2).
  exists w2. split_and!; [|done|].
  - cbn. mrun R1. mrun R2. reflexivity.
  - rewrite P2. eapply abs_step_perm; [|done]. destruct st. by destruct Hr as (_ & _ & ? & _).
Qed.

(** kfree panics, leaving memory alone, exactly on an address that is not an
    aligned page between the end of the kernel and PHYSTOP. *)
Theorem kfree_checks pa env w :
  cpu_ok w → lk_free w LKmem → (kfree pa env w = Panic "kfree" ↔ ¬ page_ok pa).
Proof.
  intros Hok Hlk. split; [|apply kfree_bad].
  intros E Hpa. by rewrite (kfree_run pa env w Hok Hlk Hpa) in E.
Qed.

(** ** Boot *)

(** The pages freerange frees, in the order it frees them. *)
Definition pages_of (p pa_end : Z) : list Z := (λ i, p + i * PGSIZE) <$> seqZ 0 ((pa_end - p) / PGSIZE).

Lemma pages_of_nil p pa_end : pa_end < p + PGSIZE → pages_of p pa_end = [].
Proof.
  intros Hlt. unfold pages_of. rewrite seqZ_nil; [done|].
  apply Z.lt_succ_r, Z.div_lt_upper_bound; unfold PGSIZE in *; lia.
Qed.

Lemma pages_of_cons p pa_end :
  p + PGSIZE ≤ pa_end → pages_of p pa_end = p :: pages_of (p + PGSIZE) pa_end.
Proof.
  intros Hle. unfold pages_of.
  replace ((pa_end - p) / PGSIZE) with (1 + (pa_end - (p + PGSIZE)) / PGSIZE).
  2:{ replace (pa_end - p) with (pa_end - (p + PGSIZE) + 1 * PGSIZE) by lia.
      rewrite Z.div_add by done. lia. }
  assert (0 ≤ (pa_end - (p + PGSIZE)) / PGSIZE) by (apply Z.div_pos; [lia|done]).
  rewrite seqZ_cons by lia. cbn. f_equal; [lia|].
  replace (Z.pred (1 + (pa_end - (p + PGSIZE)) / PGSIZE)) with ((pa_end - (p + PGSIZE)) / PGSIZE) by lia.
  change (Z.succ 0) with (1 + 0). rewrite <-fmap_add_seqZ, <-list_fmap_compose.
  apply list_fmap_ext. intros i x _. cbn. lia.
Qed.

Lemma pages_of_in p pa_end x : x ∈ pages_of p pa_end → p ≤ x ∧ x + PGSIZE ≤ pa_end.
Proof.
  unfold pages_of. intros (i & -> & Hi)%list_elem_of_fmap. apply elem_of_seqZ in Hi.
  assert ((i + 1) * PGSIZE ≤ (pa_end - p) / PGSIZE * PGSIZE) by (apply Z.mul_le_mono_nonneg_r; [done|lia]).
  pose proof (Z.mul_div_le (pa_end - p) PGSIZE). unfold PGSIZE in *. lia.
Qed.

Lemma freerange_loop_run fuel p free env w :
  (Z.to_nat ((PHYSTOP - p) / PGSIZE) < fuel)%nat → p `mod` PGSIZE = 0 → kend ≤ p →
  (∀ x, x ∈ free → x < p) →
  kmem_inv w free → cpu_ok w → lk_free w LKmem →
  ∃ w', freerange_loop fuel p PHYSTOP env w = Ret tt env w'
        ∧ kmem_inv w' (reverse (pages_of p PHYSTOP) ++ free) ∧ cpu_ok w' ∧ lk_free w' LKmem.
Proof.
  revert p free w. induction fuel as [|fuel IH]; intros p free w Hf Hm Hp Hfree Hinv Hok Hlk; [lia|].
  simpl. destruct (Z.leb_spec (p + PGSIZE) PHYSTOP) as [Hle|Hgt].
  2:{ exists w. by rewrite pages_of_nil. }
  assert (Hpa : page_ok p) by (split; unfold PGSIZE in *; [done|lia]).
  assert (Hin : p ∉ free) by (intros Hx%Hfree; lia).
  destruct (freed_inv p w free Hinv Hpa Hin) as [Hinv' _].
  destruct (IH (p + PGSIZE) (p :: free) (set_freelist p (set_mem (freed_mem w p) (settle w))))
    as (w' & E & Hi & Hc & Hl); try done.
  - assert ((PHYSTOP - p) / PGSIZE = (PHYSTOP - (p + PGSIZE)) / PGSIZE + 1) as Ed.
    { rewrite <-Z.div_add by done. f_equal. unfold PGSIZE. lia. }
    assert (0 ≤ (PHYSTOP - (p + PGSIZE)) / PGSIZE) by (apply Z.div_pos; [lia|done]). lia.
  - unfold PGSIZE in *. by rewrite <-Z.add_mod_idemp_r, Z_mod_same_full, Z.add_0_r by done.
  - unfold PGSIZE. lia.
  - intros x [->|Hx%Hfree]%elem_of_cons; unfold PGSIZE; lia.
  - by apply (settle_cpu_ok w).
  - exists w'. split; [by mcall kfree_run|]. split_and!; [|done|done].
    rewrite pages_of_cons, reverse_cons, <-(assoc_L (++)) by done. done.
Qed.

Lemma PGROUNDUP_spec x : 0 ≤ x < 2 ^ 63 → PGROUNDUP x `mod` PGSIZE = 0 ∧ x ≤ PGROUNDUP x < x + PGSIZE.
Proof.
  intros Hx. unfold PGROUNDUP. rewrite u64_small by (unfold PGSIZE; lia).
  change (Z.lnot (PGSIZE - 1)) with (Z.lnot (Z.ones 12)).
  rewrite <-Z.ldiff_land, Z.ldiff_ones_r, Z.shiftr_div_pow2, Z.shiftl_mul_pow2 by lia.
  change (2 ^ 12) with PGSIZE. split; [by apply Z_mod_mult|].
  pose proof (Z.mul_div_le (x + PGSIZE - 1) PGSIZE ltac:(done)).
  pose proof (Z.mul_succ_div_gt (x + PGSIZE - 1) PGSIZE ltac:(done)). unfold PGSIZE in *. lia.
Qed.

(** kinit puts every whole page between the end of the kernel image and
    PHYSTOP on the free list, once, and terminates. *)
Theorem kinit_frees_all env w :
  cpu_ok w → w_freelist w = 0 →
  ∃ w', kinit env w = Ret tt env w'
        ∧ kmem_inv w' (reverse (pages_of (PGROUNDUP kend) PHYSTOP))
        ∧ (∀ pa, page_ok pa → pa ∈ pages_of (PGROUNDUP kend) PHYSTOP).
Proof.
  intros Hok Hf. pose proof kend_pos as Hk. pose proof kend_phystop as Hks.
  destruct (PGROUNDUP_spec kend) as [Hm Hr]; [unfold PHYSTOP, KERNBASE in *; lia|].
  set (w0 := set_lk (<[LKmem := mkSpinlock false "kmem" None]> (w_lk w)) w).
  destruct (freerange_loop_run (S (Z.to_nat ((PHYSTOP - PGROUNDUP kend) / PGSIZE)))
    (PGROUNDUP kend) [] env w0) as (w' & E & Hi & _ & _); try done; try lia.
  - set_solver.
  - split_and!; [done|constructor|constructor].
  - exists w'. split_and!.
    + unfold kinit, initlock, upd_lk. msteps. rsimpl. autorewrite with xv6. exact E.
    + by rewrite app_nil_r in Hi.
    + intros pa [Ha Hpa]. apply list_elem_of_fmap. exists ((pa - PGROUNDUP kend) / PGSIZE).
      assert (PGROUNDUP kend ≤ pa).
      { destruct (decide (pa = PGROUNDUP kend)); [lia|].
        destruct (pages_apart pa (PGROUNDUP kend)); try done; lia. }
      unfold PGSIZE in *.
      assert (Hd : (pa - PGROUNDUP kend) `mod` 4096 = 0) by (by rewrite Zminus_mod, Ha, Hm).
      pose proof (Z_div_mod_eq_full (pa - PGROUNDUP kend) 4096). split; [lia|].
      apply elem_of_seqZ. unfold PHYSTOP, KERNBASE in *. split; [apply Z.div_pos; lia|].
      apply Z.div_lt_upper_bound; [lia|]. Z.to_euclidean_division_equations. lia.
Qed.

End Histories.

Definition sample_page : Z := PGROUNDUP (@kend sample_layout).

Lemma sample_page_ok : @page_ok sample_layout sample_page.
Proof. split; vm_compute; done. Qed.

Lemma sample_represents : @represents sample_layout image_world ([], [sample_page]).
Proof.
  split_and!; [split_and!; [done|constructor|constructor]| |by repeat constructor; set_solver|done|done].
  constructor; [apply sample_page_ok|constructor].
Qed.

(** Free a page, take it back, and find the allocator empty. *)
Lemma kalloc_refines_stack_witness :
  @represents sample_layout image_world ([], [sample_page]) ∧
  ∃ w', @run_ops sample_layout [Free sample_page; Alloc; Alloc] [] image_world
        = Ret [0; sample_page; 0] [] w'.
Proof.
  split; [exact sample_represents|].
  destruct (@kalloc_refines_stack sample_layout sample_layout_ok [Free sample_page; Alloc; Alloc]
    ([], [sample_page]) [] image_world [0; sample_page; 0] ([], [sample_page])
    sample_represents ltac:(vm_compute; reflexivity)) as (w' & E & _).
  exists w'. exact E.
Defined.

Lemma kfree_checks_witness :
  cpu_ok image_world ∧ @kfree sample_layout 0 [] image_world = Panic "kfree".
Proof.
  split; [exact Locks.image_cpu_ok|].
  apply (@kfree_checks sample_layout 0 [] image_world).
  - exact Locks.image_cpu_ok.
  - split; reflexivity.
  - intros [_ Hx]. vm_compute in Hx. destruct Hx as [Hx _]. by apply Hx.
Defined.

Lemma kinit_frees_all_witness :
  w_freelist image_world = 0 ∧
  ∃ w', @kinit sample_layout [] image_world = Ret tt [] w'
        ∧ @kmem_inv sample_layout w' (reverse (pages_of sample_page PHYSTOP)).
Proof.
  split; [reflexivity|].
  destruct (@kinit_frees_all sample_layout sample_layout_ok [] image_world
    Locks.image_cpu_ok eq_refl) as (w' & E & Hi & _).
  exists w'. split; [exact E|exact Hi].
Defined.

End Alloc.
