(* ===== verification/PageTable.v ===== *)
(** * Sv39 page tables in memory

    [node m root path] is the page-table page reached from [root] by the indices
    [path]; [ptw m root va] is the leaf entry the hardware finds for [va], 0 when
    a level is missing.  [pt_wf] says that the pages of a table are distinct
    pages of RAM.  The lemmas say how a store into a page-table page changes
    both. *)

From S2P Require Import Prelude Types StringC Kalloc.

(** &pagetable[i] *)
Definition pte_at (pagetable i : Z) : Z := pagetable + 8 * i.

Definition pte_valid (v : Z) : bool := nz (Z.land v PTE_V).

(** The page-table page entry [i] of the page [pt] points to. *)
Definition child (m : bytes) (pt i : Z) : option Z :=
  let v := ld64 m (pte_at pt i) in if pte_valid v then Some (PTE2PA v) else None.

Fixpoint node (m : bytes) (pt : Z) (path : list Z) : option Z :=
  match path with
  | [] => Some pt
  | i :: rest => match child m pt i with Some a => node m a rest | None => None end
  end.

Definition ptw (m : bytes) (root va : Z) : Z :=
  match node m root [PX 2 va; PX 1 va] with
  | Some q => ld64 m (pte_at q (PX 0 va))
  | None => 0
  end.

(** Paths to page-table pages: at most two indices. *)
Definition tpath (path : list Z) : Prop :=
  (length path ≤ 2)%nat ∧ Forall (λ i, 0 ≤ i < 512) path.

Definition in_pt (m : bytes) (root a : Z) : Prop :=
  ∃ path, tpath path ∧ node m root path = Some a.

Definition pt_wf `{Layout} (m : bytes) (root : Z) : Prop :=
  (∀ path a, tpath path → node m root path = Some a → page_ok a) ∧
  (∀ p1 p2 a, tpath p1 → tpath p2 → node m root p1 = Some a → node m root p2 = Some a → p1 = p2).

(** ** Bits *)

Lemma lor_shift_low x f n : 0 ≤ n → 0 ≤ f < 2 ^ n → Z.lor (x ≪ n) f ≫ n = x.
Proof.
  intros Hn Hf. rewrite Z.shiftr_lor, Z.shiftr_shiftl_l, Z.sub_diag, Z.shiftl_0_r by lia.
  rewrite (Z.shiftr_div_pow2 f), Z.div_small by lia. apply Z.lor_0_r.
Qed.

Lemma aligned_shift pa : pa `mod` PGSIZE = 0 → (pa ≫ 12) ≪ 12 = pa.
Proof.
  intros Ha. rewrite Z.shiftr_div_pow2, Z.shiftl_mul_pow2 by lia. change (2 ^ 12) with PGSIZE.
  pose proof (Z_div_mod_eq_full pa PGSIZE). lia.
Qed.

Lemma PA2PTE_small pa : 0 ≤ pa < 2 ^ 56 → PA2PTE pa = (pa ≫ 12) ≪ 10.
Proof.
  intros Hp. unfold PA2PTE. apply u64_small.
  rewrite Z.shiftr_div_pow2, Z.shiftl_mul_pow2 by lia.
  assert (0 ≤ pa / 2 ^ 12 < 2 ^ 44).
  { split; [apply Z.div_pos; lia|apply Z.div_lt_upper_bound; lia]. }
  lia.
Qed.

Lemma lor_small a b n : 0 ≤ n → 0 ≤ a < 2 ^ n → 0 ≤ b < 2 ^ n → 0 ≤ Z.lor a b < 2 ^ n.
Proof.
  intros Hn Ha Hb. assert (0 ≤ Z.lor a b) by (apply Z.lor_nonneg; lia). split; [done|].
  destruct (decide (Z.lor a b = 0)) as [->|Hne]; [lia|].
  apply Z.log2_lt_pow2; [lia|]. rewrite Z.log2_lor by lia.
  destruct (decide (a = 0)) as [->|]; destruct (decide (b = 0)) as [->|].
  - done.
  - apply Z.max_lub_lt; [|by apply Z.log2_lt_pow2; lia]. cbn. destruct (decide (n = 0)) as [->|]; lia.
  - apply Z.max_lub_lt; [by apply Z.log2_lt_pow2; lia|]. cbn. destruct (decide (n = 0)) as [->|]; lia.
  - apply Z.max_lub_lt; apply Z.log2_lt_pow2; lia.
Qed.

(** An entry for the page [pa] with the low bits [f]. *)
Lemma PTE2PA_entry pa f :
  pa `mod` PGSIZE = 0 → 0 ≤ pa < 2 ^ 56 → 0 ≤ f < 2 ^ 10 → PTE2PA (Z.lor (PA2PTE pa) f) = pa.
Proof.
  intros Ha Hp Hf. unfold PTE2PA. rewrite PA2PTE_small, lor_shift_low, aligned_shift by lia.
  apply u64_small. lia.
Qed.

Lemma entry_valid x : pte_valid (Z.lor x PTE_V) = true.
Proof.
  unfold pte_valid. apply nz_true. rewrite Z.land_lor_distr_l, Z.land_diag.
  intros [_ E]%Z.lor_eq_0_iff. discriminate E.
Qed.

Lemma PTE_FLAGS_entry pa f :
  0 ≤ pa < 2 ^ 56 → 0 ≤ f < 2 ^ 10 → PTE_FLAGS (Z.lor (PA2PTE pa) f) = f.
Proof.
  intros Hp Hf. unfold PTE_FLAGS. rewrite PA2PTE_small by done.
  change 0x3FF with (Z.ones 10). rewrite Z.land_lor_distr_l.
  rewrite (Z.land_ones f), (Z.mod_small f) by lia.
  rewrite Z.land_ones, Z.shiftl_mul_pow2, Z_mod_mult by lia. done.
Qed.

(** The bits of the flags, read off the entry. *)
Lemma entry_bit pa f b :
  0 ≤ pa < 2 ^ 56 → 0 ≤ f < 2 ^ 10 → 0 ≤ b < 2 ^ 10 →
  Z.land (Z.lor (PA2PTE pa) f) b = Z.land f b.
Proof.
  intros Hp Hf Hb. pose proof (PTE_FLAGS_entry pa f Hp Hf) as E. unfold PTE_FLAGS in E.
  change 0x3FF with (Z.ones 10) in E.
  assert (Eb : Z.land (Z.ones 10) b = b).
  { rewrite Z.land_comm, Z.land_ones, Z.mod_small by lia. done. }
  rewrite <-Eb, Z.land_assoc, E, Eb. done.
Qed.

Lemma entry_range pa f : 0 ≤ pa < 2 ^ 56 → 0 ≤ f < 2 ^ 10 → 0 ≤ Z.lor (PA2PTE pa) f < 2 ^ 64.
Proof.
  intros Hp Hf. apply lor_small; [lia| |lia]. unfold PA2PTE. apply u64_range.
Qed.

(** ** Indices of a virtual address *)

Lemma PX_eq level va : 0 ≤ level → PX level va = (va / 2 ^ (12 + 9 * level)) `mod` 512.
Proof.
  intros Hl. unfold PX, PXMASK, PXSHIFT, PGSHIFT. change 0x1FF with (Z.ones 9).
  by rewrite Z.land_ones, Z.shiftr_div_pow2 by lia.
Qed.

Lemma PX_range level va : 0 ≤ level → 0 ≤ PX level va < 512.
Proof. intros Hl. rewrite PX_eq by done. by apply Z.mod_pos_bound. Qed.

(** The three indices determine the page. *)
Lemma PX_inj va va' :
  0 ≤ va < MAXVA → 0 ≤ va' < MAXVA →
  PX 2 va = PX 2 va' → PX 1 va = PX 1 va' → PX 0 va = PX 0 va' → va / PGSIZE = va' / PGSIZE.
Proof.
  intros Hv Hv'. rewrite !PX_eq by lia. unfold MAXVA, PGSIZE in *.
  change (1 ≪ (9 + 9 + 9 + 12 - 1)) with (2 ^ 38) in *.
  change (2 ^ (12 + 9 * 2)) with (4096 * (512 * 512)). change (2 ^ (12 + 9 * 1)) with (4096 * 512).
  change (2 ^ (12 + 9 * 0)) with 4096.
  rewrite <-!Z.div_div by lia. set (x := va / 4096). set (y := va' / 4096).
  assert (0 ≤ x < 2 ^ 26) by (unfold x; Z.to_euclidean_division_equations; lia).
  assert (0 ≤ y < 2 ^ 26) by (unfold y; Z.to_euclidean_division_equations; lia).
  clearbody x y. Z.to_euclidean_division_equations. lia.
Qed.

Lemma PX_page level va va' :
  0 ≤ level → va / PGSIZE = va' / PGSIZE → PX level va = PX level va'.
Proof.
  intros Hl E. rewrite !PX_eq by done.
  replace (2 ^ (12 + 9 * level)) with (PGSIZE * 2 ^ (9 * level)).
  - rewrite <-!Z.div_div by (unfold PGSIZE; lia). by rewrite E.
  - unfold PGSIZE. change 4096 with (2 ^ 12). by rewrite <-Z.pow_add_r by lia.
Qed.

Lemma ptw_page m root va va' : va / PGSIZE = va' / PGSIZE → ptw m root va = ptw m root va'.
Proof. intros E. unfold ptw. by rewrite !(PX_page _ va va') by (done || lia). Qed.

Lemma tpath_nil : tpath [].
Proof. split; [cbn; lia|constructor]. Qed.
Lemma tpath_1 va : tpath [PX 2 va].
Proof. split; [cbn; lia|]. repeat constructor; apply PX_range; lia. Qed.
Lemma tpath_2 va : tpath [PX 2 va; PX 1 va].
Proof. split; [cbn; lia|]. repeat constructor; apply PX_range; lia. Qed.
#[export] Hint Resolve tpath_nil tpath_1 tpath_2 : core.

Lemma tpath_app p i : tpath (p ++ [i]) ↔ (length p ≤ 1)%nat ∧ Forall (λ i, 0 ≤ i < 512) p ∧ 0 ≤ i < 512.
Proof.
  unfold tpath. rewrite length_app, Forall_app, Forall_singleton. cbn. split; intros; split_and!; try apply H; try lia; naive_solver lia.
Qed.

Lemma tpath_prefix p i : tpath (p ++ [i]) → tpath p.
Proof. rewrite tpath_app. intros (? & ? & ?). split; [lia|done]. Qed.

(** ** Walking *)

Lemma node_snoc m pt p i :
  node m pt (p ++ [i]) = match node m pt p with Some a => child m a i | None => None end.
Proof.
  revert pt. induction p as [|j p IH]; intros pt; cbn.
  - by destruct (child m pt i).
  - destruct (child m pt j); [apply IH|done].
Qed.

Lemma pte_at_in a i : 0 ≤ i < 512 → a ≤ pte_at a i ∧ pte_at a i + 8 ≤ a + PGSIZE.
Proof. unfold pte_at, PGSIZE. lia. Qed.

Lemma child_ext m m' a i :
  0 ≤ i < 512 → (∀ x, a ≤ x < a + PGSIZE → m' x = m x) → child m' a i = child m a i.
Proof.
  intros Hi Hx. unfold child, ld64. pose proof (pte_at_in a i Hi).
  rewrite (ld_ext 8 m' m); [done|]. intros x ?. apply Hx. lia.
Qed.

Lemma node_frame m m' root path :
  (∀ a x, in_pt m root a → a ≤ x < a + PGSIZE → m' x = m x) →
  tpath path → node m' root path = node m root path.
Proof.
  intros Hm. induction path as [|i p IH] using rev_ind; intros Ht; [done|].
  rewrite !node_snoc. pose proof (tpath_prefix _ _ Ht) as Hp. rewrite IH by done.
  destruct (node m root p) as [a|] eqn:E; [|done].
  apply child_ext; [apply tpath_app in Ht; naive_solver|]. intros x. apply Hm. by exists p.
Qed.

Lemma in_pt_frame m m' root a :
  (∀ a x, in_pt m root a → a ≤ x < a + PGSIZE → m' x = m x) → in_pt m' root a → in_pt m root a.
Proof. intros Hm (p & Ht & E). exists p. split; [done|]. by rewrite <-(node_frame m m'). Qed.

Lemma ptw_frame m m' root va :
  (∀ a x, in_pt m root a → a ≤ x < a + PGSIZE → m' x = m x) → ptw m' root va = ptw m root va.
Proof.
  intros Hm. unfold ptw. rewrite (node_frame m m') by auto.
  destruct (node m root _) as [q|] eqn:E; [|done].
  pose proof (pte_at_in q (PX 0 va) (PX_range 0 va ltac:(lia))).
  apply ld_ext. intros x ?. apply (Hm q); [by exists [PX 2 va; PX 1 va]|lia].
Qed.

Lemma pt_wf_nodes `{Layout} m m' root :
  (∀ path, tpath path → node m' root path = node m root path) → pt_wf m root → pt_wf m' root.
Proof.
  intros Hn [H1 H2]. split.
  - intros path a Ht. rewrite Hn by done. by apply H1.
  - intros p1 p2 a Ht1 Ht2. rewrite !Hn by done. by apply H2.
Qed.

(** ** Stores into the table *)

Section Stores.
Context `{LayoutOk}.
Implicit Types (m : bytes).

(** A store into entry [i] of the page at [p] leaves alone every page that is
    not reached through that entry. *)
Lemma node_store m root p a i v path :
  pt_wf m root → tpath p → node m root p = Some a → 0 ≤ i < 512 →
  tpath path → ¬ (p ++ [i]) `prefix_of` path →
  node (st64 m (pte_at a i) v) root path = node m root path.
Proof.
  intros [Hok Hinj] Htp Ea Hi. induction path as [|j q IH] using rev_ind; intros Ht Hpre; [done|].
  rewrite !node_snoc. pose proof (tpath_prefix _ _ Ht) as Hq.
  rewrite IH; [|done|intros Hx; apply Hpre; by apply prefix_app_r].
  destruct (node m root q) as [b|] eqn:Eb; [|done].
  assert (0 ≤ j < 512) as Hj by (apply tpath_app in Ht; naive_solver).
  unfold child, ld64, st64. rewrite ld_st_ne; [done|lia|].
  destruct (decide (a = b)) as [->|Hne].
  - assert (q = p) as -> by (by eapply Hinj). unfold pte_at.
    assert (i ≠ j) by (intros ->; by apply Hpre). lia.
  - destruct (Hok _ _ Htp Ea) as [Ma _], (Hok _ _ Hq Eb) as [Mb _].
    pose proof (pte_at_in a i Hi). pose proof (pte_at_in b j Hj).
    destruct (pages_apart a b); try done; lia.
Qed.

Lemma leaf_not_prefix p i path : length p = 2%nat → tpath path → ¬ (p ++ [i]) `prefix_of` path.
Proof. intros Hp [Hl _] Hpre%prefix_length. rewrite length_app in Hpre. cbn in *. lia. Qed.

(** A store into a leaf entry keeps the table, and changes the translation of
    exactly that page. *)
Lemma leaf_store_nodes m root p a i v path :
  pt_wf m root → tpath p → length p = 2%nat → node m root p = Some a → 0 ≤ i < 512 →
  tpath path → node (st64 m (pte_at a i) v) root path = node m root path.
Proof. intros. apply (node_store m root p); auto using leaf_not_prefix. Qed.

Lemma ptw_leaf_store m root va q v va' :
  pt_wf m root → node m root [PX 2 va; PX 1 va] = Some q →
  0 ≤ va < MAXVA → 0 ≤ va' < MAXVA → 0 ≤ v < 2 ^ 64 →
  ptw (st64 m (pte_at q (PX 0 va)) v) root va' =
    if decide (va' / PGSIZE = va / PGSIZE) then v else ptw m root va'.
Proof.
  intros Hwf Eq Hva Hva' Hv.
  pose proof (PX_range 0 va ltac:(lia)) as Hi. pose proof (PX_range 0 va' ltac:(lia)) as Hi'.
  unfold ptw. rewrite (leaf_store_nodes m root [PX 2 va; PX 1 va]) by auto.
  case_decide as Hd.
  - rewrite !(PX_page _ va' va) by (done || lia). rewrite Eq. unfold ld64, st64.
    rewrite ld_st_eq by lia. apply Z.mod_small. lia.
  - destruct (node m root [PX 2 va'; PX 1 va']) as [q'|] eqn:Eq'; [|done].
    unfold ld64, st64. apply ld_st_ne; [lia|]. destruct Hwf as [Hok Hinj].
    destruct (decide (q = q')) as [->|Hne].
    + assert (E := Hinj _ _ _ (tpath_2 va) (tpath_2 va') Eq Eq'). simplify_eq.
      unfold pte_at. destruct (decide (PX 0 va = PX 0 va')); [|lia].
      exfalso. apply Hd. symmetry. by apply PX_inj.
    + destruct (Hok _ _ (tpath_2 va) Eq) as [M1 _], (Hok _ _ (tpath_2 va') Eq') as [M2 _].
      pose proof (pte_at_in q (PX 0 va) Hi). pose proof (pte_at_in q' (PX 0 va') Hi').
      destruct (pages_apart q q'); try done; lia.
Qed.

(** Hanging a fresh zero page [b] on the invalid entry [i] of the page at [p]. *)
Lemma hang_node m root p a i b path :
  pt_wf m root → tpath (p ++ [i]) → node m root p = Some a → child m a i = None →
  page_ok b → (∀ x, b ≤ x < b + PGSIZE → m x = 0) → ¬ in_pt m root b → tpath path →
  node (st64 m (pte_at a i) (Z.lor (PA2PTE b) PTE_V)) root path =
    if decide (path = p ++ [i]) then Some b else node m root path.
Proof.
  intros Hwf Ht Ea Ec Hb Hz Hnin Hpath.
  pose proof (tpath_prefix _ _ Ht) as Hp. pose proof Ht as (_ & _ & Hi)%tpath_app.
  assert (Hb' : 0 ≤ b < 2 ^ 56).
  { pose proof (page_ok_pos _ Hb). destruct Hb as [_ Hr]. unfold PHYSTOP, KERNBASE in *. lia. }
  set (m' := st64 _ _ _).
  assert (Ec' : child m' a i = Some b).
  { unfold child, m', ld64, st64. rewrite ld_st_eq by lia.
    rewrite Z.mod_small by (by apply entry_range). rewrite entry_valid.
    by rewrite PTE2PA_entry by (apply Hb || done). }
  assert (Epi : node m' root (p ++ [i]) = Some b).
  { rewrite node_snoc. unfold m'. rewrite (node_store m root p) by (done || apply prefix_snoc_not).
    by rewrite Ea. }
  destruct (decide (path = p ++ [i])) as [->|Hne]; [done|].
  destruct (decide ((p ++ [i]) `prefix_of` path)) as [[r ->]|Hpre].
  2:{ by apply (node_store m root p). }
  assert (∃ k, r = [k] ∧ p = []) as (k & -> & ->).
  { destruct Hpath as [Hl _]. rewrite !length_app in Hl. cbn in Hl.
    destruct r as [|k r]; [by rewrite app_nil_r in Hne|]. exists k.
    destruct p; cbn in Hl; [|lia]. destruct r; [done|cbn in Hl; lia]. }
  pose proof Hpath as Hk. apply tpath_app in Hk as (_ & _ & Hk).
  rewrite app_nil_l, !(node_snoc _ _ [i] k) in *. cbn [app] in Epi. rewrite Epi.
  cbn in Ea. simplify_eq. cbn. rewrite Ec.
  assert (a ≠ b) by (intros ->; apply Hnin; by exists []).
  unfold child, m', ld64, st64. rewrite ld_st_ne, ld_zero; [done| |lia|].
  - intros x Hx. apply Hz. pose proof (pte_at_in b k Hk). lia.
  - pose proof (pte_at_in a i Hi). pose proof (pte_at_in b k Hk).
    destruct Hwf as [Hok _]. destruct (Hok [] a) as [Ma _]; [done..|].
    destruct Hb as [Mb _]. destruct (pages_apart a b); try done; lia.
Qed.

Lemma hang_wf m root p a i b :
  pt_wf m root → tpath (p ++ [i]) → node m root p = Some a → child m a i = None →
  page_ok b → (∀ x, b ≤ x < b + PGSIZE → m x = 0) → ¬ in_pt m root b →
  let m' := st64 m (pte_at a i) (Z.lor (PA2PTE b) PTE_V) in
  pt_wf m' root ∧ (∀ c, in_pt m' root c → c = b ∨ in_pt m root c).
Proof.
  intros Hwf Ht Ea Ec Hb Hz Hnin m'.
  assert (Hn : ∀ path, tpath path → node m' root path =
    if decide (path = p ++ [i]) then Some b else node m root path) by (intros; by apply hang_node).
  pose proof Hwf as [Hok Hinj]. split; [split|].
  - intros path c Hp. rewrite Hn by done. case_decide; [naive_solver|by apply Hok].
  - intros p1 p2 c Hp1 Hp2. rewrite !Hn by done. do 2 case_decide; intros; simplify_eq; try done.
    + exfalso. apply Hnin. by exists p2.
    + exfalso. apply Hnin. by exists p1.
    + by eapply Hinj.
  - intros c (path & Hp & E). rewrite Hn in E by done. case_decide; [naive_solver|].
    right. by exists path.
Qed.

Lemma hang_ptw m root p a i b va :
  pt_wf m root → tpath (p ++ [i]) → node m root p = Some a → child m a i = None →
  page_ok b → (∀ x, b ≤ x < b + PGSIZE → m x = 0) → ¬ in_pt m root b →
  ptw (st64 m (pte_at a i) (Z.lor (PA2PTE b) PTE_V)) root va = ptw m root va.
Proof.
  intros Hwf Ht Ea Ec Hb Hz Hnin. unfold ptw.
  rewrite (hang_node m root p a i b) by auto.
  pose proof (tpath_prefix _ _ Ht) as Htp. pose proof Ht as (_ & _ & Hi)%tpath_app.
  pose proof (pte_at_in a i Hi). pose proof Hwf as [Hok Hinj].
  pose proof (PX_range 0 va ltac:(lia)) as Hk.
  case_decide as Hd.
  - rewrite Hd, node_snoc, Ea, Ec. pose proof (pte_at_in b (PX 0 va) Hk).
    assert (a ≠ b) by (intros ->; apply Hnin; by exists p).
    unfold ld64, st64. rewrite ld_st_ne; [|lia|].
    + apply ld_zero. intros x Hx. apply Hz. lia.
    + destruct (Hok _ _ Htp Ea) as [Ma _]. destruct Hb as [Mb _].
      destruct (pages_apart a b); try done; lia.
  - destruct (node m root [PX 2 va; PX 1 va]) as [q|] eqn:Eq; [|done].
    pose proof (pte_at_in q (PX 0 va) Hk).
    unfold ld64, st64. apply ld_st_ne; [lia|].
    assert (a ≠ q).
    { intros ->. assert (E := Hinj _ _ _ Htp (tpath_2 va) Ea Eq). subst p.
      apply tpath_app in Ht. cbn in Ht. lia. }
    destruct (Hok _ _ Htp Ea) as [Ma _], (Hok _ _ (tpath_2 va) Eq) as [Mq _].
    destruct (pages_apart a q); try done; lia.
Qed.

End Stores.
