(* ===== verification/Vm.v ===== *)
(** * vm.c: page tables

    The Sv39 page tables of the kernel and of the processes, in physical memory.
    [ptw] is the translation the hardware does; the theorems say what each
    operation does to it.  A kernel object that copyin and copyout read or write
    is the array of its bytes, given and returned. *)

From S2P Require Import Prelude Types StringC Spinlock Kalloc PageTable.

Definition ld64_k (a : Z) : K Z := gets (λ w, ld64 (w_mem w) a).
Definition st64_k (a v : Z) : K unit := modify (λ w, set_mem (st64 (w_mem w) a v) w).

Definition w_satp (x : Z) : K unit := upd_hart (set_h_satp x).

Section Vm.
Context {L : Layout}.

(** The levels 2 and 1 of walk; [None] is the [return 0] inside the loop. *)
Fixpoint walk_levels (levels : list Z) (pagetable va : Z) (alloc : bool) : K (option Z) :=
  match levels with
  | [] => ret (Some pagetable)
  | level :: rest =>
      let pte := pte_at pagetable (PX level va) in
      v <- ld64_k pte ;;
      if nz (Z.land v PTE_V) then walk_levels rest (PTE2PA v) va alloc else
      if negb alloc then ret None else
      pagetable' <- kalloc ;;
      if pagetable' =? 0 then ret None else
      memset_k pagetable' 0 PGSIZE ;;
      st64_k pte (Z.lor (PA2PTE pagetable') PTE_V) ;;
      walk_levels rest pagetable' va alloc
  end.

Definition walk (pagetable va : Z) (alloc : bool) : K Z :=
  if MAXVA <=? va then panic "walk" else
  r <- walk_levels [2; 1] pagetable va alloc ;;
  match r with
  | None => ret 0
  | Some pt => ret (pte_at pt (PX 0 va))
  end.

Definition walkaddr (pagetable va : Z) : K Z :=
  if MAXVA <=? va then ret 0 else
  pte <- walk pagetable va false ;;
  if pte =? 0 then ret 0 else
  v <- ld64_k pte ;;
  if Z.land v PTE_V =? 0 then ret 0 else
  if Z.land v PTE_U =? 0 then ret 0 else
  ret (PTE2PA v).

(** The [for (;;)] of mappages. *)
Fixpoint mappages_loop (fuel : nat) (pagetable a last pa perm : Z) : K Z :=
  match fuel with
  | O => λ _ _, NoFuel
  | S n =>
      pte <- walk pagetable a true ;;
      if pte =? 0 then ret (-1) else
      v <- ld64_k pte ;;
      if nz (Z.land v PTE_V) then panic "remap" else
      st64_k pte (Z.lor (Z.lor (PA2PTE pa) perm) PTE_V) ;;
      if a =? last then ret 0 else
      mappages_loop n pagetable (u64 (a + PGSIZE)) last (u64 (pa + PGSIZE)) perm
  end.

Definition mappages (pagetable va size pa perm : Z) : K Z :=
  let a := PGROUNDDOWN va in
  let last := PGROUNDDOWN (u64 (va + size - 1)) in
  mappages_loop (S (Z.to_nat (u64 (last - a) / PGSIZE))) pagetable a last pa perm.

Definition kvmmap (va pa sz perm : Z) : K unit :=
  kpt <- gets w_kpgtbl ;;
  r <- mappages kpt va sz pa perm ;;
  if negb (r =? 0) then panic "kvmmap" else ret tt.

Definition kvminit : K unit :=
  pt <- kalloc ;;
  modify (λ w, set_kpgtbl pt w) ;;
  memset_k pt 0 PGSIZE ;;
  kvmmap UART0 UART0 PGSIZE (Z.lor PTE_R PTE_W) ;;
  kvmmap VIRTIO0 VIRTIO0 PGSIZE (Z.lor PTE_R PTE_W) ;;
  kvmmap CLINT CLINT 0x10000 (Z.lor PTE_R PTE_W) ;;
  kvmmap PLIC PLIC 0x400000 (Z.lor PTE_R PTE_W) ;;
  kvmmap KERNBASE KERNBASE (etext - KERNBASE) (Z.lor PTE_R PTE_X) ;;
  kvmmap etext etext (PHYSTOP - etext) (Z.lor PTE_R PTE_W) ;;
  kvmmap TRAMPOLINE trampoline PGSIZE (Z.lor PTE_R PTE_X).

(** sfence_vma flushes the TLB, which is not part of the model. *)
Definition kvminithart : K unit :=
  kpt <- gets w_kpgtbl ;;
  w_satp (MAKE_SATP kpt).

Definition kvmpa (va : Z) : K Z :=
  let off := va `mod` PGSIZE in
  kpt <- gets w_kpgtbl ;;
  pte <- walk kpt va false ;;
  if pte =? 0 then panic "kvmpa" else
  v <- ld64_k pte ;;
  if Z.land v PTE_V =? 0 then panic "kvmpa" else
  ret (u64 (PTE2PA v + off)).

Fixpoint uvmunmap_loop (fuel : nat) (pagetable a stop : Z) (do_free : bool) : K unit :=
  match fuel with
  | O => λ _ _, NoFuel
  | S n =>
      if negb (a <? stop) then ret tt else
      pte <- walk pagetable a false ;;
      if pte =? 0 then panic "uvmunmap: walk" else
      v <- ld64_k pte ;;
      if Z.land v PTE_V =? 0 then panic "uvmunmap: not mapped" else
      if PTE_FLAGS v =? PTE_V then panic "uvmunmap: not a leaf" else
      when do_free (kfree (PTE2PA v)) ;;
      st64_k pte 0 ;;
      uvmunmap_loop n pagetable (u64 (a + PGSIZE)) stop do_free
  end.

Definition uvmunmap (pagetable va npages : Z) (do_free : bool) : K unit :=
  if negb (va `mod` PGSIZE =? 0) then panic "uvmunmap: not aligned" else
  let stop := u64 (va + npages * PGSIZE) in
  uvmunmap_loop (S (Z.to_nat (stop / PGSIZE))) pagetable va stop do_free.

Definition uvmcreate : K Z :=
  pagetable <- kalloc ;;
  if pagetable =? 0 then ret 0 else
  memset_k pagetable 0 PGSIZE ;;
  ret pagetable.

(** [src] is the kernel array with the initial program. *)
Definition uvminit (pagetable : Z) (src : bytes) (sz : Z) : K unit :=
  if PGSIZE <=? sz then panic "inituvm: more than a page" else
  mem <- kalloc ;;
  memset_k mem 0 PGSIZE ;;
  mappages pagetable 0 PGSIZE mem (Z.lor (Z.lor (Z.lor PTE_W PTE_R) PTE_X) PTE_U) ;;
  modify (λ w, set_mem (mem_copy (w_mem w) mem src 0 sz) w).

Definition uvmdealloc (pagetable oldsz newsz : Z) : K Z :=
  if oldsz <=? newsz then ret oldsz else
  when (PGROUNDUP newsz <? PGROUNDUP oldsz)
    (let npages := i32 ((PGROUNDUP oldsz - PGROUNDUP newsz) / PGSIZE) in
     uvmunmap pagetable (PGROUNDUP newsz) (u64 npages) true) ;;
  ret newsz.

(** The for loop of uvmalloc; [oldsz] is rounded up. *)
Fixpoint uvmalloc_loop (fuel : nat) (pagetable a oldsz newsz : Z) : K Z :=
  match fuel with
  | O => λ _ _, NoFuel
  | S n =>
      if negb (a <? newsz) then ret newsz else
      mem <- kalloc ;;
      if mem =? 0 then uvmdealloc pagetable a oldsz ;; ret 0 else
      memset_k mem 0 PGSIZE ;;
      r <- mappages pagetable a PGSIZE mem (Z.lor (Z.lor (Z.lor PTE_W PTE_X) PTE_R) PTE_U) ;;
      if negb (r =? 0) then kfree mem ;; uvmdealloc pagetable a oldsz ;; ret 0 else
      uvmalloc_loop n pagetable (u64 (a + PGSIZE)) oldsz newsz
  end.

Definition uvmalloc (pagetable oldsz newsz : Z) : K Z :=
  if newsz <? oldsz then ret oldsz else
  let oldsz := PGROUNDUP oldsz in
  uvmalloc_loop (S (Z.to_nat (newsz / PGSIZE + 1))) pagetable oldsz oldsz newsz.

(** freewalk; [depth] bounds the recursion, 3 for a page table. *)
Fixpoint freewalk (depth : nat) (pagetable : Z) : K unit :=
  match depth with
  | O => λ _ _, NoFuel
  | S d =>
      for_each (seqZ 0 512) (λ i,
        pte <- ld64_k (pte_at pagetable i) ;;
        if nz (Z.land pte PTE_V) && (Z.land pte (Z.lor (Z.lor PTE_R PTE_W) PTE_X) =? 0) then
          freewalk d (PTE2PA pte) ;;
          st64_k (pte_at pagetable i) 0
        else if nz (Z.land pte PTE_V) then panic "freewalk: leaf"
        else ret tt) ;;
      kfree pagetable
  end.

Definition uvmfree (pagetable sz : Z) : K unit :=
  when (0 <? sz) (uvmunmap pagetable 0 (PGROUNDUP sz / PGSIZE) true) ;;
  freewalk 3 pagetable.

(** The loop of uvmcopy; [inr i] is the jump to err with that [i]. *)
Fixpoint uvmcopy_loop (fuel : nat) (old new i sz : Z) : K (unit + Z) :=
  match fuel with
  | O => λ _ _, NoFuel
  | S n =>
      if negb (i <? sz) then ret (inl tt) else
      pte <- walk old i false ;;
      if pte =? 0 then panic "uvmcopy: pte should exist" else
      v <- ld64_k pte ;;
      if Z.land v PTE_V =? 0 then panic "uvmcopy: page not present" else
      let pa := PTE2PA v in
      let flags := PTE_FLAGS v in
      mem <- kalloc ;;
      if mem =? 0 then ret (inr i) else
      modify (λ w, set_mem (mem_copy (w_mem w) mem (w_mem w) pa PGSIZE) w) ;;
      r <- mappages new i PGSIZE mem flags ;;
      if negb (r =? 0) then kfree mem ;; ret (inr i) else
      uvmcopy_loop n old new (u64 (i + PGSIZE)) sz
  end.

Definition uvmcopy (old new sz : Z) : K Z :=
  r <- uvmcopy_loop (S (Z.to_nat (sz / PGSIZE + 1))) old new 0 sz ;;
  match r with
  | inl _ => ret 0
  | inr i => uvmunmap new 0 (i / PGSIZE) true ;; ret (-1)
  end.

Definition uvmclear (pagetable va : Z) : K unit :=
  pte <- walk pagetable va false ;;
  if pte =? 0 then panic "uvmclear" else
  v <- ld64_k pte ;;
  st64_k pte (Z.land v (Z.lnot PTE_U)).

(** The while loop of copyout; [src] at offset [s]. *)
Fixpoint copyout_loop (fuel : nat) (pagetable dstva : Z) (src : bytes) (s len : Z) : K Z :=
  match fuel with
  | O => λ _ _, NoFuel
  | S k =>
      if negb (0 <? len) then ret 0 else
      let va0 := PGROUNDDOWN dstva in
      pa0 <- walkaddr pagetable va0 ;;
      if pa0 =? 0 then ret (-1) else
      let n := PGSIZE - (dstva - va0) in
      let n := if n >? len then len else n in
      modify (λ w, set_mem (mem_copy (w_mem w) (pa0 + (dstva - va0)) src s n) w) ;;
      copyout_loop k pagetable (u64 (va0 + PGSIZE)) src (s + n) (len - n)
  end.

Definition copyout (pagetable dstva : Z) (src : bytes) (len : Z) : K Z :=
  copyout_loop (S (Z.to_nat len)) pagetable dstva src 0 len.

(** The while loop of copyin: the result and the bytes of dst. *)
Fixpoint copyin_loop (fuel : nat) (pagetable : Z) (dst : bytes) (d srcva len : Z) : K (Z * bytes) :=
  match fuel with
  | O => λ _ _, NoFuel
  | S k =>
      if negb (0 <? len) then ret (0, dst) else
      let va0 := PGROUNDDOWN srcva in
      pa0 <- walkaddr pagetable va0 ;;
      if pa0 =? 0 then ret (-1, dst) else
      let n := PGSIZE - (srcva - va0) in
      let n := if n >? len then len else n in
      m <- gets w_mem ;;
      let dst := mem_copy dst d m (pa0 + (srcva - va0)) n in
      copyin_loop k pagetable dst (d + n) (u64 (va0 + PGSIZE)) (len - n)
  end.

Definition copyin (pagetable : Z) (dst : bytes) (srcva len : Z) : K (Z * bytes) :=
  copyin_loop (S (Z.to_nat len)) pagetable dst 0 srcva len.

(** [while (n > 0) ...] inside copyinstr: got_null, max, dst and its bytes. *)
Fixpoint copyinstr_page (n : nat) (m : bytes) (p : Z) (dst : bytes) (d max : Z)
    : bool * (Z * Z * bytes) :=
  match n with
  | O => (false, (max, d, dst))
  | S n' =>
      if m p =? 0 then (true, (max, d, <[d := 0]> dst))
      else copyinstr_page n' m (p + 1) (<[d := m p]> dst) (d + 1) (max - 1)
  end.

Fixpoint copyinstr_loop (fuel : nat) (pagetable : Z) (dst : bytes) (d srcva max : Z) : K (Z * bytes) :=
  match fuel with
  | O => λ _ _, NoFuel
  | S k =>
      if negb (0 <? max) then ret (-1, dst) else
      let va0 := PGROUNDDOWN srcva in
      pa0 <- walkaddr pagetable va0 ;;
      if pa0 =? 0 then ret (-1, dst) else
      let n := PGSIZE - (srcva - va0) in
      let n := if n >? max then max else n in
      m <- gets w_mem ;;
      let '(got_null, (max', d', dst')) :=
        copyinstr_page (Z.to_nat n) m (pa0 + (srcva - va0)) dst d max in
      if (got_null : bool) then ret (0, dst')
      else copyinstr_loop k pagetable dst' d' (u64 (va0 + PGSIZE)) max'
  end.

Definition copyinstr (pagetable : Z) (dst : bytes) (srcva max : Z) : K (Z * bytes) :=
  copyinstr_loop (S (Z.to_nat max)) pagetable dst 0 srcva max.

End Vm.

(** ** Walking *)

(** The allocator and one page table: the pages of the table are not free. *)
Definition vm_inv `{Layout} (w : world) (root : Z) (free : list Z) : Prop :=
  kmem_inv w free ∧ pt_wf (w_mem w) root ∧ (∀ a, in_pt (w_mem w) root a → a ∉ free)
  ∧ cpu_ok w ∧ lk_free w LKmem.

(** Only memory and the free list change. *)
Definition mem_only (w w' : world) : Prop :=
  w' ≈ set_mem (w_mem w') (set_freelist (w_freelist w') w).

(** [w'] follows [w] by taking pages off the free list and storing into them
    and into the page table at [root]; everything else stays. *)
Definition grows `{Layout} (root : Z) (w : world) (free : list Z) (w' : world) (free' : list Z) : Prop :=
  vm_inv w' root free' ∧ mem_only w w' ∧ free' `suffix_of` free ∧
  (∀ a, in_pt (w_mem w') root a ↔ in_pt (w_mem w) root a ∨ a ∈ free ∧ a ∉ free') ∧
  (∀ x, (∀ a, in_pt (w_mem w) root a ∨ a ∈ free → ¬ (a ≤ x < a + PGSIZE)) → w_mem w' x = w_mem w x).

Lemma mem_only_refl w : mem_only w w.
Proof. unfold mem_only, weq. reflexivity. Qed.

Lemma mem_only_settle w m f : mem_only w (set_mem m (set_freelist f (settle w))).
Proof.
  exact (weq_map (λ v, set_mem m (set_freelist f v)) _ _ (settle_weq w) (λ _, eq_refl)).
Qed.

Lemma mem_only_trans w1 w2 w3 : mem_only w1 w2 → mem_only w2 w3 → mem_only w1 w3.
Proof.
  unfold mem_only. intros H12 H23. etransitivity; [exact H23|].
  etransitivity; [exact (weq_map (λ v, set_mem (w_mem w3) (set_freelist (w_freelist w3) v)) _ _ H12
    (λ _, eq_refl))|reflexivity].
Qed.

Lemma mem_only_lk w w' l : mem_only w w' → lk_free w l → lk_free w' l.
Proof. unfold mem_only, lk_free. intros H. weq_read H w_lk. by rewrite E. Qed.

Lemma mem_only_cpu_ok w w' : mem_only w w' → cpu_ok w → cpu_ok w'.
Proof. unfold mem_only. intros H Hok. by apply (weq_cpu_ok _ _ H). Qed.

(** The translation of [m] is that of [m0] with [n] pages mapped at [a]. *)
Definition maps (m0 m : bytes) (root a n pa perm : Z) : Prop :=
  ∀ va, 0 ≤ va < MAXVA →
    ptw m root va =
      if decide (a ≤ va < a + n * PGSIZE)
      then Z.lor (Z.lor (PA2PTE (pa + (va / PGSIZE * PGSIZE - a))) perm) PTE_V
      else ptw m0 root va.

Section Walk.
Context `{LayoutOk}.

Lemma grows_refl root w free : vm_inv w root free → grows root w free w free.
Proof. intros Hi. split_and!; [done|apply mem_only_refl|done|naive_solver|done]. Qed.

Lemma grows_trans root w1 f1 w2 f2 w3 f3 :
  grows root w1 f1 w2 f2 → grows root w2 f2 w3 f3 → grows root w1 f1 w3 f3.
Proof.
  intros (I1 & M1 & S1 & P1 & O1) (I2 & M2 & S2 & P2 & O2).
  assert (Hsub : ∀ a, a ∈ f2 → a ∈ f1) by (intros a Ha; destruct S1 as [u ->]; set_solver).
  assert (Hsub2 : ∀ a, a ∈ f3 → a ∈ f2) by (intros a Ha; destruct S2 as [u ->]; set_solver).
  split_and!; [done|by eapply mem_only_trans|by etrans| |].
  - intros a. rewrite P2, P1. destruct (decide (a ∈ f2)); naive_solver.
  - intros x Hx. rewrite O2, O1; [done|done|]. intros a [Ha|Ha]; [|auto].
    apply P1 in Ha. apply Hx. naive_solver.
Qed.

Lemma walk_levels_noalloc levels pt va env w :
  walk_levels levels pt va false env w =
    Ret (node (w_mem w) pt ((λ l, PX l va) <$> levels)) env w.
Proof.
  revert pt. induction levels as [|l levels IH]; intros pt; [done|].
  cbn [walk_levels fmap list_fmap node]. unfold ld64_k. msteps. unfold child, pte_valid.
  case_match; [apply IH|reflexivity].
Qed.

Lemma walk_noalloc root va env w :
  va < MAXVA →
  walk root va false env w =
    Ret (match node (w_mem w) root [PX 2 va; PX 1 va] with
         | Some q => pte_at q (PX 0 va) | None => 0 end) env w.
Proof.
  intros Hva. unfold walk. rewrite (proj2 (Z.leb_gt _ _)) by done.
  mcall walk_levels_noalloc. cbn [fmap list_fmap]. case_match; reflexivity.
Qed.

(** One missing level: a fresh zeroed page is hung on the entry. *)
Lemma new_level root p a i b free w :
  vm_inv w root (b :: free) → tpath (p ++ [i]) → node (w_mem w) root p = Some a →
  child (w_mem w) a i = None →
  let m1 := mem_fill (mem_fill (w_mem w) b PGSIZE 5) b PGSIZE 0 in
  let m2 := st64 m1 (pte_at a i) (Z.lor (PA2PTE b) PTE_V) in
  let w' := set_mem m2 (set_freelist (ld64 (w_mem w) b) (settle w)) in
  grows root w (b :: free) w' free ∧ node m2 root (p ++ [i]) = Some b
  ∧ (∀ va, ptw m2 root va = ptw (w_mem w) root va).
Proof.
  intros (Hk & Hwf & Hdis & Hok & Hlk) Ht Ea Ec m1 m2 w'.
  destruct (alloc_inv _ _ _ Hk) as (Ehead & Hpb & Hbf & Hk').
  assert (Hnin : ¬ in_pt (w_mem w) root b) by (intros Hx%Hdis; set_solver).
  pose proof (tpath_prefix _ _ Ht) as Htp. pose proof Ht as (_ & _ & Hi)%tpath_app.
  pose proof (proj1 Hwf _ _ Htp Ea) as Hpa.
  assert (Ha_in : in_pt (w_mem w) root a) by (by exists p).
  (* page b apart from the pages of the table *)
  assert (Hm1 : ∀ c x, in_pt (w_mem w) root c → c ≤ x < c + PGSIZE → m1 x = w_mem w x).
  { intros c x Hc Hx. pose proof Hc as (pc & Htc & Ec').
    destruct (proj1 Hwf _ _ Htc Ec') as [Mc _], Hpb as [Mb _].
    assert (c ≠ b) by (intros ->; done). unfold m1.
    destruct (pages_apart c b); try done; rewrite !mem_fill_out by lia; done. }
  assert (Hn1 : ∀ path, tpath path → node m1 root path = node (w_mem w) root path)
    by (intros; by apply node_frame).
  assert (Hwf1 : pt_wf m1 root) by (by eapply pt_wf_nodes).
  assert (Ea1 : node m1 root p = Some a) by (by rewrite Hn1).
  assert (Ec1 : child m1 a i = None).
  { rewrite <-Ec. apply child_ext; [done|]. intros x. by apply Hm1. }
  assert (Hz : ∀ x, b ≤ x < b + PGSIZE → m1 x = 0).
  { intros x Hx. unfold m1. by rewrite mem_fill_in. }
  assert (Hnin1 : ¬ in_pt m1 root b) by (intros Hx; by apply (in_pt_frame (w_mem w) m1) in Hx).
  destruct (hang_wf m1 root p a i b Hwf1 Ht Ea1 Ec1 Hpb Hz Hnin1) as [Hwf2 Hin2].
  assert (Hin : ∀ c, in_pt m2 root c → c = b ∨ in_pt (w_mem w) root c).
  { intros c [->|Hc]%Hin2; [by left|right]. by apply (in_pt_frame (w_mem w) m1). }
  pose proof (pte_at_in a i Hi) as Hpte.
  assert (Hout : ∀ x, ¬ (a ≤ x < a + PGSIZE) → ¬ (b ≤ x < b + PGSIZE) → m2 x = w_mem w x).
  { intros x Hx Hxb. unfold m2, st64. rewrite st_out by lia. unfold m1. by rewrite !mem_fill_out. }
  split_and!.
  - split_and!; [|apply mem_only_settle|by exists [b]| |].
    + split_and!; [|done| |by apply (settle_cpu_ok w)|done].
      * destruct Hk' as (Hfl & Hpf & Hnd). split_and!; [|done|done]. unfold w'; rsimpl.
        revert Hfl. apply flist_ext. intros c x Hc Hx.
        rewrite Forall_forall in Hpf. destruct (Hpf c Hc) as [Mc _].
        assert (c ≠ b) by (intros ->; done).
        assert (c ≠ a) by (intros ->; apply (Hdis a Ha_in); set_solver).
        destruct Hpa as [Ma _], Hpb as [Mb _]. unfold m2, st64. rsimpl.
        destruct (pages_apart c b) as [|]; try done; destruct (pages_apart c a); try done;
          rewrite st_out by (unfold PGSIZE in *; lia); unfold m1; unfold PGSIZE in *;
          rewrite !mem_fill_out by lia; done.
      * intros c [->|Hc]%Hin; [done|]. intros Hcf. apply (Hdis c Hc). set_solver.
    + intros c. unfold w'. rsimpl. split.
      * intros [->|Hc]%Hin; [right; set_solver|by left].
      * intros [(path & Htc & Epc)|[Hc Hcf]].
        -- exists path. split; [done|]. unfold m2. rewrite (hang_node m1 root p a i b) by done.
           rewrite decide_False, Hn1 by (done || intros ->; rewrite node_snoc, Ea, Ec in Epc; done). done.
        -- assert (c = b) as -> by set_solver. exists (p ++ [i]). split; [done|].
           unfold m2. rewrite (hang_node m1 root p a i b) by done. by rewrite decide_True.
    + intros x Hx. apply Hout; apply Hx; [by left|right; set_solver].
  - unfold m2. rewrite (hang_node m1 root p a i b) by done. by rewrite decide_True.
  - intros va. unfold m2. rewrite (hang_ptw m1 root p a i b) by done. by apply ptw_frame.
Qed.

Lemma walk_levels_alloc levels p a va env w root free :
  vm_inv w root free → node (w_mem w) root p = Some a →
  tpath (p ++ ((λ l, PX l va) <$> levels)) →
  wp (walk_levels levels a va true) env w (λ r e w', e = env ∧ ∃ free',
    grows root w free w' free'
    ∧ (∀ va', ptw (w_mem w') root va' = ptw (w_mem w) root va')
    ∧ match r with
      | None => free' = []
      | Some q => node (w_mem w') root (p ++ ((λ l, PX l va) <$> levels)) = Some q
      end).
Proof.
  revert p a w free. induction levels as [|l levels IH]; intros p a w free Hi Ea Ht.
  { cbn. rewrite app_nil_r. split; [done|]. exists free. by auto using grows_refl. }
  replace (p ++ ((λ l, PX l va) <$> l :: levels))
    with ((p ++ [PX l va]) ++ ((λ l, PX l va) <$> levels)) in * by (by rewrite <-(assoc_L (++))).
  assert (Ht1 : tpath (p ++ [PX l va])).
  { destruct Ht as [Hl Hf]. rewrite length_app in Hl. apply Forall_app in Hf as [Hf _]. split; [lia|done]. }
  cbn [walk_levels]. unfold ld64_k. msteps.
  destruct (nz (Z.land (ld64 (w_mem w) (pte_at a (PX l va))) PTE_V)) eqn:Ev.
  { apply IH; [done| |done]. rewrite node_snoc, Ea. unfold child, pte_valid. by rewrite Ev. }
  cbn [negb]. pose proof Hi as (Hk & _ & _ & Hok & Hlk). mstep.
  assert (Ec : child (w_mem w) a (PX l va) = None) by (unfold child, pte_valid; by rewrite Ev).
  destruct free as [|b free].
  - assert (Hf0 : w_freelist w = 0) by apply Hk.
    mcall kalloc_none. change (0 =? 0) with true. cbn iota. mstep.
    split; [done|]. exists []. split_and!; [|done|done].
    split_and!; [|apply mem_only_settle|done|set_solver|done].
    destruct Hi as (? & ? & ? & ? & ?). by split_and!; auto.
  - destruct (alloc_inv _ _ _ Hk) as (Ehead & Hpb & _ & _).
    assert (Hb : w_freelist w ≠ 0) by (rewrite Ehead; pose proof (page_ok_pos _ Hpb); lia).
    mcall kalloc_some. rewrite Ehead in *. rewrite (proj2 (Z.eqb_neq _ _) Hb).
    unfold memset_k, st64_k. msteps. rsimpl.
    destruct (new_level root p a (PX l va) b free w Hi Ht1 Ea Ec) as (G1 & N1 & T1).
    eapply wp_mono; [eapply IH; [apply G1|exact N1|done]|]. rsimpl.
    intros r e w' (-> & free' & G2 & T2 & R2). split; [done|]. exists free'.
    split_and!; [by eapply grows_trans| |done]. intros va'. rewrite T2. apply T1.
Qed.

(** walk with alloc: the page of the leaf entry exists afterwards, or memory
    has run out; no translation changes. *)
Lemma walk_alloc root va env w free :
  vm_inv w root free → va < MAXVA →
  wp (walk root va true) env w (λ r e w', e = env ∧ ∃ free',
    grows root w free w' free'
    ∧ (∀ va', ptw (w_mem w') root va' = ptw (w_mem w) root va')
    ∧ (r = 0 ∧ free' = [] ∨
       ∃ q, node (w_mem w') root [PX 2 va; PX 1 va] = Some q ∧ r = pte_at q (PX 0 va) ∧ r ≠ 0)).
Proof.
  intros Hi Hva. unfold walk. rewrite (proj2 (Z.leb_gt _ _)) by done. mstep.
  eapply wp_mono; [eapply (walk_levels_alloc [2; 1] []); [done|done|apply tpath_2]|].
  intros r e w' (-> & free' & G & T & R). destruct r as [q|]; mstep; (split; [done|]); exists free'.
  - split_and!; [done..|]. right. exists q.
    split_and!; [done|done|]. destruct G as ((_ & [Hok _] & _) & _).
    pose proof (page_ok_pos _ (Hok _ _ (tpath_2 va) R)). pose proof (PX_range 0 va ltac:(lia)).
    unfold pte_at. lia.
  - split_and!; [done..|by left].
Qed.

(** A store into a leaf entry. *)
Lemma leaf_store root va q v w free :
  vm_inv w root free → node (w_mem w) root [PX 2 va; PX 1 va] = Some q →
  grows root w free (set_mem (st64 (w_mem w) (pte_at q (PX 0 va)) v) w) free.
Proof.
  intros (Hk & Hwf & Hdis & Hok & Hlk) Eq. pose proof (PX_range 0 va ltac:(lia)) as Hi.
  set (m' := st64 _ _ _).
  assert (Hn : ∀ path, tpath path → node m' root path = node (w_mem w) root path).
  { intros path Ht. unfold m'. by rewrite (leaf_store_nodes _ _ [PX 2 va; PX 1 va]). }
  assert (Hin : in_pt (w_mem w) root q) by (by exists [PX 2 va; PX 1 va]).
  pose proof (pte_at_in q (PX 0 va) Hi).
  assert (Hout : same_outside q (w_mem w) m').
  { intros x Hx. unfold m', st64. by rewrite st_out by lia. }
  assert (Hin' : ∀ c, in_pt m' root c ↔ in_pt (w_mem w) root c).
  { intros c. split; intros (path & Ht & E); exists path; (split; [done|]); [by rewrite <-Hn|by rewrite Hn]. }
  split_and!; [|unfold mem_only, weq; reflexivity|done|intros c; rsimpl; rewrite Hin'; naive_solver|].
  - split_and!; [|by eapply pt_wf_nodes|by intros c Hc; apply Hdis, Hin'|done|done].
    destruct Hk as (Hf & Hp & Hnd). split_and!; [|done|done].
    eapply flist_outside; [exact Hout|done| |by apply Hdis|done].
    by apply (proj1 Hwf [PX 2 va; PX 1 va]).
  - intros x Hx. apply Hout. apply Hx. by left.
Qed.

Lemma div_page a va : a `mod` PGSIZE = 0 → (va / PGSIZE = a / PGSIZE ↔ a ≤ va < a + PGSIZE).
Proof. unfold PGSIZE. intros Ha. Z.to_euclidean_division_equations. lia. Qed.

Lemma maps_0 m root a pa perm : maps m m root a 0 pa perm.
Proof. intros va Hva. by rewrite decide_False by lia. Qed.

(** One page, then the rest. *)
Lemma maps_cons m0 m1 m2 root a n pa perm :
  a `mod` PGSIZE = 0 → 0 ≤ n →
  maps m0 m1 root a 1 pa perm → maps m1 m2 root (a + PGSIZE) n (pa + PGSIZE) perm →
  maps m0 m2 root a (1 + n) pa perm.
Proof.
  intros Ha Hn H1 H2 va Hva. rewrite H2, H1 by done.
  destruct (decide (a ≤ va < a + (1 + n) * PGSIZE)) as [Hd|Hd].
  - destruct (decide (a + PGSIZE ≤ va)).
    + rewrite decide_True by (unfold PGSIZE in *; lia). do 3 f_equal. lia.
    + rewrite decide_False, decide_True by (unfold PGSIZE in *; lia). done.
  - rewrite !decide_False by (unfold PGSIZE in *; lia). done.
Qed.

Lemma leaf_maps m root a q pa perm :
  pt_wf m root → node m root [PX 2 a; PX 1 a] = Some q → 0 ≤ a < MAXVA → a `mod` PGSIZE = 0 →
  0 ≤ pa < 2 ^ 56 → 0 ≤ perm < 2 ^ 10 →
  maps m (st64 m (pte_at q (PX 0 a)) (Z.lor (Z.lor (PA2PTE pa) perm) PTE_V)) root a 1 pa perm.
Proof.
  intros Hwf Eq Ha Hm Hpa Hperm va Hva.
  rewrite ptw_leaf_store; try done.
  2:{ rewrite <-Z.lor_assoc. apply entry_range; [done|]. by apply lor_small. }
  destruct (decide (a ≤ va < a + 1 * PGSIZE)) as [Hd|Hd].
  - assert (E : va / PGSIZE = a / PGSIZE) by (apply div_page; [done|lia]).
    rewrite decide_True by done. rewrite E. do 3 f_equal.
    unfold PGSIZE in *. Z.to_euclidean_division_equations. lia.
  - rewrite decide_False; [done|]. intros E%div_page; [lia|done].
Qed.

Lemma PGROUNDDOWN_eq a : PGROUNDDOWN a = a / PGSIZE * PGSIZE.
Proof.
  unfold PGROUNDDOWN. change (Z.lnot (PGSIZE - 1)) with (Z.lnot (Z.ones 12)).
  by rewrite <-Z.ldiff_land, Z.ldiff_ones_r, Z.shiftr_div_pow2, Z.shiftl_mul_pow2 by lia.
Qed.

Lemma PGROUNDDOWN_aligned a : a `mod` PGSIZE = 0 → PGROUNDDOWN a = a.
Proof. intros Ha. rewrite PGROUNDDOWN_eq. pose proof (Z_div_mod_eq_full a PGSIZE). lia. Qed.

Lemma mappages_loop_run (n : nat) root a pa perm env w free :
  vm_inv w root free → a `mod` PGSIZE = 0 → 0 ≤ a → a + (Z.of_nat n + 1) * PGSIZE ≤ MAXVA →
  0 ≤ pa → pa + (Z.of_nat n + 1) * PGSIZE ≤ 2 ^ 56 → 0 ≤ perm < 2 ^ 10 →
  (∀ va, a ≤ va < a + (Z.of_nat n + 1) * PGSIZE → pte_valid (ptw (w_mem w) root va) = false) →
  wp (mappages_loop (S n) root a (a + Z.of_nat n * PGSIZE) pa perm) env w (λ r e w',
    e = env ∧ ∃ free', grows root w free w' free' ∧
    (r = 0 ∧ maps (w_mem w) (w_mem w') root a (Z.of_nat n + 1) pa perm ∨
     r = -1 ∧ free' = [] ∧ ∃ k, 0 ≤ k ≤ Z.of_nat n ∧ maps (w_mem w) (w_mem w') root a k pa perm)).
Proof.
  revert a pa w free. induction n as [|n IH]; intros a pa w free Hi Hm Ha Hmax Hpa Hpmax Hperm Hun;
  assert (Hmv : MAXVA = 2 ^ 38) by done;
  cbn [mappages_loop]; mstep;
  (eapply wp_mono; [eapply walk_alloc; [done|unfold PGSIZE in *; lia]|]);
  intros r e w1 (-> & free1 & G1 & T1 & R1);
  (destruct R1 as [[-> ->]|(q & Eq & -> & Hne)];
   [change (0 =? 0) with true; cbn iota; mstep; (split; [done|]); exists []; split; [done|];
    right; split_and!; [done|done|exists 0; split; [lia|]]; intros va Hva;
    rewrite T1, decide_False by lia; done|]);
  rewrite (proj2 (Z.eqb_neq _ _) Hne); unfold ld64_k, st64_k; msteps;
  pose proof (Hun a ltac:(unfold PGSIZE in *; lia)) as Hun0;
  rewrite <-T1 in Hun0; unfold ptw in Hun0; rewrite Eq in Hun0; unfold pte_valid in Hun0;
  rewrite Hun0; msteps;
  pose proof (leaf_store root a q (Z.lor (Z.lor (PA2PTE pa) perm) PTE_V) w1 free1 (proj1 G1) Eq) as G2;
  assert (M1 : maps (w_mem w) (st64 (w_mem w1) (pte_at q (PX 0 a)) (Z.lor (Z.lor (PA2PTE pa) perm) PTE_V))
                 root a 1 pa perm)
    by (intros va Hva; rewrite (leaf_maps (w_mem w1)) by
          (unfold PGSIZE in *; try done; try lia; apply G1); by rewrite T1).
  - rewrite Z.add_0_r, Z.eqb_refl. mstep. split; [done|]. exists free1.
    split; [by eapply grows_trans|by left].
  - rewrite (proj2 (Z.eqb_neq _ _)) by (unfold PGSIZE; lia).
    rewrite (u64_small (a + PGSIZE)), (u64_small (pa + PGSIZE)) by (unfold PGSIZE in *; lia).
    replace (a + Z.of_nat (S n) * PGSIZE) with ((a + PGSIZE) + Z.of_nat n * PGSIZE) by (unfold PGSIZE; lia).
    assert (Hm' : (a + PGSIZE) `mod` PGSIZE = 0).
    { rewrite <-Z.add_mod_idemp_r, Z_mod_same_full, Z.add_0_r by done. done. }
    eapply wp_mono; [eapply IH; [apply G2|done|unfold PGSIZE in *; lia..|done|]|]; rsimpl.
    + intros va Hva. rewrite M1 by (unfold PGSIZE in *; lia).
      rewrite decide_False by (unfold PGSIZE in *; lia). apply Hun. unfold PGSIZE in *; lia.
    + intros r e w2 (-> & free2 & G3 & R3). split; [done|]. exists free2.
      split; [by eapply grows_trans; [|eapply grows_trans]|].
      destruct R3 as [[-> M3]|(-> & -> & k & Hk & M3)]; [left|right]; split_and!; try done.
      * replace (Z.of_nat (S n) + 1) with (1 + (Z.of_nat n + 1)) by lia.
        eapply maps_cons; [done|lia|done|done].
      * exists (1 + k). split; [lia|]. eapply maps_cons; [done|lia|done|done].
Qed.

(** mappages of [n] whole pages that are not mapped yet. *)
Lemma mappages_run root a n pa perm env w free :
  vm_inv w root free → 1 ≤ n → a `mod` PGSIZE = 0 → 0 ≤ a → a + n * PGSIZE ≤ MAXVA →
  0 ≤ pa → pa + n * PGSIZE ≤ 2 ^ 56 → 0 ≤ perm < 2 ^ 10 →
  (∀ va, a ≤ va < a + n * PGSIZE → pte_valid (ptw (w_mem w) root va) = false) →
  wp (mappages root a (n * PGSIZE) pa perm) env w (λ r e w',
    e = env ∧ ∃ free', grows root w free w' free' ∧
    (r = 0 ∧ maps (w_mem w) (w_mem w') root a n pa perm ∨
     r = -1 ∧ free' = [] ∧ ∃ k, 0 ≤ k < n ∧ maps (w_mem w) (w_mem w') root a k pa perm)).
Proof.
  intros Hi Hn Hm Ha Hmax Hpa Hpmax Hperm Hun. unfold mappages.
  assert (Hmv : MAXVA = 2 ^ 38) by done.
  rewrite (PGROUNDDOWN_aligned a), (u64_small (a + n * PGSIZE - 1)) by (unfold PGSIZE in *; (done || lia)).
  assert (E : PGROUNDDOWN (a + n * PGSIZE - 1) = a + (n - 1) * PGSIZE).
  { rewrite PGROUNDDOWN_eq. unfold PGSIZE in *. Z.to_euclidean_division_equations. lia. }
  rewrite E, u64_small by (unfold PGSIZE in *; lia).
  replace (a + (n - 1) * PGSIZE - a) with ((n - 1) * PGSIZE) by lia. rewrite Z.div_mul by done.
  replace (a + (n - 1) * PGSIZE) with (a + Z.of_nat (Z.to_nat (n - 1)) * PGSIZE)
    by (by rewrite Z2Nat.id by lia).
  eapply wp_mono; [eapply mappages_loop_run; try done; replace (Z.of_nat (Z.to_nat (n - 1)) + 1) with n by lia; done|].
  replace (Z.of_nat (Z.to_nat (n - 1)) + 1) with n by lia.
  intros r e w' (-> & free' & G & R). split; [done|]. exists free'. split; [done|].
  destruct R as [?|(-> & -> & k & Hk & M)]; [by left|right]. split_and!; try done. exists k. split; [lia|done].
Qed.

End Walk.
