(* ===== verification/VmCopy.v ===== *)
(** * copyin, copyout and copyinstr

    What the kernel reads and writes through a user page table: [ubyte] is the
    byte a process sees at a virtual address. *)

From S2P Require Import Prelude Types StringC Spinlock Kalloc PageTable Vm.

(** The page a user access to [va] goes to, 0 when it faults. *)
Definition uaddr (m : bytes) (root va : Z) : Z :=
  if MAXVA <=? va then 0 else
  let v := ptw m root va in
  if pte_valid v && nz (Z.land v PTE_U) then PTE2PA v else 0.

Definition ubyte (m : bytes) (root va : Z) : option Z :=
  let pa := uaddr m root va in
  if pa =? 0 then None else Some (m (pa + va `mod` PGSIZE)).

(** A user address space: the pages of the process are pages of RAM, no page of
    the page table is one of them, and no page is mapped twice. *)
Definition as_ok `{Layout} (m : bytes) (root : Z) : Prop :=
  (∀ va, 0 ≤ va → uaddr m root va ≠ 0 → page_ok (uaddr m root va) ∧ ¬ in_pt m root (uaddr m root va)) ∧
  (∀ va va', 0 ≤ va → 0 ≤ va' → uaddr m root va ≠ 0 → uaddr m root va = uaddr m root va' →
     va / PGSIZE = va' / PGSIZE).

Definition as_inv `{Layout} (w : world) (root : Z) (free : list Z) : Prop :=
  vm_inv w root free ∧ as_ok (w_mem w) root ∧
  (∀ va, 0 ≤ va → uaddr (w_mem w) root va ≠ 0 → uaddr (w_mem w) root va ∉ free).

Lemma mod_page va : va `mod` PGSIZE = va - PGROUNDDOWN va.
Proof. rewrite PGROUNDDOWN_eq. pose proof (Z_div_mod_eq_full va PGSIZE). lia. Qed.

Lemma page_off va : 0 ≤ va `mod` PGSIZE < PGSIZE.
Proof. by apply Z.mod_pos_bound. Qed.

Lemma MAXVA_page va va' : va / PGSIZE = va' / PGSIZE → (MAXVA <=? va) = (MAXVA <=? va').
Proof.
  intros E. assert (MAXVA = 2 ^ 38) by done. unfold PGSIZE in *. revert E.
  destruct (Z.leb_spec MAXVA va), (Z.leb_spec MAXVA va'); try done;
    intros; exfalso; Z.to_euclidean_division_equations; lia.
Qed.

Lemma uaddr_page m root va va' : va / PGSIZE = va' / PGSIZE → uaddr m root va = uaddr m root va'.
Proof. intros E. unfold uaddr. by rewrite (MAXVA_page _ _ E), (ptw_page _ _ _ _ E). Qed.

Lemma uaddr_down m root va : uaddr m root (PGROUNDDOWN va) = uaddr m root va.
Proof. apply uaddr_page. rewrite PGROUNDDOWN_eq. by apply Z.div_mul. Qed.

Lemma uaddr_lt m root va : uaddr m root va ≠ 0 → va < MAXVA.
Proof. unfold uaddr. destruct (Z.leb_spec MAXVA va); [done|lia]. Qed.

Lemma uaddr_aligned m root va : uaddr m root va `mod` PGSIZE = 0.
Proof.
  unfold uaddr. case_match; [done|]. case_match; [|done]. unfold PTE2PA, u64.
  rewrite Z.shiftl_mul_pow2 by lia.
  rewrite Z.mod_mod_divide; [by apply Z_mod_mult|]. by exists (2 ^ 52).
Qed.

(** Bytes on one page. *)
Lemma ubyte_same_page m root va i :
  uaddr m root va ≠ 0 → 0 ≤ i → va `mod` PGSIZE + i < PGSIZE →
  uaddr m root (va + i) = uaddr m root va ∧
  ubyte m root (va + i) = Some (m (uaddr m root va + (va `mod` PGSIZE + i))).
Proof.
  intros Hne Hi Hlt.
  assert (E : uaddr m root (va + i) = uaddr m root va).
  { apply uaddr_page. unfold PGSIZE in *. Z.to_euclidean_division_equations. lia. }
  split; [done|]. unfold ubyte. rewrite E, (proj2 (Z.eqb_neq _ _)) by done. do 3 f_equal.
  unfold PGSIZE in *. Z.to_euclidean_division_equations. lia.
Qed.

Lemma ubyte_None m root va : ubyte m root va = None ↔ uaddr m root va = 0.
Proof. unfold ubyte. destruct (Z.eqb_spec (uaddr m root va) 0); split; try done; lia. Qed.

(** ** Code that looks at nothing but memory

    Its result and the memory it leaves depend on the memory it finds only. *)

Definition mem_local {A} (m : K A) : Prop := ∀ M,
  (∃ r M', ∀ env w, w_mem w = M → m env w = Ret r env (set_mem M' w)) ∨
  (∃ s, ∀ env w, w_mem w = M → m env w = Panic s) ∨ (∀ env w, w_mem w = M → m env w = NoFuel).

Lemma local_ret {A} (a : A) : mem_local (ret a).
Proof. intros M. left. exists a, M. by intros env w <-. Qed.
Lemma local_panic {A} s : mem_local (panic (A := A) s).
Proof. intros M. right. left. by exists s. Qed.
Lemma local_nofuel {A} : mem_local (λ _ _, @NoFuel world A).
Proof. intros M. by right; right. Qed.
Lemma local_ld64 a : mem_local (ld64_k a).
Proof. intros M. left. exists (ld64 M a), M. by intros env w <-. Qed.
Lemma local_gets {A} (f : bytes → A) : mem_local (gets (λ w, f (w_mem w))).
Proof. intros M. left. exists (f M), M. by intros env w <-. Qed.
Lemma local_store f : mem_local (modify (λ w, set_mem (f (w_mem w)) w)).
Proof. intros M. left. exists tt, (f M). by intros env w <-. Qed.

Lemma local_bind {A B} (m : K A) (k : A → K B) : mem_local m → (∀ a, mem_local (k a)) → mem_local (bind m k).
Proof.
  intros Hm Hk M. destruct (Hm M) as [(r & M1 & E)|[[s E]|E]].
  - destruct (Hk r M1) as [(r' & M2 & E2)|[[s E2]|E2]].
    + left. exists r', M2. intros env w Hw. etransitivity; [by apply bind_Ret, E|]. by rewrite E2.
    + right. left. exists s. intros env w Hw. etransitivity; [by apply bind_Ret, E|]. by apply E2.
    + right. right. intros env w Hw. etransitivity; [by apply bind_Ret, E|]. by apply E2.
  - right. left. exists s. intros env w Hw. unfold bind. by rewrite E.
  - right. right. intros env w Hw. unfold bind. by rewrite E.
Qed.

Lemma local_same {A} (m : K A) env env' w v r M :
  mem_local m → m env w = Ret r env (set_mem M w) → w_mem v = w_mem w → m env' v = Ret r env' (set_mem M v).
Proof.
  intros Hm E Ev. destruct (Hm (w_mem w)) as [(r' & M' & E')|[[s E']|E']]; rewrite E' in E by done; [|done..].
  assert (HM : M' = M) by exact (f_equal (λ o, match o with Ret _ _ x => w_mem x | _ => M' end) E).
  injection E as -> _. subst M'. by apply E'.
Qed.

Create HintDb local.
#[export] Hint Resolve @local_ret @local_panic @local_nofuel local_ld64 @local_gets local_store : local.

(** [local] follows the structure of the code. *)
Ltac local := repeat first [solve [eauto 2 with local] | case_match | apply local_bind; [|intros ?]].

Section Local.
Context `{Layout}.

Lemma local_walk_levels l pagetable va : mem_local (walk_levels l pagetable va false).
Proof. revert pagetable. induction l as [|x l IH]; intros pagetable; cbn [walk_levels negb]; local. Qed.
#[local] Hint Resolve local_walk_levels : local.
Lemma local_walk pagetable va : mem_local (walk pagetable va false).
Proof. unfold walk. local. Qed.
#[local] Hint Resolve local_walk : local.
Lemma local_walkaddr pagetable va : mem_local (walkaddr pagetable va).
Proof. unfold walkaddr. local. Qed.
#[local] Hint Resolve local_walkaddr : local.

Lemma local_copyout_loop fuel root dstva src s len : mem_local (copyout_loop fuel root dstva src s len).
Proof.
  revert dstva s len. induction fuel as [|fuel IH]; intros dstva s len; cbn [copyout_loop]; [apply local_nofuel|].
  case_match; [apply local_ret|]. apply local_bind; [apply local_walkaddr|intros pa]. case_match; [apply local_ret|].
  apply local_bind; [exact (local_store (λ M, mem_copy M _ _ _ _))|]. intros _. apply IH.
Qed.
Lemma local_copyout root dstva src len : mem_local (copyout root dstva src len).
Proof. apply local_copyout_loop. Qed.

Lemma local_copyin_loop fuel root dst d srcva len : mem_local (copyin_loop fuel root dst d srcva len).
Proof.
  revert dst d srcva len. induction fuel as [|fuel IH]; intros dst d srcva len; cbn [copyin_loop]; [apply local_nofuel|].
  case_match; [apply local_ret|]. apply local_bind; [apply local_walkaddr|intros pa]. case_match; [apply local_ret|].
  apply local_bind; [exact (local_gets (λ M, M))|]. intros m. apply IH.
Qed.
Lemma local_copyin root dst srcva len : mem_local (copyin root dst srcva len).
Proof. apply local_copyin_loop. Qed.
End Local.

Section Copy.
Context `{LayoutOk}.

Lemma walkaddr_run root va env w :
  pt_wf (w_mem w) root → walkaddr root va env w = Ret (uaddr (w_mem w) root va) env w.
Proof.
  intros Hwf. unfold walkaddr, uaddr. destruct (Z.leb_spec MAXVA va) as [|Hva]; [done|].
  mcall walk_noalloc. unfold ptw.
  destruct (node (w_mem w) root [PX 2 va; PX 1 va]) as [q|] eqn:Eq; [|done].
  assert (Hne : pte_at q (PX 0 va) ≠ 0).
  { pose proof (page_ok_pos _ (proj1 Hwf _ _ (tpath_2 va) Eq)).
    pose proof (PX_range 0 va ltac:(lia)). unfold pte_at. lia. }
  rewrite (proj2 (Z.eqb_neq _ _) Hne). unfold ld64_k. msteps. unfold pte_valid, nz.
  case_match; [done|]. cbn [negb andb]. case_match; done.
Qed.

(** ** copyin *)

Lemma copyin_loop_run fuel root dst d srcva len env w :
  pt_wf (w_mem w) root → (Z.to_nat len < fuel)%nat → 0 ≤ srcva → 0 ≤ len →
  ∃ r dst', copyin_loop fuel root dst d srcva len env w = Ret (r, dst') env w
    ∧ (∀ x, ¬ (d ≤ x < d + len) → dst' x = dst x)
    ∧ (r = 0 ∧ (∀ i, 0 ≤ i < len → ubyte (w_mem w) root (srcva + i) = Some (dst' (d + i)))
       ∨ r = -1 ∧ ∃ i, 0 ≤ i < len ∧ ubyte (w_mem w) root (srcva + i) = None).
Proof.
  intros Hwf. revert dst d srcva len.
  induction fuel as [|fuel IH]; intros dst d srcva len Hf Hs Hl; [lia|]. cbn [copyin_loop].
  destruct (Z.ltb_spec 0 len) as [Hpos|Hz]; cbn [negb].
  2:{ exists 0, dst. split_and!; [done|done|]. left. split; [done|]. lia. }
  setoid_rewrite (bind_Ret _ _ _ _ _ _ _ (walkaddr_run root (PGROUNDDOWN srcva) env w Hwf)).
  rewrite uaddr_down, <-mod_page. pose proof (page_off srcva) as Hoff.
  destruct (Z.eqb_spec (uaddr (w_mem w) root srcva) 0) as [E0|Hne].
  { exists (-1), dst. split_and!; [done|done|]. right. split; [done|]. exists 0.
    rewrite Z.add_0_r. split; [lia|]. by apply ubyte_None. }
  set (n := if _ >? len then len else _).
  assert (Hn : 1 ≤ n ≤ len ∧ srcva `mod` PGSIZE + n ≤ PGSIZE ∧ (n < len → srcva `mod` PGSIZE + n = PGSIZE)).
  { unfold n. rewrite Z.gtb_ltb. destruct (Z.ltb_spec len (PGSIZE - srcva `mod` PGSIZE)); lia. }
  clearbody n. destruct Hn as (Hn1 & Hn2 & Hn3).
  pose proof (uaddr_lt _ _ _ Hne) as Hlt. assert (MAXVA = 2 ^ 38) by done.
  pose proof (mod_page srcva) as Hmod.
  destruct (IH (mem_copy dst d (w_mem w) (uaddr (w_mem w) root srcva + srcva `mod` PGSIZE) n)
    (d + n) (u64 (PGROUNDDOWN srcva + PGSIZE)) (len - n)) as (r & dst' & E & Ho & R);
    [lia|apply u64_range|lia|].
  exists r, dst'. split_and!; [exact E| |].
  { intros x Hx. rewrite Ho by lia. apply mem_copy_out. lia. }
  rewrite u64_small in R by (unfold PGSIZE in *; lia).
  destruct R as [[-> R]|(-> & i & Hi & R)].
  - left. split; [done|]. intros i Hi. destruct (decide (i < n)) as [Hin|Hin].
    + destruct (ubyte_same_page _ _ _ i Hne) as [_ ->]; [lia|lia|].
      rewrite Ho, mem_copy_in by lia. do 2 f_equal. lia.
    + replace (d + i) with (d + n + (i - n)) by lia.
      rewrite <-R by lia. f_equal. lia.
  - right. split; [done|]. exists (n + i). split; [lia|]. rewrite <-R. f_equal. lia.
Qed.

(** ** copyout *)

(** A store of [n] bytes within the page the process sees at [va]. *)
Lemma user_store root va m src s n :
  as_ok m root → pt_wf m root → 0 ≤ va → uaddr m root va ≠ 0 → 0 ≤ n → va `mod` PGSIZE + n ≤ PGSIZE →
  let m' := mem_copy m (uaddr m root va + va `mod` PGSIZE) src s n in
  (∀ a x, in_pt m root a → a ≤ x < a + PGSIZE → m' x = m x) ∧
  (∀ va', uaddr m' root va' = uaddr m root va') ∧
  (∀ va', 0 ≤ va' →
     ubyte m' root va' = if decide (va ≤ va' < va + n) then Some (src (va' - va + s)) else ubyte m root va').
Proof.
  intros [Hp Hinj] Hwf Hva Hne Hn Hoff m'. pose proof (page_off va).
  destruct (Hp va Hva Hne) as [Hpage Hnin].
  assert (Hfr : ∀ a x, in_pt m root a → a ≤ x < a + PGSIZE → m' x = m x).
  { intros a x Ha Hx. unfold m'. apply mem_copy_out.
    pose proof Ha as (p & Ht & E). destruct (proj1 Hwf _ _ Ht E) as [Ma _], Hpage as [Mv _].
    assert (a ≠ uaddr m root va) by (intros ->; done).
    destruct (pages_apart a (uaddr m root va)); try done; lia. }
  assert (Hua : ∀ va', uaddr m' root va' = uaddr m root va').
  { intros va'. unfold uaddr. by rewrite (ptw_frame m m'). }
  split_and!; [done|done|]. intros va' Hva'. unfold ubyte at 1. rewrite Hua.
  destruct (Z.eqb_spec (uaddr m root va') 0) as [E0|Hne'].
  - rewrite decide_False; [symmetry; by apply ubyte_None|]. intros Hin.
    destruct (ubyte_same_page m root va (va' - va) Hne) as [E _]; [lia|lia|].
    replace (va + (va' - va)) with va' in E by lia. congruence.
  - destruct (decide (uaddr m root va' = uaddr m root va)) as [Ea|Ea].
    + assert (Epg : va' / PGSIZE = va / PGSIZE) by (by apply Hinj).
      rewrite Ea. unfold m'. pose proof (page_off va').
      assert (Hd : va' - va = va' `mod` PGSIZE - va `mod` PGSIZE).
      { rewrite !mod_page, !PGROUNDDOWN_eq, Epg. lia. }
      case_decide.
      * rewrite mem_copy_in by lia. do 2 f_equal. lia.
      * rewrite mem_copy_out by lia. unfold ubyte. by rewrite Ea, (proj2 (Z.eqb_neq _ _)).
    + rewrite decide_False.
      * unfold ubyte. rewrite (proj2 (Z.eqb_neq _ _)) by done. f_equal. unfold m'.
        apply mem_copy_out. pose proof (page_off va').
        destruct (pages_apart (uaddr m root va') (uaddr m root va)); try lia;
          apply uaddr_aligned.
      * intros Hin. apply Ea.
        destruct (ubyte_same_page m root va (va' - va) Hne) as [E _]; [lia|lia|].
        by replace (va + (va' - va)) with va' in E by lia.
Qed.

(** A memory in which the process sees [k] bytes of [src] at [dstva] and is
    otherwise the same. *)
Definition wrote (m m' : bytes) (root dstva : Z) (src : bytes) (s k : Z) : Prop :=
  (∀ a x, in_pt m root a → a ≤ x < a + PGSIZE → m' x = m x) ∧
  (∀ va, uaddr m' root va = uaddr m root va) ∧
  (∀ va, 0 ≤ va →
     ubyte m' root va = if decide (dstva ≤ va < dstva + k) then Some (src (va - dstva + s)) else ubyte m root va) ∧
  (∀ x, (∀ va, 0 ≤ va → uaddr m root va ≠ 0 → ¬ (uaddr m root va ≤ x < uaddr m root va + PGSIZE)) → m' x = m x).

Lemma wrote_wf m m' root dstva src s k : wrote m m' root dstva src s k → pt_wf m root → pt_wf m' root.
Proof. intros (Hf & _) Hwf. eapply pt_wf_nodes; [|done]. intros. by apply node_frame. Qed.

Lemma wrote_as_ok m m' root dstva src s k : wrote m m' root dstva src s k → as_ok m root → as_ok m' root.
Proof.
  intros (Hf & Hu & _) [H1 H2]. split.
  - intros va Hva. rewrite Hu. intros Hne. destruct (H1 va Hva Hne) as [Hp Hn]. split; [done|].
    intros Hin. by apply (in_pt_frame m m') in Hin.
  - intros va va' Hva Hva'. rewrite !Hu. by apply H2.
Qed.

(** The memory after the bytes [l] have been put at [addr] of the user's memory. *)
Definition filled (m m' : bytes) (root addr : Z) (l : list Z) : Prop :=
  (∀ va, uaddr m' root va = uaddr m root va) ∧ pt_wf m' root ∧ as_ok m' root ∧
  (∀ va, 0 ≤ va → ubyte m' root va =
    if decide (addr ≤ va < addr + Z.of_nat (length l)) then l !! Z.to_nat (va - addr) else ubyte m root va).

Lemma filled_nil m root addr : pt_wf m root → as_ok m root → filled m m root addr [].
Proof. intros Hwf Has. split_and!; try done. intros va Hva. rewrite decide_False; [done|]. cbn. lia. Qed.

Lemma wrote_filled m m' root addr src k :
  wrote m m' root addr src 0 k → pt_wf m root → as_ok m root → filled m m' root addr (src <$> seqZ 0 k).
Proof.
  intros W Hwf Has. split_and!; [by destruct W as (_ & ? & _)|by eapply wrote_wf|by eapply wrote_as_ok|].
  intros va Hva. destruct W as (_ & _ & -> & _); [|done]. rewrite length_fmap, length_seqZ.
  destruct (decide (addr ≤ va < addr + k)).
  - rewrite decide_True, list_lookup_fmap, lookup_seqZ_lt by lia. cbn. do 2 f_equal. lia.
  - by rewrite decide_False by lia.
Qed.

Lemma filled_app m m1 m2 root addr l1 l2 :
  filled m m1 root addr l1 → filled m1 m2 root (addr + Z.of_nat (length l1)) l2 → filled m m2 root addr (l1 ++ l2).
Proof.
  intros (U1 & _ & _ & B1) (U2 & W2 & A2 & B2). split_and!; [|done|done|].
  - intros va. by rewrite U2.
  - intros va Hva. rewrite B2, B1, length_app by done.
    destruct (decide (addr + Z.of_nat (length l1) ≤ va < addr + Z.of_nat (length l1) + Z.of_nat (length l2))).
    + rewrite decide_True, lookup_app_r by lia. f_equal. lia.
    + destruct (decide (addr ≤ va < addr + Z.of_nat (length l1))).
      * rewrite decide_True by lia. by rewrite lookup_app_l by lia.
      * by rewrite decide_False by lia.
Qed.

Lemma copyout_loop_run fuel root dstva src s len env w :
  as_ok (w_mem w) root → pt_wf (w_mem w) root → (Z.to_nat len < fuel)%nat → 0 ≤ dstva → 0 ≤ len →
  ∃ r m' k, copyout_loop fuel root dstva src s len env w = Ret r env (set_mem m' w)
    ∧ wrote (w_mem w) m' root dstva src s k
    ∧ (r = 0 ∧ k = len ∧ (∀ i, 0 ≤ i < len → ubyte (w_mem w) root (dstva + i) ≠ None)
       ∨ r = -1 ∧ 0 ≤ k < len ∧ ubyte (w_mem w) root (dstva + k) = None).
Proof.
  revert dstva s len w. induction fuel as [|fuel IH]; intros dstva s len w Has Hwf Hf Hs Hl; [lia|].
  assert (Hid : wrote (w_mem w) (w_mem w) root dstva src s 0).
  { split_and!; [done|done| |done]. intros. by rewrite decide_False by lia. }
  cbn [copyout_loop].
  destruct (Z.ltb_spec 0 len) as [Hpos|Hz]; cbn [negb].
  2:{ assert (len = 0) as -> by lia. exists 0, (w_mem w), 0.
      split_and!; [reflexivity|done|left; split_and!; [done|done|lia]]. }
  setoid_rewrite (bind_Ret _ _ _ _ _ _ _ (walkaddr_run root (PGROUNDDOWN dstva) env w Hwf)).
  rewrite uaddr_down, <-mod_page. pose proof (page_off dstva) as Hoff.
  destruct (Z.eqb_spec (uaddr (w_mem w) root dstva) 0) as [E0|Hne].
  { exists (-1), (w_mem w), 0. split_and!; [reflexivity|done|].
    right. split_and!; [done|lia|lia|]. rewrite Z.add_0_r. by apply ubyte_None. }
  set (n := if _ >? len then len else _).
  assert (Hn : 1 ≤ n ≤ len ∧ dstva `mod` PGSIZE + n ≤ PGSIZE ∧ (n < len → dstva `mod` PGSIZE + n = PGSIZE)).
  { unfold n. rewrite Z.gtb_ltb. destruct (Z.ltb_spec len (PGSIZE - dstva `mod` PGSIZE)); lia. }
  clearbody n. destruct Hn as (Hn1 & Hn2 & Hn3).
  pose proof (uaddr_lt _ _ _ Hne) as Hlt. assert (MAXVA = 2 ^ 38) by done.
  pose proof (mod_page dstva) as Hmod.
  destruct (user_store root dstva (w_mem w) src s n) as (U1 & U2 & U3); try done; [lia|].
  set (m1 := mem_copy (w_mem w) (uaddr (w_mem w) root dstva + dstva `mod` PGSIZE) src s n) in *.
  assert (W1 : wrote (w_mem w) m1 root dstva src s n).
  { split_and!; [done|done|done|]. intros x Hx. unfold m1. apply mem_copy_out.
    specialize (Hx dstva Hs Hne). lia. }
  destruct (IH (u64 (PGROUNDDOWN dstva + PGSIZE)) (s + n) (len - n) (set_mem m1 w))
    as (r & m' & k & E & (V1 & V2 & V3 & V4) & R);
    [by eapply wrote_as_ok|by eapply wrote_wf|lia|apply u64_range|lia|].
  rsimpl_in V1. rsimpl_in V2. rsimpl_in V3. rsimpl_in V4. rsimpl_in R.
  assert (Ek : k ≤ 0 ∨ u64 (PGROUNDDOWN dstva + PGSIZE) = dstva + n).
  { rewrite u64_small by (unfold PGSIZE in *; lia). destruct R as [(_ & -> & _)|(_ & ? & _)]; lia. }
  exists r, m', (n + Z.max k 0). split_and!; [exact E| |].
  - split_and!.
    + intros a x Ha Hx. rewrite (V1 a x); [by apply (U1 a)| |done].
      destruct Ha as (p & Ht & Ep). exists p. split; [done|]. by rewrite (node_frame (w_mem w)).
    + intros va. by rewrite V2.
    + intros va Hva. rewrite V3, U3 by done.
      rewrite u64_small in Ek |- * by (unfold PGSIZE in *; lia).
      destruct Ek as [Ek|Ek].
      * rewrite decide_False by lia. replace (n + k `max` 0) with n by lia. done.
      * destruct R as [(_ & -> & _)|(_ & Hk & _)]; rewrite Ek;
        repeat case_decide; try done; try lia; do 2 f_equal; lia.
    + intros x Hx. rewrite V4; [by apply W1|]. intros va Hva. rewrite U2. by apply Hx.
  - rewrite u64_small in R by (unfold PGSIZE in *; lia).
    destruct R as [(-> & -> & R)|(-> & Hk & R)].
    + left. split_and!; [done|lia|]. intros i Hi. rewrite ubyte_None.
      destruct (decide (i < n)).
      * destruct (ubyte_same_page _ _ _ i Hne) as [-> _]; lia.
      * specialize (R (i - n) ltac:(lia)). rewrite ubyte_None, U2 in R.
        replace (dstva + i) with (PGROUNDDOWN dstva + PGSIZE + (i - n)) by lia. done.
    + right. split_and!; [done|lia|lia|]. rewrite ubyte_None, U2 in R. rewrite ubyte_None.
      replace (dstva + (n + k `max` 0)) with (PGROUNDDOWN dstva + PGSIZE + k) by lia. done.
Qed.

(** ** copyinstr *)

Lemma copyinstr_page_run n m p dst d max :
  match copyinstr_page n m p dst d max with
  | (true, (_, _, dst')) => ∃ k, 0 ≤ k < Z.of_nat n ∧ m (p + k) = 0 ∧ dst' (d + k) = 0
      ∧ (∀ i, 0 ≤ i < k → dst' (d + i) = m (p + i) ∧ m (p + i) ≠ 0)
      ∧ (∀ x, ¬ (d ≤ x ≤ d + k) → dst' x = dst x)
  | (false, (max', d', dst')) => d' = d + Z.of_nat n ∧ max' = max - Z.of_nat n
      ∧ (∀ i, 0 ≤ i < Z.of_nat n → dst' (d + i) = m (p + i) ∧ m (p + i) ≠ 0)
      ∧ (∀ x, ¬ (d ≤ x < d + Z.of_nat n) → dst' x = dst x)
  end.
Proof.
  revert p dst d max. induction n as [|n IH]; intros p dst d max.
  { cbn. split_and!; [lia|lia|lia|done]. }
  cbn [copyinstr_page]. destruct (Z.eqb_spec (m p) 0) as [E0|Hne].
  { exists 0. rewrite !Z.add_0_r, fn_lookup_insert. split_and!; [lia|lia|done|done|lia|].
    intros x Hx. apply fn_lookup_insert_ne. lia. }
  specialize (IH (p + 1) (<[d := m p]> dst) (d + 1) (max - 1)).
  destruct (copyinstr_page n m (p + 1) _ (d + 1) (max - 1)) as [[] [[max' d'] dst']].
  - destruct IH as (k & Hk & Ez & Ed & Hi & Ho). exists (1 + k).
    replace (p + (1 + k)) with (p + 1 + k) by lia. replace (d + (1 + k)) with (d + 1 + k) by lia.
    split_and!; [lia|lia|done|done| |].
    + intros i Hii. destruct (decide (i = 0)) as [->|].
      * rewrite !Z.add_0_r, Ho by lia. by rewrite fn_lookup_insert.
      * replace (d + i) with (d + 1 + (i - 1)) by lia. replace (p + i) with (p + 1 + (i - 1)) by lia.
        apply Hi. lia.
    + intros x Hx. rewrite Ho by lia. apply fn_lookup_insert_ne. lia.
  - destruct IH as (-> & -> & Hi & Ho). split_and!; [lia|lia| |].
    + intros i Hii. destruct (decide (i = 0)) as [->|].
      * rewrite !Z.add_0_r, Ho by lia. by rewrite fn_lookup_insert.
      * replace (d + i) with (d + 1 + (i - 1)) by lia. replace (p + i) with (p + 1 + (i - 1)) by lia.
        apply Hi. lia.
    + intros x Hx. rewrite Ho by lia. apply fn_lookup_insert_ne. lia.
Qed.

(** The process sees [k] non-zero bytes at [va], and [dst] holds them at [d]. *)
Definition ucopied (m : bytes) (root va : Z) (dst : bytes) (d k : Z) : Prop :=
  ∀ i, 0 ≤ i < k → ubyte m root (va + i) = Some (dst (d + i)) ∧ dst (d + i) ≠ 0.

Lemma ucopied_app m root va dst d j k :
  ucopied m root va dst d j → ucopied m root (va + j) dst (d + j) k → ucopied m root va dst d (j + k).
Proof.
  intros H1 H2 i Hi. destruct (decide (i < j)); [apply H1; lia|].
  replace (va + i) with (va + j + (i - j)) by lia. replace (d + i) with (d + j + (i - j)) by lia.
  apply H2. lia.
Qed.

Lemma copyinstr_loop_run fuel root dst d srcva max env w :
  pt_wf (w_mem w) root → (Z.to_nat max < fuel)%nat → 0 ≤ srcva → 0 ≤ max →
  ∃ r dst' k, copyinstr_loop fuel root dst d srcva max env w = Ret (r, dst') env w
    ∧ (∀ x, ¬ (d ≤ x < d + max) → dst' x = dst x)
    ∧ ucopied (w_mem w) root srcva dst' d k
    ∧ (r = 0 ∧ 0 ≤ k < max ∧ ubyte (w_mem w) root (srcva + k) = Some 0 ∧ dst' (d + k) = 0
       ∨ r = -1 ∧ 0 ≤ k ≤ max ∧ (k = max ∨ ubyte (w_mem w) root (srcva + k) = None)).
Proof.
  intros Hwf. revert dst d srcva max.
  induction fuel as [|fuel IH]; intros dst d srcva max Hf Hs Hl; [lia|]. cbn [copyinstr_loop].
  assert (Hnil : ucopied (w_mem w) root srcva dst d 0) by (intros i Hi; lia).
  destruct (Z.ltb_spec 0 max) as [Hpos|Hz]; cbn [negb].
  2:{ exists (-1), dst, 0. split_and!; [done|done|done|]. right. split_and!; [done|lia|lia|left; lia]. }
  setoid_rewrite (bind_Ret _ _ _ _ _ _ _ (walkaddr_run root (PGROUNDDOWN srcva) env w Hwf)).
  rewrite uaddr_down, <-mod_page. pose proof (page_off srcva) as Hoff.
  destruct (Z.eqb_spec (uaddr (w_mem w) root srcva) 0) as [E0|Hne].
  { exists (-1), dst, 0. split_and!; [done|done|done|]. right. split_and!; [done|lia|lia|].
    right. rewrite Z.add_0_r. by apply ubyte_None. }
  set (n := if _ >? max then max else _).
  assert (Hn : 1 ≤ n ≤ max ∧ srcva `mod` PGSIZE + n ≤ PGSIZE ∧ (n < max → srcva `mod` PGSIZE + n = PGSIZE)).
  { unfold n. rewrite Z.gtb_ltb. destruct (Z.ltb_spec max (PGSIZE - srcva `mod` PGSIZE)); lia. }
  clearbody n. destruct Hn as (Hn1 & Hn2 & Hn3).
  pose proof (uaddr_lt _ _ _ Hne) as Hlt. assert (MAXVA = 2 ^ 38) by done.
  pose proof (mod_page srcva) as Hmod.
  setoid_rewrite (bind_Ret (gets w_mem) _ env w _ env w eq_refl).
  pose proof (copyinstr_page_run (Z.to_nat n) (w_mem w)
    (uaddr (w_mem w) root srcva + srcva `mod` PGSIZE) dst d max) as HP.
  destruct (copyinstr_page _ _ _ dst d max) as [[] [[max' d'] dst1]]; rewrite Z2Nat.id in HP by lia.
  - destruct HP as (k & Hk & Ez & Ed & Hi & Ho). exists 0, dst1, k. split_and!; [done| | |].
    + intros x Hx. apply Ho. lia.
    + intros i Hii. destruct (ubyte_same_page _ _ _ i Hne) as [_ ->]; [lia|lia|].
      rewrite Z.add_assoc. destruct (Hi i Hii) as [-> ?]. done.
    + left. split_and!; [done|lia|lia| |done].
      destruct (ubyte_same_page _ _ _ k Hne) as [_ ->]; [lia|lia|]. by rewrite Z.add_assoc, Ez.
  - destruct HP as (-> & -> & Hi & Ho).
    destruct (IH dst1 (d + n) (u64 (PGROUNDDOWN srcva + PGSIZE)) (max - n))
      as (r & dst' & k & E & Ho2 & C2 & R); [lia|apply u64_range|lia|].
    rewrite u64_small in R, C2 by (unfold PGSIZE in *; lia).
    assert (C1 : ucopied (w_mem w) root srcva dst' d n).
    { intros i Hii. rewrite Ho2 by lia.
      destruct (ubyte_same_page _ _ _ i Hne) as [_ ->]; [lia|lia|].
      rewrite Z.add_assoc. destruct (Hi i Hii) as [-> ?]. done. }
    assert (Hfin : k ≤ 0 ∨ n < max) by lia.
    exists r, dst', (n + Z.max k 0). split_and!; [exact E| | |].
    + intros x Hx. rewrite Ho2 by lia. apply Ho. lia.
    + destruct (decide (k ≤ 0)).
      * replace (n + k `max` 0) with n by lia. done.
      * replace (k `max` 0) with k by lia. apply ucopied_app; [done|].
        replace (srcva + n) with (PGROUNDDOWN srcva + PGSIZE) by lia. done.
    + destruct R as [(-> & Hk & R1 & R2)|(-> & Hk & R)]; [left|right]; split_and!; try done; try lia.
      * replace (srcva + (n + k `max` 0)) with (PGROUNDDOWN srcva + PGSIZE + k) by lia. done.
      * rewrite <-R2. f_equal. lia.
      * destruct R as [->|R]; [left; lia|]. destruct (decide (n < max)); [right|left; lia].
        replace (srcva + (n + k `max` 0)) with (PGROUNDDOWN srcva + PGSIZE + k) by lia. done.
Qed.

End Copy.

Module UserCopy.
Section Props.
Context `{LayoutOk}.

(** C23: copyin returns 0 exactly when the process can read all [len] bytes at
    [srcva], and then the kernel buffer holds the bytes the process sees there;
    it changes nothing else and never touches the machine state. *)
Theorem copyin_reads root dst srcva len env w :
  pt_wf (w_mem w) root → 0 ≤ srcva → 0 ≤ len →
  ∃ r dst', copyin root dst srcva len env w = Ret (r, dst') env w
    ∧ (r = 0 ∨ r = -1)
    ∧ (r = 0 ↔ ∀ i, 0 ≤ i < len → ubyte (w_mem w) root (srcva + i) ≠ None)
    ∧ (r = 0 → ∀ i, 0 ≤ i < len → ubyte (w_mem w) root (srcva + i) = Some (dst' i))
    ∧ (∀ x, ¬ (0 ≤ x < len) → dst' x = dst x).
Proof.
  intros Hwf Hs Hl.
  destruct (copyin_loop_run (S (Z.to_nat len)) root dst 0 srcva len env w) as (r & dst' & E & Ho & R);
    [done|lia|done|done|].
  exists r, dst'. split_and!; [exact E| | | |intros x Hx; apply Ho; lia].
  - destruct R as [[-> _]|[-> _]]; auto.
  - destruct R as [[-> R]|(-> & i & Hi & R)]; split; try done.
    + intros _ i Hi. by rewrite R.
    + intros Hall. exfalso. by apply (Hall i).
  - intros ->. destruct R as [[_ R]|(? & _)]; [|done]. intros i Hi. rewrite R by done. f_equal.
Qed.

(** C31: copyout returns 0 exactly when the process maps all [len] bytes at
    [dstva], and then the process sees the kernel's bytes there and every other
    byte of its memory as before; on failure it has written a prefix that ends
    at an unmapped byte.  The page table and memory outside the process's pages
    are unchanged. *)
Theorem copyout_writes root dstva src len env w :
  pt_wf (w_mem w) root → as_ok (w_mem w) root → 0 ≤ dstva → 0 ≤ len →
  ∃ r m' k, copyout root dstva src len env w = Ret r env (set_mem m' w)
    ∧ wrote (w_mem w) m' root dstva src 0 k
    ∧ (r = 0 ∧ k = len ∧ (∀ i, 0 ≤ i < len → ubyte (w_mem w) root (dstva + i) ≠ None)
       ∨ r = -1 ∧ 0 ≤ k < len ∧ ubyte (w_mem w) root (dstva + k) = None).
Proof. intros Hwf Has Hd Hl. apply copyout_loop_run; auto; lia. Qed.

(** what copyout has written, copyin reads back. *)
Theorem copyout_copyin root va src dst len env w :
  pt_wf (w_mem w) root → as_ok (w_mem w) root → 0 ≤ va → 0 ≤ len →
  (∀ i, 0 ≤ i < len → ubyte (w_mem w) root (va + i) ≠ None) →
  ∃ w' dst', copyout root va src len env w = Ret 0 env w'
    ∧ copyin root dst va len env w' = Ret (0, dst') env w'
    ∧ ∀ i, 0 ≤ i < len → dst' i = src i.
Proof.
  intros Hwf Has Hd Hl Hall.
  destruct (copyout_loop_run (S (Z.to_nat len)) root va src 0 len env w)
    as (r & m' & k & E & W & R); [done|done|lia|done|done|].
  destruct R as [(-> & -> & _)|(_ & Hk & R)]; [|exfalso; by apply (Hall k)].
  destruct (copyin_loop_run (S (Z.to_nat len)) root dst 0 va len env (set_mem m' w))
    as (r & dst' & E2 & _ & R2); [by eapply wrote_wf|lia|done|done|]. rsimpl_in R2.
  destruct W as (_ & _ & W & _).
  destruct R2 as [[-> R2]|(-> & i & Hi & R2)].
  - exists (set_mem m' w), dst'. split_and!; [exact E|exact E2|]. intros i Hi.
    specialize (R2 i Hi). rewrite W, decide_True in R2 by lia.
    replace (va + i - va + 0) with i in R2 by lia. rewrite Z.add_0_l in R2. congruence.
  - exfalso. rewrite W, decide_True in R2 by lia. done.
Qed.

(** C32: copyinstr returns 0 exactly when a NUL occurs within [max] readable
    bytes, and the buffer then holds the string with its NUL; otherwise the
    string is too long or runs into unreadable memory. *)
Theorem copyinstr_reads root dst srcva max env w :
  pt_wf (w_mem w) root → 0 ≤ srcva → 0 ≤ max →
  ∃ r dst' k, copyinstr root dst srcva max env w = Ret (r, dst') env w
    ∧ (∀ x, ¬ (0 ≤ x < max) → dst' x = dst x)
    ∧ ucopied (w_mem w) root srcva dst' 0 k
    ∧ (r = 0 ∧ 0 ≤ k < max ∧ ubyte (w_mem w) root (srcva + k) = Some 0 ∧ dst' k = 0
       ∨ r = -1 ∧ 0 ≤ k ≤ max ∧ (k = max ∨ ubyte (w_mem w) root (srcva + k) = None)).
Proof.
  intros Hwf Hs Hl.
  destruct (copyinstr_loop_run (S (Z.to_nat max)) root dst 0 srcva max env w)
    as (r & dst' & k & E & Ho & C & R); [done|lia|done|done|].
  exists r, dst', k. rewrite Z.add_0_l in Ho, R. split_and!; done.
Qed.

End Props.
End UserCopy.

(** ** A small address space

    One user page, [page 3], mapped at virtual address 0 by the table pages
    [page 0], [page 1] and [page 2]. *)

Module Sample.

Definition page (i : Z) : Z := Alloc.sample_page + i * PGSIZE.
Definition m1 : bytes := st64 zeroes (pte_at (page 0) 0) (Z.lor (PA2PTE (page 1)) PTE_V).
Definition m2 : bytes := st64 m1 (pte_at (page 1) 0) (Z.lor (PA2PTE (page 2)) PTE_V).
Definition perm : Z := Z.lor (Z.lor PTE_R PTE_W) PTE_U.
Definition m3 : bytes :=
  st64 m2 (pte_at (page 2) (PX 0 0)) (Z.lor (Z.lor (PA2PTE (page 3)) perm) PTE_V).
Definition world3 : world := set_mem m3 image_world.

#[local] Existing Instance sample_layout.
#[local] Existing Instance sample_layout_ok.

Lemma page_ok_n i : 0 ≤ i < 16 → page_ok (page i).
Proof.
  intros Hi. split.
  - unfold page. by rewrite Z.mod_add.
  - unfold page. change Alloc.sample_page with 2147618816. change kend with 2147614768.
    unfold PGSIZE, PHYSTOP, KERNBASE. lia.
Qed.

Lemma node_zeroes root path : node zeroes root path = match path with [] => Some root | _ => None end.
Proof. destruct path; [done|]. cbn. unfold child, ld64. by rewrite ld_zero. Qed.

Lemma wf0 : pt_wf zeroes (page 0).
Proof.
  split.
  - intros path a _. rewrite node_zeroes. destruct path; [|done]. intros [= <-]. by apply page_ok_n.
  - intros p1 p2 a _ _. rewrite !node_zeroes. by destruct p1, p2.
Qed.

Lemma in_pt0 a : in_pt zeroes (page 0) a → a = page 0.
Proof. intros (path & _ & E). rewrite node_zeroes in E. by destruct path; simplify_eq. Qed.

Lemma wf1 : pt_wf m1 (page 0) ∧ ∀ c, in_pt m1 (page 0) c → c = page 1 ∨ in_pt zeroes (page 0) c.
Proof.
  apply (hang_wf zeroes (page 0) [] (page 0) 0 (page 1)); try done.
  - apply wf0.
  - split; [cbn; lia|by repeat constructor].
  - intros E%in_pt0. vm_compute in E. done.
Qed.

Lemma zero2 x : page 2 ≤ x < page 2 + PGSIZE → m1 x = 0.
Proof.
  intros Hx. unfold m1, st64. rewrite st_out; [done|lia|].
  change (page 2) with 2147627008 in Hx. change (pte_at (page 0) 0) with 2147618816. lia.
Qed.

Lemma not_in1 a : a ≠ page 0 → a ≠ page 1 → ¬ in_pt m1 (page 0) a.
Proof. intros H0 H1 Hx. destruct (proj2 wf1 a Hx) as [|Hy%in_pt0]; done. Qed.

Lemma wf2 : pt_wf m2 (page 0) ∧ ∀ c, in_pt m2 (page 0) c → c = page 2 ∨ in_pt m1 (page 0) c.
Proof.
  apply (hang_wf m1 (page 0) [0] (page 1) 0 (page 2)); try done.
  - apply wf1.
  - split; [cbn; lia|by repeat constructor].
  - apply zero2.
  - by apply not_in1.
Qed.

Lemma nodes3 path : tpath path → node m3 (page 0) path = node m2 (page 0) path.
Proof.
  intros Ht. apply (leaf_store_nodes m2 (page 0) [0; 0]); try done; [apply wf2|].
  split; [cbn; lia|by repeat constructor].
Qed.

Lemma wf3 : pt_wf m3 (page 0).
Proof. eapply pt_wf_nodes; [apply nodes3|apply wf2]. Qed.

Lemma in_pt3 a : in_pt m3 (page 0) a → a = page 0 ∨ a = page 1 ∨ a = page 2.
Proof.
  intros (path & Ht & E). rewrite nodes3 in E by done.
  destruct (proj2 wf2 a) as [|Hx]; [by exists path|by auto|].
  destruct (proj2 wf1 a Hx) as [|Hy%in_pt0]; auto.
Qed.

Lemma ptw3 va : 0 ≤ va < MAXVA →
  ptw m3 (page 0) va =
    if decide (va / PGSIZE = 0) then Z.lor (Z.lor (PA2PTE (page 3)) perm) PTE_V else 0.
Proof.
  intros Hva. unfold m3. rewrite (ptw_leaf_store m2 (page 0) 0); try done; [|apply wf2].
  change (0 / PGSIZE) with 0. case_decide; [done|].
  unfold m2. rewrite (hang_ptw m1 (page 0) [0] (page 1) 0 (page 2));
    [|apply wf1|split; [cbn; lia|by repeat constructor]|done|done|by apply page_ok_n|apply zero2|by apply not_in1].
  unfold m1. rewrite (hang_ptw zeroes (page 0) [] (page 0) 0 (page 1));
    [|apply wf0|split; [cbn; lia|by repeat constructor]|done|done|by apply page_ok_n|done|].
  - unfold ptw. by rewrite node_zeroes.
  - intros E%in_pt0. by vm_compute in E.
Qed.

Lemma uaddr3 va : 0 ≤ va → uaddr m3 (page 0) va = if decide (va < PGSIZE) then page 3 else 0.
Proof.
  intros Hva. unfold uaddr. destruct (Z.leb_spec MAXVA va) as [Hm|Hm].
  - rewrite decide_False; [done|]. change MAXVA with (2 ^ 38) in Hm. unfold PGSIZE. lia.
  - rewrite ptw3 by done. destruct (decide (va < PGSIZE)).
    + rewrite decide_True by (apply Z.div_small; lia). reflexivity.
    + rewrite decide_False; [done|]. unfold PGSIZE in *. Z.to_euclidean_division_equations. lia.
Qed.

Lemma as3 : as_ok m3 (page 0).
Proof.
  split.
  - intros va Hva. rewrite uaddr3 by done. case_decide; [|done]. intros _.
    split; [by apply page_ok_n|]. intros [E|[E|E]]%in_pt3; by vm_compute in E.
  - intros va va' Hva Hva'. rewrite !uaddr3 by done. repeat case_decide; try done.
    intros _ _. by rewrite !Z.div_small by lia.
Qed.

Lemma mapped3 va : 0 ≤ va < PGSIZE → ubyte m3 (page 0) va ≠ None.
Proof. intros Hva. rewrite ubyte_None, uaddr3, decide_True by lia. done. Qed.

Lemma copyin_reads_witness :
  pt_wf (w_mem world3) (page 0) ∧
  ∃ dst', copyin (page 0) zeroes 8 4 [] world3 = Ret (0, dst') [] world3.
Proof.
  split; [exact wf3|].
  destruct (UserCopy.copyin_reads (page 0) zeroes 8 4 [] world3 wf3 ltac:(lia) ltac:(lia))
    as (r & dst' & E & _ & Hr & _).
  exists dst'. rewrite E. do 2 f_equal. apply Hr. intros i Hi. apply mapped3. unfold PGSIZE. lia.
Defined.

(** The second page is not mapped: only the first byte is written. *)
Lemma copyout_writes_witness :
  as_ok (w_mem world3) (page 0) ∧
  ∃ m', copyout (page 0) 4095 (λ i, 7 + i) 2 [] world3 = Ret (-1) [] (set_mem m' world3)
        ∧ ubyte m' (page 0) 4095 = Some 7.
Proof.
  split; [exact as3|].
  destruct (UserCopy.copyout_writes (page 0) 4095 (λ i, 7 + i) 2 [] world3 wf3 as3
    ltac:(lia) ltac:(lia)) as (r & m' & k & E & (_ & _ & W & _) & R).
  exists m'. change (w_mem world3) with m3 in R, W.
  destruct R as [(-> & -> & R)|(-> & Hk & R)].
  - exfalso. apply (R 1); [lia|]. apply ubyte_None. rewrite uaddr3 by lia. reflexivity.
  - split; [exact E|]. assert (k = 1) as ->.
    { assert (k ≠ 0); [|lia]. intros ->. apply (mapped3 4095); [unfold PGSIZE; lia|exact R]. }
    rewrite W, decide_True by lia. reflexivity.
Defined.

Lemma copyout_copyin_witness :
  (∀ i, 0 ≤ i < 3 → ubyte (w_mem world3) (page 0) (0 + i) ≠ None) ∧
  ∃ w' dst', copyout (page 0) 0 (λ i, 7 + i) 3 [] world3 = Ret 0 [] w'
    ∧ copyin (page 0) zeroes 0 3 [] w' = Ret (0, dst') [] w' ∧ dst' 2 = 9.
Proof.
  assert (Hall : ∀ i, 0 ≤ i < 3 → ubyte (w_mem world3) (page 0) (0 + i) ≠ None).
  { intros i Hi. apply mapped3. unfold PGSIZE. lia. }
  split; [exact Hall|].
  destruct (UserCopy.copyout_copyin (page 0) 0 (λ i, 7 + i) zeroes 3 [] world3 wf3 as3
    ltac:(lia) ltac:(lia) Hall) as (w' & dst' & E1 & E2 & E3).
  exists w', dst'. split_and!; [exact E1|exact E2|]. rewrite E3 by lia. reflexivity.
Defined.

(** The page is zero: the empty string. *)
Lemma copyinstr_reads_witness :
  pt_wf (w_mem world3) (page 0) ∧
  ∃ dst', copyinstr (page 0) (λ _, 1) 8 4 [] world3 = Ret (0, dst') [] world3 ∧ dst' 0 = 0.
Proof.
  split; [exact wf3|].
  destruct (UserCopy.copyinstr_reads (page 0) (λ _, 1) 8 4 [] world3 wf3 ltac:(lia) ltac:(lia))
    as (r & dst' & k & E & _ & C & R).
  assert (H8 : ubyte m3 (page 0) 8 = Some 0) by (unfold ubyte; rewrite uaddr3 by lia; reflexivity).
  assert (k ≤ 0).
  { destruct (decide (k ≤ 0)); [done|]. exfalso. destruct (C 0 ltac:(lia)) as [C1 C2].
    change (w_mem world3) with m3 in C1. rewrite Z.add_0_r, H8 in C1. congruence. }
  exists dst'. destruct R as [(-> & Hk & R1 & R2)|(-> & Hk & R)].
  - split; [exact E|]. assert (k = 0) as -> by lia. exact R2.
  - exfalso. destruct R as [->|R]; [lia|]. assert (k = 0) as -> by lia.
    change (w_mem world3) with m3 in R. rewrite Z.add_0_r, H8 in R. discriminate R.
Defined.

End Sample.
