(* ===== verification/VmUser.v ===== *)
(** * User address spaces: uvmunmap, uvmalloc, uvmdealloc

    [pm_inv] is the ownership discipline of a process's memory: below TRAPFRAME
    every mapped page is a page of RAM that is neither free, nor a page-table
    page, nor mapped twice. *)

From S2P Require Import Prelude Types StringC Spinlock Kalloc PageTable Vm VmCopy.

(** The page mapped at [va], with or without PTE_U. *)
Definition upage (m : bytes) (root va : Z) : option Z :=
  let v := ptw m root va in if pte_valid v then Some (PTE2PA v) else None.

Definition pm_inv `{Layout} (w : world) (root : Z) (free : list Z) : Prop :=
  vm_inv w root free ∧
  (∀ va a, 0 ≤ va < TRAPFRAME → upage (w_mem w) root va = Some a →
     page_ok a ∧ ¬ in_pt (w_mem w) root a ∧ a ∉ free) ∧
  (∀ va va' a, 0 ≤ va < TRAPFRAME → 0 ≤ va' < TRAPFRAME →
     upage (w_mem w) root va = Some a → upage (w_mem w) root va' = Some a → va / PGSIZE = va' / PGSIZE).

(** The translation of [m] is that of [m0] without the [n] pages at [a]. *)
Definition unmaps (m0 m : bytes) (root a n : Z) : Prop :=
  ∀ va, 0 ≤ va < MAXVA →
    ptw m root va = if decide (a ≤ va < a + n * PGSIZE) then 0 else ptw m0 root va.

(** [freed] has been put on the free list: outside those pages and the page
    table, memory is the same. *)
Definition shrinks `{Layout} (root : Z) (w : world) (free : list Z) (w' : world) (freed : list Z) : Prop :=
  pm_inv w' root (freed ++ free) ∧ mem_only w w' ∧
  (∀ path, tpath path → node (w_mem w') root path = node (w_mem w) root path) ∧
  (∀ x, (∀ c, in_pt (w_mem w) root c ∨ c ∈ freed → ¬ (c ≤ x < c + PGSIZE)) → w_mem w' x = w_mem w x).

Lemma TRAPFRAME_MAXVA : TRAPFRAME = MAXVA - 2 * PGSIZE.
Proof. done. Qed.

Lemma upage_ext m m' root va : ptw m' root va = ptw m root va → upage m' root va = upage m root va.
Proof. unfold upage. by intros ->. Qed.

Lemma upage_page m root va va' : va / PGSIZE = va' / PGSIZE → upage m root va = upage m root va'.
Proof. intros E. unfold upage. by rewrite (ptw_page _ _ _ _ E). Qed.

Lemma pt_at_nodes m m' root a :
  (∀ path, tpath path → node m' root path = node m root path) → in_pt m' root a ↔ in_pt m root a.
Proof. intros Hn. split; intros (p & Ht & E); exists p; (split; [done|]); [by rewrite <-Hn|by rewrite Hn]. Qed.

Section Unmap.
Context `{LayoutOk}.

Lemma shrinks_refl root w free : pm_inv w root free → shrinks root w free w [].
Proof. intros Hi. split_and!; [done|apply mem_only_refl|done|done]. Qed.

Lemma shrinks_trans root w1 free w2 fr1 w3 fr2 :
  shrinks root w1 free w2 fr1 → shrinks root w2 (fr1 ++ free) w3 fr2 →
  shrinks root w1 free w3 (fr2 ++ fr1).
Proof.
  intros (I1 & M1 & N1 & O1) (I2 & M2 & N2 & O2). split_and!.
  - by rewrite <-(assoc_L (++)).
  - by eapply mem_only_trans.
  - intros path Ht. by rewrite N2, N1.
  - intros x Hx. rewrite O2, O1; [done| |].
    + intros c [Hc|Hc]; apply Hx; [by left|right; set_solver].
    + intros c [Hc|Hc]; apply Hx; [left; by apply (pt_at_nodes (w_mem w1)) in Hc|right; set_solver].
Qed.

(** The whole translation unchanged but for one page: the discipline follows. *)
Lemma pm_inv_unmap root w w' free free' a pa :
  pm_inv w root free → vm_inv w' root free' →
  (∀ path, tpath path → node (w_mem w') root path = node (w_mem w) root path) →
  0 ≤ a < TRAPFRAME → a `mod` PGSIZE = 0 → upage (w_mem w) root a = Some pa →
  unmaps (w_mem w) (w_mem w') root a 1 → (∀ c, c ∈ free' → c = pa ∨ c ∈ free) →
  pm_inv w' root free'.
Proof.
  intros (_ & Hp & Hinj) Hi Hn Ha Hm Epa Hun Hfree.
  assert (Hup : ∀ va b, 0 ≤ va < TRAPFRAME → upage (w_mem w') root va = Some b →
                upage (w_mem w) root va = Some b ∧ va / PGSIZE ≠ a / PGSIZE).
  { intros va b Hva. unfold upage. rewrite Hun by (rewrite TRAPFRAME_MAXVA in *; unfold PGSIZE in *; lia).
    case_decide as Hd; [done|]. intros E. split; [done|]. rewrite div_page by done. lia. }
  split_and!; [done| |].
  - intros va b Hva [E Hd]%Hup; [|done]. destruct (Hp va b Hva E) as (P1 & P2 & P3).
    split_and!; [done|by rewrite (pt_at_nodes (w_mem w))|].
    intros [->|Hc]%Hfree; [|done]. apply Hd. by apply (Hinj va a pa).
  - intros va va' b Hva Hva' [E _]%Hup [E' _]%Hup; [|done..]. by apply (Hinj va va' b).
Qed.

(** The state after kfree of the page [b]. *)
Definition gave (w : world) (b : Z) : world :=
  set_freelist b (set_mem (freed_mem w b) (settle w)).

Lemma gave_facts root w f b :
  vm_inv w root f → page_ok b → ¬ in_pt (w_mem w) root b → b ∉ f →
  vm_inv (gave w b) root (b :: f) ∧ mem_only w (gave w b) ∧
  same_outside b (w_mem w) (w_mem (gave w b)) ∧
  (∀ path, tpath path → node (w_mem (gave w b)) root path = node (w_mem w) root path) ∧
  (∀ va, ptw (w_mem (gave w b)) root va = ptw (w_mem w) root va).
Proof.
  intros (Hk & Hwf & Hdis & Hok & Hlk) Hpage Hnin Hnf.
  destruct (freed_inv _ _ _ Hk Hpage Hnf) as [Hk1 Hout].
  assert (Hfr : ∀ c x, in_pt (w_mem w) root c → c ≤ x < c + PGSIZE → w_mem (gave w b) x = w_mem w x).
  { intros c x Hc Hx. unfold gave. rsimpl. apply Hout. pose proof Hc as (pc & Htc & Epc).
    destruct (proj1 Hwf _ _ Htc Epc) as [Mc _], Hpage as [Mp _].
    assert (c ≠ b) by (intros ->; done). destruct (pages_apart c b); try done; lia. }
  assert (Hn1 : ∀ path, tpath path → node (w_mem (gave w b)) root path = node (w_mem w) root path)
    by (intros; by apply node_frame).
  split_and!; [|exact (mem_only_settle w (freed_mem w b) b)|done|done|intros va; by apply ptw_frame].
  split_and!; [done|by eapply pt_wf_nodes| |by apply (settle_cpu_ok w)|done].
  intros c Hc%(pt_at_nodes (w_mem w)); [|done].
  intros [->|Hx]%elem_of_cons; [done|by apply (Hdis c)].
Qed.

(** One round of uvmunmap with do_free. *)
Lemma unmap_one root a v q w free :
  pm_inv w root free → 0 ≤ a < TRAPFRAME → a `mod` PGSIZE = 0 →
  node (w_mem w) root [PX 2 a; PX 1 a] = Some q → v = ptw (w_mem w) root a → pte_valid v = true →
  let w1 := gave w (PTE2PA v) in
  let w' := set_mem (st64 (w_mem w1) (pte_at q (PX 0 a)) 0) w1 in
  shrinks root w free w' [PTE2PA v] ∧ unmaps (w_mem w) (w_mem w') root a 1.
Proof.
  intros Hpm Ha Hm Eq Ev Hv w1 w'. pose proof Hpm as (Hvm & Hp & Hinj).
  assert (Eup : upage (w_mem w) root a = Some (PTE2PA v)).
  { unfold upage. by rewrite <-Ev, Hv. }
  destruct (Hp a _ Ha Eup) as (Hpage & Hnin & Hnf).
  destruct (gave_facts root w free (PTE2PA v) Hvm Hpage Hnin Hnf) as (Hvm1 & M1 & Hout & Hn1 & Ht1).
  fold w1 in Hvm1, M1, Hout, Hn1, Ht1.
  assert (Eq1 : node (w_mem w1) root [PX 2 a; PX 1 a] = Some q) by (by rewrite Hn1).
  pose proof (leaf_store root a q 0 w1 _ Hvm1 Eq1) as (Hvm2 & M2 & _). fold w' in Hvm2, M2.
  assert (Hun : unmaps (w_mem w) (w_mem w') root a 1).
  { intros va Hva. unfold w'. rsimpl.
    rewrite (ptw_leaf_store (w_mem w1) root a q 0 va);
      [|apply Hvm1|done|rewrite TRAPFRAME_MAXVA in *; unfold PGSIZE in *; lia|done|lia].
    rewrite Z.mul_1_l. destruct (decide (a ≤ va < a + PGSIZE)).
    - rewrite decide_True by (by apply div_page). done.
    - rewrite decide_False by (by rewrite div_page). apply Ht1. }
  assert (Hn2 : ∀ path, tpath path → node (w_mem w') root path = node (w_mem w) root path).
  { intros path Ht. unfold w'. rsimpl.
    pose proof (PX_range 0 a ltac:(lia)).
    rewrite (leaf_store_nodes (w_mem w1) root [PX 2 a; PX 1 a])
      by (done || apply Hvm1 || apply tpath_2). by apply Hn1. }
  split; [|done]. split_and!.
  - refine (pm_inv_unmap root w w' free _ a (PTE2PA v) Hpm Hvm2 Hn2 Ha Hm Eup Hun _).
    intros c [->|Hc]%elem_of_cons; [by left|by right].
  - exact (mem_only_trans _ _ _ M1 M2).
  - exact Hn2.
  - intros x Hx. pose proof (pte_at_in q (PX 0 a) (PX_range 0 a ltac:(lia))).
    assert (Hq : ¬ (q ≤ x < q + PGSIZE)) by (apply Hx; left; by exists [PX 2 a; PX 1 a]).
    unfold w'. rsimpl. unfold st64. rewrite st_out by lia. apply Hout.
    apply Hx. right. by left.
Qed.

Lemma ptw_valid_node m root va :
  pte_valid (ptw m root va) = true →
  ∃ q, node m root [PX 2 va; PX 1 va] = Some q ∧ ptw m root va = ld64 m (pte_at q (PX 0 va)).
Proof. unfold ptw. destruct (node m root _) as [q|]; [by eauto|done]. Qed.

(** walk on a mapped page. *)
Lemma walk_mapped root va env w :
  pt_wf (w_mem w) root → va < MAXVA → pte_valid (ptw (w_mem w) root va) = true →
  ∃ q, node (w_mem w) root [PX 2 va; PX 1 va] = Some q
    ∧ walk root va false env w = Ret (pte_at q (PX 0 va)) env w
    ∧ (pte_at q (PX 0 va) =? 0) = false
    ∧ ld64 (w_mem w) (pte_at q (PX 0 va)) = ptw (w_mem w) root va.
Proof.
  intros Hwf Hva Hv. destruct (ptw_valid_node _ _ _ Hv) as (q & Eq & Ev). exists q.
  split_and!; [done|by rewrite walk_noalloc, Eq| |done].
  apply Z.eqb_neq. pose proof (page_ok_pos _ (proj1 Hwf _ _ (tpath_2 va) Eq)).
  pose proof (PX_range 0 va ltac:(lia)). unfold pte_at. lia.
Qed.

(** The [n] pages at [a] are mapped by leaf entries. *)
Definition leaves (m : bytes) (root a n : Z) : Prop :=
  ∀ va, a ≤ va < a + n * PGSIZE →
    pte_valid (ptw m root va) = true ∧ PTE_FLAGS (ptw m root va) ≠ PTE_V.

Lemma pte_valid_test v : pte_valid v = true → (Z.land v PTE_V =? 0) = false.
Proof. unfold pte_valid, nz. by intros ->%negb_true_iff. Qed.

Lemma next_page a : a `mod` PGSIZE = 0 → (a + PGSIZE) `mod` PGSIZE = 0.
Proof. intros Ha. rewrite <-Z.add_mod_idemp_r, Z_mod_same_full, Z.add_0_r by done. done. Qed.

Lemma unmaps_cons m0 m1 m2 root a n :
  0 ≤ n → unmaps m0 m1 root a 1 → unmaps m1 m2 root (a + PGSIZE) n → unmaps m0 m2 root a (1 + n).
Proof.
  intros Hn H1 H2 va Hva. rewrite H2, H1 by done.
  repeat case_decide; try done; unfold PGSIZE in *; lia.
Qed.

Lemma uvmunmap_loop_run (n : nat) fuel root a env w free :
  pm_inv w root free → a `mod` PGSIZE = 0 → 0 ≤ a → a + Z.of_nat n * PGSIZE ≤ TRAPFRAME →
  (n < fuel)%nat → leaves (w_mem w) root a (Z.of_nat n) →
  wp (uvmunmap_loop fuel root a (a + Z.of_nat n * PGSIZE) true) env w (λ _ e w', e = env ∧ ∃ freed,
    shrinks root w free w' freed ∧ unmaps (w_mem w) (w_mem w') root a (Z.of_nat n)
    ∧ (∀ c, c ∈ freed → ∃ va, a ≤ va < a + Z.of_nat n * PGSIZE ∧ upage (w_mem w) root va = Some c)
    ∧ (∀ va c, a ≤ va < a + Z.of_nat n * PGSIZE → upage (w_mem w) root va = Some c → c ∈ freed)).
Proof.
  revert fuel a w free. induction n as [|n IH]; intros fuel a w free Hpm Hm Ha Hmax Hf Hl;
    (destruct fuel as [|fuel]; [lia|]); cbn [uvmunmap_loop].
  { rewrite Z.add_0_r, Z.ltb_irrefl. cbn [negb]. mstep. split; [done|]. exists [].
    split_and!; [by apply shrinks_refl|intros va Hva; by rewrite decide_False by lia|set_solver|lia]. }
  pose proof TRAPFRAME_MAXVA as HT. assert (HM : MAXVA = 2 ^ 38) by done.
  rewrite (proj2 (Z.ltb_lt _ _)) by (unfold PGSIZE; lia). cbn [negb].
  pose proof Hpm as ((Hk & Hwf & Hdis & Hok & Hlk) & Hp & Hinj).
  destruct (Hl a ltac:(unfold PGSIZE; lia)) as [Hv Hfl].
  destruct (walk_mapped root a env w Hwf ltac:(unfold PGSIZE in *; lia) Hv) as (q & Eq & Ew & Ene & Ev).
  mstep. eapply wp_intro; [exact Ew|]. cbv beta. rewrite Ene. unfold ld64_k. msteps. rewrite Ev.
  rewrite pte_valid_test by done. rewrite (proj2 (Z.eqb_neq _ _)) by done. unfold when. mstep.
  assert (Eup : upage (w_mem w) root a = Some (PTE2PA (ptw (w_mem w) root a))).
  { unfold upage. by rewrite Hv. }
  destruct (Hp a _ ltac:(unfold PGSIZE in *; lia) Eup) as (Hpage & Hnin & Hnf).
  mcall kfree_run. unfold st64_k. msteps.
  destruct (unmap_one root a _ q w free Hpm ltac:(unfold PGSIZE in *; lia) Hm Eq eq_refl Hv) as (S1 & U1).
  rewrite u64_small by (unfold PGSIZE in *; lia).
  set (w1 := set_mem (st64 _ _ 0) _) in S1, U1 |- *. clearbody w1.
  replace (a + Z.of_nat (S n) * PGSIZE) with ((a + PGSIZE) + Z.of_nat n * PGSIZE) by (unfold PGSIZE; lia).
  eapply wp_mono; [eapply IH; [apply S1|by apply next_page|unfold PGSIZE in *; lia..|]|].
  { intros va Hva. rewrite U1 by (unfold PGSIZE in *; lia).
    rewrite decide_False by lia. apply Hl. unfold PGSIZE in *; lia. }
  intros _ e w' (-> & freed & S2 & U2 & F1 & F2). split; [done|].
  exists (freed ++ [PTE2PA (ptw (w_mem w) root a)]).
  assert (Hsame : ∀ va, a + PGSIZE ≤ va < a + PGSIZE + Z.of_nat n * PGSIZE →
    upage (w_mem w1) root va = upage (w_mem w) root va).
  { intros va Hva. apply upage_ext. rewrite U1 by (unfold PGSIZE in *; lia). rewrite decide_False by lia. done. }
  replace (Z.of_nat (S n)) with (1 + Z.of_nat n) by lia.
  split_and!.
  - by eapply shrinks_trans.
  - by eapply unmaps_cons; [lia|..].
  - intros c [Hc|Hc]%elem_of_app.
    + destruct (F1 c Hc) as (va & Hva & E). rewrite Hsame in E by done. exists va. split; [unfold PGSIZE in *; lia|done].
    + apply list_elem_of_singleton in Hc as ->. exists a. split; [unfold PGSIZE in *; lia|done].
  - intros va c Hva E. apply elem_of_app. destruct (decide (va < a + PGSIZE)).
    + right. apply list_elem_of_singleton. rewrite (upage_page _ _ va a), Eup in E by (apply div_page; [done|lia]).
      congruence.
    + left. apply (F2 va); [unfold PGSIZE in *; lia|]. by rewrite Hsame by (unfold PGSIZE in *; lia).
Qed.

Lemma uvmunmap_run n root a env w free :
  pm_inv w root free → a `mod` PGSIZE = 0 → 0 ≤ a → 0 ≤ n → a + n * PGSIZE ≤ TRAPFRAME →
  leaves (w_mem w) root a n →
  wp (uvmunmap root a n true) env w (λ _ e w', e = env ∧ ∃ freed,
    shrinks root w free w' freed ∧ unmaps (w_mem w) (w_mem w') root a n
    ∧ (∀ c, c ∈ freed → ∃ va, a ≤ va < a + n * PGSIZE ∧ upage (w_mem w) root va = Some c)
    ∧ (∀ va c, a ≤ va < a + n * PGSIZE → upage (w_mem w) root va = Some c → c ∈ freed)).
Proof.
  intros Hpm Hm Ha Hn Hmax Hl. unfold uvmunmap. rewrite Hm, Z.eqb_refl. cbn [negb].
  pose proof TRAPFRAME_MAXVA as HT. assert (HM : MAXVA = 2 ^ 38) by done.
  rewrite u64_small by (unfold PGSIZE in *; lia).
  replace n with (Z.of_nat (Z.to_nat n)) in Hl, Hmax |- * by lia.
  apply uvmunmap_loop_run; try done.
  assert (n ≤ (a + n * PGSIZE) / PGSIZE).
  { apply Z.div_le_lower_bound; [done|lia]. }
  replace (Z.of_nat (Z.to_nat n)) with n by lia. lia.
Qed.

(** PGROUNDUP within the user range. *)
Lemma PGROUNDUP_user x :
  0 ≤ x ≤ TRAPFRAME → PGROUNDUP x `mod` PGSIZE = 0 ∧ x ≤ PGROUNDUP x < x + PGSIZE ∧ PGROUNDUP x ≤ TRAPFRAME.
Proof.
  intros Hx. pose proof TRAPFRAME_MAXVA. assert (MAXVA = 2 ^ 38) by done.
  destruct (Alloc.PGROUNDUP_spec x) as [R1 R2]; [unfold PGSIZE in *; lia|]. split_and!; try lia.
  assert (TRAPFRAME `mod` PGSIZE = 0) by done. unfold PGSIZE in *.
  Z.to_euclidean_division_equations. lia.
Qed.

Lemma uvmdealloc_run root oldsz newsz env w free :
  pm_inv w root free → 0 ≤ newsz → newsz ≤ oldsz ≤ TRAPFRAME →
  let a := PGROUNDUP newsz in
  let n := (PGROUNDUP oldsz - a) / PGSIZE in
  leaves (w_mem w) root a n →
  wp (uvmdealloc root oldsz newsz) env w (λ r e w', e = env ∧ r = newsz ∧ ∃ freed,
    shrinks root w free w' freed ∧ unmaps (w_mem w) (w_mem w') root a n
    ∧ (∀ c, c ∈ freed → ∃ va, a ≤ va < a + n * PGSIZE ∧ upage (w_mem w) root va = Some c)
    ∧ (∀ va c, a ≤ va < a + n * PGSIZE → upage (w_mem w) root va = Some c → c ∈ freed)).
Proof.
  intros Hpm Hn Ho a n Hl. unfold uvmdealloc.
  destruct (PGROUNDUP_user newsz) as (A1 & A2 & A3); [lia|].
  destruct (PGROUNDUP_user oldsz) as (B1 & B2 & B3); [lia|].
  pose proof TRAPFRAME_MAXVA as HT. assert (HM : MAXVA = 2 ^ 38) by done.
  assert (Hab : a + n * PGSIZE = PGROUNDUP oldsz ∧ 0 ≤ n ∧ (n = 0 ↔ PGROUNDUP oldsz = a)).
  { unfold n, a in *. assert (newsz ≤ oldsz) by lia. clear Hl. unfold PGSIZE in *.
    Z.to_euclidean_division_equations. lia. }
  destruct Hab as (Hab & Hn0 & Hnz).
  assert (Hsame : n = 0 → ∃ freed, shrinks root w free w freed ∧ unmaps (w_mem w) (w_mem w) root a n
    ∧ (∀ c, c ∈ freed → ∃ va, a ≤ va < a + n * PGSIZE ∧ upage (w_mem w) root va = Some c)
    ∧ (∀ va c, a ≤ va < a + n * PGSIZE → upage (w_mem w) root va = Some c → c ∈ freed)).
  { intros ->. exists []. split_and!; [by apply shrinks_refl|intros va Hva; by rewrite decide_False by lia|set_solver|lia]. }
  destruct (Z.leb_spec oldsz newsz) as [Hle|Hlt].
  - assert (newsz = oldsz) as -> by lia. mstep. split_and!; [done|done|]. apply Hsame, Hnz. done.
  - destruct (Z.ltb_spec (PGROUNDUP newsz) (PGROUNDUP oldsz)) as [Hr|Hr]; unfold when; mstep.
    + fold a n. rewrite i32_small, u64_small by (unfold PGSIZE in *; lia).
      eapply wp_mono; [eapply uvmunmap_run; try done; unfold a; lia|].
      intros _ e w' (-> & H'). mstep. by split_and!.
    + mstep. mstep. split_and!; [done|done|]. apply Hsame, Hnz. unfold a. unfold PGSIZE in *.
      Z.to_euclidean_division_equations. lia.
Qed.

End Unmap.

(** ** uvmalloc *)

Definition uperm : Z := Z.lor (Z.lor (Z.lor PTE_W PTE_X) PTE_R) PTE_U.

(** From [w0], the [n] pages at [a0] have been mapped to fresh pages with the
    permissions [perm] and the contents [byte] (by virtual address); the other
    translations and the memory of others are unchanged, and no page was lost. *)
Definition filled_with `{Layout} (perm byte : Z → Z) (root : Z) (w0 : world) (free0 : list Z) (w : world) (free : list Z) (a0 n : Z) : Prop :=
  pm_inv w root free ∧ mem_only w0 w ∧
  (∀ va, 0 ≤ va < MAXVA → a0 ≤ va < a0 + n * PGSIZE →
     ∃ pg, ptw (w_mem w) root va = Z.lor (Z.lor (PA2PTE pg) (perm va)) PTE_V ∧ page_ok pg ∧ pg ∈ free0
           ∧ w_mem w (pg + va `mod` PGSIZE) = byte va) ∧
  (∀ va, 0 ≤ va < MAXVA → ¬ (a0 ≤ va < a0 + n * PGSIZE) → ptw (w_mem w) root va = ptw (w_mem w0) root va) ∧
  (∀ c, in_pt (w_mem w) root c → in_pt (w_mem w0) root c ∨ c ∈ free0) ∧
  (∀ c, c ∈ free → c ∈ free0) ∧
  (∀ c, in_pt (w_mem w0) root c → in_pt (w_mem w) root c) ∧
  (∀ c, c ∈ free0 → c ∈ free ∨ in_pt (w_mem w) root c
        ∨ ∃ va, a0 ≤ va < a0 + n * PGSIZE ∧ upage (w_mem w) root va = Some c) ∧
  (∀ x, (∀ c, in_pt (w_mem w0) root c ∨ c ∈ free0 → ¬ (c ≤ x < c + PGSIZE)) → w_mem w x = w_mem w0 x).

Section Take.
Context `{LayoutOk}.

(** The page an entry with such flags maps. *)
Lemma uentry m root va pg f :
  page_ok pg → 0 ≤ f < 2 ^ 10 → ptw m root va = Z.lor (Z.lor (PA2PTE pg) f) PTE_V → upage m root va = Some pg.
Proof.
  intros Hpg Hf E. unfold upage. rewrite E, entry_valid, <-Z.lor_assoc. f_equal.
  pose proof (page_ok_pos _ Hpg). destruct Hpg. apply PTE2PA_entry; [done| |by apply lor_small].
  unfold PHYSTOP, KERNBASE in *. lia.
Qed.

Lemma apart_bytes c d x :
  c `mod` PGSIZE = 0 → d `mod` PGSIZE = 0 → c ≠ d → c ≤ x < c + PGSIZE → ¬ (d ≤ x < d + PGSIZE).
Proof. intros Hc Hd Hne Hx Hx'. destruct (pages_apart c d); try done; lia. Qed.

(** A page that is neither free nor in the table keeps its contents. *)
Lemma grows_page root w f w' f' c x :
  vm_inv w root f → grows root w f w' f' → page_ok c → ¬ in_pt (w_mem w) root c → c ∉ f →
  c ≤ x < c + PGSIZE → w_mem w' x = w_mem w x.
Proof.
  intros ((_ & Hpf & _) & Hwf & _) (_ & _ & _ & _ & Ho) [Mc _] Hnin Hnf Hx. apply Ho.
  intros d [Hd|Hd].
  - pose proof Hd as (p & Ht & E). destruct (proj1 Hwf _ _ Ht E) as [Md _].
    apply (apart_bytes c d); try done. by intros ->.
  - rewrite Forall_forall in Hpf. destruct (Hpf d Hd) as [Md _].
    apply (apart_bytes c d); try done. by intros ->.
Qed.

(** The state in which kalloc has returned [b] and it has been filled from [src]. *)
Definition took (w : world) (b : Z) (src : bytes) (s : Z) : world :=
  set_mem (mem_copy (mem_fill (w_mem w) b PGSIZE 5) b src s PGSIZE) (set_freelist (ld64 (w_mem w) b) (settle w)).

Lemma took_facts root w b f src s :
  vm_inv w root (b :: f) →
  vm_inv (took w b src s) root f ∧ mem_only w (took w b src s) ∧ page_ok b ∧ b ∉ f ∧ ¬ in_pt (w_mem w) root b ∧
  (∀ x, b ≤ x < b + PGSIZE → w_mem (took w b src s) x = src (x - b + s)) ∧
  same_outside b (w_mem w) (w_mem (took w b src s)) ∧
  (∀ path, tpath path → node (w_mem (took w b src s)) root path = node (w_mem w) root path) ∧
  (∀ va, ptw (w_mem (took w b src s)) root va = ptw (w_mem w) root va).
Proof.
  intros (Hk & Hwf & Hdis & Hok & Hlk).
  destruct (alloc_inv _ _ _ Hk) as (Ehead & Hpb & Hbf & (Hfl & Hpf & Hnd)).
  assert (Hnin : ¬ in_pt (w_mem w) root b) by (intros Hx%Hdis; set_solver).
  assert (Hs : same_outside b (w_mem w) (w_mem (took w b src s))).
  { intros x Hx. unfold took. rsimpl. by rewrite mem_copy_out, mem_fill_out. }
  assert (Hfr : ∀ c x, in_pt (w_mem w) root c → c ≤ x < c + PGSIZE → w_mem (took w b src s) x = w_mem w x).
  { intros c x Hc Hx. apply Hs. pose proof Hc as (p & Ht & E).
    destruct (proj1 Hwf _ _ Ht E) as [Md _], Hpb as [Mb _].
    apply (apart_bytes c b); try done. by intros ->. }
  assert (Hn : ∀ path, tpath path → node (w_mem (took w b src s)) root path = node (w_mem w) root path)
    by (intros; by apply node_frame).
  split_and!; try done.
  - split_and!; [split_and!; [|done|done]|by eapply pt_wf_nodes| |by apply (settle_cpu_ok w)|done].
    + revert Hfl. unfold took. rsimpl. apply (flist_outside _ _ b); try done.
      intros x Hx. by rewrite mem_copy_out.
    + intros c Hc%(pt_at_nodes (w_mem w)); [|done]. intros Hcf. apply (Hdis c Hc). set_solver.
  - apply mem_only_settle.
  - intros x Hx. unfold took. rsimpl. by rewrite mem_copy_in.
  - intros va. by apply ptw_frame.
Qed.

End Take.

Section Grow.
Context `{LayoutOk} (perm byte : Z → Z).
Context (Hperm : ∀ va, 0 ≤ perm va < 2 ^ 10).
Context (Hpage : ∀ va va', va / PGSIZE = va' / PGSIZE → perm va = perm va').
#[local] Abbreviation filled := (filled_with perm byte) (only parsing).

(** A fresh page has been mapped at [a]. *)
Lemma map_fresh root w b f w2 f2 a src s :
  pm_inv w root (b :: f) → grows root (took w b src s) f w2 f2 →
  maps (w_mem (took w b src s)) (w_mem w2) root a 1 b (perm a) →
  0 ≤ a → a + PGSIZE ≤ TRAPFRAME → a `mod` PGSIZE = 0 →
  pm_inv w2 root f2.
Proof.
  intros (Hvm & Hp & Hinj) G M Ha Hmax Hm.
  destruct (took_facts root w b f src s Hvm) as (Hvm1 & Hmo & Hpb & Hbf & Hnin & Hz & Hs & Hn & Ht).
  pose proof TRAPFRAME_MAXVA as HT. pose proof (page_ok_pos _ Hpb).
  pose proof G as (Hvm2 & _ & Hsuf & Hpt & _).
  assert (Hf2 : ∀ c, c ∈ f2 → c ∈ f) by (intros c Hc; destruct Hsuf as [u ->]; set_solver).
  assert (Hup : ∀ va c, 0 ≤ va < TRAPFRAME → upage (w_mem w2) root va = Some c →
    va / PGSIZE = a / PGSIZE ∧ c = b ∨ upage (w_mem w) root va = Some c ∧ c ≠ b).
  { intros va c Hva. pose proof (M va ltac:(unfold PGSIZE in *; lia)) as Mva. case_decide as Hd.
    - assert (E : va / PGSIZE = a / PGSIZE) by (apply div_page; [done|lia]).
      replace (b + (va / PGSIZE * PGSIZE - a)) with b in Mva
        by (rewrite E; unfold PGSIZE in *; Z.to_euclidean_division_equations; lia).
      rewrite (uentry _ _ _ b (perm a)) by done. intros [= <-]. by left.
    - rewrite (upage_ext (w_mem w)) by (by rewrite Mva). intros E. right. split; [done|]. intros ->.
      destruct (Hp va b Hva E) as (_ & _ & Hx). set_solver. }
  assert (Hnp : ∀ c, ¬ in_pt (w_mem w) root c → c ∉ f → ¬ in_pt (w_mem w2) root c).
  { intros c Hc Hcf. rewrite Hpt, (pt_at_nodes (w_mem w)) by done. naive_solver. }
  split_and!; [done| |].
  - intros va c Hva [[_ ->]|[E Hne]]%Hup; [| |done].
    + split_and!; [done|by apply Hnp|naive_solver].
    + destruct (Hp va c Hva E) as (P1 & P2 & P3). split_and!; [done|apply Hnp; set_solver|set_solver].
  - intros va va' c Hva Hva' [[E1 ->]|[E1 N1]]%Hup [[E2 ?]|[E2 N2]]%Hup; try done; [congruence|].
    by apply (Hinj va va' c).
Qed.

Lemma filled_step root w0 free0 w b f w2 f2 a0 n src s :
  filled root w0 free0 w (b :: f) a0 n → grows root (took w b src s) f w2 f2 →
  maps (w_mem (took w b src s)) (w_mem w2) root (a0 + n * PGSIZE) 1 b (perm (a0 + n * PGSIZE)) →
  (∀ va, a0 + n * PGSIZE ≤ va < a0 + (n + 1) * PGSIZE → byte va = src (va - (a0 + n * PGSIZE) + s)) →
  0 ≤ a0 → 0 ≤ n → a0 + (n + 1) * PGSIZE ≤ TRAPFRAME → a0 `mod` PGSIZE = 0 →
  filled root w0 free0 w2 f2 a0 (n + 1).
Proof.
  intros (Hpm & Hmo & Hin & Hout & Hpt & Hf & Hmono & Hlost & Hmem) G M Hby Ha Hn Hmax Hm.
  set (a := a0 + n * PGSIZE) in *. assert (Ham : a `mod` PGSIZE = 0) by (unfold a; by rewrite Z.mod_add).
  pose proof Hpm as (Hvm & Hp & Hinj).
  destruct (took_facts root w b f src s Hvm) as (Hvm1 & Hmo1 & Hpb & Hbf & Hnin & Hz & Hs & Hn1 & Ht).
  pose proof G as (Hvm2 & Hmo2 & Hsuf & Hpt2 & Hmem2).
  pose proof TRAPFRAME_MAXVA as HT.
  assert (Hf2 : ∀ c, c ∈ f2 → c ∈ f) by (intros c Hc; destruct Hsuf as [u ->]; set_solver).
  assert (Hpt1 : ∀ c, in_pt (w_mem (took w b src s)) root c ↔ in_pt (w_mem w) root c) by (intros; by apply pt_at_nodes).
  assert (Hb0 : b ∈ free0) by (apply Hf; set_solver).
  assert (Hptw2 : ∀ va, 0 ≤ va < MAXVA → ¬ (a ≤ va < a + PGSIZE) → ptw (w_mem w2) root va = ptw (w_mem w) root va).
  { intros va Hva Hd. by rewrite M, decide_False, Ht by lia. }
  assert (Hptwa : ∀ va, 0 ≤ va < MAXVA → a ≤ va < a + PGSIZE → ptw (w_mem w2) root va = Z.lor (Z.lor (PA2PTE b) (perm va)) PTE_V).
  { intros va Hva Hd. rewrite M, decide_True by lia. rewrite (Hpage va a) by (apply div_page; [done|lia]). do 3 f_equal.
    assert (va / PGSIZE = a / PGSIZE) as -> by (apply div_page; [done|lia]).
    unfold PGSIZE in *; Z.to_euclidean_division_equations; lia. }
  split_and!.
  - eapply map_fresh; try done; unfold a, PGSIZE in *; lia.
  - by do 2 (eapply mem_only_trans; [done|]).
  - intros va Hva Hr. destruct (decide (a ≤ va < a + PGSIZE)) as [Hd|Hd].
    + exists b. split_and!; [by apply Hptwa|done|done|]. pose proof (page_off va) as Hoff.
      rewrite (grows_page _ _ _ _ _ b _ Hvm1 G); [|done|by rewrite Hpt1|done|lia].
      rewrite Hz, Hby by (unfold a, PGSIZE in *; lia). f_equal.
      unfold PGSIZE in *. Z.to_euclidean_division_equations. lia.
    + destruct (Hin va Hva) as (pg & E & Hpg & Hpf & Hpz); [unfold a, PGSIZE in *; lia|].
      exists pg. rewrite Hptw2 by done. split_and!; [done..|]. pose proof (page_off va) as Hoff.
      destruct (Hp va pg) as (_ & P2 & P3); [unfold a, PGSIZE in *; lia|by apply (uentry _ _ _ _ (perm va))|].
      rewrite (grows_page _ _ _ _ _ pg _ Hvm1 G); [|done|by rewrite Hpt1|set_solver|lia].
      rewrite Hs; [done|]. apply (apart_bytes pg b); [apply Hpg|apply Hpb|set_solver|lia].
  - intros va Hva Hr. rewrite Hptw2 by (unfold a, PGSIZE in *; lia). apply Hout; [done|].
    unfold a, PGSIZE in *; lia.
  - intros c. rewrite Hpt2, Hpt1. intros [Hc|[Hc _]]; [by apply Hpt|]. right. apply Hf. set_solver.
  - intros c Hc. apply Hf. set_solver.
  - intros c Hc. rewrite Hpt2, Hpt1. left. by apply Hmono.
  - intros c Hc. rewrite Hpt2, Hpt1. destruct (Hlost c Hc) as [Hx|[Hx|(va & Hva & E)]].
    + apply elem_of_cons in Hx as [->|Hx].
      * right; right. exists a. split; [unfold a, PGSIZE in *; lia|]. apply (uentry _ _ _ _ (perm a)); [done|done|].
        apply Hptwa; unfold a, PGSIZE in *; lia.
      * destruct (decide (c ∈ f2)); [by left|]. right; left. by right.
    + right; left. by left.
    + right; right. exists va. split; [unfold PGSIZE in *; lia|]. rewrite <-E. apply upage_ext, Hptw2;
      unfold a, PGSIZE in *; lia.
  - intros x Hx. rewrite Hmem2.
    + rewrite Hs; [by apply Hmem|]. apply Hx. by right.
    + intros c. rewrite Hpt1. intros [Hc|Hc]; apply Hx; [by apply Hpt|right; apply Hf; set_solver].
Qed.

(** mappages ran out of memory and the page is given back. *)
Lemma filled_back root w0 free0 w b f w2 a0 n src s :
  filled root w0 free0 w (b :: f) a0 n → grows root (took w b src s) f w2 [] →
  (∀ va, 0 ≤ va < MAXVA → ptw (w_mem w2) root va = ptw (w_mem (took w b src s)) root va) →
  0 ≤ a0 → a0 + n * PGSIZE ≤ TRAPFRAME →
  page_ok b ∧ cpu_ok w2 ∧ lk_free w2 LKmem ∧ filled root w0 free0 (gave w2 b) [b] a0 n.
Proof.
  intros (Hpm & Hmo & Hin & Hout & Hpt & Hf & Hmono & Hlost & Hmem) G T2 Ha Hmax.
  pose proof Hpm as (Hvm & Hp & Hinj). pose proof TRAPFRAME_MAXVA as HT.
  destruct (took_facts root w b f src s Hvm) as (Hvm1 & Hmo1 & Hpb & Hbf & Hnin & Hz & Hs & Hn1 & Ht).
  pose proof G as (Hvm2 & Hmo2 & _ & Hpt2 & Hmem2).
  assert (Hpt1 : ∀ c, in_pt (w_mem (took w b src s)) root c ↔ in_pt (w_mem w) root c) by (intros; by apply pt_at_nodes).
  assert (Hnin2 : ¬ in_pt (w_mem w2) root b) by (rewrite Hpt2, Hpt1; naive_solver).
  destruct (gave_facts root w2 [] b Hvm2 Hpb Hnin2 ltac:(set_solver)) as (Hvm3 & Hmo3 & Ho3 & Hn3 & Ht3).
  assert (Hpt3 : ∀ c, in_pt (w_mem (gave w2 b)) root c ↔ in_pt (w_mem w) root c ∨ c ∈ f).
  { intros c. rewrite (pt_at_nodes (w_mem w2)) by done. rewrite Hpt2, Hpt1. set_solver. }
  assert (Hptw : ∀ va, 0 ≤ va < MAXVA → ptw (w_mem (gave w2 b)) root va = ptw (w_mem w) root va).
  { intros va Hva. by rewrite Ht3, T2, Ht. }
  assert (Hup : ∀ va, 0 ≤ va < TRAPFRAME → upage (w_mem (gave w2 b)) root va = upage (w_mem w) root va).
  { intros va Hva. apply upage_ext, Hptw. unfold PGSIZE in *. lia. }
  assert (Hkeep : ∀ c x, page_ok c → ¬ in_pt (w_mem w) root c → c ∉ b :: f → c ≤ x < c + PGSIZE →
    w_mem (gave w2 b) x = w_mem w x).
  { intros c x Hc Hci Hcf Hx. assert (Hcb : ¬ (b ≤ x < b + PGSIZE)).
    { apply (apart_bytes c b); [apply Hc|apply Hpb|set_solver|done]. }
    rewrite Ho3, (grows_page _ _ _ _ _ c x Hvm1 G), Hs; try done; [by rewrite Hpt1|set_solver]. }
  split_and!; [done|apply Hvm2|apply Hvm2|]. split_and!.
  - split_and!; [done| |].
    + intros va c Hva. rewrite Hup by done. intros E.
      destruct (Hp va c Hva E) as (P1 & P2 & P3). rewrite Hpt3. split_and!; [done|set_solver|set_solver].
    + intros va va' c Hva Hva'. rewrite !Hup by done. by apply (Hinj va va' c).
  - do 2 (eapply mem_only_trans; [done|]). by eapply mem_only_trans.
  - intros va Hva Hr. rewrite Hptw by done. destruct (Hin va Hva Hr) as (pg & E & Hpg & Hpf & Hpz).
    destruct (Hp va pg) as (_ & P2 & P3); [lia|by apply (uentry _ _ _ _ (perm va))|].
    exists pg. split_and!; [done..|]. pose proof (page_off va). by rewrite (Hkeep pg) by (done || lia).
  - intros va Hva Hr. rewrite Hptw by done. by apply Hout.
  - intros c. rewrite Hpt3. intros [Hc|Hc]; [by apply Hpt|right; apply Hf; set_solver].
  - intros c Hc. apply Hf. set_solver.
  - intros c Hc. rewrite Hpt3. left. by apply Hmono.
  - intros c Hc. rewrite Hpt3. destruct (Hlost c Hc) as [Hx|[Hx|(va & Hva & E)]]; [set_solver|by auto|].
    right; right. exists va. split; [done|]. rewrite <-E. apply Hup. lia.
  - intros x Hx. rewrite Ho3 by (apply Hx; right; apply Hf; set_solver). rewrite Hmem2.
    + rewrite Hs; [by apply Hmem|]. apply Hx. right. apply Hf. set_solver.
    + intros c. rewrite Hpt1. intros [Hc|Hc]; apply Hx; [by apply Hpt|right; apply Hf; set_solver].
Qed.

Lemma filled_leaves root w0 free0 w free a0 n :
  filled root w0 free0 w free a0 n → 0 ≤ a0 → a0 + n * PGSIZE ≤ TRAPFRAME →
  (∀ va, a0 ≤ va < a0 + n * PGSIZE → Z.lor (perm va) PTE_V ≠ PTE_V) → leaves (w_mem w) root a0 n.
Proof.
  intros (_ & _ & Hin & _) Ha Hmax Hleaf va Hva. pose proof TRAPFRAME_MAXVA.
  destruct (Hin va) as (pg & E & Hpg & _); [unfold PGSIZE in *; lia|done|].
  rewrite E, entry_valid. split; [done|]. pose proof (page_ok_pos _ Hpg). destruct Hpg.
  rewrite <-Z.lor_assoc, PTE_FLAGS_entry; [by apply Hleaf| |by apply lor_small]. unfold PHYSTOP, KERNBASE in *. lia.
Qed.

(** Unmapping what was filled leads back to the translation at the start. *)
Lemma unfill root w0 free0 w free a0 n w' freed :
  filled root w0 free0 w free a0 n → 0 ≤ a0 → 0 ≤ n → a0 + n * PGSIZE ≤ TRAPFRAME →
  (∀ va, a0 ≤ va < a0 + n * PGSIZE → ptw (w_mem w0) root va = 0) →
  shrinks root w free w' freed → unmaps (w_mem w) (w_mem w') root a0 n →
  (∀ c, c ∈ freed → ∃ va, a0 ≤ va < a0 + n * PGSIZE ∧ upage (w_mem w) root va = Some c) →
  (∀ va c, a0 ≤ va < a0 + n * PGSIZE → upage (w_mem w) root va = Some c → c ∈ freed) →
  filled root w0 free0 w' (freed ++ free) a0 0.
Proof.
  intros (Hpm & Hmo & Hin & Hout & Hpt & Hf & Hmono & Hlost & Hmem) Ha Hn Hmax H0 (I' & M' & N' & O') U F1 F2.
  pose proof TRAPFRAME_MAXVA as HT.
  assert (Hfr : ∀ c, c ∈ freed → c ∈ free0).
  { intros c (va & Hva & E)%F1. destruct (Hin va) as (pg & Ep & Hpg & Hpf & _); [unfold PGSIZE in *; lia|done|].
    apply (uentry (w_mem w)) in Ep; [|done|done]. congruence. }
  assert (Hpt' : ∀ c, in_pt (w_mem w') root c ↔ in_pt (w_mem w) root c) by (intros; by apply pt_at_nodes).
  split_and!.
  - done.
  - by eapply mem_only_trans.
  - lia.
  - intros va Hva _. rewrite U by done. case_decide as Hd; [by rewrite H0|by apply Hout].
  - intros c. rewrite Hpt'. apply Hpt.
  - intros c [Hc|Hc]%elem_of_app; auto.
  - intros c. rewrite Hpt'. apply Hmono.
  - intros c Hc. rewrite Hpt', elem_of_app. destruct (Hlost c Hc) as [|[|(va & Hva & E)]]; [by auto..|].
    left; left. by eapply F2.
  - intros x Hx. rewrite O'; [by apply Hmem|]. intros c [Hc|Hc]; apply Hx; auto.
Qed.

Lemma filled_0 root w free a0 : pm_inv w root free → filled root w free w free a0 0.
Proof. intros Hpm. split_and!; [done|apply mem_only_refl|lia|done|by left|done|done|by auto|done]. Qed.

End Grow.

Lemma mem_fill_zero m a n : mem_fill m a n 0 = mem_copy m a zeroes 0 n.
Proof. extensionality x. unfold mem_fill, mem_copy. by case_match. Qed.

Section UvmAlloc.
Context `{LayoutOk}.
#[local] Abbreviation filled := (filled_with (λ _, uperm) (λ _, 0)) (only parsing).

Lemma uvmalloc_loop_run fuel root w0 free0 a0 n newsz env w free :
  filled root w0 free0 w free a0 n → a0 `mod` PGSIZE = 0 → 0 ≤ a0 → 0 ≤ n →
  0 ≤ newsz ≤ TRAPFRAME → a0 + n * PGSIZE ≤ PGROUNDUP newsz →
  ((PGROUNDUP newsz - (a0 + n * PGSIZE)) / PGSIZE < Z.of_nat fuel) →
  (∀ va, a0 ≤ va < PGROUNDUP newsz → ptw (w_mem w0) root va = 0) →
  wp (uvmalloc_loop fuel root (a0 + n * PGSIZE) a0 newsz) env w (λ r e w', e = env ∧ ∃ free',
    (r = newsz ∧ filled root w0 free0 w' free' a0 ((PGROUNDUP newsz - a0) / PGSIZE)
     ∨ r = 0 ∧ filled root w0 free0 w' free' a0 0)).
Proof.
  revert n w free. induction fuel as [|fuel IH]; intros n w free HF Hm Ha Hn Hnew Hle Hfuel H0.
  { exfalso. assert (0 ≤ (PGROUNDUP newsz - (a0 + n * PGSIZE)) / PGSIZE) by (apply Z.div_pos; [lia|done]). lia. }
  destruct (PGROUNDUP_user newsz Hnew) as (R1 & R2 & R3).
  pose proof TRAPFRAME_MAXVA as HT. assert (HM : MAXVA = 2 ^ 38) by done.
  set (a := a0 + n * PGSIZE) in *. assert (Ham : a `mod` PGSIZE = 0) by (unfold a; by rewrite Z.mod_add).
  assert (Hundo : ∀ e w1 f1, filled root w0 free0 w1 f1 a0 n →
    wp (uvmdealloc root a a0 ;; ret 0) e w1 (λ r e' w', e' = e ∧ ∃ free',
      (r = newsz ∧ filled root w0 free0 w' free' a0 ((PGROUNDUP newsz - a0) / PGSIZE)
       ∨ r = 0 ∧ filled root w0 free0 w' free' a0 0))).
  { intros e w1 f1 HF1. mstep.
    assert (Ea0 : PGROUNDUP a0 = a0) by
      (destruct (PGROUNDUP_user a0) as (? & ? & _); [unfold a, PGSIZE in *; lia|]; unfold PGSIZE in *; Z.to_euclidean_division_equations; lia).
    assert (Ea : PGROUNDUP a = a) by
      (destruct (PGROUNDUP_user a) as (? & ? & _); [unfold a, PGSIZE in *; lia|]; unfold PGSIZE in *; Z.to_euclidean_division_equations; lia).
    assert (En : (PGROUNDUP a - PGROUNDUP a0) / PGSIZE = n).
    { rewrite Ea, Ea0. unfold a. replace (a0 + n * PGSIZE - a0) with (n * PGSIZE) by lia. by apply Z.div_mul. }
    eapply wp_mono; [apply (uvmdealloc_run root a a0 e w1 f1); [apply HF1|done|unfold a, PGSIZE in *; lia|]|].
    - rewrite En, Ea0. by apply (filled_leaves (λ _, uperm) (λ _, 0) ltac:(done) _ _ _ _ _ _ _ HF1); [|lia|].
    - rewrite En, Ea0. intros r e' w' (-> & _ & freed & S & U & F1 & F2). mstep. split; [done|].
      exists (freed ++ f1). right. split; [done|]. eapply (unfill (λ _, uperm) (λ _, 0) ltac:(done) _ _ _ w1); try done; [lia|].
      intros va Hva. apply H0. unfold a, PGSIZE in *. lia. }
  cbn [uvmalloc_loop]. destruct (Z.ltb_spec a newsz) as [Hlt|Hge]; cbn [negb].
  2:{ mstep. split; [done|]. exists free. left. split; [done|].
      assert ((PGROUNDUP newsz - a0) / PGSIZE = n) as ->; [|done].
      unfold a, PGSIZE in *. Z.to_euclidean_division_equations. lia. }
  pose proof HF as ((Hvm & _) & _ & _ & Hout & _). pose proof Hvm as (Hk & _ & _ & Hok & Hlk).
  mstep. destruct free as [|b f].
  { assert (Hf0 : w_freelist w = 0) by apply Hk. mcall kalloc_none. change (0 =? 0) with true. cbn iota.
    apply (Hundo env (settle w) []).
    destruct HF as ((V & P) & M & HF). split_and!; try apply HF.
    - split; [|exact P]. destruct V as (? & ? & ? & ? & ?). by split_and!; auto.
    - eapply mem_only_trans; [exact M|]. apply (mem_only_settle w (w_mem w) (w_freelist w)). }
  destruct (took_facts root w b f zeroes 0 Hvm) as (Hvm1 & Hmo1 & Hpb & Hbf & Hnin & Hz & Hs & Hn1 & Ht).
  destruct (alloc_inv _ _ _ Hk) as (Ehead & _ & _ & _). pose proof (page_ok_pos _ Hpb) as Hbpos.
  assert (Hb : w_freelist w ≠ 0) by (rewrite Ehead; lia).
  mcall kalloc_some. rewrite Ehead in *. rewrite (proj2 (Z.eqb_neq _ _) Hb). unfold memset_k. msteps. rsimpl.
  rewrite mem_fill_zero. fold (took w b zeroes 0).
  assert (Hbmax : b + 1 * PGSIZE ≤ 2 ^ 56) by (destruct Hpb; unfold PHYSTOP, KERNBASE, PGSIZE in *; lia).
  eapply wp_mono; [eapply (mappages_run root a 1 b uperm env (took w b zeroes 0) f); try done; try lia; unfold PGSIZE in *; try lia|].
  { intros va Hva. rewrite Ht, Hout, H0; [done|unfold a, PGSIZE in *; Z.to_euclidean_division_equations; lia|
      unfold a, PGSIZE in *; lia|unfold a, PGSIZE in *; lia]. }
  intros r e w2 (-> & f2 & G & R). destruct R as [[-> M]|(-> & -> & k & Hk0 & M)]; cbn [Z.eqb negb].
  - assert (Hnext : a + PGSIZE ≤ PGROUNDUP newsz)
      by (unfold a, PGSIZE in *; Z.to_euclidean_division_equations; lia).
    rewrite u64_small by (unfold PGSIZE in *; lia).
    replace (a + PGSIZE) with (a0 + (n + 1) * PGSIZE) by (unfold a, PGSIZE; lia).
    apply (IH (n + 1) w2 f2); try done; try (unfold a, PGSIZE in *; lia).
    + eapply (filled_step (λ _, uperm) (λ _, 0)); try done. unfold a, PGSIZE in *; lia.
    + assert ((PGROUNDUP newsz - a) / PGSIZE = (PGROUNDUP newsz - (a0 + (n + 1) * PGSIZE)) / PGSIZE + 1); [|lia].
      rewrite <-Z.div_add by done. f_equal. unfold a, PGSIZE. lia.
  - assert (k = 0) as -> by lia.
    destruct (filled_back (λ _, uperm) (λ _, 0) ltac:(done) ltac:(done) root w0 free0 w b f w2 a0 n zeroes 0 HF G) as (_ & Hok2 & Hlk2 & HF2); [|done|unfold a in *; lia|].
    { intros va Hva. by rewrite M, decide_False by lia. }
    mstep. mcall kfree_run. apply (Hundo env (gave w2 b) [b]). exact HF2.
Qed.

End UvmAlloc.

(** ** What the process sees *)

Section View.
Context `{LayoutOk}.

Lemma uaddr_upage m root va : uaddr m root va ≠ 0 → upage m root va = Some (uaddr m root va).
Proof.
  unfold uaddr, upage. case_match; [done|]. destruct (pte_valid (ptw m root va)); [|done].
  cbn. by destruct (nz _).
Qed.

Lemma uaddr_ext m m' root va : (va < MAXVA → ptw m' root va = ptw m root va) → uaddr m' root va = uaddr m root va.
Proof. intros E. unfold uaddr. destruct (Z.leb_spec MAXVA va); [done|]. by rewrite E. Qed.

(** The view of a page whose translation and contents are unchanged. *)
Lemma ubyte_keep m m' root va :
  (va < MAXVA → ptw m' root va = ptw m root va) →
  (∀ c x, upage m root va = Some c → c ≤ x < c + PGSIZE → m' x = m x) →
  ubyte m' root va = ubyte m root va.
Proof.
  intros E Hc. unfold ubyte. rewrite (uaddr_ext m m') by done.
  destruct (Z.eqb_spec (uaddr m root va) 0) as [|Hne]; [done|]. f_equal.
  apply (Hc (uaddr m root va)); [by apply uaddr_upage|]. pose proof (page_off va). lia.
Qed.

Lemma filled_view perm byte root w0 free0 w free a0 n va :
  pm_inv w0 root free0 → filled_with perm byte root w0 free0 w free a0 n → 0 ≤ va < TRAPFRAME →
  0 ≤ perm va < 2 ^ 10 →
  ubyte (w_mem w) root va =
    if decide (a0 ≤ va < a0 + n * PGSIZE)
    then if nz (Z.land (perm va) PTE_U) then Some (byte va) else None
    else ubyte (w_mem w0) root va.
Proof.
  intros (Hvm0 & Hp0 & _) (_ & _ & Hin & Hout & _ & _ & _ & _ & Hmem) Hva Hperm.
  pose proof TRAPFRAME_MAXVA as HT. case_decide as Hd.
  - destruct (Hin va) as (pg & E & Hpg & _ & Hz); [unfold PGSIZE in *; lia|done|].
    pose proof (page_ok_pos _ Hpg). assert (Ep := uentry _ _ _ _ _ Hpg Hperm E).
    assert (EU : Z.land (ptw (w_mem w) root va) PTE_U = Z.land (perm va) PTE_U).
    { destruct Hpg. rewrite E, <-Z.lor_assoc, entry_bit; [|unfold PHYSTOP, KERNBASE in *; lia|by apply lor_small|done].
      rewrite Z.land_lor_distr_l. change (Z.land PTE_V PTE_U) with 0. apply Z.lor_0_r. }
    assert (Eu : uaddr (w_mem w) root va = if nz (Z.land (perm va) PTE_U) then pg else 0).
    { unfold uaddr, upage in *. destruct (Z.leb_spec MAXVA va); [unfold PGSIZE in *; lia|].
      rewrite EU. destruct (pte_valid _); [|done]. simplify_eq. cbn. done. }
    unfold ubyte. rewrite Eu. case_match; [|done]. rewrite (proj2 (Z.eqb_neq _ _)) by lia. by f_equal.
  - apply ubyte_keep; [intros; apply Hout; [lia|done]|].
    intros c x E Hx. apply Hmem. intros d Hd'. destruct (Hp0 va c Hva E) as ([Mc _] & P2 & P3).
    pose proof Hvm0 as ((_ & Hpf & _) & Hwf & _).
    destruct Hd' as [Hd'|Hd'].
    + pose proof Hd' as (p & Ht & Ep). destruct (proj1 Hwf _ _ Ht Ep) as [Md _].
      apply (apart_bytes c d); try done. by intros ->.
    + rewrite Forall_forall in Hpf. destruct (Hpf d Hd') as [Md _].
      apply (apart_bytes c d); try done. by intros ->.
Qed.

End View.

Module UserMem.
Section Props.
Context `{LayoutOk}.

(** C30: mappages of [n] unmapped pages either returns 0, and then exactly those
    [n] pages translate to the given physical pages with the given permissions,
    or returns -1 because the allocator is empty, with a prefix mapped.  No other
    translation changes, and the only memory written is page-table pages and
    pages taken off the free list. *)
Theorem mappages_maps root a n pa perm env w free :
  vm_inv w root free → 1 ≤ n → a `mod` PGSIZE = 0 → 0 ≤ a → a + n * PGSIZE ≤ MAXVA →
  0 ≤ pa → pa + n * PGSIZE ≤ 2 ^ 56 → 0 ≤ perm < 2 ^ 10 →
  (∀ va, a ≤ va < a + n * PGSIZE → pte_valid (ptw (w_mem w) root va) = false) →
  ∃ r w' free', mappages root a (n * PGSIZE) pa perm env w = Ret r env w' ∧ grows root w free w' free'
    ∧ (r = 0 ∧ maps (w_mem w) (w_mem w') root a n pa perm ∨
       r = -1 ∧ free' = [] ∧ ∃ k, 0 ≤ k < n ∧ maps (w_mem w) (w_mem w') root a k pa perm).
Proof.
  intros Hi Hn Hm Ha Hmax Hpa Hpmax Hperm Hun.
  destruct (wp_elim _ _ _ _ (mappages_run root a n pa perm env w free Hi Hn Hm Ha Hmax Hpa Hpmax Hperm Hun))
    as (r & e & w' & E & -> & free' & G & R).
  by exists r, w', free'.
Qed.

(** C22: uvmalloc either returns the new size, and the process sees its old
    memory followed by zeroes up to the new size rounded to a page, or returns 0
    and the process sees exactly what it saw before; in both cases every page
    stays accounted for and the ownership of pages is kept. *)
Theorem uvmalloc_zero_fills root oldsz newsz env w free :
  pm_inv w root free → 0 ≤ oldsz → oldsz ≤ newsz ≤ TRAPFRAME →
  (∀ va, PGROUNDUP oldsz ≤ va < PGROUNDUP newsz → ptw (w_mem w) root va = 0) →
  ∃ r w' free', uvmalloc root oldsz newsz env w = Ret r env w'
    ∧ pm_inv w' root free' ∧ mem_only w w'
    ∧ (r = newsz ∧ (∀ va, 0 ≤ va < TRAPFRAME → ubyte (w_mem w') root va =
          if decide (PGROUNDUP oldsz ≤ va < PGROUNDUP newsz) then Some 0 else ubyte (w_mem w) root va)
       ∨ r = 0 ∧ (∀ va, 0 ≤ va < TRAPFRAME → ubyte (w_mem w') root va = ubyte (w_mem w) root va)
         ∧ (∀ c, c ∈ free → c ∈ free' ∨ in_pt (w_mem w') root c)).
Proof.
  intros Hpm Ho Hn H0. destruct (PGROUNDUP_user oldsz) as (A1 & A2 & A3); [lia|].
  destruct (PGROUNDUP_user newsz) as (B1 & B2 & B3); [lia|].
  assert (Hle : PGROUNDUP oldsz ≤ PGROUNDUP newsz) by (unfold PGSIZE in *; Z.to_euclidean_division_equations; lia).
  assert (Hrun := uvmalloc_loop_run (S (Z.to_nat (newsz / PGSIZE + 1))) root w free (PGROUNDUP oldsz) 0 newsz env w free).
  rewrite Z.add_0_r in Hrun.
  destruct (wp_elim _ _ _ _ (Hrun (filled_0 _ _ root w free (PGROUNDUP oldsz) Hpm) A1 ltac:(lia) ltac:(lia) ltac:(lia) Hle
    ltac:(unfold PGSIZE in *; Z.to_euclidean_division_equations; lia) H0)) as (r & e & w' & E & -> & free' & R).
  exists r, w', free'. split.
  { unfold uvmalloc. rewrite (proj2 (Z.ltb_ge _ _)) by lia. exact E. }
  destruct R as [[-> HF]|[-> HF]]; (split_and!; [apply HF|apply HF|]); [left|right]; (split; [done|]).
  - intros va Hva. rewrite (filled_view _ _ _ _ _ _ _ _ _ va Hpm HF Hva) by done.
    replace (PGROUNDUP oldsz + (PGROUNDUP newsz - PGROUNDUP oldsz) / PGSIZE * PGSIZE) with (PGROUNDUP newsz); [done|].
    unfold PGSIZE in *. Z.to_euclidean_division_equations. lia.
  - split.
    + intros va Hva. rewrite (filled_view _ _ _ _ _ _ _ _ _ va Hpm HF Hva) by done. by rewrite decide_False by lia.
    + intros c Hc. destruct HF as (_ & _ & _ & _ & _ & _ & _ & Hl & _).
      destruct (Hl c Hc) as [?|[?|(va & ? & _)]]; [by auto..|lia].
Qed.

(** uvmdealloc returns the new size, unmaps exactly the pages above it, puts
    exactly the pages that were mapped there on the free list, and leaves what
    the process sees below untouched. *)
Theorem uvmdealloc_frees root oldsz newsz env w free :
  pm_inv w root free → 0 ≤ newsz → newsz ≤ oldsz ≤ TRAPFRAME →
  leaves (w_mem w) root (PGROUNDUP newsz) ((PGROUNDUP oldsz - PGROUNDUP newsz) / PGSIZE) →
  ∃ w' freed, uvmdealloc root oldsz newsz env w = Ret newsz env w'
    ∧ pm_inv w' root (freed ++ free) ∧ mem_only w w'
    ∧ (∀ c, c ∈ freed ↔ ∃ va, PGROUNDUP newsz ≤ va < PGROUNDUP oldsz ∧ upage (w_mem w) root va = Some c)
    ∧ (∀ va, 0 ≤ va < TRAPFRAME → ubyte (w_mem w') root va =
          if decide (PGROUNDUP newsz ≤ va < PGROUNDUP oldsz) then None else ubyte (w_mem w) root va).
Proof.
  intros Hpm Hn Ho Hl. destruct (PGROUNDUP_user newsz) as (A1 & A2 & A3); [lia|].
  destruct (PGROUNDUP_user oldsz) as (B1 & B2 & B3); [lia|]. pose proof TRAPFRAME_MAXVA as HT.
  destruct (wp_elim _ _ _ _ (uvmdealloc_run root oldsz newsz env w free Hpm Hn Ho Hl))
    as (r & e & w' & E & -> & -> & freed & (I & M & N & O) & U & F1 & F2).
  assert (Eb : PGROUNDUP newsz + (PGROUNDUP oldsz - PGROUNDUP newsz) / PGSIZE * PGSIZE = PGROUNDUP oldsz).
  { clear Hl U F1 F2. unfold PGSIZE in *. Z.to_euclidean_division_equations. lia. }
  rewrite Eb in F1, F2. exists w', freed. split_and!; try done.
  - intros c. split; [apply F1|]. intros (va & Hva & Ep). by eapply F2.
  - intros va Hva. pose proof (U va ltac:(unfold PGSIZE in *; lia)) as Uva. rewrite Eb in Uva.
    case_decide as Hd.
    + apply ubyte_None. unfold uaddr. rewrite Uva. by case_match.
    + apply ubyte_keep; [done|]. intros c x Ec Hx. apply O. destruct Hpm as ((_ & Hwf & _) & Hp & Hinj).
      destruct (Hp va c Hva Ec) as ([Mc ?] & P2 & P3). intros d [Hd'|Hd'].
      * pose proof Hd' as (p & Ht & Ep). destruct (proj1 Hwf _ _ Ht Ep) as [Md _].
        apply (apart_bytes c d); try done. by intros ->.
      * destruct (F1 d Hd') as (va' & Hva' & Ed).
        destruct (Hp va' d ltac:(lia) Ed) as ([Md ?] & _). apply (apart_bytes c d); try done.
        intros ->. apply Hd. assert (va / PGSIZE = va' / PGSIZE) by (by apply (Hinj va va' d); [lia..| |]).
        unfold PGSIZE in *. Z.to_euclidean_division_equations. lia.
Qed.

End Props.
End UserMem.

(** ** The small address space again, with two free pages *)

Module SampleUser.
Import Sample.

#[local] Existing Instance sample_layout.
#[local] Existing Instance sample_layout_ok.

Definition world4 : world := gave world3 (page 5).
Definition world5 : world := gave world4 (page 4).

Lemma vm3 : vm_inv world3 (page 0) [].
Proof.
  split_and!; [split_and!; [done|constructor|constructor]|exact wf3|set_solver|done|done].
Qed.

Lemma not_in3 a : a ≠ page 0 → a ≠ page 1 → a ≠ page 2 → ¬ in_pt m3 (page 0) a.
Proof. intros ? ? ? [|[|]]%in_pt3; done. Qed.

Lemma facts4 :
  vm_inv world4 (page 0) [page 5] ∧ (∀ path, tpath path → node (w_mem world4) (page 0) path = node m3 (page 0) path)
  ∧ (∀ va, ptw (w_mem world4) (page 0) va = ptw m3 (page 0) va).
Proof.
  destruct (gave_facts (page 0) world3 [] (page 5) vm3) as (V & _ & _ & N & T);
    [by apply page_ok_n|by apply not_in3|set_solver|]. split_and!; [exact V|exact N|exact T].
Qed.

Lemma facts5 :
  vm_inv world5 (page 0) [page 4; page 5] ∧ (∀ path, tpath path → node (w_mem world5) (page 0) path = node m3 (page 0) path)
  ∧ (∀ va, ptw (w_mem world5) (page 0) va = ptw m3 (page 0) va).
Proof.
  destruct facts4 as (V4 & N4 & T4).
  destruct (gave_facts (page 0) world4 [page 5] (page 4) V4) as (V & _ & _ & N & T).
  - by apply page_ok_n.
  - rewrite (pt_at_nodes m3 (w_mem world4)) by exact N4. by apply not_in3.
  - intros E%list_elem_of_singleton. by vm_compute in E.
  - split_and!; [exact V|intros path Ht; fold world5 in N; by rewrite N, N4|intros va; fold world5 in T; by rewrite T, T4].
Qed.

Lemma upage5 va c : 0 ≤ va < TRAPFRAME → upage (w_mem world5) (page 0) va = Some c → va < PGSIZE ∧ c = page 3.
Proof.
  intros Hva. destruct facts5 as (_ & _ & T). unfold upage. rewrite T, ptw3.
  2:{ rewrite TRAPFRAME_MAXVA in Hva. unfold PGSIZE in *. lia. }
  case_decide as Hd; [|done]. intros [= <-]. split; [|reflexivity].
  unfold PGSIZE in *. Z.to_euclidean_division_equations. lia.
Qed.

Lemma pm5 : pm_inv world5 (page 0) [page 4; page 5].
Proof.
  destruct facts5 as (V & N & T). split_and!; [exact V| |].
  - intros va c Hva [_ ->]%upage5; [|done]. split_and!; [by apply page_ok_n| |].
    + rewrite (pt_at_nodes m3 (w_mem world5)) by exact N. by apply not_in3.
    + intros [E|[E|[]%not_elem_of_nil]%elem_of_cons]%elem_of_cons; by vm_compute in E.
  - intros va va' c Hva Hva' [H1 _]%upage5 [H2 _]%upage5; [|done..]. by rewrite !Z.div_small by lia.
Qed.

Lemma ptw5 va : PGSIZE ≤ va < MAXVA → ptw (w_mem world5) (page 0) va = 0.
Proof.
  intros Hva. destruct facts5 as (_ & _ & ->). rewrite ptw3 by (unfold PGSIZE in *; lia).
  rewrite decide_False; [done|]. unfold PGSIZE in *. Z.to_euclidean_division_equations. lia.
Qed.

Lemma mappages_maps_witness :
  vm_inv world5 (page 0) [page 4; page 5] ∧
  ∃ w', mappages (page 0) PGSIZE (1 * PGSIZE) (page 9) uperm [] world5 = Ret 0 [] w'
        ∧ maps (w_mem world5) (w_mem w') (page 0) PGSIZE 1 (page 9) uperm.
Proof.
  destruct facts5 as (V & _). split; [exact V|].
  destruct (UserMem.mappages_maps (page 0) PGSIZE 1 (page 9) uperm [] world5 [page 4; page 5] V
    ltac:(lia) eq_refl ltac:(done) ltac:(done) ltac:(done) ltac:(done) ltac:(done)
    ltac:(intros va Hva; rewrite ptw5; [done|change MAXVA with (2 ^ 38); unfold PGSIZE in *; lia]))
    as (r & w' & free' & E & _ & [[-> M]|(-> & -> & _)]).
  - exists w'. split; [exact E|exact M].
  - exfalso. assert (Hr : match mappages (page 0) PGSIZE (1 * PGSIZE) (page 9) uperm [] world5 with
      Ret r _ _ => r | _ => 1 end = 0) by (vm_compute; reflexivity). rewrite E in Hr. discriminate Hr.
Defined.

Lemma uvmalloc_zero_fills_witness :
  pm_inv world5 (page 0) [page 4; page 5] ∧
  ∃ w', uvmalloc (page 0) 100 5000 [] world5 = Ret 5000 [] w' ∧ ubyte (w_mem w') (page 0) 5000 = Some 0.
Proof.
  split; [exact pm5|].
  destruct (UserMem.uvmalloc_zero_fills (page 0) 100 5000 [] world5 [page 4; page 5] pm5
    ltac:(done) ltac:(done)
    ltac:(intros va Hva; apply ptw5; change (PGROUNDUP 100) with PGSIZE in Hva;
          change (PGROUNDUP 5000) with (2 * PGSIZE) in Hva; change MAXVA with (2 ^ 38); unfold PGSIZE in *; lia))
    as (r & w' & free' & E & _ & _ & [[-> U]|(-> & _)]).
  - exists w'. split; [exact E|]. exact (U 5000 ltac:(split; vm_compute; congruence)).
  - exfalso. assert (Hr : match uvmalloc (page 0) 100 5000 [] world5 with
      Ret r _ _ => r | _ => 1 end = 5000) by (vm_compute; reflexivity). rewrite E in Hr. discriminate Hr.
Defined.

Lemma uvmdealloc_frees_witness :
  pm_inv world5 (page 0) [page 4; page 5] ∧
  ∃ w' (freed : list Z), uvmdealloc (page 0) 100 0 [] world5 = Ret 0 [] w' ∧ page 3 ∈ freed
    ∧ ubyte (w_mem w') (page 0) 8 = None.
Proof.
  split; [exact pm5|].
  assert (Hl : leaves (w_mem world5) (page 0) (PGROUNDUP 0) ((PGROUNDUP 100 - PGROUNDUP 0) / PGSIZE)).
  { change (PGROUNDUP 0) with 0. change ((PGROUNDUP 100 - 0) / PGSIZE) with 1. intros va Hva.
    destruct facts5 as (_ & _ & ->). rewrite ptw3 by (change MAXVA with (2 ^ 38); unfold PGSIZE in *; lia).
    rewrite decide_True by (apply Z.div_small; lia). done. }
  destruct (UserMem.uvmdealloc_frees (page 0) 100 0 [] world5 [page 4; page 5] pm5
    ltac:(done) ltac:(done) Hl) as (w' & freed & E & _ & _ & F & U).
  exists w', freed. split_and!; [exact E| |]; clear E.
  - apply F. exists 8. split; [done|]. destruct facts5 as (_ & _ & T). unfold upage. rewrite T, ptw3 by done. reflexivity.
  - exact (U 8 ltac:(split; vm_compute; congruence)).
Defined.

End SampleUser.
