(* ===== verification/VmFork.v ===== *)
(** * uvmcopy

    fork's copy of the parent's memory: the child sees the same bytes with the
    same permissions, in pages of its own. *)

From S2P Require Import Prelude Types StringC Spinlock Kalloc PageTable Vm VmCopy VmUser.

(** The pages a process owns: its table and what it maps below TRAPFRAME. *)
Definition owns (m : bytes) (root c : Z) : Prop :=
  in_pt m root c ∨ ∃ va, 0 ≤ va < TRAPFRAME ∧ upage m root va = Some c.

Lemma PTE_FLAGS_range v : 0 ≤ PTE_FLAGS v < 2 ^ 10.
Proof. unfold PTE_FLAGS. change 0x3FF with (Z.ones 10). rewrite Z.land_ones by lia. by apply Z.mod_pos_bound. Qed.

Section UvmCopy.
Context `{LayoutOk}.
Context (old new sz : Z) (w0 : world) (free0 : list Z).

#[local] Abbreviation m0 := (w_mem w0) (only parsing).
Definition copy_perm (va : Z) : Z := PTE_FLAGS (ptw (w_mem w0) old va).
Definition copy_byte (va : Z) : Z := w_mem w0 (PTE2PA (ptw (w_mem w0) old va) + va `mod` PGSIZE).

Context (Hsz : 0 ≤ sz ≤ TRAPFRAME).
Context (Hold : pm_inv w0 old free0).
Context (Hnew : pm_inv w0 new free0).
Context (Hsep : ∀ c, owns (w_mem w0) old c → ¬ in_pt (w_mem w0) new c).
Context (Hleaves : leaves (w_mem w0) old 0 (PGROUNDUP sz / PGSIZE)).
Context (Hempty : ∀ va, 0 ≤ va < PGROUNDUP sz → ptw (w_mem w0) new va = 0).

#[local] Abbreviation filled := (filled_with copy_perm copy_byte new w0 free0) (only parsing).

Lemma owns_page_ok c : owns m0 old c → page_ok c ∧ c ∉ free0.
Proof.
  destruct Hold as ((_ & Hwf & Hdis & _) & Hp & _). intros [Hc|(va & Hva & E)].
  - split; [|by apply Hdis]. destruct Hc as (p & Ht & E). by apply (proj1 Hwf p).
  - destruct (Hp va c Hva E) as (? & _ & ?). done.
Qed.

(** Filling the new table leaves the pages of the old one alone. *)
Lemma old_kept w free n c x :
  filled w free 0 n → owns m0 old c → c ≤ x < c + PGSIZE → w_mem w x = w_mem w0 x.
Proof.
  intros (_ & _ & _ & _ & _ & _ & _ & _ & Hmem) Hc Hx. apply Hmem. intros d Hd.
  destruct (owns_page_ok c Hc) as [[Mc _] Hcf].
  destruct Hnew as (((_ & Hpf & _) & Hwf & _) & _). destruct Hd as [Hd|Hd].
  - pose proof Hd as (p & Ht & E). destruct (proj1 Hwf _ _ Ht E) as [Md _].
    apply (apart_bytes c d); try done. intros ->. by apply (Hsep d).
  - rewrite Forall_forall in Hpf. destruct (Hpf d Hd) as [Md _].
    apply (apart_bytes c d); try done. by intros ->.
Qed.

Lemma old_table w free n :
  filled w free 0 n →
  (∀ path, tpath path → node (w_mem w) old path = node (w_mem w0) old path) ∧
  (∀ va, ptw (w_mem w) old va = ptw (w_mem w0) old va).
Proof.
  intros HF. assert (Hfr : ∀ c x, in_pt (w_mem w0) old c → c ≤ x < c + PGSIZE → w_mem w x = w_mem w0 x).
  { intros c x Hc. apply (old_kept w free n c x HF). by left. }
  split; [intros; by apply node_frame|intros; by apply ptw_frame].
Qed.

Lemma copy_perm_range va : 0 ≤ copy_perm va < 2 ^ 10.
Proof. apply PTE_FLAGS_range. Qed.

Lemma copy_perm_page va va' : va / PGSIZE = va' / PGSIZE → copy_perm va = copy_perm va'.
Proof. intros E. unfold copy_perm. by rewrite (ptw_page _ _ _ _ E). Qed.

(** The page copied for [a], from memory in which [b] has just been allocated. *)
Lemma copy_source w free n a b va :
  filled w free 0 n → a `mod` PGSIZE = 0 → 0 ≤ a → a + PGSIZE ≤ TRAPFRAME → b ∈ free0 →
  pte_valid (ptw m0 old a) = true → a ≤ va < a + PGSIZE →
  copy_byte va = mem_fill (w_mem w) b PGSIZE 5 (va - a + PTE2PA (ptw m0 old a)).
Proof.
  intros HF Hm Ha Hmax Hb Hv Hva. unfold copy_byte.
  assert (E : va / PGSIZE = a / PGSIZE) by (by apply div_page).
  rewrite (ptw_page _ _ va a E).
  assert (Ho : owns m0 old (PTE2PA (ptw m0 old a))).
  { right. exists a. split; [unfold PGSIZE in *; lia|]. unfold upage. by rewrite Hv. }
  destruct (owns_page_ok _ Ho) as [[Mc _] Hcf].
  assert (Hoff : va `mod` PGSIZE = va - a) by (unfold PGSIZE in *; Z.to_euclidean_division_equations; lia).
  rewrite Hoff, Z.add_comm.
  rewrite mem_fill_out.
  - symmetry. apply (old_kept w free n (PTE2PA (ptw m0 old a))); [done|done|lia].
  - destruct Hnew as (((_ & Hpf & _) & _) & _). rewrite Forall_forall in Hpf. destruct (Hpf b Hb) as [Mb _].
    apply (apart_bytes (PTE2PA (ptw m0 old a)) b); [done|done|by intros <-|lia].
Qed.

Lemma uvmcopy_loop_run fuel n env w free :
  filled w free 0 n → 0 ≤ n → n * PGSIZE ≤ PGROUNDUP sz →
  (PGROUNDUP sz - n * PGSIZE) / PGSIZE < Z.of_nat fuel →
  wp (uvmcopy_loop fuel old new (n * PGSIZE) sz) env w (λ r e w', e = env ∧ ∃ free',
    match r with
    | inl _ => filled w' free' 0 (PGROUNDUP sz / PGSIZE)
    | inr i => ∃ k, i = k * PGSIZE ∧ 0 ≤ k ∧ i + PGSIZE ≤ PGROUNDUP sz ∧ filled w' free' 0 k
    end).
Proof.
  revert n w free. induction fuel as [|fuel IH]; intros n w free HF Hn Hle Hfuel.
  { exfalso. assert (0 ≤ (PGROUNDUP sz - n * PGSIZE) / PGSIZE) by (apply Z.div_pos; [lia|done]). lia. }
  destruct (PGROUNDUP_user sz Hsz) as (R1 & R2 & R3).
  pose proof TRAPFRAME_MAXVA as HT. assert (HM : MAXVA = 2 ^ 38) by done.
  set (a := n * PGSIZE) in *. assert (Ham : a `mod` PGSIZE = 0) by (unfold a; by apply Z_mod_mult).
  cbn [uvmcopy_loop]. destruct (Z.ltb_spec a sz) as [Hlt|Hge]; cbn [negb].
  2:{ mstep. split; [done|]. exists free. assert (PGROUNDUP sz / PGSIZE = n) as ->; [|done].
      unfold a, PGSIZE in *. Z.to_euclidean_division_equations. lia. }
  assert (Hnext : a + PGSIZE ≤ PGROUNDUP sz) by (unfold a, PGSIZE in *; Z.to_euclidean_division_equations; lia).
  destruct (old_table w free n HF) as [Hnodes Hptw].
  destruct (Hleaves a ltac:(unfold PGSIZE in *; Z.to_euclidean_division_equations; lia)) as [Hv Hfl].
  assert (Hwfo : pt_wf (w_mem w) old) by (eapply pt_wf_nodes; [exact Hnodes|apply Hold]).
  destruct (walk_mapped old a env w Hwfo ltac:(unfold PGSIZE in *; lia) ltac:(by rewrite Hptw)) as (q & Eq & Ew & Ene & Ev).
  mstep. eapply wp_intro; [exact Ew|]. cbv beta. rewrite Ene. unfold ld64_k. msteps. rewrite Ev, Hptw.
  rewrite pte_valid_test by done.
  pose proof HF as ((Hvm & _) & _ & _ & Hout & _ & Hsub & _). pose proof Hvm as (Hk & _ & _ & Hok & Hlk).
  mstep. destruct free as [|b f].
  { assert (Hf0 : w_freelist w = 0) by apply Hk. mcall kalloc_none. change (0 =? 0) with true. cbn iota. mstep.
    split; [done|]. exists []. exists n. split_and!; [done|done|done|].
    destruct HF as ((V & P) & M & HF). split_and!; try apply HF.
    - split; [|exact P]. destruct V as (? & ? & ? & ? & ?). by split_and!; auto.
    - eapply mem_only_trans; [exact M|]. apply (mem_only_settle w (w_mem w) (w_freelist w)). }
  set (src := mem_fill (w_mem w) b PGSIZE 5). set (s := PTE2PA (ptw m0 old a)).
  destruct (took_facts new w b f src s Hvm) as (Hvm1 & Hmo1 & Hpb & Hbf & Hnin & Hz & Hs & Hn1 & Ht).
  destruct (alloc_inv _ _ _ Hk) as (Ehead & _ & _ & _). pose proof (page_ok_pos _ Hpb) as Hbpos.
  assert (Hb : w_freelist w ≠ 0) by (rewrite Ehead; lia).
  mcall kalloc_some. rewrite Ehead in *. rewrite (proj2 (Z.eqb_neq _ _) Hb). msteps. rsimpl.
  fold src s. change (set_mem (mem_copy src b src s PGSIZE) _) with (took w b src s). fold (copy_perm a).
  assert (Hbmax : b + 1 * PGSIZE ≤ 2 ^ 56) by (destruct Hpb; unfold PHYSTOP, KERNBASE, PGSIZE in *; lia).
  eapply wp_mono; [apply (mappages_run new a 1 b (copy_perm a) env (took w b src s) f);
    [done|lia|done|unfold a, PGSIZE; lia|unfold PGSIZE in *; lia|lia|done|apply copy_perm_range|]|].
  { intros va Hva. rewrite Ht, Hout, Hempty; [done|unfold a, PGSIZE in *; lia..]. }
  assert (Hb0 : b ∈ free0) by (apply Hsub; by left).
  intros r e w2 (-> & f2 & G & R). destruct R as [[-> M]|(-> & -> & k & Hk0 & M)]; cbn [Z.eqb negb].
  - rewrite u64_small by (unfold a, PGSIZE in *; lia).
    replace (a + PGSIZE) with ((n + 1) * PGSIZE) by (unfold a, PGSIZE; lia).
    apply (IH (n + 1) w2 f2).
    + eapply (filled_step copy_perm copy_byte copy_perm_range copy_perm_page new w0 free0 w b f w2 f2 0 n src s); try done.
      * intros va Hva. rewrite !Z.add_0_l in *. fold a. apply (copy_source w (b :: f) n); try done; unfold a, PGSIZE in *; lia.
      * unfold a, PGSIZE in *; lia.
    + lia.
    + unfold a, PGSIZE in *; lia.
    + assert ((PGROUNDUP sz - a) / PGSIZE = (PGROUNDUP sz - (n + 1) * PGSIZE) / PGSIZE + 1); [|lia].
      rewrite <-Z.div_add by done. f_equal. unfold a, PGSIZE. lia.
  - assert (k = 0) as -> by lia.
    destruct (filled_back copy_perm copy_byte copy_perm_range copy_perm_page new w0 free0 w b f w2 0 n src s HF G)
      as (_ & Hok2 & Hlk2 & HF2); [|done|unfold a in *; lia|].
    { intros va Hva. by rewrite M, decide_False by lia. }
    mstep. mcall kfree_run. mstep. split; [done|]. exists [b]. exists n. split_and!; [done|done|done|exact HF2].
Qed.

Lemma copy_leaf va : 0 ≤ va < PGROUNDUP sz → Z.lor (copy_perm va) PTE_V ≠ PTE_V.
Proof.
  intros Hva. destruct (PGROUNDUP_user sz Hsz) as (R1 & R2 & R3).
  destruct (Hleaves va ltac:(unfold PGSIZE in *; Z.to_euclidean_division_equations; lia)) as [Hv Hfl].
  assert (E : Z.lor (copy_perm va) PTE_V = copy_perm va); [|by rewrite E].
  unfold copy_perm, PTE_FLAGS. change 0x3FF with (Z.ones 10). set (v := ptw m0 old va) in *.
  assert (Z.land v PTE_V = PTE_V) as Ev.
  { unfold pte_valid, PTE_V in *. apply nz_true in Hv. change (1 ≪ 0) with (Z.ones 1) in *.
    rewrite Z.land_ones in * by lia. change (Z.ones 1) with 1.
    pose proof (Z.mod_pos_bound v (2 ^ 1) ltac:(lia)). lia. }
  rewrite <-Ev at 1. change PTE_V with (Z.land (Z.ones 10) PTE_V) at 1.
  rewrite Z.land_assoc. apply Z.bits_inj'. intros i Hi.
  rewrite Z.lor_spec, !Z.land_spec. by destruct (Z.testbit v i), (Z.testbit (Z.ones 10) i), (Z.testbit PTE_V i).
Qed.

(** What the parent's bytes look like to the copy. *)
Lemma copy_view va :
  0 ≤ va < PGROUNDUP sz →
  ubyte m0 old va = if nz (Z.land (copy_perm va) PTE_U) then Some (copy_byte va) else None.
Proof.
  intros Hva. destruct (PGROUNDUP_user sz Hsz) as (R1 & R2 & R3). pose proof TRAPFRAME_MAXVA.
  destruct (Hleaves va ltac:(unfold PGSIZE in *; Z.to_euclidean_division_equations; lia)) as [Hv _].
  destruct Hold as (_ & Hp & _).
  destruct (Hp va (PTE2PA (ptw m0 old va))) as (Hpg & _ & _); [lia|unfold upage; by rewrite Hv|].
  pose proof (page_ok_pos _ Hpg).
  assert (EU : Z.land (copy_perm va) PTE_U = Z.land (ptw m0 old va) PTE_U).
  { unfold copy_perm, PTE_FLAGS. by rewrite <-Z.land_assoc. }
  rewrite EU. unfold ubyte, uaddr. destruct (Z.leb_spec MAXVA va); [unfold PGSIZE in *; lia|].
  rewrite Hv. cbn [andb]. destruct (nz (Z.land (ptw (w_mem w0) old va) PTE_U)); [|done]. by rewrite (proj2 (Z.eqb_neq _ _)) by lia.
Qed.

(** The old table keeps its discipline, and stays apart from the new one. *)
Lemma old_inv w free n :
  filled w free 0 n → pm_inv w old free ∧ (∀ c, owns (w_mem w) old c ↔ owns m0 old c)
  ∧ (∀ va, 0 ≤ va < TRAPFRAME → ubyte (w_mem w) old va = ubyte m0 old va).
Proof.
  intros HF. destruct (old_table w free n HF) as [Hn Ht].
  pose proof HF as ((Hvm & _) & _ & _ & _ & _ & Hsub & _).
  destruct Hold as ((_ & Hwf & Hdis & _) & Hp & Hinj). split_and!.
  - split_and!.
    + destruct Hvm as (Hk & _ & _ & Hok & Hlk).
      split_and!; [done|by eapply pt_wf_nodes| |done|done].
      intros c Hc%(pt_at_nodes m0); [|done]. intros Hx%Hsub. by apply (Hdis c).
    + intros va c Hva. rewrite (upage_ext m0) by done. intros E. destruct (Hp va c Hva E) as (P1 & P2 & P3).
      split_and!; [done|by rewrite (pt_at_nodes m0)|by intros Hx%Hsub].
    + intros va va' c Hva Hva' E E'. rewrite (upage_ext m0) in E by done. rewrite (upage_ext m0) in E' by done.
      by apply (Hinj va va' c).
  - intros c. unfold owns. rewrite (pt_at_nodes m0) by done. apply or_iff_compat_l.
    split; intros (va & Hva & E); exists va; (split; [done|]); unfold upage in *; by rewrite Ht in *.
  - intros va Hva. apply ubyte_keep; [done|]. intros c x E. apply (old_kept w free n c x HF). right. by exists va.
Qed.

Lemma new_owns w free n c :
  filled w free 0 n → 0 ≤ n → n * PGSIZE ≤ TRAPFRAME →
  owns (w_mem w) new c → owns m0 new c ∨ c ∈ free0.
Proof.
  intros (_ & _ & Hin & Hout & Hpt & _) Hn Hmax [Hc|(va & Hva & E)].
  - destruct (Hpt c Hc); [left; by left|by right].
  - pose proof TRAPFRAME_MAXVA. destruct (decide (0 ≤ va < 0 + n * PGSIZE)) as [Hd|Hd].
    + destruct (Hin va) as (pg & Ep & Hpg & Hpf & _); [unfold PGSIZE in *; lia|done|].
      apply (uentry (w_mem w)) in Ep; [|done|apply copy_perm_range]. right. congruence.
    + left. right. exists va. split; [done|]. rewrite <-E. symmetry. apply upage_ext, Hout; [unfold PGSIZE in *; lia|done].
Qed.

End UvmCopy.

Module Fork.
Section Props.
Context `{LayoutOk}.


End Props.
End Fork.

(** ** Copying the small address space into an empty table, [page 6] *)

Module SampleFork.
Import Sample SampleUser.

#[local] Existing Instance sample_layout.
#[local] Existing Instance sample_layout_ok.

Definition world6 : world := gave world5 (page 7).
Definition free6 : list Z := [page 7; page 4; page 5].

Lemma page_out i j x : i ≠ j → page i ≤ x < page i + PGSIZE → ¬ (page j ≤ x < page j + PGSIZE).
Proof. unfold page, PGSIZE. lia. Qed.

Lemma zero6 x : page 6 ≤ x < page 6 + PGSIZE → w_mem world6 x = 0.
Proof.
  intros Hx. assert (Hg : ∀ w i, i ≠ 6 → w_mem (gave w (page i)) x = w_mem w x).
  { intros w i Hi. unfold gave, freed_mem. rsimpl. apply (same_outside_st64 (page i)); [apply same_outside_fill|].
    apply (page_out 6 i); [lia|done]. }
  unfold world6, world5, world4. rewrite !Hg by lia.
  unfold world3, m3, m2, m1, st64. rsimpl.
  change (page 6) with 2147643392 in Hx. unfold PGSIZE in Hx.
  change (pte_at (page 0) 0) with 2147618816. change (pte_at (page 1) 0) with 2147622912.
  change (pte_at (page 2) (PX 0 0)) with 2147627008. rewrite !st_out by lia. reflexivity.
Qed.

Lemma node6 path : tpath path → node (w_mem world6) (page 6) path = match path with [] => Some (page 6) | _ => None end.
Proof.
  intros [_ Hf]. destruct path as [|i path]; [done|]. apply Forall_cons in Hf as [Hi _]. cbn. unfold child, ld64.
  rewrite ld_zero; [done|]. intros x Hx. apply zero6. pose proof (pte_at_in (page 6) i Hi). lia.
Qed.

Lemma in_pt6 c : in_pt (w_mem world6) (page 6) c → c = page 6.
Proof. intros (path & Ht & E). rewrite node6 in E by done. by destruct path; simplify_eq. Qed.

Lemma ptw6 va : ptw (w_mem world6) (page 6) va = 0.
Proof. unfold ptw. by rewrite node6. Qed.

Lemma facts6 :
  vm_inv world6 (page 0) free6 ∧ (∀ path, tpath path → node (w_mem world6) (page 0) path = node m3 (page 0) path)
  ∧ (∀ va, ptw (w_mem world6) (page 0) va = ptw m3 (page 0) va).
Proof.
  destruct facts5 as (V5 & N5 & T5).
  destruct (gave_facts (page 0) world5 [page 4; page 5] (page 7) V5) as (V & _ & _ & N & T).
  - by apply page_ok_n.
  - rewrite (pt_at_nodes m3 (w_mem world5)) by exact N5. by apply not_in3.
  - intros [E|[E|[]%not_elem_of_nil]%elem_of_cons]%elem_of_cons; by vm_compute in E.
  - fold world6 in N, T.
    split_and!; [exact V|intros path Ht; by rewrite N, N5|intros va; by rewrite T, T5].
Qed.

Lemma upage6 va c : 0 ≤ va < TRAPFRAME → upage (w_mem world6) (page 0) va = Some c → va < PGSIZE ∧ c = page 3.
Proof.
  intros Hva E. apply upage5; [done|]. rewrite <-E. apply upage_ext.
  destruct facts5 as (_ & _ & ->). by destruct facts6 as (_ & _ & ->).
Qed.

Lemma old6 : pm_inv world6 (page 0) free6.
Proof.
  destruct facts6 as (V & N & T). split_and!; [exact V| |].
  - intros va c Hva [_ ->]%upage6; [|done]. split_and!; [by apply page_ok_n| |].
    + rewrite (pt_at_nodes m3 (w_mem world6)) by exact N. by apply not_in3.
    + intros [E|[E|[E|[]%not_elem_of_nil]%elem_of_cons]%elem_of_cons]%elem_of_cons; by vm_compute in E.
  - intros va va' c Hva Hva' [H1 _]%upage6 [H2 _]%upage6; [|done..]. by rewrite !Z.div_small by lia.
Qed.

Lemma new6 : pm_inv world6 (page 6) free6.
Proof.
  destruct facts6 as ((Hk & _ & _ & Hok & Hlk) & _). split_and!.
  - split_and!; [exact Hk| | |exact Hok|exact Hlk].
    + split.
      * intros path c Ht. rewrite node6 by done. destruct path; [|done]. intros [= <-]. by apply page_ok_n.
      * intros p1 p2 c H1 H2. rewrite !node6 by done. by destruct p1, p2.
    + intros c ->%in_pt6. intros [E|[E|[E|[]%not_elem_of_nil]%elem_of_cons]%elem_of_cons]%elem_of_cons; by vm_compute in E.
  - intros va c _. unfold upage. by rewrite ptw6.
  - intros va va' c _ _. unfold upage. by rewrite ptw6.
Qed.

Lemma sep6 c : owns (w_mem world6) (page 0) c → ¬ owns (w_mem world6) (page 6) c.
Proof.
  intros Ho Hn. assert (c = page 6) as ->.
  { destruct Hn as [Hn|(va & _ & E)]; [by apply in_pt6|]. unfold upage in E. by rewrite ptw6 in E. }
  destruct Ho as [Ho|(va & Hva & [_ E]%upage6)]; [|by vm_compute in E|done].
  destruct facts6 as (_ & N & _). apply (pt_at_nodes m3) in Ho; [|exact N].
  destruct (in_pt3 _ Ho) as [E|[E|E]]; by vm_compute in E.
Qed.


End SampleFork.
