(* ===== verification/Sched.v ===== *)
(** * proc.c: the current process, sleep and wakeup, the scheduler

    A context switch hands the cpu to the rest of the machine: [swtch] is one
    event of the environment, which returns when the process runs again.  The
    saved registers are in [p_context]; the values they hold are not part of the
    kernel state that the C code reads. *)

From S2P Require Import Prelude Types StringC Spinlock Kalloc PageTable Vm.

(** ** Pointers to processes *)

(** A load or store through a null pointer faults in the kernel, which ends in
    kerneltrap's panic. *)
Definition deref {A} (p : option A) : K A :=
  match p with Some i => ret i | None => panic "kerneltrap" end.

Definition get_proc (p : Z) : K proc := gets (λ w, w_procs w p).
Definition upd_proc (p : Z) (f : proc → proc) : K unit :=
  modify (λ w, set_procs (alter f p (w_procs w)) w).

(** proc .. &proc[NPROC] *)
Definition all_procs : list Z := seqZ 0 NPROC.

Definition myproc : K (option Z) :=
  push_off ;;
  c <- mycpu ;;
  cp <- get_cpu c ;;
  let p := c_proc cp in
  pop_off ;;
  ret p.

Definition allocpid : K Z :=
  acquire LPid ;;
  pid <- gets w_nextpid ;;
  modify (λ w, set_nextpid (i32 (w_nextpid w + 1)) w) ;;
  release LPid ;;
  ret pid.

(** swtch(&p->context, &mycpu()->context): the process is off the cpu until the
    scheduler switches back to it. *)
Definition swtch : K unit := wait_event.

Definition sched : K unit :=
  mp <- myproc ;;
  p <- deref mp ;;
  h <- holding (LProc p) ;;
  if negb h then panic "sched p->lock" else
  c <- mycpu ;;
  cp <- get_cpu c ;;
  if negb (c_noff cp =? 1) then panic "sched locks" else
  pr <- get_proc p ;;
  if decide (p_state pr = RUNNING) then panic "sched running" else
  i <- intr_get ;;
  if (i : bool) then panic "sched interruptible" else
  c <- mycpu ;;
  cp <- get_cpu c ;;
  let intena := c_intena cp in
  swtch ;;
  c <- mycpu ;;
  upd_cpu c (set_c_intena intena).

Definition yield : K unit :=
  mp <- myproc ;;
  p <- deref mp ;;
  acquire (LProc p) ;;
  upd_proc p (set_p_state RUNNABLE) ;;
  sched ;;
  release (LProc p).

Definition sleep (ch : chan) (lk : lockid) : K unit :=
  mp <- myproc ;;
  p <- deref mp ;;
  when (negb (bool_decide (lk = LProc p))) (
    acquire (LProc p) ;;
    release lk) ;;
  upd_proc p (set_p_chan (Some ch)) ;;
  upd_proc p (set_p_state SLEEPING) ;;
  sched ;;
  upd_proc p (set_p_chan None) ;;
  when (negb (bool_decide (lk = LProc p))) (
    release (LProc p) ;;
    acquire lk).

(** [p->state == SLEEPING && p->chan == chan] *)
Definition sleeping_on (ch : chan) (pr : proc) : bool :=
  bool_decide (p_state pr = SLEEPING) && bool_decide (p_chan pr = Some ch).

Definition wakeup (ch : chan) : K unit :=
  for_each all_procs (λ p,
    acquire (LProc p) ;;
    pr <- get_proc p ;;
    when (sleeping_on ch pr) (upd_proc p (set_p_state RUNNABLE)) ;;
    release (LProc p)).

Definition wakeup1 (p : Z) : K unit :=
  h <- holding (LProc p) ;;
  if negb h then panic "wakeup1" else
  pr <- get_proc p ;;
  when (bool_decide (p_chan pr = Some (CProc p)) && bool_decide (p_state pr = SLEEPING))
    (upd_proc p (set_p_state RUNNABLE)).

Definition kill (pid : Z) : K Z :=
  r <- for_find all_procs (λ p,
    acquire (LProc p) ;;
    pr <- get_proc p ;;
    if p_pid pr =? pid then
      upd_proc p (set_p_killed true) ;;
      pr <- get_proc p ;;
      when (bool_decide (p_state pr = SLEEPING)) (upd_proc p (set_p_state RUNNABLE)) ;;
      release (LProc p) ;;
      ret (Some 0)
    else
      release (LProc p) ;;
      ret None) ;;
  match r with Some v => ret v | None => ret (-1) end.

(** One pass of the scheduler's for (;;): [found] says whether a process ran. *)
Definition scheduler_pass (c : Z) : K unit :=
  intr_on ;;
  found <- foldl (λ m p,
    found <- m ;;
    acquire (LProc p) ;;
    pr <- get_proc p ;;
    found <- (if decide (p_state pr = RUNNABLE) then
      upd_proc p (set_p_state RUNNING) ;;
      upd_cpu c (set_c_proc (Some p)) ;;
      swtch ;;
      upd_cpu c (set_c_proc None) ;;
      ret true
    else ret found) ;;
    release (LProc p) ;;
    ret found) (ret false) all_procs ;;
  when (negb found) (
    intr_on ;;
    (* wfi *)
    wait_event).

Definition scheduler : K unit :=
  c <- mycpu ;;
  upd_cpu c (set_c_proc None) ;;
  loop_wait (scheduler_pass c ;; ret None).

(** either_copyout to a user address; [src] is a kernel object.  A kernel
    destination is [either_copyout] with [user_dst = 0], whose bytes are returned. *)
Definition either_copyout (user_dst : bool) (dst : Z) (kdst : bytes) (src : bytes) (len : Z)
    `{Layout} : K (Z * bytes) :=
  mp <- myproc ;;
  if user_dst then
    p <- deref mp ;;
    pr <- get_proc p ;;
    r <- copyout (p_pagetable pr) dst src len ;;
    ret (r, kdst)
  else
    ret (0, mem_copy kdst dst src 0 len).

Definition either_copyin (dst : bytes) (user_src : bool) (src : Z) (ksrc : bytes) (len : Z)
    `{Layout} : K (Z * bytes) :=
  mp <- myproc ;;
  if user_src then
    p <- deref mp ;;
    pr <- get_proc p ;;
    copyin (p_pagetable pr) dst src len
  else
    ret (0, mem_copy dst 0 ksrc src len).

(** Processes wait, and do nothing else, without bound. *)
Lemma total_deref {A} (p : option A) : total (deref p).
Proof. unfold deref. total. Qed.
Lemma total_get_proc p : total (get_proc p).
Proof. unfold get_proc. total. Qed.
Lemma total_upd_proc p f : total (upd_proc p f).
Proof. unfold upd_proc. total. Qed.
Lemma total_myproc : total myproc.
Proof. unfold myproc. total. Qed.
Lemma total_allocpid : total allocpid.
Proof. unfold allocpid. total. Qed.
#[export] Hint Resolve @total_deref total_get_proc total_upd_proc total_myproc total_allocpid : total.
Lemma waited_sched : waited sched.
Proof. unfold sched, swtch. total. Qed.
#[export] Hint Resolve waited_sched : total.
Lemma total_sched : total sched.
Proof. apply waited_total, waited_sched. Qed.
#[export] Hint Resolve total_sched : total.
Lemma total_yield : total yield.
Proof. unfold yield. total. Qed.
Lemma waited_sleep ch lk : waited (sleep ch lk).
Proof.
  unfold sleep. do 5 (apply waited_bind_r; [total|intro]). apply waited_bind_l; total.
Qed.
#[export] Hint Resolve total_yield waited_sleep : total.
Lemma total_sleep ch lk : total (sleep ch lk).
Proof. apply waited_total, waited_sleep. Qed.
Lemma total_wakeup ch : total (wakeup ch).
Proof. unfold wakeup. total. Qed.
Lemma total_wakeup1 p : total (wakeup1 p).
Proof. unfold wakeup1. total. Qed.
Lemma total_kill pid : total (kill pid).
Proof. unfold kill. total. Qed.
#[export] Hint Resolve total_sleep total_wakeup total_wakeup1 total_kill : total.

(** ** Uncontended runs *)

Lemma myproc_run env w : cpu_ok w → myproc env w = Ret (c_proc (my_cpu w)) env (settle w).
Proof.
  intros Hok. pose proof Hok as (Ht & Hn & Hs). unfold myproc. mcall push_off_run.
  unfold mycpu. mcall cpuid_tp. unfold get_cpu. msteps.
  assert (Hc : w_cpus (pushed w) (w_tp (pushed w)) = my_cpu (pushed w)) by done.
  mcall pop_off_run; [apply sie_pushed|rewrite noff_pushed; lia|].
  msteps. rewrite pop_pushed by done. f_equal.
  unfold pushed. rsimpl. by rewrite fn_lookup_insert.
Qed.

(** All the process locks are free. *)
Definition procs_free (w : world) : Prop := ∀ p, 0 ≤ p < NPROC → lk_free w (LProc p).

(** What wakeup does to the process table. *)
Definition wake (ch : chan) (pr : proc) : proc :=
  if sleeping_on ch pr then set_p_state RUNNABLE pr else pr.

Definition woken (ch : chan) (l : list Z) (f : Z → proc) : Z → proc :=
  λ p, if decide (p ∈ l) then wake ch (f p) else f p.

Lemma woken_nil ch f : woken ch [] f = f.
Proof. extensionality p. unfold woken. rewrite decide_False; [done|set_solver]. Qed.

Lemma woken_cons ch p l f :
  p ∉ l → woken ch l (<[p := wake ch (f p)]> f) = woken ch (p :: l) f.
Proof.
  intros Hp. extensionality q. unfold woken. destruct (decide (p = q)) as [->|Hne].
  - rewrite decide_False, decide_True, fn_lookup_insert; [done|set_solver|done].
  - rewrite fn_lookup_insert_ne by done. destruct (decide (q ∈ l)).
    + rewrite decide_True; [done|set_solver].
    + rewrite decide_False; [done|set_solver].
Qed.

Lemma wakeup_one ch p env w :
  cpu_ok w → lk_free w (LProc p) →
  (acquire (LProc p) ;;
   pr <- get_proc p ;;
   when (sleeping_on ch pr) (upd_proc p (set_p_state RUNNABLE)) ;;
   release (LProc p)) env w = Ret tt env (set_procs (<[p := wake ch (w_procs w p)]> (w_procs w)) (settle w)).
Proof.
  intros Hok Hlk. mcall (acquire_free (LProc p) env w); [by auto|]. unfold get_proc. msteps.
  change (w_procs (locked_by (LProc p) w)) with (w_procs w). unfold wake.
  destruct (sleeping_on ch (w_procs w p)); unfold upd_proc; msteps.
  - etransitivity; [by apply (release_after (LProc p) env w)|]. rsimpl. autorewrite with xv6. reflexivity.
  - rewrite fn_insert_id. rewrite (release_after (LProc p) env w) by done. reflexivity.
Qed.

Lemma wakeup_list ch l env w :
  cpu_ok w → NoDup l → (∀ p, p ∈ l → lk_free w (LProc p)) → l ≠ [] →
  for_each l (λ p,
    acquire (LProc p) ;;
    pr <- get_proc p ;;
    when (sleeping_on ch pr) (upd_proc p (set_p_state RUNNABLE)) ;;
    release (LProc p)) env w = Ret tt env (set_procs (woken ch l (w_procs w)) (settle w)).
Proof.
  revert w. induction l as [|p l IH]; intros w Hok Hnd Hlk Hne; [done|]. clear Hne.
  apply NoDup_cons in Hnd as [Hp Hnd]. cbn [for_each].
  mcall (wakeup_one ch p env w); [by apply Hlk; left|].
  destruct l as [|q l].
  - cbn. rewrite <-woken_cons, woken_nil by done. reflexivity.
  - rewrite IH; [|by apply (settle_cpu_ok w)|done|intros r Hr; by apply Hlk; right|done].
    change (settle (set_procs ?f (settle w))) with (set_procs f (settle (settle w))).
    rewrite settle_settle. rewrite <-(woken_cons ch p) by done. reflexivity.
Qed.

Lemma wakeup_run ch env w :
  cpu_ok w → procs_free w →
  wakeup ch env w = Ret tt env (set_procs (woken ch all_procs (w_procs w)) (settle w)).
Proof.
  intros Hok Hf. apply wakeup_list; [done|apply NoDup_seqZ| |done].
  intros p Hp%elem_of_seqZ. apply Hf. lia.
Qed.

Lemma holding_lk_mine l env w :
  0 ≤ w_tp w < NCPU → lk_mine w l → holding l env w = Ret true env w.
Proof.
  intros Ht [H1 H2]. rewrite holding_run by done. rewrite H1, H2. by rewrite bool_decide_true.
Qed.

(** ** The sleep and wakeup protocol

    One process runs [acquire(lk); while (!cond) sleep(chan, lk); ... release(lk)]
    while any number of others run [acquire(lk); cond = 1; wakeup(chan);
    release(lk)]; the steps are those of sleep, sched, wakeup and the scheduler,
    interleaved in any order, each with the party that makes it; that the scheduler
    picks the process is a step of the process.  [sp] is where the process is, [wp t]
    where waker [t] is; the locks lk and p->lock record who holds them. *)

Module Handoff.

Inductive who := Sleeper | Waker (t : Z) | Scheduler.

Inductive spc :=
| SOut        (* before acquire(lk) *)
| SCheck      (* holds lk, about to test cond *)
| SWork       (* holds lk, saw cond *)
| SLockP      (* in sleep, about to acquire p->lock *)
| SDropLk     (* in sleep, holds both, about to release lk *)
| SMark       (* holds p->lock, about to set p->chan and p->state *)
| SSched      (* in sched, about to switch away *)
| SOff        (* off the cpu *)
| SBack       (* switched back to, holds p->lock *)
| SRelock.    (* p->lock released, about to acquire lk *)

Inductive wpc :=
| WOut        (* before acquire(lk) *)
| WSet        (* holds lk, about to set cond *)
| WLockP      (* in wakeup, about to acquire p->lock *)
| WWake       (* in wakeup, holds p->lock *)
| WDropP      (* in wakeup, about to release p->lock *)
| WDropLk.    (* about to release lk *)

Record state := mkState {
  lk : option who;
  plk : option who;
  cond : bool;
  pst : procstate;
  chan_set : bool;
  sp : spc;
  wpcs : Z → wpc
}.

Definition init : state := mkState None None false RUNNING false SOut (λ _, WOut).

Inductive handoff_step : who → state → state → Prop :=
(* the sleeper *)
| s_acquire plk c st ch w :
    handoff_step Sleeper (mkState None plk c st ch SOut w) (mkState (Some Sleeper) plk c st ch SCheck w)
| s_check lk plk c st ch w :
    handoff_step Sleeper (mkState lk plk c st ch SCheck w) (mkState lk plk c st ch (if c then SWork else SLockP) w)
| s_work plk c st ch w : (* consume the condition and release(lk) *)
    handoff_step Sleeper (mkState (Some Sleeper) plk c st ch SWork w) (mkState None plk false st ch SOut w)
| s_lockp lk c st ch w :
    handoff_step Sleeper (mkState lk None c st ch SLockP w) (mkState lk (Some Sleeper) c st ch SDropLk w)
| s_droplk lk plk c st ch w :
    handoff_step Sleeper (mkState lk plk c st ch SDropLk w) (mkState None plk c st ch SMark w)
| s_mark lk plk c st ch w :
    handoff_step Sleeper (mkState lk plk c st ch SMark w) (mkState lk plk c SLEEPING true SSched w)
| s_swtch lk plk c st ch w : (* the scheduler's context releases p->lock *)
    handoff_step Sleeper (mkState lk plk c st ch SSched w) (mkState lk None c st ch SOff w)
| s_run lk c ch w : (* the scheduler picks the process *)
    handoff_step Sleeper (mkState lk None c RUNNABLE ch SOff w) (mkState lk (Some Sleeper) c RUNNING ch SBack w)
| s_back lk plk c st ch w : (* p->chan = 0; release(&p->lock) *)
    handoff_step Sleeper (mkState lk plk c st ch SBack w) (mkState lk None c st false SRelock w)
| s_relock plk c st ch w :
    handoff_step Sleeper (mkState None plk c st ch SRelock w) (mkState (Some Sleeper) plk c st ch SCheck w)
(* a waker *)
| w_acquire plk c st ch s w t :
    w t = WOut → handoff_step (Waker t) (mkState None plk c st ch s w) (mkState (Some (Waker t)) plk c st ch s (<[t := WSet]> w))
| w_set lk plk c st ch s w t :
    w t = WSet → handoff_step (Waker t) (mkState lk plk c st ch s w) (mkState lk plk true st ch s (<[t := WLockP]> w))
| w_lockp lk c st ch s w t :
    w t = WLockP → handoff_step (Waker t) (mkState lk None c st ch s w) (mkState lk (Some (Waker t)) c st ch s (<[t := WWake]> w))
| w_wake lk plk c st ch s w t :
    w t = WWake →
    handoff_step (Waker t) (mkState lk plk c st ch s w)
      (mkState lk plk c (if bool_decide (st = SLEEPING) && ch then RUNNABLE else st) ch s (<[t := WDropP]> w))
| w_dropp lk plk c st ch s w t :
    w t = WDropP → handoff_step (Waker t) (mkState lk plk c st ch s w) (mkState lk None c st ch s (<[t := WDropLk]> w))
| w_droplk lk plk c st ch s w t :
    w t = WDropLk → handoff_step (Waker t) (mkState lk plk c st ch s w) (mkState None plk c st ch s (<[t := WOut]> w))
(* the scheduler looks at the process and leaves it *)
| o_lock lk c st ch s w :
    handoff_step Scheduler (mkState lk None c st ch s w) (mkState lk (Some Scheduler) c st ch s w)
| o_unlock lk c st ch s w :
    handoff_step Scheduler (mkState lk (Some Scheduler) c st ch s w) (mkState lk None c st ch s w).

Inductive reachable : state → Prop :=
| reach_init : reachable init
| reach_step a s s' : reachable s → handoff_step a s s' → reachable s'.

Definition s_has_lk (s : spc) : bool :=
  match s with SCheck | SWork | SLockP | SDropLk => true | _ => false end.
Definition s_has_plk (s : spc) : bool :=
  match s with SDropLk | SMark | SSched | SBack => true | _ => false end.
Definition w_has_lk (w : wpc) : bool := match w with WOut => false | _ => true end.
Definition w_has_plk (w : wpc) : bool := match w with WWake | WDropP => true | _ => false end.

(** A wakeup that is still to come. *)
Definition pending (w : Z → wpc) : Prop := ∃ t, w t = WLockP ∨ w t = WWake.

Record inv (s : state) : Prop := {
  inv_lk_s : s_has_lk (sp s) = true ↔ lk s = Some Sleeper;
  inv_lk_w : ∀ t, w_has_lk (wpcs s t) = true ↔ lk s = Some (Waker t);
  inv_plk_s : s_has_plk (sp s) = true ↔ plk s = Some Sleeper;
  inv_plk_w : ∀ t, w_has_plk (wpcs s t) = true ↔ plk s = Some (Waker t);
  (* on the way to sleep the condition is false, or its wakeup is pending *)
  inv_saw : sp s = SLockP ∨ sp s = SDropLk → cond s = false;
  inv_going : sp s = SMark ∨ sp s = SSched → cond s = true → pending (wpcs s);
  inv_off : sp s = SOff → pst s = SLEEPING → cond s = true → pending (wpcs s);
  inv_off_state : sp s = SOff → (pst s = SLEEPING ∨ pst s = RUNNABLE);
  inv_marked : sp s = SSched ∨ (sp s = SOff ∧ pst s = SLEEPING) → chan_set s = true;
  inv_sched : sp s = SSched → pst s = SLEEPING
}.

Lemma pending_keep w t p :
  w t ≠ WLockP → w t ≠ WWake → pending w → pending (<[t := p]> w).
Proof.
  intros H1 H2 (t0 & H0). exists t0. destruct (decide (t = t0)) as [->|]; [naive_solver|].
  by rewrite fn_lookup_insert_ne.
Qed.

Lemma pending_now w t p : p = WLockP ∨ p = WWake → pending (<[t := p]> w).
Proof. intros Hp. exists t. by rewrite fn_lookup_insert. Qed.

(** Lock ownership after a waker's move. *)
Lemma owner_waker (has : wpc → bool) (own own' : option who) (w : Z → wpc) (t : Z) (p : wpc) :
  (∀ t', has (w t') = true ↔ own = Some (Waker t')) →
  (has p = true ↔ own' = Some (Waker t)) →
  (∀ t', t' ≠ t → own' = Some (Waker t') ↔ own = Some (Waker t')) →
  ∀ t', has ((<[t := p]> w) t') = true ↔ own' = Some (Waker t').
Proof.
  intros H1 H2 H3 t'. destruct (decide (t = t')) as [->|Hne].
  - by rewrite fn_lookup_insert.
  - rewrite fn_lookup_insert_ne by done. rewrite H3 by done. apply H1.
Qed.

(** On the way to sleep the sleeper holds p->lock, so that no waker does. *)
Lemma going_holds s : s = SMark ∨ s = SSched → s_has_plk s = true.
Proof. by intros [->| ->]. Qed.

Lemma inv_handoff_step a s s' : inv s → handoff_step a s s' → inv s'.
Proof.
  intros [I1 I2 I3 I4 I5 I6 I7 I8 I9 I10] Hs.
  pose proof (proj1 I1) as J1. pose proof (proj1 I3) as J3.
  destruct Hs; cbn in *;
    try match goal with Hw : ?w ?t = _ |- _ =>
      pose proof (proj1 (I2 t)) as K2; pose proof (proj1 (I4 t)) as K4; pose proof (proj2 (I4 t)) as N4;
      rewrite Hw in K2, K4, N4; cbn in K2, K4, N4 end;
    try specialize (J1 eq_refl); try specialize (J3 eq_refl);
    try specialize (K2 eq_refl); try specialize (K4 eq_refl); simplify_eq;
    try match goal with |- context [if ?c then SWork else _] => destruct c end.
  all: constructor; cbn.
  all: try first
    [ assumption
    | intros t'; rewrite ?I2, ?I4; split; congruence
    | eapply owner_waker; [eassumption|split; [cbn; congruence|cbn; intuition congruence]|split; congruence] ].
  all: try (clear I2 I4; first
    [ split; cbn; congruence
    | intuition congruence
    | intros; eapply pending_keep; [congruence|congruence|intuition congruence]
    | intros; apply pending_now; intuition congruence ]).
  (* a waker sets the condition while the sleeper holds lk *)
  - intros [->| ->]; specialize (J1 eq_refl); congruence.
  (* a waker in wakeup, with p->lock *)
  - intros Hg%going_holds. specialize (J3 Hg). congruence.
  - intros Hs E _. exfalso. destruct (I8 Hs) as [->| ->]; cbn in E; [|done].
    rewrite (I9 (or_intror (conj Hs eq_refl))) in E. done.
  - intros Hs. destruct (I8 Hs) as [->| ->]; cbn; [|by right]. destruct ch; auto.
  - intros [Hs|[Hs E]]; apply I9; [by left|right]. split; [done|].
    destruct (I8 Hs) as [->| ->]; [done|]. by cbn in E.
  - intros Hs. specialize (J3 (going_holds s (or_intror Hs))). congruence.
Qed.

Lemma handoff_reachable s : reachable s → inv s.
Proof.
  induction 1; [|by eapply inv_handoff_step].
  constructor; cbn; try done; naive_solver.
Qed.



End Handoff.

Module Procs.

Lemma settled_procs f w : set_procs f (settle w) ≈ set_procs f w.
Proof. apply (weq_map (set_procs f)); [apply settle_weq|done]. Qed.

(** with the process locks free, wakeup makes RUNNABLE exactly the processes
    that sleep on the channel, changes nothing else of them, and gives back the
    locks and the interrupt state. *)
Theorem wakeup_exact ch env w :
  cpu_ok w → procs_free w →
  ∃ w', wakeup ch env w = Ret tt env w' ∧ w' ≈ set_procs (w_procs w') w
    ∧ (∀ p, 0 ≤ p < NPROC → w_procs w' p =
         if sleeping_on ch (w_procs w p) then set_p_state RUNNABLE (w_procs w p) else w_procs w p)
    ∧ (∀ p, ¬ (0 ≤ p < NPROC) → w_procs w' p = w_procs w p).
Proof.
  intros Hok Hf. eexists. split; [by apply wakeup_run|]. rsimpl. split_and!.
  - apply settled_procs.
  - intros p Hp. unfold woken. rewrite decide_True; [done|]. apply elem_of_seqZ. lia.
  - intros p Hp. unfold woken. rewrite decide_False; [done|]. intros Hx%elem_of_seqZ. lia.
Qed.

Lemma wakeup_exact_witness :
  let w := set_procs (<[3 := set_p_chan (Some CTicks) (set_p_state SLEEPING zero_proc)]> (w_procs image_world)) image_world in
  procs_free w ∧ ∃ w', wakeup CTicks [] w = Ret tt [] w' ∧ p_state (w_procs w' 3) = RUNNABLE.
Proof.
  intros w. split; [by intros p Hp|].
  destruct (wakeup_exact CTicks [] w ltac:(done) ltac:(by intros p Hp)) as (w' & E & _ & H & _).
  exists w'. split; [exact E|]. clear E. rewrite H by (unfold NPROC; lia). reflexivity.
Defined.

(** The body of kill's loop. *)
Definition kill_body (pid p : Z) : K (option Z) :=
  acquire (LProc p) ;;
  pr <- get_proc p ;;
  if p_pid pr =? pid then
    upd_proc p (set_p_killed true) ;;
    pr <- get_proc p ;;
    when (bool_decide (p_state pr = SLEEPING)) (upd_proc p (set_p_state RUNNABLE)) ;;
    release (LProc p) ;;
    ret (Some 0)
  else
    release (LProc p) ;;
    ret None.

(** A process after kill. *)
Definition slain (pr : proc) : proc :=
  set_p_state (if decide (p_state pr = SLEEPING) then RUNNABLE else p_state pr) (set_p_killed true pr).

Lemma kill_body_run pid p env w :
  cpu_ok w → lk_free w (LProc p) →
  kill_body pid p env w =
    if p_pid (w_procs w p) =? pid
    then Ret (Some 0) env (set_procs (<[p := slain (w_procs w p)]> (w_procs w)) (settle w))
    else Ret None env (settle w).
Proof.
  intros Hok Hl. unfold kill_body. mcall (acquire_free (LProc p) env w); [by auto|].
  unfold get_proc, upd_proc. msteps. change (w_procs (locked_by (LProc p) w)) with (w_procs w).
  destruct (Z.eqb_spec (p_pid (w_procs w p)) pid); msteps.
  - rsimpl. rewrite fn_alter_insert, fn_lookup_insert. rsimpl. unfold slain.
    change (w_procs (locked_by (LProc p) w)) with (w_procs w).
    destruct (decide (p_state (w_procs w p) = SLEEPING)) as [E|E].
    + rewrite bool_decide_true by done. msteps.
      mcall (release_after (LProc p) env w); [reflexivity..|]. rsimpl. autorewrite with xv6. reflexivity.
    + rewrite bool_decide_false by done. msteps.
      mcall (release_after (LProc p) env w); [reflexivity..|]. rsimpl.
      change (set_p_state (p_state (w_procs w p)) (set_p_killed true (w_procs w p)))
        with (set_p_killed true (w_procs w p)). reflexivity.
  - mcall (release_after (LProc p) env w); [reflexivity..|]. reflexivity.
Qed.

Lemma kill_list pid l env w :
  cpu_ok w → (∀ p, p ∈ l → lk_free w (LProc p)) →
  match list_find (λ p, p_pid (w_procs w p) = pid) l with
  | None => ∃ w', for_find l (kill_body pid) env w = Ret None env w' ∧ w' ≈ w
  | Some (_, p) => ∃ w', for_find l (kill_body pid) env w = Ret (Some 0) env w'
      ∧ w' ≈ set_procs (<[p := slain (w_procs w p)]> (w_procs w)) w
  end.
Proof.
  revert w. induction l as [|p l IH]; intros w Hok Hl; [by exists w|].
  cbn [list_find for_find].
  pose proof (kill_body_run pid p env w Hok (Hl p ltac:(by left))) as E. destruct (decide (p_pid (w_procs w p) = pid)) as [Ep|Ep].
  - rewrite (proj2 (Z.eqb_eq _ _) Ep) in E. eexists. split; [by mrun E|].
    apply settled_procs.
  - rewrite (proj2 (Z.eqb_neq _ _) Ep) in E.
    specialize (IH (settle w) (settle_cpu_ok w Hok) (λ q Hq, Hl q (list_elem_of_further _ _ _ Hq))).
    change (w_procs (settle w)) with (w_procs w) in IH.
    destruct (list_find _ l) as [[i q]|]; cbn; destruct IH as (w' & E' & Hw'); exists w'; (split; [by mrun E|]).
    + etransitivity; [exact Hw'|].
      apply settled_procs.
    + etransitivity; [exact Hw'|]. apply settle_weq.
Qed.

(** kill marks exactly the first process with that pid as killed, wakes it if
    it sleeps and returns 0; with no such process it returns -1 and changes
    nothing. *)
Theorem kill_exact pid env w :
  cpu_ok w → procs_free w →
  match list_find (λ p, p_pid (w_procs w p) = pid) all_procs with
  | None => ∃ w', kill pid env w = Ret (-1) env w' ∧ w' ≈ w
  | Some (_, p) => ∃ w', kill pid env w = Ret 0 env w'
      ∧ w' ≈ set_procs (<[p := slain (w_procs w p)]> (w_procs w)) w
  end.
Proof.
  intros Hok Hf. pose proof (kill_list pid all_procs env w Hok) as H.
  assert (Hfr : ∀ p, p ∈ all_procs → lk_free w (LProc p)) by (intros p Hp%elem_of_seqZ; apply Hf; lia).
  specialize (H Hfr). unfold kill. fold (kill_body pid).
  destruct (list_find _ all_procs) as [[i p]|]; destruct H as (w' & E & Hw'); exists w';
    (split; [|exact Hw']); by mrun E.
Qed.

Lemma kill_exact_witness :
  procs_free image_world ∧ ∃ w', kill 5 [] image_world = Ret (-1) [] w'.
Proof.
  split; [by intros p Hp|].
  destruct (kill_exact 5 [] image_world ltac:(done) ltac:(by intros p Hp)) as (w' & E & _).
  exists w'. exact E.
Defined.

(** kill(0) succeeds when a process slot is free, and marks that slot: an
    UNUSED slot has pid 0, and neither kill nor allocproc's scan for an UNUSED
    slot looks at the state or resets the flag. *)
Theorem kill_zero_marks_unused env w q :
  cpu_ok w → procs_free w → 0 ≤ q < NPROC →
  w_procs w q = zero_proc → (∀ p, 0 ≤ p < q → p_pid (w_procs w p) ≠ 0) →
  ∃ w', kill 0 env w = Ret 0 env w'
    ∧ p_state (w_procs w' q) = UNUSED ∧ p_killed (w_procs w' q) = true.
Proof.
  intros Hok Hf Hq Eq Hbefore. pose proof (kill_list 0 all_procs env w Hok) as H.
  assert (Hfr : ∀ p, p ∈ all_procs → lk_free w (LProc p)) by (intros p Hp%elem_of_seqZ; apply Hf; lia).
  specialize (H Hfr).
  assert (El : list_find (λ p, p_pid (w_procs w p) = 0) all_procs = Some (Z.to_nat q, q)).
  { apply list_find_Some. split_and!.
    - apply lookup_seqZ. lia.
    - by rewrite Eq.
    - intros j y Hj%lookup_seqZ Hlt. apply Hbefore. lia. }
  rewrite El in H. destruct H as (w' & E & Hw'). exists w'. split.
  - unfold kill. fold (kill_body 0). by mrun E.
  - assert (Ep : w_procs w' q = slain zero_proc).
    { etransitivity; [exact (weq_field (λ v, w_procs v q) _ _ Hw' (λ _, eq_refl))|]. rsimpl.
      rewrite fn_lookup_insert. by rewrite Eq. }
    by rewrite Ep.
Qed.

Lemma kill_zero_marks_unused_witness :
  w_procs image_world 0 = zero_proc ∧
  ∃ w', kill 0 [] image_world = Ret 0 [] w' ∧ p_killed (w_procs w' 0) = true.
Proof.
  split; [reflexivity|].
  destruct (kill_zero_marks_unused [] image_world 0 ltac:(done) ltac:(by intros p Hp) ltac:(done) eq_refl
    ltac:(lia)) as (w' & E & _ & K).
  exists w'. split; [exact E|exact K].
Defined.

End Procs.
