(* ===== verification/Liveness.v ===== *)
(** * Sleep and wakeup make progress

    Runs of the protocol of Sched (Module Handoff) that go on forever, in which no
    party that is inside the protocol is passed over forever. *)

From S2P Require Import Prelude Types StringC Spinlock Kalloc PageTable Vm Sched.
Import Handoff.

#[local] Instance who_eq_dec : EqDecision who.
Proof. solve_decision. Defined.

(** [a] is inside the protocol and could take a step. *)
Definition obliged (a : who) (s : state) : Prop :=
  (∃ s', handoff_step a s s') ∧
  match a with Sleeper => sp s ≠ SOut | Waker t => wpcs s t ≠ WOut | Scheduler => plk s = Some Scheduler end.

(** An infinite run, fair to each party: it acts again and again, or from some time
    on it is never obliged to. *)
Record fair_run := {
  run_state : nat → state;
  run_act : nat → who;
  run_start : run_state 0%nat = init;
  run_step n : handoff_step (run_act n) (run_state n) (run_state (S n));
  run_fair a n : ∃ m, (n ≤ m)%nat ∧ (run_act m = a ∨ ∀ k, (m ≤ k)%nat → ¬ obliged a (run_state k))
}.

(** ** Single steps *)

Definition next_w (p : wpc) : wpc :=
  match p with WOut => WSet | WSet => WLockP | WLockP => WWake | WWake => WDropP | WDropP => WDropLk | WDropLk => WOut end.

Definition next_s (p : spc) (c : bool) : spc :=
  match p with
  | SOut => SCheck | SCheck => if c then SWork else SLockP | SWork => SOut | SLockP => SDropLk | SDropLk => SMark
  | SMark => SSched | SSched => SOff | SOff => SBack | SBack => SRelock | SRelock => SCheck
  end.

Lemma waker_step b s s' t : handoff_step b s s' → wpcs s' t = if decide (b = Waker t) then next_w (wpcs s t) else wpcs s t.
Proof.
  intros H. destruct H; cbn; try (rewrite decide_False by congruence; done);
    (destruct (decide (t0 = t)) as [->|Hne]; [rewrite decide_True, fn_lookup_insert by done|rewrite decide_False, fn_lookup_insert_ne by congruence]);
    repeat match goal with E : ?f t = _ |- context [?f t] => rewrite E end; done.
Qed.

Lemma sleeper_step b s s' : handoff_step b s s' → sp s' = if decide (b = Sleeper) then next_s (sp s) (cond s) else sp s.
Proof. intros H. destruct H; cbn; done. Qed.

Lemma lk_owner s : reachable s → lk s ≠ Some Scheduler.
Proof. induction 1 as [|a s s' _ IH Hs]; [done|]. destruct Hs; cbn in *; congruence. Qed.

(** Only the process itself takes the condition back. *)
Lemma cond_step b s s' : handoff_step b s s' → cond s = true → sp s = SWork ∨ cond s' = true.
Proof. intros H. destruct H; cbn; auto. Qed.

Lemma waker_obliged s t : wpcs s t ≠ WOut → (wpcs s t = WLockP → plk s = None) → obliged (Waker t) s.
Proof.
  intros H1 H2. split; [|done]. destruct s as [l p c st ch q w]. cbn in *.
  destruct (w t) eqn:E; [done|..]; try (rewrite H2 by done); eexists.
  - by apply w_set.
  - by apply w_lockp.
  - by apply w_wake.
  - by apply w_dropp.
  - by apply w_droplk.
Qed.

Lemma sleeper_obliged s :
  inv s → sp s ≠ SOut → (sp s = SLockP → plk s = None) → (sp s = SOff → plk s = None ∧ pst s = RUNNABLE) → (sp s = SRelock → lk s = None) → obliged Sleeper s.
Proof.
  intros I H1 H2 H3 H4. split; [|done]. pose proof (proj1 (inv_lk_s s I)) as Hl. destruct s as [l p c st ch q w]. cbn in *.
  destruct q; try done; try (rewrite H2 by done); try (destruct H3 as [-> ->]; [done|]); try (rewrite H4 by done); try (rewrite Hl by done); eexists; constructor.
Qed.

(** ** From states to later states *)

Section Run.
Context (R : fair_run).
Abbreviation σ := (run_state R).

Lemma run_reachable n : reachable (σ n).
Proof. induction n as [|n IH]; [rewrite run_start; apply reach_init|]. eapply reach_step; [exact IH|apply run_step]. Qed.

Definition leads (P Q : state → Prop) : Prop := ∀ n, P (σ n) → ∃ m, (n ≤ m)%nat ∧ Q (σ m).

Lemma leads_trans P Q Q' : leads P Q → leads Q Q' → leads P Q'.
Proof. intros H1 H2 n HP. destruct (H1 n HP) as (m & Hm & HQ). destruct (H2 m HQ) as (k & Hk & HQ'). exists k. split; [lia|done]. Qed.

Lemma leads_or P P' Q : leads P Q → leads P' Q → leads (λ s, P s ∨ P' s) Q.
Proof. intros H1 H2 n [HP|HP]; [by apply H1|by apply H2]. Qed.

Lemma leads_weak (P P' Q Q' : state → Prop) : leads P Q → (∀ s, inv s → P' s → P s) → (∀ s, Q s → Q' s) → leads P' Q'.
Proof. intros H H1 H2 n HP. destruct (H n) as (m & Hm & HQ); [apply H1; [apply handoff_reachable, run_reachable|done]|]. exists m. auto. Qed.

(** [P] holds until [Q] does. *)
Definition until (P Q : state → Prop) : Prop := ∀ b s s', inv s → P s → handoff_step b s s' → P s' ∨ Q s'.

Lemma until_holds P Q n k : until P Q → P (σ n) → (n ≤ k)%nat → P (σ k) ∨ ∃ m, (n ≤ m)%nat ∧ Q (σ m).
Proof.
  intros HU HP. induction 1 as [|k Hk [IH|IH]]; [by left| |by right].
  destruct (HU (run_act R k) (σ k) (σ (S k))) as [H|H]; [apply handoff_reachable, run_reachable|done|apply run_step|by left|right]. exists (S k). split; [lia|done].
Qed.

(** [P] until [Q], and a party that makes [Q] true gets the chance again and again. *)
Lemma leads_fair (a : who) (T P Q : state → Prop) :
  (∀ n, ∃ k, (n ≤ k)%nat ∧ T (σ k)) → until P Q → (∀ s s', inv s → P s → handoff_step a s s' → Q s') →
  (∀ s, inv s → P s → T s → obliged a s) → leads P Q.
Proof.
  intros HT HU Ha Ho n HP. destruct (run_fair R a n) as (m & Hm & Hf). destruct (until_holds P Q n m HU HP Hm) as [HPm|]; [|done].
  destruct Hf as [E|Hf].
  - exists (S m). split; [lia|]. apply (Ha (σ m)); [apply handoff_reachable, run_reachable|done|]. rewrite <-E. apply run_step.
  - destruct (HT m) as (k & Hk & HTk). destruct (until_holds P Q m k HU HPm Hk) as [HPk|(j & Hj & HQ)]; [|exists j; split; [lia|done]].
    destruct (Hf k Hk). apply Ho; [apply handoff_reachable, run_reachable|done|done].
Qed.

Lemma always n : ∃ k, (n ≤ k)%nat ∧ True.
Proof. by exists n. Qed.

(** A waker takes its next step. *)
Lemma waker_leads T t p :
  p ≠ WOut → (∀ n, ∃ k, (n ≤ k)%nat ∧ T (σ k)) → (∀ s, T s → p = WLockP → plk s = None) → leads (λ s, wpcs s t = p) (λ s, wpcs s t = next_w p).
Proof.
  intros Hp HT Hl. apply (leads_fair (Waker t) T); [done|..].
  - intros b s s' _ HP Hs. rewrite (waker_step _ _ _ t Hs), HP. case_decide; auto.
  - intros s s' _ HP Hs. by rewrite (waker_step _ _ _ t Hs), decide_True, HP.
  - intros s _ HP HTs. apply waker_obliged; rewrite HP; [done|]. by apply Hl.
Qed.

(** So does the process, when it does not have to wait. *)
Lemma sleeper_leads T p :
  p ≠ SOut → p ≠ SOff → (∀ n, ∃ k, (n ≤ k)%nat ∧ T (σ k)) → (∀ s, T s → p = SLockP → plk s = None) → (∀ s, T s → p = SRelock → lk s = None) →
  leads (λ s, sp s = p) (λ s, ∃ c, sp s = next_s p c).
Proof.
  intros Hp Hp' HT Hl Hl'. apply (leads_fair Sleeper T); [done|..].
  - intros b s s' _ HP Hs. rewrite (sleeper_step _ _ _ Hs), HP. case_decide; eauto.
  - intros s s' _ HP Hs. rewrite (sleeper_step _ _ _ Hs), decide_True, HP by done. eauto.
  - intros s I HP HTs. apply sleeper_obliged; rewrite ?HP; try done; [by apply Hl|by apply Hl'].
Qed.

(** With the condition true it stays true until the process is at work. *)
Lemma sleeper_leads_cond T p :
  p ≠ SOut → p ≠ SOff → p ≠ SWork → (∀ n, ∃ k, (n ≤ k)%nat ∧ T (σ k)) → (∀ s, T s → p = SLockP → plk s = None) → (∀ s, T s → p = SRelock → lk s = None) →
  leads (λ s, sp s = p ∧ cond s = true) (λ s, sp s = next_s p true ∧ cond s = true).
Proof.
  intros Hp Hp' Hw HT Hl Hl'. apply (leads_fair Sleeper T); [done|..].
  - intros b s s' _ [HP Hc] Hs. destruct (cond_step _ _ _ Hs Hc); [congruence|]. rewrite (sleeper_step _ _ _ Hs), HP, Hc. case_decide; auto.
  - intros s s' _ [HP Hc] Hs. destruct (cond_step _ _ _ Hs Hc); [congruence|]. rewrite (sleeper_step _ _ _ Hs), decide_True, HP, Hc by done. auto.
  - intros s I [HP Hc] HTs. apply sleeper_obliged; rewrite ?HP; try done; [by apply Hl|by apply Hl'].
Qed.

(** ** The locks become free *)

Lemma scheduler_unlocks : leads (λ s, plk s = Some Scheduler) (λ s, plk s = None).
Proof.
  apply (leads_fair Scheduler (λ _, True)); [apply always|..].
  - intros b s s' I HP Hs. destruct Hs; cbn in *; simplify_eq; auto.
  - intros s s' I HP Hs. inversion Hs; subst; cbn in *; congruence.
  - intros [l p c st ch q w] I HP _. cbn in *. subst p. split; [|done]. eexists. apply o_unlock.
Qed.

Lemma waker_unlocks_p t : leads (λ s, wpcs s t = WDropP) (λ s, plk s = None).
Proof.
  apply (leads_fair (Waker t) (λ _, True)); [apply always|..].
  - intros b s s' _ HP Hs. rewrite (waker_step _ _ _ t Hs), HP. case_decide as Hb; [|by left]. right. subst b. inversion Hs; subst; cbn in *; congruence.
  - intros s s' _ HP Hs. inversion Hs; subst; cbn in *; congruence.
  - intros s _ HP _. apply waker_obliged; congruence.
Qed.

Lemma waker_unlocks t : leads (λ s, wpcs s t = WDropLk) (λ s, lk s = None).
Proof.
  apply (leads_fair (Waker t) (λ _, True)); [apply always|..].
  - intros b s s' _ HP Hs. rewrite (waker_step _ _ _ t Hs), HP. case_decide as Hb; [|by left]. right. subst b. inversion Hs; subst; cbn in *; congruence.
  - intros s s' _ HP Hs. inversion Hs; subst; cbn in *; congruence.
  - intros s _ HP _. apply waker_obliged; congruence.
Qed.

Lemma sleeper_unlocks_p p : p = SSched ∨ p = SBack → leads (λ s, sp s = p) (λ s, plk s = None).
Proof.
  intros Hp. apply (leads_fair Sleeper (λ _, True)); [apply always|..].
  - intros b s s' _ HP Hs. rewrite (sleeper_step _ _ _ Hs), HP. case_decide as Hb; [|by left]. right. subst b. inversion Hs; subst; cbn in *; destruct Hp; congruence.
  - intros s s' _ HP Hs. inversion Hs; subst; cbn in *; destruct Hp; congruence.
  - intros s I HP _. apply sleeper_obliged; destruct Hp; subst p; try congruence; done.
Qed.

Lemma sleeper_unlocks p : p = SWork ∨ p = SDropLk → leads (λ s, sp s = p) (λ s, lk s = None).
Proof.
  intros Hp. apply (leads_fair Sleeper (λ _, True)); [apply always|..].
  - intros b s s' _ HP Hs. rewrite (sleeper_step _ _ _ Hs), HP. case_decide as Hb; [|by left]. right. subst b. inversion Hs; subst; cbn in *; destruct Hp; congruence.
  - intros s s' _ HP Hs. inversion Hs; subst; cbn in *; destruct Hp; congruence.
  - intros s I HP _. apply sleeper_obliged; destruct Hp; subst p; try congruence; done.
Qed.

(** The next step, of a party that does not wait. *)
Lemma waker_next t p : p ≠ WOut → p ≠ WLockP → leads (λ s, wpcs s t = p) (λ s, wpcs s t = next_w p).
Proof. intros H1 H2. by apply (waker_leads (λ _, True)); [|apply always|]. Qed.

Lemma sleeper_next p q : p ≠ SOut → p ≠ SOff → p ≠ SLockP → p ≠ SRelock → (∀ c, next_s p c = q) → leads (λ s, sp s = p) (λ s, sp s = q).
Proof.
  intros H1 H2 H3 H4 Hq. eapply leads_weak; [apply (sleeper_leads (λ _, True) p); [done|done|apply always|done|done]|by intros|]. cbn. intros s (c & ->). apply Hq.
Qed.

Lemma sleeper_frees_p p : s_has_plk p = true → leads (λ s, sp s = p) (λ s, plk s = None).
Proof.
  intros Hp. assert (H1 : leads (λ s, sp s = SMark) (λ s, plk s = None)).
  { eapply leads_trans; [by apply (sleeper_next SMark SSched)|]. apply sleeper_unlocks_p. by left. }
  destruct p; try discriminate Hp; [|exact H1|apply sleeper_unlocks_p; by left|apply sleeper_unlocks_p; by right].
  eapply leads_trans; [by apply (sleeper_next SDropLk SMark)|exact H1].
Qed.

(** p->lock is free again and again. *)
Lemma plk_free n : ∃ k, (n ≤ k)%nat ∧ plk (σ k) = None.
Proof.
  pose proof (handoff_reachable _ (run_reachable n)) as I. destruct (plk (σ n)) as [[|t|]|] eqn:E.
  - apply (sleeper_frees_p (sp (σ n))); [by apply (inv_plk_s _ I)|done].
  - pose proof (proj2 (inv_plk_w _ I t) E) as Hw. assert (H1 : leads (λ s, wpcs s t = WWake) (λ s, plk s = None)).
    { eapply leads_trans; [by apply waker_next|]. apply waker_unlocks_p. }
    destruct (wpcs (σ n) t) eqn:Ew; try done; [by apply H1|by apply (waker_unlocks_p t)].
  - by apply scheduler_unlocks.
  - by exists n.
Qed.

Lemma waker_frees t p : w_has_lk p = true → leads (λ s, wpcs s t = p) (λ s, lk s = None).
Proof.
  intros Hp. assert (H1 : leads (λ s, wpcs s t = WDropP) (λ s, lk s = None)) by (eapply leads_trans; [by apply waker_next|apply waker_unlocks]).
  assert (H2 : leads (λ s, wpcs s t = WWake) (λ s, lk s = None)) by (eapply leads_trans; [by apply waker_next|exact H1]).
  assert (H3 : leads (λ s, wpcs s t = WLockP) (λ s, lk s = None)).
  { eapply leads_trans; [apply (waker_leads (λ s, plk s = None)); [done|apply plk_free|by intros]|exact H2]. }
  destruct p; [done| |exact H3|exact H2|exact H1|apply waker_unlocks]. eapply leads_trans; [by apply waker_next|exact H3].
Qed.

Lemma sleeper_frees p : s_has_lk p = true → leads (λ s, sp s = p) (λ s, lk s = None).
Proof.
  intros Hp. assert (H1 : leads (λ s, sp s = SLockP) (λ s, lk s = None)).
  { eapply leads_trans; [|apply (sleeper_unlocks SDropLk); by right].
    eapply leads_weak; [apply (sleeper_leads (λ s, plk s = None) SLockP); [done|done|apply plk_free|by intros|done]|by intros|]. cbn. by intros s [_ ->]. }
  destruct p; try done; [|apply sleeper_unlocks; by left|apply sleeper_unlocks; by right].
  eapply leads_trans; [apply (sleeper_leads (λ _, True) SCheck); [done|done|apply always|done|done]|].
  eapply leads_weak; [apply leads_or; [apply (sleeper_unlocks SWork); by left|exact H1]| |by intros]. cbn. intros s _ [[] ->]; auto.
Qed.

(** So is lk. *)
Lemma lk_free n : ∃ k, (n ≤ k)%nat ∧ lk (σ k) = None.
Proof.
  pose proof (handoff_reachable _ (run_reachable n)) as I. destruct (lk (σ n)) as [[|t|]|] eqn:E.
  - apply (sleeper_frees (sp (σ n))); [by apply (inv_lk_s _ I)|done].
  - apply (waker_frees t (wpcs (σ n) t)); [by apply (inv_lk_w _ I)|done].
  - by destruct (lk_owner _ (run_reachable n)).
  - by exists n.
Qed.

(** ** The process gets to work *)

Definition at_work (s : state) : Prop := sp s = SWork ∧ cond s = true.
Abbreviation awaits p := (λ s, sp s = p ∧ cond s = true).

Lemma check_works : leads (awaits SCheck) at_work.
Proof. by apply (sleeper_leads_cond (λ _, True) SCheck); try apply always. Qed.

Lemma relock_works : leads (awaits SRelock) at_work.
Proof. eapply leads_trans; [|exact check_works]. by apply (sleeper_leads_cond (λ s, lk s = None) SRelock); try apply lk_free. Qed.

Lemma back_works : leads (awaits SBack) at_work.
Proof. eapply leads_trans; [|exact relock_works]. by apply (sleeper_leads_cond (λ _, True) SBack); try apply always. Qed.

(** A RUNNABLE process is picked. *)
Lemma runnable_works : leads (λ s, sp s = SOff ∧ cond s = true ∧ pst s = RUNNABLE) at_work.
Proof.
  eapply leads_trans; [|exact back_works]. apply (leads_fair Sleeper (λ s, plk s = None)); [apply plk_free|..].
  - intros b s s' _ (HP & Hc & Hr) Hs. destruct Hs; cbn in *; simplify_eq; auto.
  - intros s s' _ (HP & Hc & Hr) Hs. inversion Hs; subst; cbn in *; simplify_eq; auto.
  - intros s I (HP & Hc & Hr) HT. apply sleeper_obliged; rewrite ?HP; done.
Qed.

(** A waker in wakeup makes the sleeping process RUNNABLE. *)
Lemma waking_works t : leads (λ s, sp s = SOff ∧ cond s = true ∧ wpcs s t = WWake) at_work.
Proof.
  eapply leads_trans; [|apply leads_or; [exact back_works|exact runnable_works]].
  assert (Ha : ∀ s s', inv s → sp s = SOff ∧ cond s = true ∧ wpcs s t = WWake → handoff_step (Waker t) s s' →
    awaits SBack s' ∨ (sp s' = SOff ∧ cond s' = true ∧ pst s' = RUNNABLE)).
  { intros s s' I (HP & Hc & Hw) Hs. right. pose proof (inv_off_state s I HP) as I1. pose proof (inv_marked s I) as I2.
    inversion Hs; subst; cbn in *; try congruence. split_and!; [done|done|]. destruct I1 as [E1|E1]; rewrite E1; [|done]. by rewrite (I2 (or_intror (conj HP E1))). }
  apply (leads_fair (Waker t) (λ _, True)); [apply always| |exact Ha|].
  - intros b s s' I (HP & Hc & Hw) Hs. destruct (decide (b = Waker t)) as [->|Hb]; [right; by apply (Ha s)|].
    destruct (cond_step _ _ _ Hs Hc); [congruence|]. rewrite (waker_step _ _ _ t Hs), (sleeper_step _ _ _ Hs), (decide_False (P := b = Waker t)) by done. case_decide; [right; left|by left]. by rewrite HP.
  - intros s _ (HP & Hc & Hw) _. apply waker_obliged; congruence.
Qed.

Lemma wakeup_works t : leads (λ s, sp s = SOff ∧ cond s = true ∧ wpcs s t = WLockP) at_work.
Proof.
  eapply leads_trans; [|apply leads_or; [exact back_works|exact (waking_works t)]].
  apply (leads_fair (Waker t) (λ s, plk s = None)); [apply plk_free|..].
  - intros b s s' I (HP & Hc & Hw) Hs. destruct (cond_step _ _ _ Hs Hc); [congruence|]. rewrite (waker_step _ _ _ t Hs), (sleeper_step _ _ _ Hs), HP, Hw.
    destruct (decide (b = Waker t)) as [->|Hb]; [by right; right|]. case_decide; [by right; left|by left].
  - intros s s' I (HP & Hc & Hw) Hs. destruct (cond_step _ _ _ Hs Hc); [congruence|]. right. rewrite (waker_step _ _ _ t Hs), (sleeper_step _ _ _ Hs), HP, Hw, decide_False, decide_True by done. done.
  - intros s _ (HP & Hc & Hw) HT. by apply waker_obliged; [congruence|].
Qed.

Lemma off_works : leads (awaits SOff) at_work.
Proof.
  intros n [HP Hc]. pose proof (handoff_reachable _ (run_reachable n)) as I. destruct (inv_off_state _ I HP) as [Hs|Hs]; [|by apply runnable_works].
  destruct (inv_off _ I HP Hs Hc) as (t & [Hw|Hw]); [by apply (wakeup_works t)|by apply (waking_works t)].
Qed.

Lemma mark_works p : p = SMark ∨ p = SSched → leads (awaits p) at_work.
Proof.
  intros Hp. assert (H1 : leads (awaits SSched) at_work). { eapply leads_trans; [|exact off_works]. by apply (sleeper_leads_cond (λ _, True) SSched); try apply always. }
  destruct Hp as [->| ->]; [|exact H1]. eapply leads_trans; [|exact H1]. by apply (sleeper_leads_cond (λ _, True) SMark); try apply always.
Qed.

Lemma waiter_works n : cond (σ n) = true → sp (σ n) ≠ SOut → ∃ m, (n ≤ m)%nat ∧ at_work (σ m).
Proof.
  intros Hc Hs. pose proof (inv_saw _ (handoff_reachable _ (run_reachable n))) as Hf.
  destruct (sp (σ n)) eqn:E; [done|by apply check_works|by exists n| | | | |by apply off_works|by apply back_works|by apply relock_works].
  - rewrite Hf in Hc by auto. done.
  - rewrite Hf in Hc by auto. done.
  - apply (mark_works SMark); auto.
  - apply (mark_works SSched); auto.
Qed.
End Run.

(** ** A run *)

(** The process sleeps, waker 7 wakes it, it works, and all over again. *)
Definition at7 (p : wpc) : Z → wpc := <[7 := p]> (λ _, WOut).

Definition round : list (who * state) := [
  (Sleeper, mkState None None false RUNNING false SOut (at7 WOut));
  (Sleeper, mkState (Some Sleeper) None false RUNNING false SCheck (at7 WOut));
  (Sleeper, mkState (Some Sleeper) None false RUNNING false SLockP (at7 WOut));
  (Sleeper, mkState (Some Sleeper) (Some Sleeper) false RUNNING false SDropLk (at7 WOut));
  (Sleeper, mkState None (Some Sleeper) false RUNNING false SMark (at7 WOut));
  (Sleeper, mkState None (Some Sleeper) false SLEEPING true SSched (at7 WOut));
  (Waker 7, mkState None None false SLEEPING true SOff (at7 WOut));
  (Waker 7, mkState (Some (Waker 7)) None false SLEEPING true SOff (at7 WSet));
  (Waker 7, mkState (Some (Waker 7)) None true SLEEPING true SOff (at7 WLockP));
  (Waker 7, mkState (Some (Waker 7)) (Some (Waker 7)) true SLEEPING true SOff (at7 WWake));
  (Waker 7, mkState (Some (Waker 7)) (Some (Waker 7)) true RUNNABLE true SOff (at7 WDropP));
  (Waker 7, mkState (Some (Waker 7)) None true RUNNABLE true SOff (at7 WDropLk));
  (Sleeper, mkState None None true RUNNABLE true SOff (at7 WOut));
  (Sleeper, mkState None (Some Sleeper) true RUNNING true SBack (at7 WOut));
  (Sleeper, mkState None None true RUNNING false SRelock (at7 WOut));
  (Sleeper, mkState (Some Sleeper) None true RUNNING false SCheck (at7 WOut));
  (Sleeper, mkState (Some Sleeper) None true RUNNING false SWork (at7 WOut))].

Definition round_at (n : nat) : who * state := nth (n mod 17) round (Sleeper, init).

Lemma at7_insert p q : <[7 := p]> (at7 q) = at7 p.
Proof. apply functional_extensionality. intros t. unfold at7. destruct (decide (7 = t)) as [<-|]; [by rewrite !fn_lookup_insert|by rewrite !fn_lookup_insert_ne]. Qed.

Lemma at7_out : at7 WOut = λ _, WOut.
Proof. apply functional_extensionality. intros t. unfold at7. destruct (decide (7 = t)) as [<-|]; [by rewrite fn_lookup_insert|by rewrite fn_lookup_insert_ne]. Qed.

Lemma at7_ne p t : 7 ≠ t → at7 p t = WOut.
Proof. intros H. unfold at7. by rewrite fn_lookup_insert_ne. Qed.

Lemma step_to a s s1 s' : handoff_step a s s1 → s1 = s' → handoff_step a s s'.
Proof. by intros H <-. Qed.

(** The party of [round_at n] takes the step to the next state. *)
Lemma round_step n : handoff_step (round_at n).1 (round_at n).2 (round_at (S n)).2.
Proof.
  unfold round_at. replace (S n mod 17)%nat with (S (n mod 17) mod 17)%nat by (apply (Nat.Div0.add_mod_idemp_r 1 n 17)).
  pose proof (Nat.mod_upper_bound n 17 ltac:(done)) as H. generalize dependent (n mod 17)%nat. intros r H.
  do 17 (destruct r as [|r]; [cbn;
    first [apply s_acquire|apply (s_check _ _ false)|apply s_lockp|apply s_droplk|apply s_mark|apply s_swtch|apply s_run|apply s_back|apply s_relock|apply (s_check _ _ true)|apply s_work
      |eapply step_to; [first [by apply w_acquire|by apply w_set|by apply w_lockp|by apply w_wake|by apply w_dropp|by apply w_droplk]|by rewrite at7_insert]]|]). lia.
Qed.

(** Every party but the process and waker 7 stays outside. *)
Lemma round_outside a n : obliged a (round_at n).2 → a = Sleeper ∨ a = Waker 7.
Proof.
  unfold round_at. pose proof (Nat.mod_upper_bound n 17 ltac:(done)) as H. generalize dependent (n mod 17)%nat. intros r H [_ Ho].
  destruct a as [|t|]; [by left| |exfalso; do 17 (destruct r as [|r]; [done|]); lia]. destruct (decide (7 = t)) as [<-|Hne]; [by right|exfalso; apply Ho].
  do 17 (destruct r as [|r]; [exact (at7_ne _ _ Hne)|]). lia.
Qed.

Lemma round_fair a n : ∃ m, (n ≤ m)%nat ∧ ((round_at m).1 = a ∨ ∀ k, (m ≤ k)%nat → ¬ obliged a (round_at k).2).
Proof.
  destruct (decide (a = Sleeper)) as [->|H1]; [exists (n * 17)%nat|destruct (decide (a = Waker 7)) as [->|H2]; [exists (6 + n * 17)%nat|exists n]].
  - split; [lia|]. left. unfold round_at. by rewrite Nat.Div0.mod_mul.
  - split; [lia|]. left. unfold round_at. by rewrite Nat.Div0.mod_add.
  - split; [lia|]. right. intros k _ Ho. apply round_outside in Ho. tauto.
Qed.

Definition round_run : fair_run := {|
  run_state n := (round_at n).2;
  run_act n := (round_at n).1;
  run_start := f_equal (mkState None None false RUNNING false SOut) at7_out;
  run_step := round_step;
  run_fair := round_fair
|}.

Module Progress.
(** C14: A process that waits for a condition gets to work.  In every infinite run of the
    sleep and wakeup protocol that passes over no party inside it forever, whenever the
    condition is true and the process has begun to wait for it, the process later leaves
    its loop with the condition still true, whatever the wakers and the scheduler do in
    between. *)
Theorem waiter_wakes (R : fair_run) n :
  cond (run_state R n) = true → sp (run_state R n) ≠ SOut →
  ∃ m, (n ≤ m)%nat ∧ sp (run_state R m) = SWork ∧ cond (run_state R m) = true.
Proof. intros Hc Hs. destruct (waiter_works R n Hc Hs) as (m & Hm & H). by exists m. Qed.

(** The condition was set while the process slept. *)
Lemma waiter_wakes_witness :
  sp (run_state round_run 8) = SOff ∧ ∃ m, (8 ≤ m)%nat ∧ sp (run_state round_run m) = SWork ∧ cond (run_state round_run m) = true.
Proof. split; [reflexivity|]. apply (waiter_wakes round_run 8); [reflexivity|discriminate]. Defined.
End Progress.
