(* ===== verification/Sleeplock.v ===== *)
(** * sleeplock.c: long-term locks *)

From S2P Require Import Prelude Types StringC Spinlock Sched.

Definition get_slk (s : sleepid) : K sleeplock := gets (λ w, w_slk w s).
Definition upd_slk (s : sleepid) (f : sleeplock → sleeplock) : K unit :=
  modify (λ w, set_slk (alter f s (w_slk w)) w).

Definition initsleeplock (s : sleepid) (name : string) : K unit :=
  initlock (LSleep s) "sleep lock" ;;
  upd_slk s (set_sl_name name) ;;
  upd_slk s (set_sl_locked false) ;;
  upd_slk s (set_sl_pid 0).

Definition acquiresleep (s : sleepid) : K unit :=
  acquire (LSleep s) ;;
  loop_wait (
    sl <- get_slk s ;;
    if sl_locked sl then sleep (CSleep s) (LSleep s) ;; ret None else ret (Some tt)) ;;
  upd_slk s (set_sl_locked true) ;;
  mp <- myproc ;;
  p <- deref mp ;;
  pr <- get_proc p ;;
  upd_slk s (set_sl_pid (p_pid pr)) ;;
  release (LSleep s).

Definition releasesleep (s : sleepid) : K unit :=
  acquire (LSleep s) ;;
  upd_slk s (set_sl_locked false) ;;
  upd_slk s (set_sl_pid 0) ;;
  wakeup (CSleep s) ;;
  release (LSleep s).

Definition holdingsleep (s : sleepid) : K bool :=
  acquire (LSleep s) ;;
  sl <- get_slk s ;;
  r <- (if sl_locked sl then
    mp <- myproc ;;
    p <- deref mp ;;
    pr <- get_proc p ;;
    ret (sl_pid sl =? p_pid pr)
  else ret false) ;;
  release (LSleep s) ;;
  ret r.

(** ** Totality *)

Lemma total_get_slk s : total (get_slk s).
Proof. unfold get_slk. total. Qed.
Lemma total_upd_slk s f : total (upd_slk s f).
Proof. unfold upd_slk. total. Qed.
#[export] Hint Resolve total_get_slk total_upd_slk : total.
Lemma total_acquiresleep s : total (acquiresleep s).
Proof. unfold acquiresleep. total. Qed.
Lemma total_releasesleep s : total (releasesleep s).
Proof. unfold releasesleep. total. Qed.
Lemma total_holdingsleep s : total (holdingsleep s).
Proof. unfold holdingsleep. total. Qed.
Lemma total_initsleeplock s n : total (initsleeplock s n).
Proof. unfold initsleeplock. total. Qed.
#[export] Hint Resolve total_acquiresleep total_releasesleep total_holdingsleep total_initsleeplock : total.

(** ** Uncontended runs *)

(** A process [p] runs on this cpu, with the locks it needs free. *)
Definition running (w : world) (p : Z) : Prop :=
  cpu_ok w ∧ c_proc (my_cpu w) = Some p.

(** Inside a critical section nothing is left to settle. *)
Lemma settle_inside w : c_noff (my_cpu w) ≠ 0 → settle w = w.
Proof. intros Hn. unfold settle. rewrite (proj2 (Z.eqb_neq _ _) Hn). reflexivity. Qed.

Lemma noff_locked_by l w : c_noff (my_cpu (locked_by l w)) = c_noff (my_cpu w) + 1.
Proof. exact (noff_pushed w). Qed.

Lemma cpu_ok_locked_by l w : cpu_ok w → cpu_ok (locked_by l w).
Proof.
  intros (Ht & Hn & Hs). split; [exact Ht|]. split; [rewrite noff_locked_by; lia|].
  intros _. exact (sie_pushed w).
Qed.

Lemma proc_locked_by l w : c_proc (my_cpu (locked_by l w)) = c_proc (my_cpu w).
Proof. unfold my_cpu at 1, locked_by, pushed. rsimpl. by rewrite fn_lookup_insert. Qed.

(** myproc inside a critical section; [w1] differs from [locked_by l w] in
    neither cpus, harts nor tp. *)
Lemma myproc_inside l w w1 env :
  cpu_ok w → w_tp w1 = w_tp w → w_cpus w1 = w_cpus (locked_by l w) → w_harts w1 = w_harts (locked_by l w) →
  myproc env w1 = Ret (c_proc (my_cpu w)) env w1.
Proof.
  intros Hok Et Ec Eh. pose proof Hok as (Ht & Hn & Hs).
  assert (Emy : my_cpu w1 = my_cpu (locked_by l w)) by (unfold my_cpu; by rewrite Ec, Et).
  assert (Hok1 : cpu_ok w1).
  { pose proof (cpu_ok_locked_by l w Hok) as (H1 & H2 & H3). unfold cpu_ok. rewrite Et, Emy.
    split; [done|]. split; [done|]. intros H. unfold sie, my_hart in *. rewrite Eh, Et. by apply H3. }
  rewrite myproc_run by done. rewrite settle_inside.
  - by rewrite Emy, proc_locked_by.
  - rewrite Emy, noff_locked_by. lia.
Qed.

Lemma acquiresleep_run s p env w :
  running w p → lk_free w (LSleep s) → sl_locked (w_slk w s) = false →
  acquiresleep s env w = Ret tt env
    (set_slk (<[s := mkSleeplock true (sl_name (w_slk w s)) (p_pid (w_procs w p))]> (w_slk w)) (settle w)).
Proof.
  intros [Hok Hp] Hlk Hs. unfold acquiresleep. mcall (acquire_free (LSleep s) env w); [by auto|].
  mcall loop_wait_Some.
  { unfold get_slk. msteps. change (w_slk (locked_by (LSleep s) w)) with (w_slk w). rewrite Hs. reflexivity. }
  unfold upd_slk. msteps. mcall (myproc_inside (LSleep s) w); [reflexivity..|].
  rewrite Hp. unfold deref, get_proc. msteps.
  etransitivity; [by apply (release_after (LSleep s) env w)|]. rsimpl. autorewrite with xv6. reflexivity.
Qed.

Lemma holdingsleep_run s p env w :
  running w p → lk_free w (LSleep s) →
  holdingsleep s env w = Ret (sl_locked (w_slk w s) && (sl_pid (w_slk w s) =? p_pid (w_procs w p))) env (settle w).
Proof.
  intros [Hok Hp] Hlk. unfold holdingsleep. mcall (acquire_free (LSleep s) env w); [by auto|].
  unfold get_slk. msteps. change (w_slk (locked_by (LSleep s) w)) with (w_slk w).
  destruct (sl_locked (w_slk w s)); msteps.
  - mcall (myproc_inside (LSleep s) w); [reflexivity..|]. rewrite Hp. unfold deref, get_proc. msteps.
    mcall (release_after (LSleep s) env w); [reflexivity..|]. reflexivity.
  - mcall (release_after (LSleep s) env w); [reflexivity..|]. reflexivity.
Qed.

Lemma releasesleep_run s env w :
  cpu_ok w → lk_free w (LSleep s) → procs_free w →
  releasesleep s env w = Ret tt env
    (set_procs (woken (CSleep s) all_procs (w_procs w))
      (set_slk (<[s := mkSleeplock false (sl_name (w_slk w s)) 0]> (w_slk w)) (settle w))).
Proof.
  intros Hok Hlk Hf. unfold releasesleep. mcall (acquire_free (LSleep s) env w); [by auto|].
  unfold upd_slk. msteps. set (w1 := set_slk _ _).
  assert (Hok1 : cpu_ok w1) by exact (cpu_ok_locked_by (LSleep s) w Hok).
  assert (Hf1 : procs_free w1).
  { intros q Hq. destruct (Hf q Hq) as [F1 F2]. unfold lk_free, w1, locked_by. rsimpl.
    by rewrite fn_lookup_insert_ne. }
  mcall (wakeup_run (CSleep s) env w1). rewrite settle_inside.
  2:{ change (my_cpu w1) with (my_cpu (locked_by (LSleep s) w)). rewrite noff_locked_by. destruct Hok as (_ & ? & _). lia. }
  etransitivity; [by apply (release_after (LSleep s) env w)|]. unfold w1. rsimpl. autorewrite with xv6. reflexivity.
Qed.

(** What waking up the sleepers of a lock leaves of the process table. *)
Definition pids_same (f g : Z → proc) : Prop := ∀ p, p_pid (f p) = p_pid (g p).

Lemma woken_pid ch l f p : p_pid (woken ch l f p) = p_pid (f p).
Proof. unfold woken, wake. case_decide; [|done]. by case_match. Qed.
