(* ===== verification/Run.v ===== *)
(** * Running kernel code when nothing else happens

    [runs m w r w']: in any world that looks like [w], [m] returns [r] without
    waiting, in a world that looks like [w'].  Two worlds look alike when they
    differ only in what the code cannot observe: the saved interrupt state outside
    push_off sections, which sleepers a wakeup has made runnable, and the internal
    state of the idle disk driver.  The rules below are a symbolic execution of
    the kernel's code on such worlds.

    The block device is an interface, [Disk]: what virtio_disk_rw promises to the
    buffer cache. *)

From S2P Require Import Prelude Types StringC Spinlock Sched Sleeplock.

(** ** Looking alike *)

Definition vd0 : vdisk := w_vd image_world.

Definition erase (f : Z → proc) : Z → proc := λ p,
  if decide (p_state (f p) = SLEEPING) then set_p_state RUNNABLE (f p) else f p.

Definition norm (w : world) : world := set_procs (erase (w_procs w)) (set_vd vd0 (settle w)).

(** The state of the driver between requests, and the disk operation. *)
Class DiskOps := {
  disk_rw : Z → bool → K unit;
  vd_idle : vdisk → Prop
}.

Definition alike `{D : DiskOps} (w w' : world) : Prop :=
  norm w = norm w' ∧ (vd_idle (w_vd w) ↔ vd_idle (w_vd w')).
Infix "~~" := alike (at level 70) : xv6_scope.

Section Alike.
Context `{DiskOps}.

#[export] Instance alike_equiv : Equivalence alike.
Proof.
  unfold alike. split.
  - done.
  - intros w1 w2 [E I]. by rewrite E, I.
  - intros w1 w2 w3 [E1 I1] [E2 I2]. split; [by rewrite E1|]. by rewrite I1.
Qed.

Lemma erase_erase f : erase (erase f) = erase f.
Proof.
  extensionality p. unfold erase. destruct (decide (p_state (f p) = SLEEPING)).
  - rewrite decide_False; [done|]. by rsimpl.
  - by rewrite decide_False.
Qed.

Lemma erase_woken ch l f : erase (woken ch l f) = erase f.
Proof.
  extensionality p. unfold erase, woken, wake, sleeping_on. destruct (decide (p ∈ l)); [|done].
  destruct (bool_decide_reflect (p_state (f p) = SLEEPING)) as [E|E]; cbn; [|done].
  destruct (bool_decide (p_chan (f p) = Some ch)); [|done].
  rewrite decide_False by (by rsimpl). by rewrite decide_True.
Qed.

Lemma weq_alike w w' : w ≈ w' → w_vd w = w_vd w' → w ~~ w'.
Proof.
  unfold weq, alike, norm. intros E Ev. rewrite Ev. split; [|done].
  change (w_procs w) with (w_procs (settle w)). change (w_procs w') with (w_procs (settle w')). by rewrite E.
Qed.

Lemma settle_alike w : settle w ~~ w.
Proof. apply weq_alike; [apply settle_weq|done]. Qed.

Lemma woken_alike ch l w : set_procs (woken ch l (w_procs w)) w ~~ w.
Proof.
  split; [|done]. unfold norm. rsimpl. rewrite erase_woken.
  change (settle (set_procs (woken ch l (w_procs w)) w)) with (set_procs (woken ch l (w_procs w)) (settle w)).
  reflexivity.
Qed.

(** Reading a field through [~~]. *)
Lemma alike_field {A} (f : world → A) w w' : w ~~ w' → (∀ v, f (norm v) = f v) → f w = f w'.
Proof. intros [E _] Hf. by rewrite <-(Hf w), <-(Hf w'), E. Qed.

(** Updating what [norm] leaves alone. *)
Lemma alike_map (g : world → world) w w' :
  w ~~ w' → (∀ v, norm (g v) = g (norm v)) → (∀ v, w_vd (g v) = w_vd v) → g w ~~ g w'.
Proof. intros [E I] Hg Hv. split; [by rewrite !Hg, E|by rewrite !Hv]. Qed.

Lemma norm_settle w : norm w = norm (settle w).
Proof. unfold norm. rewrite settle_settle. reflexivity. Qed.

Lemma cpus_norm w : w_cpus (norm w) = w_cpus (settle w).
Proof. reflexivity. Qed.

Lemma alike_weq w w' : w ~~ w' → set_procs (w_procs w') (set_vd (w_vd w') w) ≈ w'.
Proof.
  intros [E _]. unfold weq. apply (f_equal (λ v, set_procs (w_procs w') (set_vd (w_vd w') v))) in E.
  exact E.
Qed.

Lemma alike_cpu_ok w w' : w ~~ w' → cpu_ok w' → cpu_ok w.
Proof. intros E Hok. apply alike_weq in E. exact (weq_cpu_ok _ _ E Hok). Qed.

Lemma alike_tp w w' : w ~~ w' → w_tp w = w_tp w'.
Proof. intros E. exact (alike_field w_tp _ _ E (λ _, eq_refl)). Qed.
Lemma alike_lk w w' : w ~~ w' → w_lk w = w_lk w'.
Proof. intros E. exact (alike_field w_lk _ _ E (λ _, eq_refl)). Qed.
Lemma alike_harts w w' : w ~~ w' → w_harts w = w_harts w'.
Proof. intros E. exact (alike_field w_harts _ _ E (λ _, eq_refl)). Qed.

Lemma alike_settled_cpus w w' : w ~~ w' → w_cpus (settle w) = w_cpus (settle w').
Proof. intros [E _]. exact (f_equal w_cpus E). Qed.

Lemma cproc_settle w : c_proc (my_cpu (settle w)) = c_proc (my_cpu w).
Proof. unfold my_cpu, settle. rsimpl. case_match; rewrite ?fn_lookup_insert; done. Qed.

Lemma noff_settle w : c_noff (my_cpu (settle w)) = c_noff (my_cpu w).
Proof. unfold my_cpu, settle. rsimpl. case_match; rewrite ?fn_lookup_insert; done. Qed.

Lemma alike_my_cpu w w' : w ~~ w' → my_cpu (settle w) = my_cpu (settle w').
Proof.
  intros E. change (my_cpu (settle w)) with (w_cpus (settle w) (w_tp w)).
  change (my_cpu (settle w')) with (w_cpus (settle w') (w_tp w')).
  by rewrite (alike_settled_cpus _ _ E), (alike_tp _ _ E).
Qed.

Lemma alike_cproc w w' : w ~~ w' → c_proc (my_cpu w) = c_proc (my_cpu w').
Proof. intros E. by rewrite <-(cproc_settle w), <-(cproc_settle w'), (alike_my_cpu _ _ E). Qed.

Lemma alike_noff w w' : w ~~ w' → c_noff (my_cpu w) = c_noff (my_cpu w').
Proof. intros E. by rewrite <-(noff_settle w), <-(noff_settle w'), (alike_my_cpu _ _ E). Qed.

Lemma alike_sie w w' : w ~~ w' → sie w = sie w'.
Proof. intros E. unfold sie, my_hart. by rewrite (alike_tp _ _ E), (alike_harts _ _ E). Qed.

(** Entering a critical section hides the saved interrupt state. *)
Lemma pushed_settle w : pushed (settle w) = pushed w.
Proof.
  unfold pushed. rewrite noff_settle, cproc_settle.
  change (sie (settle w)) with (sie w). change (my_hart (settle w)) with (my_hart w).
  change (w_tp (settle w)) with (w_tp w). change (w_harts (settle w)) with (w_harts w).
  destruct (Z.eqb_spec (c_noff (my_cpu w)) 0) as [E|E].
  - unfold settle. rewrite (proj2 (Z.eqb_eq _ _) E). rsimpl. rewrite fn_insert_insert. reflexivity.
  - rewrite settle_inside by done. reflexivity.
Qed.

Lemma erase_pid f p : p_pid (erase f p) = p_pid (f p).
Proof. unfold erase. by case_decide. Qed.

Lemma alike_pid w w' p : w ~~ w' → p_pid (w_procs w p) = p_pid (w_procs w' p).
Proof.
  intros E. rewrite <-(erase_pid (w_procs w)), <-(erase_pid (w_procs w')).
  f_equal. change (erase (w_procs w)) with (w_procs (norm w)). change (erase (w_procs w')) with (w_procs (norm w')).
  by destruct E as [-> _].
Qed.

Lemma norm_hide v f d : erase f = erase (w_procs v) → norm (set_procs f (set_vd d v)) = norm v.
Proof.
  intros E. change (norm (set_procs f (set_vd d v))) with (set_procs (erase f) (set_vd vd0 (settle v))).
  rewrite E. reflexivity.
Qed.

Lemma pushed_alike w w' : w ~~ w' → pushed w ~~ pushed w'.
Proof.
  intros E. pose proof (alike_weq _ _ E) as Ew. destruct E as [E I]. split; [|exact I].
  assert (Ep : pushed (set_procs (w_procs w') (set_vd (w_vd w') w)) = pushed w').
  { rewrite <-(pushed_settle w'), <-pushed_settle. unfold weq in Ew. by rewrite Ew. }
  rewrite <-Ep. assert (Epr : erase (w_procs w) = erase (w_procs w')) by exact (f_equal w_procs E).
  symmetry. exact (norm_hide (pushed w) (w_procs w') (w_vd w') (eq_sym Epr)).
Qed.

Lemma locked_alike l w w' : w ~~ w' → locked_by l w ~~ locked_by l w'.
Proof.
  intros E. unfold locked_by. rewrite (alike_lk _ _ E), (alike_tp _ _ E).
  apply (alike_map (set_lk _)); [by apply pushed_alike|reflexivity|reflexivity].
Qed.

End Alike.

(** ** Runs *)

Definition runs `{D : DiskOps} {A} (m : K A) (w : world) (r : A) (w' : world) : Prop :=
  ∀ env w1, w1 ~~ w → ∃ w2, m env w1 = Ret r env w2 ∧ w2 ~~ w'.

(** [m] panics. *)
Definition panics `{D : DiskOps} {A} (m : K A) (w : world) (s : string) : Prop :=
  ∀ env w1, w1 ~~ w → m env w1 = Panic s.

Section Runs.
Context `{DiskOps}.
Implicit Types (w : world).

Lemma runs_ret {A} (a : A) w : runs (ret a) w a w.
Proof. intros env w1 E. by exists w1. Qed.

Lemma runs_bind {A B} (m : K A) (k : A → K B) w a w1 r w2 :
  runs m w a w1 → runs (k a) w1 r w2 → runs (bind m k) w r w2.
Proof.
  intros Hm Hk env v E. destruct (Hm env v E) as (v1 & E1 & A1). destruct (Hk env v1 A1) as (v2 & E2 & A2).
  exists v2. split; [|done]. by rewrite (bind_Ret _ _ _ _ _ _ _ E1).
Qed.

Lemma runs_assoc {A B C} (m : K A) (k : A → K B) (h : B → K C) w r w' :
  runs (bind m (λ a, bind (k a) h)) w r w' → runs (bind (bind m k) h) w r w'.
Proof. intros Hr env v E. rewrite bind_assoc. by apply Hr. Qed.

Lemma runs_bind_ret {A B} (a : A) (k : A → K B) w r w' : runs (k a) w r w' → runs (bind (ret a) k) w r w'.
Proof. done. Qed.

Lemma runs_gets {A} (f : world → A) w : (∀ v, f (norm v) = f v) → runs (gets f) w (f w) w.
Proof. intros Hf env w1 E. exists w1. split; [|done]. unfold gets. by rewrite (alike_field f _ _ E Hf). Qed.

Lemma runs_bind_gets {A B} (f : world → A) (k : A → K B) w r w' :
  (∀ v, f (norm v) = f v) → runs (k (f w)) w r w' → runs (bind (gets f) k) w r w'.
Proof. intros Hf. apply runs_bind. by apply runs_gets. Qed.

Lemma runs_modify (g : world → world) w :
  (∀ v, norm (g v) = g (norm v)) → (∀ v, w_vd (g v) = w_vd v) → runs (modify g) w tt (g w).
Proof. intros Hg Hv env w1 E. exists (g w1). split; [done|]. by apply alike_map. Qed.

Lemma runs_bind_modify {B} (g : world → world) (k : unit → K B) w r w' :
  (∀ v, norm (g v) = g (norm v)) → (∀ v, w_vd (g v) = w_vd v) →
  runs (k tt) (g w) r w' → runs (bind (modify g) k) w r w'.
Proof. intros Hg Hv. apply runs_bind. by apply runs_modify. Qed.

Lemma runs_alike {A} (m : K A) w w0 r w' w0' : runs m w0 r w0' → w ~~ w0 → w0' ~~ w' → runs m w r w'.
Proof.
  intros Hr E0 E' env w1 E. destruct (Hr env w1) as (w2 & E2 & A2); [by etrans|].
  exists w2. split; [done|]. by etrans.
Qed.

Lemma runs_eq {A} (m : K A) w r w1 w2 : runs m w r w1 → w1 = w2 → runs m w r w2.
Proof. by intros ? <-. Qed.

Lemma panics_bind {A B} (m : K A) (k : A → K B) w a w1 s :
  runs m w a w1 → panics (k a) w1 s → panics (bind m k) w s.
Proof.
  intros Hm Hk env v E. destruct (Hm env v E) as (v1 & E1 & A1).
  rewrite (bind_Ret _ _ _ _ _ _ _ E1). by apply Hk.
Qed.

Lemma panics_l {A B} (m : K A) (k : A → K B) w s : panics m w s → panics (bind m k) w s.
Proof. intros Hm env v E. by apply bind_Panic, Hm. Qed.

(** The invariant rule for loops over a list. *)
Lemma runs_for_each {A} (I : list A → world → Prop) (l : list A) (body : A → K unit) w :
  I [] w →
  (∀ seen x rest v, l = seen ++ x :: rest → I seen v → ∃ v', runs (body x) v tt v' ∧ I (seen ++ [x]) v') →
  ∃ w', runs (for_each l body) w tt w' ∧ I l w'.
Proof.
  intros H0 Hstep.
  assert (Hgen : ∀ rest seen v, l = seen ++ rest → I seen v → ∃ v', runs (for_each rest body) v tt v' ∧ I l v').
  { induction rest as [|x rest IH]; intros seen v Hl HI; cbn [for_each].
    - rewrite app_nil_r in Hl. subst. exists v. split; [apply runs_ret|done].
    - destruct (Hstep seen x rest v Hl HI) as (v1 & R1 & I1).
      destruct (IH (seen ++ [x]) v1) as (v2 & R2 & I2); [by rewrite <-app_assoc|done|].
      exists v2. split; [|done]. eapply runs_bind; [exact R1|exact R2]. }
  by apply (Hgen l []).
Qed.

(** [for (i = 0; i < n; i++)]. *)
(** A search that goes on over [l1] and ends at [x]. *)
Lemma runs_for_find {A B} (I : world → Prop) (Q : world → Prop) l1 x l2 (f : A → K (option B)) r w :
  I w → (∀ y v, y ∈ l1 → I v → ∃ v', runs (f y) v None v' ∧ I v') →
  (∀ v, I v → ∃ v', runs (f x) v (Some r) v' ∧ Q v') →
  ∃ v', runs (for_find (l1 ++ x :: l2) f) w (Some r) v' ∧ Q v'.
Proof.
  intros HI Hf Hx. revert w HI. induction l1 as [|y l1 IH]; intros w HI; cbn [for_find app].
  - destruct (Hx w HI) as (v' & E & HQ). exists v'. split; [|done]. eapply runs_bind; [exact E|apply runs_ret].
  - destruct (Hf y w) as (v & E & Hv); [by left|done|].
    destruct (IH (λ z u Hz, Hf z u (list_elem_of_further _ _ _ Hz)) v Hv) as (v' & E' & HQ).
    exists v'. split; [|done]. by eapply runs_bind.
Qed.

Lemma runs_for_find_none {A B} (I : world → Prop) l (f : A → K (option B)) w :
  I w → (∀ y v, y ∈ l → I v → ∃ v', runs (f y) v None v' ∧ I v') →
  ∃ v', runs (for_find l f) w None v' ∧ I v'.
Proof.
  intros HI Hf. revert w HI. induction l as [|y l IH]; intros w HI; cbn [for_find].
  - exists w. split; [apply runs_ret|done].
  - destruct (Hf y w) as (v & E & Hv); [by left|done|].
    destruct (IH (λ z u Hz, Hf z u (list_elem_of_further _ _ _ Hz)) v Hv) as (v' & E' & HI').
    exists v'. split; [|done]. by eapply runs_bind.
Qed.

Lemma runs_count (I : nat → world → Prop) (n : nat) (body : Z → K unit) w :
  I 0%nat w →
  (∀ i v, (i < n)%nat → I i v → ∃ v', runs (body (Z.of_nat i)) v tt v' ∧ I (S i) v') →
  ∃ w', runs (for_each (seqZ 0 (Z.of_nat n)) body) w tt w' ∧ I n w'.
Proof.
  intros H0 Hstep.
  destruct (runs_for_each (λ seen v, I (length seen) v) (seqZ 0 (Z.of_nat n)) body w H0) as (w' & R & Hw').
  - intros seen x rest v Hl HI.
    assert (Hx : seqZ 0 (Z.of_nat n) !! length seen = Some x) by (rewrite Hl; by apply list_lookup_middle).
    apply lookup_seqZ in Hx as [-> Hlt].
    destruct (Hstep (length seen) v) as (v' & Rv & Iv); [lia|done|].
    exists v'. rewrite length_app, Nat.add_1_r. by rewrite Z.add_0_l.
  - exists w'. split; [done|]. by rewrite length_seqZ, Nat2Z.id in Hw'.
Qed.

Lemma runs_loop_wait {A} (body : K (option A)) w a w' :
  runs body w (Some a) w' → runs (loop_wait body) w a w'.
Proof.
  intros Hb env v E. destruct (Hb env v E) as (v1 & E1 & A1). exists v1. split; [|done]. by apply loop_wait_Some.
Qed.

Lemma runs_acquire l w :
  0 ≤ w_tp w < NCPU → lk_free w l → runs (acquire l) w tt (locked_by l w).
Proof.
  intros Ht Hl env w1 E. exists (locked_by l w1). split; [|by apply locked_alike].
  apply acquire_free; [by rewrite (alike_tp _ _ E)|]. unfold lk_free. by rewrite (alike_lk _ _ E).
Qed.

(** Inside a section entered in [w], the cpus are what they are. *)
Lemma inside_cpus w w1 v :
  cpu_ok w → v ~~ w1 → w_tp w1 = w_tp w → w_cpus w1 = w_cpus (pushed w) → w_cpus v = w_cpus w1.
Proof.
  intros Hok E Et Ec. pose proof (alike_settled_cpus _ _ E) as Es.
  assert (Hn1 : c_noff (my_cpu w1) ≠ 0).
  { assert (my_cpu w1 = my_cpu (pushed w)) as -> by (unfold my_cpu; by rewrite Ec, Et).
    rewrite noff_pushed. destruct Hok as (_ & ? & _). lia. }
  rewrite !settle_inside in Es; [done|done|]. by rewrite (alike_noff _ _ E).
Qed.

(** Outside, the saved interrupt state no longer matters. *)
Lemma outside_alike w v w1 :
  v ~~ w1 → w_tp w1 = w_tp w →
  set_harts (w_harts w) (set_cpus (w_cpus (settle w)) v) ~~ set_harts (w_harts w) (set_cpus (w_cpus w) w1).
Proof.
  intros E Et. destruct E as [E I]. split; [|exact I].
  assert (Es : ∀ c u, w_tp u = w_tp w → settle (set_harts (w_harts w) (set_cpus c u))
    = set_harts (w_harts w) (set_cpus (w_cpus (settle (set_cpus c w))) u)).
  { intros c u Eu. unfold settle, my_cpu, sie, my_hart. rsimpl. by rewrite Eu. }
  assert (Etv : w_tp v = w_tp w) by (rewrite <-Et; exact (f_equal w_tp E)).
  unfold norm. rewrite !Es by done.
  change (set_cpus (w_cpus w) w) with w. change (set_cpus (w_cpus (settle w)) w) with (settle w).
  rewrite settle_settle.
  assert (Ep : norm v = norm w1) by exact E.
  apply (f_equal (λ u, set_harts (w_harts w) (set_cpus (w_cpus (settle w)) u))) in Ep.
  exact Ep.
Qed.

(** Leaving the critical section entered in [w]; the state inside is [w1]. *)
Lemma runs_release l w w1 :
  cpu_ok w → lk_free w l →
  w_tp w1 = w_tp w → w_harts w1 = w_harts (locked_by l w) →
  w_cpus w1 = w_cpus (locked_by l w) → w_lk w1 = w_lk (locked_by l w) →
  runs (release l) w1 tt (set_lk (w_lk w) (set_harts (w_harts w) (set_cpus (w_cpus w) w1))).
Proof.
  intros Hok Hl Et Eh Ec El env v E. pose proof (inside_cpus w w1 v Hok E Et Ec) as Ev.
  eexists. split.
  - apply (release_after l env w v); try done.
    + by rewrite (alike_tp _ _ E).
    + by rewrite (alike_harts _ _ E).
    + by rewrite Ev.
    + by rewrite (alike_lk _ _ E).
  - apply (alike_map (set_lk (w_lk w))); [|reflexivity|reflexivity]. by apply outside_alike.
Qed.

Lemma runs_push_off w : 0 ≤ w_tp w < NCPU → runs push_off w tt (pushed w).
Proof.
  intros Ht env w1 E. exists (pushed w1). split; [|by apply pushed_alike].
  apply push_off_run. by rewrite (alike_tp _ _ E).
Qed.

Lemma runs_pop_off w w1 :
  cpu_ok w → w_tp w1 = w_tp w → w_harts w1 = w_harts (pushed w) → w_cpus w1 = w_cpus (pushed w) →
  runs pop_off w1 tt (set_harts (w_harts w) (set_cpus (w_cpus w) w1)).
Proof.
  intros Hok Et Eh Ec env v E. pose proof (inside_cpus w w1 v Hok E Et Ec) as Ev.
  eexists. split; [|by apply outside_alike]. apply (pop_after env w v); try done.
  - by rewrite (alike_tp _ _ E).
  - by rewrite (alike_harts _ _ E).
  - by rewrite Ev.
Qed.

Lemma runs_wakeup ch w : cpu_ok w → procs_free w → runs (wakeup ch) w tt w.
Proof.
  intros Hok Hf env w1 E. eexists. split.
  - apply wakeup_run; [by eapply alike_cpu_ok|]. intros p Hp. unfold lk_free. rewrite (alike_lk _ _ E). by apply Hf.
  - etrans; [|exact E]. etrans; [|apply settle_alike].
    exact (woken_alike ch all_procs (settle w1)).
Qed.

Lemma runs_myproc w : cpu_ok w → runs myproc w (c_proc (my_cpu w)) w.
Proof.
  intros Hok env w1 E. exists (settle w1). split; [|by rewrite settle_alike].
  rewrite myproc_run by (by eapply alike_cpu_ok). by rewrite (alike_cproc _ _ E).
Qed.

Lemma runs_get_pid p w : runs (pr <- get_proc p ;; ret (p_pid pr)) w (p_pid (w_procs w p)) w.
Proof. intros env w1 E. exists w1. split; [|done]. unfold get_proc. msteps. by rewrite (alike_pid _ _ p E). Qed.

End Runs.

(** ** Processes and sleep locks *)

(** Process [p] runs and does not wait for anything, no spin lock is held. *)
Definition quiet (w : world) (p : Z) : Prop :=
  running w p ∧ c_noff (my_cpu w) = 0 ∧ (∀ l, lk_free w l) ∧
  p_state (w_procs w p) = RUNNING ∧ p_chan (w_procs w p) = None ∧ 0 ≤ p < NPROC.

Lemma quiet_running w p : quiet w p → running w p.
Proof. by intros []. Qed.
Lemma quiet_cpu_ok w p : quiet w p → cpu_ok w.
Proof. by intros [[] _]. Qed.
Lemma quiet_tp w p : quiet w p → 0 ≤ w_tp w < NCPU.
Proof. intros H. by apply quiet_cpu_ok in H as []. Qed.
Lemma quiet_lk w p l : quiet w p → lk_free w l.
Proof. by intros (_ & _ & ? & _). Qed.
Lemma quiet_procs w p : quiet w p → procs_free w.
Proof. intros (_ & _ & H & _) q _. apply H. Qed.
Lemma quiet_cproc w p : quiet w p → c_proc (my_cpu w) = Some p.
Proof. by intros [[] _]. Qed.
Lemma locked_by_settle l w : locked_by l (settle w) = locked_by l w.
Proof. unfold locked_by. by rewrite pushed_settle. Qed.

(** Entering a critical section as process [p]. *)
Lemma enter_as {B} l w p (k : Z → K B) env :
  quiet w p → (mp <- myproc ;; pr <- deref mp ;; acquire l ;; k pr) env w = k p env (locked_by l w).
Proof.
  intros Hq. mcall myproc_run; [eauto using quiet_cpu_ok|]. rewrite (quiet_cproc _ _ Hq). unfold deref. mstep.
  mcall acquire_free; [exact (quiet_tp _ _ Hq)|exact (quiet_lk _ _ l Hq)|]. by rewrite locked_by_settle.
Qed.

Lemma procs_free_locked l w : procs_free w → (∀ q, l ≠ LProc q) → procs_free (locked_by l w).
Proof. intros Hf Hl q Hq. unfold lk_free, locked_by. rsimpl. rewrite fn_lookup_insert_ne by done. by apply Hf. Qed.
#[export] Hint Resolve procs_free_locked : xv6.
#[export] Hint Resolve quiet_running quiet_cpu_ok quiet_tp quiet_lk quiet_procs quiet_cproc : xv6.

Section Sleeplocks.
Context `{DiskOps}.

Lemma alike_running w w' p : w ~~ w' → running w' p → running w p.
Proof. intros E [Hok Hp]. split; [by eapply alike_cpu_ok|]. by rewrite (alike_cproc _ _ E). Qed.

Lemma alike_lk_free w w' l : w ~~ w' → lk_free w' l → lk_free w l.
Proof. intros E. unfold lk_free. by rewrite (alike_lk _ _ E). Qed.

Lemma alike_slk w w' : w ~~ w' → w_slk w = w_slk w'.
Proof. intros E. exact (alike_field w_slk _ _ E (λ _, eq_refl)). Qed.

Lemma runs_acquiresleep s p w :
  quiet w p → sl_locked (w_slk w s) = false →
  runs (acquiresleep s) w tt
    (set_slk (<[s := mkSleeplock true (sl_name (w_slk w s)) (p_pid (w_procs w p))]> (w_slk w)) w).
Proof.
  intros Hq Hs env w1 E. eexists. split.
  - apply (acquiresleep_run s p); [eapply alike_running; eauto with xv6|eapply alike_lk_free; eauto with xv6|].
    by rewrite (alike_slk _ _ E).
  - rewrite (alike_slk _ _ E), (alike_pid _ _ p E).
    apply (alike_map (set_slk _)); [|reflexivity|reflexivity]. by rewrite settle_alike.
Qed.

Lemma runs_releasesleep s p w :
  quiet w p →
  runs (releasesleep s) w tt (set_slk (<[s := mkSleeplock false (sl_name (w_slk w s)) 0]> (w_slk w)) w).
Proof.
  intros Hq env w1 E. eexists. split.
  - apply (releasesleep_run s); [eapply alike_cpu_ok; eauto with xv6|eapply alike_lk_free; eauto with xv6|].
    intros q Hq'. eapply alike_lk_free; eauto with xv6.
  - rewrite (alike_slk _ _ E).
    set (f := <[s := _]> (w_slk w)).
    transitivity (set_slk f (settle w1)).
    + exact (woken_alike (CSleep s) all_procs (set_slk f (settle w1))).
    + apply (alike_map (set_slk f)); [|reflexivity|reflexivity]. by rewrite settle_alike.
Qed.

Lemma runs_holdingsleep s p w :
  quiet w p →
  runs (holdingsleep s) w (sl_locked (w_slk w s) && (sl_pid (w_slk w s) =? p_pid (w_procs w p))) w.
Proof.
  intros Hq env w1 E. eexists. split.
  - rewrite (holdingsleep_run s p); [|eapply alike_running; eauto with xv6|eapply alike_lk_free; eauto with xv6].
    rewrite (alike_slk _ _ E), (alike_pid _ _ p E). reflexivity.
  - by rewrite settle_alike.
Qed.

End Sleeplocks.

(** ** The block device *)

(** What a disk operation on buffer [b] does: a write puts the buffer's bytes on
    the disk, and is recorded; a read fills the buffer. *)
Definition rw_done (b : Z) (write : bool) (w : world) : world :=
  let n := b_blockno (w_bufs w b) in
  if write then
    set_dtrace (w_dtrace w ++ [(n, b_data (w_bufs w b))])
      (set_disk (<[n := b_data (w_bufs w b)]> (w_disk w)) w)
  else set_bufs (alter (set_b_data (w_disk w n)) b (w_bufs w)) w.

(** Block numbers the driver can address: sector numbers have 32 bits. *)
Definition is_block (n : Z) : Prop := 0 ≤ n < 2 ^ 31.

(** The promise: called by a running process with an idle driver, the operation
    completes and the driver is idle again. *)
Class Disk (D : DiskOps) := {
  disk_rw_runs b write w p :
    quiet w p → vd_idle (w_vd w) → 0 ≤ b < NBUF → b_disk (w_bufs w b) = false →
    is_block (b_blockno (w_bufs w b)) →
    runs (disk_rw b write) w tt (rw_done b write w)
}.

(** [rstep] runs one primitive command of the goal [runs m w r w']. *)
Ltac rstep :=
  lazymatch goal with
  | |- runs (bind (bind _ _) _) _ _ _ => apply runs_assoc
  | |- runs (bind (ret _) _) _ _ _ => apply runs_bind_ret
  | |- runs (bind (gets _) _) _ _ _ => apply runs_bind_gets; [reflexivity|]
  | |- runs (bind (modify _) _) _ _ _ => apply runs_bind_modify; [reflexivity|reflexivity|]
  | |- runs (bind (when true _) _) _ _ _ => change (when true ?m) with m
  | |- runs (bind (when false _) _) _ _ _ => apply runs_bind_ret
  | |- runs (when true _) _ _ _ => change (when true ?m) with m
  | |- runs (when false _) _ _ _ => change (when false ?m) with (ret (W := world) tt)
  | |- runs (ret _) _ _ _ => apply runs_ret
  | |- runs (gets _) _ _ _ => apply runs_gets; reflexivity
  | |- runs (modify _) _ _ _ => apply runs_modify; reflexivity
  end; cbv beta.
Ltac rsteps := repeat rstep.

(** [rcall lem] runs the first command by [lem], a fact [runs m w r w']. *)
Tactic Notation "rcall" uconstr(lem) := eapply runs_bind; [eapply lem; try eassumption|cbv beta].

(** ** A world to run in *)

(** A device that serves each request at once. *)
Definition prompt_disk : DiskOps := {| disk_rw := λ b wr, modify (rw_done b wr); vd_idle := λ _, True |}.

#[export] Instance prompt_disk_ok : Disk prompt_disk.
Proof.
  split. intros b wr w p _ _ _ _ _. cbn. apply runs_modify; intros v; unfold rw_done; by destruct wr.
Qed.

(** The kernel image with process 1 running on cpu 0 and a disk [d]. *)
Definition running_world (d : Z → bytes) : world :=
  set_disk d (set_procs (<[1 := set_p_pid 1 (set_p_state RUNNING zero_proc)]> (w_procs image_world))
    (set_cpus (<[0 := mkCpu (Some 1) 0 false]> (w_cpus image_world)) image_world)).

Lemma running_world_quiet d : quiet (running_world d) 1.
Proof. split_and!; [split; [split|]|..]; done. Qed.
