(* ===== verification/Sleep.v ===== *)
(** * Sleeping, followed through the context switch

    The state in which sleep() leaves the cpu to others, and the state in which
    it returns once the process runs again.  Without anybody to run, the process
    stays asleep. *)

From S2P Require Import Prelude Types StringC Spinlock Sched Sleeplock Run.

(** The cpu belongs to process [p], which holds no spin lock, whatever the state
    of [p] is. *)
Definition calm (w : world) (p : Z) : Prop :=
  running w p ∧ c_noff (my_cpu w) = 0 ∧ ∀ l, lk_free w l.

Lemma quiet_calm w p : quiet w p → calm w p.
Proof. by intros (? & ? & ? & _). Qed.
#[export] Hint Resolve quiet_calm : xv6.

(** [w1] is a state inside the critical section of [l] that was entered in [w]. *)
Record inside (l : lockid) (w w1 : world) : Prop := {
  in_tp : w_tp w1 = w_tp w;
  in_harts : w_harts w1 = w_harts (locked_by l w);
  in_cpus : w_cpus w1 = w_cpus (locked_by l w);
  in_lk : w_lk w1 = w_lk (locked_by l w)
}.

(** The same state with the section left. *)
Definition leave (w w1 : world) : world := set_lk (w_lk w) (set_harts (w_harts w) (set_cpus (w_cpus w) w1)).

Lemma inside_self l w : inside l w (locked_by l w).
Proof. done. Qed.

(** Process [p] asleep on [ch], holding only its own lock. *)
Definition asleep (ch : chan) (p : Z) (w : world) : world :=
  locked_by (LProc p) (set_procs (alter (λ pr, set_p_state SLEEPING (set_p_chan (Some ch) pr)) p (w_procs w)) w).

(** Masking interrupts twice. *)
Lemma mask_twice x : Z.land (Z.land x (Z.lnot SSTATUS_SIE)) (Z.lnot SSTATUS_SIE) = Z.land x (Z.lnot SSTATUS_SIE).
Proof. by rewrite <-Z.land_assoc, Z.land_diag. Qed.

Section Sleep.
Context (ch : chan) (lk : lockid) (p : Z) (w w1 : world).
Context (Hq : calm w p) (Hlk : lk ≠ LProc p) (Hin : inside lk w w1).

Lemma inside_my_cpu : my_cpu w1 = mkCpu (Some p) 1 (sie w).
Proof using Hq Hin.
  destruct Hin as [Et _ Ec _], Hq as ([_ Hp] & Hn & _). unfold my_cpu at 1. rewrite Ec, Et. unfold locked_by, pushed. rsimpl.
  rewrite fn_lookup_insert, Hn, Hp. reflexivity.
Qed.

Lemma inside_my_hart :
  my_hart w1 = set_h_sstatus (Z.land (h_sstatus (my_hart w)) (Z.lnot SSTATUS_SIE)) (my_hart w).
Proof using Hin.
  destruct Hin as [Et Eh _ _]. unfold my_hart at 1. rewrite Eh, Et. unfold locked_by, pushed. rsimpl.
  by rewrite fn_lookup_insert.
Qed.

Lemma leave_calm : calm (leave w w1) p.
Proof using Hq Hin.
  destruct Hin as [Et _ _ _].
  assert (E : ∀ t, t = w_tp w → calm (set_tp t w) p) by (intros t ->; exact Hq).
  exact (E _ Et).
Qed.

Lemma leave_cpu : my_cpu (leave w w1) = my_cpu w.
Proof using Hin. unfold my_cpu, leave. rsimpl. by rewrite (in_tp _ _ _ Hin). Qed.
Lemma leave_sie : sie (leave w w1) = sie w.
Proof using Hin. unfold sie, my_hart, leave. rsimpl. by rewrite (in_tp _ _ _ Hin). Qed.

(** acquire(&p->lock); release(lk): one lock is exchanged for the other. *)
Lemma sleep_exchange {B} (k : unit → K B) env :
  (acquire (LProc p) ;; bind (release lk) k) env w1 = k tt env (locked_by (LProc p) (leave w w1)).
Proof using Hq Hlk Hin.
  pose proof Hq as ([(Ht & Hn & Hs) Hp] & Hn0 & Hl). pose proof inside_my_cpu as Ecpu. pose proof inside_my_hart as Eh.
  destruct Hin as [Et Ehh Ec El].
  mcall acquire_free; [by rewrite Et|unfold lk_free; rewrite El; unfold locked_by; rsimpl; rewrite !fn_lookup_insert_ne by done; apply Hl|].
  set (v := locked_by (LProc p) w1).
  assert (Evl : w_lk v lk = mkSpinlock true (lk_name (w_lk w lk)) (Some (w_tp w))).
  { unfold v, locked_by. rsimpl. rewrite fn_lookup_insert_ne by done. rewrite El. apply fn_lookup_insert. }
  etransitivity; [eapply bind_Ret|reflexivity].
  unfold release. mcall holding_run; [by rewrite <-Et in Ht|]. rewrite Evl. change (w_tp v) with (w_tp w1). rewrite Et. rsimpl.
  rewrite bool_decide_true by done. cbn [andb negb]. unfold upd_lk. msteps.
  assert (Ecv : my_cpu v = mkCpu (Some p) 2 (sie w)).
  { unfold my_cpu at 1, v, locked_by, pushed. rsimpl. rewrite fn_lookup_insert, Ecpu. reflexivity. }
  etransitivity; [apply pop_off_run|].
  { change (0 ≤ w_tp w1 < NCPU). by rewrite Et. }
  { exact (sie_pushed w1). }
  { change (1 ≤ c_noff (my_cpu v)). by rewrite Ecv. }
  f_equal. set (l := set_lk _ _). assert (Ecl : my_cpu l = mkCpu (Some p) 2 (sie w)) by exact Ecv.
  unfold popped. rewrite Ecl. cbn [c_noff c_intena Z.sub Z.eqb Z.pos_sub Z.opp Z.add andb].
  assert (Elk : w_lk l = w_lk (locked_by (LProc p) (leave w w1))).
  { unfold l, v, leave, locked_by. rsimpl. rewrite El. unfold locked_by. rsimpl. autorewrite with xv6. rsimpl.
    rewrite Et. rewrite (fn_insert_comm _ lk (LProc p)), fn_insert_insert by done. f_equal. apply fn_insert_same.
    destruct (Hl lk) as [H1 H2]. revert H1 H2. destruct (w_lk w lk). cbn. by intros -> ->. }
  assert (Ecs : <[w_tp l := set_c_noff 1 (mkCpu (Some p) 2 (sie w))]> (w_cpus l) = w_cpus (locked_by (LProc p) (leave w w1))).
  { change (w_cpus (locked_by (LProc p) (leave w w1))) with (w_cpus (pushed (leave w w1))). unfold pushed at 1.
    rewrite leave_cpu, leave_sie, Hn0, Hp. unfold l, v, locked_by, pushed, leave. rsimpl. rewrite Ec, Et.
    unfold locked_by, pushed. rsimpl. by autorewrite with xv6. }
  assert (Ehs : w_harts l = w_harts (locked_by (LProc p) (leave w w1))).
  { change (w_harts l) with (<[w_tp w1 := set_h_sstatus (Z.land (h_sstatus (my_hart w1)) (Z.lnot SSTATUS_SIE)) (my_hart w1)]> (w_harts w1)).
    rewrite Eh, Ehh, Et. unfold leave, locked_by, pushed, my_hart. rsimpl. rewrite Et. autorewrite with xv6. by rewrite mask_twice. }
  transitivity (set_lk (w_lk l) (set_harts (w_harts l) (set_cpus (<[w_tp l := set_c_noff 1 (mkCpu (Some p) 2 (sie w))]> (w_cpus l)) w1)));
    [reflexivity|]. rewrite Elk, Ehs, Ecs. reflexivity.
Qed.
End Sleep.

(** ** sched *)

Lemma lk_mine_locked_by l w : lk_mine (locked_by l w) l.
Proof. unfold lk_mine, locked_by. rsimpl. by rewrite fn_lookup_insert. Qed.

Section Switch.
Context (p : Z) (w : world) (Hq : calm w p) (Hs : p_state (w_procs w p) ≠ RUNNING).

(** The state after the checks of sched, before it switches. *)
Lemma sched_switches env :
  sched env (locked_by (LProc p) w) =
  (swtch ;; c <- mycpu ;; upd_cpu c (set_c_intena (sie w))) env (locked_by (LProc p) w).
Proof using Hq Hs.
  pose proof Hq as ([Hok Hp] & Hn & Hl). pose proof Hok as (Ht & _ & _). set (a := locked_by (LProc p) w).
  assert (Ea : my_cpu a = mkCpu (Some p) 1 (sie w)) by (by apply (inside_my_cpu (LProc p) p w a)).
  unfold sched. mcall (myproc_inside (LProc p) w a); [done..|]. rewrite Hp. unfold deref at 1. mstep.
  mcall holding_lk_mine; [by apply (lk_mine_locked_by (LProc p) w)|]. cbn [negb].
  unfold mycpu at 1. mcall cpuid_tp. unfold get_cpu at 1. mstep. change (w_cpus a (w_tp a)) with (my_cpu a). rewrite Ea. cbn [c_noff Z.eqb Pos.eqb negb].
  unfold get_proc. mstep. change (w_procs a) with (w_procs w). rewrite decide_False by done.
  unfold intr_get, r_sstatus. msteps. assert (Es : sie a = false) by exact (sie_pushed w). unfold sie in Es. rewrite Es.
  unfold mycpu at 1. mcall cpuid_tp. unfold get_cpu at 1. mstep. change (w_cpus a (w_tp a)) with (my_cpu a). rewrite Ea. reflexivity.
Qed.

Lemma sched_blocks : sched [] (locked_by (LProc p) w) = Blocked (locked_by (LProc p) w).
Proof using Hq Hs. by rewrite sched_switches. Qed.

Lemma sched_resumes f env w3 :
  f (locked_by (LProc p) w) = locked_by (LProc p) w3 → calm w3 p → sie w3 = sie w →
  sched (f :: env) (locked_by (LProc p) w) = Ret tt env (locked_by (LProc p) w3).
Proof using Hq Hs.
  intros Ef Hq3 Es. rewrite sched_switches. unfold swtch, wait_event, bind at 1. rewrite Ef.
  unfold mycpu. mcall cpuid_tp; [by destruct Hq3 as ([(? & _) _] & _)|]. unfold upd_cpu, modify. f_equal.
  assert (Ea : my_cpu (locked_by (LProc p) w3) = mkCpu (Some p) 1 (sie w3)) by (by apply (inside_my_cpu (LProc p) p w3)).
  rewrite fn_alter_insert. fold (my_cpu (locked_by (LProc p) w3)). rewrite Ea, Es, <-Es, fn_insert_same by exact Ea. reflexivity.
Qed.
End Switch.

(** ** sleep *)

Section Wakes.
Context (ch : chan) (lk : lockid) (p : Z) (w w1 : world).
Context (Hq : calm w p) (Hlk : lk ≠ LProc p) (Hin : inside lk w w1).

Lemma asleep_calm : calm (set_procs (alter (λ pr, set_p_state SLEEPING (set_p_chan (Some ch) pr)) p (w_procs w1)) (leave w w1)) p.
Proof using Hq Hin. exact (leave_calm lk p w w1 Hq Hin). Qed.

Lemma sleep_sleeps env :
  sleep ch lk env w1 =
  (sched ;;
   upd_proc p (set_p_chan None) ;;
   release (LProc p) ;;
   acquire lk) env (asleep ch p (leave w w1)).
Proof using Hq Hlk Hin.
  pose proof Hq as ([Hok Hp] & _). pose proof Hin as [Et Eh Ec El].
  unfold sleep. mcall (myproc_inside lk w w1). rewrite Hp. unfold deref at 1. mstep.
  rewrite bool_decide_false by done. cbn [negb]. unfold when. mstep.
  etransitivity; [by apply sleep_exchange|]. unfold upd_proc. msteps.
  unfold asleep. rsimpl. by autorewrite with xv6.
Qed.

Lemma sleep_blocks : sleep ch lk [] w1 = Blocked (asleep ch p (leave w w1)).
Proof using Hq Hlk Hin.
  rewrite sleep_sleeps. unfold bind at 1. unfold asleep. rewrite sched_blocks; [done|apply asleep_calm|].
  rsimpl. by rewrite fn_alter_insert, fn_lookup_insert.
Qed.

(** The process runs again in [w3], on some cpu. *)
Lemma sleep_returns f env w3 :
  f (asleep ch p (leave w w1)) = locked_by (LProc p) w3 → calm w3 p → sie w3 = sie w →
  sleep ch lk (f :: env) w1 =
  Ret tt env (locked_by lk (settle (set_procs (alter (set_p_chan None) p (w_procs w3)) w3))).
Proof using Hq Hlk Hin.
  intros Ef Hq3 Es. rewrite sleep_sleeps. unfold asleep in *.
  mcall (sched_resumes p); [apply asleep_calm| | |].
  { rsimpl. by rewrite fn_alter_insert, fn_lookup_insert. }
  { rewrite Es. symmetry. exact (leave_sie lk w w1 Hin). }
  unfold upd_proc. mstep.
  mcall (release_after (LProc p) env (set_procs (alter (set_p_chan None) p (w_procs w3)) w3)); try done.
  { destruct Hq3 as ([H3 _] & _). exact H3. }
  { destruct Hq3 as (_ & _ & H3). exact (H3 (LProc p)). }
  destruct Hq3 as ([(H1 & _) _] & _ & H3). apply acquire_free; [exact H1|exact (H3 lk)].
Qed.
End Wakes.
