(* ===== verification/Bio.v ===== *)
(** * bio.c: the buffer cache

    Buffers are numbered; [NBUF] is bcache.head, the sentinel of the LRU list.
    [bio_inv] relates the doubly linked list to the sequence of buffers it
    represents, and says that a block is cached at most once and that an
    unreferenced buffer is clean.  [view] is the disk as seen through the cache. *)

From S2P Require Import Prelude Types StringC Spinlock Sched Sleeplock Run.

Definition bhead : Z := NBUF.

Definition get_buf (b : Z) : K buf := gets (λ w, w_bufs w b).
Definition upd_buf (b : Z) (f : buf → buf) : K unit :=
  modify (λ w, set_bufs (alter f b (w_bufs w)) w).

Definition binit : K unit :=
  initlock LBcache "bcache" ;;
  upd_buf bhead (set_b_prev bhead) ;;
  upd_buf bhead (set_b_next bhead) ;;
  for_each (seqZ 0 NBUF) (λ b,
    h <- get_buf bhead ;;
    upd_buf b (set_b_next (b_next h)) ;;
    upd_buf b (set_b_prev bhead) ;;
    initsleeplock (SBuf b) "buffer" ;;
    h <- get_buf bhead ;;
    upd_buf (b_next h) (set_b_prev b) ;;
    upd_buf bhead (set_b_next b)).

(** [for (b = bcache.head.next; b != &bcache.head; b = b->next)] until
    dev and blockno match. *)
Fixpoint find_cached (fuel : nat) (b dev blockno : Z) : K (option Z) :=
  match fuel with
  | O => λ _ _, NoFuel
  | S n =>
      if b =? bhead then ret None else
      bf <- get_buf b ;;
      if (b_dev bf =? dev) && (b_blockno bf =? blockno) then ret (Some b)
      else find_cached n (b_next bf) dev blockno
  end.

(** [for (b = bcache.head.prev; b != &bcache.head; b = b->prev)] until
    refcnt is 0. *)
Fixpoint find_unused (fuel : nat) (b : Z) : K (option Z) :=
  match fuel with
  | O => λ _ _, NoFuel
  | S n =>
      if b =? bhead then ret None else
      bf <- get_buf b ;;
      if b_refcnt bf =? 0 then ret (Some b) else find_unused n (b_prev bf)
  end.

(** Rounds enough for the list: NBUF buffers and the head. *)
Definition list_fuel : nat := S (Z.to_nat NBUF).

Definition bget (dev blockno : Z) : K Z :=
  acquire LBcache ;;
  h <- get_buf bhead ;;
  r <- find_cached list_fuel (b_next h) dev blockno ;;
  match r with
  | Some b =>
      upd_buf b (λ bf, set_b_refcnt (u32 (b_refcnt bf + 1)) bf) ;;
      release LBcache ;;
      acquiresleep (SBuf b) ;;
      ret b
  | None =>
      h <- get_buf bhead ;;
      r <- find_unused list_fuel (b_prev h) ;;
      match r with
      | Some b =>
          upd_buf b (set_b_dev dev) ;;
          upd_buf b (set_b_blockno blockno) ;;
          upd_buf b (set_b_valid false) ;;
          upd_buf b (set_b_refcnt 1) ;;
          release LBcache ;;
          acquiresleep (SBuf b) ;;
          ret b
      | None => panic "bget: no buffers"
      end
  end.

Section Bio.
Context `{DiskOps}.

Definition bread (dev blockno : Z) : K Z :=
  b <- bget dev blockno ;;
  bf <- get_buf b ;;
  when (negb (b_valid bf)) (
    disk_rw b false ;;
    upd_buf b (set_b_valid true)) ;;
  ret b.

Definition bwrite (b : Z) : K unit :=
  h <- holdingsleep (SBuf b) ;;
  if negb h then panic "bwrite" else
  disk_rw b true.

End Bio.

Definition brelse (b : Z) : K unit :=
  h <- holdingsleep (SBuf b) ;;
  if negb h then panic "brelse" else
  releasesleep (SBuf b) ;;
  acquire LBcache ;;
  upd_buf b (λ bf, set_b_refcnt (u32 (b_refcnt bf - 1)) bf) ;;
  bf <- get_buf b ;;
  when (b_refcnt bf =? 0) (
    (* b->next->prev = b->prev; b->prev->next = b->next; *)
    upd_buf (b_next bf) (set_b_prev (b_prev bf)) ;;
    bf <- get_buf b ;;
    upd_buf (b_prev bf) (set_b_next (b_next bf)) ;;
    h <- get_buf bhead ;;
    upd_buf b (set_b_next (b_next h)) ;;
    upd_buf b (set_b_prev bhead) ;;
    h <- get_buf bhead ;;
    upd_buf (b_next h) (set_b_prev b) ;;
    upd_buf bhead (set_b_next b)) ;;
  release LBcache.

Definition bpin (b : Z) : K unit :=
  acquire LBcache ;;
  upd_buf b (λ bf, set_b_refcnt (u32 (b_refcnt bf + 1)) bf) ;;
  release LBcache.

Definition bunpin (b : Z) : K unit :=
  acquire LBcache ;;
  upd_buf b (λ bf, set_b_refcnt (u32 (b_refcnt bf - 1)) bf) ;;
  release LBcache.

(** ** The list *)

(** Following [nx] from [x] one meets the buffers [l] and then [z]; [pv] is the
    way back. *)
Fixpoint seg (nx pv : Z → Z) (x : Z) (l : list Z) (z : Z) : Prop :=
  match l with
  | [] => nx x = z ∧ pv z = x
  | y :: l' => nx x = y ∧ pv y = x ∧ seg nx pv y l' z
  end.

Lemma seg_app nx pv x l1 y l2 z :
  seg nx pv x (l1 ++ y :: l2) z ↔ seg nx pv x l1 y ∧ seg nx pv y l2 z.
Proof.
  revert x. induction l1 as [|a l1 IH]; intros x; cbn; [tauto|]. rewrite IH. tauto.
Qed.

Lemma seg_ext nx pv nx' pv' x l z :
  (∀ b, b ∈ x :: l → nx' b = nx b) → (∀ b, b ∈ l ++ [z] → pv' b = pv b) →
  seg nx pv x l z → seg nx' pv' x l z.
Proof.
  revert x. induction l as [|y l IH]; intros x Hn Hp; cbn.
  - rewrite (Hn x) by (by left). rewrite (Hp z) by (by left). done.
  - rewrite (Hn x) by (by left). rewrite (Hp y) by (by left). intros (? & ? & ?). split_and!; [done..|].
    apply IH; [|  |done]; intros b Hb; [apply Hn|apply Hp]; by right.
Qed.

Lemma seg_next_in nx pv x l z : seg nx pv x l z → nx x ∈ l ++ [z].
Proof. destruct l; cbn; intros (-> & _); by left. Qed.

Lemma seg_prev_in nx pv x l z : seg nx pv x l z → pv z ∈ x :: l.
Proof.
  revert x. induction l as [|y l IH]; intros x; cbn; [intros (_ & ->); by left|].
  intros (_ & _ & Hs). right. by apply IH.
Qed.

Lemma seg_unlink nx pv x l1 b l2 z :
  NoDup (l1 ++ b :: l2) → x ∉ l1 ++ b :: l2 → z ∉ l1 ++ b :: l2 →
  seg nx pv x l1 b → seg nx pv b l2 z →
  seg (<[pv b := nx b]> nx) (<[nx b := pv b]> pv) x (l1 ++ l2) z.
Proof.
  revert x. induction l1 as [|y l1 IH]; intros x Hnd Hx Hz; cbn.
  - intros (Hnx & Hpv). subst x. apply NoDup_cons in Hnd as [Hb Hnd].
    destruct l2 as [|c l2]; cbn.
    + intros (<- & Hp). by rewrite !fn_lookup_insert.
    + intros (<- & Hc & Hs). rewrite !fn_lookup_insert. split_and!; [done..|].
      apply NoDup_cons in Hnd as [Hc2 Hnd].
      eapply seg_ext; [| |exact Hs].
      * intros d Hd. rewrite fn_lookup_insert_ne; [done|]. intros <-. set_solver.
      * intros d Hd. rewrite fn_lookup_insert_ne; [done|]. intros <-. set_solver.
  - intros (Hn & Hp & Hs1) Hs2. apply NoDup_cons in Hnd as [Hy Hnd].
    pose proof (seg_prev_in _ _ _ _ _ Hs1) as Hpb. pose proof (seg_next_in _ _ _ _ _ Hs2) as Hnb.
    rewrite !fn_lookup_insert_ne; [|clear IH; intros E; (rewrite E in Hpb || rewrite E in Hnb); set_solver..].
    split_and!; [done..|]. apply IH; set_solver.
Qed.

Lemma seg_push nx pv h b l :
  b ∉ l → b ≠ h → h ∉ l → NoDup l → seg nx pv h l h →
  seg (<[h := b]> (<[b := nx h]> nx)) (<[nx h := b]> (<[b := h]> pv)) h (b :: l) h.
Proof.
  intros Hb Hh Hl Hnd Hs. cbn. rewrite fn_lookup_insert.
  assert (Hne : nx h ≠ b) by (pose proof (seg_next_in _ _ _ _ _ Hs); set_solver).
  rewrite (fn_lookup_insert_ne _ (nx h)) by done. rewrite fn_lookup_insert. split_and!; [done..|].
  destruct l as [|c l]; cbn in *.
  - destruct Hs as [Hn Hp]. rewrite Hn, fn_lookup_insert, fn_lookup_insert_ne, fn_lookup_insert by done. done.
  - destruct Hs as (Hn & Hp & Hs). rewrite fn_lookup_insert_ne, fn_lookup_insert, Hn, fn_lookup_insert by done.
    split_and!; [done..|]. apply NoDup_cons in Hnd as [Hc Hnd].
    eapply seg_ext; [| |exact Hs]; intros d Hd; rewrite !fn_lookup_insert_ne; try done; intros ->; set_solver.
Qed.

(** ** The invariant of the cache *)

Definition nx (bufs : Z → buf) : Z → Z := λ b, b_next (bufs b).
Definition pv (bufs : Z → buf) : Z → Z := λ b, b_prev (bufs b).

(** Does buffer [bf] belong to block [n]? *)
Definition is_for (n : Z) (bf : buf) : bool := (b_dev bf =? ROOTDEV) && (b_blockno bf =? n).

(** What holds of each buffer: one in use belongs to the root device; one that
    nobody references is clean. *)
Record buf_ok (disk : Z → bytes) (bf : buf) : Prop := {
  bo_ref : 0 ≤ b_refcnt bf < 2 ^ 32;
  bo_idle : b_disk bf = false;
  bo_valid : b_valid bf = true → b_dev bf = ROOTDEV;
  bo_used : b_refcnt bf ≠ 0 → b_dev bf = ROOTDEV;
  bo_clean : b_refcnt bf = 0 → b_valid bf = true → b_data bf = disk (b_blockno bf)
}.

(** [l] is the LRU list, most recently released first. *)
Record bio_inv (w : world) (l : list Z) : Prop := {
  bi_list : seg (nx (w_bufs w)) (pv (w_bufs w)) bhead l bhead;
  bi_perm : l ≡ₚ seqZ 0 NBUF;
  bi_once b b' n : 0 ≤ b < NBUF → 0 ≤ b' < NBUF →
    is_for n (w_bufs w b) = true → is_for n (w_bufs w b') = true → b = b';
  bi_buf b : 0 ≤ b < NBUF → buf_ok (w_disk w) (w_bufs w b)
}.

(** The buffer that holds block [n], and the one a miss recycles: the least
    recently released that nobody references. *)
Definition cached (bufs : Z → buf) (l : list Z) (n : Z) : option Z := List.find (λ b, is_for n (bufs b)) l.
Definition victim (bufs : Z → buf) (l : list Z) : option Z :=
  List.find (λ b, b_refcnt (bufs b) =? 0) (rev l).
Definition pick (bufs : Z → buf) (l : list Z) (n : Z) : option Z :=
  match cached bufs l n with Some b => Some b | None => victim bufs l end.

(** Block [n] as seen through the cache. *)
Definition view (w : world) (n : Z) : bytes :=
  match List.find (λ b, is_for n (w_bufs w b) && b_valid (w_bufs w b)) (seqZ 0 NBUF) with
  | Some b => b_data (w_bufs w b)
  | None => w_disk w n
  end.

Section BioRuns.
Context `{DiskOps}.

Lemma find_cached_run w fuel x l n :
  seg (nx (w_bufs w)) (pv (w_bufs w)) x l bhead → bhead ∉ l → (length l < fuel)%nat →
  runs (find_cached fuel (nx (w_bufs w) x) ROOTDEV n) w (cached (w_bufs w) l n) w.
Proof.
  revert x l. induction fuel as [|fuel IH]; intros x l Hs Hh Hf; [lia|].
  destruct l as [|y l]; cbn in Hs |- *.
  - destruct Hs as [-> _]. rewrite Z.eqb_refl. rsteps.
  - destruct Hs as (-> & _ & Hs). rewrite (proj2 (Z.eqb_neq y bhead)) by set_solver.
    unfold get_buf. rsteps. unfold cached, is_for. cbn [List.find].
    destruct (_ && _); [rsteps|]. apply (IH y l); [done|set_solver|cbn in Hf; lia].
Qed.

Lemma find_unused_run w fuel x l z :
  seg (nx (w_bufs w)) (pv (w_bufs w)) x l z → x = bhead → bhead ∉ l → (length l < fuel)%nat →
  runs (find_unused fuel (pv (w_bufs w) z)) w (victim (w_bufs w) l) w.
Proof.
  intros Hs ->. revert l z Hs. induction fuel as [|fuel IH]; intros l z Hs Hh Hf; [lia|].
  induction l as [|y l _] using rev_ind; cbn.
  - destruct Hs as [_ ->]. rewrite Z.eqb_refl. rsteps.
  - apply seg_app in Hs as [Hs [_ ->]]. rewrite (proj2 (Z.eqb_neq y bhead)) by set_solver.
    unfold get_buf. rsteps. unfold victim. rewrite rev_app_distr. cbn [List.find rev app].
    destruct (_ =? _); [rsteps|]. apply (IH l y); [done|set_solver|rewrite length_app in Hf; cbn in Hf; lia].
Qed.

Lemma bio_in w l b : bio_inv w l → b ∈ l ↔ 0 ≤ b < NBUF.
Proof. intros Hi. rewrite (bi_perm _ _ Hi), elem_of_seqZ. lia. Qed.

Lemma bio_head w l : bio_inv w l → bhead ∉ l.
Proof. intros Hi. rewrite (bio_in _ _ _ Hi). unfold bhead. lia. Qed.

Lemma bio_nodup w l : bio_inv w l → NoDup l.
Proof. intros Hi. rewrite (bi_perm _ _ Hi). apply NoDup_seqZ. Qed.

Lemma bio_fuel w l : bio_inv w l → (length l < list_fuel)%nat.
Proof. intros Hi. rewrite (bi_perm _ _ Hi). vm_compute. lia. Qed.

Lemma find_in {A} (f : A → bool) l x : List.find f l = Some x → x ∈ l ∧ f x = true.
Proof. intros E. apply List.find_some in E as [? ?]. by rewrite list_elem_of_In. Qed.

Lemma pick_spec w l n b : bio_inv w l → pick (w_bufs w) l n = Some b →
  0 ≤ b < NBUF ∧
  (is_for n (w_bufs w b) = true ∨
   (∀ b', 0 ≤ b' < NBUF → is_for n (w_bufs w b') = false) ∧ b_refcnt (w_bufs w b) = 0).
Proof.
  intros Hi. unfold pick, cached. destruct (List.find _ l) as [c|] eqn:E.
  - intros [= <-]. apply find_in in E as [Hc E]. apply (bio_in _ _ _ Hi) in Hc. tauto.
  - intros Hv. apply find_in in Hv as [Hb Hr]. cbv beta in Hr.
    rewrite list_elem_of_In, <-List.in_rev, <-list_elem_of_In, (bio_in _ _ _ Hi) in Hb.
    split; [done|]. right. split; [|lia]. intros b' Hb'.
    apply (List.find_none _ _ E). apply list_elem_of_In. by rewrite (bio_in _ _ _ Hi).
Qed.

(** ** bget and bread *)

(** The buffer [bget] hands out. *)
Definition gotten (n : Z) (bf : buf) : buf :=
  if is_for n bf then set_b_refcnt (u32 (b_refcnt bf + 1)) bf
  else set_b_refcnt 1 (set_b_valid false (set_b_blockno n (set_b_dev ROOTDEV bf))).

Definition lock_buf (p b : Z) (w : world) : world :=
  set_slk (<[SBuf b := mkSleeplock true (sl_name (w_slk w (SBuf b))) (p_pid (w_procs w p))]> (w_slk w)) w.

Definition got (p b n : Z) (w : world) : world :=
  lock_buf p b (set_bufs (<[b := gotten n (w_bufs w b)]> (w_bufs w)) w).

Lemma bget_run w l p n b :
  quiet w p → bio_inv w l → pick (w_bufs w) l n = Some b →
  sl_locked (w_slk w (SBuf b)) = false →
  runs (bget ROOTDEV n) w b (got p b n w).
Proof.
  intros Hq Hi Hp Hs. destruct (pick_spec _ _ _ _ Hi Hp) as [Hb Hc].
  unfold bget, get_buf, upd_buf. rcall (runs_acquire LBcache w); eauto with xv6. rsteps.
  eapply runs_bind.
  { apply (find_cached_run (locked_by LBcache w) list_fuel bhead l n);
      [apply (bi_list _ _ Hi)|eapply bio_head; exact Hi|eapply bio_fuel; exact Hi]. }
  cbv beta. unfold pick in Hp. change (w_bufs (locked_by LBcache w)) with (w_bufs w).
  assert (Hend : ∀ bf, gotten n (w_bufs w b) = bf →
    runs (release LBcache ;; acquiresleep (SBuf b) ;; ret b)
      (set_bufs (<[b := bf]> (w_bufs w)) (locked_by LBcache w)) b (got p b n w)).
  { intros bf <-. eapply runs_bind; [apply (runs_release LBcache w); eauto with xv6|]. cbv beta.
    eapply runs_bind; [apply (runs_acquiresleep (SBuf b) p); [exact Hq|exact Hs]|]. apply runs_ret. }
  destruct (cached (w_bufs w) l n) as [c|] eqn:Ec.
  - injection Hp as ->. rsteps. apply Hend. apply find_in in Ec as [_ Ec]. unfold gotten. rewrite Ec. done.
  - rsteps. eapply runs_bind.
    { apply (find_unused_run (locked_by LBcache w) list_fuel bhead l bhead);
        [apply (bi_list _ _ Hi)|done|eapply bio_head; exact Hi|eapply bio_fuel; exact Hi]. }
    cbv beta. change (w_bufs (locked_by LBcache w)) with (w_bufs w). rewrite Hp. rsteps.
    rsimpl. autorewrite with xv6. apply Hend.
    destruct Hc as [Hc|[Hc _]].
    + exfalso. unfold cached in Ec. apply (bio_in _ _ _ Hi) in Hb. apply list_elem_of_In in Hb.
      pose proof (List.find_none _ _ Ec b Hb). congruence.
    + unfold gotten. by rewrite Hc.
Qed.

(** Replacing one buffer, links kept. *)
Lemma bio_upd w l b bf slk :
  bio_inv w l → 0 ≤ b < NBUF → b_next bf = b_next (w_bufs w b) → b_prev bf = b_prev (w_bufs w b) →
  (∀ b' n, 0 ≤ b' < NBUF → b' ≠ b → is_for n bf = true → is_for n (w_bufs w b') = false) →
  buf_ok (w_disk w) bf →
  bio_inv (set_slk slk (set_bufs (<[b := bf]> (w_bufs w)) w)) l.
Proof.
  intros Hi Hb Hn Hp Hone Hok. split.
  - eapply seg_ext; [| |exact (bi_list _ _ Hi)]; intros c _; unfold nx, pv; rsimpl;
      (destruct (decide (b = c)) as [<-|]; [by rewrite fn_lookup_insert|by rewrite fn_lookup_insert_ne]).
  - exact (bi_perm _ _ Hi).
  - intros c c' n Hc Hc'. rsimpl.
    destruct (decide (b = c)) as [<-|Hbc], (decide (b = c')) as [<-|Hbc']; try done;
      rewrite ?fn_lookup_insert, ?fn_lookup_insert_ne by done.
    + intros E1 E2. by rewrite (Hone c' n) in E2.
    + intros E1 E2. by rewrite (Hone c n) in E1.
    + by apply (bi_once _ _ Hi).
  - intros c Hc. rsimpl. destruct (decide (b = c)) as [<-|Hbc].
    + by rewrite fn_lookup_insert.
    + rewrite fn_lookup_insert_ne by done. by apply (bi_buf _ _ Hi).
Qed.

Lemma is_for_eq n n' bf : is_for n bf = true → is_for n' bf = true → n = n'.
Proof. unfold is_for. lia. Qed.

(** Two buffers never belong to the same block. *)
Lemma bio_other w l b b' n :
  bio_inv w l → 0 ≤ b < NBUF → 0 ≤ b' < NBUF → b' ≠ b →
  is_for n (w_bufs w b) = true → is_for n (w_bufs w b') = false.
Proof.
  intros Hi Hb Hb' Hne E. destruct (is_for n (w_bufs w b')) eqn:E'; [|done].
  by destruct Hne; apply (bi_once _ _ Hi b' b n).
Qed.

(** ** The view *)

Lemma view_cached w l b n :
  bio_inv w l → 0 ≤ b < NBUF → is_for n (w_bufs w b) = true → b_valid (w_bufs w b) = true →
  view w n = b_data (w_bufs w b).
Proof.
  intros Hi Hb Hf Hv. unfold view. destruct (List.find _ _) as [c|] eqn:E.
  - apply find_in in E as [Hc E]. apply elem_of_seqZ in Hc. apply andb_true_iff in E as [E _].
    by rewrite (bi_once _ _ Hi b c n) by (done || lia).
  - exfalso. assert (Hin : List.In b (seqZ 0 NBUF)) by (apply list_elem_of_In, elem_of_seqZ; lia).
    pose proof (List.find_none _ _ E b Hin) as E'. cbv beta in E'. by rewrite Hf, Hv in E'.
Qed.

Lemma view_uncached w n :
  (∀ b, 0 ≤ b < NBUF → is_for n (w_bufs w b) = true → b_valid (w_bufs w b) = false) → view w n = w_disk w n.
Proof.
  intros Hn. unfold view. destruct (List.find _ _) as [c|] eqn:E; [|done].
  apply find_in in E as [Hc E]. apply elem_of_seqZ in Hc. apply andb_true_iff in E as [E Ev].
  by rewrite Hn in Ev by (done || lia).
Qed.

(** The cases of the view. *)
Lemma view_cases w l n : bio_inv w l →
  (∃ b, 0 ≤ b < NBUF ∧ is_for n (w_bufs w b) = true ∧ b_valid (w_bufs w b) = true ∧ view w n = b_data (w_bufs w b)) ∨
  ((∀ b, 0 ≤ b < NBUF → is_for n (w_bufs w b) = true → b_valid (w_bufs w b) = false) ∧ view w n = w_disk w n).
Proof.
  intros Hi. destruct (List.find (λ b, is_for n (w_bufs w b) && b_valid (w_bufs w b)) (seqZ 0 NBUF)) as [c|] eqn:E.
  - left. exists c. apply find_in in E as [Hc E]. apply elem_of_seqZ in Hc. apply andb_true_iff in E as [E Ev].
    split_and!; try done; try lia. by apply (view_cached w l); [|lia| |].
  - right. assert (Hn : ∀ b, 0 ≤ b < NBUF → is_for n (w_bufs w b) = true → b_valid (w_bufs w b) = false).
    { intros b Hb Hf. assert (Hin : List.In b (seqZ 0 NBUF)) by (apply list_elem_of_In, elem_of_seqZ; lia).
      pose proof (List.find_none _ _ E b Hin) as E'. cbv beta in E'. by rewrite Hf in E'. }
    split; [done|]. by apply view_uncached.
Qed.
End BioRuns.

(** ** bread *)

(** The buffer [bread] returns: valid, referenced once more, holding the block. *)
Definition loaded (disk : Z → bytes) (n : Z) (bf : buf) : buf :=
  set_b_valid true
    (set_b_data (if is_for n bf && b_valid bf then b_data bf else disk n) (gotten n bf)).

Definition took (p b n : Z) (w : world) : world :=
  lock_buf p b (set_bufs (<[b := loaded (w_disk w) n (w_bufs w b)]> (w_bufs w)) w).

(** The buffer's bytes are those of the disk. *)
Definition clean (w : world) (b : Z) : Prop := b_data (w_bufs w b) = w_disk w (b_blockno (w_bufs w b)).

(** The buffer [bget n] hands out is [b], and it is not locked. *)
Definition available (w : world) (l : list Z) (n b : Z) : Prop :=
  pick (w_bufs w) l n = Some b ∧ sl_locked (w_slk w (SBuf b)) = false ∧
  (b_refcnt (w_bufs w b) + 1 < 2 ^ 32 ∨ b_valid (w_bufs w b) = true ∧ clean w b).

Section BioDisk.
Context `{Disk}.

Lemma gotten_for n bf : b_blockno (gotten n bf) = n.
Proof. unfold gotten. destruct (is_for n bf) eqn:E; [|done]. unfold is_for in E. rsimpl. lia. Qed.

Lemma bread_run w l p n b :
  quiet w p → vd_idle (w_vd w) → bio_inv w l → available w l n b → is_block n →
  runs (bread ROOTDEV n) w b (took p b n w).
Proof.
  intros Hq Hv Hi (Hp & Hs & Hr) Hbl. destruct (pick_spec _ _ _ _ Hi Hp) as [Hb Hc].
  unfold bread. eapply runs_bind; [by apply (bget_run w l p n b)|]. cbv beta. unfold get_buf. rsteps.
  unfold got, lock_buf. rsimpl. rewrite fn_lookup_insert.
  assert (Hev : b_valid (gotten n (w_bufs w b)) = is_for n (w_bufs w b) && b_valid (w_bufs w b)).
  { unfold gotten. by destruct (is_for n _). }
  rewrite Hev. destruct (is_for n (w_bufs w b) && b_valid (w_bufs w b)) eqn:Ef; cbn [negb]; rsteps.
  - eapply runs_alike; [apply runs_ret|reflexivity|].
    assert (Hl : loaded (w_disk w) n (w_bufs w b) = gotten n (w_bufs w b)).
    { unfold loaded. rewrite Ef. apply andb_true_iff in Ef as [Ef Ev]. unfold gotten. rewrite Ef, <-Ev. reflexivity. }
    unfold took, lock_buf. rsimpl. rewrite Hl. reflexivity.
  - eapply runs_bind.
    { apply (disk_rw_runs b false _ p); [exact Hq|exact Hv|exact Hb|..].
      - rsimpl. rewrite fn_lookup_insert. unfold gotten. destruct (is_for n _); apply (bo_idle _ _ (bi_buf _ _ Hi b Hb)).
      - rsimpl. by rewrite fn_lookup_insert, gotten_for. }
    cbv beta. unfold upd_buf. rsteps.
    eapply runs_alike; [apply runs_ret|reflexivity|]. unfold rw_done. rsimpl.
    autorewrite with xv6. rewrite gotten_for. unfold took, lock_buf, loaded. rsimpl. rewrite Ef. reflexivity.
Qed.

Lemma loaded_ok w l n b :
  bio_inv w l → available w l n b → buf_ok (w_disk w) (loaded (w_disk w) n (w_bufs w b)) ∧
  is_for n (loaded (w_disk w) n (w_bufs w b)) = true.
Proof.
  intros Hi (Hp & Hs & Hr). destruct (pick_spec _ _ _ _ Hi Hp) as [Hb Hc].
  destruct (bi_buf _ _ Hi b Hb) as [Hr0 Hd Hv Hu _]. unfold loaded, gotten.
  destruct (is_for n (w_bufs w b)) eqn:Ef.
  - pose proof Ef as Ef'. unfold is_for in Ef. apply andb_true_iff in Ef as [E1 E2].
    split; [|unfold is_for; rsimpl; by rewrite E1, E2].
    assert (b_dev (w_bufs w b) = ROOTDEV) by lia. split; rsimpl; try done; [apply u32_range|].
    intros E _. destruct Hr as [Hr|[Hr Hc']]; [rewrite u32_small in E by lia; lia|]. by rewrite Hr.
  - split; [split; rsimpl; try done; try lia|]. unfold is_for. rsimpl. by rewrite !Z.eqb_refl.
Qed.

Lemma took_inv w l p n b : bio_inv w l → available w l n b → bio_inv (took p b n w) l.
Proof.
  intros Hi Ha. destruct (loaded_ok _ _ _ _ Hi Ha) as [Hok Hfor].
  destruct Ha as (Hp & Hs & Hr). destruct (pick_spec _ _ _ _ Hi Hp) as [Hb Hc].
  apply (bio_upd w l b (loaded (w_disk w) n (w_bufs w b)) (w_slk (took p b n w)) Hi Hb).
  - unfold loaded, gotten. by destruct (is_for n (w_bufs w b)).
  - unfold loaded, gotten. by destruct (is_for n (w_bufs w b)).
  - intros b' m Hb' Hne Hm. assert (m = n) as -> by (by eapply is_for_eq).
    destruct Hc as [Hc|[Hc _]]; [by apply (bio_other w l b)|by apply Hc].
  - exact Hok.
Qed.

Lemma took_view w l p n b m : bio_inv w l → available w l n b → view (took p b n w) m = view w m.
Proof.
  intros Hi Ha. pose proof (took_inv w l p n b Hi Ha) as Hi'. destruct (loaded_ok _ _ _ _ Hi Ha) as [Hok Hfor].
  destruct Ha as (Hp & Hs & Hr). destruct (pick_spec _ _ _ _ Hi Hp) as [Hb Hc].
  destruct (decide (m = n)) as [->|Hne].
  - rewrite (view_cached (took p b n w) l b n Hi' Hb) by (unfold took, lock_buf; rsimpl; by rewrite fn_lookup_insert).
    unfold took, lock_buf, loaded. rsimpl. rewrite fn_lookup_insert. rsimpl.
    destruct (is_for n (w_bufs w b) && b_valid (w_bufs w b)) eqn:E.
    + apply andb_true_iff in E as [E1 E2]. symmetry. by apply (view_cached w l).
    + symmetry. apply view_uncached. intros c Hc' Hf. destruct (decide (c = b)) as [->|Hcb].
      * by rewrite Hf in E.
      * destruct Hc as [Hc|[Hc _]]; [|by rewrite Hc in Hf]. by rewrite (bio_other w l b c n) in Hf.
  - destruct (view_cases w l m Hi) as [(c & Hc' & Hf & Hv & ->)|(Hun & ->)].
    + destruct (decide (c = b)) as [->|Hcb].
      * (* an unreferenced buffer is recycled: it was clean *)
        destruct Hc as [Hc|[_ Hc]]; [by destruct Hne; eapply is_for_eq|].
        rewrite (bo_clean _ _ (bi_buf _ _ Hi b Hb) Hc Hv).
        assert (b_blockno (w_bufs w b) = m) as -> by (unfold is_for in Hf; lia).
        apply (view_uncached (took p b n w)). intros c Hc2. unfold took, lock_buf. rsimpl.
        destruct (decide (b = c)) as [<-|]; [rewrite fn_lookup_insert|rewrite fn_lookup_insert_ne by done].
        -- intros E. by destruct Hne; eapply is_for_eq.
        -- intros E. by rewrite (bio_other w l b c m) in E.
      * assert (w_bufs (took p b n w) c = w_bufs w c) as Ec.
        { unfold took, lock_buf. rsimpl. by rewrite fn_lookup_insert_ne. }
        rewrite (view_cached (took p b n w) l c m Hi' Hc'); by rewrite Ec.
    + apply (view_uncached (took p b n w)). intros c Hc2. unfold took, lock_buf. rsimpl.
      destruct (decide (b = c)) as [<-|]; [rewrite fn_lookup_insert|rewrite fn_lookup_insert_ne by done; by apply Hun].
      intros E. by destruct Hne; eapply is_for_eq.
Qed.
End BioDisk.

(** ** Holding a buffer *)

(** Process [p] has locked buffer [b], which holds block [n]. *)
Record held (w : world) (p b n : Z) : Prop := {
  h_range : 0 ≤ b < NBUF;
  h_for : is_for n (w_bufs w b) = true;
  h_valid : b_valid (w_bufs w b) = true;
  h_lock : sl_locked (w_slk w (SBuf b)) = true;
  h_pid : sl_pid (w_slk w (SBuf b)) = p_pid (w_procs w p);
  h_block : is_block n
}.

Definition ref_add (d : Z) (bf : buf) : buf := set_b_refcnt (u32 (b_refcnt bf + d)) bf.

(** b->data = d *)
Definition stored (b : Z) (d : bytes) (w : world) : world :=
  set_bufs (<[b := set_b_data d (w_bufs w b)]> (w_bufs w)) w.

(** b->refcnt += d *)
Definition counted (b d : Z) (w : world) : world :=
  set_bufs (<[b := ref_add d (w_bufs w b)]> (w_bufs w)) w.

(** The list operation of brelse: take [b] out and put it at the front. *)
Definition relink (b : Z) (bufs : Z → buf) : Z → buf :=
  let bufs := alter (set_b_prev (b_prev (bufs b))) (b_next (bufs b)) bufs in
  let bufs := alter (set_b_next (b_next (bufs b))) (b_prev (bufs b)) bufs in
  let bufs := alter (set_b_next (b_next (bufs bhead))) b bufs in
  let bufs := alter (set_b_prev bhead) b bufs in
  let bufs := alter (set_b_prev b) (b_next (bufs bhead)) bufs in
  alter (set_b_next b) bhead bufs.

Definition unlock_buf (b : Z) (w : world) : world :=
  set_slk (<[SBuf b := mkSleeplock false (sl_name (w_slk w (SBuf b))) 0]> (w_slk w)) w.

Definition gave (b : Z) (w : world) : world :=
  let w1 := counted b (-1) (unlock_buf b w) in
  if b_refcnt (w_bufs w b) =? 1 then set_bufs (relink b (w_bufs w1)) w1 else w1.

Definition to_front (b : Z) (l : list Z) : list Z := b :: filter (λ x, x ≠ b) l.

(** The LRU list after brelse. *)
Definition given (b : Z) (w : world) (l : list Z) : list Z :=
  if b_refcnt (w_bufs w b) =? 1 then to_front b l else l.

Lemma u32_dec_zero x : 0 ≤ x < 2 ^ 32 → (u32 (x + -1) =? 0) = (x =? 1).
Proof.
  intros Hx. unfold u32. destruct (decide (x = 0)) as [->|]; [reflexivity|]. rewrite Z.mod_small by lia. lia.
Qed.

Section BioHeld.
Context `{Disk}.

Lemma took_held w l p n b : bio_inv w l → available w l n b → is_block n → held (took p b n w) p b n.
Proof.
  intros Hi Ha Hbl. destruct (loaded_ok _ _ _ _ Hi Ha) as [Hok Hfor].
  destruct Ha as (Hp & Hs & Hr). destruct (pick_spec _ _ _ _ Hi Hp) as [Hb _].
  split; unfold took, lock_buf; rsimpl; rewrite ?fn_lookup_insert; done.
Qed.

Lemma held_holding w p b n : quiet w p → held w p b n → runs (holdingsleep (SBuf b)) w true w.
Proof.
  intros Hq Hh. pose proof (runs_holdingsleep (SBuf b) p w Hq) as Hr.
  rewrite (h_lock _ _ _ _ Hh), (h_pid _ _ _ _ Hh), Z.eqb_refl in Hr. exact Hr.
Qed.

Lemma bwrite_run w l p b n :
  quiet w p → vd_idle (w_vd w) → bio_inv w l → held w p b n → runs (bwrite b) w tt (rw_done b true w).
Proof.
  intros Hq Hv Hi Hh. unfold bwrite. eapply runs_bind; [by eapply held_holding|]. cbn [negb].
  apply (disk_rw_runs b true w p); [done..|exact (h_range _ _ _ _ Hh)| |].
  - apply (bo_idle _ _ (bi_buf _ _ Hi b (h_range _ _ _ _ Hh))).
  - pose proof (h_for _ _ _ _ Hh) as [_ ->%Z.eqb_eq]%andb_true_iff. exact (h_block _ _ _ _ Hh).
Qed.

Lemma bpin_run w b : cpu_ok w → lk_free w LBcache → runs (bpin b) w tt (counted b 1 w).
Proof.
  intros Hok Hl. unfold bpin, upd_buf. rcall (runs_acquire LBcache w); [apply Hok|]. rsteps.
  eapply runs_eq; [apply (runs_release LBcache w); eauto with xv6|]. reflexivity.
Qed.

Lemma bunpin_run w p b : quiet w p → runs (bunpin b) w tt (counted b (-1) w).
Proof.
  intros Hq. unfold bunpin, upd_buf. rcall (runs_acquire LBcache w); eauto with xv6. rsteps.
  eapply runs_eq; [apply (runs_release LBcache w); eauto with xv6|]. reflexivity.
Qed.

Lemma brelse_run w p b n :
  quiet w p → held w p b n → 0 ≤ b_refcnt (w_bufs w b) < 2 ^ 32 → runs (brelse b) w tt (gave b w).
Proof.
  intros Hq Hh Hr. unfold brelse. eapply runs_bind; [by eapply held_holding|]. cbn [negb].
  eapply runs_bind; [by apply (runs_releasesleep (SBuf b) p)|]. cbv beta. fold (unlock_buf b w).
  assert (Hq1 : quiet (unlock_buf b w) p) by exact Hq.
  rcall (runs_acquire LBcache (unlock_buf b w)); eauto with xv6. unfold upd_buf, get_buf. rsteps.
  rsimpl. change (w_bufs (locked_by LBcache (unlock_buf b w))) with (w_bufs w).
  set (bufs1 := alter _ b (w_bufs w)).
  assert (E1 : bufs1 = <[b := ref_add (-1) (w_bufs w b)]> (w_bufs w)) by reflexivity.
  assert ((b_refcnt (bufs1 b) =? 0) = (b_refcnt (w_bufs w b) =? 1)) as ->.
  { rewrite E1, fn_lookup_insert. unfold ref_add. rsimpl. by apply u32_dec_zero. }
  unfold gave, counted. change (w_bufs (unlock_buf b w)) with (w_bufs w). rewrite <-E1. clearbody bufs1.
  assert (Hend : ∀ f, runs (release LBcache) (set_bufs f (locked_by LBcache (unlock_buf b w))) tt
    (set_bufs f (unlock_buf b w))).
  { intros f. apply (runs_release LBcache (unlock_buf b w)); eauto with xv6. }
  destruct (b_refcnt (w_bufs w b) =? 1); rsteps; [|exact (Hend bufs1)]. exact (Hend (relink b bufs1)).
Qed.
End BioHeld.

(** ** The operations keep the invariant *)

Section BioInv.

(** Updates of a buffer that keep its block and links. *)
Lemma bio_touch w l b bf :
  bio_inv w l → 0 ≤ b < NBUF → b_next bf = b_next (w_bufs w b) → b_prev bf = b_prev (w_bufs w b) →
  b_dev bf = b_dev (w_bufs w b) → b_blockno bf = b_blockno (w_bufs w b) →
  buf_ok (w_disk w) bf →
  bio_inv (set_bufs (<[b := bf]> (w_bufs w)) w) l.
Proof.
  intros Hi Hb Hn Hp Hd Hno Hok. apply (bio_upd w l b bf (w_slk w)); try done.
  intros b' n Hb' Hne. unfold is_for. rewrite Hd, Hno. fold (is_for n (w_bufs w b)). intros Hf.
  by apply (bio_other w l b).
Qed.

Lemma view_touch w l b bf n :
  bio_inv w l → 0 ≤ b < NBUF → bio_inv (set_bufs (<[b := bf]> (w_bufs w)) w) l →
  b_dev bf = b_dev (w_bufs w b) → b_blockno bf = b_blockno (w_bufs w b) → b_valid bf = b_valid (w_bufs w b) →
  view (set_bufs (<[b := bf]> (w_bufs w)) w) n =
    if is_for n (w_bufs w b) && b_valid (w_bufs w b) then b_data bf else view w n.
Proof.
  intros Hi Hb Hi' Hd Hno Hv. set (w' := set_bufs _ w).
  assert (Ef : ∀ m, is_for m bf = is_for m (w_bufs w b)) by (intros m; unfold is_for; by rewrite Hd, Hno).
  assert (Eb : w_bufs w' b = bf) by (unfold w'; rsimpl; apply fn_lookup_insert).
  assert (Eo : ∀ c, c ≠ b → w_bufs w' c = w_bufs w c) by (intros; unfold w'; rsimpl; by apply fn_lookup_insert_ne).
  destruct (is_for n (w_bufs w b) && b_valid (w_bufs w b)) eqn:E.
  - apply andb_true_iff in E as [E1 E2]. rewrite <-Eb. apply (view_cached w' l); rewrite ?Eb, ?Ef, ?Hv; done.
  - destruct (view_cases w l n Hi) as [(c & Hc & Hf & Hcv & ->)|(Hun & ->)].
    + assert (c ≠ b) by (intros ->; by rewrite Hf, Hcv in E).
      rewrite <-(Eo c) by done. apply (view_cached w' l); rewrite ?Eo; done.
    + apply (view_uncached w'). intros c Hc. destruct (decide (c = b)) as [->|]; [|rewrite Eo by done; by apply Hun].
      rewrite Eb, Ef, Hv. by apply Hun.
Qed.

Lemma stored_inv w l p b n d :
  bio_inv w l → held w p b n → b_refcnt (w_bufs w b) ≠ 0 → bio_inv (stored b d w) l.
Proof.
  intros Hi [Hb Hf Hv Hl _ _] Hr. destruct (bi_buf _ _ Hi b Hb) as [].
  apply (bio_touch w l b); try done.
Qed.

(** Storing into a held buffer changes the block's view, and no other. *)
Lemma stored_view w l p b n d m :
  bio_inv w l → held w p b n → b_refcnt (w_bufs w b) ≠ 0 →
  view (stored b d w) m = if m =? n then d else view w m.
Proof.
  intros Hi Hh Hr. pose proof (stored_inv w l p b n d Hi Hh Hr) as Hi'. destruct Hh as [Hb Hf Hv _ _ _].
  unfold stored in *. rewrite (view_touch w l b) by done. rewrite Hv, andb_true_r.
  destruct (Z.eqb_spec m n) as [->|Hne]; [by rewrite Hf|].
  destruct (is_for m _) eqn:E; [|done]. by destruct Hne; eapply is_for_eq.
Qed.

Lemma stored_held w p b n d : held w p b n → held (stored b d w) p b n.
Proof. intros []. split; unfold stored; rsimpl; rewrite ?fn_lookup_insert; done. Qed.

Lemma counted_inv w l p b n d :
  bio_inv w l → held w p b n → (u32 (b_refcnt (w_bufs w b) + d) = 0 → clean w b) →
  bio_inv (counted b d w) l.
Proof.
  intros Hi [Hb Hf Hv Hl _ _] Hc. destruct (bi_buf _ _ Hi b Hb) as [].
  apply (bio_touch w l b); try done. unfold ref_add.
  split; rsimpl; try done; [apply u32_range|by intros _; apply bo_valid0|]. intros E _. by apply Hc.
Qed.

Lemma counted_view w l b d n :
  bio_inv w l → 0 ≤ b < NBUF → bio_inv (counted b d w) l → view (counted b d w) n = view w n.
Proof.
  intros Hi Hb Hi'. unfold counted in *. rewrite (view_touch w l b) by done.
  destruct (_ && _) eqn:E; [|done]. apply andb_true_iff in E as [E1 E2].
  symmetry. by apply (view_cached w l).
Qed.

Lemma wrote_inv w l p b n : bio_inv w l → held w p b n → bio_inv (rw_done b true w) l.
Proof.
  intros Hi [Hb Hf Hv Hl _ _]. destruct Hi as [H1 H2 H3 H4]. split; [exact H1|exact H2|exact H3|].
  intros c Hc. destruct (H4 c Hc) as [K1 K2 K3 K4 K5]. split; try done.
  intros Hr' Hv'. unfold rw_done. rsimpl. destruct (decide (c = b)) as [->|Hne]; [by rewrite fn_lookup_insert|].
  rewrite fn_lookup_insert_ne; [by apply K5|].
  intros E. destruct Hne. apply (H3 c b n); try done.
  unfold is_for in *. rsimpl_in E. rewrite (K3 Hv'), Z.eqb_refl. lia.
Qed.

Lemma wrote_view w l p b n m : bio_inv w l → held w p b n → view (rw_done b true w) m = view w m.
Proof.
  intros Hi Hh. pose proof (wrote_inv _ _ _ _ _ Hi Hh) as Hi'. destruct Hh as [Hb Hf Hv _ _ _].
  destruct (view_cases w l m Hi) as [(c & Hc & Hf' & Hcv & ->)|(Hun & ->)].
  - by apply (view_cached (rw_done b true w) l).
  - rewrite (view_uncached (rw_done b true w)) by exact Hun. unfold rw_done. rsimpl.
    rewrite fn_lookup_insert_ne; [done|]. intros <-. rewrite (Hun b Hb) in Hv; [done|].
    unfold is_for in *. lia.
Qed.

(** *** brelse's list surgery *)

Lemma nx_next v a bufs : nx (alter (set_b_next v) a bufs) = <[a := v]> (nx bufs).
Proof.
  extensionality c. unfold nx. rewrite fn_alter_insert. destruct (decide (a = c)) as [<-|].
  - by rewrite !fn_lookup_insert.
  - by rewrite !fn_lookup_insert_ne.
Qed.
Lemma pv_prev v a bufs : pv (alter (set_b_prev v) a bufs) = <[a := v]> (pv bufs).
Proof.
  extensionality c. unfold pv. rewrite fn_alter_insert. destruct (decide (a = c)) as [<-|].
  - by rewrite !fn_lookup_insert.
  - by rewrite !fn_lookup_insert_ne.
Qed.
Lemma nx_prev v a bufs : nx (alter (set_b_prev v) a bufs) = nx bufs.
Proof.
  extensionality c. unfold nx. rewrite fn_alter_insert. destruct (decide (a = c)) as [<-|].
  - by rewrite !fn_lookup_insert.
  - by rewrite !fn_lookup_insert_ne.
Qed.
Lemma pv_next v a bufs : pv (alter (set_b_next v) a bufs) = pv bufs.
Proof.
  extensionality c. unfold pv. rewrite fn_alter_insert. destruct (decide (a = c)) as [<-|].
  - by rewrite !fn_lookup_insert.
  - by rewrite !fn_lookup_insert_ne.
Qed.

(** The part of a buffer brelse's list surgery leaves alone. *)
Definition core (bf : buf) : bool * bool * Z * Z * Z * bytes :=
  (b_valid bf, b_disk bf, b_dev bf, b_blockno bf, b_refcnt bf, b_data bf).

Lemma core_alter_next v a (bufs : Z → buf) (c : Z) : core (alter (set_b_next v) a bufs c) = core (bufs c).
Proof.
  rewrite fn_alter_insert. destruct (decide (a = c)) as [<-|]; [by rewrite fn_lookup_insert|by rewrite fn_lookup_insert_ne].
Qed.
Lemma core_alter_prev v a (bufs : Z → buf) (c : Z) : core (alter (set_b_prev v) a bufs c) = core (bufs c).
Proof.
  rewrite fn_alter_insert. destruct (decide (a = c)) as [<-|]; [by rewrite fn_lookup_insert|by rewrite fn_lookup_insert_ne].
Qed.
Lemma core_relink b bufs c : core (relink b bufs c) = core (bufs c).
Proof. unfold relink. cbv zeta. by rewrite ?core_alter_next, ?core_alter_prev, ?core_alter_next, ?core_alter_prev. Qed.

Lemma filter_keep (b : Z) (l : list Z) : b ∉ l → filter (λ x, x ≠ b) l = l.
Proof.
  induction l as [|x l IH]; [done|]. intros Hb. rewrite filter_cons_True by set_solver. by rewrite IH by set_solver.
Qed.

Lemma relink_seg bufs l b :
  NoDup l → bhead ∉ l → b ∈ l → seg (nx bufs) (pv bufs) bhead l bhead →
  seg (nx (relink b bufs)) (pv (relink b bufs)) bhead (to_front b l) bhead.
Proof.
  intros Hnd Hh Hb Hs. apply list_elem_of_split in Hb as (l1 & l2 & ->).
  apply seg_app in Hs as [Hs1 Hs2]. apply NoDup_app in Hnd as (Hn1 & Hn12 & Hn2).
  apply NoDup_cons in Hn2 as [Hb2 Hn2].
  assert (Hnd : NoDup (l1 ++ b :: l2)) by (apply NoDup_app; split_and!; [done..|by constructor]).
  pose proof (seg_unlink _ _ _ _ _ _ _ Hnd Hh Hh Hs1 Hs2) as Hu.
  assert (Hnb : nx bufs b ≠ b). { intros E. pose proof (seg_next_in _ _ _ _ _ Hs2) as Hin. rewrite E in Hin. set_solver. }
  assert (Hbh : b ≠ bhead) by set_solver.
  assert (Hfl : to_front b (l1 ++ b :: l2) = b :: (l1 ++ l2)).
  { unfold to_front. f_equal. rewrite filter_app, filter_cons_False by naive_solver.
    rewrite !filter_keep by set_solver. done. }
  rewrite Hfl. unfold relink. cbv zeta.
  repeat (rewrite nx_next || rewrite nx_prev || rewrite pv_next || rewrite pv_prev).
  fold (nx bufs b) (pv bufs b).
  set (bufs1 := alter (set_b_prev (pv bufs b)) (nx bufs b) bufs).
  assert (En : b_next (bufs1 b) = nx bufs b).
  { change (b_next (bufs1 b)) with (nx bufs1 b). unfold bufs1. by rewrite nx_prev. }
  assert (Ep : b_prev (bufs1 b) = pv bufs b).
  { change (b_prev (bufs1 b)) with (pv bufs1 b). unfold bufs1. by rewrite pv_prev, fn_lookup_insert_ne. }
  rewrite En, Ep. set (bufs2 := alter (set_b_next (nx bufs b)) (pv bufs b) bufs1).
  set (bufs4 := alter (set_b_prev bhead) b (alter (set_b_next (b_next (bufs2 bhead))) b bufs2)).
  assert (E2 : nx bufs2 = <[pv bufs b := nx bufs b]> (nx bufs)).
  { unfold bufs2, bufs1. by rewrite nx_next, nx_prev. }
  assert (E4 : b_next (bufs4 bhead) = nx bufs2 bhead).
  { change (b_next (bufs4 bhead)) with (nx bufs4 bhead). unfold bufs4.
    by rewrite nx_prev, nx_next, fn_lookup_insert_ne. }
  rewrite E4. change (b_next (bufs2 bhead)) with (nx bufs2 bhead). rewrite <-E2 in Hu |- *.
  apply seg_push; [set_solver|done|set_solver| |done].
  apply NoDup_app. split_and!; [done| |done]. set_solver.
Qed.

(** The invariant and the view read the list and the cores only. *)
Lemma core_is_for bf bf' n : core bf = core bf' → is_for n bf = is_for n bf'.
Proof. unfold core, is_for. by intros [= _ _ -> -> _ _]. Qed.

Lemma core_ok disk bf bf' : core bf = core bf' → buf_ok disk bf → buf_ok disk bf'.
Proof. unfold core. intros [= E1 E2 E3 E4 E5 E6] []. split; rewrite <-?E1, <-?E2, <-?E3, <-?E4, <-?E5, <-?E6; done. Qed.

Lemma bio_relink w l f l' :
  bio_inv w l → (∀ c, core (f c) = core (w_bufs w c)) → l' ≡ₚ l → seg (nx f) (pv f) bhead l' bhead →
  bio_inv (set_bufs f w) l'.
Proof.
  intros [H1 H2 H3 H4] Hc Hp Hs. split; rsimpl.
  - exact Hs.
  - by rewrite Hp.
  - intros b b' n. rewrite !(core_is_for _ _ n (Hc _)). apply H3.
  - intros b Hb. eapply core_ok; [symmetry; apply Hc|by apply H4].
Qed.

Lemma view_relink w f n : (∀ c, core (f c) = core (w_bufs w c)) → view (set_bufs f w) n = view w n.
Proof.
  intros Hc. unfold view. rsimpl.
  assert (Ev : ∀ c, is_for n (f c) && b_valid (f c) = is_for n (w_bufs w c) && b_valid (w_bufs w c)).
  { intros c. rewrite (core_is_for _ _ n (Hc c)). f_equal. exact (f_equal (λ x, x.1.1.1.1.1) (Hc c)). }
  assert (Ed : ∀ c, b_data (f c) = b_data (w_bufs w c)) by (intros c; exact (f_equal snd (Hc c))).
  assert (Ef : ∀ l, List.find (λ b, is_for n (f b) && b_valid (f b)) l
    = List.find (λ b, is_for n (w_bufs w b) && b_valid (w_bufs w b)) l).
  { induction l as [|c l IH]; [done|]. cbn. by rewrite Ev, IH. }
  rewrite Ef. destruct (List.find _ _); [apply Ed|done].
Qed.

Lemma to_front_perm b l : NoDup l → b ∈ l → to_front b l ≡ₚ l.
Proof.
  intros Hnd Hb. apply list_elem_of_split in Hb as (l1 & l2 & ->).
  apply NoDup_app in Hnd as (_ & H1 & H2). apply NoDup_cons in H2 as [H2 _].
  unfold to_front. rewrite filter_app, filter_cons_False by naive_solver.
  rewrite !filter_keep by set_solver. apply Permutation_middle.
Qed.

(** The world of brelse before the list surgery. *)
Definition dropped (b : Z) (w : world) : world := counted b (-1) (unlock_buf b w).

Lemma dropped_inv w l p b n :
  bio_inv w l → held w p b n → (b_refcnt (w_bufs w b) = 1 → clean w b) →
  bio_inv (dropped b w) l.
Proof.
  intros Hi [Hb Hf Hv Hl Hp _] Hcl. destruct (bi_buf _ _ Hi b Hb) as [].
  apply (bio_upd w l b (ref_add (-1) (w_bufs w b)) (w_slk (unlock_buf b w)) Hi Hb); [done|done|..].
  - intros b' m Hb' Hne Hm. by apply (bio_other w l b).
  - unfold ref_add. split; rsimpl; try done; [apply u32_range|by intros _; apply bo_valid0|].
    intros E _. apply Hcl. by apply Z.eqb_eq; rewrite <-u32_dec_zero, E.
Qed.

Lemma gave_inv w l p b n :
  bio_inv w l → held w p b n → (b_refcnt (w_bufs w b) = 1 → clean w b) →
  bio_inv (gave b w) (given b w l).
Proof.
  intros Hi Hh Hcl. pose proof (dropped_inv _ _ _ _ _ Hi Hh Hcl) as Hi1. pose proof (h_range _ _ _ _ Hh) as Hb.
  unfold gave, given. fold (dropped b w). destruct (b_refcnt (w_bufs w b) =? 1); [|done].
  assert (Hbl : b ∈ l) by (by apply (bio_in _ _ _ Hi)).
  apply (bio_relink _ l); [done|intros c; apply core_relink| |].
  - apply to_front_perm; [by eapply bio_nodup|done].
  - apply relink_seg; [by eapply bio_nodup|by eapply bio_head|done|apply (bi_list _ _ Hi1)].
Qed.

Lemma gave_view w l p b n m :
  bio_inv w l → held w p b n → (b_refcnt (w_bufs w b) = 1 → clean w b) →
  view (gave b w) m = view w m.
Proof.
  intros Hi Hh Hcl. pose proof (dropped_inv _ _ _ _ _ Hi Hh Hcl) as Hi1. pose proof (h_range _ _ _ _ Hh) as Hb.
  transitivity (view (dropped b w) m).
  - unfold gave. fold (dropped b w). destruct (_ =? 1); [|done]. apply view_relink. intros c. apply core_relink.
  - destruct (view_cases w l m Hi) as [(c & Hc & Hf & Hcv & ->)|(Hun & ->)].
    + assert (Ec : core (w_bufs (dropped b w) c) = core (w_bufs w c) ∨ c = b ∧ w_bufs (dropped b w) c = ref_add (-1) (w_bufs w b)).
      { unfold dropped, counted, unlock_buf. rsimpl.
        destruct (decide (b = c)) as [<-|]; [right; by rewrite fn_lookup_insert|left; by rewrite fn_lookup_insert_ne]. }
      rewrite (view_cached (dropped b w) l c m Hi1 Hc); destruct Ec as [Ec|[-> Ec]]; rewrite ?Ec; try done.
      * exact (f_equal snd Ec).
      * by rewrite (core_is_for _ _ m Ec).
      * transitivity (b_valid (w_bufs w c)); [|done]. exact (f_equal (λ x, x.1.1.1.1.1) Ec).
    + apply (view_uncached (dropped b w)). intros c Hc. unfold dropped, counted, unlock_buf. rsimpl.
      destruct (decide (b = c)) as [<-|]; [rewrite fn_lookup_insert; by apply Hun|rewrite fn_lookup_insert_ne by done; by apply Hun].
Qed.
End BioInv.
