(* ===== verification/Cache.v ===== *)
(** * The buffer cache as a store of blocks

    What the log and the file system see of bio.c: blocks with contents ([view]),
    a reference count per block ([R]) and the blocks whose buffer the running
    process has locked ([H]).  Which buffer holds which block, and the LRU list,
    stay inside this file. *)

From S2P Require Import Prelude Types StringC Spinlock Sched Sleeplock Run Bio.

Record bstore (w : world) (p : Z) (R : Z → Z) (H : list Z) : Prop := {
  bs_inv : ∃ l, bio_inv w l;
  bs_ref b : 0 ≤ b < NBUF → b_dev (w_bufs w b) = ROOTDEV → b_refcnt (w_bufs w b) = R (b_blockno (w_bufs w b));
  bs_some n : R n ≠ 0 → ∃ b, 0 ≤ b < NBUF ∧ is_for n (w_bufs w b) = true ∧ b_valid (w_bufs w b) = true;
  bs_lock b : 0 ≤ b < NBUF → sl_locked (w_slk w (SBuf b)) = true → ∃ n, n ∈ H ∧ is_for n (w_bufs w b) = true;
  bs_held n : n ∈ H → ∃ b, held w p b n;
  bs_nodup : NoDup H
}.

(** There is a buffer for one more block. *)
Definition room (R : Z → Z) (H : list Z) : Prop :=
  ∃ U : list Z, Z.of_nat (length U) < NBUF ∧ ∀ n, R n ≠ 0 ∨ n ∈ H → n ∈ U.

(** What the buffer cache changes of the world. *)
Definition bstep (w w' : world) : Prop :=
  ∃ f s d t, w' = set_dtrace t (set_disk d (set_slk s (set_bufs f w))) ∧
    ∀ ip, s (SInode ip) = w_slk w (SInode ip).

Lemma bstep_intro w w' :
  w' = set_dtrace (w_dtrace w') (set_disk (w_disk w') (set_slk (w_slk w') (set_bufs (w_bufs w') w))) →
  (∀ ip, w_slk w' (SInode ip) = w_slk w (SInode ip)) → bstep w w'.
Proof. intros E Hs. by exists (w_bufs w'), (w_slk w'), (w_disk w'), (w_dtrace w'). Qed.

#[export] Instance bstep_po : PreOrder bstep.
Proof.
  split.
  - intros w. by exists (w_bufs w), (w_slk w), (w_disk w), (w_dtrace w).
  - intros w1 w2 w3 (f1 & s1 & d1 & t1 & -> & H1) (f2 & s2 & d2 & t2 & -> & H2).
    exists f2, s2, d2, t2. split; [reflexivity|]. intros ip. rewrite H2. apply H1.
Qed.

Lemma bstep_quiet w w' p : bstep w w' → quiet w p → quiet w' p.
Proof. intros (f & s & d & t & -> & _) Hq. exact Hq. Qed.
Lemma bstep_idle `{DiskOps} w w' : bstep w w' → vd_idle (w_vd w) → vd_idle (w_vd w').
Proof. intros (f & s & d & t & -> & _) Hq. exact Hq. Qed.
Lemma bstep_log w w' : bstep w w' → w_log w' = w_log w.
Proof. by intros (f & s & d & t & -> & _). Qed.

Lemma held_view w p R H b n : bstore w p R H → held w p b n → b_data (w_bufs w b) = view w n.
Proof. intros Hs [Hb Hf Hv _ _ _]. destruct (bs_inv _ _ _ _ Hs) as [l Hi]. symmetry. by apply (view_cached w l). Qed.

Lemma for_spec n bf : is_for n bf = true ↔ b_dev bf = ROOTDEV ∧ b_blockno bf = n.
Proof. unfold is_for. rewrite andb_true_iff, !Z.eqb_eq. done. Qed.

Lemma held_ref w p R H b n : bstore w p R H → held w p b n → b_refcnt (w_bufs w b) = R n.
Proof. intros Hs [Hb [Hd Hn]%for_spec _ _ _ _]. by rewrite (bs_ref _ _ _ _ Hs b Hb Hd), Hn. Qed.

(** Of a block nobody references, the cache shows what the disk has. *)
Lemma bstore_clean w p R H n : bstore w p R H → R n = 0 → view w n = w_disk w n.
Proof.
  intros Hs HR. destruct (bs_inv _ _ _ _ Hs) as [l Hi].
  destruct (view_cases w l n Hi) as [(b & Hb & [Hd Hn]%for_spec & Hv & ->)|(_ & ->)]; [|done].
  rewrite (bo_clean _ _ (bi_buf _ _ Hi b Hb)); [by rewrite Hn| |done].
  by rewrite (bs_ref _ _ _ _ Hs b Hb Hd), Hn.
Qed.

Lemma find_exists {A} (f : A → bool) l x : x ∈ l → f x = true → ∃ y, List.find f l = Some y.
Proof.
  intros Hx Hf. destruct (List.find f l) as [y|] eqn:E; [by exists y|].
  apply list_elem_of_In in Hx. pose proof (List.find_none _ _ E x Hx). congruence.
Qed.

(** With room, a buffer is unreferenced: the referenced ones are for distinct blocks. *)
Lemma room_victim w p R H l : bstore w p R H → bio_inv w l → room R H →
  ∃ b, victim (w_bufs w) l = Some b.
Proof.
  intros Hs Hi (U & HU & Hin). unfold victim.
  destruct (List.find _ (rev l)) as [b|] eqn:E; [by exists b|]. exfalso.
  assert (Hall : ∀ b, 0 ≤ b < NBUF → b_refcnt (w_bufs w b) ≠ 0).
  { intros b Hb. assert (Hbl : List.In b (rev l)) by (apply List.in_rev; rewrite rev_involutive; apply list_elem_of_In; by apply (bio_in _ _ _ Hi)).
    pose proof (List.find_none _ _ E b Hbl) as Hn. by apply Z.eqb_neq. }
  assert (Hdev : ∀ b, 0 ≤ b < NBUF → b_dev (w_bufs w b) = ROOTDEV).
  { intros b Hb. apply (bo_used _ _ (bi_buf _ _ Hi b Hb)). by apply Hall. }
  assert (Hle : (length ((λ b, b_blockno (w_bufs w b)) <$> seqZ 0 NBUF) ≤ length U)%nat).
  { apply submseteq_length, NoDup_submseteq.
    - apply NoDup_fmap_2_strong; [|apply NoDup_seqZ]. intros b b' Hb Hb' Eq.
      apply elem_of_seqZ in Hb, Hb'.
      apply (bi_once _ _ Hi b b' (b_blockno (w_bufs w b))); [lia..| |]; apply for_spec; split; try done; apply Hdev; lia.
    - intros n (b & -> & Hb)%list_elem_of_fmap. apply elem_of_seqZ in Hb. apply Hin. left.
      rewrite <-(bs_ref _ _ _ _ Hs b) by (lia || (apply Hdev; lia)). apply Hall. lia. }
  rewrite length_fmap, length_seqZ in Hle. lia.
Qed.

Lemma bstore_available w p R H l n :
  bstore w p R H → bio_inv w l → n ∉ H → (∀ m, m ∈ H → R m ≠ 0) → R n ≠ 0 ∨ room R H → R n + 1 < 2 ^ 32 →
  ∃ b, available w l n b.
Proof.
  intros Hs Hi Hn HR Hroom Hlt.
  assert (Hp : ∃ b, pick (w_bufs w) l n = Some b).
  { unfold pick. destruct (cached (w_bufs w) l n) as [b|] eqn:E; [by exists b|].
    destruct Hroom as [Hr|Hr]; [|by eapply room_victim].
    destruct (bs_some _ _ _ _ Hs n Hr) as (b & Hb & Hf & _).
    destruct (find_exists (λ b, is_for n (w_bufs w b)) l b) as [y Hy]; [by apply (bio_in _ _ _ Hi)|done|].
    unfold cached in E. congruence. }
  destruct Hp as [b Hp]. exists b. destruct (pick_spec _ _ _ _ Hi Hp) as [Hb Hc]. split_and!; [done| |].
  - destruct (sl_locked (w_slk w (SBuf b))) eqn:El; [|done]. exfalso.
    destruct (bs_lock _ _ _ _ Hs b Hb El) as (m & Hm & Hf). destruct Hc as [Hc|[_ Hc]].
    + by rewrite (is_for_eq _ _ _ Hc Hf) in Hn.
    + apply for_spec in Hf as [Hd Hf]. rewrite (bs_ref _ _ _ _ Hs b Hb Hd), Hf in Hc. by apply (HR m).
  - left. destruct Hc as [[Hd Hno]%for_spec|[_ ->]]; [by rewrite (bs_ref _ _ _ _ Hs b Hb Hd), Hno|lia].
Qed.

(** The store is in the buffers, their locks and the disk. *)
Lemma held_frame w w' p b n :
  w_bufs w' = w_bufs w → (∀ c, w_slk w' (SBuf c) = w_slk w (SBuf c)) → p_pid (w_procs w' p) = p_pid (w_procs w p) →
  held w p b n → held w' p b n.
Proof. intros E1 E2 E3 []. split; rewrite ?E1, ?E2, ?E3; done. Qed.

Lemma bstore_frame w w' p R H :
  w_bufs w' = w_bufs w → (∀ c, w_slk w' (SBuf c) = w_slk w (SBuf c)) → w_disk w' = w_disk w →
  p_pid (w_procs w' p) = p_pid (w_procs w p) → bstore w p R H → bstore w' p R H.
Proof.
  intros E1 E2 E3 E4 [[l Hi] K2 K3 K4 K5 K6]. split; rewrite ?E1.
  - exists l. destruct Hi as [I1 I2 I3 I4]. split; rewrite ?E1, ?E3; done.
  - done.
  - done.
  - intros b Hb. rewrite E2. by apply K4.
  - intros n Hn. destruct (K5 n Hn) as [b Hh]. exists b. by apply (held_frame w).
  - done.
Qed.

Section Store.
Context {D : DiskOps} {HD : Disk D}.
Implicit Types (R : Z → Z) (H : list Z).

(** What every operation of the cache guarantees to its caller. *)
Record keeps (w : world) (p : Z) (w' : world) (b : Z) : Prop := {
  k_step : bstep w w';
  k_held b' m : b' ≠ b → held w p b' m → held w' p b' m
}.

Lemma took_keeps w l p n b : bio_inv w l → available w l n b → keeps w p (took p b n w) b.
Proof.
  intros Hi Ha. split.
  - apply bstep_intro; [reflexivity|]. intros ip. unfold took, lock_buf. rsimpl. by rewrite fn_lookup_insert_ne.
  - intros b' m Hne []. split; unfold took, lock_buf; rsimpl; rewrite ?fn_lookup_insert_ne by congruence; done.
Qed.

Lemma took_store w l p R H n b :
  bstore w p R H → bio_inv w l → available w l n b → is_block n → n ∉ H → (∀ m, m ∈ H → R m ≠ 0) → R n + 1 < 2 ^ 32 →
  bstore (took p b n w) p (<[n := R n + 1]> R) (n :: H).
Proof.
  intros Hs Hi Ha Hbl Hn HR Hlt. pose proof (took_inv w l p n b Hi Ha) as Hi'.
  pose proof (took_held w l p n b Hi Ha Hbl) as Hh. destruct (took_keeps w l p n b Hi Ha) as [_ Hk].
  destruct (loaded_ok _ _ _ _ Hi Ha) as [_ Hfor]. destruct Ha as (Hp & Hl & _).
  destruct (pick_spec _ _ _ _ Hi Hp) as [Hb Hc].
  assert (Eb : w_bufs (took p b n w) b = loaded (w_disk w) n (w_bufs w b)) by (apply fn_lookup_insert).
  assert (Eo : ∀ c, c ≠ b → w_bufs (took p b n w) c = w_bufs w c) by (intros; by apply fn_lookup_insert_ne).
  assert (El : ∀ c, c ≠ b → w_slk (took p b n w) (SBuf c) = w_slk w (SBuf c)).
  { intros c Hne. unfold took, lock_buf. rsimpl. rewrite fn_lookup_insert_ne; [done|congruence]. }
  assert (Hlost : ∀ m c, c = b → is_for m (w_bufs w c) = true → m ≠ n → R m = 0 ∧ m ∉ H).
  { intros m c -> Hm Hne. destruct Hc as [Hc|[_ Hc]]; [by destruct Hne; eapply is_for_eq|].
    apply for_spec in Hm as [Hd Hm]. rewrite (bs_ref _ _ _ _ Hs b Hb Hd), Hm in Hc. split; [done|]. intros Hin. by apply (HR m). }
  split.
  - by exists l.
  - intros c Hcr. destruct (decide (c = b)) as [->|Hne].
    + rewrite Eb. intros _. apply for_spec in Hfor as [_ Hno]. rewrite Hno, fn_lookup_insert.
      unfold loaded, gotten. destruct (is_for n (w_bufs w b)) eqn:Ef; rsimpl.
      * apply for_spec in Ef as [Hd Hno']. rewrite (bs_ref _ _ _ _ Hs b Hb Hd), Hno' in *.
        apply u32_small. pose proof (bo_ref _ _ (bi_buf _ _ Hi b Hb)) as Hr.
        rewrite (bs_ref _ _ _ _ Hs b Hb Hd), Hno' in Hr. lia.
      * destruct Hc as [Hc|[Hc _]]; [congruence|]. destruct (decide (R n = 0)) as [->|Hr]; [done|].
        destruct (bs_some _ _ _ _ Hs n Hr) as (c & Hcr' & Hf & _). by rewrite Hc in Hf.
    + rewrite (Eo c Hne). intros Hd. rewrite fn_lookup_insert_ne; [by apply (bs_ref _ _ _ _ Hs)|].
      intros E. assert (c = b); [|done]. apply (bi_once _ _ Hi' c b n Hcr Hb); [rewrite Eo by done; by apply for_spec|by rewrite Eb].
  - intros m Hm. destruct (decide (m = n)) as [->|Hmn]; [exists b; by rewrite Eb|].
    rewrite fn_lookup_insert_ne in Hm by done. destruct (bs_some _ _ _ _ Hs m Hm) as (c & Hcr & Hf & Hvl).
    exists c. split; [done|]. rewrite Eo; [done|]. intros ->. by destruct (Hlost m b eq_refl Hf Hmn).
  - intros c Hcr. destruct (decide (c = b)) as [->|Hne].
    + intros _. exists n. rewrite Eb. split; [by left|done].
    + rewrite El, Eo by done. intros Hk'. destruct (bs_lock _ _ _ _ Hs c Hcr Hk') as (m & ? & ?).
      exists m. split; [by right|done].
  - intros m [->|Hm]%elem_of_cons; [by exists b|]. destruct (bs_held _ _ _ _ Hs m Hm) as [c Hch].
    exists c. apply Hk; [|done]. intros ->. pose proof (h_lock _ _ _ _ Hch). congruence.
  - constructor; [done|apply (bs_nodup _ _ _ _ Hs)].
Qed.

Lemma st_bread w p R H n :
  quiet w p → vd_idle (w_vd w) → bstore w p R H → is_block n →
  n ∉ H → (∀ m, m ∈ H → R m ≠ 0) → R n ≠ 0 ∨ room R H → R n + 1 < 2 ^ 32 →
  ∃ b w', runs (bread ROOTDEV n) w b w' ∧ keeps w p w' b ∧ bstore w' p (<[n := R n + 1]> R) (n :: H) ∧
    held w' p b n ∧ (∀ m, ¬ held w p b m) ∧
    view w' = view w ∧ w_disk w' = w_disk w ∧ w_dtrace w' = w_dtrace w.
Proof.
  intros Hq Hv Hs Hbl Hn HR Hroom Hlt. destruct (bs_inv _ _ _ _ Hs) as [l Hi].
  destruct (bstore_available w p R H l n Hs Hi Hn HR Hroom Hlt) as [b Ha].
  exists b, (took p b n w). split_and!; try done.
  - by apply (bread_run w l).
  - by apply (took_keeps w l).
  - by apply (took_store w l).
  - by apply (took_held w l).
  - intros m []. destruct Ha as (_ & Ha & _). congruence.
  - extensionality m. by apply (took_view w l).
Qed.

(** Touching a held buffer: its contents or its count. *)
Lemma touch_store w l p R H b n bf :
  bstore w p R H → held w p b n →
  b_dev bf = b_dev (w_bufs w b) → b_blockno bf = b_blockno (w_bufs w b) → b_valid bf = true →
  let w' := set_bufs (<[b := bf]> (w_bufs w)) w in
  bio_inv w' l → bstore w' p (<[n := b_refcnt bf]> R) H ∧ (∀ b' m, held w p b' m → held w' p b' m).
Proof.
  intros Hs Hh Hd Hno Hv w' Hi'. pose proof Hh as [Hb [Hdev Hn]%for_spec _ _ _].
  destruct (bs_inv _ _ _ _ Hs) as [l0 Hi].
  assert (Eb : w_bufs w' b = bf) by (unfold w'; rsimpl; apply fn_lookup_insert).
  assert (Eo : ∀ c, c ≠ b → w_bufs w' c = w_bufs w c) by (intros; unfold w'; rsimpl; by apply fn_lookup_insert_ne).
  assert (Ef : ∀ c m, is_for m (w_bufs w' c) = is_for m (w_bufs w c)).
  { intros c m. destruct (decide (c = b)) as [->|Hne]; [|by rewrite Eo]. rewrite Eb. unfold is_for. by rewrite Hd, Hno. }
  assert (Hheld : ∀ b' m, held w p b' m → held w' p b' m).
  { intros b' m [K1 K2 K3 K4 K5]. split; try done; [by rewrite Ef|].
    destruct (decide (b' = b)) as [->|Hne]; [by rewrite Eb|by rewrite Eo]. }
  split; [|exact Hheld]. split.
  - by exists l.
  - intros c Hc. destruct (decide (c = b)) as [->|Hne].
    + rewrite Eb, Hno, Hn, fn_lookup_insert. done.
    + rewrite Eo by done. intros Hdc. rewrite fn_lookup_insert_ne; [by apply (bs_ref _ _ _ _ Hs)|].
      intros E. destruct Hne. apply (bi_once _ _ Hi c b n Hc Hb); by apply for_spec.
  - intros m Hm. destruct (decide (m = n)) as [->|Hne].
    + exists b. split; [done|]. rewrite Ef. split; [by apply for_spec|by rewrite Eb].
    + rewrite fn_lookup_insert_ne in Hm by done. destruct (bs_some _ _ _ _ Hs m Hm) as (c & ? & ? & ?).
      exists c. rewrite Ef. split_and!; [lia..|done|]. destruct (decide (c = b)) as [->|]; [by rewrite Eb|by rewrite Eo].
  - intros c Hc Hl. destruct (bs_lock _ _ _ _ Hs c Hc Hl) as (m & ? & ?). exists m. by rewrite Ef.
  - intros m Hm. destruct (bs_held _ _ _ _ Hs m Hm) as [c Hch]. exists c. by apply Hheld.
  - apply (bs_nodup _ _ _ _ Hs).
Qed.

Lemma st_store w p R H b n d :
  bstore w p R H → held w p b n → R n ≠ 0 →
  let w' := stored b d w in
  bstep w w' ∧ bstore w' p R H ∧ (∀ b' m, held w p b' m → held w' p b' m) ∧ view w' = <[n := d]> (view w).
Proof.
  intros Hs Hh HR w'. destruct (bs_inv _ _ _ _ Hs) as [l Hi].
  assert (Hr : b_refcnt (w_bufs w b) ≠ 0) by (by rewrite (held_ref _ _ _ _ _ _ Hs Hh)).
  pose proof (stored_inv w l p b n d Hi Hh Hr) as Hi'.
  destruct (touch_store w l p R H b n (set_b_data d (w_bufs w b)) Hs Hh eq_refl eq_refl (h_valid _ _ _ _ Hh) Hi') as [Hs' Hk].
  change (b_refcnt (set_b_data d (w_bufs w b))) with (b_refcnt (w_bufs w b)) in Hs'.
  rewrite (held_ref _ _ _ _ _ _ Hs Hh), fn_insert_id in Hs'. split_and!; [|exact Hs'|exact Hk|].
  - by apply bstep_intro.
  - extensionality m. unfold w'. rewrite (stored_view w l p b n d m Hi Hh Hr).
    destruct (Z.eqb_spec m n) as [->|Hne]; [by rewrite fn_lookup_insert|by rewrite fn_lookup_insert_ne].
Qed.

Lemma st_count w p R H b n d :
  bstore w p R H → held w p b n → (u32 (R n + d) = 0 → view w n = w_disk w n) →
  let w' := counted b d w in
  bstep w w' ∧ bstore w' p (<[n := u32 (R n + d)]> R) H ∧ (∀ b' m, held w p b' m → held w' p b' m) ∧ view w' = view w.
Proof.
  intros Hs Hh Hc w'. destruct (bs_inv _ _ _ _ Hs) as [l Hi].
  assert (Hcl : u32 (b_refcnt (w_bufs w b) + d) = 0 → clean w b).
  { rewrite (held_ref _ _ _ _ _ _ Hs Hh). intros E. unfold clean. rewrite (held_view _ _ _ _ _ _ Hs Hh), Hc by done.
    f_equal. pose proof (h_for _ _ _ _ Hh) as Hf. symmetry. by apply for_spec in Hf as [_ ?]. }
  pose proof (counted_inv w l p b n d Hi Hh Hcl) as Hi'.
  destruct (touch_store w l p R H b n (ref_add d (w_bufs w b)) Hs Hh eq_refl eq_refl (h_valid _ _ _ _ Hh) Hi') as [Hs' Hk].
  assert (Er : b_refcnt (ref_add d (w_bufs w b)) = u32 (R n + d)) by (rewrite <-(held_ref _ _ _ _ _ _ Hs Hh); done).
  rewrite Er in Hs'.
  split_and!; [by apply bstep_intro|exact Hs'|exact Hk|].
  extensionality m. apply (counted_view w l); try done. apply (h_range _ _ _ _ Hh).
Qed.

Lemma st_bpin w p R H b n :
  cpu_ok w → lk_free w LBcache → bstore w p R H → held w p b n → 0 ≤ R n → R n + 1 < 2 ^ 32 →
  ∃ w', runs (bpin b) w tt w' ∧ bstep w w' ∧ bstore w' p (<[n := R n + 1]> R) H ∧
    (∀ b' m, held w p b' m → held w' p b' m) ∧ view w' = view w ∧ w_disk w' = w_disk w ∧ w_dtrace w' = w_dtrace w.
Proof.
  intros Hok Hl Hs Hh H0 H1. exists (counted b 1 w). split; [by apply bpin_run|].
  destruct (st_count w p R H b n 1 Hs Hh) as (K1 & K2 & K3 & K4); [rewrite u32_small; lia|].
  rewrite u32_small in K2 by lia. done.
Qed.

Lemma st_bunpin w p R H b n :
  quiet w p → bstore w p R H → held w p b n → (R n = 1 → view w n = w_disk w n) →
  ∃ w', runs (bunpin b) w tt w' ∧ bstep w w' ∧ bstore w' p (<[n := u32 (R n - 1)]> R) H ∧
    (∀ b' m, held w p b' m → held w' p b' m) ∧ view w' = view w ∧ w_disk w' = w_disk w ∧ w_dtrace w' = w_dtrace w.
Proof.
  intros Hq Hs Hh Hc. exists (counted b (-1) w). split; [by apply (bunpin_run w p)|].
  destruct (st_count w p R H b n (-1) Hs Hh) as (K1 & K2 & K3 & K4); [|done].
  intros E. apply Hc. destruct (bs_inv _ _ _ _ Hs) as [l Hi].
  pose proof (bo_ref _ _ (bi_buf _ _ Hi b (h_range _ _ _ _ Hh))) as Hr. rewrite (held_ref _ _ _ _ _ _ Hs Hh) in Hr.
  apply Z.eqb_eq. by rewrite <-u32_dec_zero, E.
Qed.

Lemma st_bwrite w p R H b n :
  quiet w p → vd_idle (w_vd w) → bstore w p R H → held w p b n →
  ∃ w', runs (bwrite b) w tt w' ∧ bstep w w' ∧ bstore w' p R H ∧
    (∀ b' m, held w p b' m → held w' p b' m) ∧ view w' = view w ∧
    w_disk w' = <[n := view w n]> (w_disk w) ∧ w_dtrace w' = w_dtrace w ++ [(n, view w n)].
Proof.
  intros Hq Hv Hs Hh. destruct (bs_inv _ _ _ _ Hs) as [l Hi]. exists (rw_done b true w).
  assert (En : b_blockno (w_bufs w b) = n) by (pose proof (h_for _ _ _ _ Hh) as Hf; by apply for_spec in Hf as [_ ?]).
  split_and!.
  - by apply (bwrite_run w l p b n).
  - by apply bstep_intro.
  - destruct Hs as [_ K2 K3 K4 K5 K6]. split; try done; [|intros m Hm; destruct (K5 m Hm) as [c []]; by exists c].
    exists l. by apply (wrote_inv w l p b n).
  - intros b' m []. by split.
  - extensionality m. by apply (wrote_view w l p b n).
  - unfold rw_done. rsimpl. by rewrite En, (held_view _ _ _ _ _ _ Hs Hh).
  - unfold rw_done. rsimpl. by rewrite En, (held_view _ _ _ _ _ _ Hs Hh).
Qed.

Lemma gave_core b w c :
  core (w_bufs (gave b w) c) = core (if decide (c = b) then ref_add (-1) (w_bufs w b) else w_bufs w c) ∧
  w_slk (gave b w) = w_slk (unlock_buf b w).
Proof.
  assert (E : core (w_bufs (dropped b w) c) = core (if decide (c = b) then ref_add (-1) (w_bufs w b) else w_bufs w c)).
  { unfold dropped, counted, unlock_buf. rsimpl. case_decide as Hc; [rewrite Hc; by rewrite fn_lookup_insert|].
    by rewrite fn_lookup_insert_ne by done. }
  unfold gave. fold (dropped b w). destruct (_ =? 1); [|done]. rewrite <-E. split; [apply core_relink|done].
Qed.

Lemma st_brelse w p R H H' b n :
  quiet w p → bstore w p R H → held w p b n → H ≡ₚ n :: H' → (R n = 1 → view w n = w_disk w n) →
  ∃ w', runs (brelse b) w tt w' ∧ keeps w p w' b ∧ bstore w' p (<[n := u32 (R n - 1)]> R) H' ∧
    view w' = view w ∧ w_disk w' = w_disk w ∧ w_dtrace w' = w_dtrace w.
Proof.
  intros Hq Hs Hh HH Hc. destruct (bs_inv _ _ _ _ Hs) as [l Hi]. exists (gave b w).
  pose proof Hh as [Hb Hf Hv _ _ _]. pose proof (held_ref _ _ _ _ _ _ Hs Hh) as HRn.
  pose proof (proj1 (for_spec _ _) Hf) as [Hdev Hn].
  assert (Hcl : b_refcnt (w_bufs w b) = 1 → clean w b).
  { rewrite HRn. intros E. unfold clean. by rewrite (held_view _ _ _ _ _ _ Hs Hh), Hc, Hn. }
  pose proof (gave_inv w l p b n Hi Hh Hcl) as Hi'.
  assert (Ef : ∀ c m, is_for m (w_bufs (gave b w) c) = is_for m (w_bufs w c)).
  { intros c m. destruct (gave_core b w c) as [E _]. rewrite (core_is_for _ _ m E). case_decide as Hcb; [by rewrite Hcb|done]. }
  assert (Ev : ∀ c, b_valid (w_bufs (gave b w) c) = b_valid (w_bufs w c)).
  { intros c. destruct (gave_core b w c) as [E _]. apply (f_equal (λ x, x.1.1.1.1.1)) in E.
    transitivity (b_valid (if decide (c = b) then ref_add (-1) (w_bufs w b) else w_bufs w c)); [exact E|].
    case_decide as Hcb; [by rewrite Hcb|done]. }
  assert (Eo : ∀ c, c ≠ b → core (w_bufs (gave b w) c) = core (w_bufs w c)).
  { intros c Hne. destruct (gave_core b w c) as [E _]. by rewrite decide_False in E. }
  assert (El : ∀ c, c ≠ b → w_slk (gave b w) (SBuf c) = w_slk w (SBuf c)).
  { intros c Hne. destruct (gave_core b w c) as [_ ->]. unfold unlock_buf. rsimpl. by rewrite fn_lookup_insert_ne by congruence. }
  assert (Hk : ∀ b' m, b' ≠ b → held w p b' m → held (gave b w) p b' m).
  { intros b' m Hne []. split; try done; rewrite ?El, ?Ef by done; try done.
    - by rewrite Ev.
    - unfold gave. by destruct (_ =? 1). }
  assert (Hid : w_disk (gave b w) = w_disk w ∧ w_dtrace (gave b w) = w_dtrace w) by (unfold gave; by destruct (_ =? 1)).
  split_and!; [| | | |apply Hid..].
  - apply (brelse_run w p b n); [done..|]. apply (bo_ref _ _ (bi_buf _ _ Hi b Hb)).
  - split; [|done]. apply bstep_intro; [unfold gave; by destruct (_ =? 1)|].
    intros ip. destruct (gave_core b w b) as [_ ->]. unfold unlock_buf. rsimpl. by rewrite fn_lookup_insert_ne.
  - pose proof (bs_nodup _ _ _ _ Hs) as Hnd. rewrite HH in Hnd. apply NoDup_cons in Hnd as [HnH Hnd].
    split.
    + by eexists.
    + intros c Hcr. destruct (gave_core b w c) as [E _]. apply (f_equal (λ x, (x.1.1.1.2, x.1.1.2, x.1.2))) in E.
      injection E as -> -> ->. case_decide as Hcb.
      * intros _. unfold ref_add. rsimpl. by rewrite HRn, Hn, fn_lookup_insert.
      * intros Hd. rewrite fn_lookup_insert_ne; [by apply (bs_ref _ _ _ _ Hs)|].
        intros E. destruct Hcb. apply (bi_once _ _ Hi c b n Hcr Hb); by apply for_spec.
    + intros m Hm. destruct (decide (m = n)) as [->|Hne]; [exists b; by rewrite Ef, Ev|].
      rewrite fn_lookup_insert_ne in Hm by done. destruct (bs_some _ _ _ _ Hs m Hm) as (c & ? & ? & ?). exists c. by rewrite Ef, Ev.
    + intros c Hcr Hlk. destruct (decide (c = b)) as [->|Hne].
      { destruct (gave_core b w b) as [_ E]. rewrite E in Hlk. unfold unlock_buf in Hlk. rsimpl_in Hlk.
        rewrite fn_lookup_insert in Hlk. done. }
      rewrite El in Hlk by done. destruct (bs_lock _ _ _ _ Hs c Hcr Hlk) as (m & Hm & Hfm). exists m.
      rewrite Ef. split; [|done]. rewrite HH in Hm. apply elem_of_cons in Hm as [->|]; [|done].
      destruct Hne. by apply (bi_once _ _ Hi c b n).
    + intros m Hm. destruct (bs_held _ _ _ _ Hs m) as [c Hch]; [rewrite HH; by right|].
      exists c. apply Hk; [|done]. intros ->. pose proof (is_for_eq _ _ _ Hf (h_for _ _ _ _ Hch)). by subst.
    + done.
  - extensionality m. by apply (gave_view w l p b n).
Qed.
End Store.
