(* ===== verification/BioProps.v ===== *)
(** * What the buffer cache promises

    binit builds the cache; bread returns a locked buffer with the block's bytes;
    brelse keeps the LRU order; what happens when every buffer is in use.  The
    sample world at the end is the one binit makes of the kernel image, with a
    device that completes requests at once. *)

From S2P Require Import Prelude Types StringC Spinlock Sched Sleeplock Run Bio Cache.

(** ** binit *)

(** Buffers as the kernel image has them. *)
Definition raw_buf (bf : buf) : Prop :=
  b_valid bf = false ∧ b_disk bf = false ∧ b_dev bf = 0 ∧ b_refcnt bf = 0.

Lemma core_raw bf bf' : core bf = core bf' → raw_buf bf → raw_buf bf'.
Proof. unfold core, raw_buf. intros [= -> -> -> _ -> _]. done. Qed.

Section Binit.
Context {D : DiskOps}.

Definition binit_body (b : Z) : K unit :=
  h <- get_buf bhead ;;
  upd_buf b (set_b_next (b_next h)) ;;
  upd_buf b (set_b_prev bhead) ;;
  initsleeplock (SBuf b) "buffer" ;;
  h <- get_buf bhead ;;
  upd_buf (b_next h) (set_b_prev b) ;;
  upd_buf bhead (set_b_next b).

(** Buffer [b] put in front of the list. *)
Definition pushed_front (b : Z) (f : Z → buf) : Z → buf :=
  let f := alter (set_b_next (b_next (f bhead))) b f in
  let f := alter (set_b_prev bhead) b f in
  let f := alter (set_b_prev b) (b_next (f bhead)) f in
  alter (set_b_next b) bhead f.

Lemma pushed_seg b f l :
  b ∉ l → b ≠ bhead → bhead ∉ l → NoDup l → seg (nx f) (pv f) bhead l bhead →
  seg (nx (pushed_front b f)) (pv (pushed_front b f)) bhead (b :: l) bhead.
Proof.
  intros Hb Hh Hl Hnd Hs. unfold pushed_front. cbv zeta.
  repeat (rewrite nx_next || rewrite nx_prev || rewrite pv_next || rewrite pv_prev).
  set (f2 := alter (set_b_prev bhead) b (alter (set_b_next (b_next (f bhead))) b f)).
  assert (E : b_next (f2 bhead) = nx f bhead).
  { change (b_next (f2 bhead)) with (nx f2 bhead). unfold f2. by rewrite nx_prev, nx_next, fn_lookup_insert_ne. }
  rewrite E. change (b_next (f bhead)) with (nx f bhead). by apply seg_push.
Qed.

Lemma core_pushed b f c : core (pushed_front b f c) = core (f c).
Proof. unfold pushed_front. cbv zeta. by rewrite core_alter_next, core_alter_prev, core_alter_prev, core_alter_next. Qed.

(** The world binit works on, with buffers [f] and sleep locks [s], [k]. *)
Definition binit_world (w : world) f s k : world := set_lk k (set_slk s (set_bufs f w)).

Lemma binit_body_run w f s k b :
  ∃ s' k', runs (binit_body b) (binit_world w f s k) tt (binit_world w (pushed_front b f) s' k') ∧
    s' = <[SBuf b := mkSleeplock false "buffer" 0]> s ∧ (∀ l, l ≠ LSleep (SBuf b) → k' l = k l) ∧
    lk_locked (k' (LSleep (SBuf b))) = false ∧ lk_cpu (k' (LSleep (SBuf b))) = None.
Proof.
  set (S := SBuf b).
  exists (alter (set_sl_pid 0) S (alter (set_sl_locked false) S (alter (set_sl_name "buffer") S s))).
  exists (alter (set_lk_cpu None) (LSleep S) (alter (set_lk_locked false) (LSleep S) (alter (set_lk_name "sleep lock") (LSleep S) k))).
  split_and!.
  - unfold binit_body, get_buf, upd_buf, initsleeplock, initlock, upd_slk, upd_lk. rsteps.
  - by autorewrite with xv6.
  - intros l Hl. by autorewrite with xv6.
  - by autorewrite with xv6.
  - by autorewrite with xv6.
Qed.

Lemma binit_run w :
  (∀ b, 0 ≤ b < NBUF → raw_buf (w_bufs w b)) →
  ∃ f s k, runs binit w tt (binit_world w f s k) ∧ bio_inv (binit_world w f s k) (rev (seqZ 0 NBUF)) ∧
    (∀ c, 0 ≤ c < NBUF → raw_buf (f c)) ∧
    (∀ b, 0 ≤ b < NBUF → s (SBuf b) = mkSleeplock false "buffer" 0) ∧
    (∀ ip, s (SInode ip) = w_slk w (SInode ip)) ∧
    (∀ l, lk_free w l → lk_locked (k l) = false ∧ lk_cpu (k l) = None).
Proof.
  intros Hraw.
  set (f0 := alter (set_b_next bhead) bhead (alter (set_b_prev bhead) bhead (w_bufs w))).
  set (k0 := <[LBcache := mkSpinlock false "bcache" None]> (w_lk w)).
  set (I := λ (seen : list Z) (v : world), ∃ f s k, v = binit_world w f s k ∧
    seg (nx f) (pv f) bhead (rev seen) bhead ∧ (∀ c, core (f c) = core (w_bufs w c)) ∧
    (∀ b, b ∈ seen → s (SBuf b) = mkSleeplock false "buffer" 0) ∧ (∀ ip, s (SInode ip) = w_slk w (SInode ip)) ∧
    (∀ l, lk_free w l → lk_locked (k l) = false ∧ lk_cpu (k l) = None)).
  destruct (runs_for_each I (seqZ 0 NBUF) binit_body (binit_world w f0 (w_slk w) k0)) as (v & Rv & (f & s & k & -> & Hs & Hc & Hsl & Hip & Hkl)).
  - exists f0, (w_slk w), k0. split_and!; try done.
    + intros c. unfold f0. by rewrite core_alter_next, core_alter_prev.
    + set_solver.
    + intros l Hl. unfold k0. destruct (decide (LBcache = l)) as [<-|]; [by rewrite fn_lookup_insert|by rewrite fn_lookup_insert_ne].
  - intros seen b rest v Hl (f & s & k & -> & Hs & Hc & Hsl & Hip & Hkl).
    assert (Hb : 0 ≤ b < NBUF) by (assert (b ∈ seqZ 0 NBUF) as Hin by (rewrite Hl; set_solver); apply elem_of_seqZ in Hin; lia).
    pose proof (NoDup_seqZ 0 NBUF) as Hnd. rewrite Hl in Hnd. apply NoDup_app in Hnd as (Hn1 & Hn2 & _).
    destruct (binit_body_run w f s k b) as (s' & k' & Rb & -> & Hk' & Hkb1 & Hkb2).
    eexists. split; [exact Rb|]. exists (pushed_front b f), (<[SBuf b := mkSleeplock false "buffer" 0]> s), k'.
    split_and!; [done| | | | |].
    + rewrite rev_app_distr. apply pushed_seg; [|unfold bhead; lia| | |done].
      * rewrite list_elem_of_In, <-in_rev, <-list_elem_of_In. intros Hin. by apply (Hn2 b Hin); left.
      * rewrite list_elem_of_In, <-in_rev, <-list_elem_of_In. intros Hin.
        assert (bhead ∈ seqZ 0 NBUF) as Hh by (rewrite Hl; set_solver). apply elem_of_seqZ in Hh. unfold bhead in Hh. lia.
      * apply NoDup_ListNoDup, NoDup_rev, NoDup_ListNoDup. done.
    + intros c. by rewrite core_pushed.
    + intros c [Hin| ->%list_elem_of_singleton]%elem_of_app; [|by rewrite fn_lookup_insert].
      destruct (decide (b = c)) as [<-|]; [by rewrite fn_lookup_insert|].
      rewrite fn_lookup_insert_ne by congruence. by apply Hsl.
    + intros ip. by rewrite fn_lookup_insert_ne.
    + intros l Hl'. destruct (decide (l = LSleep (SBuf b))) as [->|Hne]; [done|]. rewrite Hk' by done. by apply Hkl.
  - exists f, s, k. assert (Hf : ∀ c, 0 ≤ c < NBUF → raw_buf (f c)).
    { intros c Hcr. eapply core_raw; [symmetry; apply Hc|by apply Hraw]. }
    split_and!; try done.
    + unfold binit. eapply runs_bind; [unfold initlock, upd_lk; rsteps|]. cbv beta. unfold upd_buf at 1 2. rsteps.
      eapply runs_alike; [exact Rv| |reflexivity]. unfold binit_world, f0, k0. rsimpl. autorewrite with xv6. reflexivity.
    + split.
      * exact Hs.
      * symmetry. apply Permutation_rev.
      * intros b b' n Hb _ Hfor. destruct (Hf b Hb) as (_ & _ & Hd & _). unfold is_for in Hfor.
        unfold binit_world in Hfor. rsimpl_in Hfor. rewrite Hd in Hfor. done.
      * intros b Hb. destruct (Hf b Hb) as (K1 & K2 & K3 & K4). unfold binit_world. rsimpl.
        split; rewrite ?K1, ?K4; try done.
    + intros b Hb. apply Hsl. apply elem_of_seqZ. lia.
Qed.
End Binit.

(** ** A world to run in *)

Lemma binit_store d :
  ∃ w, bstore w 1 (λ _, 0) [] ∧ quiet w 1 ∧ w_disk w = d ∧ view w = d ∧
    (∃ f s k, w = binit_world (running_world d) f s k ∧ ∀ ip, s (SInode ip) = w_slk image_world (SInode ip)) ∧ runs (D := prompt_disk) binit (running_world d) tt w.
Proof.
  destruct (binit_run (D := prompt_disk) (running_world d)) as (f & s & k & Hr & Hi & Hraw & Hs & Hip & Hk); [done|].
  exists (binit_world (running_world d) f s k). split_and!.
  - split.
    + by eexists.
    + intros b Hb _. by destruct (Hraw b Hb) as (_ & _ & _ & ?).
    + done.
    + intros b Hb. unfold binit_world. rsimpl. by rewrite (Hs b Hb).
    + set_solver.
    + constructor.
  - destruct (running_world_quiet d) as (Hru & Hn & Hl & Hw). split; [exact Hru|]. split; [exact Hn|].
    split; [intros l; apply Hk, Hl|exact Hw].
  - done.
  - extensionality n. apply view_uncached. intros b Hb Hf. by destruct (Hraw b Hb).
  - by exists f, s, k.
  - exact Hr.
Qed.

(** ** The properties *)

Module BufferCache.
Section Props.
Context {D : DiskOps} {HD : Disk D}.

(** C21: bread returns a buffer locked by the caller that holds the block's current
    bytes, whether the block was cached, had to be fetched, or replaced another;
    no block's contents change, every buffer the caller already held stays valid,
    and the block is referenced once more. *)
Theorem bread_returns_block w p (R : Z → Z) (H : list Z) n :
  quiet w p → vd_idle (w_vd w) → bstore w p R H →
  is_block n → n ∉ H → (∀ m, m ∈ H → R m ≠ 0) → R n ≠ 0 ∨ room R H → R n + 1 < 2 ^ 32 →
  ∃ b w', runs (bread ROOTDEV n) w b w' ∧ held w' p b n ∧ b_data (w_bufs w' b) = view w n ∧
    (∀ m, view w' m = view w m) ∧ w_disk w' = w_disk w ∧
    (∀ b' m, held w p b' m → held w' p b' m) ∧ bstore w' p (<[n := R n + 1]> R) (n :: H).
Proof.
  intros Hq Hv Hs Hblk Hn HR Hroom Hlt.
  destruct (st_bread w p R H n Hq Hv Hs Hblk Hn HR Hroom Hlt) as (b & w' & E & [_ K] & B & Hh & Hno & V & Dk & _).
  exists b, w'. split_and!; try done.
  - by rewrite (held_view _ _ _ _ _ _ B Hh), V.
  - intros m. by rewrite V.
  - intros b' m Hm. apply K; [|done]. intros ->. by eapply Hno.
Qed.

(** The LRU discipline: releasing the last reference moves a buffer to the front
    of the list, and a miss takes the unreferenced buffer nearest to its end.
    No block's contents change when the released buffer is clean. *)
Theorem brelse_lru w l p b n :
  quiet w p → bio_inv w l → held w p b n → (b_refcnt (w_bufs w b) = 1 → clean w b) →
  ∃ w', runs (brelse b) w tt w' ∧ (∀ m, view w' m = view w m) ∧
    bio_inv w' (if b_refcnt (w_bufs w b) =? 1 then to_front b l else l) ∧
    ∀ c l1 l2 m, (if b_refcnt (w_bufs w b) =? 1 then to_front b l else l) = l1 ++ c :: l2 →
      (∀ x, x ∈ l2 → b_refcnt (w_bufs w' x) ≠ 0) → b_refcnt (w_bufs w' c) = 0 →
      (∀ x, 0 ≤ x < NBUF → is_for m (w_bufs w' x) = false) → sl_locked (w_slk w' (SBuf c)) = false →
      runs (bget ROOTDEV m) w' c (got p c m w').
Proof.
  intros Hq Hi Hh Hc. pose proof (gave_inv w l p b n Hi Hh Hc) as Hi'. exists (gave b w).
  split_and!.
  - apply (brelse_run w p b n); [done..|]. apply (bo_ref _ _ (bi_buf _ _ Hi b (h_range _ _ _ _ Hh))).
  - intros m. by apply (gave_view w l p b n).
  - exact Hi'.
  - intros c l1 l2 m El Hl2 Hrc Hm Hlk. fold (given b w l) in El. eapply bget_run; [|exact Hi'| |done].
    + unfold gave. by destruct (_ =? 1).
    + assert (Hpick : pick (w_bufs (gave b w)) (given b w l) m = victim (w_bufs (gave b w)) (given b w l)).
      { unfold pick, cached. destruct (List.find _ (given b w l)) as [x|] eqn:Ef; [|done].
        apply find_in in Ef as [Hx Ef]. apply (bio_in _ _ _ Hi') in Hx. by rewrite Hm in Ef. }
      rewrite Hpick. unfold victim. rewrite El, rev_app_distr. cbn [rev]. rewrite <-app_assoc.
      assert (Hskip : ∀ r s, (∀ x, x ∈ r → b_refcnt (w_bufs (gave b w) x) ≠ 0) →
        List.find (λ x, b_refcnt (w_bufs (gave b w) x) =? 0) (r ++ s) = List.find (λ x, b_refcnt (w_bufs (gave b w) x) =? 0) s).
      { intros r s. induction r as [|x r IH]; intros Hr; [done|]. cbn.
        rewrite (proj2 (Z.eqb_neq _ _) (Hr x ltac:(by left))). apply IH. intros y Hy. apply Hr. by right. }
      rewrite Hskip; [cbn; by rewrite Hrc|]. intros x Hx. apply Hl2. rewrite list_elem_of_In, in_rev, <-list_elem_of_In. done.
Qed.

(** The error paths: bread of a block that is not cached panics when every buffer
    is referenced; bwrite and brelse panic when the caller does not hold the
    buffer's lock. *)
Theorem cache_misuse_panics w l p n b :
  quiet w p → bio_inv w l →
  ((∀ x, 0 ≤ x < NBUF → is_for n (w_bufs w x) = false ∧ b_refcnt (w_bufs w x) ≠ 0) →
     panics (bread ROOTDEV n) w "bget: no buffers") ∧
  (sl_locked (w_slk w (SBuf b)) = false ∨ sl_pid (w_slk w (SBuf b)) ≠ p_pid (w_procs w p) →
     panics (bwrite b) w "bwrite" ∧ panics (brelse b) w "brelse").
Proof.
  intros Hq Hi. split.
  - intros Hall.
    assert (Hcached : cached (w_bufs w) l n = None).
    { unfold cached. destruct (List.find _ l) as [x|] eqn:Ef; [|done]. apply find_in in Ef as [Hx Ef].
      apply (bio_in _ _ _ Hi), Hall in Hx as [Hx _]. congruence. }
    assert (Hvictim : victim (w_bufs w) l = None).
    { unfold victim. destruct (List.find _ (rev l)) as [x|] eqn:Ef; [|done]. apply find_in in Ef as [Hx Ef].
      rewrite list_elem_of_In, <-in_rev, <-list_elem_of_In in Hx. apply (bio_in _ _ _ Hi), Hall in Hx as [_ Hx].
      apply Z.eqb_eq in Ef. congruence. }
    pose proof (find_cached_run (locked_by LBcache w) list_fuel bhead l n (bi_list _ _ Hi) (bio_head _ _ Hi) (bio_fuel _ _ Hi)) as R1.
    pose proof (find_unused_run (locked_by LBcache w) list_fuel bhead l bhead (bi_list _ _ Hi) eq_refl (bio_head _ _ Hi) (bio_fuel _ _ Hi)) as R2.
    change (w_bufs (locked_by LBcache w)) with (w_bufs w) in R1, R2. rewrite Hcached in R1. rewrite Hvictim in R2.
    unfold bread, bget, get_buf. apply panics_l.
    eapply panics_bind; [apply runs_acquire; eauto with xv6|]. cbv beta.
    eapply panics_bind; [rstep|]. cbv beta. eapply panics_bind; [exact R1|]. cbv beta iota.
    eapply panics_bind; [rstep|]. cbv beta. eapply panics_bind; [exact R2|]. by intros env v _.
  - intros Hno.
    assert (Hr : runs (holdingsleep (SBuf b)) w false w).
    { pose proof (runs_holdingsleep (SBuf b) p w Hq) as Hr.
      destruct Hno as [Hl|Hp]; [rewrite Hl in Hr; exact Hr|]. rewrite (proj2 (Z.eqb_neq _ _) Hp), andb_false_r in Hr. exact Hr. }
    split; (eapply panics_bind; [exact Hr|]); by intros env v _.
Qed.

(** binit turns the kernel image's buffers into an empty cache: every buffer is
    on the LRU list, unreferenced and unlocked, and every block is seen as the
    disk has it. *)
Theorem binit_empty_cache w p :
  (∀ b, 0 ≤ b < NBUF → raw_buf (w_bufs w b)) →
  ∃ w', runs binit w tt w' ∧ bio_inv w' (rev (seqZ 0 NBUF)) ∧ bstore w' p (λ _, 0) [] ∧
    (∀ n, view w' n = w_disk w n).
Proof.
  intros Hraw. destruct (binit_run w Hraw) as (f & s & k & Hr & Hi & Hf & Hs & _).
  exists (binit_world w f s k). split_and!; [done..| |].
  - split; [by eexists| |done| |set_solver|constructor].
    + intros b Hb _. by destruct (Hf b Hb) as (_ & _ & _ & ?).
    + intros b Hb. unfold binit_world. rsimpl. by rewrite (Hs b Hb).
  - intros n. apply (view_uncached (binit_world w f s k)). intros b Hb _. by destruct (Hf b Hb).
Qed.
End Props.

Lemma binit_empty_cache_witness :
  ∃ w', runs (D := prompt_disk) binit (running_world (λ _, zeroes)) tt w' ∧ bstore w' 1 (λ _, 0) [].
Proof.
  destruct (binit_empty_cache (D := prompt_disk) (running_world (λ _, zeroes)) 1) as (w' & Hr & _ & Hs & _); [done|].
  by exists w'.
Defined.

Lemma bread_returns_block_witness :
  ∃ w b w', runs (D := prompt_disk) (bread (H := prompt_disk) ROOTDEV 7) w b w' ∧ b_data (w_bufs w' b) 0 = 42.
Proof.
  destruct (binit_store (λ _ _, 42)) as (w & Hs & Hq & _ & Hv & _).
  destruct (bread_returns_block (D := prompt_disk) (HD := prompt_disk_ok) w 1 (λ _, 0) [] 7) as (b & w' & Hr & _ & Hd & _).
  { exact Hq. } { exact I. } { exact Hs. } { done. } { set_solver. } { set_solver. }
  { right. exists []. split; [done|set_solver]. } { done. }
  exists w, b, w'. split; [exact Hr|]. by rewrite Hd, Hv.
Defined.

Lemma brelse_lru_witness :
  ∃ w b w', runs (D := prompt_disk) (brelse b) w tt w' ∧ held w 1 b 7.
Proof.
  destruct (binit_store (λ _ _, 42)) as (w0 & Hs & Hq & Hd & Hv & _).
  destruct (st_bread (D := prompt_disk) (HD := prompt_disk_ok) w0 1 (λ _, 0) [] 7) as (b & w & Hr & [K _] & B & Hh & _ & V & Dk & _).
  { exact Hq. } { exact I. } { exact Hs. } { done. } { set_solver. } { set_solver. }
  { right. exists []. split; [done|set_solver]. } { done. }
  destruct (bs_inv _ _ _ _ B) as [l Hi]. pose proof (bstep_quiet _ _ _ K Hq) as Hqw.
  destruct (brelse_lru (D := prompt_disk) w l 1 b 7 Hqw Hi Hh) as (w' & E & _).
  { intros _. unfold clean. by rewrite (held_view _ _ _ _ _ _ B Hh), V, Hv, Dk, Hd. }
  by exists w, b, w'.
Defined.

Lemma cache_misuse_panics_witness :
  ∃ w, panics (D := prompt_disk) (brelse 3) w "brelse".
Proof.
  destruct (binit_store (λ _ _, 42)) as (w & Hs & Hq & _ & _ & (f & s & k & Ew) & _).
  destruct (bs_inv _ _ _ _ Hs) as [l Hi].
  destruct (cache_misuse_panics (D := prompt_disk) w l 1 0 3 Hq Hi) as [_ Hp].
  exists w. apply Hp. left. destruct (sl_locked (w_slk w (SBuf 3))) eqn:E; [|done].
  destruct (bs_lock _ _ _ _ Hs 3) as (n & Hn & _); [done|done|set_solver].
Defined.
End BufferCache.
