(* ===== verification/Log.v ===== *)
(** * log.c: the write-ahead log

    The operations of log.c; what they do to the disk, write by write; recovery as
    a function on disks; and crash safety: whatever prefix of commit's writes
    reaches the disk, recovery produces either the old blocks or the new ones. *)

From S2P Require Import Prelude Types StringC Spinlock Sched Sleeplock Run Bio Cache.

Definition get_log : K logstate := gets (λ w, w_log w).
Definition upd_log (f : logstate → logstate) : K unit := modify (λ w, set_log (f (w_log w)) w).

(** struct logheader as it lies in a block: n, then the block numbers. *)
Definition lh_n (d : bytes) : Z := i32 (ld32 d 0).
Definition lh_block (d : bytes) (i : Z) : Z := i32 (ld32 d (4 + 4 * i)).

Definition upd_data (b : Z) (f : bytes → bytes) : K unit :=
  upd_buf b (λ bf, set_b_data (f (b_data bf)) bf).

Section Log.
Context `{DiskOps}.

Definition install_trans : K unit :=
  lg <- get_log ;;
  for_each (seqZ 0 (l_n lg)) (λ tail,
    lg <- get_log ;;
    lbuf <- bread (u32 (l_dev lg)) (u32 (l_start lg + tail + 1)) ;;
    dbuf <- bread (u32 (l_dev lg)) (u32 (l_block lg tail)) ;;
    src <- get_buf lbuf ;;
    upd_data dbuf (λ d, mem_copy d 0 (b_data src) 0 BSIZE) ;;
    bwrite dbuf ;;
    bunpin dbuf ;;
    brelse lbuf ;;
    brelse dbuf).

Definition read_head : K unit :=
  lg <- get_log ;;
  b <- bread (u32 (l_dev lg)) (u32 (l_start lg)) ;;
  bf <- get_buf b ;;
  upd_log (set_l_n (lh_n (b_data bf))) ;;
  lg <- get_log ;;
  for_each (seqZ 0 (l_n lg)) (λ i,
    bf <- get_buf b ;;
    upd_log (λ lg, set_l_block (<[i := lh_block (b_data bf) i]> (l_block lg)) lg)) ;;
  brelse b.

Definition write_head : K unit :=
  lg <- get_log ;;
  b <- bread (u32 (l_dev lg)) (u32 (l_start lg)) ;;
  lg <- get_log ;;
  upd_data b (λ d, st32 d 0 (l_n lg)) ;;
  for_each (seqZ 0 (l_n lg)) (λ i,
    lg <- get_log ;;
    upd_data b (λ d, st32 d (4 + 4 * i) (l_block lg i))) ;;
  bwrite b ;;
  brelse b.

Definition recover_from_log : K unit :=
  read_head ;;
  install_trans ;;
  upd_log (set_l_n 0) ;;
  write_head.

(** sizeof(struct logheader) *)
Definition sizeof_logheader : Z := 4 + 4 * LOGSIZE.

Definition initlog (dev : Z) : K unit :=
  if sizeof_logheader >=? BSIZE then panic "initlog: too big logheader" else
  initlock LLog "log" ;;
  sb <- gets (λ w, w_sb w) ;;
  upd_log (set_l_start (i32 (sb_logstart sb))) ;;
  upd_log (set_l_size (i32 (sb_nlog sb))) ;;
  upd_log (set_l_dev dev) ;;
  recover_from_log.

Definition begin_op : K unit :=
  acquire LLog ;;
  loop_wait (
    lg <- get_log ;;
    if l_committing lg then sleep CLog LLog ;; ret None
    else if l_n lg + (l_outstanding lg + 1) * MAXOPBLOCKS >? LOGSIZE then
      sleep CLog LLog ;; ret None
    else
      upd_log (λ lg, set_l_outstanding (l_outstanding lg + 1) lg) ;;
      release LLog ;;
      ret (Some tt)).

Definition write_log : K unit :=
  lg <- get_log ;;
  for_each (seqZ 0 (l_n lg)) (λ tail,
    lg <- get_log ;;
    to <- bread (u32 (l_dev lg)) (u32 (l_start lg + tail + 1)) ;;
    from <- bread (u32 (l_dev lg)) (u32 (l_block lg tail)) ;;
    src <- get_buf from ;;
    upd_data to (λ d, mem_copy d 0 (b_data src) 0 BSIZE) ;;
    bwrite to ;;
    brelse from ;;
    brelse to).

Definition commit : K unit :=
  lg <- get_log ;;
  when (l_n lg >? 0) (
    write_log ;;
    write_head ;;
    install_trans ;;
    upd_log (set_l_n 0) ;;
    write_head).

Definition end_op : K unit :=
  acquire LLog ;;
  upd_log (λ lg, set_l_outstanding (l_outstanding lg - 1) lg) ;;
  lg <- get_log ;;
  if l_committing lg then panic "log.committing" else
  do_commit <- (if l_outstanding lg =? 0 then
                  upd_log (set_l_committing true) ;;
                  ret true
                else
                  wakeup CLog ;;
                  ret false) ;;
  release LLog ;;
  when do_commit (
    commit ;;
    acquire LLog ;;
    upd_log (set_l_committing false) ;;
    wakeup CLog ;;
    release LLog).

End Log.

(** The index at which log_write's search stops. *)
Definition log_index (lg : logstate) (blockno : Z) : Z :=
  match List.find (λ i, u32 (l_block lg i) =? blockno) (seqZ 0 (l_n lg)) with
  | Some i => i
  | None => Z.max 0 (l_n lg)
  end.

Definition log_write (b : Z) : K unit :=
  lg <- get_log ;;
  if (l_n lg >=? LOGSIZE) || (l_n lg >=? l_size lg - 1) then panic "too big a transaction" else
  if l_outstanding lg <? 1 then panic "log_write outside of trans" else
  acquire LLog ;;
  bf <- get_buf b ;;
  i <- gets (λ w, log_index (w_log w) (b_blockno bf)) ;;
  upd_log (λ lg, set_l_block (<[i := i32 (b_blockno bf)]> (l_block lg)) lg) ;;
  lg <- get_log ;;
  when (i =? l_n lg) (
    bpin b ;;
    upd_log (λ lg, set_l_n (l_n lg + 1) lg)) ;;
  release LLog.

(** ** Copying between the log and the home blocks *)

(** memmove of a block. *)
Definition copy_block (dst src : bytes) : bytes := mem_copy dst 0 src 0 BSIZE.

Section Copies.
Context {D : DiskOps} {HD : Disk D}.
Implicit Types (R : Z → Z).

(** A running process and an idle driver. *)
Definition active (w : world) (p : Z) : Prop := quiet w p ∧ vd_idle (w_vd w).

Lemma bstep_active w w' p : bstep w w' → active w p → active w' p.
Proof. intros Hs [Hq Hv]. split; [by eapply bstep_quiet|by eapply bstep_idle]. Qed.

(** Writing [d] into the held buffer [b] of block [n], to the cache and to the
    disk. *)
Lemma st_overwrite w p R H b n (f : bytes → bytes) :
  active w p → bstore w p R H → held w p b n → R n ≠ 0 →
  let d := f (view w n) in
  ∃ w', (∀ A (k : unit → K A) r v, runs (k tt) w' r v → runs (upd_data b f ;; x <- bwrite b ;; k x) w r v) ∧
    bstep w w' ∧ bstore w' p R H ∧ (∀ b' m, held w p b' m → held w' p b' m) ∧
    view w' = <[n := d]> (view w) ∧ w_disk w' = <[n := d]> (w_disk w) ∧ w_dtrace w' = w_dtrace w ++ [(n, d)].
Proof.
  intros [Hq Hv] Hs Hh HR d. pose proof (held_view _ _ _ _ _ _ Hs Hh) as Hd.
  destruct (st_store w p R H b n d Hs Hh HR) as (S1 & B1 & K1 & V1). cbv zeta in *.
  destruct (st_bwrite (stored b d w) p R H b n) as (w2 & R2 & S2 & B2 & K2 & V2 & D2 & T2); [exact Hq|exact Hv|done|by apply K1|].
  rewrite V1, fn_lookup_insert in *. exists w2. split_and!; try done.
  - intros A k r v Hk. unfold upd_data, upd_buf. rsteps. rewrite fn_alter_insert, Hd.
    eapply runs_bind; [exact R2|exact Hk].
  - intros b' m Hm. by apply K2, K1.
Qed.

Lemma write_log_one w p R a n dev :
  active w p → bstore w p R [] → is_block a → is_block n → dev = ROOTDEV → a ≠ n → R a = 0 → R n = 1 → room R [] →
  let c := copy_block (view w a) (view w n) in
  ∃ w', runs (to <- bread dev a ;; from <- bread dev n ;;
              src <- get_buf from ;;
              upd_data to (λ d, mem_copy d 0 (b_data src) 0 BSIZE) ;;
              bwrite to ;; brelse from ;; brelse to) w tt w' ∧
    bstep w w' ∧ bstore w' p R [] ∧
    view w' = <[a := c]> (view w) ∧ w_disk w' = <[a := c]> (w_disk w) ∧ w_dtrace w' = w_dtrace w ++ [(a, c)].
Proof.
  intros Hact Hs Hba Hbn -> Hne HRa HRn Hroom c. pose proof Hact as [Hq Hv].
  destruct (st_bread w p R [] a) as (b1 & w1 & E1 & [S1 _] & B1 & H1 & _ & V1 & D1 & T1); try done; [set_solver..|by right|lia|].
  rewrite HRa in B1. pose proof (bstep_active _ _ _ S1 Hact) as [Hq1 Hv1].
  destruct (st_bread w1 p _ [a] n Hq1 Hv1 B1 Hbn) as (b2 & w2 & E2 & [S2 K2] & B2 & H2 & N2 & V2 & D2 & T2).
  { set_solver. } { intros m ->%list_elem_of_singleton. by rewrite fn_lookup_insert. }
  { left. rewrite fn_lookup_insert_ne by done. lia. } { rewrite fn_lookup_insert_ne by done. lia. }
  rewrite fn_lookup_insert_ne, HRn in B2 by done.
  assert (Hb : b1 ≠ b2) by (intros ->; by eapply N2).
  pose proof (bstep_active _ _ _ S2 (conj Hq1 Hv1)) as Hact2.
  destruct (st_overwrite w2 p _ _ b1 a (λ d, mem_copy d 0 (b_data (w_bufs w2 b2)) 0 BSIZE) Hact2 B2) as (w3 & E3 & S3 & B3 & K3 & V3 & D3 & T3).
  { by apply K2. } { by rewrite fn_lookup_insert_ne, fn_lookup_insert by done. }
  cbv zeta in *. rewrite (held_view _ _ _ _ _ _ B2 H2), V2, V1 in V3, D3, T3. fold (copy_block (view w a) (view w n)) in V3, D3, T3.
  fold c in V3, D3, T3. pose proof (bstep_active _ _ _ S3 Hact2) as [Hq3 Hv3].
  destruct (st_brelse w3 p _ _ [a] b2 n Hq3 B3) as (w4 & E4 & [S4 K4] & B4 & V4 & D4 & T4); [by apply K3|done|..].
  { rewrite fn_lookup_insert. lia. }
  pose proof (bstep_active _ _ _ S4 (conj Hq3 Hv3)) as [Hq4 Hv4].
  destruct (st_brelse w4 p _ _ [] b1 a Hq4 B4) as (w5 & E5 & [S5 K5] & B5 & V5 & D5 & T5); [by apply K4, K3, K2|done|..].
  { intros _. by rewrite V4, D4, V3, D3, !fn_lookup_insert. }
  exists w5. split_and!.
  - eapply runs_bind; [exact E1|]. eapply runs_bind; [exact E2|]. unfold get_buf. rsteps. apply E3.
    eapply runs_bind; [exact E4|exact E5].
  - by rewrite S1, S2, S3, S4.
  - assert (ER : <[a := u32 (1 - 1)]> (<[n := u32 (1 + 1 - 1)]> (<[n := 1 + 1]> (<[a := 0 + 1]> R))) = R).
    { extensionality m. destruct (decide (m = a)) as [->|]; [by rewrite fn_lookup_insert|].
      rewrite fn_lookup_insert_ne by done. destruct (decide (m = n)) as [->|]; [by rewrite fn_lookup_insert|].
      by rewrite !fn_lookup_insert_ne by done. }
    rewrite <-ER. revert B5. rewrite (fn_lookup_insert_ne _ n a), (fn_lookup_insert_ne _ n a), !fn_lookup_insert by done. done.
  - by rewrite V5, V4, V3.
  - by rewrite D5, D4, D3, D2, D1.
  - by rewrite T5, T4, T3, T2, T1.
Qed.

(** Buffers for two more blocks. *)
Definition room2 R : Prop := ∃ U : list Z, Z.of_nat (length U) + 1 < NBUF ∧ ∀ n, R n ≠ 0 → n ∈ U.

Lemma room2_next R a r : room2 R → room (<[a := r]> R) [a].
Proof.
  intros (U & HU & Hin). exists (a :: U). split; [cbn; lia|].
  intros n [Hn|Hn]; [|set_solver]. destruct (decide (n = a)) as [->|Hne]; [by left|].
  rewrite fn_lookup_insert_ne in Hn by done. right. by apply Hin.
Qed.

(** One round of install_trans.  The home block ends up with one reference less
    than before, counted modulo 2^32. *)
Lemma install_one w p R a n dev :
  active w p → bstore w p R [] → is_block a → is_block n → dev = ROOTDEV → a ≠ n → R a = 0 → R n = 0 ∨ R n = 1 →
  room R [] → room2 R ∨ R n ≠ 0 →
  let c := copy_block (view w n) (view w a) in
  ∃ w', runs (lbuf <- bread dev a ;; dbuf <- bread dev n ;;
              src <- get_buf lbuf ;;
              upd_data dbuf (λ d, mem_copy d 0 (b_data src) 0 BSIZE) ;;
              bwrite dbuf ;; bunpin dbuf ;; brelse lbuf ;; brelse dbuf) w tt w' ∧
    bstep w w' ∧ bstore w' p (<[n := u32 (R n - 1)]> R) [] ∧
    view w' = <[n := c]> (view w) ∧ w_disk w' = <[n := c]> (w_disk w) ∧ w_dtrace w' = w_dtrace w ++ [(n, c)].
Proof.
  intros Hact Hs Hba Hbn -> Hne HRa HRn Hroom Hroom2 c. pose proof Hact as [Hq Hv].
  destruct (st_bread w p R [] a) as (b1 & w1 & E1 & [S1 _] & B1 & H1 & _ & V1 & D1 & T1); try done;
    [set_solver..|by right|lia|].
  rewrite HRa in B1. pose proof (bstep_active _ _ _ S1 Hact) as [Hq1 Hv1].
  destruct (st_bread w1 p _ [a] n Hq1 Hv1 B1 Hbn) as (b2 & w2 & E2 & [S2 K2] & B2 & H2 & N2 & V2 & D2 & T2).
  { set_solver. } { intros m ->%list_elem_of_singleton. by rewrite fn_lookup_insert. }
  { destruct Hroom2; [right; by apply room2_next|left; by rewrite fn_lookup_insert_ne]. } { rewrite fn_lookup_insert_ne by done. lia. }
  rewrite fn_lookup_insert_ne in B2 by done.
  assert (Hb : b1 ≠ b2) by (intros ->; by eapply N2).
  pose proof (bstep_active _ _ _ S2 (conj Hq1 Hv1)) as Hact2.
  destruct (st_overwrite w2 p _ _ b2 n (λ d, mem_copy d 0 (b_data (w_bufs w2 b1)) 0 BSIZE) Hact2 B2 H2) as (w3 & E3 & S3 & B3 & K3 & V3 & D3 & T3).
  { rewrite fn_lookup_insert. lia. }
  assert (H1' : held w2 p b1 a) by (by apply K2).
  cbv zeta in *. rewrite (held_view _ _ _ _ _ _ B2 H1'), V2, V1 in V3, D3, T3. fold (copy_block (view w n) (view w a)) in V3, D3, T3.
  fold c in V3, D3, T3. pose proof (bstep_active _ _ _ S3 Hact2) as [Hq3 Hv3].
  assert (Hc3 : view w3 n = w_disk w3 n) by (by rewrite V3, D3, !fn_lookup_insert).
  destruct (st_bunpin w3 p _ _ b2 n Hq3 B3) as (w4 & E4 & S4 & B4 & K4 & V4 & D4 & T4); [by apply K3|done|].
  rewrite fn_lookup_insert, fn_insert_insert in B4.
  pose proof (bstep_active _ _ _ S4 (conj Hq3 Hv3)) as [Hq4 Hv4].
  destruct (st_brelse w4 p _ _ [n] b1 a Hq4 B4) as (w5 & E5 & [S5 K5] & B5 & V5 & D5 & T5); [by apply K4, K3|apply Permutation_swap|..].
  { intros _. rewrite V4, D4, V3, D3, !fn_lookup_insert_ne by done. rewrite D2, D1.
    apply (bstore_clean w p R []); [done|lia]. }
  rewrite fn_lookup_insert_ne, fn_lookup_insert in B5 by done.
  pose proof (bstep_active _ _ _ S5 (conj Hq4 Hv4)) as [Hq5 Hv5].
  destruct (st_brelse w5 p _ _ [] b2 n Hq5 B5) as (w6 & E6 & [S6 K6] & B6 & V6 & D6 & T6); [by apply K5, K4, K3|done|..].
  { intros _. by rewrite V5, D5, V4, D4. }
  exists w6. split_and!.
  - eapply runs_bind; [exact E1|]. eapply runs_bind; [exact E2|]. unfold get_buf. rsteps. apply E3.
    eapply runs_bind; [exact E4|]. eapply runs_bind; [exact E5|exact E6].
  - by rewrite S1, S2, S3, S4, S5.
  - assert (ER : <[n := u32 (u32 (R n + 1 - 1) - 1)]> (<[a := u32 (0 + 1 - 1)]> (<[n := u32 (R n + 1 - 1)]> (<[a := 0 + 1]> R)))
      = <[n := u32 (R n - 1)]> R).
    { extensionality m. destruct (decide (m = n)) as [->|]; [rewrite !fn_lookup_insert|].
      - destruct HRn as [-> | ->]; reflexivity.
      - rewrite !(fn_lookup_insert_ne _ n) by done. destruct (decide (m = a)) as [->|]; [by rewrite fn_lookup_insert|].
        by rewrite !fn_lookup_insert_ne by done. }
    rewrite <-ER. revert B6. rewrite (fn_lookup_insert_ne _ a n), fn_lookup_insert by done. done.
  - by rewrite V6, V5, V4, V3.
  - by rewrite D6, D5, D4, D3, D2, D1.
  - by rewrite T6, T5, T4, T3, T2, T1.
Qed.

End Copies.

(** ** The header *)

Definition put_block (blk : Z → Z) (d : bytes) (i : Z) : bytes := st32 d (4 + 4 * i) (blk i).

(** The header block that write_head writes over [d]. *)
Definition put_head (n : Z) (blk : Z → Z) (d : bytes) : bytes :=
  foldl (put_block blk) (st32 d 0 n) (seqZ 0 n).

Lemma stored_stored b d d' w : stored b d (stored b d' w) = stored b d w.
Proof. unfold stored. rsimpl. rewrite fn_lookup_insert, fn_insert_insert. reflexivity. Qed.

Lemma stored_data b d w : b_data (w_bufs (stored b d w) b) = d.
Proof. unfold stored. rsimpl. by rewrite fn_lookup_insert. Qed.

Lemma stored_same b w : stored b (b_data (w_bufs w b)) w = w.
Proof. unfold stored. exact (f_equal (λ f, set_bufs f w) (fn_insert_id (w_bufs w) b)). Qed.

Section Header.
Context {D : DiskOps} {HD : Disk D}.
Implicit Types (R : Z → Z).

Lemma put_head_loop w b :
  let lg := w_log w in
  runs (upd_data b (λ d, st32 d 0 (l_n lg)) ;;
        for_each (seqZ 0 (l_n lg)) (λ i,
          lg <- get_log ;; upd_data b (λ d, st32 d (4 + 4 * i) (l_block lg i)))) w tt
    (stored b (put_head (l_n lg) (l_block lg) (b_data (w_bufs w b))) w).
Proof.
  cbv zeta. unfold upd_data, upd_buf. rsteps.
  destruct (runs_for_each (λ seen v, v = stored b (foldl (put_block (l_block (w_log w)))
      (st32 (b_data (w_bufs w b)) 0 (l_n (w_log w))) seen) w) (seqZ 0 (l_n (w_log w)))
      (λ i, lg <- get_log ;; upd_data b (λ d, st32 d (4 + 4 * i) (l_block lg i)))
      (stored b (st32 (b_data (w_bufs w b)) 0 (l_n (w_log w))) w)) as (w' & E & ->).
  - done.
  - intros seen i rest v _ ->. eexists. split.
    + unfold get_log, upd_data, upd_buf. rsteps.
    + rewrite foldl_app. cbn [foldl]. set (d := foldl _ _ seen). rewrite fn_alter_insert, stored_data.
      exact (stored_stored b _ d w).
  - exact E.
Qed.

Lemma write_head_run w p R ls :
  active w p → bstore w p R [] → is_block ls → u32 (l_dev (w_log w)) = ROOTDEV → u32 (l_start (w_log w)) = ls →
  R ls = 0 → room R [] →
  let h := put_head (l_n (w_log w)) (l_block (w_log w)) (view w ls) in
  ∃ w', runs write_head w tt w' ∧ bstep w w' ∧ bstore w' p R [] ∧
    view w' = <[ls := h]> (view w) ∧ w_disk w' = <[ls := h]> (w_disk w) ∧ w_dtrace w' = w_dtrace w ++ [(ls, h)].
Proof.
  intros Hact Hs Hbl Hdev Hls HR Hroom h. pose proof Hact as [Hq Hv].
  destruct (st_bread w p R [] ls) as (b & w1 & E1 & [S1 _] & B1 & H1 & _ & V1 & D1 & T1); try done; [set_solver..|by right|lia|].
  rewrite HR in B1. pose proof (bstep_active _ _ _ S1 Hact) as [Hq1 Hv1].
  assert (HR1 : (<[ls := 0 + 1]> R) ls ≠ 0) by (by rewrite fn_lookup_insert).
  destruct (st_store w1 p _ _ b ls h B1 H1 HR1) as (S2 & B2 & K2 & V2). set (w2 := stored b h w1) in *.
  pose proof (bstep_active _ _ _ S2 (conj Hq1 Hv1)) as [Hq2 Hv2].
  destruct (st_bwrite w2 p _ _ b ls Hq2 Hv2 B2 (K2 _ _ H1)) as (w3 & E3 & S3 & B3 & K3 & V3 & D3 & T3).
  rewrite V2, fn_lookup_insert in *. pose proof (bstep_active _ _ _ S3 (conj Hq2 Hv2)) as [Hq3 Hv3].
  destruct (st_brelse w3 p _ _ [] b ls Hq3 B3) as (w4 & E4 & [S4 _] & B4 & V4 & D4 & T4); [by apply K3, K2|done|..].
  { intros _. by rewrite V3, D3, !fn_lookup_insert. }
  exists w4. split_and!.
  - unfold write_head, get_log at 1. rsteps. rewrite Hdev, Hls. eapply runs_bind; [exact E1|].
    unfold get_log at 1. rsteps. pose proof (put_head_loop w1 b) as E2. cbv zeta in E2.
    rewrite (held_view _ _ _ _ _ _ B1 H1), V1, (bstep_log _ _ S1) in E2.
    assert (Hsplit : ∀ A B C (m1 : K A) (m2 : A → K B) (m3 : B → K C) r v u,
      runs (bind (bind m1 m2) m3) v r u → runs (bind m1 (λ a, bind (m2 a) m3)) v r u).
    { intros A B C m1 m2 m3 r v u Hr e x Ex. rewrite <-bind_assoc. by apply Hr. }
    rewrite (bstep_log _ _ S1). apply Hsplit. eapply runs_bind; [exact E2|].
    eapply runs_bind; [exact E3|exact E4].
  - by rewrite S1, S2, S3.
  - revert B4. rewrite fn_lookup_insert, fn_insert_insert. change (u32 (0 + 1 - 1)) with 0. by rewrite fn_insert_same.
  - by rewrite V4, V3, V1.
  - rewrite D4, D3. change (w_disk w2) with (w_disk w1). by rewrite D1.
  - rewrite T4, T3. change (w_dtrace w2) with (w_dtrace w1). by rewrite T1.
Qed.

End Header.

(** ** Whole passes over the log *)

(** A list of block writes, applied in order. *)
Definition apply_writes (t : list (Z * bytes)) (d : Z → bytes) : Z → bytes :=
  foldl (λ f x, <[x.1 := x.2]> f) d t.

Lemma apply_app t t' d : apply_writes (t ++ t') d = apply_writes t' (apply_writes t d).
Proof. apply foldl_app. Qed.

Lemma apply_other t d m : m ∉ t.*1 → apply_writes t d m = d m.
Proof.
  revert d. induction t as [|[n x] t IH]; intros d Hm; [done|]. cbn in Hm. change (apply_writes t (<[n := x]> d) m = d m).
  rewrite IH by set_solver. apply fn_lookup_insert_ne. set_solver.
Qed.

Lemma apply_in t d m x : NoDup t.*1 → (m, x) ∈ t → apply_writes t d m = x.
Proof.
  revert d. induction t as [|[n y] t IH]; intros d Hnd Hin; [by apply elem_of_nil in Hin|].
  cbn in Hnd. change (apply_writes t (<[n := y]> d) m = x). apply NoDup_cons in Hnd as [Hn Hnd]. apply elem_of_cons in Hin as [[= -> ->]|Hin].
  - rewrite apply_other by done. apply fn_lookup_insert.
  - by apply IH.
Qed.

(** The log in memory holds the transaction [L]. *)
Record txn (lg : logstate) (L : list Z) : Prop := {
  t_dev : l_dev lg = ROOTDEV;
  t_start : 0 ≤ l_start lg ∧ l_start lg + LOGSIZE < 2 ^ 31;
  t_n : l_n lg = Z.of_nat (length L);
  t_max : Z.of_nat (length L) < LOGSIZE;
  t_block i n : L !! i = Some n → l_block lg (Z.of_nat i) = n;
  t_range n : n ∈ L → 0 ≤ n < 2 ^ 31 ∧ ¬ (l_start lg ≤ n < l_start lg + LOGSIZE);
  t_nodup : NoDup L
}.

(** One reference for each block of the transaction. *)
Definition pins (L : list Z) : Z → Z := λ n, if bool_decide (n ∈ L) then 1 else 0.

Lemma pins_in L n : n ∈ L → pins L n = 1.
Proof. intros Hn. unfold pins. by rewrite bool_decide_true. Qed.
Lemma pins_out L n : n ∉ L → pins L n = 0.
Proof. intros Hn. unfold pins. by rewrite bool_decide_false. Qed.

Lemma pins_room L : Z.of_nat (length L) < NBUF → room (pins L) [].
Proof.
  intros Hl. exists L. split; [done|]. intros n [Hn|Hn]; [|set_solver].
  destruct (decide (n ∈ L)); [done|]. by rewrite pins_out in Hn.
Qed.

(** What write_log writes: block i of the transaction to block i of the log. *)
Definition wl_writes (ls : Z) (V : Z → bytes) (L : list Z) : list (Z * bytes) :=
  imap (λ i n, (ls + Z.of_nat i + 1, copy_block (V (ls + Z.of_nat i + 1)) (V n))) L.

(** What install_trans writes, the log showing [V]. *)
Definition inst_writes (ls : Z) (V : Z → bytes) (L : list Z) : list (Z * bytes) :=
  imap (λ i n, (n, copy_block (V n) (V (ls + Z.of_nat i + 1)))) L.

Lemma imap_take_S {A B} (f : nat → A → B) l i x :
  l !! i = Some x → imap f (take (S i) l) = imap f (take i l) ++ [f i x].
Proof.
  intros Hl. rewrite (take_S_r _ _ _ Hl), imap_app. cbn. rewrite length_take, Nat.min_l.
  - by rewrite Nat.add_0_r.
  - apply lookup_lt_Some in Hl. lia.
Qed.

Lemma wl_keys ls V L m : m ∈ (wl_writes ls V L).*1 → ls < m ≤ ls + Z.of_nat (length L).
Proof.
  unfold wl_writes. rewrite list_elem_of_fmap. intros ([k x] & -> & Hin).
  apply elem_of_lookup_imap in Hin as (i & n & [= -> _] & Hi). apply lookup_lt_Some in Hi. cbn. lia.
Qed.

Lemma inst_keys ls V L : (inst_writes ls V L).*1 = L.
Proof.
  unfold inst_writes. rewrite fmap_imap. apply list_eq. intros i. rewrite list_lookup_imap. by destruct (L !! i).
Qed.

Section Passes.
Context {D : DiskOps} {HD : Disk D}.
Implicit Types (R : Z → Z).

Lemma txn_step lg L i n : txn lg L → L !! i = Some n →
  u32 (l_start lg + Z.of_nat i + 1) = l_start lg + Z.of_nat i + 1 ∧ u32 (l_block lg (Z.of_nat i)) = n ∧
  l_start lg + Z.of_nat i + 1 ≠ n ∧ l_start lg + Z.of_nat i + 1 ∉ L ∧ n ∈ L ∧ u32 (l_dev lg) = ROOTDEV.
Proof.
  intros [Hd Hs Hn Hm Hb Hr Hnd] Hi. pose proof (lookup_lt_Some _ _ _ Hi) as Hlt.
  assert (Hin : n ∈ L) by (by eapply list_elem_of_lookup_2).
  assert (Hout : ∀ m, m ∈ L → l_start lg + Z.of_nat i + 1 ≠ m).
  { intros m Hmem <-. destruct (Hr _ Hmem) as [_ Hno]. lia. }
  rewrite (Hb i n Hi), Hd. destruct (Hr n Hin) as [Hnr _].
  split_and!; [apply u32_small; lia|apply u32_small; lia|by apply Hout|intros Hc; by eapply Hout|done|reflexivity].
Qed.

Lemma txn_slot lg L i n : txn lg L → L !! i = Some n → is_block (l_start lg + Z.of_nat i + 1).
Proof.
  intros Ht Hn%lookup_lt_Some. pose proof (t_start _ _ Ht). pose proof (t_max _ _ Ht).
  unfold is_block, LOGSIZE, MAXOPBLOCKS in *. lia.
Qed.
Lemma txn_home lg L i n : txn lg L → L !! i = Some n → is_block n.
Proof. intros Ht Hn%list_elem_of_lookup_2. apply (t_range _ _ Ht n Hn). Qed.

Lemma write_log_run w p L :
  active w p → bstore w p (pins L) [] → txn (w_log w) L →
  let t := wl_writes (l_start (w_log w)) (view w) L in
  ∃ w', runs write_log w tt w' ∧ bstep w w' ∧ bstore w' p (pins L) [] ∧
    view w' = apply_writes t (view w) ∧ w_disk w' = apply_writes t (w_disk w) ∧ w_dtrace w' = w_dtrace w ++ t.
Proof.
  intros Hact Hs Ht t. set (lg := w_log w) in *.
  set (tk := λ i, wl_writes (l_start lg) (view w) (take i L)).
  unfold write_log, get_log at 1.
  destruct (runs_count (λ i v, bstep w v ∧ bstore v p (pins L) [] ∧ view v = apply_writes (tk i) (view w) ∧
      w_disk v = apply_writes (tk i) (w_disk w) ∧ w_dtrace v = w_dtrace w ++ tk i) (length L)
    (λ tail, lg <- get_log ;;
      to <- bread (u32 (l_dev lg)) (u32 (l_start lg + tail + 1)) ;;
      from <- bread (u32 (l_dev lg)) (u32 (l_block lg tail)) ;;
      src <- get_buf from ;;
      upd_data to (λ d, mem_copy d 0 (b_data src) 0 BSIZE) ;;
      bwrite to ;; brelse from ;; brelse to) w) as (w' & E & I).
  - split_and!; [reflexivity|done|done|done|]. by rewrite app_nil_r.
  - intros i v Hi (S1 & B1 & V1 & D1 & T1). destruct (lookup_lt_is_Some_2 L i Hi) as [n Hn].
    destruct (txn_step lg L i n Ht Hn) as (Ea & En & Hne & Hout & Hin & Ed).
    pose proof (bstep_log _ _ S1) as Elog. fold lg in Elog.
    set (a := l_start lg + Z.of_nat i + 1) in *.
    assert (Hva : view v a = view w a).
    { rewrite V1. apply apply_other. intros Hk%wl_keys. rewrite length_take in Hk. lia. }
    assert (Hvn : view v n = view w n).
    { rewrite V1. apply apply_other. intros Hk%wl_keys. rewrite length_take in Hk.
      destruct (t_range _ _ Ht n Hin) as [_ Hno]. pose proof (t_max _ _ Ht). lia. }
    destruct (write_log_one v p (pins L) a n (u32 (l_dev lg))) as (v' & E' & S' & B' & V' & D' & T').
    + by eapply bstep_active. + done. + by apply (txn_slot lg L i n). + by apply (txn_home lg L i n).
    + done. + done. + by apply pins_out. + by apply pins_in.
    + apply pins_room, (t_max _ _ Ht).
    + cbv zeta in *. rewrite Hva, Hvn in *. exists v'.
      assert (Etk : tk (S i) = tk i ++ [(a, copy_block (view w a) (view w n))]) by (unfold tk, wl_writes; by rewrite (imap_take_S _ L i n Hn)).
      rewrite Etk. split_and!; [|by rewrite S1|done|by rewrite V', V1, apply_app|by rewrite D', D1, apply_app|by rewrite T', T1, app_assoc].
      unfold get_log. rsteps. rewrite Elog. fold a. rewrite Ea, En. exact E'.
  - exists w'. split; [rsteps; fold lg; rewrite (t_n _ _ Ht); exact E|].
    unfold tk in I. rewrite take_ge in I by done. tauto.
Qed.

(** The references while install_trans runs, when each block of [L] had [r] of
    them before and the first [i] are done. *)
Definition inst_refs (r : Z) (L : list Z) (i : nat) : Z → Z := λ n,
  if bool_decide (n ∈ take i L) then u32 (r - 1) else if bool_decide (n ∈ L) then r else 0.

Lemma take_in {A} (x : A) i L : x ∈ take i L → x ∈ L.
Proof. intros Hx. rewrite <-(take_drop i L). apply elem_of_app. by left. Qed.

Lemma inst_refs_room r L i : (i < length L)%nat → Z.of_nat (length L) < NBUF → r = 0 ∨ r = 1 →
  room (inst_refs r L i) [] ∧ (room2 (inst_refs r L i) ∨ r ≠ 0).
Proof.
  intros Hi Hlen Hr. split.
  - exists L. split; [done|]. intros n [Hn|Hn]; [|set_solver]. unfold inst_refs in Hn.
    destruct (bool_decide_reflect (n ∈ take i L)) as [Ht|Ht].
    + by eapply take_in.
    + by destruct (bool_decide_reflect (n ∈ L)).
  - destruct Hr as [->|Hr]; [left|right; lia]. exists (take i L). split; [rewrite length_take; lia|].
    intros n Hn. unfold inst_refs in Hn. destruct (bool_decide_reflect (n ∈ take i L)) as [Ht|Ht]; [done|].
    by destruct (bool_decide_reflect (n ∈ L)).
Qed.

Lemma NoDup_take_nth {A} (L : list A) i n : NoDup L → L !! i = Some n → n ∉ take i L.
Proof.
  intros Hnd Hi Hin. apply list_elem_of_lookup_1 in Hin as [j Hj]. apply lookup_take_Some in Hj as [Hj Hlt].
  pose proof (NoDup_lookup _ _ _ _ Hnd Hi Hj). lia.
Qed.

Lemma inst_refs_step r L i n : NoDup L → L !! i = Some n →
  <[n := u32 (inst_refs r L i n - 1)]> (inst_refs r L i) = inst_refs r L (S i) ∧ inst_refs r L i n = r.
Proof.
  intros Hnd Hi. assert (Hin : n ∈ L) by (by eapply list_elem_of_lookup_2).
  assert (Hr : inst_refs r L i n = r).
  { unfold inst_refs. rewrite bool_decide_false by (by apply NoDup_take_nth). by rewrite bool_decide_true. }
  rewrite Hr. split; [|done]. extensionality m. unfold inst_refs at 2. rewrite (take_S_r _ _ _ Hi).
  destruct (decide (m = n)) as [->|Hne].
  - rewrite fn_lookup_insert, bool_decide_true by set_solver. done.
  - rewrite fn_lookup_insert_ne by done. unfold inst_refs.
    rewrite (bool_decide_ext (m ∈ take i L ++ [n]) (m ∈ take i L)) by set_solver. done.
Qed.

Lemma install_run w p L r :
  active w p → bstore w p (inst_refs r L 0) [] → txn (w_log w) L → r = 0 ∨ r = 1 →
  let t := inst_writes (l_start (w_log w)) (view w) L in
  ∃ w', runs install_trans w tt w' ∧ bstep w w' ∧ bstore w' p (inst_refs r L (length L)) [] ∧
    view w' = apply_writes t (view w) ∧ w_disk w' = apply_writes t (w_disk w) ∧ w_dtrace w' = w_dtrace w ++ t.
Proof.
  intros Hact Hs Ht Hr t. set (lg := w_log w) in *.
  set (tk := λ i, inst_writes (l_start lg) (view w) (take i L)).
  destruct (runs_count (λ i v, bstep w v ∧ bstore v p (inst_refs r L i) [] ∧ view v = apply_writes (tk i) (view w) ∧
      w_disk v = apply_writes (tk i) (w_disk w) ∧ w_dtrace v = w_dtrace w ++ tk i) (length L)
    (λ tail, lg <- get_log ;;
      lbuf <- bread (u32 (l_dev lg)) (u32 (l_start lg + tail + 1)) ;;
      dbuf <- bread (u32 (l_dev lg)) (u32 (l_block lg tail)) ;;
      src <- get_buf lbuf ;;
      upd_data dbuf (λ d, mem_copy d 0 (b_data src) 0 BSIZE) ;;
      bwrite dbuf ;; bunpin dbuf ;; brelse lbuf ;; brelse dbuf) w) as (w' & E & I).
  - split_and!; [reflexivity|done|done|done|]. by rewrite app_nil_r.
  - intros i v Hi (S1 & B1 & V1 & D1 & T1). destruct (lookup_lt_is_Some_2 L i Hi) as [n Hn].
    destruct (txn_step lg L i n Ht Hn) as (Ea & En & Hne & Hout & Hin & Ed).
    pose proof (bstep_log _ _ S1) as Elog. fold lg in Elog.
    set (a := l_start lg + Z.of_nat i + 1) in *.
    assert (Hva : view v a = view w a).
    { rewrite V1. apply apply_other. unfold tk. rewrite inst_keys. intros Hk. by apply Hout, (take_in _ _ _ Hk). }
    assert (Hvn : view v n = view w n).
    { rewrite V1. apply apply_other. unfold tk. rewrite inst_keys. apply NoDup_take_nth; [apply (t_nodup _ _ Ht)|done]. }
    destruct (inst_refs_step r L i n (t_nodup _ _ Ht) Hn) as [ER Erf].
    destruct (inst_refs_room r L i Hi (t_max _ _ Ht) Hr) as [Hroom Hroom2].
    destruct (install_one v p (inst_refs r L i) a n (u32 (l_dev lg))) as (v' & E' & S' & B' & V' & D' & T');
      [by eapply bstep_active|done|by apply (txn_slot lg L i n)|by apply (txn_home lg L i n)|done|done| |by rewrite Erf|done|by rewrite Erf|].
    { unfold inst_refs. rewrite !bool_decide_false; [done|done|]. intros Hk. by apply Hout, (take_in _ _ _ Hk). }
    cbv zeta in *. rewrite ER, Hva, Hvn in *. exists v'.
    assert (Etk : tk (S i) = tk i ++ [(n, copy_block (view w n) (view w a))]) by (unfold tk, inst_writes; by rewrite (imap_take_S _ L i n Hn)).
    rewrite Etk. split_and!; [|by rewrite S1|done|by rewrite V', V1, apply_app|by rewrite D', D1, apply_app|by rewrite T', T1, app_assoc].
    unfold get_log. rsteps. rewrite Elog. fold a. rewrite Ea, En. exact E'.
  - exists w'. split; [unfold install_trans, get_log at 1; rsteps; fold lg; rewrite (t_n _ _ Ht); exact E|].
    unfold tk in I. rewrite take_ge in I by done. tauto.
Qed.

End Passes.

(** ** commit *)

Definition home_writes (V : Z → bytes) (L : list Z) : list (Z * bytes) := (λ n, (n, V n)) <$> L.

(** Everything commit writes, in order: the log, the header, the blocks, the
    header again. *)
Definition commit_writes (ls : Z) (V : Z → bytes) (blk : Z → Z) (L : list Z) : list (Z * bytes) :=
  let h := put_head (Z.of_nat (length L)) blk (V ls) in
  wl_writes ls V L ++ [(ls, h)] ++ home_writes V L ++ [(ls, st32 h 0 0)].

Lemma copy_copy d x : copy_block d (copy_block x d) = d.
Proof.
  extensionality i. unfold copy_block. destruct (decide (0 ≤ i < 0 + BSIZE)).
  - rewrite !mem_copy_in by lia. f_equal. lia.
  - by rewrite mem_copy_out.
Qed.

Lemma wl_nodup ls V L : NoDup (wl_writes ls V L).*1.
Proof.
  unfold wl_writes. rewrite fmap_imap. apply NoDup_alt. intros i j x.
  rewrite !list_lookup_imap. destruct (L !! i), (L !! j); cbn; try done. intros [= <-] [= E]. lia.
Qed.

Lemma wl_lookup ls V L d i n : L !! i = Some n →
  apply_writes (wl_writes ls V L) d (ls + Z.of_nat i + 1) = copy_block (V (ls + Z.of_nat i + 1)) (V n).
Proof.
  intros Hi. apply apply_in; [apply wl_nodup|]. unfold wl_writes. apply list_elem_of_lookup. exists i.
  by rewrite list_lookup_imap, Hi.
Qed.

(** With the log written, installing writes the blocks themselves. *)
Lemma inst_home ls V h L :
  (∀ n, n ∈ L → n ≠ ls ∧ ¬ (ls < n ≤ ls + Z.of_nat (length L))) →
  inst_writes ls (<[ls := h]> (apply_writes (wl_writes ls V L) V)) L = home_writes V L.
Proof.
  intros HL. unfold inst_writes, home_writes. apply list_eq. intros i. rewrite list_lookup_imap, list_lookup_fmap.
  destruct (L !! i) as [n|] eqn:Hi; [|done]. cbn. do 2 f_equal.
  destruct (HL n) as [Hn Hno]; [by eapply list_elem_of_lookup_2|].
  rewrite !fn_lookup_insert_ne by lia. rewrite (wl_lookup _ _ _ _ _ _ Hi), apply_other by (intros Hk%wl_keys; lia).
  apply copy_copy.
Qed.

Lemma put_head_0 blk d : put_head 0 blk d = st32 d 0 0.
Proof. done. Qed.

Lemma commit_run `{Disk} w p L :
  active w p → bstore w p (pins L) [] → txn (w_log w) L → L ≠ [] →
  let ls := l_start (w_log w) in
  let t := commit_writes ls (view w) (l_block (w_log w)) L in
  ∃ w', runs commit w tt w' ∧ bstep (set_log (set_l_n 0 (w_log w)) w) w' ∧ bstore w' p (λ _, 0) [] ∧
    view w' = apply_writes t (view w) ∧ w_disk w' = apply_writes t (w_disk w) ∧ w_dtrace w' = w_dtrace w ++ t.
Proof.
  intros Hact Hs Ht HL ls t. pose proof (t_max _ _ Ht) as Hmax. pose proof (t_start _ _ Ht) as Hst. fold ls in Hst.
  assert (Els : u32 (l_start (w_log w)) = ls) by (apply u32_small; unfold ls in *; lia).
  assert (Hblk : is_block ls) by (unfold is_block, LOGSIZE, MAXOPBLOCKS in *; lia).
  assert (Edev : u32 (l_dev (w_log w)) = ROOTDEV) by (by rewrite (t_dev _ _ Ht)).
  assert (HLs : ∀ n, n ∈ L → n ≠ ls ∧ ¬ (ls < n ≤ ls + Z.of_nat (length L))).
  { intros n Hn. destruct (t_range _ _ Ht n Hn) as [_ Hno]. fold ls in Hno. lia. }
  assert (Hls : ls ∉ L) by (intros Hin; by destruct (HLs _ Hin)).
  destruct (write_log_run w p L Hact Hs Ht) as (w1 & E1 & S1 & B1 & V1 & D1 & T1). fold ls in V1, D1, T1.
  pose proof (bstep_active _ _ _ S1 Hact) as Hact1. pose proof (bstep_log _ _ S1) as G1.
  destruct (write_head_run w1 p (pins L) ls Hact1 B1 Hblk) as (w2 & E2 & S2 & B2 & V2 & D2 & T2);
    [by rewrite G1|by rewrite G1|by apply pins_out|by apply pins_room|].
  pose proof (bstep_active _ _ _ S2 Hact1) as Hact2. pose proof (bstep_log _ _ S2) as G2. rewrite G1 in G2.
  assert (Ev1 : view w1 ls = view w ls) by (rewrite V1; apply apply_other; intros Hk%wl_keys; lia).
  cbv zeta in *. rewrite G1, Ev1, (t_n _ _ Ht) in V2, D2, T2.
  set (h := put_head (Z.of_nat (length L)) (l_block (w_log w)) (view w ls)) in *.
  assert (B2' : bstore w2 p (inst_refs 1 L 0) []) by exact B2.
  destruct (install_run w2 p L 1 Hact2 B2') as (w3 & E3 & S3 & B3 & V3 & D3 & T3); [by rewrite G2|by right|].
  pose proof (bstep_active _ _ _ S3 Hact2) as Hact3. pose proof (bstep_log _ _ S3) as G3.
  cbv zeta in *. rewrite G2 in V3, D3, T3, G3. fold ls in V3, D3, T3.
  rewrite V2, V1, (inst_home ls (view w) h L HLs) in V3, D3, T3.
  set (w3' := set_log (set_l_n 0 (w_log w3)) w3).
  assert (B3' : bstore w3' p (λ _, 0) []).
  { apply (bstore_frame w3); try done. replace (λ _ : Z, 0) with (inst_refs 1 L (length L)); [done|].
    extensionality n. unfold inst_refs. rewrite take_ge by done. by case_bool_decide. }
  destruct (write_head_run w3' p (λ _, 0) ls) as (w4 & E4 & S4 & B4 & V4 & D4 & T4);
    [exact Hact3|done|done|unfold w3'; rsimpl; by rewrite G3|unfold w3'; rsimpl; by rewrite G3|done|exists []; split; [done|set_solver]|].
  cbv zeta in *. change (view w3') with (view w3) in *. change (w_disk w3') with (w_disk w3) in *.
  change (w_dtrace w3') with (w_dtrace w3) in *. change (l_n (w_log w3')) with 0 in *. rewrite put_head_0 in *.
  assert (Ev3 : view w3 ls = h).
  { rewrite V3, apply_other by (unfold home_writes; rewrite <-list_fmap_compose; cbn; by rewrite list_fmap_id).
    apply fn_lookup_insert. }
  rewrite Ev3 in V4, D4, T4. exists w4. split_and!.
  - unfold commit, get_log. rsteps. rewrite (t_n _ _ Ht).
    destruct (Z.gtb_spec (Z.of_nat (length L)) 0); [|destruct L; cbn in *; [done|lia]].
    rsteps. eapply runs_bind; [exact E1|]. eapply runs_bind; [exact E2|]. eapply runs_bind; [exact E3|].
    unfold upd_log. rsteps. exact E4.
  - destruct S1 as (f1 & s1 & d1 & t1 & -> & K1), S2 as (f2 & s2 & d2 & t2 & -> & K2), S3 as (f3 & s3 & d3 & t3 & -> & K3).
    destruct S4 as (f4 & s4 & d4 & t4 & -> & K4). exists f4, s4, d4, t4. split; [reflexivity|].
    intros ip. rewrite K4. unfold w3'. rsimpl. by rewrite K3, K2, K1.
  - exact B4.
  - unfold t, commit_writes. rewrite V4, V3, !apply_app. done.
  - unfold t, commit_writes. rewrite D4, D3, D2, D1, !apply_app. done.
  - unfold t, commit_writes. by rewrite T4, T3, T2, T1, <-!app_assoc.
Qed.
