(* ===== verification/Recover.v ===== *)
(** * Crash recovery

    Recovery as a function on disks, that recover_from_log computes; crash safety
    of commit and of recovery itself; and what install_trans's unconditional
    bunpin does to the buffer cache after a recovery. *)

From S2P Require Import Prelude Types StringC Spinlock Sched Sleeplock Run Bio Cache BioProps Log.

(** ** Blocks *)

(** A block is its first BSIZE bytes. *)
Definition same_block (d d' : bytes) : Prop := ∀ x, 0 ≤ x < BSIZE → d x = d' x.
Infix "≈b" := same_block (at level 70) : xv6_scope.

#[export] Instance same_block_equiv : Equivalence same_block.
Proof.
  split; [done|intros d d' E x Hx; symmetry; by apply E|].
  intros d1 d2 d3 E1 E2 x Hx. by rewrite E1, E2.
Qed.

Lemma copy_same d s : copy_block d s ≈b s.
Proof. intros x Hx. unfold copy_block. rewrite mem_copy_in by lia. f_equal. lia. Qed.

#[export] Instance copy_block_proper : Proper (same_block ==> same_block ==> same_block) copy_block.
Proof. intros d d' _ s s' E. by rewrite !copy_same. Qed.

(** ** The header block: a round trip *)

Lemma put_blocks_ld blk l d a :
  (∀ j, j ∈ l → a + 4 ≤ 4 + 4 * j ∨ 8 + 4 * j ≤ a) → ld32 (foldl (put_block blk) d l) a = ld32 d a.
Proof.
  revert d. induction l as [|j l IH]; intros d Hl; [done|]. cbn. rewrite IH by (intros; apply Hl; by right).
  unfold put_block. apply ld_st_ne; [lia|]. destruct (Hl j); [by left|lia..].
Qed.

Lemma lh_n_put n blk d : 0 ≤ n < 2 ^ 31 → lh_n (put_head n blk d) = n.
Proof.
  intros Hn. unfold lh_n, put_head. rewrite put_blocks_ld by (intros j Hj%elem_of_seqZ; lia).
  unfold ld32, st32. rewrite ld_st_eq, Z.mod_small by lia. apply i32_small. lia.
Qed.

Lemma lh_block_put n blk d i : 0 ≤ i < n → - 2 ^ 31 ≤ blk i < 2 ^ 31 → lh_block (put_head n blk d) i = blk i.
Proof.
  intros Hi Hb. unfold lh_block, put_head.
  assert (Hin : i ∈ seqZ 0 n) by (apply elem_of_seqZ; lia).
  apply list_elem_of_split in Hin as (l1 & l2 & El).
  pose proof (NoDup_seqZ 0 n) as Hnd. rewrite El in Hnd |- *. apply NoDup_app in Hnd as (_ & _ & Hnd).
  apply NoDup_cons in Hnd as [Hi2 _].
  rewrite foldl_app. cbn [foldl]. rewrite put_blocks_ld.
  - unfold put_block, ld32, st32. rewrite ld_st_eq by lia. unfold i32.
    rewrite Zplus_mod_idemp_l. rewrite (Z.mod_small (_ + _)) by lia. lia.
  - intros j Hj. assert (j ≠ i) by (by intros ->). lia.
Qed.

(** The block numbers of a header. *)
Definition lh_list (h : bytes) : list Z := lh_block h <$> seqZ 0 (lh_n h).

Lemma lh_list_put blk d L :
  Z.of_nat (length L) < 2 ^ 31 → (∀ i n, L !! i = Some n → blk (Z.of_nat i) = n) →
  (∀ n, n ∈ L → 0 ≤ n < 2 ^ 31) → lh_list (put_head (Z.of_nat (length L)) blk d) = L.
Proof.
  intros Hlen Hblk HL. unfold lh_list. rewrite lh_n_put by lia. apply list_eq. intros i.
  rewrite list_lookup_fmap. destruct (L !! i) as [n|] eqn:Hi.
  - assert (Hs : seqZ 0 (Z.of_nat (length L)) !! i = Some (Z.of_nat i)).
    { apply lookup_seqZ. pose proof (lookup_lt_Some _ _ _ Hi). lia. }
    rewrite Hs. cbn. f_equal. assert (0 ≤ n < 2 ^ 31) by (apply HL; by eapply list_elem_of_lookup_2).
    rewrite lh_block_put; [by apply Hblk|apply lookup_lt_Some in Hi; lia|rewrite (Hblk i n Hi); lia].
  - apply lookup_ge_None in Hi. rewrite (lookup_ge_None_2 (seqZ _ _)); [done|]. rewrite length_seqZ. lia.
Qed.

Lemma lh_list_0 h : lh_n h = 0 → lh_list h = [].
Proof. intros E. unfold lh_list. by rewrite E. Qed.

(** ** Recovery as a function on disks *)

Definition recover (ls : Z) (d : Z → bytes) : Z → bytes :=
  <[ls := st32 (d ls) 0 0]> (apply_writes (inst_writes ls d (lh_list (d ls))) d).

(** Blocks outside the log. *)
Definition outside (ls n : Z) : Prop := ¬ (ls ≤ n < ls + LOGSIZE).

(** What recovery gives outside the log: the logged copy of a block of the
    header, any other block as it is. *)
Lemma recover_other ls d n : outside ls n → n ∉ lh_list (d ls) → recover ls d n = d n.
Proof.
  intros Ho Hn. unfold recover. rewrite fn_lookup_insert_ne by (unfold outside, LOGSIZE, MAXOPBLOCKS in Ho; lia).
  apply apply_other. by rewrite inst_keys.
Qed.

Lemma recover_logged ls d i n :
  outside ls n → NoDup (lh_list (d ls)) → lh_list (d ls) !! i = Some n → recover ls d n ≈b d (ls + Z.of_nat i + 1).
Proof.
  intros Ho Hnd Hi. unfold recover. rewrite fn_lookup_insert_ne by (unfold outside, LOGSIZE, MAXOPBLOCKS in Ho; lia).
  rewrite (apply_in _ _ n (copy_block (d n) (d (ls + Z.of_nat i + 1)))); [apply copy_same|by rewrite inst_keys|].
  unfold inst_writes. apply list_elem_of_lookup. exists i. by rewrite list_lookup_imap, Hi.
Qed.

(** ** Crash safety of commit *)

Lemma take_app_cases {A} (k : nat) (l1 l2 : list A) :
  take k (l1 ++ l2) = take k l1 ∨ ∃ j, take k (l1 ++ l2) = l1 ++ take j l2.
Proof.
  destruct (decide (k ≤ length l1)%nat).
  - left. by apply take_app_le.
  - right. exists (k - length l1)%nat. apply take_app_ge. lia.
Qed.

Section Commit.
Context (ls : Z) (V d : Z → bytes) (lg : logstate) (L : list Z).
Hypothesis Ht : txn lg L.
Hypothesis Els : l_start lg = ls.
Hypothesis Hidle : lh_n (d ls) = 0.
Hypothesis Hclean : ∀ n, n ∉ L → V n = d n.

Let h := put_head (Z.of_nat (length L)) (l_block lg) (V ls).

Lemma L_out n : n ∈ L → outside ls n.
Proof. intros Hn. destruct (t_range _ _ Ht n Hn) as [_ Ho]. by rewrite Els in Ho. Qed.

Lemma L_ls : ls ∉ L.
Proof. intros Hn. apply L_out in Hn. unfold outside, LOGSIZE, MAXOPBLOCKS in Hn. lia. Qed.

Lemma h_list : lh_list h = L.
Proof.
  apply lh_list_put; [pose proof (t_max _ _ Ht); unfold LOGSIZE, MAXOPBLOCKS in *; lia|apply (t_block _ _ Ht)|].
  intros n Hn. by destruct (t_range _ _ Ht n Hn).
Qed.

(** Before the header is written: the old blocks. *)
Lemma crash_before t n :
  (∀ m, m ∈ t.*1 → ls < m ≤ ls + Z.of_nat (length L)) → outside ls n → recover ls (apply_writes t d) n ≈b d n.
Proof.
  intros Hk Ho. pose proof (t_max _ _ Ht) as Hmax.
  assert (E : apply_writes t d ls = d ls) by (apply apply_other; intros Hin; specialize (Hk _ Hin); lia).
  rewrite recover_other; [|done|rewrite E, lh_list_0 by done; set_solver].
  rewrite apply_other; [done|]. intros Hin. specialize (Hk _ Hin). unfold outside in Ho. lia.
Qed.

(** From then on, whatever part of the blocks has been installed: the new ones. *)
Lemma crash_after j n :
  outside ls n → recover ls (apply_writes (take j (home_writes V L)) (<[ls := h]> (apply_writes (wl_writes ls V L) d))) n ≈b V n.
Proof.
  intros Ho. set (d' := apply_writes (take j _) _). pose proof (t_max _ _ Ht) as Hmax.
  assert (Hkeys : ∀ m, m ∈ (take j (home_writes V L)).*1 → m ∈ L).
  { intros m. rewrite fmap_take. unfold home_writes. rewrite <-list_fmap_compose. intros Hm%take_in.
    apply list_elem_of_fmap in Hm as (y & -> & Hy). done. }
  assert (Eh : d' ls = h).
  { unfold d'. rewrite apply_other by (intros Hin%Hkeys; by apply L_ls). apply fn_lookup_insert. }
  destruct (decide (n ∈ L)) as [Hin|Hout].
  - apply list_elem_of_lookup_1 in Hin as [i Hi].
    assert (Hlt : (i < length L)%nat) by (by eapply lookup_lt_Some).
    rewrite (recover_logged ls d' i n Ho); rewrite ?Eh, ?h_list; [|apply (t_nodup _ _ Ht)|done].
    unfold d'. rewrite apply_other.
    + rewrite fn_lookup_insert_ne by lia. rewrite (wl_lookup _ _ _ _ _ _ Hi). apply copy_same.
    + intros Hin%Hkeys%L_out. unfold outside in Hin. lia.
  - rewrite recover_other; [|done|by rewrite Eh, h_list]. unfold d'.
    rewrite apply_other by (by intros Hin%Hkeys).
    unfold outside, LOGSIZE, MAXOPBLOCKS in *. rewrite fn_lookup_insert_ne by lia.
    rewrite apply_other by (intros Hk%wl_keys; lia). by rewrite Hclean.
Qed.

Lemma home_all n : n ∉ L → V n = d n → apply_writes (home_writes V L) d n = V n.
Proof.
  intros Hn E. rewrite apply_other; [done|]. unfold home_writes. rewrite <-list_fmap_compose. cbn. by rewrite list_fmap_id.
Qed.

(** When everything is written. *)
Lemma crash_done n : outside ls n → recover ls (apply_writes (commit_writes ls V (l_block lg) L) d) n = V n ∧
  apply_writes (commit_writes ls V (l_block lg) L) d n = V n.
Proof.
  intros Ho. unfold commit_writes. fold h. set (d' := apply_writes _ d). pose proof (t_max _ _ Ht) as Hmax.
  assert (Eh : lh_n (d' ls) = 0).
  { unfold d'. rewrite !apply_app. cbn. rewrite fn_lookup_insert. unfold lh_n, ld32, st32. by rewrite ld_st_eq by lia. }
  assert (E : d' n = V n).
  { unfold d'. rewrite !apply_app. unfold apply_writes at 1. cbn [foldl fst snd].
    unfold outside, LOGSIZE, MAXOPBLOCKS in *. rewrite fn_lookup_insert_ne by lia.
    assert (Hnd : NoDup (home_writes V L).*1).
    { unfold home_writes. rewrite <-list_fmap_compose. cbn. rewrite list_fmap_id. apply (t_nodup _ _ Ht). }
    destruct (decide (n ∈ L)) as [Hin|Hout].
    - apply apply_in; [done|]. apply list_elem_of_fmap. by exists n.
    - rewrite apply_other by (unfold home_writes; rewrite <-list_fmap_compose; cbn; by rewrite list_fmap_id).
      cbn. rewrite fn_lookup_insert_ne by lia. rewrite apply_other by (intros Hk%wl_keys; lia). by rewrite Hclean. }
  split; [|done]. rewrite recover_other; [done|done|]. rewrite lh_list_0 by done. set_solver.
Qed.

Lemma commit_atomic k :
  let d' := apply_writes (take k (commit_writes ls V (l_block lg) L)) d in
  (∀ n, outside ls n → recover ls d' n ≈b d n) ∨ (∀ n, outside ls n → recover ls d' n ≈b V n).
Proof.
  intros d'. unfold d', commit_writes. fold h.
  destruct (take_app_cases k (wl_writes ls V L) ([(ls, h)] ++ home_writes V L ++ [(ls, st32 h 0 0)])) as [->|[j ->]].
  { left. intros n Ho. apply crash_before; [|done]. intros m Hm. rewrite fmap_take in Hm. by apply take_in, wl_keys in Hm. }
  destruct j as [|j].
  { left. intros n Ho. apply crash_before; [|done]. intros m. cbn [take]. rewrite app_nil_r. apply wl_keys. }
  right. intros n Ho. change (take (S j) ([(ls, h)] ++ ?x)) with ((ls, h) :: take j x).
  destruct (take_app_cases j (home_writes V L) [(ls, st32 h 0 0)]) as [->|[[|i] ->]].
  - rewrite apply_app. by apply crash_after.
  - rewrite apply_app. cbn [take]. rewrite app_nil_r, <-(take_ge (home_writes V L) (length (home_writes V L))) by done.
    by apply crash_after.
  - cbn [take]. destruct (crash_done n Ho) as [E _]. unfold commit_writes in E. fold h in E. cbn [app] in E.
    replace (take i []) with (@nil (Z * bytes)) by (by destruct i). by rewrite E.
Qed.
End Commit.

(** ** Crash safety of recovery itself *)

(** A header that a commit may have left. *)
Record head_ok (ls : Z) (h : bytes) : Prop := {
  ho_n : 0 ≤ lh_n h < LOGSIZE;
  ho_nodup : NoDup (lh_list h);
  ho_range n : n ∈ lh_list h → 0 ≤ n < 2 ^ 31 ∧ outside ls n
}.

Definition recover_writes (ls : Z) (d : Z → bytes) : list (Z * bytes) :=
  inst_writes ls d (lh_list (d ls)) ++ [(ls, st32 (d ls) 0 0)].

Lemma recover_apply ls d : apply_writes (recover_writes ls d) d = recover ls d.
Proof. unfold recover_writes. by rewrite apply_app. Qed.

Lemma lh_length h : 0 ≤ lh_n h → Z.of_nat (length (lh_list h)) = lh_n h.
Proof. intros Hn. unfold lh_list. rewrite length_fmap, length_seqZ. lia. Qed.

Lemma recover_part ls d k n :
  head_ok ls (d ls) → outside ls n →
  recover ls (apply_writes (take k (inst_writes ls d (lh_list (d ls)))) d) n ≈b recover ls d n.
Proof.
  intros [Hn Hnd Hr] Ho. pose proof (lh_length (d ls) ltac:(lia)) as Hlen. set (L := lh_list (d ls)) in *.
  set (d' := apply_writes _ d).
  assert (Hkeys : ∀ m, m ∈ (take k (inst_writes ls d L)).*1 → m ∈ L).
  { intros m. rewrite fmap_take, inst_keys. apply take_in. }
  assert (Hin_out : ∀ m, m ∈ L → outside ls m) by (intros m Hm; by destruct (Hr m Hm)).
  assert (Hsame : ∀ m, m ∉ L → d' m = d m) by (intros m Hm; apply apply_other; by intros Hin%Hkeys).
  assert (Els : d' ls = d ls).
  { apply Hsame. intros Hin%Hin_out. unfold outside, LOGSIZE, MAXOPBLOCKS in Hin. lia. }
  destruct (decide (n ∈ L)) as [Hin|Hout].
  - apply list_elem_of_lookup_1 in Hin as [i Hi]. pose proof (lookup_lt_Some _ _ _ Hi) as Hlt.
    rewrite (recover_logged ls d' i n Ho) by (rewrite Els; done). rewrite (recover_logged ls d i n Ho) by done.
    rewrite Hsame; [done|]. intros Hin%Hin_out. unfold outside in Hin. lia.
  - rewrite (recover_other ls d' n Ho) by (by rewrite Els). rewrite (recover_other ls d n Ho) by done. by rewrite Hsame.
Qed.

(** Whatever part of a recovery was done before a crash, the next one gives the
    same blocks. *)
Lemma recover_again ls d k n :
  head_ok ls (d ls) → outside ls n → recover ls (apply_writes (take k (recover_writes ls d)) d) n ≈b recover ls d n.
Proof.
  intros Hok Ho. unfold recover_writes.
  destruct (take_app_cases k (inst_writes ls d (lh_list (d ls))) [(ls, st32 (d ls) 0 0)]) as [->|[[|j] ->]].
  - by apply recover_part.
  - cbn [take]. rewrite app_nil_r, <-(take_ge (inst_writes ls d (lh_list (d ls))) _ (le_n _)). by apply recover_part.
  - cbn [take]. replace (take j []) with (@nil (Z * bytes)) by (by destruct j).
    fold (recover_writes ls d). rewrite recover_apply. rewrite recover_other; [done|done|].
    rewrite lh_list_0; [set_solver|]. unfold recover. rewrite fn_lookup_insert.
    unfold lh_n, ld32, st32. by rewrite ld_st_eq by lia.
Qed.

(** ** The code *)

Section Code.
Context {D : DiskOps} {HD : Disk D}.

Definition head_loaded (h : bytes) (lg : logstate) : logstate :=
  set_l_block (λ i, if bool_decide (0 ≤ i < lh_n h) then lh_block h i else l_block lg i) (set_l_n (lh_n h) lg).

Lemma read_head_run w p R ls :
  active w p → bstore w p R [] → is_block ls → u32 (l_dev (w_log w)) = ROOTDEV → u32 (l_start (w_log w)) = ls →
  R ls = 0 → room R [] → 0 ≤ lh_n (view w ls) →
  ∃ w', runs read_head w tt w' ∧ bstep (set_log (head_loaded (view w ls) (w_log w)) w) w' ∧ bstore w' p R [] ∧
    view w' = view w ∧ w_disk w' = w_disk w ∧ w_dtrace w' = w_dtrace w.
Proof.
  intros Hact Hs Hblk Hdev Hls HR Hroom Hn. pose proof Hact as [Hq Hv]. set (h := view w ls) in *.
  destruct (st_bread w p R [] ls) as (b & w1 & E1 & [S1 _] & B1 & H1 & _ & V1 & D1 & T1); try done; [set_solver..|by right|lia|].
  rewrite HR in B1. pose proof (bstep_active _ _ _ S1 Hact) as [Hq1 Hv1].
  assert (Ed : b_data (w_bufs w1 b) = h) by (by rewrite (held_view _ _ _ _ _ _ B1 H1), V1).
  set (w2 := set_log (head_loaded h (w_log w)) w1).
  destruct (st_brelse w2 p (<[ls := 0 + 1]> R) [ls] [] b ls) as (w3 & E3 & [S3 _] & B3 & V3 & D3 & T3).
  { exact Hq1. } { by apply (bstore_frame w1). } { by apply (held_frame w1). } { done. }
  { intros _. change (view w1 ls = w_disk w1 ls). rewrite V1, D1. by apply (bstore_clean w p R []). }
  assert (Eloop : runs (for_each (seqZ 0 (lh_n h)) (λ i,
      bf <- get_buf b ;; upd_log (λ lg, set_l_block (<[i := lh_block (b_data bf) i]> (l_block lg)) lg)))
      (set_log (set_l_n (lh_n h) (w_log w)) w1) tt w2).
  { destruct (runs_count (λ i v, v = set_log (set_l_block (λ j, if bool_decide (0 ≤ j < Z.of_nat i) then lh_block h j
        else l_block (w_log w) j) (set_l_n (lh_n h) (w_log w))) w1) (Z.to_nat (lh_n h))
      (λ i, bf <- get_buf b ;; upd_log (λ lg, set_l_block (<[i := lh_block (b_data bf) i]> (l_block lg)) lg))
      (set_log (set_l_n (lh_n h) (w_log w)) w1)) as (w' & E & Ew).
    - assert (Ef : l_block (w_log w) = λ j, if bool_decide (0 ≤ j < Z.of_nat 0) then lh_block h j else l_block (w_log w) j).
      { extensionality j. by rewrite bool_decide_false by lia. }
      exact (f_equal (λ f, set_log (set_l_block f (set_l_n (lh_n h) (w_log w))) w1) Ef).
    - intros i v Hi ->. eexists. split; [unfold get_buf, upd_log; rsteps|]. rsimpl. rewrite Ed.
      refine (f_equal (λ f, set_log (set_l_block f (set_l_n (lh_n h) (w_log w))) w1) _).
      extensionality j. destruct (decide (Z.of_nat i = j)) as [<-|Hne].
      + rewrite fn_lookup_insert, bool_decide_true by lia. done.
      + rewrite fn_lookup_insert_ne by done. rewrite (bool_decide_ext (0 ≤ j < Z.of_nat (S i)) (0 ≤ j < Z.of_nat i)) by lia. done.
    - rewrite Z2Nat.id in E, Ew by done. subst w'. exact E. }
  exists w3. split_and!.
  - unfold read_head, get_log at 1. rsteps. rewrite Hdev, Hls. eapply runs_bind; [exact E1|].
    unfold get_buf at 1, upd_log at 1, get_log. rsteps. rewrite Ed, (bstep_log _ _ S1). rsimpl.
    eapply runs_bind; [exact Eloop|exact E3].
  - destruct S1 as (f1 & s1 & d1 & t1 & -> & K1), S3 as (f3 & s3 & d3 & t3 & -> & K3).
    exists f3, s3, d3, t3. split; [reflexivity|]. intros ip. rewrite K3. unfold w2. rsimpl. by rewrite K1.
  - revert B3. rewrite fn_lookup_insert, fn_insert_insert. change (u32 (0 + 1 - 1)) with 0. by rewrite fn_insert_same.
  - by rewrite V3.
  - by rewrite D3.
  - by rewrite T3.
Qed.

(** Where the log is. *)
Definition log_at (lg : logstate) (ls : Z) : Prop :=
  l_dev lg = ROOTDEV ∧ l_start lg = ls ∧ 0 ≤ ls ∧ ls + LOGSIZE < 2 ^ 31.

Lemma loaded_txn lg ls h : log_at lg ls → head_ok ls h → txn (head_loaded h lg) (lh_list h).
Proof.
  intros (Hd & Hs & H0 & Hmax) [Hn Hnd Hr]. pose proof (lh_length h ltac:(lia)) as Hlen.
  split; unfold head_loaded; rsimpl; try done.
  - by rewrite Hs.
  - lia.
  - intros i n Hi. unfold lh_list in Hi. rewrite list_lookup_fmap in Hi.
    destruct (seqZ 0 (lh_n h) !! i) as [j|] eqn:Hj; [|done]. injection Hi as <-.
    apply lookup_seqZ in Hj as [-> Hj]. by rewrite bool_decide_true by lia.
  - intros n Hin. rewrite Hs. by apply Hr.
Qed.

(** Every recovered block is left with this many references. *)
Definition leaked (L : list Z) : Z → Z := inst_refs 0 L (length L).

Lemma recover_run w p ls :
  active w p → bstore w p (λ _, 0) [] → log_at (w_log w) ls → head_ok ls (w_disk w ls) →
  ∃ w', runs recover_from_log w tt w' ∧ active w' p ∧ bstore w' p (leaked (lh_list (w_disk w ls))) [] ∧
    w_disk w' = recover ls (w_disk w) ∧ view w' = w_disk w' ∧
    w_dtrace w' = w_dtrace w ++ recover_writes ls (w_disk w) ∧ l_n (w_log w') = 0.
Proof.
  intros Hact Hs Hat Hok. pose proof Hat as (Hd & Hls & H0 & Hmax). pose proof (ho_n _ _ Hok) as Hn.
  assert (Eu : u32 (l_start (w_log w)) = ls) by (rewrite Hls; apply u32_small; unfold LOGSIZE, MAXOPBLOCKS in *; lia).
  assert (Hblk : is_block ls) by (unfold is_block, LOGSIZE, MAXOPBLOCKS in *; lia).
  assert (Ed : u32 (l_dev (w_log w)) = ROOTDEV) by (by rewrite Hd).
  assert (Hv : view w = w_disk w) by (extensionality n; by apply (bstore_clean w p (λ _, 0) [])).
  destruct (read_head_run w p (λ _, 0) ls) as (w1 & E1 & S1 & B1 & V1 & D1 & T1); try done;
    [exists []; split; [done|set_solver]|rewrite Hv; lia|].
  rewrite Hv in S1, V1. set (h := w_disk w ls) in *. set (L := lh_list h) in *.
  pose proof (bstep_log _ _ S1) as G1. rsimpl_in G1.
  assert (Hact1 : active w1 p) by exact (bstep_active _ _ _ S1 Hact).
  assert (Ht : txn (w_log w1) L) by (rewrite G1; by apply (loaded_txn _ ls)).
  assert (B1' : bstore w1 p (inst_refs 0 L 0) []).
  { replace (inst_refs 0 L 0) with (λ _ : Z, 0); [done|]. extensionality n. unfold inst_refs. rewrite take_0, bool_decide_false by set_solver. by case_bool_decide. }
  destruct (install_run w1 p L 0 Hact1 B1' Ht) as (w2 & E2 & S2 & B2 & V2 & D2 & T2); [by left|]. cbv zeta in *.
  assert (El1 : l_start (w_log w1) = ls) by (rewrite G1; exact Hls).
  rewrite El1, V1 in V2, D2, T2. rewrite D1 in D2. rewrite T1 in T2.
  pose proof (bstep_log _ _ S2) as G2. set (w2' := set_log (set_l_n 0 (w_log w2)) w2).
  assert (HlsL : ls ∉ L).
  { intros Hin. destruct (ho_range _ _ Hok ls Hin) as [_ Ho]. unfold outside, LOGSIZE, MAXOPBLOCKS in Ho. lia. }
  destruct (write_head_run w2' p (leaked L) ls) as (w3 & E3 & S3 & B3 & V3 & D3 & T3).
  { exact (bstep_active _ _ _ S2 Hact1). } { by apply (bstore_frame w2). } { done. }
  { unfold w2'. rsimpl. by rewrite G2, G1. } { unfold w2'. rsimpl. by rewrite G2, G1. }
  { unfold leaked, inst_refs. rewrite take_ge, bool_decide_false by done. done. }
  { exists L. split; [pose proof (t_max _ _ Ht); done|]. intros n [Hin|Hin]; [|set_solver]. unfold leaked, inst_refs in Hin.
    rewrite take_ge in Hin by done. by destruct (bool_decide_reflect (n ∈ L)). }
  cbv zeta in *. change (l_n (w_log w2')) with 0 in *. rewrite put_head_0 in *.
  change (view w2') with (view w2) in *. change (w_disk w2') with (w_disk w2) in *. change (w_dtrace w2') with (w_dtrace w2) in *.
  assert (Eh : view w2 ls = h) by (rewrite V2; apply apply_other; by rewrite inst_keys).
  rewrite Eh in V3, D3, T3.
  exists w3. split_and!; try done.
  - unfold recover_from_log. eapply runs_bind; [exact E1|]. eapply runs_bind; [exact E2|].
    unfold upd_log. rsteps. exact E3.
  - exact (bstep_active _ _ _ S3 (bstep_active _ _ _ S2 Hact1)).
  - by rewrite D3, D2.
  - by rewrite V3, D3, V2, D2.
  - rewrite T3, T2, <-app_assoc. done.
  - by rewrite (bstep_log _ _ S3).
Qed.
End Code.

(** ** The properties *)

Module WriteAhead.
Section Props.
Context {D : DiskOps} {HD : Disk D}.

(** Crash safety of commit.  A transaction [L] is in memory, its new blocks in the
    cache, and the log on the disk is empty.  commit runs to the end, leaves the
    new blocks in place and the log empty; and after any prefix of the block
    writes it made, recovery gives either all the old blocks or all the new ones. *)
Lemma commit_crash w p L ls :
  active w p → bstore w p (pins L) [] → txn (w_log w) L → L ≠ [] → l_start (w_log w) = ls →
  lh_n (w_disk w ls) = 0 →
  ∃ w' t, runs commit w tt w' ∧ w_dtrace w' = w_dtrace w ++ t ∧ w_disk w' = apply_writes t (w_disk w) ∧
    bstore w' p (λ _, 0) [] ∧ bstep (set_log (set_l_n 0 (w_log w)) w) w' ∧ lh_n (w_disk w' ls) = 0 ∧
    (∀ n, outside ls n → w_disk w' n = view w n ∧ view w' n = view w n) ∧
    ∀ k, let crashed := apply_writes (take k t) (w_disk w) in
      (∀ n, outside ls n → recover ls crashed n ≈b w_disk w n) ∨
      (∀ n, outside ls n → recover ls crashed n ≈b view w n).
Proof.
  intros Hact Hs Ht HL Hls Hidle.
  assert (Hcl : ∀ n, n ∉ L → view w n = w_disk w n).
  { intros n Hn. apply (bstore_clean w p (pins L) []); [done|by apply pins_out]. }
  destruct (commit_run w p L Hact Hs Ht HL) as (w' & E & S & B & V & Dk & T). rewrite Hls in V, Dk, T.
  eexists w', _. split_and!; [exact E|exact T|exact Dk|exact B|exact S| | |].
  - rewrite Dk. unfold commit_writes. rewrite !apply_app. cbn. rewrite fn_lookup_insert.
    unfold lh_n, ld32, st32. by rewrite ld_st_eq by lia.
  - intros n Ho. destruct (crash_done ls (view w) (w_disk w) (w_log w) L Ht Hls Hidle Hcl n Ho) as [_ Ed].
    rewrite Dk. split; [done|]. rewrite <-Ed, <-Dk. by apply (bstore_clean w' p (λ _, 0) []).
  - intros k. by apply (commit_atomic ls (view w) (w_disk w) (w_log w) L).
Qed.

(** C2: recover_from_log computes [recover] on the disk, for every header a commit may
    have left, and a crash after any prefix of its own writes does no harm: running
    it again gives the same blocks. *)
Theorem recovery_refines w p ls :
  active w p → bstore w p (λ _, 0) [] → log_at (w_log w) ls → head_ok ls (w_disk w ls) →
  ∃ w' t, runs recover_from_log w tt w' ∧ w_dtrace w' = w_dtrace w ++ t ∧
    w_disk w' = recover ls (w_disk w) ∧ (∀ n, view w' n = w_disk w' n) ∧ l_n (w_log w') = 0 ∧
    ∀ k n, outside ls n → recover ls (apply_writes (take k t) (w_disk w)) n ≈b recover ls (w_disk w) n.
Proof.
  intros Hact Hs Hat Hok. destruct (recover_run w p ls Hact Hs Hat Hok) as (w' & E & _ & _ & Dk & V & T & N).
  eexists w', _. split_and!; [exact E|exact T|exact Dk|by rewrite V|exact N|].
  intros k n Ho. by apply recover_again.
Qed.

(** C38: After a recovery the buffer of each recovered block has a reference count of
    2^32 - 1: install_trans drops a pin that recovery never took.  The next bread
    of the block hands out a locked buffer whose count is 0, the count of a buffer
    that bget may recycle. *)
Theorem recovery_underflows_refcnt w p ls n :
  active w p → bstore w p (λ _, 0) [] → log_at (w_log w) ls → head_ok ls (w_disk w ls) →
  n ∈ lh_list (w_disk w ls) →
  ∃ w' b w'', runs recover_from_log w tt w' ∧
    0 ≤ b < NBUF ∧ is_for n (w_bufs w' b) = true ∧ b_refcnt (w_bufs w' b) = 2 ^ 32 - 1 ∧
    runs (bread ROOTDEV n) w' b w'' ∧ held w'' p b n ∧ b_refcnt (w_bufs w'' b) = 0.
Proof.
  intros Hact Hs Hat Hok Hin. destruct (recover_run w p ls Hact Hs Hat Hok) as (w' & E & [Hq Hv] & B & Dk & V & T & N).
  set (L := lh_list (w_disk w ls)) in *.
  assert (HR : leaked L n = 2 ^ 32 - 1) by (unfold leaked, inst_refs; rewrite take_ge, bool_decide_true by done; done).
  destruct (bs_some _ _ _ _ B n) as (b & Hb & Hf & Hval); [by rewrite HR|].
  destruct (bs_inv _ _ _ _ B) as [l Hi]. pose proof (proj1 (for_spec _ _) Hf) as [Hdev Hno].
  assert (Hr : b_refcnt (w_bufs w' b) = 2 ^ 32 - 1) by (by rewrite (bs_ref _ _ _ _ B b Hb Hdev), Hno).
  assert (Hcl : clean w' b).
  { unfold clean. by rewrite Hno, <-V, (view_cached w' l b n). }
  assert (Ha : available w' l n b).
  { split_and!; [| |by right].
    - unfold pick, cached. destruct (find_exists (λ c, is_for n (w_bufs w' c)) l b) as [c Hc];
        [by apply (bio_in _ _ _ Hi)|done|]. rewrite Hc. f_equal. apply find_in in Hc as [Hc Hfc].
      apply (bio_in _ _ _ Hi) in Hc. by apply (bi_once _ _ Hi c b n).
    - destruct (sl_locked _) eqn:El; [|done]. destruct (bs_lock _ _ _ _ B b Hb El) as (m & Hm & _). set_solver. }
  exists w', b, (took p b n w'). split_and!; try done; [lia..| | |].
  - by apply (bread_run w' l); [..|apply (ho_range _ _ Hok)].
  - by apply (took_held w' l); [..|apply (ho_range _ _ Hok)].
  - unfold took, lock_buf. rsimpl. rewrite fn_lookup_insert. unfold loaded, gotten. rewrite Hf. rsimpl. by rewrite Hr.
Qed.
End Props.

(** *** Sample runs *)

Lemma no_room : room (λ _, 0) [].
Proof. exists []. split; [done|set_solver]. Qed.

(** Block 50 logged, the log starting at block 2. *)
Definition sample_log : logstate := mkLog 2 LOGSIZE 0 true ROOTDEV 1 (λ _, 50).

Lemma sample_txn : txn sample_log [50].
Proof.
  split; try done.
  - intros i n Hi. destruct i; cbn in Hi; [by injection Hi as <-|done].
  - intros n ->%list_elem_of_singleton. split; [lia|]. unfold LOGSIZE, MAXOPBLOCKS. cbn. lia.
  - apply NoDup_singleton.
Qed.

(** A disk whose log holds a committed transaction of block 50. *)
Definition crashed_disk : Z → bytes := <[2 := st32 (st32 zeroes 0 1) 4 50]> (λ _, zeroes).

Lemma crashed_head : head_ok 2 (crashed_disk 2).
Proof.
  assert (El : lh_list (crashed_disk 2) = [50]) by (vm_compute; reflexivity).
  split; rewrite ?El.
  - assert (lh_n (crashed_disk 2) = 1) as -> by (vm_compute; reflexivity). done.
  - apply NoDup_singleton.
  - intros n ->%list_elem_of_singleton. unfold outside, LOGSIZE, MAXOPBLOCKS. lia.
Qed.

Lemma booted : ∃ w, active (D := prompt_disk) w 1 ∧ bstore w 1 (λ _, 0) [] ∧ log_at (w_log w) 2 ∧ w_disk w = crashed_disk.
Proof.
  destruct (binit_store crashed_disk) as (w0 & Hs & Hq & Hd & Hv & _).
  exists (set_log sample_log w0). split_and!; [exact (conj Hq I)|by apply (bstore_frame w0)|done..].
Qed.

Lemma recovery_refines_witness :
  ∃ w w', runs (D := prompt_disk) (recover_from_log (H := prompt_disk)) w tt w' ∧ w_disk w' = recover 2 crashed_disk.
Proof.
  destruct booted as (w & Hact & Hs & Hat & Hd).
  destruct (recovery_refines (D := prompt_disk) w 1 2 Hact Hs Hat) as (w' & t & E & _ & Dk & _); [rewrite Hd; exact crashed_head|].
  exists w, w'. split; [exact E|]. by rewrite Dk, Hd.
Defined.

Lemma recovery_underflows_refcnt_witness :
  ∃ w b w'', runs (D := prompt_disk) (bread (H := prompt_disk) ROOTDEV 50) w b w'' ∧ held w'' 1 b 50 ∧ b_refcnt (w_bufs w'' b) = 0.
Proof.
  destruct booted as (w & Hact & Hs & Hat & Hd).
  destruct (recovery_underflows_refcnt (D := prompt_disk) w 1 2 50 Hact Hs Hat) as (w' & b & w'' & _ & _ & _ & _ & E & Hh & Hr).
  { rewrite Hd. exact crashed_head. }
  { rewrite Hd. assert (lh_list (crashed_disk 2) = [50]) as -> by (vm_compute; reflexivity). by left. }
  by exists w', b, w''.
Defined.
End WriteAhead.
