(* ===== verification/LogOps.v ===== *)
(** * begin_op, log_write and end_op

    What a file system operation sees of the log: a transaction [L] of blocks,
    each pinned in the cache, that log_write extends and the last end_op commits. *)

From S2P Require Import Prelude Types StringC Spinlock Sched Sleeplock Run Bio Cache BioProps Log Recover.

(** The log while [ops] operations are running and [L] is logged. *)
Record logging (w : world) (L : list Z) (ops : Z) : Prop := {
  lo_txn : txn (w_log w) L;
  lo_ops : l_outstanding (w_log w) = ops;
  lo_calm : l_committing (w_log w) = false;
  lo_size : l_size (w_log w) = LOGSIZE
}.

(** The transaction after log_write of block [n]. *)
Definition logged (L : list Z) (n : Z) : list Z := if bool_decide (n ∈ L) then L else L ++ [n].

(** A block a file system operation may log. *)
Definition loggable (w : world) (n : Z) : Prop := 0 ≤ n < 2 ^ 31 ∧ outside (l_start (w_log w)) n.

Lemma find_index (L : list Z) (lg : logstate) n :
  (∀ i m, L !! i = Some m → l_block lg (Z.of_nat i) = m ∧ 0 ≤ m < 2 ^ 31) →
  l_n lg = Z.of_nat (length L) →
  (n ∈ L → ∃ i, log_index lg n = Z.of_nat i ∧ L !! i = Some n) ∧
  (n ∉ L → log_index lg n = l_n lg).
Proof.
  intros HL Hn. unfold log_index. rewrite Hn.
  assert (Hin : ∀ j, j ∈ seqZ 0 (Z.of_nat (length L)) → ∃ m, j = Z.of_nat (Z.to_nat j) ∧ L !! Z.to_nat j = Some m).
  { intros j Hj%elem_of_seqZ. destruct (lookup_lt_is_Some_2 L (Z.to_nat j)) as [m Hm]; [lia|]. exists m. split; [lia|done]. }
  destruct (List.find _ _) as [j|] eqn:E.
  - apply find_in in E as [Hj Ej]. destruct (Hin j Hj) as (m & Ej' & Hm). destruct (HL _ _ Hm) as [Hb Hr].
    rewrite <-Ej' in Hb. cbv beta in Ej. rewrite Hb, u32_small in Ej by lia. apply Z.eqb_eq in Ej as ->.
    split; [intros _; exists (Z.to_nat j); split; [lia|done]|]. intros Hno. destruct Hno. by eapply list_elem_of_lookup_2.
  - split; [|lia]. intros Hm. apply list_elem_of_lookup_1 in Hm as [i Hi]. destruct (HL _ _ Hi) as [Hb Hr].
    assert (Hs : List.In (Z.of_nat i) (seqZ 0 (Z.of_nat (length L)))).
    { apply list_elem_of_In, elem_of_seqZ. apply lookup_lt_Some in Hi. lia. }
    pose proof (List.find_none _ _ E _ Hs) as Ef. cbv beta in Ef. rewrite Hb, u32_small in Ef by lia. lia.
Qed.

(** The log in memory after log_write of [n]. *)
Definition log_put (lg : logstate) (L : list Z) (n : Z) : logstate :=
  if bool_decide (n ∈ L) then lg
  else set_l_n (l_n lg + 1) (set_l_block (<[l_n lg := n]> (l_block lg)) lg).

Lemma log_put_txn lg L n :
  txn lg L → Z.of_nat (length L) + 1 < LOGSIZE → 0 ≤ n < 2 ^ 31 → outside (l_start lg) n → txn (log_put lg L n) (logged L n).
Proof.
  intros Ht Hlen Hn Ho. unfold log_put, logged. case_bool_decide as Hin; [done|].
  destruct Ht as [T1 T2 T3 T4 T5 T6 T7]. split; rsimpl; try done.
  - rewrite length_app, T3. cbn. lia.
  - rewrite length_app. cbn. lia.
  - intros i m Hi. apply lookup_app_Some in Hi as [Hi|[Hge Hi]].
    + rewrite fn_lookup_insert_ne; [by apply T5|]. apply lookup_lt_Some in Hi. lia.
    + apply list_lookup_singleton_Some in Hi as [Hz <-]. replace (Z.of_nat i) with (l_n lg) by lia. apply fn_lookup_insert.
  - intros m [Hm| ->%list_elem_of_singleton]%elem_of_app; [by apply T6|]. done.
  - apply NoDup_app. split_and!; [done| |apply NoDup_singleton]. set_solver.
Qed.

(** References of block [n] after log_write. *)
Definition pinned (R : Z → Z) (L : list Z) (n : Z) : Z → Z :=
  if bool_decide (n ∈ L) then R else <[n := R n + 1]> R.

Section Ops.
Context {D : DiskOps} {HD : Disk D}.
Implicit Types (R : Z → Z) (H L : list Z).

Lemma log_write_run w p R H L ops b n :
  active w p → bstore w p R H → held w p b n → 0 ≤ R n → R n + 1 < 2 ^ 32 →
  logging w L ops → 1 ≤ ops → Z.of_nat (length L) + 1 < LOGSIZE → loggable w n →
  ∃ w', runs (log_write b) w tt w' ∧ bstep (set_log (log_put (w_log w) L n) w) w' ∧
    bstore w' p (pinned R L n) H ∧ (∀ b' m, held w p b' m → held w' p b' m) ∧ view w' = view w ∧
    w_disk w' = w_disk w ∧ w_dtrace w' = w_dtrace w.
Proof.
  intros [Hq Hv] Hs Hh HR0 HR1 [Ht Ho Hc Hz] Hops Hlen [Hn Hout].
  set (lg := w_log w) in *. pose proof (t_n _ _ Ht) as Hln.
  destruct (find_index L lg n) as [Hfin Hfout]; [|done|].
  { intros i m Hi. split; [by apply (t_block _ _ Ht)|]. apply (t_range _ _ Ht). by eapply list_elem_of_lookup_2. }
  assert (En : b_blockno (w_bufs w b) = n) by (pose proof (h_for _ _ _ _ Hh) as Hf; by apply for_spec in Hf as [_ ?]).
  assert (Hi32 : i32 n = n) by (apply i32_small; lia).
  assert (Hcond : (l_n lg >=? LOGSIZE) || (l_n lg >=? l_size lg - 1) = false) by (rewrite Hz; lia).
  assert (Hbegin : ∀ r v, runs
      (bf <- get_buf b ;;
       i <- gets (λ w0, log_index (w_log w0) (b_blockno bf)) ;;
       upd_log (λ lg0, set_l_block (<[i := i32 (b_blockno bf)]> (l_block lg0)) lg0) ;;
       lg0 <- get_log ;;
       when (i =? l_n lg0) (bpin b ;; upd_log (λ lg1, set_l_n (l_n lg1 + 1) lg1)) ;; release LLog) (locked_by LLog w) r v →
      runs (log_write b) w r v).
  { intros r v Hr. unfold log_write, get_log at 1. rsteps. fold lg. rewrite Hcond.
    rewrite (proj2 (Z.ltb_ge (l_outstanding lg) 1)) by lia.
    eapply runs_bind; [apply runs_acquire; eauto with xv6|exact Hr]. }
  unfold log_put, pinned. fold lg. case_bool_decide as Hin.
  - destruct (Hfin Hin) as (i & Ei & Hi). exists w. split_and!; try done.
    + apply Hbegin. unfold get_buf, upd_log, get_log. rsteps. rsimpl.
      change (w_bufs (locked_by LLog w)) with (w_bufs w). change (w_log (locked_by LLog w)) with lg.
      rewrite En, Hi32, Ei. rewrite (proj2 (Z.eqb_neq _ _)) by (apply lookup_lt_Some in Hi; lia). rsteps.
      eapply runs_eq; [apply (runs_release LLog w); eauto with xv6|].
      assert (Eblk : <[Z.of_nat i := n]> (l_block lg) = l_block lg) by (apply fn_insert_same, (t_block _ _ Ht); done).
      exact (f_equal (λ f, set_log (set_l_block f lg) w) Eblk).
  - set (lg1 := set_l_block (<[l_n lg := n]> (l_block lg)) lg).
    set (wl := set_log lg1 (locked_by LLog w)).
    destruct (st_bpin wl p R H b n) as (w1 & E1 & S1 & B1 & K1 & V1 & D1 & T1).
    { exact (cpu_ok_locked_by LLog w (quiet_cpu_ok _ _ Hq)). }
    { pose proof (quiet_lk _ _ LBcache Hq) as Hl. unfold wl, lk_free, locked_by. rsimpl. by rewrite fn_lookup_insert_ne. }
    { by apply (bstore_frame w). } { by apply (held_frame w). } { done. } { done. }
    set (w2 := set_log (set_l_n (l_n lg + 1) lg1) w1).
    set (w' := set_lk (w_lk w) (set_harts (w_harts w) (set_cpus (w_cpus w) w2))).
    assert (Estep : ∃ f s d t, w1 = set_dtrace t (set_disk d (set_slk s (set_bufs f wl))) ∧ ∀ ip, s (SInode ip) = w_slk w (SInode ip)) by exact S1.
    destruct Estep as (f & s & d & t & -> & Hip). exists w'. split_and!; try done.
    + apply Hbegin. unfold get_buf, upd_log, get_log. rsteps. rsimpl.
      change (w_bufs (locked_by LLog w)) with (w_bufs w). change (w_log (locked_by LLog w)) with lg.
      rewrite En, Hi32, Hfout, Z.eqb_refl by done. rsteps.
      eapply runs_bind; [exact E1|]. rsteps.
      eapply runs_eq; [apply (runs_release LLog w); eauto with xv6|]. reflexivity.
    + by exists f, s, d, t.
    + eapply bstore_frame; [..|exact B1]; done.
    + intros b' m Hm. eapply held_frame; [..|apply (K1 b' m); by apply (held_frame w)]; done.
Qed.

Lemma begin_op_run w p L ops :
  quiet w p → logging w L ops → Z.of_nat (length L) + (ops + 1) * MAXOPBLOCKS ≤ LOGSIZE →
  runs begin_op w tt (set_log (set_l_outstanding (ops + 1) (w_log w)) w).
Proof.
  intros Hq [Ht Ho Hc Hz] Hroom. unfold begin_op. eapply runs_bind; [apply runs_acquire; eauto with xv6|]. cbv beta.
  apply runs_loop_wait. unfold get_log, upd_log. rsteps. change (w_log (locked_by LLog w)) with (w_log w).
  rewrite Hc, (t_n _ _ Ht), Ho.
  assert ((Z.of_nat (length L) + (ops + 1) * MAXOPBLOCKS >? LOGSIZE) = false) as -> by lia. rsteps.
  eapply runs_bind; [apply (runs_release LLog w); eauto with xv6|]. cbv beta. rsimpl.
  change (w_log (locked_by LLog w)) with (w_log w). rewrite Ho.
  eapply runs_eq; [apply runs_ret|]. reflexivity.
Qed.

(** The log when nothing is going on. *)
Definition log_done (lg : logstate) : logstate := set_l_n 0 (set_l_committing false (set_l_outstanding 0 lg)).

(** end_op with other operations still running. *)
Lemma end_op_more w p L ops :
  quiet w p → logging w L ops → ops ≠ 1 →
  runs end_op w tt (set_log (set_l_outstanding (ops - 1) (w_log w)) w).
Proof.
  intros Hq [Ht Ho Hc Hz] Hops. unfold end_op. eapply runs_bind; [apply runs_acquire; eauto with xv6|]. cbv beta.
  unfold get_log, upd_log. rsteps. rsimpl. change (w_log (locked_by LLog w)) with (w_log w).
  rewrite Hc, Ho, (proj2 (Z.eqb_neq _ _)) by lia. rsteps.
  eapply runs_bind.
  { apply runs_wakeup; [exact (cpu_ok_locked_by LLog w (quiet_cpu_ok _ _ Hq))|].
    intros q Hq'. pose proof (quiet_lk _ _ (LProc q) Hq) as Hl. unfold lk_free, locked_by. rsimpl. by rewrite fn_lookup_insert_ne. }
  cbv beta. rsteps. eapply runs_bind; [apply (runs_release LLog w); eauto with xv6|]. cbv beta. rsteps.
Qed.

(** end_op's bookkeeping around commit. *)
Lemma end_op_last w p L w1 :
  quiet w p → logging w L 1 →
  runs commit (set_log (set_l_committing true (set_l_outstanding 0 (w_log w))) w) tt w1 → quiet w1 p →
  runs end_op w tt (set_log (set_l_committing false (w_log w1)) w1).
Proof.
  intros Hq [Ht Ho Hc Hz] Hcm Hq1. unfold end_op. eapply runs_bind; [apply runs_acquire; eauto with xv6|]. cbv beta.
  unfold get_log, upd_log. rsteps. rsimpl. change (w_log (locked_by LLog w)) with (w_log w). rewrite Hc, Ho.
  change (1 - 1 =? 0) with true. cbv iota. rsteps. rsimpl.
  eapply runs_bind; [apply (runs_release LLog w); eauto with xv6|]. cbv beta. rsteps.
  eapply runs_bind; [exact Hcm|]. cbv beta.
  eapply runs_bind; [apply runs_acquire; eauto with xv6|]. cbv beta. rsteps.
  eapply runs_bind.
  { apply runs_wakeup; [exact (cpu_ok_locked_by LLog w1 (quiet_cpu_ok _ _ Hq1))|].
    intros q Hq'. pose proof (quiet_lk _ _ (LProc q) Hq1) as Hl. unfold lk_free, locked_by. rsimpl. by rewrite fn_lookup_insert_ne. }
  cbv beta. eapply runs_eq; [apply (runs_release LLog w1); eauto with xv6|]. reflexivity.
Qed.

Lemma commit_none w : l_n (w_log w) = 0 → runs commit w tt w.
Proof. intros Hn. unfold commit, get_log. rsteps. rewrite Hn. change (0 >? 0) with false. rsteps. Qed.
End Ops.

(** What end_op changes of the world. *)
Definition cstep (w w' : world) : Prop :=
  ∃ f s d t lg, w' = set_log lg (set_dtrace t (set_disk d (set_slk s (set_bufs f w)))) ∧
    (∀ ip, s (SInode ip) = w_slk w (SInode ip)) ∧ l_start lg = l_start (w_log w).

(** The last end_op commits. *)
Lemma end_op_commits {D : DiskOps} {HD : Disk D} w p L ls :
  active w p → bstore w p (pins L) [] → logging w L 1 → l_start (w_log w) = ls → lh_n (w_disk w ls) = 0 →
  ∃ w' t, runs end_op w tt w' ∧ logging w' [] 0 ∧ bstore w' p (λ _, 0) [] ∧ lh_n (w_disk w' ls) = 0 ∧
    (∀ n, outside ls n → w_disk w' n = view w n ∧ view w' n = view w n) ∧
    w_dtrace w' = w_dtrace w ++ t ∧ w_disk w' = apply_writes t (w_disk w) ∧
    (∀ k, let crashed := apply_writes (take k t) (w_disk w) in
      (∀ n, outside ls n → recover ls crashed n ≈b w_disk w n) ∨
      (∀ n, outside ls n → recover ls crashed n ≈b view w n)) ∧ cstep w w'.
Proof.
  intros [Hq Hv] Hs Hl Hls Hidle. pose proof Hl as [Ht Ho Hc Hz].
  set (wc := set_log (set_l_committing true (set_l_outstanding 0 (w_log w))) w).
  assert (Hbc : bstore wc p (pins L) []) by (by apply (bstore_frame w)).
  destruct (decide (L = [])) as [->|HL].
  - exists (set_log (set_l_committing false (w_log wc)) wc), [].
    assert (Hcl : ∀ n, view w n = w_disk w n) by (intros n; by apply (bstore_clean w p (pins []) [])).
    split_and!; try done.
    + apply (end_op_last w p []); [done..| |exact Hq]. apply commit_none. exact (t_n _ _ Ht).
    + destruct Ht. by split.
    + by apply (bstore_frame wc).
    + by rewrite app_nil_r.
    + intros k. left. intros n Hn. rewrite take_nil. cbn. rewrite recover_other; [done|done|].
      rewrite lh_list_0 by done. set_solver.
    + by exists (w_bufs w), (w_slk w), (w_disk w), (w_dtrace w), (set_l_committing false (w_log wc)).
  - destruct (WriteAhead.commit_crash wc p L ls) as (w1 & t & E & T & Dk & B & S & Hi & Hnew & Hcr); try done.
    { destruct Ht. by split. }
    pose proof (bstep_log _ _ S) as G. rsimpl_in G. assert (Hq1 : quiet w1 p) by exact (bstep_quiet _ _ _ S Hq).
    exists (set_log (set_l_committing false (w_log w1)) w1), t. split_and!; try done.
    + by apply (end_op_last w p L).
    + unfold wc in G. rsimpl_in G. rewrite G. destruct Ht. split; try done. split; try done; [set_solver|constructor].
    + by apply (bstore_frame w1).
    + destruct S as (f & s & d & t' & -> & Hip). by exists f, s, d, t', (set_l_committing false (set_l_n 0 (w_log wc))).
Qed.

(** ** The properties *)

Module Transactions.
Section Props.
Context {D : DiskOps} {HD : Disk D}.

(** C1: Crash safety of a transaction.  When the last running operation calls end_op,
    every block logged since the last commit goes to the disk as one unit: end_op
    returns with the new blocks on the disk and the log empty, and after any prefix
    of the block writes it made, recovery gives either all the old blocks or all
    the new ones. *)
Theorem end_op_crash_safe w p L ls :
  active w p → bstore w p (pins L) [] → logging w L 1 → l_start (w_log w) = ls → lh_n (w_disk w ls) = 0 →
  ∃ w' t, runs end_op w tt w' ∧ logging w' [] 0 ∧ bstore w' p (λ _, 0) [] ∧ lh_n (w_disk w' ls) = 0 ∧
    (∀ n, outside ls n → w_disk w' n = view w n ∧ view w' n = view w n) ∧
    w_dtrace w' = w_dtrace w ++ t ∧ w_disk w' = apply_writes t (w_disk w) ∧
    ∀ k, let crashed := apply_writes (take k t) (w_disk w) in
      (∀ n, outside ls n → recover ls crashed n ≈b w_disk w n) ∨
      (∀ n, outside ls n → recover ls crashed n ≈b view w n).
Proof.
  intros Ha Hs Hl Hls Hi. destruct (end_op_commits w p L ls Ha Hs Hl Hls Hi) as (w' & t & H1 & H2 & H3 & H4 & H5 & H6 & H7 & H8 & _). by exists w', t.
Qed.

(** C29: log_write adds the block to the transaction once, however often it is called,
    pins its buffer, and changes no block; it panics outside a transaction. *)
Theorem log_write_logs w p (R : Z → Z) (H L : list Z) ops b n :
  active w p → bstore w p R H → held w p b n → 0 ≤ R n → R n + 1 < 2 ^ 32 → logging w L ops → loggable w n →
  Z.of_nat (length L) + 1 < LOGSIZE →
  (1 ≤ ops → ∃ w', runs (log_write b) w tt w' ∧ logging w' (logged L n) ops ∧ bstore w' p (pinned R L n) H ∧
     held w' p b n ∧ (∀ m, view w' m = view w m) ∧ w_disk w' = w_disk w ∧
     (n ∈ L → w_log w' = w_log w)) ∧
  (ops < 1 → panics (log_write b) w "log_write outside of trans").
Proof.
  intros Hact Hs Hh H0 H1 Hl Hn Hlen. split.
  - intros Hops. destruct (log_write_run w p R H L ops b n) as (w' & E & S & B & K & V & Dk & _); try done.
    pose proof (bstep_log _ _ S) as G. rsimpl_in G. destruct Hl as [Ht Ho Hc Hz], Hn as [Hr Hout].
    exists w'. split_and!; try done; [|by apply K|by rewrite V|].
    + assert (Hf : l_outstanding (w_log w') = ops ∧ l_committing (w_log w') = false ∧ l_size (w_log w') = LOGSIZE).
      { rewrite G. unfold log_put. by case_bool_decide. }
      destruct Hf as (F1 & F2 & F3). split; [|done..]. rewrite G. by apply log_put_txn.
    + intros Hin. rewrite G. unfold log_put. by rewrite bool_decide_true.
  - intros Hops. unfold log_write, get_log at 1. destruct Hl as [Ht Ho Hc Hz].
    eapply panics_bind; [rstep|]. cbv beta. rewrite Hz, (t_n _ _ Ht), Ho.
    assert ((Z.of_nat (length L) >=? LOGSIZE) || (Z.of_nat (length L) >=? LOGSIZE - 1) = false) as -> by lia.
    rewrite (proj2 (Z.ltb_lt _ _)) by lia. by intros env v _.
Qed.

(** C40: begin_op admits a third operation when the log is empty, reserving
    MAXOPBLOCKS blocks for each; but the log holds one block less than that, so
    the last block the three may write makes log_write panic. *)
Theorem log_holds_one_block_less :
  (∀ w p, quiet w p → logging w [] 2 → ∃ w', runs begin_op w tt w' ∧ logging w' [] 3) ∧
  (∀ w L b, logging w L 3 → Z.of_nat (length L) = 3 * MAXOPBLOCKS - 1 →
     panics (log_write b) w "too big a transaction").
Proof.
  split.
  - intros w p Hq Hl. eexists. split; [by apply (begin_op_run w p [] 2)|].
    destruct Hl as [[] Ho Hc Hz]. by split; [split|..].
  - intros w L b [Ht Ho Hc Hz] Hlen. unfold log_write, get_log at 1.
    eapply panics_bind; [rstep|]. cbv beta. rewrite Hz, (t_n _ _ Ht), Hlen. by intros env v _.
Qed.
End Props.

(** Block 50 logged by the one running operation, the log starting at block 2. *)
Definition sample_txn_log : logstate := mkLog 2 LOGSIZE 1 false ROOTDEV 1 (λ _, 50).

(** A world with block 50 held by process 1, and nothing logged. *)
Lemma held_world : ∃ w b, active (D := prompt_disk) w 1 ∧ bstore w 1 (<[50 := 1]> (λ _, 0)) [50] ∧ held w 1 b 50 ∧
  logging w [] 1 ∧ loggable w 50.
Proof.
  destruct (binit_store (λ _, zeroes)) as (w0 & Hs & Hq & Hd & Hv & _).
  destruct (st_bread (D := prompt_disk) w0 1 (λ _, 0) [] 50 Hq I Hs) as (b & w1 & _ & [K1 _] & B1 & H1 & _);
    [done|set_solver|set_solver|right; apply WriteAhead.no_room|done|].
  exists (set_log (mkLog 2 LOGSIZE 1 false ROOTDEV 0 (λ _, 0)) w1), b. split_and!.
  - exact (conj (bstep_quiet _ _ _ K1 Hq) I).
  - by apply (bstore_frame w1).
  - by apply (held_frame w1).
  - split; try done. split; try done; [set_solver|constructor].
  - split; [lia|]. unfold outside, LOGSIZE, MAXOPBLOCKS. cbn. lia.
Qed.

Lemma log_write_logs_witness : ∃ w b w', runs (D := prompt_disk) (log_write b) w tt w' ∧ logging w' [50] 1.
Proof.
  destruct held_world as (w & b & Hact & Hs & Hh & Hl & Hn).
  destruct (log_write_logs (D := prompt_disk) w 1 _ [50] [] 1 b 50 Hact Hs Hh) as [Hw _]; try done.
  destruct Hw as (w' & E & Hl' & _); [done|]. exists w, b, w'. split; [exact E|exact Hl'].
Defined.

Lemma log_holds_one_block_less_witness : ∃ w w', runs (D := prompt_disk) begin_op w tt w' ∧ logging w' [] 3.
Proof.
  destruct (binit_store (λ _, zeroes)) as (w0 & Hs & Hq & _).
  destruct (proj1 (log_holds_one_block_less (D := prompt_disk)) (set_log (mkLog 2 LOGSIZE 2 false ROOTDEV 0 (λ _, 0)) w0) 1 Hq) as (w' & E & Hl).
  { split; try done. split; try done; [set_solver|constructor]. }
  eexists _, w'. split; [exact E|exact Hl].
Defined.

Lemma end_op_crash_safe_witness :
  ∃ w w', runs (D := prompt_disk) (end_op (H := prompt_disk)) w tt w' ∧ w_log w = sample_txn_log.
Proof.
  destruct (binit_store (λ _, zeroes)) as (w0 & Hs & Hq & Hd & Hv & _).
  destruct (st_bread (D := prompt_disk) w0 1 (λ _, 0) [] 50 Hq I Hs) as (b & w1 & _ & [K1 _] & B1 & H1 & _ & V1 & D1 & _);
    [done|set_solver|set_solver|right; apply WriteAhead.no_room|done|].
  pose proof (bstep_quiet _ _ _ K1 Hq) as Hq1.
  destruct (st_bpin (D := prompt_disk) w1 1 _ _ b 50 (quiet_cpu_ok _ _ Hq1) (quiet_lk _ _ _ Hq1) B1 H1) as (w2 & _ & K2 & B2 & H2 & V2 & D2 & _);
    [by rewrite fn_lookup_insert..|].
  pose proof (bstep_quiet _ _ _ K2 Hq1) as Hq2.
  destruct (st_brelse (D := prompt_disk) w2 1 _ [50] [] b 50 Hq2 B2) as (w3 & _ & [K3 _] & B3 & V3 & D3 & _); [by apply H2|done|by rewrite !fn_lookup_insert|].
  pose proof (bstep_quiet _ _ _ K3 Hq2) as Hq3.
  set (w := set_log sample_txn_log w3).
  assert (Bw : bstore w 1 (pins [50]) []).
  { apply (bstore_frame w3); try done. revert B3. rewrite !fn_lookup_insert, !fn_insert_insert.
    replace (pins [50]) with (<[50 := u32 (0 + 1 + 1 - 1)]> (λ _ : Z, 0)); [done|].
    extensionality n. unfold pins. destruct (decide (50 = n)) as [<-|Hn].
    - by rewrite fn_lookup_insert, bool_decide_true by set_solver.
    - by rewrite fn_lookup_insert_ne, bool_decide_false by set_solver. }
  destruct (end_op_crash_safe (D := prompt_disk) w 1 [50] 2 (conj Hq3 I) Bw) as (w' & t & E & _); [split; [destruct WriteAhead.sample_txn; by split|done..]|done| |].
  { change (lh_n (w_disk w3 2) = 0). by rewrite D3, D2, D1, Hd. }
  by exists w, w'.
Defined.

End Transactions.
