(* ===== verification/Tx.v ===== *)
(** * Blocks inside a file system operation

    What the code of fs.c does with blocks: it reads them into the cache, changes
    and logs them, and releases them.  [blocks w p L H] is the state between such
    steps, with the blocks of [L] logged and those of [H] held by process [p]; the
    rules below move from one such state to the next and say what becomes of the
    contents [view w]. *)

From S2P Require Import Prelude Types StringC Spinlock Sched Sleeplock Run Bio Cache BioProps Log Recover LogOps.

(** References of block [n]: a pin when it is logged, and the holder's. *)
Definition refs (L H : list Z) : Z → Z := λ n, pins L n + (if bool_decide (n ∈ H) then 1 else 0).

Lemma refs_cons L H n : n ∉ H → refs L (n :: H) = <[n := refs L H n + 1]> (refs L H).
Proof.
  intros Hn. extensionality m. rewrite fn_lookup_insert_if. unfold refs. case_decide as E.
  - subst. rewrite bool_decide_true by set_solver. rewrite bool_decide_false by done. lia.
  - f_equal. erewrite bool_decide_ext; [done|]. set_solver.
Qed.

Lemma refs_bounds L H n : 0 ≤ refs L H n ≤ 2.
Proof. unfold refs, pins. do 2 case_bool_decide; lia. Qed.

Lemma refs_held L H n : n ∈ H → refs L H n ≠ 0.
Proof. intros Hn. unfold refs, pins. rewrite (bool_decide_true (n ∈ H)) by done. case_bool_decide; lia. Qed.

Lemma refs_perm L H H' : H ≡ₚ H' → refs L H = refs L H'.
Proof.
  intros E. extensionality n. unfold refs. f_equal. erewrite bool_decide_ext; [done|]. by rewrite E.
Qed.

Lemma refs_room L H : Z.of_nat (length L) + Z.of_nat (length H) < NBUF → room (refs L H) H.
Proof.
  intros Hl. exists (L ++ H). split; [rewrite length_app; lia|]. intros n [Hn|Hn]; [|set_solver].
  unfold refs, pins in Hn. rewrite elem_of_app. do 2 case_bool_decide; tauto || lia.
Qed.

Lemma refs_logged L H n : pinned (refs L H) L n = refs (logged L n) H.
Proof.
  unfold pinned, logged. case_bool_decide as Hin; [done|]. extensionality m. rewrite fn_lookup_insert_if.
  unfold refs, pins. case_decide as E.
  - subst. rewrite (bool_decide_false (m ∈ L)), (bool_decide_true (m ∈ L ++ [m])) by set_solver. lia.
  - f_equal. erewrite bool_decide_ext; [done|]. rewrite elem_of_app, list_elem_of_singleton. naive_solver.
Qed.

(** What such steps change of the world. *)
Definition fstep (w w' : world) : Prop :=
  ∃ f s lg, w' = set_log lg (set_slk s (set_bufs f w)) ∧
    (∀ ip, s (SInode ip) = w_slk w (SInode ip)) ∧ l_start lg = l_start (w_log w).

#[export] Instance fstep_po : PreOrder fstep.
Proof.
  split.
  - intros w. by exists (w_bufs w), (w_slk w), (w_log w).
  - intros w1 w2 w3 (f1 & s1 & g1 & -> & H1 & E1) (f2 & s2 & g2 & -> & H2 & E2).
    exists f2, s2, g2. split_and!; [done| |by rewrite E2]. intros ip. rewrite H2. apply H1.
Qed.

Lemma bstep_fstep w w' : bstep w w' → w_disk w' = w_disk w → w_dtrace w' = w_dtrace w → fstep w w'.
Proof.
  intros (f & s & d & t & -> & Hs) Ed Et. cbn in Ed, Et. subst. by exists f, s, (w_log w).
Qed.

Lemma fstep_inodes w w' : fstep w w' → w_inodes w' = w_inodes w.
Proof. by intros (f & s & lg & -> & _). Qed.
Lemma fstep_sb w w' : fstep w w' → w_sb w' = w_sb w.
Proof. by intros (f & s & lg & -> & _). Qed.
Lemma fstep_disk w w' : fstep w w' → w_disk w' = w_disk w.
Proof. by intros (f & s & lg & -> & _). Qed.
Lemma fstep_loggable w w' n : fstep w w' → loggable w n → loggable w' n.
Proof. intros (f & s & lg & -> & _ & E). unfold loggable. cbn. by rewrite E. Qed.

Lemma logging_same w w' L ops : w_log w' = w_log w → logging w L ops → logging w' L ops.
Proof. intros E []. split; by rewrite E. Qed.

Section Tx.
Context {D : DiskOps} {HD : Disk D}.
Implicit Types (L H : list Z).

Lemma fstep_active w w' p : fstep w w' → active w p → active w' p.
Proof. intros (f & s & lg & -> & _) Ha. exact Ha. Qed.

(** The blocks of [L] are logged, those of [H] held; the rest is as on the disk. *)
Record blocks (w : world) (p : Z) (L H : list Z) : Prop := {
  bk_active : active w p;
  bk_store : bstore w p (refs L H) H;
  bk_room : Z.of_nat (length L) + Z.of_nat (length H) < NBUF
}.

(** A block that may be released: it is logged, or unchanged. *)
Definition settled (w : world) (L : list Z) (n : Z) : Prop := n ∈ L ∨ view w n = w_disk w n.

Lemma tx_bread w p L H n :
  blocks w p L H → is_block n → n ∉ H → Z.of_nat (length L) + Z.of_nat (length H) + 1 < NBUF →
  ∃ b w', runs (bread ROOTDEV n) w b w' ∧ fstep w w' ∧ blocks w' p L (n :: H) ∧ held w' p b n ∧
    b_data (w_bufs w' b) = view w n ∧ view w' = view w ∧ settled w' L n ∧ w_log w' = w_log w ∧
    (∀ b' m, held w p b' m → held w' p b' m).
Proof.
  intros [Ha Hs Hr] Hb Hn Hr1. destruct Ha as [Hq Hv].
  destruct (st_bread w p (refs L H) H n) as (b & w' & E & [S K] & B & Hh & Hno & V & Dk & T); try done.
  { intros m. apply refs_held. } { right. by apply refs_room. } { pose proof (refs_bounds L H n). lia. }
  rewrite <-refs_cons in B by done. exists b, w'. split_and!; try done.
  - by apply bstep_fstep.
  - split; [by eapply bstep_active|done|cbn; lia].
  - by rewrite (held_view _ _ _ _ _ _ B Hh), V.
  - destruct (decide (n ∈ L)) as [Hin|Hin]; [by left|right]. rewrite V, Dk. apply (bstore_clean _ _ _ _ n Hs).
    unfold refs, pins. by rewrite !bool_decide_false.
  - by apply bstep_log.
  - intros b' m Hm. apply K; [|done]. intros ->. by eapply Hno.
Qed.

Lemma tx_brelse w p L H b n :
  blocks w p L (n :: H) → held w p b n → settled w L n →
  ∃ w', runs (brelse b) w tt w' ∧ fstep w w' ∧ blocks w' p L H ∧ view w' = view w ∧ w_log w' = w_log w ∧
    (∀ b' m, m ≠ n → held w p b' m → held w' p b' m).
Proof.
  intros [Ha Hs Hr] Hh Hset. destruct Ha as [Hq Hv]. pose proof (bs_nodup _ _ _ _ Hs) as [Hn _]%NoDup_cons.
  destruct (st_brelse w p (refs L (n :: H)) (n :: H) H b n) as (w' & E & [S K] & B & V & Dk & T); try done.
  { intros E. destruct Hset as [Hin|]; [|done]. unfold refs, pins in E. rewrite !bool_decide_true in E by set_solver. lia. }
  exists w'. split_and!; try done.
  - by apply bstep_fstep.
  - split; [by eapply bstep_active| |cbn in Hr; lia]. replace (refs L H) with (<[n := u32 (refs L (n :: H) n - 1)]> (refs L (n :: H))); [done|].
    rewrite refs_cons, fn_lookup_insert, fn_insert_insert by done. apply fn_insert_same.
    rewrite u32_small; [lia|]. pose proof (refs_bounds L H n). lia.
  - by apply bstep_log.
  - intros b' m Hm Hb'. apply K; [|done]. intros ->. apply Hm.
    destruct Hb' as [_ F1 _ _ _ _], Hh as [_ F2 _ _ _ _]. apply for_spec in F1 as [_ <-]. by apply for_spec in F2 as [_ ?].
Qed.

(** Change a held block and log it. *)
Lemma tx_modify w p L H b n (f : bytes → bytes) ops :
  blocks w p L H → held w p b n → n ∈ H → logging w L ops → 1 ≤ ops → loggable w n → Z.of_nat (length L) + 1 < LOGSIZE →
  Z.of_nat (length L) + Z.of_nat (length H) + 1 < NBUF →
  ∃ w', (∀ A (k : unit → K A) r v, runs (k tt) w' r v → runs (upd_data b f ;; x <- log_write b ;; k x) w r v) ∧
    fstep w w' ∧ blocks w' p (logged L n) H ∧ logging w' (logged L n) ops ∧
    view w' = <[n := f (view w n)]> (view w) ∧ (∀ b' m, held w p b' m → held w' p b' m).
Proof.
  intros [[Hq Hv] Hs Hr] Hh Hin Hlg Hops Hlo Hlen Hnb. set (d := f (view w n)).
  destruct (st_store w p (refs L H) H b n d Hs Hh (refs_held _ _ _ Hin)) as (S1 & B1 & K1 & V1). cbv zeta in *.
  set (w1 := stored b d w) in *.
  destruct (log_write_run w1 p (refs L H) H L ops b n) as (w2 & E2 & S2 & B2 & K2 & V2 & D2 & T2).
  { exact (conj Hq Hv). } { exact B1. } { by apply K1. } { pose proof (refs_bounds L H n). lia. } { pose proof (refs_bounds L H n). lia. }
  { by destruct Hlg. } { done. } { done. } { exact Hlo. }
  rewrite refs_logged in B2. pose proof (bstep_log _ _ S2) as G. cbn in G. destruct Hlg as [Ht Ho Hc Hz], Hlo as [Hnr Hout].
  assert (Hf : l_outstanding (w_log w2) = ops ∧ l_committing (w_log w2) = false ∧ l_size (w_log w2) = LOGSIZE ∧
    l_start (w_log w2) = l_start (w_log w)) by (rewrite G; unfold log_put; by case_bool_decide).
  destruct Hf as (F1 & F2 & F3 & F4). exists w2. split_and!.
  - intros A k r v Hk. unfold upd_data, upd_buf. rsteps. rewrite fn_alter_insert, (held_view _ _ _ _ _ _ Hs Hh).
    eapply runs_bind; [exact E2|exact Hk].
  - destruct S2 as (fb & s & dd & tt' & -> & Hip). cbn in D2, T2. subst. exists fb, s, (log_put (w_log w) L n).
    split_and!; [done|done|exact F4].
  - split; [exact (bstep_active _ _ _ S2 (conj Hq Hv))|exact B2|]. unfold logged. case_bool_decide; rewrite ?length_app; cbn; lia.
  - split; [|done..]. rewrite G. by apply log_put_txn.
  - by rewrite V2, V1.
  - intros b' m Hm. by apply K2, K1.
Qed.

(** Other blocks stay releasable. *)
Lemma settled_modify w w' L n m d : fstep w w' → view w' = <[n := d]> (view w) → settled w L m → settled w' (logged L n) m.
Proof.
  intros S V [Hm|Hm]; unfold settled, logged.
  - left. case_bool_decide; set_solver.
  - rewrite V, (fstep_disk _ _ S), fn_lookup_insert_if. case_decide as E; [subst; left; case_bool_decide; set_solver|by right].
Qed.
Lemma settled_step w w' L m : fstep w w' → view w' = view w → settled w L m → settled w' L m.
Proof. intros S V [Hm|Hm]; [by left|right]. by rewrite V, (fstep_disk _ _ S). Qed.
Lemma settled_logged w L n : settled w (logged L n) n.
Proof. left. unfold logged. case_bool_decide; set_solver. Qed.
End Tx.

(** ** A file system to run in *)

(** The layout that mkfs gives a file system of 1000 blocks. *)
Definition sample_sb : superblock := mkSuperblock FSMAGIC 1000 954 200 LOGSIZE 2 32 45.

(** The disk [d] and the inode cache [f], with one operation running and nothing
    cached or logged. *)
Lemma sample_fs d f : ∃ w, blocks (D := prompt_disk) w 1 [] [] ∧ logging w [] 1 ∧ view w = d ∧ w_sb w = sample_sb ∧
  w_inodes w = f ∧ l_start (w_log w) = 2 ∧ quiet w 1 ∧ (∀ ip, w_slk w (SInode ip) = w_slk image_world (SInode ip)) ∧ w_mem w = w_mem image_world.
Proof.
  destruct (binit_store d) as (w & Hs & Hq & Hd & Hv & Hw & _).
  exists (set_inodes f (set_sb sample_sb (set_log (mkLog 2 LOGSIZE 1 false ROOTDEV 0 (λ _, 0)) w))). split_and!; try done.
  - split; [exact (conj Hq I)| |done]. apply (bstore_frame w); try done.
  - split; try done. split; try done; [set_solver|constructor].
  - destruct Hw as (g & s & k & -> & Hip). exact Hip.
  - destruct Hw as (g & s & k & -> & Hip). done.
Qed.
