(* ===== verification/Fs.v ===== *)
(** * fs.c: blocks, inodes, directories and path names

    Every function of fs.c.  An inode pointer is its index in icache.inode; a
    path is the list of its characters, the terminating nul left out; a struct
    dirent or stat is the bytes it consists of. *)

From S2P Require Import Prelude Types StringC Spinlock Kalloc Vm Sched Sleeplock Run Bio Log.

Definition get_sb : K superblock := gets (λ w, w_sb w).
Definition get_inode (ip : Z) : K inode := gets (λ w, w_inodes w ip).
Definition upd_inode (ip : Z) (f : inode → inode) : K unit :=
  modify (λ w, set_inodes (alter f ip (w_inodes w)) w).

(** IBLOCK(i, sb) and BBLOCK(b, sb) *)
Definition IBLOCK (i : Z) (sb : superblock) : Z := u32 (i / IPB + sb_inodestart sb).
Definition BBLOCK (b : Z) (sb : superblock) : Z := u32 (b / BPB + sb_bmapstart sb).

(** struct superblock as it lies in block 1. *)
Definition load_sb (d : bytes) : superblock :=
  mkSuperblock (ld32 d 0) (ld32 d 4) (ld32 d 8) (ld32 d 12) (ld32 d 16) (ld32 d 20) (ld32 d 24) (ld32 d 28).

(** struct dinode at [o] in a block: its fields, and the addresses. *)
Definition di_type (d : bytes) (o : Z) : Z := i16 (ld16 d o).

Definition load_dinode (d : bytes) (o : Z) (ip : inode) : inode :=
  mkInode (i_dev ip) (i_inum ip) (i_ref ip) (i_valid ip) (i16 (ld16 d o)) (i16 (ld16 d (o + 2)))
    (i16 (ld16 d (o + 4))) (i16 (ld16 d (o + 6))) (ld32 d (o + 8))
    (λ i, if (0 <=? i) && (i <=? NDIRECT) then ld32 d (o + 12 + 4 * i) else i_addrs ip i).

Definition store_dinode (ip : inode) (d : bytes) (o : Z) : bytes :=
  let d := st16 d o (i_type ip) in
  let d := st16 d (o + 2) (i_major ip) in
  let d := st16 d (o + 4) (i_minor ip) in
  let d := st16 d (o + 6) (i_nlink ip) in
  let d := st32 d (o + 8) (i_size ip) in
  foldl (λ d i, st32 d (o + 12 + 4 * i) (i_addrs ip i)) d (seqZ 0 (NDIRECT + 1)).

(** struct dirent: a 16-bit inum and DIRSIZ characters. *)
Definition de_inum (de : bytes) : Z := ld16 de 0.
Definition de_name (de : bytes) : bytes := λ i, de (i + 2).

Definition iinit : K unit :=
  initlock LIcache "icache" ;;
  for_each (seqZ 0 NINODE) (λ i, initsleeplock (SInode i) "inode").

(** The search of iget through icache.inode[]: a referenced entry for the inode,
    else the first entry that is free. *)
Definition icache_hit (dev inum : Z) (f : Z → inode) : option Z :=
  List.find (λ ip, (i_ref (f ip) >? 0) && (i_dev (f ip) =? dev) && (i_inum (f ip) =? inum)) (seqZ 0 NINODE).
Definition icache_empty (f : Z → inode) : option Z :=
  List.find (λ ip, i_ref (f ip) =? 0) (seqZ 0 NINODE).

Definition iget (dev inum : Z) : K Z :=
  acquire LIcache ;;
  hit <- gets (λ w, icache_hit dev inum (w_inodes w)) ;;
  match hit with
  | Some ip =>
      upd_inode ip (λ r, set_i_ref (i_ref r + 1) r) ;;
      release LIcache ;;
      ret ip
  | None =>
      empty <- gets (λ w, icache_empty (w_inodes w)) ;;
      match empty with
      | None => panic "iget: no inodes"
      | Some ip =>
          upd_inode ip (set_i_dev dev) ;;
          upd_inode ip (set_i_inum inum) ;;
          upd_inode ip (set_i_ref 1) ;;
          upd_inode ip (set_i_valid false) ;;
          release LIcache ;;
          ret ip
      end
  end.

Definition idup (ip : Z) : K Z :=
  acquire LIcache ;;
  upd_inode ip (λ r, set_i_ref (i_ref r + 1) r) ;;
  release LIcache ;;
  ret ip.

Definition iunlock (ip : option Z) : K unit :=
  match ip with
  | None => panic "iunlock"
  | Some ip =>
      h <- holdingsleep (SInode ip) ;;
      if negb h then panic "iunlock" else
      r <- get_inode ip ;;
      if i_ref r <? 1 then panic "iunlock" else
      releasesleep (SInode ip)
  end.

(** stati: struct stat as bytes (dev, ino, type, nlink, padding, size). *)
Definition stati (ip : Z) (st : bytes) : K bytes :=
  r <- get_inode ip ;;
  ret (st64 (st16 (st16 (st32 (st32 st 0 (i_dev r)) 4 (i_inum r)) 8 (i_type r)) 10 (i_nlink r)) 16 (i_size r)).

(** Two buffers side by side, [t] at [n]. *)
Definition beside (s t : bytes) (n : Z) : bytes := λ x, if x <? n then s x else t (x - n).

Definition namecmp (s t : bytes) : Z := strncmp (beside s t DIRSIZ) 0 DIRSIZ DIRSIZ.

(** The offsets at which a directory of [size] bytes has entries. *)
Definition dir_offs (size : Z) : list Z :=
  (λ i, i * sizeof_dirent) <$> seqZ 0 ((size + sizeof_dirent - 1) / sizeof_dirent).

(** The dirent that dirlink writes: strncpy(de.name, name, DIRSIZ), with the
    destination at 2 * DIRSIZ, and de.inum = inum. *)
Definition make_dirent (name : bytes) (inum : Z) : bytes :=
  let m := strncpy name (2 * DIRSIZ) 0 DIRSIZ in
  st16 (λ x, m (x - 2 + 2 * DIRSIZ)) 0 inum.

(** ** Path elements *)

Definition slash : Z := 47.

(** while (\*path == '/') path++ *)
Fixpoint skip_slashes (path : list Z) : list Z :=
  match path with
  | c :: path' => if c =? slash then skip_slashes path' else path
  | [] => []
  end.

(** The characters up to the next slash, and the rest. *)
Fixpoint take_elem (path : list Z) : list Z * list Z :=
  match path with
  | c :: path' =>
      if c =? slash then ([], path)
      else let (e, rest) := take_elem path' in (c :: e, rest)
  | [] => ([], [])
  end.

Definition of_list (l : list Z) : bytes := λ i, if i <? 0 then 0 else nth (Z.to_nat i) l 0.

(** [None] is the null pointer; otherwise the rest of the path and the new
    contents of name[DIRSIZ]. *)
Definition skipelem (path : list Z) (name : bytes) : option (list Z * bytes) :=
  match skip_slashes path with
  | [] => None
  | path =>
      let (s, rest) := take_elem path in
      let len := Z.of_nat (length s) in
      let name := if len >=? DIRSIZ then mem_copy name 0 (of_list s) 0 DIRSIZ
                  else <[len := 0]> (mem_copy name 0 (of_list s) 0 len) in
      Some (skip_slashes rest, name)
  end.

Section Fs.
Context `{DiskOps} `{Layout}.

Definition readsb (dev : Z) : K unit :=
  bp <- bread dev 1 ;;
  bf <- get_buf bp ;;
  modify (λ w, set_sb (load_sb (b_data bf)) w) ;;
  brelse bp.

Definition fsinit (dev : Z) : K unit :=
  readsb dev ;;
  sb <- get_sb ;;
  if negb (sb_magic sb =? FSMAGIC) then panic "invalid file system" else
  initlog dev.

Definition bzero (dev bno : Z) : K unit :=
  bp <- bread dev (u32 bno) ;;
  upd_data bp (λ d, mem_fill d 0 BSIZE 0) ;;
  log_write bp ;;
  brelse bp.

(** Bit [bi] of a bitmap block, and the first clear one of [n]. *)
Definition bit_at (d : bytes) (bi : Z) : bool := nz (Z.land (d (bi / 8)) (1 ≪ (bi `mod` 8))).
Definition first_clear (d : bytes) (n : Z) : option Z := List.find (λ bi, negb (bit_at d bi)) (seqZ 0 n).

(** A round of balloc's loop: bitmap block of [b]. *)
Definition balloc_round (dev : Z) (sb : superblock) (b : Z) : K (option Z) :=
  bp <- bread dev (BBLOCK b sb) ;;
  bf <- get_buf bp ;;
  match first_clear (b_data bf) (Z.min BPB (sb_size sb - b)) with
  | Some bi =>
      upd_data bp (λ d, <[bi / 8 := u8 (Z.lor (d (bi / 8)) (1 ≪ (bi `mod` 8)))]> d) ;;
      log_write bp ;;
      brelse bp ;;
      bzero dev (b + bi) ;;
      ret (Some (b + bi))
  | None => brelse bp ;; ret None
  end.

Definition balloc (dev : Z) : K Z :=
  sb <- get_sb ;;
  r <- for_find ((λ i, i * BPB) <$> seqZ 0 ((sb_size sb + BPB - 1) / BPB)) (balloc_round dev sb) ;;
  match r with Some b => ret b | None => panic "balloc: out of blocks" end.

Definition bfree (dev b : Z) : K unit :=
  sb <- get_sb ;;
  bp <- bread dev (BBLOCK b sb) ;;
  bf <- get_buf bp ;;
  let bi := b `mod` BPB in
  if negb (bit_at (b_data bf) bi) then panic "freeing free block" else
  upd_data bp (λ d, <[bi / 8 := u8 (Z.land (d (bi / 8)) (Z.lnot (1 ≪ (bi `mod` 8))))]> d) ;;
  log_write bp ;;
  brelse bp.

Definition ialloc (dev type : Z) : K Z :=
  sb <- get_sb ;;
  r <- for_find (seqZ 1 (sb_ninodes sb - 1)) (λ inum,
    bp <- bread dev (IBLOCK inum sb) ;;
    bf <- get_buf bp ;;
    let o := inum `mod` IPB * sizeof_dinode in
    if di_type (b_data bf) o =? 0 then
      upd_data bp (λ d, mem_fill d o sizeof_dinode 0) ;;
      upd_data bp (λ d, st16 d o type) ;;
      log_write bp ;;
      brelse bp ;;
      ip <- iget dev inum ;;
      ret (Some ip)
    else
      brelse bp ;;
      ret None) ;;
  match r with Some ip => ret ip | None => panic "ialloc: no inodes" end.

Definition iupdate (ip : Z) : K unit :=
  sb <- get_sb ;;
  r <- get_inode ip ;;
  bp <- bread (i_dev r) (IBLOCK (i_inum r) sb) ;;
  r <- get_inode ip ;;
  upd_data bp (λ d, store_dinode r d (i_inum r `mod` IPB * sizeof_dinode)) ;;
  log_write bp ;;
  brelse bp.

Definition ilock (mip : option Z) : K unit :=
  match mip with
  | None => panic "ilock"
  | Some ip =>
      r <- get_inode ip ;;
      if i_ref r <? 1 then panic "ilock" else
      acquiresleep (SInode ip) ;;
      r <- get_inode ip ;;
      when (negb (i_valid r)) (
        sb <- get_sb ;;
        bp <- bread (i_dev r) (IBLOCK (i_inum r) sb) ;;
        bf <- get_buf bp ;;
        upd_inode ip (load_dinode (b_data bf) (i_inum r `mod` IPB * sizeof_dinode)) ;;
        brelse bp ;;
        upd_inode ip (set_i_valid true) ;;
        r <- get_inode ip ;;
        when (i_type r =? 0) (panic "ilock: no type"))
  end.

Definition bmap (ip bn : Z) : K Z :=
  r <- get_inode ip ;;
  if bn <? NDIRECT then
    let addr := i_addrs r bn in
    if addr =? 0 then
      addr <- balloc (i_dev r) ;;
      upd_inode ip (λ r, set_i_addrs (<[bn := addr]> (i_addrs r)) r) ;;
      ret addr
    else ret addr
  else
  let bn := bn - NDIRECT in
  if bn <? NINDIRECT then
    addr <- (let addr := i_addrs r NDIRECT in
             if addr =? 0 then
               addr <- balloc (i_dev r) ;;
               upd_inode ip (λ r, set_i_addrs (<[NDIRECT := addr]> (i_addrs r)) r) ;;
               ret addr
             else ret addr) ;;
    bp <- bread (i_dev r) addr ;;
    bf <- get_buf bp ;;
    let addr := ld32 (b_data bf) (4 * bn) in
    addr <- (if addr =? 0 then
               addr <- balloc (i_dev r) ;;
               upd_data bp (λ d, st32 d (4 * bn) addr) ;;
               log_write bp ;;
               ret addr
             else ret addr) ;;
    brelse bp ;;
    ret addr
  else panic "bmap: out of range".

Definition itrunc (ip : Z) : K unit :=
  for_each (seqZ 0 NDIRECT) (λ i,
    r <- get_inode ip ;;
    when (nz (i_addrs r i)) (
      bfree (i_dev r) (i_addrs r i) ;;
      upd_inode ip (λ r, set_i_addrs (<[i := 0]> (i_addrs r)) r))) ;;
  r <- get_inode ip ;;
  when (nz (i_addrs r NDIRECT)) (
    bp <- bread (i_dev r) (i_addrs r NDIRECT) ;;
    for_each (seqZ 0 NINDIRECT) (λ j,
      bf <- get_buf bp ;;
      let a := ld32 (b_data bf) (4 * j) in
      when (nz a) (bfree (i_dev r) a)) ;;
    brelse bp ;;
    bfree (i_dev r) (i_addrs r NDIRECT) ;;
    upd_inode ip (λ r, set_i_addrs (<[NDIRECT := 0]> (i_addrs r)) r)) ;;
  upd_inode ip (set_i_size 0) ;;
  iupdate ip.

Definition iput (ip : Z) : K unit :=
  acquire LIcache ;;
  r <- get_inode ip ;;
  when ((i_ref r =? 1) && i_valid r && (i_nlink r =? 0)) (
    acquiresleep (SInode ip) ;;
    release LIcache ;;
    itrunc ip ;;
    upd_inode ip (set_i_type 0) ;;
    iupdate ip ;;
    upd_inode ip (set_i_valid false) ;;
    releasesleep (SInode ip) ;;
    acquire LIcache) ;;
  upd_inode ip (λ r, set_i_ref (i_ref r - 1) r) ;;
  release LIcache.

Definition iunlockput (ip : Z) : K unit :=
  iunlock (Some ip) ;;
  iput ip.

(** The loop of readi: [tot] bytes done, [left] to go, at [off]; a kernel
    destination is [kdst].  Each round ends at the end of a block or of the
    request, and the last one only finds that nothing is left: n / BSIZE + 3
    rounds are enough. *)
Fixpoint readi_loop (fuel : nat) (ip : Z) (user_dst : bool) (dst : Z) (kdst : bytes) (off n tot : Z)
    : K (Z * bytes) :=
  match fuel with
  | O => λ _ _, NoFuel
  | S fuel =>
      if negb (tot <? n) then ret (tot, kdst) else
      r <- get_inode ip ;;
      addr <- bmap ip (off / BSIZE) ;;
      bp <- bread (i_dev r) addr ;;
      let m := Z.min (n - tot) (BSIZE - off `mod` BSIZE) in
      bf <- get_buf bp ;;
      e <- either_copyout user_dst dst kdst (λ x, b_data bf (x + off `mod` BSIZE)) m ;;
      brelse bp ;;
      if e.1 =? -1 then ret (tot, kdst)
      else readi_loop fuel ip user_dst (u64 (dst + m)) e.2 (off + m) n (tot + m)
  end.

Definition rounds (n : Z) : nat := Z.to_nat (n / BSIZE + 3).

Definition readi (ip : Z) (user_dst : bool) (dst : Z) (kdst : bytes) (off n : Z) : K (Z * bytes) :=
  r <- get_inode ip ;;
  if (off >? i_size r) || (u32 (off + n) <? off) then ret (0, kdst) else
  let n := if u32 (off + n) >? i_size r then i_size r - off else n in
  readi_loop (rounds n) ip user_dst dst kdst off n 0.

(** The loop of writei; it returns the offset it stopped at. *)
Fixpoint writei_loop (fuel : nat) (ip : Z) (user_src : bool) (src : Z) (ksrc : bytes) (off n tot : Z) : K Z :=
  match fuel with
  | O => λ _ _, NoFuel
  | S fuel =>
      if negb (tot <? n) then ret off else
      r <- get_inode ip ;;
      addr <- bmap ip (off / BSIZE) ;;
      bp <- bread (i_dev r) addr ;;
      let o := off `mod` BSIZE in
      let m := Z.min (n - tot) (BSIZE - o) in
      bf <- get_buf bp ;;
      e <- either_copyin (λ x, b_data bf (x + o)) user_src src ksrc m ;;
      upd_data bp (λ d, mem_copy d o e.2 0 m) ;;
      if e.1 =? -1 then
        brelse bp ;;
        ret off
      else
        log_write bp ;;
        brelse bp ;;
        writei_loop fuel ip user_src (u64 (src + m)) ksrc (off + m) n (tot + m)
  end.

Definition writei (ip : Z) (user_src : bool) (src : Z) (ksrc : bytes) (off n : Z) : K Z :=
  r <- get_inode ip ;;
  if (off >? i_size r) || (u32 (off + n) <? off) then ret (-1) else
  if u32 (off + n) >? MAXFILE * BSIZE then ret (-1) else
  off <- writei_loop (rounds n) ip user_src src ksrc off n 0 ;;
  when (n >? 0) (
    r <- get_inode ip ;;
    when (off >? i_size r) (upd_inode ip (set_i_size off)) ;;
    iupdate ip) ;;
  ret n.

(** A round of dirlookup's loop. *)
Definition lookup_round (dp : Z) (name : bytes) (off : Z) : K (option (Z * Z)) :=
  x <- readi dp false 0 zeroes off sizeof_dirent ;;
  if negb (x.1 =? sizeof_dirent) then panic "dirlookup read" else
  if de_inum x.2 =? 0 then ret None else
  if namecmp name (de_name x.2) =? 0 then ret (Some (off, de_inum x.2)) else ret None.

Definition dirlookup (dp : Z) (name : bytes) : K (option Z * Z) :=
  r <- get_inode dp ;;
  if negb (i_type r =? T_DIR) then panic "dirlookup not DIR" else
  f <- for_find (dir_offs (i_size r)) (lookup_round dp name) ;;
  match f with
  | Some (off, inum) => ip <- iget (i_dev r) inum ;; ret (Some ip, off)
  | None => ret (None, 0)
  end.

Definition dirlink (dp : Z) (name : bytes) (inum : Z) : K Z :=
  f <- dirlookup dp name ;;
  match f.1 with
  | Some ip => iput ip ;; ret (-1)
  | None =>
      r <- get_inode dp ;;
      o <- for_find (dir_offs (i_size r)) (λ off,
        x <- readi dp false 0 zeroes off sizeof_dirent ;;
        if negb (x.1 =? sizeof_dirent) then panic "dirlink read" else
        if de_inum x.2 =? 0 then ret (Some off) else ret None) ;;
      let off := match o with
                 | Some off => off
                 | None => (i_size r + sizeof_dirent - 1) / sizeof_dirent * sizeof_dirent
                 end in
      n <- writei dp false 0 (make_dirent name inum) off sizeof_dirent ;;
      if negb (n =? sizeof_dirent) then panic "dirlink" else
      ret 0
  end.

(** The loop of namex.  skipelem shortens the path, so its length bounds the
    number of rounds. *)
Fixpoint namex_loop (fuel : nat) (ip : Z) (path : list Z) (parent : bool) (name : bytes) : K (option Z * bytes) :=
  match fuel with
  | O => λ _ _, NoFuel
  | S fuel =>
      match skipelem path name with
      | None =>
          if parent then iput ip ;; ret (None, name) else ret (Some ip, name)
      | Some (path, name) =>
          ilock (Some ip) ;;
          r <- get_inode ip ;;
          if negb (i_type r =? T_DIR) then
            iunlockput ip ;;
            ret (None, name)
          else if parent && (match path with [] => true | _ => false end) then
            iunlock (Some ip) ;;
            ret (Some ip, name)
          else
            next <- dirlookup ip name ;;
            match next.1 with
            | None => iunlockput ip ;; ret (None, name)
            | Some next =>
                iunlockput ip ;;
                namex_loop fuel next path parent name
            end
      end
  end.

Definition namex (path : list Z) (parent : bool) (name : bytes) : K (option Z * bytes) :=
  ip <- (match path with
         | c :: _ =>
             if c =? slash then iget ROOTDEV ROOTINO
             else mp <- myproc ;; p <- deref mp ;; pr <- get_proc p ;; cwd <- deref (p_cwd pr) ;; idup cwd
         | [] => mp <- myproc ;; p <- deref mp ;; pr <- get_proc p ;; cwd <- deref (p_cwd pr) ;; idup cwd
         end) ;;
  namex_loop (S (length path)) ip path parent name.

Definition namei (path : list Z) : K (option Z) :=
  r <- namex path false zeroes ;;
  ret r.1.

Definition nameiparent (path : list Z) (name : bytes) : K (option Z * bytes) := namex path true name.
End Fs.
