(* ===== verification/FsPure.v ===== *)
(** * Inodes on disk and path names

    The bytes of a struct dinode round trip, and skipelem takes a path name apart
    into its elements. *)

From S2P Require Import Prelude Types StringC Spinlock Kalloc Vm Sched Sleeplock Run Bio Log Fs.

(** ** struct dinode *)

Lemma i16_mod x : - 2 ^ 15 ≤ x < 2 ^ 15 → i16 (x `mod` 2 ^ 16) = x.
Proof. intros Hx. unfold i16. rewrite Zplus_mod_idemp_l, Z.mod_small by lia. lia. Qed.

(** An array of 32-bit words. *)
Definition put_words (f : Z → Z) (o : Z) (d : bytes) (l : list Z) : bytes := foldl (λ d i, st32 d (o + 4 * i) (f i)) d l.

Lemma put_words_cons f o d j l : put_words f o d (j :: l) = put_words f o (st32 d (o + 4 * j) (f j)) l.
Proof. done. Qed.

Lemma put_words_ld k f o l d a :
  (∀ j, j ∈ l → a + k ≤ o + 4 * j ∨ o + 4 * j + 4 ≤ a) → ld k (put_words f o d l) a = ld k d a.
Proof.
  revert d. induction l as [|j l IH]; intros d Hl; [done|]. rewrite put_words_cons, IH by (intros; apply Hl; by right).
  apply ld_st_ne; [lia|]. apply Hl. by left.
Qed.

Lemma put_words_at f o n d i : 0 ≤ i < n → ld32 (put_words f o d (seqZ 0 n)) (o + 4 * i) = f i `mod` 2 ^ 32.
Proof.
  intros Hi. assert (Hin : i ∈ seqZ 0 n) by (apply elem_of_seqZ; lia).
  apply list_elem_of_split in Hin as (l1 & l2 & El).
  pose proof (NoDup_seqZ 0 n) as Hnd. rewrite El in Hnd |- *. apply NoDup_app in Hnd as (_ & _ & Hnd).
  apply NoDup_cons in Hnd as [Hi2 _]. unfold put_words at 1. rewrite foldl_app. fold (put_words f o d l1).
  change (ld 4 (put_words f o (put_words f o d l1) (i :: l2)) (o + 4 * i) = f i `mod` 2 ^ 32). rewrite put_words_cons.
   rewrite put_words_ld; [unfold st32; by rewrite ld_st_eq by lia|].
  intros j Hj. assert (j ≠ i) by (by intros ->). lia.
Qed.

Lemma put_words_out f o l d x : (∀ j, j ∈ l → ¬ (o + 4 * j ≤ x < o + 4 * j + 4)) → put_words f o d l x = d x.
Proof.
  revert d. induction l as [|j l IH]; intros d Hl; [done|]. rewrite put_words_cons, IH by (intros; apply Hl; by right).
  apply st_out; [lia|]. apply Hl. by left.
Qed.

(** The fields are in the range of their types. *)
Record dinode_fits (ip : inode) : Prop := {
  df_type : - 2 ^ 15 ≤ i_type ip < 2 ^ 15;
  df_major : - 2 ^ 15 ≤ i_major ip < 2 ^ 15;
  df_minor : - 2 ^ 15 ≤ i_minor ip < 2 ^ 15;
  df_nlink : - 2 ^ 15 ≤ i_nlink ip < 2 ^ 15;
  df_size : 0 ≤ i_size ip < 2 ^ 32;
  df_addrs i : 0 ≤ i ≤ NDIRECT → 0 ≤ i_addrs ip i < 2 ^ 32
}.

Lemma store_dinode_words ip d o :
  store_dinode ip d o =
  put_words (i_addrs ip) (o + 12)
    (st32 (st16 (st16 (st16 (st16 d o (i_type ip)) (o + 2) (i_major ip)) (o + 4) (i_minor ip)) (o + 6) (i_nlink ip)) (o + 8) (i_size ip))
    (seqZ 0 (NDIRECT + 1)).
Proof. done. Qed.

Lemma store_dinode_ld k ip d o a : o + sizeof_dinode ≤ a ∨ a + k ≤ o → ld k (store_dinode ip d o) a = ld k d a.
Proof.
  intros Ha. unfold sizeof_dinode, NDIRECT in Ha. rewrite store_dinode_words. unfold st16, st32, NDIRECT.
  rewrite put_words_ld by (intros j Hj%elem_of_seqZ; lia). by rewrite !ld_st_ne by lia.
Qed.

Lemma store_dinode_out ip d o x : ¬ (o ≤ x < o + sizeof_dinode) → store_dinode ip d o x = d x.
Proof.
  intros Ha. unfold sizeof_dinode, NDIRECT in Ha. rewrite store_dinode_words. unfold st16, st32, NDIRECT.
  rewrite put_words_out by (intros j Hj%elem_of_seqZ; lia). by rewrite !st_out by lia.
Qed.

(** What the disk keeps of an inode. *)
Definition same_dinode (a b : inode) : Prop :=
  i_type a = i_type b ∧ i_major a = i_major b ∧ i_minor a = i_minor b ∧ i_nlink a = i_nlink b ∧ i_size a = i_size b ∧
  ∀ i, 0 ≤ i ≤ NDIRECT → i_addrs a i = i_addrs b i.

Lemma load_store_dinode ip jp d o : dinode_fits ip → same_dinode (load_dinode (store_dinode ip d o) o jp) ip.
Proof.
  intros [F1 F2 F3 F4 F5 F6]. rewrite store_dinode_words. unfold load_dinode. cbn. unfold NDIRECT in *.
  assert (G : ∀ k a, 0 ≤ k → a + k ≤ o + 12 → ∀ d0, ld k (put_words (i_addrs ip) (o + 12) d0 (seqZ 0 (12 + 1))) a = ld k d0 a).
  { intros k a Hk Ha d0. apply put_words_ld. intros j Hj%elem_of_seqZ. lia. }
  split_and!; cbn.
  - unfold ld16, st16, st32. rewrite G by lia. repeat rewrite ld_st_ne by lia. rewrite ld_st_eq by lia. by apply i16_mod.
  - unfold ld16, st16, st32. rewrite G by lia. repeat rewrite ld_st_ne by lia. rewrite ld_st_eq by lia. by apply i16_mod.
  - unfold ld16, st16, st32. rewrite G by lia. repeat rewrite ld_st_ne by lia. rewrite ld_st_eq by lia. by apply i16_mod.
  - unfold ld16, st16, st32. rewrite G by lia. repeat rewrite ld_st_ne by lia. rewrite ld_st_eq by lia. by apply i16_mod.
  - unfold ld32. rewrite G by lia. unfold st32. rewrite ld_st_eq by lia. by apply Z.mod_small.
  - intros i Hi. unfold NDIRECT in Hi. replace ((0 <=? i) && (i <=? 12)) with true by lia. rewrite put_words_at by lia. apply Z.mod_small. by apply F6.
Qed.

(** ** Path names *)

(** The pieces between slashes, empty ones left out. *)
Fixpoint elems_from (cur : list Z) (path : list Z) : list (list Z) :=
  match path with
  | [] => match cur with [] => [] | _ => [cur] end
  | c :: path =>
      if c =? slash then match cur with [] => elems_from [] path | _ => cur :: elems_from [] path end
      else elems_from (cur ++ [c]) path
  end.
Definition elems (path : list Z) : list (list Z) := elems_from [] path.

(** [name] is the element [e], cut to DIRSIZ characters. *)
Definition name_is (name : bytes) (e : list Z) : Prop :=
  (∀ i x, e !! i = Some x → Z.of_nat i < DIRSIZ → name (Z.of_nat i) = x) ∧
  (Z.of_nat (length e) < DIRSIZ → name (Z.of_nat (length e)) = 0).

Lemma elems_skip path : elems (skip_slashes path) = elems path.
Proof.
  induction path as [|c path IH]; [done|]. cbn. destruct (Z.eqb_spec c slash) as [->|Hc]; [exact IH|].
  unfold elems. cbn. by rewrite (proj2 (Z.eqb_neq _ _)).
Qed.

Lemma skip_slashes_head path : match skip_slashes path with [] => True | c :: _ => c ≠ slash end.
Proof. induction path as [|c path IH]; [done|]. cbn. by destruct (Z.eqb_spec c slash). Qed.

Lemma skip_slashes_length path : (length (skip_slashes path) ≤ length path)%nat.
Proof. induction path as [|c path IH]; [done|]. cbn. destruct (c =? slash); cbn; lia. Qed.

Lemma take_elem_spec path e rest cur :
  take_elem path = (e, rest) → path = e ++ rest ∧
  (cur ++ e ≠ [] → elems_from cur path = (cur ++ e) :: elems rest).
Proof.
  revert e cur. induction path as [|c path IH]; intros e cur E; cbn in E.
  - injection E as <- <-. split; [done|]. rewrite app_nil_r. cbn. by destruct cur.
  - destruct (Z.eqb_spec c slash) as [->|Hc].
    + injection E as <- <-. split; [done|]. rewrite app_nil_r. cbn. by destruct cur.
    + destruct (take_elem path) as [e' rest'] eqn:E'. injection E as <- <-.
      destruct (IH e' (cur ++ [c]) eq_refl) as [-> H2]. split; [done|]. intros Hne. cbn.
      rewrite (proj2 (Z.eqb_neq _ _)) by done. rewrite <-app_assoc in H2. by apply H2.
Qed.

Lemma of_list_lookup l i x : l !! i = Some x → of_list l (Z.of_nat i) = x.
Proof.
  intros E. unfold of_list. rewrite (proj2 (Z.ltb_ge _ _)), Nat2Z.id by lia. by apply nth_lookup_Some.
Qed.

Module Paths.

(** skipelem gives the elements of the path one after the other, in order, each
    cut to DIRSIZ characters and nul-terminated when it is shorter; it returns 0
    when there are none left.  The rest of the path is empty exactly when the
    element was the last one, and always shorter than the path. *)
Theorem skipelem_elems (path : list Z) (name : bytes) :
  match skipelem path name with
  | None => elems path = []
  | Some (rest, name') => ∃ e, elems path = e :: elems rest ∧ e ≠ [] ∧ name_is name' e ∧
      (rest = [] ↔ elems rest = []) ∧ (length rest < length path)%nat
  end.
Proof.
  unfold skipelem. pose proof (elems_skip path) as Es. pose proof (skip_slashes_head path) as Hh.
  pose proof (skip_slashes_length path) as Hl. destruct (skip_slashes path) as [|c q] eqn:Eq; [by rewrite <-Es|].
  destruct (take_elem (c :: q)) as [e rest] eqn:Et. destruct (take_elem_spec (c :: q) e rest [] Et) as [Ep Ee].
  assert (He : e ≠ []).
  { intros ->. cbn in Et. rewrite (proj2 (Z.eqb_neq _ _)) in Et by done. by destruct (take_elem q). }
  exists e. split_and!; [by rewrite <-Es, elems_skip; apply Ee|done| | |].
  - destruct (Z.geb_spec (Z.of_nat (length e)) DIRSIZ) as [Hge|Hlt]; (split; [intros i x Hx Hi|intros Hs]); [|lia| |].
    + rewrite mem_copy_in by lia. rewrite Z.add_0_r, Z.sub_0_r. by apply of_list_lookup.
    + pose proof (lookup_lt_Some _ _ _ Hx). rewrite fn_lookup_insert_ne, mem_copy_in by lia.
      rewrite Z.add_0_r, Z.sub_0_r. by apply of_list_lookup.
    + apply fn_lookup_insert.
  - pose proof (skip_slashes_head rest) as Hr. rewrite elems_skip. split; [intros E; rewrite <-elems_skip, E; done|].
    destruct (skip_slashes rest) as [|x r] eqn:Er; [done|]. rewrite <-elems_skip, Er. unfold elems. cbn.
    rewrite (proj2 (Z.eqb_neq _ _)) by done. destruct (take_elem r) as [e' r'] eqn:Et'.
    destruct (take_elem_spec r e' r' [x] Et') as [_ ->]; [done|]. done.
  - pose proof (skip_slashes_length rest). apply (f_equal length) in Ep. rewrite length_app in Ep.
    destruct e; [done|]. cbn in *. lia.
Qed.
End Paths.
