(* ===== verification/Icache.v ===== *)
(** * The inode cache

    iget and idup hand out references to the entries of icache.inode[]; an inode
    has at most one entry with references. *)

From S2P Require Import Prelude Types StringC Spinlock Kalloc Vm Sched Sleeplock Run Bio BioProps Log Tx Fs.

(** An entry in use for inode [inum] of [dev]. *)
Definition entry_for (dev inum : Z) (r : inode) : bool := (i_ref r >? 0) && (i_dev r =? dev) && (i_inum r =? inum).

(** No inode has two entries, and no entry a negative count. *)
Record icache_ok (f : Z → inode) : Prop := {
  ic_once i j dev inum : 0 ≤ i < NINODE → 0 ≤ j < NINODE → entry_for dev inum (f i) = true → entry_for dev inum (f j) = true → i = j;
  ic_ref i : 0 ≤ i < NINODE → 0 ≤ i_ref (f i)
}.

(** The references to an inode. *)
Definition irefs (f : Z → inode) (dev inum : Z) : Z :=
  match icache_hit dev inum f with Some ip => i_ref (f ip) | None => 0 end.

Lemma hit_spec dev inum f ip : icache_hit dev inum f = Some ip → 0 ≤ ip < NINODE ∧ entry_for dev inum (f ip) = true.
Proof.
  intros E. apply List.find_some in E as [Hin He]. split; [|exact He].
  apply list_elem_of_In, elem_of_seqZ in Hin. lia.
Qed.

Lemma hit_none dev inum f i : icache_hit dev inum f = None → 0 ≤ i < NINODE → entry_for dev inum (f i) = false.
Proof.
  intros E Hi. apply (List.find_none _ _ E i). apply list_elem_of_In, elem_of_seqZ. lia.
Qed.

Lemma hit_unique dev inum f ip : icache_ok f → 0 ≤ ip < NINODE → entry_for dev inum (f ip) = true → icache_hit dev inum f = Some ip.
Proof.
  intros Hok Hi He. destruct (icache_hit dev inum f) as [j|] eqn:E.
  - apply hit_spec in E as [Hj Ej]. f_equal. by apply (ic_once _ Hok j ip dev inum).
  - pose proof (hit_none _ _ _ ip E Hi). congruence.
Qed.

Lemma empty_spec f ip : icache_empty f = Some ip → 0 ≤ ip < NINODE ∧ i_ref (f ip) = 0.
Proof.
  intros E. apply List.find_some in E as [Hin He]. apply list_elem_of_In, elem_of_seqZ in Hin. split; [lia|]. lia.
Qed.

Lemma empty_none f i : icache_empty f = None → 0 ≤ i < NINODE → i_ref (f i) ≠ 0.
Proof.
  intros E Hi. pose proof (List.find_none _ _ E i) as He. cbv beta in He. rewrite Z.eqb_neq in He. apply He.
  apply list_elem_of_In, elem_of_seqZ. lia.
Qed.

(** The entry that iget hands out, and what it makes of it. *)
Definition igot (dev inum : Z) (f : Z → inode) : option (Z * inode) :=
  match icache_hit dev inum f with
  | Some ip => Some (ip, set_i_ref (i_ref (f ip) + 1) (f ip))
  | None =>
      match icache_empty f with
      | Some ip => Some (ip, set_i_valid false (set_i_ref 1 (set_i_inum inum (set_i_dev dev (f ip)))))
      | None => None
      end
  end.

Section Icache.
Context {D : DiskOps}.

Lemma iget_run w p dev inum :
  quiet w p →
  match igot dev inum (w_inodes w) with
  | Some (ip, r) => runs (iget dev inum) w ip (set_inodes (<[ip := r]> (w_inodes w)) w)
  | None => panics (iget dev inum) w "iget: no inodes"
  end.
Proof.
  intros Hq. unfold igot, iget. destruct (icache_hit dev inum (w_inodes w)) as [ip|] eqn:Eh.
  - eapply runs_bind; [apply runs_acquire; eauto with xv6|]. rstep. change (w_inodes (locked_by LIcache w)) with (w_inodes w). rewrite Eh.
    unfold upd_inode. rstep. eapply runs_bind; [|apply runs_ret].
    eapply runs_eq; [apply (runs_release LIcache w); eauto with xv6|]. reflexivity.
  - destruct (icache_empty (w_inodes w)) as [ip|] eqn:Ee.
    + eapply runs_bind; [apply runs_acquire; eauto with xv6|]. rstep. change (w_inodes (locked_by LIcache w)) with (w_inodes w). rewrite Eh.
      rstep. change (w_inodes (locked_by LIcache w)) with (w_inodes w). rewrite Ee. unfold upd_inode. do 4 rstep.
      eapply runs_bind; [|apply runs_ret]. rewrite !fn_alter_insert. rsimpl. rewrite !fn_lookup_insert, !fn_insert_insert.
      eapply runs_eq; [apply (runs_release LIcache w); eauto with xv6|]. reflexivity.
    + eapply panics_bind; [apply runs_acquire; eauto with xv6|]. eapply panics_bind; [rstep|]. cbv beta.
      change (w_inodes (locked_by LIcache w)) with (w_inodes w). rewrite Eh. eapply panics_bind; [rstep|]. cbv beta.
      change (w_inodes (locked_by LIcache w)) with (w_inodes w). rewrite Ee. by intros env v _.
Qed.

Lemma idup_run w p ip :
  quiet w p → runs (idup ip) w ip (set_inodes (<[ip := set_i_ref (i_ref (w_inodes w ip) + 1) (w_inodes w ip)]> (w_inodes w)) w).
Proof.
  intros Hq. unfold idup, upd_inode. eapply runs_bind; [apply runs_acquire; eauto with xv6|]. rstep.
  eapply runs_bind; [|apply runs_ret]. eapply runs_eq; [apply (runs_release LIcache w); eauto with xv6|]. reflexivity.
Qed.

(** The last reference to an unlinked inode frees it; any other is only dropped. *)
Definition last_put (r : inode) : bool := (i_ref r =? 1) && i_valid r && (i_nlink r =? 0).

Lemma iput_run w p ip :
  quiet w p → last_put (w_inodes w ip) = false →
  runs (iput ip) w tt (set_inodes (<[ip := set_i_ref (i_ref (w_inodes w ip) - 1) (w_inodes w ip)]> (w_inodes w)) w).
Proof.
  intros Hq Hl. unfold iput, get_inode, upd_inode. eapply runs_bind; [apply runs_acquire; eauto with xv6|]. rstep.
  change (w_inodes (locked_by LIcache w)) with (w_inodes w). unfold last_put in Hl. rewrite Hl. cbn [when]. rsteps.
  eapply runs_eq; [apply (runs_release LIcache w); eauto with xv6|]. reflexivity.
Qed.
End Icache.

(** ** Counting references *)

Lemma irefs_hit f dev inum ip :
  icache_ok f → 0 ≤ ip < NINODE → i_dev (f ip) = dev → i_inum (f ip) = inum → 0 < i_ref (f ip) → irefs f dev inum = i_ref (f ip).
Proof.
  intros Hok Hi Ed En Hr. unfold irefs. rewrite (hit_unique _ _ _ ip); [done..|].
  unfold entry_for. rewrite Ed, En, !Z.eqb_refl, !andb_true_r. lia.
Qed.

Lemma irefs_none f dev inum : (∀ i, 0 ≤ i < NINODE → entry_for dev inum (f i) = false) → irefs f dev inum = 0.
Proof.
  intros Hf. unfold irefs. destruct (icache_hit dev inum f) as [j|] eqn:E; [|done].
  apply hit_spec in E as [Hj Ej]. rewrite Hf in Ej by done. done.
Qed.

Lemma irefs_eq f g dev inum :
  icache_ok f → icache_ok g →
  (∀ i, 0 ≤ i < NINODE → entry_for dev inum (f i) = true → entry_for dev inum (g i) = true ∧ i_ref (g i) = i_ref (f i)) →
  (∀ i, 0 ≤ i < NINODE → entry_for dev inum (g i) = true → entry_for dev inum (f i) = true) →
  irefs g dev inum = irefs f dev inum.
Proof.
  intros Hf Hg Hfg Hgf. unfold irefs at 2. destruct (icache_hit dev inum f) as [i|] eqn:E.
  - apply hit_spec in E as [Hi Ei]. destruct (Hfg i Hi Ei) as [Eg Er]. unfold irefs. rewrite (hit_unique _ _ _ i); done.
  - apply irefs_none. intros i Hi. destruct (entry_for dev inum (g i)) eqn:Eg; [|done].
    apply Hgf in Eg; [|done]. by rewrite (hit_none _ _ _ _ E Hi) in Eg.
Qed.

(** An entry changes without becoming another inode's: the cache stays good and
    only its own inode's count changes. *)
Definition fits_at (f : Z → inode) (ip : Z) (r : inode) : Prop :=
  0 ≤ ip < NINODE ∧ 0 ≤ i_ref r ∧
  (∀ j, 0 ≤ j < NINODE → entry_for (i_dev r) (i_inum r) (f j) = true → j = ip) ∧
  (0 < i_ref (f ip) → i_dev r = i_dev (f ip) ∧ i_inum r = i_inum (f ip)).

Lemma entry_spec dev inum r : entry_for dev inum r = true ↔ 0 < i_ref r ∧ i_dev r = dev ∧ i_inum r = inum.
Proof. unfold entry_for. rewrite !andb_true_iff, !Z.eqb_eq, Z.gtb_lt. tauto. Qed.

Lemma fits_ok f ip r : icache_ok f → fits_at f ip r → icache_ok (<[ip := r]> f).
Proof.
  intros Hok (Hi & Hr & Hu & He). split.
  - intros i j dev inum Hi' Hj. rewrite !fn_lookup_insert_if. destruct (decide (ip = i)), (decide (ip = j)); [congruence|..].
    + intros Ei Ej. apply entry_spec in Ei as (E1 & <- & <-). subst i. symmetry. by apply Hu.
    + intros Ei Ej. apply entry_spec in Ej as (E1 & <- & <-). subst j. by apply Hu.
    + by apply (ic_once _ Hok).
  - intros i Hi'. rewrite fn_lookup_insert_if. destruct (decide (ip = i)); [done|]. by apply (ic_ref _ Hok).
Qed.

Lemma fits_irefs f ip r dev inum :
  icache_ok f → fits_at f ip r →
  irefs (<[ip := r]> f) dev inum = if (i_dev r =? dev) && (i_inum r =? inum) then i_ref r else irefs f dev inum.
Proof.
  intros Hok Hfit. pose proof (fits_ok f ip r Hok Hfit) as Hok'. destruct Hfit as (Hi & Hr & Hu & He).
  destruct (_ && _) eqn:Eb.
  - apply andb_true_iff in Eb as [Ed%Z.eqb_eq En%Z.eqb_eq]. destruct (decide (i_ref r = 0)) as [Ez|Hz].
    + rewrite Ez. apply irefs_none. intros i Hi'. rewrite fn_lookup_insert_if. apply not_true_iff_false. intros E.
      destruct (decide (ip = i)).
      * apply entry_spec in E as [? _]. lia.
      * apply entry_spec in E as E'. destruct E' as (_ & Ed' & En'). pose proof (Hu i Hi') as Hi2.
        rewrite Ed, En in Hi2. by specialize (Hi2 E).
    + rewrite (irefs_hit _ dev inum ip); rewrite ?fn_lookup_insert; try done; lia.
  - apply irefs_eq; try done.
    + intros i Hi' E. rewrite fn_lookup_insert_if. destruct (decide (ip = i)) as [->|]; [|done].
      apply entry_spec in E as (E1 & E2 & E3). destruct (He E1). lia.
    + intros i Hi'. rewrite fn_lookup_insert_if. destruct (decide (ip = i)) as [->|]; [|done].
      intros E%entry_spec. lia.
Qed.

Lemma igot_fits f dev inum ip r :
  icache_ok f → igot dev inum f = Some (ip, r) →
  fits_at f ip r ∧ i_dev r = dev ∧ i_inum r = inum ∧ i_ref r = irefs f dev inum + 1.
Proof.
  intros Hok E. unfold igot in E. unfold irefs. destruct (icache_hit dev inum f) as [i|] eqn:Eh.
  - simplify_eq. apply hit_spec in Eh as [Hi Ei]. pose proof Ei as (E1 & E2 & E3)%entry_spec. rsimpl.
    split_and!; [|done..]. split_and!; rsimpl; [lia..| |done]. intros j Hj Ej. rewrite E2, E3 in Ej.
    by apply (ic_once _ Hok j ip dev inum).
  - destruct (icache_empty f) as [i|] eqn:Ee; [|done]. simplify_eq. apply empty_spec in Ee as [Hi Ei]. rsimpl.
    split_and!; [|done..]. split_and!; rsimpl; [lia..| |lia]. intros j Hj Ej. by rewrite (hit_none _ _ _ _ Eh Hj) in Ej.
Qed.

Lemma held_fits f ip n :
  icache_ok f → 0 ≤ ip < NINODE → 0 < i_ref (f ip) → 0 ≤ n → fits_at f ip (set_i_ref n (f ip)).
Proof.
  intros Hok Hi Hr Hn. split; [done|]. split; [done|]. split; [|done]. intros j Hj Ej. apply (ic_once _ Hok j ip (i_dev (f ip)) (i_inum (f ip))); try done.
  by apply entry_spec.
Qed.

Lemma igot_ref f dev inum ip r : igot dev inum f = Some (ip, r) → 0 < i_ref r.
Proof.
  unfold igot. destruct (icache_hit dev inum f) as [i|] eqn:Eh.
  - intros [= <- <-]. apply hit_spec in Eh as (_ & (Hi & _)%entry_spec). rsimpl. lia.
  - destruct (icache_empty f); [|done]. by intros [= <- <-].
Qed.

(** The references of every inode but that of [dev] and [inum], which has [n]. *)
Definition counts (f g : Z → inode) (dev inum n : Z) : Prop :=
  ∀ d i, irefs g d i = if (dev =? d) && (inum =? i) then n else irefs f d i.

Lemma igot_not_last f dev inum ip r : igot dev inum f = Some (ip, r) → last_put r = false.
Proof.
  unfold igot, last_put. destruct (icache_hit dev inum f) as [i|] eqn:Eh.
  - intros [= <- <-]. apply hit_spec in Eh as (_ & (Hi & _)%entry_spec). rsimpl. rewrite (proj2 (Z.eqb_neq _ _)) by lia. done.
  - destruct (icache_empty f); [|done]. by intros [= <- <-].
Qed.

Lemma iget_spec {D : DiskOps} w p dev inum :
  let f := w_inodes w in
  quiet w p → icache_ok f →
  (irefs f dev inum = 0 ∧ (∀ i, 0 ≤ i < NINODE → 0 < i_ref (f i)) ∧ panics (iget dev inum) w "iget: no inodes") ∨
  ((0 < irefs f dev inum ∨ ∃ i, 0 ≤ i < NINODE ∧ i_ref (f i) = 0) ∧
   ∃ ip w', runs (iget dev inum) w ip w' ∧ 0 ≤ ip < NINODE ∧ entry_for dev inum (w_inodes w' ip) = true ∧
     icache_ok (w_inodes w') ∧ counts f (w_inodes w') dev inum (irefs f dev inum + 1) ∧
     (∃ g, w' = set_inodes g w) ∧ last_put (w_inodes w' ip) = false).
Proof.
  intros f Hq Hok. pose proof (iget_run w p dev inum Hq) as Hr. fold f in Hr. destruct (igot dev inum f) as [[ip r]|] eqn:E.
  - right. destruct (igot_fits f dev inum ip r Hok E) as (Hfit & Ed & En & Er). split.
    + unfold igot in E. unfold irefs. destruct (icache_hit dev inum f) as [i|] eqn:Eh.
      * left. by apply hit_spec in Eh as (_ & (Hi & _)%entry_spec).
      * destruct (icache_empty f) as [i|] eqn:Ee; [|done]. right. exists i. by apply empty_spec.
    + eexists ip, _. split; [exact Hr|]. cbn [w_inodes set_inodes]. split; [apply Hfit|]. split_and!.
      * rewrite fn_lookup_insert. apply entry_spec. split_and!; [|done..]. apply igot_ref in E. lia.
      * by apply fits_ok.
      * intros d i. rewrite (fits_irefs f ip r d i) by done. by rewrite Ed, En, Er.
      * by eexists.
      * rewrite fn_lookup_insert. by apply igot_not_last in E.
  - left. unfold igot in E. destruct (icache_hit dev inum f) as [i|] eqn:Eh; [done|].
    destruct (icache_empty f) as [i|] eqn:Ee; [done|]. split_and!; [by unfold irefs; rewrite Eh| |done].
    intros i Hi. pose proof (empty_none _ _ Ee Hi). pose proof (ic_ref _ Hok i Hi). lia.
Qed.

(** The cache has an entry for the inode, or a free one. *)
Definition icache_room (f : Z → inode) (dev inum : Z) : Prop := 0 < irefs f dev inum ∨ ∃ i, 0 ≤ i < NINODE ∧ i_ref (f i) = 0.

Lemma iput_spec {D : DiskOps} w p ip :
  let f := w_inodes w in let r := f ip in
  quiet w p → icache_ok f → 0 ≤ ip < NINODE → 0 < i_ref r → last_put r = false →
  ∃ g, runs (iput ip) w tt (set_inodes g w) ∧ icache_ok g ∧ counts f g (i_dev r) (i_inum r) (irefs f (i_dev r) (i_inum r) - 1).
Proof.
  intros f r Hq Hok Hi Hr Hl. pose proof (held_fits f ip (i_ref r - 1) Hok Hi Hr ltac:(lia)) as Hfit.
  eexists. split; [exact (iput_run w p ip Hq Hl)|]. split; [by apply fits_ok|].
  intros d i. rewrite (irefs_hit f _ _ ip) by done. exact (fits_irefs _ _ _ d i Hok Hfit).
Qed.

Lemma iget_iput {D : DiskOps} w p dev inum :
  let f := w_inodes w in
  quiet w p → icache_ok f → icache_room f dev inum →
  ∃ ip w1 g, runs (iget dev inum) w ip w1 ∧ runs (iput ip) w1 tt (set_inodes g w) ∧ icache_ok g ∧ ∀ d i, irefs g d i = irefs f d i.
Proof.
  intros f Hq Hok Hroom. destruct (iget_spec w p dev inum Hq Hok) as [(Z0 & Hfull & _)|(_ & ip & w1 & E & Hip & He & Hok1 & Hc & (g1 & ->) & Hl)].
  { exfalso. destruct Hroom as [?|(i & Hi & Hz)]; [fold f in Z0; lia|]. specialize (Hfull i Hi). fold f in Hfull. lia. }
  apply entry_spec in He as (Hr & Ed & En). destruct (iput_spec (set_inodes g1 w) p ip) as (g & E2 & Hok2 & Hc2); [exact Hq|done..|].
  exists ip, (set_inodes g1 w), g. split_and!; [done|exact E2|done|]. intros d i. rewrite Hc2, Ed, En, !Hc, !Z.eqb_refl. cbn [andb].
  destruct (_ && _) eqn:Eb; [|done]. apply andb_true_iff in Eb as [<-%Z.eqb_eq <-%Z.eqb_eq]. fold f. lia.
Qed.

(** A cache with one entry, [r], in use. *)
Definition one_entry (r : inode) : Z → inode := λ i, if i =? 0 then r else set_i_ref 0 r.

Lemma one_entry_ok r : 0 ≤ i_ref r → icache_ok (one_entry r).
Proof.
  intros Hr. split.
  - intros i j dev inum _ _ Ei Ej. apply entry_spec in Ei as [Ei _]. apply entry_spec in Ej as [Ej _]. unfold one_entry in Ei, Ej.
    destruct (Z.eqb_spec i 0), (Z.eqb_spec j 0); cbn in Ei, Ej; lia.
  - intros i _. unfold one_entry. destruct (i =? 0); [done|cbn; lia].
Qed.

(** Inode 7 has two references. *)
Definition sample_icache : Z → inode := one_entry (mkInode ROOTDEV 7 2 false 0 0 0 0 0 zeroes).

Lemma sample_icache_ok : icache_ok sample_icache.
Proof. by apply one_entry_ok. Qed.

Module InodeCache.

(** C20: iget finds an inode by device and number.  When the inode is cached, or some
    entry is free, it returns an entry of the table that stands for this inode
    and adds one to its references; no other inode's references change, and the
    inode still has one entry only, so that two callers share it.  With every
    entry in use by other inodes it panics. *)
Theorem iget_counts {D : DiskOps} w p dev inum :
  let f := w_inodes w in
  quiet w p → icache_ok f →
  (irefs f dev inum = 0 ∧ (∀ i, 0 ≤ i < NINODE → 0 < i_ref (f i)) ∧ panics (iget dev inum) w "iget: no inodes") ∨
  ((0 < irefs f dev inum ∨ ∃ i, 0 ≤ i < NINODE ∧ i_ref (f i) = 0) ∧
   ∃ ip w', runs (iget dev inum) w ip w' ∧ 0 ≤ ip < NINODE ∧ entry_for dev inum (w_inodes w' ip) = true ∧
     icache_ok (w_inodes w') ∧ counts f (w_inodes w') dev inum (irefs f dev inum + 1)).
Proof.
  intros f Hq Hok. destruct (iget_spec w p dev inum Hq Hok) as [H|(Hf & ip & w' & H)]; [by left|right]. split; [done|]. exists ip, w'. tauto.
Qed.

Lemma iget_counts_witness :
  ∃ w ip w', runs (D := prompt_disk) (iget ROOTDEV 7) w ip w' ∧ irefs (w_inodes w') ROOTDEV 7 = 3.
Proof.
  destruct (sample_fs (λ _, zeroes) sample_icache) as (w & _ & _ & _ & _ & Hi & _ & Hq & _).
  destruct (iget_counts (D := prompt_disk) w 1 ROOTDEV 7 Hq) as [(E & _)|(_ & ip & w' & E & _ & _ & _ & Hc)].
  - rewrite Hi. apply sample_icache_ok.
  - by rewrite Hi in E.
  - exists w, ip, w'. split; [exact E|]. rewrite Hc, Hi. reflexivity.
Defined.

(** idup adds a reference to an entry in use, and iput takes one away, unless it
    is the last one to a loaded inode without links, which iput frees on disk:
    the table stays good, the other inodes' references do not change, and a
    reference taken and put back leaves the machine as it was. *)
Theorem idup_iput_counts {D : DiskOps} w p ip :
  let f := w_inodes w in let r := f ip in
  quiet w p → icache_ok f → 0 ≤ ip < NINODE → 0 < i_ref r →
  (∃ w', runs (idup ip) w ip w' ∧ icache_ok (w_inodes w') ∧
    counts f (w_inodes w') (i_dev r) (i_inum r) (irefs f (i_dev r) (i_inum r) + 1) ∧ runs (iput ip) w' tt w) ∧
  (last_put r = false →
    ∃ w', runs (iput ip) w tt w' ∧ icache_ok (w_inodes w') ∧
      counts f (w_inodes w') (i_dev r) (i_inum r) (irefs f (i_dev r) (i_inum r) - 1)).
Proof.
  intros f r Hq Hok Hi Hr. assert (Ei : irefs f (i_dev r) (i_inum r) = i_ref r) by by apply (irefs_hit f _ _ ip). split.
  - pose proof (held_fits f ip (i_ref r + 1) Hok Hi Hr ltac:(lia)) as Hfit.
    eexists. split; [exact (idup_run w p ip Hq)|]. cbn [w_inodes set_inodes]. split_and!; [by apply fits_ok| |].
    + intros d i. rewrite Ei. exact (fits_irefs _ _ _ d i Hok Hfit).
    + eapply runs_eq; [apply (iput_run _ p)|].
      * exact Hq.
      * cbn. rewrite fn_lookup_insert. unfold last_put. rsimpl. fold f r. rewrite (proj2 (Z.eqb_neq _ _)) by lia. done.
      * cbn [w_inodes set_inodes]. rewrite fn_lookup_insert, fn_insert_insert. unfold set_i_ref at 1. rsimpl. fold f r.
        replace (i_ref r + 1 - 1) with (i_ref r) by lia. change (mkInode _ _ _ _ _ _ _ _ _ _) with r. unfold r. by rewrite fn_insert_id.
  - intros Hl. destruct (iput_spec w p ip Hq Hok Hi Hr Hl) as (g & E & Hok' & Hc). by exists (set_inodes g w).
Qed.

Lemma idup_iput_counts_witness :
  ∃ w w', runs (D := prompt_disk) (iput (H := prompt_disk) 0) w tt w' ∧ irefs (w_inodes w') ROOTDEV 7 = 1.
Proof.
  destruct (sample_fs (λ _, zeroes) sample_icache) as (w & _ & _ & _ & _ & Hi & _ & Hq & _).
  destruct (idup_iput_counts (D := prompt_disk) w 1 0 Hq) as [_ Hp]; rewrite ?Hi; [apply sample_icache_ok|done..|].
  destruct Hp as (w' & E & _ & Hc); [by rewrite Hi|]. exists w, w'. split; [exact E|]. rewrite Hc, Hi. reflexivity.
Defined.

End InodeCache.
