(* ===== verification/FsBlocks.v ===== *)
(** * The free map

    balloc and bfree, inside a transaction: which blocks are in use, and what
    becomes of their contents. *)

From S2P Require Import Prelude Types StringC Spinlock Kalloc Vm Sched Sleeplock Run Bio Cache BioProps Log Recover LogOps Tx Fs.

(** ** Bits *)

Lemma bit_at_testbit d i : 0 ≤ i → bit_at d i = Z.testbit (d (i / 8)) (i `mod` 8).
Proof.
  intros Hi. unfold bit_at. pose proof (Z.mod_pos_bound i 8 ltac:(lia)) as Hm. set (k := i `mod` 8) in *.
  rewrite Z.shiftl_1_l. destruct (Z.testbit (d (i / 8)) k) eqn:E.
  - apply nz_true. intros E0. apply (f_equal (λ x, Z.testbit x k)) in E0.
    rewrite Z.land_spec, E, Z.pow2_bits_true, Z.bits_0 in E0 by lia. done.
  - apply nz_false. apply Z.bits_inj_iff'. intros j Hj. rewrite Z.land_spec, Z.bits_0.
    destruct (decide (j = k)) as [->|Hne]; [by rewrite E|]. by rewrite Z.pow2_bits_false, andb_false_r by lia.
Qed.

Definition set_bit (d : bytes) (i : Z) : bytes := <[i / 8 := u8 (Z.lor (d (i / 8)) (1 ≪ (i `mod` 8)))]> d.
Definition clear_bit (d : bytes) (i : Z) : bytes := <[i / 8 := u8 (Z.land (d (i / 8)) (Z.lnot (1 ≪ (i `mod` 8))))]> d.

Lemma bit_split i j : 0 ≤ i → 0 ≤ j → i / 8 = j / 8 → i `mod` 8 = j `mod` 8 → i = j.
Proof. intros Hi Hj E1 E2. rewrite (Z.div_mod i 8), (Z.div_mod j 8) by lia. lia. Qed.

Lemma set_bit_at d i j : 0 ≤ i → 0 ≤ j → bit_at (set_bit d i) j = bool_decide (i = j) || bit_at d j.
Proof.
  intros Hi Hj. rewrite !bit_at_testbit by done. unfold set_bit. rewrite fn_lookup_insert_if. case_decide as E.
  - pose proof (Z.mod_pos_bound j 8 ltac:(lia)). pose proof (Z.mod_pos_bound i 8 ltac:(lia)).
    unfold u8. rewrite Z.mod_pow2_bits_low, Z.lor_spec, Z.shiftl_1_l, E by lia.
    case_bool_decide as Eij; [subst; by rewrite Z.pow2_bits_true, orb_true_r by lia|].
    rewrite Z.pow2_bits_false, orb_false_r; [done|]. intros Em. apply Eij. by apply bit_split.
  - rewrite bool_decide_false; [done|]. by intros ->.
Qed.

Lemma clear_bit_at d i j : 0 ≤ i → 0 ≤ j → bit_at (clear_bit d i) j = bool_decide (i ≠ j) && bit_at d j.
Proof.
  intros Hi Hj. rewrite !bit_at_testbit by done. unfold clear_bit. rewrite fn_lookup_insert_if. case_decide as E.
  - pose proof (Z.mod_pos_bound j 8 ltac:(lia)). pose proof (Z.mod_pos_bound i 8 ltac:(lia)).
    unfold u8. rewrite Z.mod_pow2_bits_low, Z.land_spec, Z.lnot_spec, Z.shiftl_1_l, E by lia.
    case_bool_decide as Eij.
    + rewrite Z.pow2_bits_false, andb_true_r; [done|]. intros Em. apply Eij. by apply bit_split.
    + subst. by rewrite Z.pow2_bits_true, andb_false_r by lia.
  - rewrite bool_decide_true; [done|]. by intros ->.
Qed.

(** The first clear bit. *)
Lemma first_clear_some d n i : 0 ≤ i < n → bit_at d i = false → (∀ j, 0 ≤ j < i → bit_at d j = true) → first_clear d n = Some i.
Proof.
  intros Hi Hb Hj. apply find_seqZ_first; [done|by rewrite Hb|]. intros j Hj'. by rewrite Hj.
Qed.
Lemma first_clear_none d n : (∀ j, 0 ≤ j < n → bit_at d j = true) → first_clear d n = None.
Proof. intros Hj. apply find_seqZ_none. intros j Hj'. rewrite Hj; [done|lia]. Qed.

(** ** The bitmap *)

(** Block [b] is marked as in use. *)
Definition in_use (w : world) (sb : superblock) (b : Z) : bool := bit_at (view w (BBLOCK b sb)) (b `mod` BPB).

(** The bitmap covers the blocks of the file system, outside the log, and is not
    being looked at. *)
Record bitmap (w : world) (sb : superblock) (H : list Z) : Prop := {
  bm_size : 0 ≤ sb_size sb < 2 ^ 31;
  bm_start : 0 ≤ sb_bmapstart sb < 2 ^ 31;
  bm_log b : 0 ≤ b < sb_size sb → loggable w (b / BPB + sb_bmapstart sb);
  bm_free b : 0 ≤ b < sb_size sb → b / BPB + sb_bmapstart sb ∉ H
}.

Lemma BBLOCK_small w sb H b : bitmap w sb H → 0 ≤ b < sb_size sb → BBLOCK b sb = b / BPB + sb_bmapstart sb.
Proof. intros Hb Hr. unfold BBLOCK. apply u32_small. destruct (bm_log _ _ _ Hb b Hr) as [Hn _]. lia. Qed.

Lemma BBLOCK_loggable w sb H b : bitmap w sb H → 0 ≤ b < sb_size sb → loggable w (BBLOCK b sb) ∧ BBLOCK b sb ∉ H.
Proof. intros Hb Hr. rewrite (BBLOCK_small w sb H) by done. split; [by apply (bm_log _ _ _ Hb)|by apply (bm_free _ _ _ Hb)]. Qed.

Lemma bitmap_step w w' sb H : fstep w w' → bitmap w sb H → bitmap w' sb H.
Proof. intros S [B1 B2 B3 B4]. split; try done. intros b Hb. eapply fstep_loggable; [done|by apply B3]. Qed.

Lemma bit_block i sb b : 0 ≤ i → b / BPB = i → BBLOCK (i * BPB) sb = BBLOCK b sb.
Proof. intros Hi <-. unfold BBLOCK. by rewrite Z.div_mul. Qed.

Lemma div_mod_at i j n : 0 ≤ j < n → (i * n + j) / n = i ∧ (i * n + j) `mod` n = j.
Proof.
  intros Hj. split.
  - rewrite Z.div_add_l, Z.div_small by lia. lia.
  - rewrite Z.add_comm, Z.mod_add, Z.mod_small by lia. done.
Qed.

(** The rounds of the search are those with a block below the size. *)
Lemma search_range i sb : 0 ≤ i → i < 0 + (sb_size sb + BPB - 1) / BPB → 0 ≤ i ∧ i * BPB < sb_size sb.
Proof.
  intros H0 Hi. split; [done|]. change BPB with 8192 in *.
  pose proof (Z.mul_div_le (sb_size sb + 8192 - 1) 8192 ltac:(done)). lia.
Qed.

Section Blocks.
Context {D : DiskOps} {HD : Disk D}.
Implicit Types (L H : list Z).

(** Between the rounds of balloc's search. *)
Record same_blocks (w v : world) (p : Z) (L H : list Z) : Prop := {
  sm_step : fstep w v;
  sm_blocks : blocks v p L H;
  sm_log : w_log v = w_log w;
  sm_view : view v = view w;
  sm_held b m : held w p b m → m ∈ H → held v p b m
}.

Lemma same_blocks_refl w p L H : blocks w p L H → same_blocks w w p L H.
Proof. done. Qed.

Lemma same_blocks_trans w v v' p L H : same_blocks w v p L H → same_blocks v v' p L H → same_blocks w v' p L H.
Proof.
  intros [S1 B1 G1 V1 K1] [S2 B2 G2 V2 K2]. split; [by rewrite S1|done|by rewrite G2|by rewrite V2|].
  intros b m Hh Hm. apply K2; [|done]. by apply K1.
Qed.

(** A block is read, and released at once. *)
Lemma tx_skim w p L H n :
  blocks w p L H → is_block n → n ∉ H → Z.of_nat (length L) + Z.of_nat (length H) + 1 < NBUF →
  ∃ b v v', runs (bread ROOTDEV n) w b v ∧ b_data (w_bufs v b) = view w n ∧ fstep w v ∧ runs (brelse b) v tt v' ∧
    same_blocks w v' p L H.
Proof.
  intros Hb Hn Hin Hr. destruct (tx_bread w p L H n Hb Hn Hin Hr) as (b & v & E1 & S1 & B1 & H1 & D1 & V1 & C1 & G1 & K1).
  destruct (tx_brelse v p L H b n B1 H1 C1) as (v' & E2 & S2 & B2 & V2 & G2 & K2).
  exists b, v, v'. split_and!; try done. split; [by rewrite S1|done|by rewrite G2|by rewrite V2|].
  intros b' m Hh Hm. apply K2; [by intros ->|by apply K1].
Qed.

(** A round of the search that finds nothing. *)
Lemma balloc_round_none w p L H sb i :
  blocks w p L H → bitmap w sb H → Z.of_nat (length L) + Z.of_nat (length H) + 1 < NBUF →
  0 ≤ i → i * BPB < sb_size sb → (∀ b, 0 ≤ b < sb_size sb → b / BPB = i → in_use w sb b = true) →
  ∃ v, runs (balloc_round ROOTDEV sb (i * BPB)) w None v ∧ same_blocks w v p L H.
Proof.
  intros Hb Hm Hr Hi Hlt Hu. assert (H0 : 0 ≤ i * BPB) by (by apply Z.mul_nonneg_nonneg).
  destruct (BBLOCK_loggable w sb H (i * BPB) Hm) as [[Hn _] Hin]; [lia|].
  destruct (tx_skim w p L H (BBLOCK (i * BPB) sb)) as (b & v & v' & E1 & D1 & S1 & E2 & B2); try done.
  exists v'. split; [|done]. unfold balloc_round. rcall E1. unfold get_buf. rsteps. rewrite D1.
  rewrite first_clear_none.
  - rcall E2. apply runs_ret.
  - intros j Hj. destruct (div_mod_at i j BPB) as [Ediv Emod]; [lia|].
    pose proof (Hu (i * BPB + j) ltac:(lia) Ediv) as E. unfold in_use in E.
    by rewrite <-(bit_block i sb (i * BPB + j)), Emod in E.
Qed.

(** Zeroing a block. *)
Lemma bzero_run w p L H n ops :
  blocks w p L H → logging w L ops → 1 ≤ ops → loggable w n → n ∉ H → Z.of_nat (length L) + 1 < LOGSIZE →
  Z.of_nat (length L) + Z.of_nat (length H) + 2 < NBUF →
  ∃ w', runs (bzero ROOTDEV n) w tt w' ∧ fstep w w' ∧ blocks w' p (logged L n) H ∧ logging w' (logged L n) ops ∧
    view w' = <[n := mem_fill (view w n) 0 BSIZE 0]> (view w) ∧ (∀ b m, held w p b m → m ∈ H → held w' p b m).
Proof.
  intros Hb Hl Ho Hlo Hin Hlen Hr. pose proof Hlo as [Hn _].
  destruct (tx_bread w p L H n) as (b & w1 & E1 & S1 & B1 & H1 & D1 & V1 & C1 & G1 & K1); [done|done|done|lia|].
  destruct (tx_modify w1 p L (n :: H) b n (λ d, mem_fill d 0 BSIZE 0) ops) as (w2 & E2 & S2 & B2 & L2 & V2 & K2); try done.
  { by left. } { by eapply logging_same. } { by eapply fstep_loggable. } { cbn [length]. lia. }
  destruct (tx_brelse w2 p (logged L n) H b n) as (w3 & E3 & S3 & B3 & V3 & G3 & K3); [done|by apply K2|apply settled_logged|].
  exists w3. split_and!.
  - unfold bzero. rewrite u32_small by lia. rcall E1. apply E2. exact E3.
  - by rewrite S1, S2.
  - done.
  - by eapply logging_same.
  - by rewrite V3, V2, V1.
  - intros b' m Hh Hm. apply K3; [by intros ->|]. by apply K2, K1.
Qed.

(** The round that finds block [b]. *)
Lemma balloc_round_some w p L H sb b ops (n := BBLOCK b sb) :
  blocks w p L H → bitmap w sb H → logging w L ops → 1 ≤ ops → Z.of_nat (length L) + 2 < LOGSIZE →
  Z.of_nat (length L) + Z.of_nat (length H) + 3 < NBUF →
  0 ≤ b < sb_size sb → in_use w sb b = false → (∀ c, 0 ≤ c < b → in_use w sb c = true) →
  loggable w b → b ∉ H → b ≠ n →
  ∃ w', runs (balloc_round ROOTDEV sb (b / BPB * BPB)) w (Some b) w' ∧ fstep w w' ∧
    blocks w' p (logged (logged L n) b) H ∧ logging w' (logged (logged L n) b) ops ∧
    view w' = <[b := mem_fill (view w b) 0 BSIZE 0]> (<[n := set_bit (view w n) (b `mod` BPB)]> (view w)) ∧
    (∀ b' m, held w p b' m → m ∈ H → held w' p b' m).
Proof.
  intros Hb Hm Hl Ho Hlen Hr Hrng Hfree Hused Hlo Hin Hne.
  destruct (BBLOCK_loggable w sb H b Hm Hrng) as [Hln Hnin]. fold n in Hln, Hnin. pose proof Hln as [Hn _].
  pose proof (Z.div_mod b BPB ltac:(done)) as Edm. pose proof (Z.mod_pos_bound b BPB ltac:(done)) as Hmod.
  assert (Hlog1 : Z.of_nat (length (logged L n)) ≤ Z.of_nat (length L) + 1).
  { unfold logged. case_bool_decide; rewrite ?length_app; cbn; lia. }
  destruct (tx_bread w p L H n) as (bp & w1 & E1 & S1 & B1 & H1 & D1 & V1 & C1 & G1 & K1); [done|done|done|lia|].
  destruct (tx_modify w1 p L (n :: H) bp n (λ d, set_bit d (b `mod` BPB)) ops) as (w2 & E2 & S2 & B2 & L2 & V2 & K2); try done.
  { by left. } { by eapply logging_same. } { by eapply fstep_loggable. } { lia. } { cbn [length]. lia. }
  destruct (tx_brelse w2 p (logged L n) H bp n) as (w3 & E3 & S3 & B3 & V3 & G3 & K3); [done|by apply K2|apply settled_logged|].
  destruct (bzero_run w3 p (logged L n) H b ops) as (w4 & E4 & S4 & B4 & L4 & V4 & K4); try done; [| |lia..|].
  { by eapply logging_same. } { eapply fstep_loggable; [|done]. by rewrite S1, S2. }
  assert (Efc : first_clear (view w n) (Z.min BPB (sb_size sb - b / BPB * BPB)) = Some (b `mod` BPB)).
  { apply first_clear_some; [lia|done|]. intros j Hj. destruct (div_mod_at (b / BPB) j BPB) as [Ed Em]; [lia|].
    assert (Hq : 0 ≤ b / BPB) by (apply Z.div_pos; [lia|done]).
    pose proof (Z.mul_nonneg_nonneg _ BPB Hq ltac:(done)).
    pose proof (Hused (b / BPB * BPB + j) ltac:(lia)) as E. unfold in_use in E.
    rewrite Em, <-(bit_block (b / BPB) sb), (bit_block (b / BPB) sb b) in E by done. exact E. }
  assert (Eb : b / BPB * BPB + b `mod` BPB = b) by lia.
  exists w4. split_and!.
  - unfold balloc_round. rewrite (bit_block (b / BPB) sb b) by (done || (apply Z.div_pos; [lia|done])). fold n.
    rcall E1. unfold get_buf at 1. rsteps. rewrite D1, Efc. apply E2. rcall E3. rewrite Eb. rcall E4. apply runs_ret.
  - by rewrite S1, S2, S3.
  - done.
  - done.
  - rewrite V4, V3, V2, V1. by rewrite fn_lookup_insert_ne.
  - intros b' m Hh Hm'. apply K4; [|done]. apply K3; [by intros ->|]. by apply K2, K1.
Qed.

Lemma balloc_none w p L H :
  let sb := w_sb w in
  blocks w p L H → bitmap w sb H → Z.of_nat (length L) + Z.of_nat (length H) + 1 < NBUF →
  (∀ b, 0 ≤ b < sb_size sb → in_use w sb b = true) → panics (balloc ROOTDEV) w "balloc: out of blocks".
Proof.
  intros sb Hb Hm Hr Hu. unfold balloc, get_sb. eapply panics_bind; [rstep|]. cbv beta. fold sb.
  destruct (runs_for_find_none (λ v, same_blocks w v p L H) ((λ i, i * BPB) <$> seqZ 0 ((sb_size sb + BPB - 1) / BPB))
    (balloc_round ROOTDEV sb) w) as (v & E & _).
  - by apply same_blocks_refl.
  - intros y v [i [-> [Hi1 Hi2]%elem_of_seqZ]]%list_elem_of_fmap Hv. destruct (search_range i sb Hi1 Hi2) as [Hi0 Hi].
    destruct (balloc_round_none v p L H sb i) as (v' & E & Hv'); try done.
    + apply (sm_blocks _ _ _ _ _ Hv). + eapply bitmap_step; [apply (sm_step _ _ _ _ _ Hv)|done].
    + intros b Hb' _. unfold in_use. rewrite (sm_view _ _ _ _ _ Hv). by apply Hu.
    + exists v'. split; [done|]. by eapply same_blocks_trans.
  - eapply panics_bind; [exact E|]. by intros env v' _.
Qed.

(** What the bitmap says is free may be given away: it is neither in the log nor
    part of the bitmap, and nobody holds it. *)
Definition spare (w : world) (sb : superblock) (H : list Z) : Prop :=
  ∀ b, 0 ≤ b < sb_size sb → in_use w sb b = false →
    loggable w b ∧ b ∉ H ∧ ∀ c, 0 ≤ c < sb_size sb → b ≠ BBLOCK c sb.

Lemma balloc_run w p L H b ops :
  let sb := w_sb w in let n := BBLOCK b sb in
  blocks w p L H → bitmap w sb H → spare w sb H → logging w L ops → 1 ≤ ops → Z.of_nat (length L) + 2 < LOGSIZE →
  Z.of_nat (length L) + Z.of_nat (length H) + 3 < NBUF →
  0 ≤ b < sb_size sb → in_use w sb b = false → (∀ c, 0 ≤ c < b → in_use w sb c = true) →
  ∃ w', runs (balloc ROOTDEV) w b w' ∧ fstep w w' ∧
    blocks w' p (logged (logged L n) b) H ∧ logging w' (logged (logged L n) b) ops ∧
    view w' = <[b := mem_fill (view w b) 0 BSIZE 0]> (<[n := set_bit (view w n) (b `mod` BPB)]> (view w)) ∧
    (∀ b' m, held w p b' m → m ∈ H → held w' p b' m).
Proof.
  intros sb n Hb Hm Hsp Hl Ho Hlen Hr Hrng Hfree Hused. destruct (Hsp b Hrng Hfree) as (Hlo & Hin & Hno).
  set (Q := λ w', fstep w w' ∧ blocks w' p (logged (logged L n) b) H ∧ logging w' (logged (logged L n) b) ops ∧
    view w' = <[b := mem_fill (view w b) 0 BSIZE 0]> (<[n := set_bit (view w n) (b `mod` BPB)]> (view w)) ∧
    (∀ b' m, held w p b' m → m ∈ H → held w' p b' m)).
  assert (Hq : 0 ≤ b / BPB < 0 + (sb_size sb + BPB - 1) / BPB).
  { split; [apply Z.div_pos; [lia|done]|]. apply Z.div_lt_upper_bound; [done|].
    pose proof (Z.mul_succ_div_gt (sb_size sb + BPB - 1) BPB ltac:(done)). change BPB with 8192 in *. lia. }
  pose proof (Z.mul_div_le b BPB ltac:(done)) as Hdm. pose proof (Z.mul_succ_div_gt b BPB ltac:(done)) as Hdm'.
  destruct (runs_for_find (λ v, same_blocks w v p L H) Q ((λ i, i * BPB) <$> seqZ 0 (b / BPB)) (b / BPB * BPB)
    ((λ i, i * BPB) <$> seqZ (b / BPB + 1) ((sb_size sb + BPB - 1) / BPB - b / BPB - 1)) (balloc_round ROOTDEV sb) b w) as (w' & E & HQ).
  - by apply same_blocks_refl.
  - intros y v [i [-> [Hi1 Hi2]%elem_of_seqZ]]%list_elem_of_fmap Hv. 
    destruct (balloc_round_none v p L H sb i) as (v' & E & Hv'); [apply (sm_blocks _ _ _ _ _ Hv)| |lia|done| | |].
    + eapply bitmap_step; [apply (sm_step _ _ _ _ _ Hv)|done].
    + change BPB with 8192 in *. lia.
    + intros c Hc Ec. unfold in_use. rewrite (sm_view _ _ _ _ _ Hv). apply Hused. pose proof (Z.mul_succ_div_gt c BPB ltac:(done)). change BPB with 8192 in *. lia.
    + exists v'. split; [done|]. by eapply same_blocks_trans.
  - intros v [S1 B1 G1 V1 K1]. assert (Eu : ∀ c, in_use v sb c = in_use w sb c) by (intros c; unfold in_use; by rewrite V1).
    destruct (balloc_round_some v p L H sb b ops) as (w' & E & S2 & B2 & L2 & V2 & K2); try done.
    + by eapply bitmap_step. + by eapply logging_same. + by rewrite Eu. + intros c Hc. rewrite Eu. by apply Hused.
    + by eapply fstep_loggable. + by apply Hno.
    + exists w'. split; [done|]. unfold Q. rewrite V1 in V2. split_and!; try done; [by rewrite S1|]. intros b' m Hh Hin'. apply K2; [|done]. by apply K1.
  - exists w'. split; [|exact HQ]. unfold balloc, get_sb. rsteps. fold sb.
    replace (seqZ 0 ((sb_size sb + BPB - 1) / BPB)) with (seqZ 0 (b / BPB) ++ b / BPB :: seqZ (b / BPB + 1) ((sb_size sb + BPB - 1) / BPB - b / BPB - 1)).
    + rewrite fmap_app, fmap_cons. rcall E. apply runs_ret.
    + rewrite (seqZ_split 0 ((sb_size sb + BPB - 1) / BPB) (b / BPB)) by done. by rewrite Z.sub_0_r, Z.add_0_l.
Qed.

(** bfree clears the bit. *)
Lemma bfree_run w p L H b ops :
  let sb := w_sb w in let n := BBLOCK b sb in
  blocks w p L H → bitmap w sb H → logging w L ops → 1 ≤ ops → Z.of_nat (length L) + 1 < LOGSIZE →
  Z.of_nat (length L) + Z.of_nat (length H) + 2 < NBUF →
  0 ≤ b < sb_size sb → in_use w sb b = true →
  ∃ w', runs (bfree ROOTDEV b) w tt w' ∧ fstep w w' ∧
    blocks w' p (logged L n) H ∧ logging w' (logged L n) ops ∧
    view w' = <[n := clear_bit (view w n) (b `mod` BPB)]> (view w) ∧
    (∀ b' m, held w p b' m → m ∈ H → held w' p b' m).
Proof.
  intros sb n Hb Hm Hl Ho Hlen Hr Hrng Hu. destruct (BBLOCK_loggable w sb H b Hm Hrng) as [Hln Hnin]. fold n in Hln, Hnin. pose proof Hln as [Hn _].
  destruct (tx_bread w p L H n) as (bp & w1 & E1 & S1 & B1 & H1 & D1 & V1 & C1 & G1 & K1); [done|done|done|lia|].
  destruct (tx_modify w1 p L (n :: H) bp n (λ d, clear_bit d (b `mod` BPB)) ops) as (w2 & E2 & S2 & B2 & L2 & V2 & K2); try done.
  { by left. } { by eapply logging_same. } { by eapply fstep_loggable. } { cbn [length]. lia. }
  destruct (tx_brelse w2 p (logged L n) H bp n) as (w3 & E3 & S3 & B3 & V3 & G3 & K3); [done|by apply K2|apply settled_logged|].
  exists w3. split_and!.
  - unfold bfree, get_sb. rsteps. fold sb n. rcall E1. unfold get_buf. rsteps. rewrite D1.
    unfold in_use in Hu. fold n in Hu. rewrite Hu. cbn [negb]. apply E2. exact E3.
  - by rewrite S1, S2.
  - done.
  - by eapply logging_same.
  - by rewrite V3, V2, V1.
  - intros b' m Hh Hm'. apply K3; [by intros ->|]. by apply K2, K1.
Qed.

Lemma bfree_panics w p L H b :
  let sb := w_sb w in
  blocks w p L H → bitmap w sb H → Z.of_nat (length L) + Z.of_nat (length H) + 2 < NBUF →
  0 ≤ b < sb_size sb → in_use w sb b = false → panics (bfree ROOTDEV b) w "freeing free block".
Proof.
  intros sb Hb Hm Hr Hrng Hu. destruct (BBLOCK_loggable w sb H b Hm Hrng) as [[Hn _] Hnin].
  destruct (tx_bread w p L H (BBLOCK b sb)) as (bp & w1 & E1 & S1 & B1 & H1 & D1 & _); [done|done|done|lia|].
  unfold bfree, get_sb. eapply panics_bind; [rstep|]. cbv beta. fold sb. eapply panics_bind; [exact E1|].
  unfold get_buf. eapply panics_bind; [rstep|]. cbv beta. rewrite D1. unfold in_use in Hu. rewrite Hu. by intros env v _.
Qed.
End Blocks.

(** ** What the free map says after balloc and bfree *)

Lemma same_bit w sb H b c : bitmap w sb H → 0 ≤ b < sb_size sb → 0 ≤ c < sb_size sb →
  BBLOCK b sb = BBLOCK c sb → b `mod` BPB = c `mod` BPB → b = c.
Proof.
  intros Hm Hb Hc E1 E2. rewrite !(BBLOCK_small w sb H) in E1 by done.
  rewrite (Z.div_mod b BPB), (Z.div_mod c BPB) by done. lia.
Qed.

Lemma in_use_set w w' sb H b c d : bitmap w sb H → 0 ≤ b < sb_size sb → 0 ≤ c < sb_size sb → b ≠ BBLOCK c sb →
  view w' = <[b := d]> (<[BBLOCK b sb := set_bit (view w (BBLOCK b sb)) (b `mod` BPB)]> (view w)) →
  in_use w' sb c = bool_decide (b = c) || in_use w sb c.
Proof.
  intros Hm Hb Hc Hne V. unfold in_use. rewrite V, fn_lookup_insert_ne, fn_lookup_insert_if by done.
  case_decide as E.
  - rewrite set_bit_at by (by apply Z.mod_pos_bound). rewrite E. f_equal. apply bool_decide_ext.
    split; [by apply (same_bit w sb H)|by intros ->].
  - rewrite bool_decide_false; [done|]. by intros ->.
Qed.

Lemma in_use_clear w w' sb H b c : bitmap w sb H → 0 ≤ b < sb_size sb → 0 ≤ c < sb_size sb →
  view w' = <[BBLOCK b sb := clear_bit (view w (BBLOCK b sb)) (b `mod` BPB)]> (view w) →
  in_use w' sb c = bool_decide (b ≠ c) && in_use w sb c.
Proof.
  intros Hm Hb Hc V. unfold in_use. rewrite V, fn_lookup_insert_if. case_decide as E.
  - rewrite clear_bit_at by (by apply Z.mod_pos_bound). rewrite E. f_equal. apply bool_decide_ext.
    split; [by intros Hx ->|]. intros Hx E2. apply Hx. by apply (same_bit w sb H).
  - rewrite bool_decide_true; [done|]. by intros ->.
Qed.

Module FreeMap.
Section Props.
Context {D : DiskOps} {HD : Disk D}.

(** C18: balloc returns the first block that the bitmap has as free, marks it and no
    other, fills it with zeros and changes no other block, all of it in the log;
    with no free block it panics. *)
Theorem balloc_allocates w p (L H : list Z) ops :
  let sb := w_sb w in
  blocks w p L H → logging w L ops → 1 ≤ ops → bitmap w sb H → spare w sb H →
  Z.of_nat (length L) + 2 < LOGSIZE → Z.of_nat (length L) + Z.of_nat (length H) + 3 < NBUF →
  (∀ b, 0 ≤ b < sb_size sb → in_use w sb b = false → (∀ c, 0 ≤ c < b → in_use w sb c = true) →
    ∃ w' L', runs (balloc ROOTDEV) w b w' ∧ blocks w' p L' H ∧ logging w' L' ops ∧ b ∈ L' ∧ BBLOCK b sb ∈ L' ∧
      (∀ c, 0 ≤ c < sb_size sb → in_use w' sb c = bool_decide (b = c) || in_use w sb c) ∧
      (∀ x, 0 ≤ x < BSIZE → view w' b x = 0) ∧
      (∀ n, n ≠ b → n ≠ BBLOCK b sb → view w' n = view w n)) ∧
  ((∀ b, 0 ≤ b < sb_size sb → in_use w sb b = true) → panics (balloc ROOTDEV) w "balloc: out of blocks").
Proof.
  intros sb Hb Hl Ho Hm Hsp Hlen Hr. split; [|intros Hu; apply (balloc_none w p L H); try done; lia].
  intros b Hrng Hfree Hused. destruct (balloc_run w p L H b ops) as (w' & E & S & B & Lg & V & K); try done. fold sb in B, Lg, V.
  assert (Hin : ∀ n L0, n ∈ logged L0 n ∧ ∀ m, m ∈ L0 → m ∈ logged L0 n) by (intros n L0; unfold logged; case_bool_decide; set_solver).
  exists w', (logged (logged L (BBLOCK b sb)) b). split_and!; try done.
  - exact (proj1 (Hin _ _)).
  - exact (proj2 (Hin b _) _ (proj1 (Hin _ _))).
  - intros c Hc. apply (in_use_set w w' sb H b c (mem_fill (view w b) 0 BSIZE 0)); try done.
    destruct (Hsp b Hrng Hfree) as (_ & _ & Hno). by apply Hno.
  - intros x Hx. rewrite V, fn_lookup_insert. by apply mem_fill_in.
  - intros n N1 N2. by rewrite V, !fn_lookup_insert_ne.
Qed.

(** bfree marks the block as free and changes nothing else; freeing a block that
    is free already panics. *)
Theorem bfree_frees w p (L H : list Z) ops b :
  let sb := w_sb w in
  blocks w p L H → logging w L ops → 1 ≤ ops → bitmap w sb H → 0 ≤ b < sb_size sb →
  Z.of_nat (length L) + 1 < LOGSIZE → Z.of_nat (length L) + Z.of_nat (length H) + 2 < NBUF →
  if in_use w sb b then
    ∃ w' L', runs (bfree ROOTDEV b) w tt w' ∧ blocks w' p L' H ∧ logging w' L' ops ∧
      (∀ c, 0 ≤ c < sb_size sb → in_use w' sb c = bool_decide (b ≠ c) && in_use w sb c) ∧
      (∀ n, n ≠ BBLOCK b sb → view w' n = view w n)
  else panics (bfree ROOTDEV b) w "freeing free block".
Proof.
  intros sb Hb Hl Ho Hm Hrng Hlen Hr. destruct (in_use w sb b) eqn:Eu; [|by apply (bfree_panics w p L H)].
  destruct (bfree_run w p L H b ops) as (w' & E & S & B & Lg & V & K); try done. fold sb in B, Lg, V.
  exists w', (logged L (BBLOCK b sb)). split_and!; try done.
  - intros c Hc. by apply (in_use_clear w w' sb H b c).
  - intros n Hn. by rewrite V, fn_lookup_insert_ne.
Qed.
End Props.

(** The blocks up to 47 are in use: boot block, superblock, log, inodes, bitmap. *)
Definition sample_disk : Z → bytes := <[45 := λ x, if x <? 6 then 255 else 0]> (λ _, zeroes).

Lemma sample_bitmap w : w_sb w = sample_sb → l_start (w_log w) = 2 → bitmap w sample_sb [].
Proof.
  intros Es El. split; try done; [|set_solver]. intros b Hb. cbn in Hb. change BPB with 8192.
  rewrite Z.div_small by lia. split; [cbn; lia|]. rewrite El. unfold outside, LOGSIZE, MAXOPBLOCKS. cbn. lia.
Qed.

Lemma sample_in_use w b : view w = sample_disk → 0 ≤ b < 1000 → in_use w sample_sb b = (b <? 48).
Proof.
  intros Ev Hb. unfold in_use, BBLOCK. change BPB with 8192. rewrite Z.div_small, Z.mod_small by lia.
  change (u32 (0 + sb_bmapstart sample_sb)) with 45. rewrite Ev. unfold sample_disk. rewrite fn_lookup_insert.
  rewrite bit_at_testbit by lia. destruct (Z.ltb_spec (b / 8) 6) as [Hlt|Hge].
  - assert (Hs : b < 48) by (apply Znot_ge_lt; intros Hge; pose proof (Z.div_le_mono 48 b 8); change (48 / 8) with 6 in *; lia).
    rewrite (proj2 (Z.ltb_lt _ _)) by done. pose proof (Z.mod_pos_bound b 8 ltac:(lia)).
    change 255 with (Z.ones 8). by apply Z.ones_spec_low.
  - rewrite (proj2 (Z.ltb_ge _ _)); [apply Z.bits_0|]. pose proof (Z.mul_div_le b 8). lia.
Qed.

Lemma balloc_allocates_witness : ∃ w w', runs (D := prompt_disk) (balloc (H := prompt_disk) ROOTDEV) w 48 w' ∧ view w' 48 7 = 0.
Proof.
  destruct (sample_fs sample_disk (w_inodes image_world)) as (w & Hb & Hl & Hv & Hs & _ & El & _).
  destruct (balloc_allocates (D := prompt_disk) w 1 [] [] 1) as [Ha _]; rewrite ?Hs; try done.
  { by apply sample_bitmap. }
  { intros b Hr Hf. cbn in Hr. rewrite sample_in_use in Hf by done. apply Z.ltb_ge in Hf. split_and!; [|set_solver|].
    - split; [lia|]. rewrite El. unfold outside, LOGSIZE, MAXOPBLOCKS. cbn. lia.
    - intros c Hc. cbn in Hc. unfold BBLOCK. change BPB with 8192. rewrite Z.div_small by lia. change (u32 (0 + sb_bmapstart sample_sb)) with 45. lia. }
  destruct (Ha 48) as (w' & L' & E & _ & _ & _ & _ & _ & Hz & _); rewrite ?Hs; try done.
  { by rewrite sample_in_use. } { intros c Hc. rewrite sample_in_use by (done || lia). apply Z.ltb_lt. lia. }
  exists w, w'. split; [exact E|]. by apply Hz.
Defined.

Lemma bfree_frees_witness : ∃ w w', runs (D := prompt_disk) (bfree (H := prompt_disk) ROOTDEV 47) w tt w'.
Proof.
  destruct (sample_fs sample_disk (w_inodes image_world)) as (w & Hb & Hl & Hv & Hs & _ & El & _).
  pose proof (bfree_frees (D := prompt_disk) w 1 [] [] 1 47 Hb Hl ltac:(done)) as Hf. rewrite Hs in Hf.
  specialize (Hf (sample_bitmap w Hs El) ltac:(done) ltac:(done) ltac:(done)). rewrite sample_in_use in Hf by done.
  destruct Hf as (w' & L' & E & _). by exists w, w'.
Defined.
End FreeMap.
