(* ===== verification/FsFile.v ===== *)
(** * Files as arrays of bytes

    bmap finds the blocks of a file, readi and writei are reading and writing of
    its bytes, in the kernel's or in the user's memory. *)

From S2P Require Import Prelude Types StringC Spinlock Kalloc PageTable Vm VmCopy Sched Sleeplock Run Bio Cache BioProps Log Recover LogOps Tx Fs FsBlocks.

(** The block that holds block [bn] of the file, for one that has it. *)
Definition block_of (V : Z → bytes) (r : inode) (bn : Z) : Z :=
  if bn <? NDIRECT then i_addrs r bn else ld32 (V (i_addrs r NDIRECT)) (4 * (bn - NDIRECT)).

(** Byte [o] of the file. *)
Definition file_byte (V : Z → bytes) (r : inode) (o : Z) : Z := V (block_of V r (o / BSIZE)) (o `mod` BSIZE).

Definition file_bytes (V : Z → bytes) (r : inode) (off n : Z) : list Z := (λ i, file_byte V r (off + i)) <$> seqZ 0 n.

(** The first [e] bytes of the file have blocks, none of which is in [H]. *)
Record mapped (V : Z → bytes) (H : list Z) (r : inode) (e : Z) : Prop := {
  mp_dev : i_dev r = ROOTDEV;
  mp_size : e ≤ MAXFILE * BSIZE;
  mp_block bn : 0 ≤ bn → bn * BSIZE < e → block_of V r bn ≠ 0 ∧ is_block (block_of V r bn) ∧ block_of V r bn ∉ H;
  mp_ind : NDIRECT * BSIZE < e → i_addrs r NDIRECT ≠ 0 ∧ is_block (i_addrs r NDIRECT) ∧ i_addrs r NDIRECT ∉ H
}.

Lemma in_file o e : 0 ≤ o < e → 0 ≤ o / BSIZE ∧ o / BSIZE * BSIZE < e.
Proof. intros Ho. split; [apply Z.div_pos; [lia|done]|]. pose proof (Z.mul_div_le o BSIZE ltac:(done)). lia. Qed.

(** ** Lists of bytes *)

Lemma seqZ_shift n a b : seqZ (n + a) b = (λ i, i + n) <$> seqZ a b.
Proof.
  apply list_eq. intros i. rewrite list_lookup_fmap. destruct (decide (Z.of_nat i < b)).
  - rewrite !lookup_seqZ_lt by lia. cbn. f_equal. lia.
  - by rewrite !lookup_seqZ_ge by lia.
Qed.

Lemma file_bytes_app V r off a b : 0 ≤ a → 0 ≤ b → file_bytes V r off (a + b) = file_bytes V r off a ++ file_bytes V r (off + a) b.
Proof.
  intros Ha Hb. unfold file_bytes. rewrite seqZ_app, fmap_app by done. f_equal.
  rewrite (Z.add_comm 0), seqZ_shift, <-list_fmap_compose. apply list_fmap_ext. intros _ i _. cbn. f_equal. lia.
Qed.

Lemma file_bytes_length V r off n : 0 ≤ n → Z.of_nat (length (file_bytes V r off n)) = n.
Proof. intros Hn. unfold file_bytes. rewrite length_fmap, length_seqZ. lia. Qed.

(** The bytes of a file within one block. *)
Lemma in_block off i : 0 ≤ i < BSIZE - off `mod` BSIZE → (off + i) / BSIZE = off / BSIZE ∧ (off + i) `mod` BSIZE = off `mod` BSIZE + i.
Proof.
  intros Hi. pose proof (Z.mod_pos_bound off BSIZE ltac:(done)) as Hm. pose proof (Z.div_mod off BSIZE ltac:(done)) as E.
  destruct (div_mod_at (off / BSIZE) (off `mod` BSIZE + i) BSIZE) as [E1 E2]; [lia|].
  replace (off + i) with (off / BSIZE * BSIZE + (off `mod` BSIZE + i)) by lia. done.
Qed.

Lemma file_bytes_block V r off m :
  m ≤ BSIZE - off `mod` BSIZE →
  (λ x, V (block_of V r (off / BSIZE)) (x + off `mod` BSIZE)) <$> seqZ 0 m = file_bytes V r off m.
Proof.
  intros Hm. apply list_fmap_ext. intros k i [-> Hi]%lookup_seqZ. unfold file_byte.
  destruct (in_block off (0 + Z.of_nat k)) as [-> ->]; [lia|]. f_equal. lia.
Qed.

(** Enough rounds for [n] bytes from offset [off] on. *)
Definition enough (fuel : nat) (off n : Z) : Prop :=
  n = 0 ∧ (1 ≤ fuel)%nat ∨ off `mod` BSIZE + n ≤ (Z.of_nat fuel - 1) * BSIZE.

Lemma enough_rounds off n : 0 ≤ n → enough (rounds n) off n.
Proof.
  intros Hn. right. unfold rounds. pose proof (Z.mod_pos_bound off BSIZE ltac:(done)).
  pose proof (Z.mul_succ_div_gt n BSIZE ltac:(done)). pose proof (Z.div_pos n BSIZE Hn ltac:(done)).
  rewrite Z2Nat.id by lia. change BSIZE with 1024 in *. lia.
Qed.

Lemma enough_next fuel off n m :
  enough (S fuel) off n → 0 < n → m = Z.min n (BSIZE - off `mod` BSIZE) → enough fuel (off + m) (n - m).
Proof.
  intros [[? _]|He] Hn ->; [lia|]. pose proof (Z.mod_pos_bound off BSIZE ltac:(done)) as Hm.
  destruct (Z.min_spec n (BSIZE - off `mod` BSIZE)) as [[Hlt ->]|[Hge ->]].
  - left. change BSIZE with 1024 in *. lia.
  - right. rewrite <-Z.add_mod_idemp_l by done. replace (off `mod` BSIZE + (BSIZE - off `mod` BSIZE)) with BSIZE by lia.
    rewrite Z.mod_same by done. change BSIZE with 1024 in *. lia.
Qed.

Section Files.
Context {D : DiskOps} {HD : Disk D} {LY : Layout} {LK : LayoutOk LY}.
Implicit Types (L H : list Z).

(** bmap on a file that has the block. *)
Lemma bmap_run w p L H ip bn e :
  let r := w_inodes w ip in
  blocks w p L H → mapped (view w) H r e → 0 ≤ bn → bn * BSIZE < e → Z.of_nat (length L) + Z.of_nat (length H) + 1 < NBUF →
  ∃ w', runs (bmap ip bn) w (block_of (view w) r bn) w' ∧ same_blocks w w' p L H.
Proof.
  intros r Hb Hm H0 Hbn Hr. destruct (mp_block _ _ _ _ Hm bn H0 Hbn) as (Hz & Hblk & _). pose proof (mp_size _ _ _ _ Hm) as He.
  unfold bmap, get_inode. unfold block_of in *. destruct (Z.ltb_spec bn NDIRECT) as [Hd|Hi].
  - exists w. split; [|by apply same_blocks_refl]. rsteps. fold r. rewrite (proj2 (Z.eqb_neq _ _)) by done. apply runs_ret.
  - destruct (mp_ind _ _ _ _ Hm) as (Iz & Iblk & Iin); [unfold BSIZE in *; lia|].
    destruct (tx_skim w p L H (i_addrs r NDIRECT)) as (b & v & v' & E1 & D1 & S1 & E2 & B2); try done.
    exists v'. split; [|done]. rsteps. fold r.
    rewrite (proj2 (Z.ltb_lt (bn - NDIRECT) _)) by (unfold MAXFILE, BSIZE in *; lia).
    rewrite (proj2 (Z.eqb_neq _ _)) by done. rsteps. rewrite (mp_dev _ _ _ _ Hm). rcall E1. unfold get_buf. rsteps. rewrite D1.
    rewrite (proj2 (Z.eqb_neq _ _)) by done. rsteps. rcall E2. apply runs_ret.
Qed.

(** ** Where readi puts the bytes

    Either the kernel's buffer or the memory of the process: what either_copyout
    promises to readi. *)

Class Sink (p : Z) (user : bool) := {
  sk_ok : Z → Z → world → Prop;
  sk_put : Z → list Z → bytes * bytes → bytes * bytes → Prop;
  sk_range dst n w : sk_ok dst n w → 0 ≤ dst ∧ dst + n < 2 ^ 64;
  sk_frame dst n w w' : w_mem w' = w_mem w → w_procs w' = w_procs w → sk_ok dst n w → sk_ok dst n w';
  sk_nil dst n w kd : sk_ok dst n w → sk_put dst [] (w_mem w, kd) (w_mem w, kd);
  sk_app dst l1 l2 s1 s2 s3 : sk_put dst l1 s1 s2 → sk_put (dst + Z.of_nat (length l1)) l2 s2 s3 → sk_put dst (l1 ++ l2) s1 s3;
  sk_next dst n w l kd s : sk_ok dst n w → Z.of_nat (length l) ≤ n → sk_put dst l (w_mem w, kd) s →
    sk_ok (dst + Z.of_nat (length l)) (n - Z.of_nat (length l)) (set_mem s.1 w);
  sk_run w dst n kd src m : quiet w p → sk_ok dst n w → 0 < m ≤ n →
    ∃ mm kd', runs (either_copyout user dst kd src m) w (0, kd') (set_mem mm w) ∧
      sk_put dst (src <$> seqZ 0 m) (w_mem w, kd) (mm, kd')
}.

(** The kernel's buffer with the bytes [l] at [dst]. *)
Definition buffered (kd : bytes) (dst : Z) (l : list Z) (kd' : bytes) : Prop :=
  ∀ x, kd' x = if decide (dst ≤ x < dst + Z.of_nat (length l)) then default 0 (l !! Z.to_nat (x - dst)) else kd x.

#[export] Instance kernel_sink (p : Z) : Sink p false.
Proof.
  refine {| sk_ok dst n w := 0 ≤ dst ∧ dst + n < 2 ^ 64;
            sk_put dst l s s' := s'.1 = s.1 ∧ buffered s.2 dst l s'.2 |}.
  - done.
  - done.
  - intros dst n w kd _. split; [done|]. intros x. rewrite decide_False; [done|]. cbn. lia.
  - intros dst l1 l2 s1 s2 s3 [E1 B1] [E2 B2]. split; [congruence|]. intros x. rewrite B2, B1, length_app.
    destruct (decide (dst + Z.of_nat (length l1) ≤ x < dst + Z.of_nat (length l1) + Z.of_nat (length l2))).
    + rewrite decide_True, lookup_app_r by lia. do 2 f_equal. lia.
    + destruct (decide (dst ≤ x < dst + Z.of_nat (length l1))).
      * rewrite decide_True, lookup_app_l by lia. done.
      * by rewrite decide_False by lia.
  - intros dst n w l kd s Hd Hn _. lia.
  - intros w dst n kd src m Hq Hd Hm. eexists (w_mem w), _. split.
    + unfold either_copyout. eapply runs_bind; [apply runs_myproc; eauto with xv6|]. apply runs_ret.
    + split; [done|]. intros x. cbn [fst snd]. rewrite length_fmap, length_seqZ.
      destruct (decide (dst ≤ x < dst + Z.of_nat (Z.to_nat m))).
      * rewrite mem_copy_in by lia. rewrite list_lookup_fmap, lookup_seqZ_lt by lia. cbn. f_equal. lia.
      * by rewrite mem_copy_out by lia.
Defined.

Lemma pagetable_alike w w' p : w ~~ w' → p_pagetable (w_procs w p) = p_pagetable (w_procs w' p).
Proof.
  intros [E _]. assert (Ee : ∀ v, p_pagetable (w_procs (norm v) p) = p_pagetable (w_procs v p)).
  { intros v. unfold norm. rsimpl. unfold erase. by case_decide. }
  by rewrite <-(Ee w), <-(Ee w'), E.
Qed.

Lemma alike_mem w w' : w ~~ w' → w_mem w = w_mem w'.
Proof. intros E. exact (alike_field w_mem _ _ E (λ _, eq_refl)). Qed.

(** Code that looks at the memory only, on behalf of process [p]. *)
Lemma local_runs {A} (m : Z → K A) w p r M :
  (∀ root, mem_local (m root)) → m (p_pagetable (w_procs w p)) [] w = Ret r [] (set_mem M w) →
  runs (pr <- get_proc p ;; m (p_pagetable pr)) w r (set_mem M w).
Proof.
  intros Hm E env v Ev. exists (set_mem M v). split; [|by apply (alike_map (λ x, set_mem M x) v w Ev)].
  unfold get_proc. mstep. rewrite (pagetable_alike _ _ p Ev). eapply local_same; [done|exact E|by apply alike_mem].
Qed.

(** The memory of the process. *)
Definition user_ok (root p dst n : Z) (w : world) : Prop :=
  p_pagetable (w_procs w p) = root ∧ pt_wf (w_mem w) root ∧ as_ok (w_mem w) root ∧ 0 ≤ dst ∧ dst + n < 2 ^ 64 ∧
  ∀ i, 0 ≤ i < n → ubyte (w_mem w) root (dst + i) ≠ None.

Lemma user_put_runs root w p dst n src m :
  quiet w p → user_ok root p dst n w → 0 < m ≤ n →
  ∃ M, (∀ kd, runs (either_copyout true dst kd src m) w (0, kd) (set_mem M w)) ∧ filled (w_mem w) M root dst (src <$> seqZ 0 m).
Proof.
  intros Hq (Hp & Hwf & Has & Hd & _ & Hall) Hm.
  destruct (copyout_loop_run (S (Z.to_nat m)) root dst src 0 m [] w) as (r & M & k & E & W & R); try done; [lia..|].
  destruct R as [(-> & -> & _)|(_ & Hk & R)]; [|by destruct (Hall k); [lia|]].
  exists M. split; [|by apply wrote_filled]. intros kd. unfold either_copyout.
  eapply runs_bind; [apply runs_myproc; eauto with xv6|]. rewrite (quiet_cproc _ _ Hq). unfold deref. rstep.
  apply (local_runs (λ root, r <- copyout root dst src m ;; ret (r, kd))).
  - intros root'. apply local_bind; [apply local_copyout|intros x; apply local_ret].
  - rewrite Hp. unfold copyout. mcall E. reflexivity.
Qed.

Definition user_sink (root p : Z) : Sink p true.
Proof.
  refine {| sk_ok := user_ok root p; sk_put dst l s s' := s'.2 = s.2 ∧ filled s.1 s'.1 root dst l |}.
  - intros dst n w (_ & _ & _ & ? & ? & _). done.
  - intros dst n w w' Em Ep. unfold user_ok. by rewrite Em, Ep.
  - intros dst n w kd (_ & Hwf & Has & _). split; [done|]. by apply filled_nil.
  - intros dst l1 l2 s1 s2 s3 [E1 F1] [E2 F2]. split; [congruence|]. by eapply filled_app.
  - intros dst n w l kd s (Hp & _ & _ & Hd & Hn & Hall) Hl [_ (Hu & Hwf & Has & Hb)]. split_and!; try done; [lia|lia|].
    cbn. intros i Hi. rewrite ubyte_None, Hu, <-ubyte_None. replace (dst + Z.of_nat (length l) + i) with (dst + (Z.of_nat (length l) + i)) by lia.
    apply Hall. lia.
  - intros w dst n kd src m Hq Hok Hm. destruct (user_put_runs root w p dst n src m Hq Hok Hm) as (M & E & F).
    exists M, kd. by split.
Defined.

(** ** readi *)

Lemma blocks_mem w p L H M : blocks w p L H → blocks (set_mem M w) p L H.
Proof. intros [Ha Hs Hr]. split; [exact Ha|by apply (bstore_frame w)|done]. Qed.

Lemma fstep_mem w w' M : fstep w w' → fstep (set_mem M w) (set_mem M w').
Proof. intros (f & s & lg & -> & Hi & El). by exists f, s, lg. Qed.

Lemma readi_loop_run p user (SK : Sink p user) fuel w L H ip dst kd off n tot e :
  let r := w_inodes w ip in
  blocks w p L H → mapped (view w) H r e → 0 ≤ off → tot ≤ n → off + (n - tot) ≤ e → sk_ok dst (n - tot) w →
  enough fuel off (n - tot) → Z.of_nat (length L) + Z.of_nat (length H) + 1 < NBUF →
  ∃ M kd' w', runs (readi_loop fuel ip user dst kd off n tot) w (n, kd') w' ∧ same_blocks (set_mem M w) w' p L H ∧
    sk_put dst (file_bytes (view w) r off (n - tot)) (w_mem w, kd) (M, kd').
Proof.
  revert w dst kd off tot. induction fuel as [|fuel IH]; intros w dst kd off tot r Hb Hm Ho Htot He Hok Hf Hr.
  { exfalso. destruct Hf as [[_ Hf]|Hf]; [lia|]. pose proof (Z.mod_pos_bound off BSIZE ltac:(done)). change BSIZE with 1024 in *. lia. }
  cbn [readi_loop]. destruct (Z.ltb_spec tot n) as [Hlt|Hge]; cbn [negb].
  2:{ assert (tot = n) as -> by lia. exists (w_mem w), kd, w. split_and!; [apply runs_ret|by apply same_blocks_refl|].
      rewrite Z.sub_diag. by eapply sk_nil. }
  set (m := Z.min (n - tot) (BSIZE - off `mod` BSIZE)). pose proof (Z.mod_pos_bound off BSIZE ltac:(done)) as Hmod.
  assert (Hm1 : 0 < m ≤ n - tot) by lia.
  destruct (in_file off e) as [Hbn0 Hbn]; [lia|]. destruct (mp_block _ _ _ _ Hm _ Hbn0 Hbn) as (_ & Hblk & Hnin).
  destruct (bmap_run w p L H ip (off / BSIZE) e Hb Hm Hbn0 Hbn Hr) as (w1 & E1 & [S1 B1 G1 V1 K1]). fold r in E1.
  set (a := block_of (view w) r (off / BSIZE)) in *.
  destruct (tx_bread w1 p L H a B1 Hblk Hnin Hr) as (b & w2 & E2 & S2 & B2 & H2 & D2 & V2 & C2 & G2 & K2).
  assert (Hq2 : quiet w2 p) by apply B2.
  assert (Hok2 : sk_ok dst (n - tot) w2).
  { destruct S1 as (f1 & s1 & g1 & -> & _), S2 as (f2 & s2 & g2 & -> & _). by apply (sk_frame _ _ w). }
  destruct (sk_run w2 dst (n - tot) kd (λ x, b_data (w_bufs w2 b) (x + off `mod` BSIZE)) m Hq2 Hok2 Hm1) as (M & kd1 & E3 & P3).
  destruct (tx_brelse (set_mem M w2) p L H b a) as (w3 & E4 & S4 & B4 & V4 & G4 & K4); [by apply blocks_mem|by apply (held_frame w2)|done|].
  assert (Hsame : same_blocks (set_mem M w) w3 p L H).
  { split; [|done|by rewrite G4; exact (eq_trans G2 G1)|by rewrite V4; exact (eq_trans V2 V1)|].
    - etransitivity; [apply fstep_mem; by rewrite S1|done].
    - intros b' m' Hh Hin. apply K4; [by intros ->|]. apply (held_frame w2); try done. apply K2, K1; [|done].
      by apply (held_frame (set_mem M w)). }
  assert (Em : w_mem w3 = M ∧ w_inodes w3 = w_inodes w ∧ view w3 = view w ∧ w_procs w3 = w_procs w2).
  { destruct Hsame as [(f & s & lg & -> & _) _ _ Vs _]. split_and!; try done.
    destruct S1 as (f1 & s1 & g1 & -> & _), S2 as (f2 & s2 & g2 & -> & _). done. }
  destruct Em as (Em & Ei & Ev & Ep).
  assert (Elen : Z.of_nat (length ((λ x, b_data (w_bufs w2 b) (x + off `mod` BSIZE)) <$> seqZ 0 m)) = m) by (rewrite length_fmap, length_seqZ; lia).
  destruct (IH w3 (dst + m) kd1 (off + m) (tot + m)) as (M' & kd' & w' & E5 & [S5 B5 G5 V5 K5] & P5); rewrite ?Ei, ?Ev; try done; [lia..| | |].
  { replace (n - (tot + m)) with (n - tot - m) by lia. pose proof (λ Hl, sk_next _ _ w2 _ kd (M, kd1) Hok2 Hl P3) as Hn3.
    rewrite Elen in Hn3. specialize (Hn3 ltac:(lia)). by apply (sk_frame _ _ (set_mem M w2)). }
  { replace (n - (tot + m)) with (n - tot - m) by lia. eapply (enough_next _ _ (n - tot)); [done|lia|done]. }
  exists M', kd', w'. split_and!.
  - unfold get_inode at 1. rsteps. fold r. rcall E1. rewrite (mp_dev _ _ _ _ Hm). rcall E2. fold m. unfold get_buf. rsteps. rcall E3. rcall E4.
    cbn [fst snd Z.eqb]. destruct (sk_range _ _ _ Hok) as [R1 R2]. rewrite u64_small by lia. exact E5.
  - split; [|done|by rewrite G5; exact (sm_log _ _ _ _ _ Hsame)|by rewrite V5; exact Ev|].
    + etransitivity; [|exact S5]. apply (fstep_mem _ _ M' (sm_step _ _ _ _ _ Hsame)).
    + intros b' m' Hh Hin. apply K5; [|done]. apply (held_frame w3); try done. apply (sm_held _ _ _ _ _ Hsame); [|done].
      by apply (held_frame (set_mem M' w)).
  - replace (n - tot) with (m + (n - (tot + m))) by lia. rewrite file_bytes_app by lia. eapply sk_app.
    + rewrite <-(file_bytes_block (view w) r off m) by lia. fold a. rewrite <-V1, <-D2. 
      destruct S1 as (f1 & s1 & g1 & -> & _), S2 as (f2 & s2 & g2 & -> & _). exact P3.
    + rewrite file_bytes_length by lia. rewrite Ei, Ev, Em in P5. exact P5.
Qed.

(** How many bytes a read of [n] at [off] gives. *)
Definition read_len (r : inode) (off n : Z) : Z :=
  if (off >? i_size r) || (off + n >=? 2 ^ 32) then 0 else Z.min n (i_size r - off).

Lemma readi_run p user (SK : Sink p user) w L H ip dst kd off n :
  let r := w_inodes w ip in let k := read_len r off n in
  blocks w p L H → mapped (view w) H r (i_size r) → 0 ≤ off < 2 ^ 32 → 0 ≤ n < 2 ^ 32 → sk_ok dst k w →
  Z.of_nat (length L) + Z.of_nat (length H) + 1 < NBUF →
  ∃ M kd' w', runs (readi ip user dst kd off n) w (k, kd') w' ∧ same_blocks (set_mem M w) w' p L H ∧
    sk_put dst (file_bytes (view w) r off k) (w_mem w, kd) (M, kd').
Proof.
  intros r k Hb Hm Ho Hn Hok Hr. unfold readi, get_inode. unfold k, read_len in *.
  assert (Eov : (u32 (off + n) <? off) = (off + n >=? 2 ^ 32)).
  { destruct (Z.geb_spec (off + n) (2 ^ 32)).
    - apply Z.ltb_lt. unfold u32. rewrite <-(Z_mod_plus_full _ (-1)), Z.mod_small by lia. lia.
    - apply Z.ltb_ge. rewrite u32_small by lia. lia. }
  destruct (_ || _) eqn:Eb.
  - exists (w_mem w), kd, w. split_and!; [|by apply same_blocks_refl|by eapply sk_nil].
    rsteps. fold r. rewrite Eov, Eb. apply runs_ret.
  - apply orb_false_iff in Eb as [E1 E2]. rewrite Z.gtb_ltb, Z.ltb_ge in E1. rewrite Z.geb_leb, Z.leb_gt in E2.
    set (n' := Z.min n (i_size r - off)) in *.
    destruct (readi_loop_run p user SK (rounds n') w L H ip dst kd off n' 0 (i_size r)) as (M & kd' & w' & E & S & P);
      rewrite ?Z.sub_0_r; try done; [lia..|apply enough_rounds; lia|].
    fold r in P. rewrite Z.sub_0_r in P. exists M, kd', w'. split_and!; [|done|done].
    rsteps. fold r. rewrite Eov. rewrite (proj2 (orb_false_iff _ _)) by lia.
    rewrite (u32_small (off + n)) by lia. rewrite Z.gtb_ltb. 
    replace (if i_size r <? off + n then i_size r - off else n) with n'; [exact E|].
    destruct (Z.ltb_spec (i_size r) (off + n)); lia.
Qed.
End Files.
