(* ===== verification/FsWrite.v ===== *)
(** * Writing files

    writei within the blocks a file has, and iupdate, inside a transaction. *)

From S2P Require Import Prelude Types StringC Spinlock Kalloc PageTable Vm VmCopy Sched Sleeplock Run Bio Cache BioProps Log Recover LogOps Tx Fs FsPure FsBlocks FsFile.

Section Write.
Context {D : DiskOps} {HD : Disk D} {LY : Layout} {LK : LayoutOk LY}.
Implicit Types (L H : list Z).

(** ** Where writei takes the bytes from *)

(** The bytes [l] are at [src], in the kernel or in the memory of process [p]. *)
Definition source (user : bool) (w : world) (p src : Z) (ksrc : bytes) (l : list Z) : Prop :=
  let root := p_pagetable (w_procs w p) in
  0 ≤ src ∧ src + Z.of_nat (length l) < 2 ^ 64 ∧
  if user then pt_wf (w_mem w) root ∧ ∀ i x, l !! i = Some x → ubyte (w_mem w) root (src + Z.of_nat i) = Some x
  else ∀ i x, l !! i = Some x → ksrc (src + Z.of_nat i) = x.

Lemma source_drop user w p src ksrc l m :
  source user w p src ksrc l → 0 ≤ m ≤ Z.of_nat (length l) → source user w p (src + m) ksrc (drop (Z.to_nat m) l).
Proof.
  intros (H1 & H2 & H3) Hm. split_and!; [lia|rewrite length_drop; lia|].
  destruct user.
  - destruct H3 as [Hwf H3]. split; [done|]. intros i x Hx. rewrite lookup_drop in Hx. rewrite <-(H3 _ _ Hx). f_equal. lia.
  - intros i x Hx. rewrite lookup_drop in Hx. rewrite <-(H3 _ _ Hx). f_equal. lia.
Qed.

Lemma source_frame user w w' p src ksrc l :
  w_mem w' = w_mem w → w_procs w' = w_procs w → source user w p src ksrc l → source user w' p src ksrc l.
Proof. intros E1 E2. unfold source. by rewrite E1, E2. Qed.

(** The first [m] of the bytes in [d]. *)
Definition holds (d : bytes) (m : Z) (l : list Z) : Prop := ∀ i, 0 ≤ i < m → l !! Z.to_nat i = Some (d i).

Lemma source_run user w p src ksrc l d m :
  source user w p src ksrc l → 0 < m ≤ Z.of_nat (length l) →
  ∃ d', holds d' m l ∧ ∀ v, w_mem v = w_mem w → w_procs v = w_procs w → quiet v p →
    runs (either_copyin d user src ksrc m) v (0, d') v.
Proof.
  intros (H1 & H2 & H3) Hm. unfold either_copyin. destruct user.
  - destruct H3 as [Hwf H3]. set (root := p_pagetable (w_procs w p)) in *.
    destruct (copyin_loop_run (S (Z.to_nat m)) root d 0 src m [] w) as (r & d' & E & Hout & R); try done; [lia..|].
    destruct R as [[-> R]|(-> & i & Hi & R)].
    + exists d'. split.
      * intros i Hi. destruct (lookup_lt_is_Some_2 l (Z.to_nat i)) as [x Hx]; [lia|]. rewrite Hx. f_equal.
        pose proof (H3 _ _ Hx) as Hb. rewrite Z2Nat.id in Hb by lia. rewrite R, Z.add_0_l in Hb by done. by injection Hb.
      * intros v Ev Ep Hq. eapply runs_bind; [apply runs_myproc; eauto with xv6|]. rewrite (quiet_cproc _ _ Hq). unfold deref. rstep.
        eapply runs_eq; [apply (local_runs (λ root, copyin root d src m) v p (0, d') (w_mem v)); [intros; apply local_copyin|]|done].
        rewrite Ep. fold root. rewrite Ev. exact (local_same _ [] [] w v _ (w_mem w) (local_copyin root d src m) E Ev).
    + exfalso. destruct (lookup_lt_is_Some_2 l (Z.to_nat i)) as [x Hx]; [lia|]. pose proof (H3 _ _ Hx) as Hb.
      rewrite Z2Nat.id in Hb by lia. congruence.
  - exists (mem_copy d 0 ksrc src m). split.
    + intros i Hi. destruct (lookup_lt_is_Some_2 l (Z.to_nat i)) as [x Hx]; [lia|]. rewrite Hx. f_equal.
      rewrite mem_copy_in by lia. rewrite <-(H3 _ _ Hx). f_equal. lia.
    + intros v _ _ Hq. eapply runs_bind; [apply runs_myproc; eauto with xv6|]. apply runs_ret.
Qed.

(** ** The file as it is being written *)

(** Every block up to [e] may be logged, no two are the same, and none of them is
    the indirect block. *)
Record writable_file (w : world) (H : list Z) (r : inode) (e : Z) : Prop := {
  wf_mapped : mapped (view w) H r e;
  wf_log bn : 0 ≤ bn → bn * BSIZE < e → loggable w (block_of (view w) r bn);
  wf_inj bn bn' : 0 ≤ bn → bn * BSIZE < e → 0 ≤ bn' → bn' * BSIZE < e →
    block_of (view w) r bn = block_of (view w) r bn' → bn = bn';
  wf_ind bn : 0 ≤ bn → bn * BSIZE < e → NDIRECT * BSIZE < e → block_of (view w) r bn ≠ i_addrs r NDIRECT
}.

(** A block outside the file and its indirect block. *)
Definition elsewhere (V : Z → bytes) (r : inode) (e n : Z) : Prop :=
  (∀ bn, 0 ≤ bn → bn * BSIZE < e → n ≠ block_of V r bn) ∧ (NDIRECT * BSIZE < e → n ≠ i_addrs r NDIRECT).

(** The blocks stay where they are when the indirect block does not change. *)
Lemma block_of_same V V' r e bn :
  (NDIRECT * BSIZE < e → V' (i_addrs r NDIRECT) = V (i_addrs r NDIRECT)) → 0 ≤ bn → bn * BSIZE < e →
  block_of V' r bn = block_of V r bn.
Proof.
  intros HV H0 Hbn. unfold block_of. destruct (Z.ltb_spec bn NDIRECT); [done|]. rewrite HV; [done|].
  unfold BSIZE in *. lia.
Qed.

Lemma writable_step w w' H r e :
  fstep w w' → (NDIRECT * BSIZE < e → view w' (i_addrs r NDIRECT) = view w (i_addrs r NDIRECT)) →
  writable_file w H r e → writable_file w' H r e.
Proof.
  intros S HV [[M1 M2 M3 M4] W2 W3 W4].
  assert (Eb : ∀ bn, 0 ≤ bn → bn * BSIZE < e → block_of (view w') r bn = block_of (view w) r bn) by (intros; by eapply block_of_same).
  split; [split; try done|..].
  - intros bn H0 Hb. rewrite Eb by done. by apply M3.
  - intros bn H0 Hb. rewrite Eb by done. eapply fstep_loggable; [done|by apply W2].
  - intros bn bn' H0 Hb H0' Hb'. rewrite !Eb by done. by apply W3.
  - intros bn H0 Hb He. rewrite Eb by done. by apply W4.
Qed.

(** The bytes of the file after [l] has been written at [off]. *)
Definition overwritten (V V' : Z → bytes) (r : inode) (e off : Z) (l : list Z) : Prop :=
  (∀ o, 0 ≤ o < e → file_byte V' r o =
    if decide (off ≤ o < off + Z.of_nat (length l)) then default 0 (l !! Z.to_nat (o - off)) else file_byte V r o) ∧
  (∀ n, elsewhere V r e n → V' n = V n) ∧ (NDIRECT * BSIZE < e → V' (i_addrs r NDIRECT) = V (i_addrs r NDIRECT)).

Lemma overwritten_nil V r e off : overwritten V V r e off [].
Proof. split_and!; try done. intros o Ho. rewrite decide_False; [done|]. cbn. lia. Qed.

Lemma overwritten_app V V1 V2 r e off l1 l2 :
  overwritten V V1 r e off l1 → overwritten V1 V2 r e (off + Z.of_nat (length l1)) l2 → overwritten V V2 r e off (l1 ++ l2).
Proof.
  intros (B1 & O1 & I1) (B2 & O2 & I2). split_and!.
  - intros o Ho. rewrite B2, B1, length_app by done.
    destruct (decide (off + Z.of_nat (length l1) ≤ o < off + Z.of_nat (length l1) + Z.of_nat (length l2))).
    + rewrite decide_True, lookup_app_r by lia. do 2 f_equal. lia.
    + destruct (decide (off ≤ o < off + Z.of_nat (length l1))).
      * rewrite decide_True, lookup_app_l by lia. done.
      * by rewrite decide_False by lia.
  - intros n [N1 N2]. rewrite O2, O1; [done|by split|]. split; [|done]. intros bn H0 Hb. rewrite (block_of_same V V1 r e) by done. by apply N1.
  - intros He. by rewrite I2, I1.
Qed.

(** One block of it. *)
Lemma overwritten_block w H r e off m l d V' :
  writable_file w H r e → 0 ≤ off → 0 < m → off + m ≤ e → m ≤ BSIZE - off `mod` BSIZE → m ≤ Z.of_nat (length l) → holds d m l →
  let a := block_of (view w) r (off / BSIZE) in
  V' = <[a := mem_copy (view w a) (off `mod` BSIZE) d 0 m]> (view w) →
  overwritten (view w) V' r e off (take (Z.to_nat m) l).
Proof.
  intros Hw H0 Hm He Hmb Hl Hd a EV. destruct (in_file off e) as [Hbn0 Hbn]; [lia|].
  assert (HI : NDIRECT * BSIZE < e → V' (i_addrs r NDIRECT) = view w (i_addrs r NDIRECT)).
  { intros Hi. rewrite EV, fn_lookup_insert_ne; [done|]. by apply (wf_ind _ _ _ _ Hw). }
  split_and!; [|intros n [N1 _]; rewrite EV, fn_lookup_insert_ne; [done|]; intros <-; by apply (N1 (off / BSIZE))|done].
  intros o Ho. destruct (in_file o e Ho) as [Hon0 Hon]. unfold file_byte. rewrite (block_of_same (view w) V' r e) by done.
  rewrite EV, fn_lookup_insert_if, length_take. pose proof (Z.mod_pos_bound off BSIZE ltac:(done)) as Hmo.
  destruct (decide (off ≤ o < off + Z.of_nat (Z.to_nat m `min` length l)%nat)) as [Hin|Hout].
  - destruct (in_block off (o - off)) as [Ed Em]; [lia|]. replace (off + (o - off)) with o in Ed, Em by lia.
    rewrite Ed, Em, decide_True by done. rewrite mem_copy_in by lia. rewrite lookup_take, decide_True by lia. rewrite Hd by lia. cbn. f_equal. lia.
  - case_decide as Ea; [|done]. rewrite Ea. pose proof (wf_inj _ _ _ _ Hw _ _ Hbn0 Hbn Hon0 Hon Ea) as Eq.
    apply mem_copy_out. pose proof (Z.div_mod off BSIZE ltac:(done)) as E1. pose proof (Z.div_mod o BSIZE ltac:(done)) as E2.
    rewrite <-Eq in E2. lia.
Qed.

(** ** writei *)

Lemma logged_length L n : (length (logged L n) ≤ S (length L))%nat.
Proof. unfold logged. case_bool_decide; rewrite ?length_app; cbn; lia. Qed.

(** One round: a block is read, changed, logged and released. *)
Lemma write_block w p L H a f ops (m : bytes → K (Z * bytes)) d' :
  blocks w p L H → logging w L ops → 1 ≤ ops → loggable w a → a ∉ H → Z.of_nat (length L) + 1 < LOGSIZE →
  Z.of_nat (length L) + Z.of_nat (length H) + 2 < NBUF →
  (∀ v, fstep w v → quiet v p → runs (m (view w a)) v (0, d') v) →
  ∃ w', (∀ A (k0 : Z → K A) (k : K A) r v, runs k w' r v → runs (
      bp <- bread ROOTDEV a ;;
      bf <- get_buf bp ;;
      e <- m (b_data bf) ;;
      upd_data bp (λ d, f d e.2) ;;
      if e.1 =? -1 then k0 bp else log_write bp ;; brelse bp ;; k) w r v) ∧
    fstep w w' ∧ blocks w' p (logged L a) H ∧ logging w' (logged L a) ops ∧
    view w' = <[a := f (view w a) d']> (view w) ∧ (∀ b m, held w p b m → m ∈ H → held w' p b m).
Proof.
  intros Hb Hl Ho Hlo Hin Hlen Hr Hm. pose proof Hlo as [Hn _].
  destruct (tx_bread w p L H a) as (b & w1 & E1 & S1 & B1 & H1 & D1 & V1 & C1 & G1 & K1); [done|done|done|lia|].
  destruct (tx_modify w1 p L (a :: H) b a (λ d, f d d') ops) as (w2 & E2 & S2 & B2 & L2 & V2 & K2); try done.
  { by left. } { by eapply logging_same. } { by eapply fstep_loggable. } { cbn [length]. lia. }
  destruct (tx_brelse w2 p (logged L a) H b a) as (w3 & E3 & S3 & B3 & V3 & G3 & K3); [done|by apply K2|apply settled_logged|].
  exists w3. split_and!.
  - intros A k0 k r v Hk. rcall E1. unfold get_buf. rsteps. rewrite D1. eapply runs_bind; [apply Hm; [done|apply B1]|].
    cbn [fst snd Z.eqb]. apply E2. by eapply runs_bind.
  - by rewrite S1, S2.
  - done.
  - by eapply logging_same.
  - by rewrite V3, V2, V1.
  - intros b' m' Hh Hm'. apply K3; [by intros ->|]. by apply K2, K1.
Qed.

Lemma writei_loop_run user fuel nb w p L H ip src ksrc off n tot e l ops :
  let r := w_inodes w ip in
  blocks w p L H → logging w L ops → 1 ≤ ops → writable_file w H r e → 0 ≤ off → n - tot = Z.of_nat (length l) →
  off + (n - tot) ≤ e → source user w p src ksrc l → enough fuel off (n - tot) → enough (S nb) off (n - tot) →
  Z.of_nat (length L) + Z.of_nat nb < LOGSIZE → Z.of_nat (length L) + Z.of_nat (length H) + Z.of_nat nb + 1 < NBUF →
  ∃ w' L', runs (writei_loop fuel ip user src ksrc off n tot) w (off + (n - tot)) w' ∧ fstep w w' ∧
    blocks w' p L' H ∧ logging w' L' ops ∧ overwritten (view w) (view w') r e off l ∧
    Z.of_nat (length L') ≤ Z.of_nat (length L) + Z.of_nat nb ∧ (∀ b m, held w p b m → m ∈ H → held w' p b m).
Proof.
  revert nb w L src off tot l. induction fuel as [|fuel IH]; intros nb w L src off tot l r Hb Hl Ho Hw H0 Hlen He Hsrc Hf Hnb Hlog Hbuf.
  { exfalso. destruct Hf as [[_ Hf]|Hf]; [lia|]. pose proof (Z.mod_pos_bound off BSIZE ltac:(done)). change BSIZE with 1024 in *. lia. }
  cbn [writei_loop]. destruct (Z.ltb_spec tot n) as [Hlt|Hge]; cbn [negb].
  2:{ assert (tot = n) as -> by lia. destruct l; [|cbn in *; lia]. exists w, L. rewrite Z.sub_diag, Z.add_0_r.
      split_and!; [apply runs_ret|reflexivity|done|done|apply overwritten_nil|lia|done]. }
  set (m := Z.min (n - tot) (BSIZE - off `mod` BSIZE)). pose proof (Z.mod_pos_bound off BSIZE ltac:(done)) as Hmod.
  assert (Hm1 : 0 < m ≤ n - tot) by lia.
  assert (Hnb1 : (1 ≤ nb)%nat) by (destruct Hnb as [[? _]|Hnb]; [lia|change BSIZE with 1024 in *; lia]).
  destruct nb as [|nb]; [lia|]. pose proof (wf_mapped _ _ _ _ Hw) as Hm.
  destruct (in_file off e) as [Hbn0 Hbn]; [lia|]. destruct (mp_block _ _ _ _ Hm _ Hbn0 Hbn) as (_ & Hblk & Hnin).
  destruct (bmap_run w p L H ip (off / BSIZE) e Hb Hm Hbn0 Hbn) as (w1 & E1 & [S1 B1 G1 V1 K1]); [lia|]. fold r in E1.
  set (a := block_of (view w) r (off / BSIZE)) in *.
  destruct (source_run user w p src ksrc l (λ x, view w a (x + off `mod` BSIZE)) m) as (d' & Hd' & Ed'); [done|lia|].
  destruct (write_block w1 p L H a (λ d c, mem_copy d (off `mod` BSIZE) c 0 m) ops
    (λ d, either_copyin (λ x, d (x + off `mod` BSIZE)) user src ksrc m) d') as (w2 & E2 & S2 & B2 & L2 & V2 & K2); try done; [| |lia|lia| |].
  { by eapply logging_same. } { eapply fstep_loggable; [done|]. by apply (wf_log _ _ _ _ Hw). }
  { intros v (f & s & lg & -> & _) Hq. rewrite V1. destruct S1 as (f1 & s1 & g1 & -> & _). by apply Ed'. }
  rewrite V1 in V2. assert (Hs2 : fstep w w2) by (by rewrite S1).
  pose proof (overwritten_block w H r e off m l d' (view w2) Hw H0 ltac:(lia) ltac:(lia) ltac:(lia) ltac:(lia) Hd' V2) as Hov.
  pose proof (logged_length L a) as Hll.
  destruct (IH nb w2 (logged L a) (src + m) (off + m) (tot + m) (drop (Z.to_nat m) l)) as (w' & L' & E3 & S3 & B3 & L3 & O3 & N3 & K3);
    rewrite ?(fstep_inodes _ _ Hs2); fold r; try done; [..|].
  { eapply writable_step; [done| |done]. apply Hov. } { lia. } { rewrite length_drop. lia. } { lia. }
  { destruct Hs2 as (f & s & lg & -> & _). apply source_drop; [exact Hsrc|lia]. }
  { replace (n - (tot + m)) with (n - tot - m) by lia. eapply (enough_next _ _ (n - tot)); [done|lia|done]. }
  { replace (n - (tot + m)) with (n - tot - m) by lia. eapply (enough_next _ _ (n - tot)); [done|lia|done]. } { lia. } { lia. }
  rewrite (fstep_inodes _ _ Hs2) in O3. fold r in O3. exists w', L'. split_and!; try done.
  - unfold get_inode at 1. rsteps. fold r. rcall E1. rewrite (mp_dev _ _ _ _ Hm). 
    apply (E2 _ (λ b, brelse b ;; ret off)). fold m.
    destruct Hsrc as (R1 & R2 & _). rewrite u64_small by lia. replace (off + (n - tot)) with (off + m + (n - (tot + m))) by lia. exact E3.
  - by rewrite Hs2.
  - rewrite <-(take_drop (Z.to_nat m) l). eapply overwritten_app; [exact Hov|]. rewrite length_take.
    replace (off + Z.of_nat (Z.to_nat m `min` length l)%nat) with (off + m) by lia. exact O3.
  - lia.
  - intros b m' Hh Hin. apply K3; [|done]. apply K2; [|done]. by apply K1.
Qed.

(** ** iupdate *)

Definition inode_off (r : inode) : Z := i_inum r `mod` IPB * sizeof_dinode.

Lemma iupdate_run w p L H ip ops :
  let r := w_inodes w ip in let n := IBLOCK (i_inum r) (w_sb w) in
  blocks w p L H → logging w L ops → 1 ≤ ops → i_dev r = ROOTDEV → loggable w n → n ∉ H → Z.of_nat (length L) + 1 < LOGSIZE →
  Z.of_nat (length L) + Z.of_nat (length H) + 2 < NBUF →
  ∃ w', runs (iupdate ip) w tt w' ∧ fstep w w' ∧ blocks w' p (logged L n) H ∧ logging w' (logged L n) ops ∧
    view w' = <[n := store_dinode r (view w n) (inode_off r)]> (view w) ∧
    (∀ b m, held w p b m → m ∈ H → held w' p b m).
Proof.
  intros r n Hb Hl Ho Hdev Hlo Hin Hlen Hr. pose proof Hlo as [Hn _].
  destruct (tx_bread w p L H n) as (b & w1 & E1 & S1 & B1 & H1 & D1 & V1 & C1 & G1 & K1); [done|done|done|lia|].
  destruct (tx_modify w1 p L (n :: H) b n (λ d, store_dinode r d (inode_off r)) ops) as (w2 & E2 & S2 & B2 & L2 & V2 & K2); try done.
  { by left. } { by eapply logging_same. } { by eapply fstep_loggable. } { cbn [length]. lia. }
  destruct (tx_brelse w2 p (logged L n) H b n) as (w3 & E3 & S3 & B3 & V3 & G3 & K3); [done|by apply K2|apply settled_logged|].
  exists w3. split_and!.
  - unfold iupdate, get_sb, get_inode. rsteps. fold r n. rewrite Hdev. rcall E1. rsteps. rewrite (fstep_inodes _ _ S1). fold r.
    apply E2. exact E3.
  - by rewrite S1, S2.
  - done.
  - by eapply logging_same.
  - by rewrite V3, V2, V1.
  - intros b' m' Hh Hm'. apply K3; [by intros ->|]. by apply K2, K1.
Qed.

Lemma blocks_inodes w p L H f : blocks w p L H → blocks (set_inodes f w) p L H.
Proof. intros [Ha Hs Hr]. split; [exact Ha|by apply (bstore_frame w)|done]. Qed.

(** The blocks that [n] bytes from [off] on touch. *)
Definition touched (off n : Z) : Z := (off `mod` BSIZE + n + BSIZE - 1) / BSIZE.

Lemma touched_enough off n : 0 ≤ n → enough (S (Z.to_nat (touched off n))) off n ∧ 0 ≤ touched off n.
Proof.
  intros Hn. unfold touched. pose proof (Z.mod_pos_bound off BSIZE ltac:(done)) as Hm.
  assert (Ht : 0 ≤ (off `mod` BSIZE + n + BSIZE - 1) / BSIZE) by (apply Z.div_pos; lia). split; [|done].
  right. pose proof (Z.mul_succ_div_gt (off `mod` BSIZE + n + BSIZE - 1) BSIZE ltac:(done)). change BSIZE with 1024 in *. lia.
Qed.

(** The inode after [n] bytes have been written at [off]. *)
Definition grown (r : inode) (off n : Z) : inode := if off + n >? i_size r then set_i_size (off + n) r else r.

Lemma grown_fields r off n : i_addrs (grown r off n) = i_addrs r ∧ i_inum (grown r off n) = i_inum r ∧
  i_dev (grown r off n) = i_dev r ∧ i_size (grown r off n) = Z.max (i_size r) (off + n).
Proof. unfold grown. rewrite Z.gtb_ltb. destruct (Z.ltb_spec (i_size r) (off + n)); cbn; split_and!; try done; lia. Qed.

Lemma file_byte_addrs V r r' o : i_addrs r' = i_addrs r → file_byte V r' o = file_byte V r o.
Proof. intros E. unfold file_byte, block_of. by rewrite E. Qed.

(** What writei changes of the world. *)
Definition ustep (w w' : world) : Prop :=
  ∃ f s lg g, w' = set_inodes g (set_log lg (set_slk s (set_bufs f w))) ∧
    (∀ ip, s (SInode ip) = w_slk w (SInode ip)) ∧ l_start lg = l_start (w_log w).

Lemma writei_run user w p L H ip src ksrc off e l ops :
  let r := w_inodes w ip in let k := Z.of_nat (length l) in let n := IBLOCK (i_inum r) (w_sb w) in
  blocks w p L H → logging w L ops → 1 ≤ ops → writable_file w H r e → loggable w n → n ∉ H → elsewhere (view w) r e n →
  0 ≤ off ≤ i_size r → l ≠ [] → off + k ≤ e → source user w p src ksrc l →
  Z.of_nat (length L) + touched off k + 1 < LOGSIZE → Z.of_nat (length L) + Z.of_nat (length H) + touched off k + 2 < NBUF →
  ∃ w' L' V1, runs (writei ip user src ksrc off k) w k w' ∧ blocks w' p L' H ∧ logging w' L' ops ∧
    w_inodes w' = <[ip := grown r off k]> (w_inodes w) ∧ overwritten (view w) V1 r e off l ∧
    view w' = <[n := store_dinode (grown r off k) (view w n) (inode_off r)]> V1 ∧
    Z.of_nat (length L') ≤ Z.of_nat (length L) + touched off k + 1 ∧ ustep w w'.
Proof.
  intros r k n Hb Hl Ho Hw Hlo Hin Hel H0 Hne He Hsrc Hlen Hbuf. destruct (touched_enough off k ltac:(lia)) as [Ht Ht0].
  pose proof (mp_size _ _ _ _ (wf_mapped _ _ _ _ Hw)) as HeM. change (MAXFILE * BSIZE) with 274432 in *.
  assert (Hk : 0 < k) by (destruct l; [done|cbn in *; lia]).
  destruct (writei_loop_run user (rounds k) (Z.to_nat (touched off k)) w p L H ip src ksrc off k 0 e l ops)
    as (w1 & L1 & E1 & S1 & B1 & G1 & O1 & N1 & K1); rewrite ?Z.sub_0_r; try done; [lia|apply enough_rounds; lia|lia|lia|].
  rewrite Z.sub_0_r in E1. fold r in O1.
  set (w2 := set_inodes (<[ip := grown r off k]> (w_inodes w1)) w1). destruct (grown_fields r off k) as (F1 & F2 & F3 & F4).
  assert (Ei : w_inodes w2 ip = grown r off k) by (unfold w2; rsimpl; apply fn_lookup_insert).
  assert (En : IBLOCK (i_inum (w_inodes w2 ip)) (w_sb w2) = n) by (rewrite Ei, F2; unfold w2; rsimpl; by rewrite (fstep_sb _ _ S1)).
  destruct (iupdate_run w2 p L1 H ip ops) as (w3 & E3 & S3 & B3 & G3 & V3 & K3); rewrite ?En, ?Ei; try done; [..|].
  { by apply blocks_inodes. } { by apply (logging_same w1). } { by rewrite F3, (mp_dev _ _ _ _ (wf_mapped _ _ _ _ Hw)). }
  { exact (fstep_loggable w w1 n S1 Hlo). } { lia. } { lia. }
  exists w3, (logged L1 n), (view w1). rewrite En, Ei in V3. rewrite En in B3, G3. split_and!; try done.
  - unfold writei, get_inode. rsteps. fold r. rewrite (u32_small (off + k)) by lia.
    rewrite (proj2 (orb_false_iff _ _)) by lia. change (MAXFILE * BSIZE) with 274432.
    replace (off + k >? 274432) with false by lia. rcall E1. rewrite Z.gtb_ltb, (proj2 (Z.ltb_lt 0 k)) by done. rsteps. rewrite (fstep_inodes _ _ S1). fold r.
    eapply runs_bind; [|rcall E3; apply runs_ret].
    unfold grown in w2. destruct (off + k >? i_size r).
    + unfold when, upd_inode. eapply runs_eq; [rsteps|]. unfold w2. rewrite fn_alter_insert, (fstep_inodes _ _ S1). reflexivity.
    + unfold when. eapply runs_eq; [apply runs_ret|]. unfold w2. rewrite (fstep_inodes _ _ S1).
      unfold r. by rewrite fn_insert_id, <-(fstep_inodes _ _ S1).
  - rewrite (fstep_inodes _ _ S3). unfold w2. rsimpl. by rewrite (fstep_inodes _ _ S1).
  - rewrite V3. unfold inode_off. rewrite F2. change (view w2) with (view w1). destruct O1 as (_ & O1 & _). by rewrite (O1 n).
  - pose proof (logged_length L1 n). lia.
  - unfold w2 in S3. clear - S1 S3. destruct S1 as (f1 & s1 & g1 & -> & H1 & E1), S3 as (f3 & s3 & g3 & -> & H3 & E3).
    eexists f3, s3, g3, _. split_and!; [reflexivity|intros jp; rewrite H3; apply H1|by rewrite E3].
Qed.
End Write.
