(* ===== verification/FsProps.v ===== *)
(** * Reading and writing files: the properties *)

From S2P Require Import Prelude Types StringC Spinlock Kalloc PageTable Vm VmCopy Sched Sleeplock Run Bio Cache BioProps Log Recover LogOps Tx Fs FsPure FsBlocks FsFile FsWrite.

Section Facts.
Context {D : DiskOps} {HD : Disk D} {LY : Layout} {LK : LayoutOk LY}.
Implicit Types (L H : list Z).

(** Writing keeps the file writable. *)
Lemma overwritten_mapped V V' H r e off l : overwritten V V' r e off l → mapped V H r e → mapped V' H r e.
Proof.
  intros (_ & _ & HI) [M1 M2 M3 M4]. split; try done. intros bn H0 Hb. rewrite (block_of_same V V' r e) by done. by apply M3.
Qed.

Lemma mapped_less V H r e e' : mapped V H r e → e' ≤ e → mapped V H r e'.
Proof. intros [M1 M2 M3 M4] He. split; [done|lia| |]; intros; [apply M3|apply M4]; lia || done. Qed.

Lemma mapped_addrs V H r r' e : i_addrs r' = i_addrs r → i_dev r' = i_dev r → mapped V H r e → mapped V H r' e.
Proof.
  intros E1 E2 [M1 M2 M3 M4]. split; rewrite ?E1, ?E2; try done.
  intros bn H0 Hb. unfold block_of. rewrite E1. by apply M3.
Qed.

(** The inode block is not part of the file. *)
Lemma elsewhere_mapped V n d H r e : elsewhere V r e n → mapped V H r e → mapped (<[n := d]> V) H r e.
Proof.
  intros [N1 N2] [M1 M2 M3 M4]. split; try done. intros bn H0 Hb.
  rewrite (block_of_same V (<[n := d]> V) r e); [by apply M3| |done|done].
  intros Hi. rewrite fn_lookup_insert_ne; [done|]. by apply N2.
Qed.

Lemma elsewhere_byte V n d r e o : elsewhere V r e n → 0 ≤ o < e → file_byte (<[n := d]> V) r o = file_byte V r o.
Proof.
  intros [N1 N2] Ho. destruct (in_file o e Ho) as [H0 Hb]. unfold file_byte.
  rewrite (block_of_same V (<[n := d]> V) r e); [|intros Hi; rewrite fn_lookup_insert_ne; [done|by apply N2]|done|done].
  rewrite fn_lookup_insert_ne; [done|]. by apply N1.
Qed.

Lemma elsewhere_over V V' r e off l n : overwritten V V' r e off l → elsewhere V r e n → elsewhere V' r e n.
Proof.
  intros (_ & _ & HI) [N1 N2]. split; [|done]. intros bn H0 Hb. rewrite (block_of_same V V' r e) by done. by apply N1.
Qed.

Lemma file_bytes_ext V V' r r' off n :
  (∀ i, 0 ≤ i < n → file_byte V' r' (off + i) = file_byte V r (off + i)) → file_bytes V' r' off n = file_bytes V r off n.
Proof. intros Hf. apply list_fmap_ext. intros k i [-> Hi]%lookup_seqZ. apply Hf. lia. Qed.

(** What has been written is what a read finds. *)
Lemma overwritten_bytes V V' r e off l :
  0 ≤ off → off + Z.of_nat (length l) ≤ e → overwritten V V' r e off l → file_bytes V' r off (Z.of_nat (length l)) = l.
Proof.
  intros H0 He (HB & _). apply list_eq. intros i. unfold file_bytes. rewrite list_lookup_fmap.
  destruct (l !! i) as [x|] eqn:Ex.
  - pose proof (lookup_lt_Some _ _ _ Ex). rewrite lookup_seqZ_lt by lia. cbn. rewrite HB by lia.
    rewrite decide_True by lia. replace (Z.to_nat (off + (0 + Z.of_nat i) - off)) with i by lia. by rewrite Ex.
  - apply lookup_ge_None in Ex. by rewrite lookup_seqZ_ge by lia.
Qed.
End Facts.


(** ** A source that cannot be read *)

Section BadSource.
Context {D : DiskOps} {HD : Disk D} {LY : Layout} {LK : LayoutOk LY}.

Lemma bad_source_run w p src ksrc d m :
  let root := p_pagetable (w_procs w p) in
  pt_wf (w_mem w) root → 0 < m → ubyte (w_mem w) root src = None →
  ∀ v, w_mem v = w_mem w → w_procs v = w_procs w → quiet v p → runs (either_copyin d true src ksrc m) v (-1, d) v.
Proof.
  intros root Hwf Hm Hu v Ev Ep Hq. unfold either_copyin. eapply runs_bind; [apply runs_myproc; eauto with xv6|].
  rewrite (quiet_cproc _ _ Hq). unfold deref. rstep.
  eapply runs_eq; [apply (local_runs (λ root, copyin root d src m) v p (-1, d) (w_mem v)); [intros; apply local_copyin|]|done].
  rewrite Ep. fold root. apply ubyte_None in Hu. unfold copyin. cbn [copyin_loop]. rewrite (proj2 (Z.ltb_lt 0 m)) by done. cbn [negb].
  setoid_rewrite (bind_Ret _ _ _ _ _ _ _ (walkaddr_run root (PGROUNDDOWN src) [] v ltac:(by rewrite Ev))).
  rewrite uaddr_down. assert (Hu' : uaddr (w_mem v) root src = 0) by by rewrite Ev. by rewrite Hu'.
Qed.

Lemma mem_copy_self d o m : mem_copy d o (λ x, d (x + o)) 0 m = d.
Proof.
  extensionality x. destruct (decide (o ≤ x < o + m)); [|by rewrite mem_copy_out]. rewrite mem_copy_in by done. f_equal. lia.
Qed.

(** The first round fails and ends the loop where it began. *)
Lemma writei_loop_bad fuel w p L H ip src ksrc off n e :
  let r := w_inodes w ip in let root := p_pagetable (w_procs w p) in
  blocks w p L H → mapped (view w) H r e → 0 ≤ off < e → 0 < n → pt_wf (w_mem w) root → ubyte (w_mem w) root src = None →
  Z.of_nat (length L) + Z.of_nat (length H) + 1 < NBUF →
  ∃ w', runs (writei_loop (S fuel) ip true src ksrc off n 0) w off w' ∧ same_blocks w w' p L H.
Proof.
  intros r root Hb Hm Ho Hn Hwf Hu Hr. cbn [writei_loop]. rewrite (proj2 (Z.ltb_lt 0 n)) by done. cbn [negb].
  destruct (in_file off e Ho) as [Hbn0 Hbn]. destruct (mp_block _ _ _ _ Hm _ Hbn0 Hbn) as (_ & Hblk & Hnin).
  destruct (bmap_run w p L H ip (off / BSIZE) e Hb Hm Hbn0 Hbn) as (w1 & E1 & S1); [lia|]. fold r in E1.
  set (a := block_of (view w) r (off / BSIZE)) in *.
  destruct (tx_skim w1 p L H a (sm_blocks _ _ _ _ _ S1) Hblk Hnin Hr) as (b & v & v' & E2 & D2 & S2 & E3 & S3).
  exists v'. split; [|by eapply same_blocks_trans]. unfold get_inode at 1. rsteps. fold r. rcall E1. rewrite (mp_dev _ _ _ _ Hm).
  eapply runs_bind; [exact E2|]. unfold get_buf. rsteps.
  pose proof (Z.mod_pos_bound off BSIZE ltac:(done)) as Hmod. set (m := Z.min _ _).
  assert (S12 : fstep w v) by (rewrite (sm_step _ _ _ _ _ S1); done).
  eapply runs_bind; [eapply bad_source_run; [exact Hwf| |exact Hu|..]|]; [lia|by destruct S12 as (? & ? & ? & -> & _)..| |].
  { exact (proj1 (fstep_active w v p S12 (bk_active _ _ _ _ Hb))). }
  cbn [fst snd Z.eqb]. change (-1 =? -1) with true. cbn iota. eapply (runs_bind _ _ _ tt v).
  { unfold upd_data, upd_buf. eapply runs_eq; [rstep|].
    rewrite fn_alter_insert, mem_copy_self. change (set_b_data (b_data ?x) ?x) with x. by rewrite fn_insert_id. }
  rcall E3. apply runs_ret.
Qed.
End BadSource.

Module FileData.
Section Props.
Context {D : DiskOps} {HD : Disk D} {LY : Layout} {LK : LayoutOk LY}.

(** C27: readi returns the number of bytes from [off] to the end of the file, at most
    [n], and puts exactly these bytes of the file into the kernel's buffer or into
    the memory of the process; it changes neither the file system nor the log. *)
Theorem readi_reads w p (L H : list Z) ip off n :
  let r := w_inodes w ip in let k := read_len r off n in
  blocks w p L H → mapped (view w) H r (i_size r) → 0 ≤ off < 2 ^ 32 → 0 ≤ n < 2 ^ 32 →
  Z.of_nat (length L) + Z.of_nat (length H) + 1 < NBUF →
  (∀ dst kd, 0 ≤ dst → dst + n < 2 ^ 64 →
    ∃ kd' w', runs (readi ip false dst kd off n) w (k, kd') w' ∧ same_blocks w w' p L H ∧
      buffered kd dst (file_bytes (view w) r off k) kd') ∧
  (∀ root dst, user_ok root p dst k w →
    ∃ M w', runs (readi ip true dst zeroes off n) w (k, zeroes) w' ∧ same_blocks (set_mem M w) w' p L H ∧
      filled (w_mem w) M root dst (file_bytes (view w) r off k)).
Proof.
  intros r k Hb Hm Ho Hn Hr. split.
  - intros dst kd Hd Hd'. destruct (readi_run p false (kernel_sink p) w L H ip dst kd off n) as (M & kd' & w' & E & S & [Em P]); try done.
    { split; [done|]. unfold read_len. case_match; lia. }
    cbn in Em. subst M. by exists kd', w'.
  - intros root dst Hu. destruct (readi_run p true (user_sink root p) w L H ip dst zeroes off n) as (M & kd' & w' & E & S & [Em P]); try done.
    cbn in Em. subst kd'. by exists M, w'.
Qed.


(** C39: writei does not report a source it cannot read: with a user address that is
    not mapped it returns the number of bytes it was asked for, as if it had
    written them, and the file is as before. *)
Theorem writei_hides_bad_source w p (L H : list Z) ip src ksrc off n e ops :
  let r := w_inodes w ip in let nb := IBLOCK (i_inum r) (w_sb w) in let root := p_pagetable (w_procs w p) in
  blocks w p L H → logging w L ops → 1 ≤ ops → writable_file w H r e → loggable w nb → nb ∉ H → elsewhere (view w) r e nb →
  0 ≤ off ≤ i_size r → off < e → 0 < n → off + n ≤ MAXFILE * BSIZE → pt_wf (w_mem w) root → ubyte (w_mem w) root src = None →
  Z.of_nat (length L) + 1 < LOGSIZE → Z.of_nat (length L) + Z.of_nat (length H) + 2 < NBUF →
  ∃ w', runs (writei ip true src ksrc off n) w n w' ∧ w_inodes w' = w_inodes w ∧
    ∀ o, 0 ≤ o < e → file_byte (view w') r o = file_byte (view w) r o.
Proof.
  intros r nb root Hb Hl Hops Hw Hlo Hin Hel H0 He Hn Hmax Hwf Hu Hlen Hbuf. pose proof (wf_mapped _ _ _ _ Hw) as Hm.
  change (MAXFILE * BSIZE) with 274432 in *.
  destruct (writei_loop_bad (Z.to_nat (n / BSIZE + 2)) w p L H ip src ksrc off n e) as (w1 & E1 & S1); try done; [lia..|].
  pose proof (sm_step _ _ _ _ _ S1) as St. assert (Ei : w_inodes w1 = w_inodes w) by exact (fstep_inodes _ _ St).
  destruct (iupdate_run w1 p L H ip ops) as (w2 & E2 & S2 & B2 & G2 & V2 & K2); rewrite ?Ei, ?(fstep_sb _ _ St); try done; [..|].
  { apply (sm_blocks _ _ _ _ _ S1). } { apply (logging_same w); [apply S1|done]. } { apply (mp_dev _ _ _ _ Hm). }
  { by eapply fstep_loggable. }
  exists w2. split_and!.
  - unfold writei, get_inode. rsteps. fold r. rewrite (u32_small (off + n)) by lia. rewrite (proj2 (orb_false_iff _ _)) by lia.
    change (MAXFILE * BSIZE) with 274432. replace (off + n >? 274432) with false by lia.
    replace (rounds n) with (S (Z.to_nat (n / BSIZE + 2))) by (unfold rounds; pose proof (Z.div_pos n BSIZE); change BSIZE with 1024 in *; lia).
    rcall E1. replace (n >? 0) with true by lia. rsteps. rewrite Ei. fold r. replace (off >? i_size r) with false by lia.
    cbn [when]. rsteps. rcall E2. apply runs_ret.
  - rewrite (fstep_inodes _ _ S2). done.
  - intros o Ho. rewrite V2, Ei, (fstep_sb _ _ St), (sm_view _ _ _ _ _ S1). fold r nb. by apply (elsewhere_byte (view w) nb _ r e).
Qed.

End Props.

(** A file of ten bytes in block 50. *)
Definition sample_inode : inode := mkInode ROOTDEV 1 1 true T_FILE 0 0 1 10 (<[0 := 50]> zeroes).

Lemma sample_block V bn : 0 ≤ bn → bn * BSIZE < BSIZE → block_of V sample_inode bn = 50.
Proof. intros H0 Hb. assert (bn = 0) as -> by (unfold BSIZE in *; lia). reflexivity. Qed.

Lemma sample_mapped V : mapped V [] sample_inode BSIZE.
Proof.
  split; [done|done| |]; [|unfold NDIRECT, BSIZE; lia]. intros bn H0 Hb. rewrite sample_block by done. split_and!; [done|done|set_solver].
Qed.

Lemma sample_writable w : l_start (w_log w) = 2 → writable_file w [] sample_inode BSIZE.
Proof.
  intros El. split; [apply sample_mapped| | |].
  - intros bn H0 Hb. rewrite sample_block by done. split; [lia|]. rewrite El. unfold outside, LOGSIZE, MAXOPBLOCKS. lia.
  - intros bn bn' H0 Hb H0' Hb' _. unfold BSIZE in *. lia.
  - intros bn H0 Hb. unfold NDIRECT, BSIZE. lia.
Qed.

Lemma sample_elsewhere V : elsewhere V sample_inode BSIZE 32.
Proof. split; [|unfold NDIRECT, BSIZE; lia]. intros bn H0 Hb. by rewrite sample_block. Qed.

Lemma readi_reads_witness :
  ∃ w kd' w', runs (D := prompt_disk) (readi (H := prompt_disk) (H0 := sample_layout) 0 false 0 zeroes 3 100) w (7, kd') w' ∧ kd' 2 = 5.
Proof.
  destruct (sample_fs (<[50 := λ x, x]> (λ _, zeroes)) (λ _, sample_inode)) as (w & Hb & Hl & Hv & Hs & Hi & El & _).
  destruct (readi_reads (D := prompt_disk) (LY := sample_layout) (LK := sample_layout_ok) w 1 [] [] 0 3 100) as [Hk _]; rewrite ?Hi; try done.
  { apply (mapped_less _ _ _ BSIZE); [apply sample_mapped|done]. }
  destruct (Hk 0 zeroes) as (kd' & w' & E & _ & P); [done..|]. rewrite Hi in E, P. change (read_len sample_inode 3 100) with 7 in E, P.
  exists w, kd', w'. split; [exact E|]. rewrite P, Hv. reflexivity.
Defined.


(** The process of [sample_fs] with an address space in which nothing is mapped. *)
Lemma sample_user w : blocks (D := prompt_disk) w 1 [] [] → w_mem w = zeroes →
  ∃ w', blocks (D := prompt_disk) w' 1 [] [] ∧ w_log w' = w_log w ∧ view w' = view w ∧ w_sb w' = w_sb w ∧ w_inodes w' = w_inodes w ∧
    pt_wf (H := sample_layout) (w_mem w') (p_pagetable (w_procs w' 1)) ∧ ubyte (w_mem w') (p_pagetable (w_procs w' 1)) 0 = None.
Proof.
  intros [Ha Hs Hr] Hm.
  exists (set_procs (<[1 := set_p_pagetable (Sample.page 0) (w_procs w 1)]> (w_procs w)) w). cbn. rewrite Hm, fn_lookup_insert. cbn.
  split_and!; try done.
  - split; [|apply (bstore_frame w); try done; cbn; by rewrite fn_lookup_insert|done].
    destruct Ha as [(Q1 & Q2 & Q3 & Q4 & Q5 & Q6) Hv]. split; [|done]. split_and!; try done; cbn; by rewrite fn_lookup_insert.
  - apply Sample.wf0.
Qed.

Lemma writei_hides_bad_source_witness :
  ∃ w w', runs (D := prompt_disk) (writei (H := prompt_disk) (H0 := sample_layout) 0 true 0 zeroes 3 5) w 5 w' ∧
    file_byte (view w') sample_inode 4 = file_byte (view w) sample_inode 4.
Proof.
  destruct (sample_fs (λ _, zeroes) (λ _, sample_inode)) as (w0 & Hb0 & Hl0 & Hv0 & Hs0 & Hi0 & El0 & _ & _ & Hm0).
  destruct (sample_user w0 Hb0 Hm0) as (w & Hb & Hlog & Hv & Hs & Hi & Hwf & Hu). rewrite Hi0 in Hi. rewrite Hs0 in Hs.
  assert (El : l_start (w_log w) = 2) by by rewrite Hlog. assert (Hl : logging w [] 1) by by eapply logging_same.
  assert (Hlo : loggable w 32) by (split; [lia|]; rewrite El; unfold outside, LOGSIZE, MAXOPBLOCKS; lia).
  destruct (writei_hides_bad_source (D := prompt_disk) (LY := sample_layout) (LK := sample_layout_ok) w 1 [] [] 0 0 zeroes 3 5 BSIZE 1)
    as (w' & E & _ & Hf); rewrite ?Hi, ?Hs; try done.
  { by apply sample_writable. } { set_solver. } { apply sample_elsewhere. }
  exists w, w'. split; [exact E|]. rewrite Hi in Hf. by apply Hf.
Defined.

End FileData.
