(* ===== verification/FsDir.v ===== *)
(** * Directories

    A directory is a file of 16-byte entries: dirlookup finds the first entry in
    use with a name and dirlink writes one, over the file operations of FsFile and
    FsWrite and the inode cache of Icache. *)

From S2P Require Import Prelude Types StringC Spinlock Kalloc Vm VmCopy Sched Sleeplock Run Bio BioProps Log Recover LogOps Tx Fs FsPure Icache FsBlocks FsFile FsWrite FsProps.

(** The directory entry at [off]. *)
Definition dirent_at (V : Z → bytes) (r : inode) (off : Z) : bytes :=
  λ x, if decide (0 ≤ x < sizeof_dirent) then file_byte V r (off + x) else 0.

(** Two names are the same to the file system: equal up to their NUL or their
    first DIRSIZ characters. *)
Definition same_name (s t : bytes) : bool := bool_decide (cstr (Z.to_nat DIRSIZ) s 0 = cstr (Z.to_nat DIRSIZ) t 0).

(** An entry in use for [name]. *)
Definition names (name de : bytes) : bool := negb (de_inum de =? 0) && same_name name (de_name de).

(** The offset of the first entry of a directory for which [P] holds. *)
Definition dir_find (P : bytes → bool) (V : Z → bytes) (r : inode) : option Z :=
  List.find (λ off, P (dirent_at V r off)) (dir_offs (i_size r)).

Lemma cstr_shift n m m' p q : (∀ x, 0 ≤ x < Z.of_nat n → m (p + x) = m' (q + x)) → cstr n m p = cstr n m' q.
Proof.
  revert p q. induction n as [|n IH]; intros p q Hx; [done|]. cbn [cstr].
  rewrite <-(Z.add_0_r p), <-(Z.add_0_r q), Hx by lia. rewrite !Z.add_0_r. case_match; [|done]. f_equal. apply IH.
  intros x Hx'. replace (p + 1 + x) with (p + (1 + x)) by lia. rewrite Hx by lia. f_equal. lia.
Qed.

Lemma namecmp_same s t : (namecmp s t =? 0) = same_name s t.
Proof.
  unfold namecmp, same_name. apply eq_true_iff_eq. rewrite Z.eqb_eq, bool_decide_eq_true, Strings.strncmp_zero_iff.
  rewrite (cstr_shift _ (beside s t DIRSIZ) s 0 0), (cstr_shift _ (beside s t DIRSIZ) t DIRSIZ 0); [done|..]; unfold beside.
  - intros x Hx. rewrite (proj2 (Z.ltb_ge _ _)) by lia. f_equal. lia.
  - intros x Hx. rewrite (proj2 (Z.ltb_lt _ _)) by (unfold DIRSIZ in *; lia). done.
Qed.

Lemma dir_offs_spec size off :
  0 ≤ size → size `mod` sizeof_dirent = 0 → off ∈ dir_offs size ↔ 0 ≤ off ∧ off + sizeof_dirent ≤ size ∧ off `mod` sizeof_dirent = 0.
Proof.
  intros H0 Hm. unfold dir_offs. rewrite list_elem_of_fmap. change sizeof_dirent with 16 in *.
  assert ((size + 16 - 1) / 16 = size / 16) as ->.
  { pose proof (Z.div_mod size 16 ltac:(lia)). symmetry. apply (Z.div_unique _ _ _ 15); lia. }
  pose proof (Z.div_mod size 16 ltac:(lia)). split.
  - intros (i & -> & Hi%elem_of_seqZ). rewrite Z.mod_mul by lia. lia.
  - intros (Ho & He & Hom). pose proof (Z.div_mod off 16 ltac:(lia)). exists (off / 16). rewrite elem_of_seqZ. lia.
Qed.

Section Dir.
Context {D : DiskOps} {HD : Disk D} {LY : Layout} {LK : LayoutOk LY}.

(** A directory that can be read. *)
Record directory (w : world) (H : list Z) (r : inode) : Prop := {
  dr_type : i_type r = T_DIR;
  dr_size : 0 ≤ i_size r < 2 ^ 32 - sizeof_dirent;
  dr_whole : i_size r `mod` sizeof_dirent = 0;
  dr_mapped : mapped (view w) H r (i_size r)
}.

Lemma read_dirent w p L H dp off :
  let r := w_inodes w dp in
  blocks w p L H → directory w H r → off ∈ dir_offs (i_size r) → Z.of_nat (length L) + Z.of_nat (length H) + 1 < NBUF →
  ∃ w', runs (readi dp false 0 zeroes off sizeof_dirent) w (sizeof_dirent, dirent_at (view w) r off) w' ∧ same_blocks w w' p L H.
Proof.
  intros r Hb [_ Hs Hw Hm] Ho Hr. apply dir_offs_spec in Ho as (Ho & He & _); [|lia|done]. change sizeof_dirent with 16 in *.
  destruct (readi_run p false (kernel_sink p) w L H dp 0 zeroes off 16) as (M & kd & w' & E & S & [Em P]); try done; [lia| |].
  { split; [done|]. unfold read_len. case_match; lia. }
  assert (Ek : read_len (w_inodes w dp) off 16 = 16).
  { fold r. unfold read_len. rewrite (proj2 (orb_false_iff _ _)); lia. }
  rewrite Ek in E, P. cbn in Em. subst M. exists w'. split; [|exact S]. replace (dirent_at (view w) r off) with kd; [exact E|].
  extensionality x. rewrite P. unfold file_bytes, dirent_at. cbn [snd]. rewrite length_fmap, length_seqZ. fold r.
  change (0 + Z.of_nat (Z.to_nat 16)) with 16. change sizeof_dirent with 16. case_decide; [|done].
  rewrite list_lookup_fmap, lookup_seqZ_lt by lia. cbn. f_equal. lia.
Qed.

Lemma same_directory w v p L H r : same_blocks w v p L H → directory w H r → directory v H r.
Proof. intros S [T Sz Wh M]. split; try done. by rewrite (sm_view _ _ _ _ _ S). Qed.

(** Reading the entries one after the other finds the first that [P] wants. *)
Lemma find_dirent {B} w p L H dp (P : bytes → bool) (res : Z → B) (round : Z → K (option B)) :
  let r := w_inodes w dp in
  blocks w p L H → directory w H r → Z.of_nat (length L) + Z.of_nat (length H) + 1 < NBUF →
  (∀ off v w', w_inodes v = w_inodes w → off ∈ dir_offs (i_size r) →
    runs (readi dp false 0 zeroes off sizeof_dirent) v (sizeof_dirent, dirent_at (view w) r off) w' →
    runs (round off) v (if P (dirent_at (view w) r off) then Some (res off) else None) w') →
  ∃ w', runs (for_find (dir_offs (i_size r)) round) w (res <$> dir_find P (view w) r) w' ∧ same_blocks w w' p L H.
Proof.
  intros r Hb Hd Hr Hround.
  assert (Hstep : ∀ off v, off ∈ dir_offs (i_size r) → same_blocks w v p L H →
    ∃ v', runs (round off) v (if P (dirent_at (view w) r off) then Some (res off) else None) v' ∧ same_blocks w v' p L H).
  { intros off v Ho Sv. assert (Ei : w_inodes v = w_inodes w) by exact (fstep_inodes _ _ (sm_step _ _ _ _ _ Sv)).
    destruct (read_dirent v p L H dp off) as (v' & E & S'); try rewrite Ei; try done; [by eapply sm_blocks|by eapply same_directory|].
    rewrite Ei, (sm_view _ _ _ _ _ Sv) in E. exists v'. split; [by apply Hround|by eapply same_blocks_trans]. }
  unfold dir_find. generalize dependent (dir_offs (i_size r)). intros l _ Hstep.
  assert (Hgo : ∀ v, same_blocks w v p L H → ∃ w', runs (for_find l round) v (res <$> List.find (λ off, P (dirent_at (view w) r off)) l) w' ∧ same_blocks w w' p L H).
  { induction l as [|off l IH]; intros v Sv; cbn [for_find List.find].
    - exists v. split; [apply runs_ret|done].
    - destruct (Hstep off v) as (v' & E & Sv'); [by left|done|]. destruct (P _).
      + exists v'. split; [|done]. eapply runs_bind; [exact E|apply runs_ret].
      + destruct (IH (λ o u Ho, Hstep o u (list_elem_of_further _ _ _ Ho)) v' Sv') as (w' & E' & S').
        exists w'. split; [|done]. by eapply runs_bind. }
  apply Hgo. by apply same_blocks_refl.
Qed.

Lemma dirlookup_run w p L H dp name :
  let r := w_inodes w dp in
  blocks w p L H → directory w H r → Z.of_nat (length L) + Z.of_nat (length H) + 1 < NBUF →
  ∃ v, same_blocks w v p L H ∧
    match dir_find (names name) (view w) r with
    | None => runs (dirlookup dp name) w (None, 0) v
    | Some off =>
        (∀ ip w', runs (iget (i_dev r) (de_inum (dirent_at (view w) r off))) v ip w' → runs (dirlookup dp name) w (Some ip, off) w') ∧
        (∀ m, panics (iget (i_dev r) (de_inum (dirent_at (view w) r off))) v m → panics (dirlookup dp name) w m)
    end.
Proof.
  intros r Hb Hd Hr.
  destruct (find_dirent w p L H dp (names name) (λ off, (off, de_inum (dirent_at (view w) r off))) (lookup_round dp name)) as (v & E & S); try done.
  { intros off v w' Ei Ho E. fold r. unfold lookup_round. eapply runs_bind; [exact E|]. cbn [fst snd]. change (negb _) with false. cbn iota.
    unfold names. rewrite namecmp_same. destruct (_ =? 0); [apply runs_ret|]. cbn [negb andb]. destruct (same_name _ _); apply runs_ret. }
  exists v. split; [done|]. fold r in E.
  destruct (dir_find _ _ _) as [off|]; cbn in E; [split|].
  - intros ip w' Eg. unfold dirlookup, get_inode. rstep. fold r. rewrite (dr_type _ _ _ Hd). change (negb _) with false. cbn iota.
    eapply runs_bind; [exact E|]. cbn iota beta. eapply runs_bind; [exact Eg|apply runs_ret].
  - intros m Eg. unfold dirlookup, get_inode. eapply panics_bind; [rstep|]. cbv beta. fold r. rewrite (dr_type _ _ _ Hd). change (negb _) with false.
    cbn iota. eapply panics_bind; [exact E|]. cbn iota beta. by apply panics_l.
  - unfold dirlookup, get_inode. rstep. fold r. rewrite (dr_type _ _ _ Hd). change (negb _) with false. cbn iota.
    eapply runs_bind; [exact E|]. apply runs_ret.
Qed.

Lemma blocks_quiet w p L H : blocks w p L H → quiet w p.
Proof. intros Hb. apply (bk_active _ _ _ _ Hb). Qed.

Lemma same_quiet w v p L H : same_blocks w v p L H → quiet v p.
Proof. intros S. eapply blocks_quiet, sm_blocks, S. Qed.
End Dir.

(** ** Adding an entry *)

(** The slot that dirlink takes: the first free entry, or the end. *)
Definition slot_of (V : Z → bytes) (r : inode) : Z := default (i_size r) (dir_find (λ de, de_inum de =? 0) V r).

(** The directory with [de] in that slot and every other entry as before. *)
Definition linked (V V' : Z → bytes) (r r' : inode) (de : bytes) : Prop :=
  i_size r' = Z.max (i_size r) (slot_of V r + sizeof_dirent) ∧
  dirent_at V' r' (slot_of V r) = de ∧
  ∀ off, off ∈ dir_offs (i_size r) → off ≠ slot_of V r → dirent_at V' r' off = dirent_at V r off.

Lemma dir_find_spec P V r :
  match dir_find P V r with
  | Some off => off ∈ dir_offs (i_size r) ∧ P (dirent_at V r off) = true
  | None => ∀ off, off ∈ dir_offs (i_size r) → P (dirent_at V r off) = false
  end.
Proof.
  unfold dir_find. destruct (List.find _ _) eqn:E.
  - apply List.find_some in E as [Hin HP]. by rewrite list_elem_of_In.
  - intros off Ho. apply (List.find_none _ _ E off). by apply list_elem_of_In.
Qed.

Lemma dir_offs_grow size :
  0 ≤ size → size `mod` sizeof_dirent = 0 → dir_offs (size + sizeof_dirent) = dir_offs size ++ [size].
Proof.
  change sizeof_dirent with 16. intros H0 Hm. unfold dir_offs. change sizeof_dirent with 16. pose proof (Z.div_mod size 16 ltac:(lia)).
  rewrite <-(Z.div_unique (size + 16 + 16 - 1) 16 (size / 16 + 1) 15) by lia.
  rewrite <-(Z.div_unique (size + 16 - 1) 16 (size / 16) 15) by lia.
  rewrite seqZ_app by (pose proof (Z.div_pos size 16); lia). rewrite fmap_app. f_equal. rewrite seqZ_cons by lia. cbn.
  f_equal. lia.
Qed.

Lemma slot_cases V r :
  0 ≤ i_size r → i_size r `mod` sizeof_dirent = 0 →
  (slot_of V r ∈ dir_offs (i_size r) ∧ de_inum (dirent_at V r (slot_of V r)) = 0) ∨
  (slot_of V r = i_size r ∧ slot_of V r ∉ dir_offs (i_size r)).
Proof.
  intros H0 Hm. unfold slot_of. pose proof (dir_find_spec (λ de, de_inum de =? 0) V r) as Hs. destruct (dir_find _ V r) as [off|].
  - left. cbn. destruct Hs as [Ho He]. split; [done|]. by apply Z.eqb_eq.
  - right. split; [done|]. cbn. rewrite dir_offs_spec by done. change sizeof_dirent with 16. lia.
Qed.

Lemma linked_offs V V' r r' de :
  0 ≤ i_size r → i_size r `mod` sizeof_dirent = 0 → linked V V' r r' de →
  dir_offs (i_size r') = dir_offs (i_size r) ∧ slot_of V r ∈ dir_offs (i_size r) ∧ de_inum (dirent_at V r (slot_of V r)) = 0 ∨
  dir_offs (i_size r') = dir_offs (i_size r) ++ [slot_of V r] ∧ slot_of V r ∉ dir_offs (i_size r).
Proof.
  intros H0 Hm (Es & _). destruct (slot_cases V r H0 Hm) as [[Hs Hf]|[Hs Hn]]; [left|right].
  - split; [|done]. f_equal. apply dir_offs_spec in Hs; [|done..]. lia.
  - split; [|done]. rewrite Hs, <-(dir_offs_grow (i_size r)) by done.
    f_equal. rewrite Hs in Es. change sizeof_dirent with 16 in *. lia.
Qed.

Lemma find_ext_in {A} (P Q : A → bool) l : (∀ x, x ∈ l → P x = Q x) → List.find P l = List.find Q l.
Proof.
  induction l as [|x l IH]; intros H; [done|]. cbn. rewrite H by by left. rewrite IH; [done|]. intros y Hy. apply H. by right.
Qed.

Lemma find_snoc {A} (P : A → bool) l x : P x = false → List.find P (l ++ [x]) = List.find P l.
Proof. intros H. induction l as [|y l IH]; cbn; [by rewrite H|]. by rewrite IH. Qed.

(** A name that was not there is now found, and other names as before. *)
Lemma linked_find V V' r r' de name :
  0 ≤ i_size r → i_size r `mod` sizeof_dirent = 0 → linked V V' r r' de →
  (names name de = true → dir_find (names name) V r = None → dir_find (names name) V' r' = Some (slot_of V r)) ∧
  (names name de = false → dir_find (names name) V' r' = dir_find (names name) V r).
Proof.
  intros H0 Hm Hl. pose proof (linked_offs _ _ _ _ _ H0 Hm Hl) as Hoffs. destruct Hl as (Es & Ed & Eo). split.
  - intros Hd Hn. pose proof (dir_find_spec (names name) V r) as Hs. rewrite Hn in Hs.
    pose proof (dir_find_spec (names name) V' r') as Hs'. destruct (dir_find (names name) V' r') as [off|].
    + destruct Hs' as [Ho He]. destruct (decide (off = slot_of V r)) as [->|Hne]; [done|]. exfalso.
      assert (Ho' : off ∈ dir_offs (i_size r)) by (destruct Hoffs as [(E & _)|(E & _)]; rewrite E in Ho; set_solver).
      rewrite (Eo off), (Hs off) in He by done. done.
    + exfalso. rewrite <-Ed, Hs' in Hd; [done|]. destruct Hoffs as [(E & ? & _)|(E & _)]; rewrite E; set_solver.
  - intros Hd. unfold dir_find. destruct Hoffs as [(E & Hin & Hf)|(E & Hin)]; rewrite E.
    + apply find_ext_in. intros off Ho. destruct (decide (off = slot_of V r)) as [->|Hne]; [|by rewrite Eo].
      rewrite Ed, Hd. unfold names. by rewrite Hf.
    + rewrite find_snoc by by rewrite Ed. apply find_ext_in. intros off Ho. rewrite Eo; [done|done|]. by intros ->.
Qed.

Lemma strncpy_loop_cstr n m s t :
  t + Z.of_nat n ≤ s ∨ s + Z.of_nat n ≤ t → cstr n (strncpy_loop n m s t) s = cstr n m t.
Proof.
  revert m s t. induction n as [|n IH]; intros m s t H; [done|]. cbn [cstr strncpy_loop]. destruct (nz (m t)) eqn:Et.
  - rewrite Strings.strncpy_loop_out, fn_lookup_insert by lia. rewrite Et, IH by lia. f_equal. apply cstr_ext.
    intros x Hx. apply fn_lookup_insert_ne. lia.
  - rewrite Strings.zero_up_fill, mem_fill_out, fn_lookup_insert by lia. by rewrite Et.
Qed.

(** The 16 bytes of the entry that dirlink writes. *)
Definition new_dirent (name : bytes) (inum : Z) : bytes := λ x, if decide (0 ≤ x < sizeof_dirent) then make_dirent name inum x else 0.

Lemma new_dirent_inum name inum : 0 ≤ inum < 2 ^ 16 → de_inum (new_dirent name inum) = inum.
Proof.
  intros Hi. unfold de_inum, ld16. rewrite (ld_ext _ _ (make_dirent name inum)).
  - unfold make_dirent, st16. rewrite ld_st_eq by lia. by apply Z.mod_small.
  - intros x Hx. unfold new_dirent. rewrite decide_True; [done|]. change sizeof_dirent with 16. lia.
Qed.

Lemma new_dirent_name name inum : same_name name (de_name (new_dirent name inum)) = true.
Proof.
  unfold same_name. apply bool_decide_eq_true. symmetry.
  transitivity (cstr (Z.to_nat DIRSIZ) (strncpy name (2 * DIRSIZ) 0 DIRSIZ) (2 * DIRSIZ)).
  - apply cstr_shift. intros x Hx. change (Z.of_nat (Z.to_nat DIRSIZ)) with 14 in Hx. unfold de_name, new_dirent.
    rewrite decide_True by (change sizeof_dirent with 16; lia). unfold make_dirent, st16. rewrite st_out by lia. f_equal. lia.
  - apply strncpy_loop_cstr. change DIRSIZ with 14. lia.
Qed.

(** A directory into which an entry can be written within its [e] bytes of blocks. *)
Record writable_dir (w : world) (H : list Z) (r : inode) (e : Z) : Prop := {
  wd_dir : directory w H r;
  wd_file : writable_file w H r e;
  wd_size : i_size r ≤ e;
  wd_slot : slot_of (view w) r + sizeof_dirent ≤ e;
  wd_log : loggable w (IBLOCK (i_inum r) (w_sb w));
  wd_free : IBLOCK (i_inum r) (w_sb w) ∉ H;
  wd_else : elsewhere (view w) r e (IBLOCK (i_inum r) (w_sb w))
}.

Lemma touched_two off : 0 ≤ off → touched off sizeof_dirent ≤ 2.
Proof.
  intros H0. unfold touched. change sizeof_dirent with 16. change BSIZE with 1024. pose proof (Z.mod_pos_bound off 1024 ltac:(lia)).
  apply Z.lt_succ_r, Z.div_lt_upper_bound; lia.
Qed.

Lemma grown_dirent V V' r r' e off o :
  (∀ x, 0 ≤ x < e → file_byte V' r' x = if decide (off ≤ x < off + sizeof_dirent) then o (x - off) else file_byte V r x) →
  off `mod` sizeof_dirent = 0 → 0 ≤ off → off + sizeof_dirent ≤ e →
  dirent_at V' r' off = (λ x, if decide (0 ≤ x < sizeof_dirent) then o x else 0) ∧
  ∀ off', 0 ≤ off' → off' `mod` sizeof_dirent = 0 → off' + sizeof_dirent ≤ e → off' ≠ off → dirent_at V' r' off' = dirent_at V r off'.
Proof.
  change sizeof_dirent with 16. intros Hb Hm H0 He. split.
  - extensionality x. unfold dirent_at. change sizeof_dirent with 16. case_decide; [|done]. rewrite Hb, decide_True by lia. f_equal. lia.
  - intros off' H0' Hm' He' Hne. extensionality x. unfold dirent_at. change sizeof_dirent with 16. case_decide; [|done].
    rewrite Hb by lia. rewrite decide_False; [done|]. pose proof (Z.div_mod off 16 ltac:(lia)). pose proof (Z.div_mod off' 16 ltac:(lia)). lia.
Qed.

Section Link.
Context {D : DiskOps} {HD : Disk D} {LY : Layout} {LK : LayoutOk LY}.

Lemma same_writable w v p L H r e : same_blocks w v p L H → writable_dir w H r e → writable_dir v H r e.
Proof.
  intros S [Dr Wf Sz Sl Lo Fr El]. pose proof (sm_step _ _ _ _ _ S) as St. pose proof (sm_view _ _ _ _ _ S) as Ev.
  split; rewrite ?Ev, ?(fstep_sb _ _ St); try done; [by eapply same_directory| |by eapply fstep_loggable].
  destruct Wf as [W1 W2 W3 W4]. split; rewrite ?Ev; try done. intros bn H0 Hb. eapply fstep_loggable; [exact St|by apply W2].
Qed.

Lemma write_dirent w p L H dp e name inum ops :
  let r := w_inodes w dp in let off := slot_of (view w) r in
  blocks w p L H → logging w L ops → 1 ≤ ops → writable_dir w H r e →
  Z.of_nat (length L) + 3 < LOGSIZE → Z.of_nat (length L) + Z.of_nat (length H) + 4 < NBUF →
  ∃ w' L' r', runs (writei dp false 0 (make_dirent name inum) off sizeof_dirent) w sizeof_dirent w' ∧ blocks w' p L' H ∧ logging w' L' ops ∧
    w_inodes w' = <[dp := r']> (w_inodes w) ∧ directory w' H r' ∧ linked (view w) (view w') r r' (new_dirent name inum) ∧
    Z.of_nat (length L') ≤ Z.of_nat (length L) + 3 ∧ i_dev r' = i_dev r.
Proof.
  intros r off Hb Hl Hops [Dr Wf Sz Sl Lo Fr El] Hlen Hbuf. pose proof (touched_two off) as Ht.
  set (l := (λ x, make_dirent name inum x) <$> seqZ 0 sizeof_dirent).
  assert (Hll : Z.of_nat (length l) = sizeof_dirent) by (unfold l; by rewrite length_fmap, length_seqZ).
  assert (Hls : ∀ x, 0 ≤ x < sizeof_dirent → l !! Z.to_nat x = Some (make_dirent name inum x)).
  { intros x Hx. unfold l. rewrite list_lookup_fmap, lookup_seqZ_lt by lia. cbn. do 2 f_equal. lia. }
  destruct Dr as [T Rs Wh Mp]. change sizeof_dirent with 16 in *.
  assert (Hoff : 0 ≤ off ≤ i_size r ∧ off `mod` 16 = 0).
  { destruct (slot_cases (view w) r) as [[Hs _]|[Hs _]]; [lia|done|..].
    - apply dir_offs_spec in Hs; [|lia|done]. change sizeof_dirent with 16 in Hs. fold off in Hs. lia.
    - fold off in Hs. rewrite Hs. lia. }
  destruct (writei_run false w p L H dp 0 (make_dirent name inum) off e l ops) as (w' & L' & V1 & E & B & G & I & O & V & N & _);
    rewrite ?Hll; try done; [fold r; lia| |lia|lia|].
  { split_and!; [done|lia|]. intros i x Hx. pose proof (lookup_lt_Some _ _ _ Hx). rewrite <-(Nat2Z.id i), Hls in Hx by lia.
    injection Hx as <-. f_equal. }
  fold r in I, V, O. rewrite Hll in E, I, V, N. destruct (grown_fields r off 16) as (F1 & F2 & F3 & F4).
  pose proof (elsewhere_over _ _ _ _ _ _ _ O El) as Hel1.
  assert (Hby : ∀ x, 0 ≤ x < e → file_byte (view w') (grown r off 16) x = if decide (off ≤ x < off + 16) then make_dirent name inum (x - off) else file_byte (view w) r x).
  { intros x Hx. rewrite V, (file_byte_addrs _ r (grown r off 16)) by done. rewrite (elsewhere_byte V1 _ _ r e) by done.
    destruct O as (O & _). rewrite O, Hll by done. case_decide; [|done]. by rewrite Hls by lia. }
  destruct (grown_dirent _ _ _ _ _ _ _ Hby) as [D1 D2]; change sizeof_dirent with 16; [apply Hoff|lia|lia|].
  exists w', L', (grown r off 16). split_and!; try done; [| |lia].
  - pose proof (mp_size _ _ _ _ (wf_mapped _ _ _ _ Wf)) as HM. change (MAXFILE * BSIZE) with 274432 in HM.
    split; rewrite ?F4; change sizeof_dirent with 16; [unfold grown; by case_match|lia| |].
    + destruct (Z.max_spec (i_size r) (off + 16)) as [[_ ->]|[_ ->]]; [|done]. rewrite <-Z.add_mod_idemp_l, (proj2 Hoff) by lia. done.
    + rewrite V. eapply mapped_addrs; [exact F1|exact F3|]. apply (mapped_less _ _ _ e); [|lia].
      apply elsewhere_mapped; [done|]. eapply overwritten_mapped; [done|]. apply (wf_mapped _ _ _ _ Wf).
  - split_and!; [done|done|]. intros off' Ho Hne. apply dir_offs_spec in Ho; [|lia|done]. change sizeof_dirent with 16 in Ho. apply D2; change sizeof_dirent with 16; lia || tauto.
Qed.

Lemma dirlink_run w p L H dp e name inum ops :
  let r := w_inodes w dp in
  blocks w p L H → logging w L ops → 1 ≤ ops → writable_dir w H r e → dir_find (names name) (view w) r = None →
  Z.of_nat (length L) + 3 < LOGSIZE → Z.of_nat (length L) + Z.of_nat (length H) + 4 < NBUF →
  ∃ w' L' r', runs (dirlink dp name inum) w 0 w' ∧ blocks w' p L' H ∧ logging w' L' ops ∧
    w_inodes w' = <[dp := r']> (w_inodes w) ∧ directory w' H r' ∧ linked (view w) (view w') r r' (new_dirent name inum).
Proof.
  intros r Hb Hl Hops Hw Hn Hlen Hbuf. pose proof (wd_dir _ _ _ _ Hw) as Hd.
  destruct (dirlookup_run w p L H dp name Hb Hd ltac:(lia)) as (v & Sv & Ev). fold r in Ev. rewrite Hn in Ev.
  assert (Ei : w_inodes v = w_inodes w) by exact (fstep_inodes _ _ (sm_step _ _ _ _ _ Sv)).
  assert (Er : w_inodes v dp = r) by by rewrite Ei. pose proof (sm_view _ _ _ _ _ Sv) as EV.
  destruct (find_dirent v p L H dp (λ de, de_inum de =? 0) id (λ off,
        x <- readi dp false 0 zeroes off sizeof_dirent ;;
        if negb (x.1 =? sizeof_dirent) then panic "dirlink read" else
        if de_inum x.2 =? 0 then ret (Some off) else ret None)) as (u & Eu & Su); rewrite ?Er.
  { apply (sm_blocks _ _ _ _ _ Sv). } { by eapply same_directory. } { lia. }
  { intros off x x' Ex Ho E. eapply runs_bind; [exact E|]. cbn [fst snd]. change (negb _) with false. cbn iota. destruct (_ =? 0); apply runs_ret. }
  rewrite Er, EV, option_fmap_id in Eu. assert (Suw : same_blocks w u p L H) by by eapply same_blocks_trans.
  assert (Eiu : w_inodes u = w_inodes w) by exact (fstep_inodes _ _ (sm_step _ _ _ _ _ Suw)). pose proof (sm_view _ _ _ _ _ Suw) as EVu.
  destruct (write_dirent u p L H dp e name inum ops) as (w' & L' & r' & E & B & G & I & Dr & Li & _); rewrite ?Eiu; try done.
  { apply (sm_blocks _ _ _ _ _ Suw). } { apply (logging_same w); [apply Suw|done]. } { by eapply same_writable. }
  rewrite Eiu, EVu in Li. rewrite Eiu, EVu in E. fold r in Li, E. exists w', L', r'. split_and!; try done; [|by rewrite I, Eiu].
  unfold dirlink. eapply runs_bind; [exact Ev|]. cbn [fst]. cbn iota. unfold get_inode. rstep. rewrite Er.
  eapply runs_bind; [exact Eu|]. cbv zeta. eapply (runs_bind _ _ _ sizeof_dirent); [|apply runs_ret].
  replace (match _ with Some off => off | None => _ end) with (slot_of (view w) r); [exact E|].
  unfold slot_of. destruct (dir_find (λ de, de_inum de =? 0) (view w) r); [done|]. cbn. destruct Hd as [_ Hs Hm _]. change sizeof_dirent with 16 in *.
  pose proof (Z.div_mod (i_size r) 16 ltac:(lia)). rewrite <-(Z.div_unique (i_size r + 16 - 1) 16 (i_size r / 16) 15); lia.
Qed.
End Link.

(** ** A directory as a map from names to inode numbers *)

Definition dir_get (V : Z → bytes) (r : inode) (name : bytes) : option Z :=
  (λ off, de_inum (dirent_at V r off)) <$> dir_find (names name) V r.

Lemma same_name_cong s t u : same_name s t = true → same_name u s = same_name u t.
Proof. unfold same_name. intros E%bool_decide_eq_true. by rewrite E. Qed.

Lemma same_name_sym s t : same_name s t = same_name t s.
Proof. unfold same_name. apply bool_decide_ext. split; congruence. Qed.

Lemma names_cong s t : same_name s t = true → names s = names t.
Proof.
  intros E. extensionality de. unfold names. f_equal. rewrite (same_name_sym s), (same_name_sym t). by apply same_name_cong.
Qed.

Lemma linked_get V V' r r' name inum q :
  0 ≤ i_size r → i_size r `mod` sizeof_dirent = 0 → 0 < inum < 2 ^ 16 → linked V V' r r' (new_dirent name inum) → dir_get V r name = None →
  dir_get V' r' q = if same_name name q then Some inum else dir_get V r q.
Proof.
  intros H0 Hm Hi Hl Hn. assert (Hnd : names q (new_dirent name inum) = same_name name q).
  { unfold names. rewrite new_dirent_inum, (proj2 (Z.eqb_neq inum 0)) by lia. cbn.
    rewrite <-(same_name_cong name), (same_name_sym q); [done|]. apply new_dirent_name. }
  unfold dir_get in *. destruct (linked_find _ _ _ _ _ q H0 Hm Hl) as [Hy Hno]. destruct (same_name name q) eqn:Es.
  - rewrite Hy; [|done|].
    + cbn. destruct Hl as (_ & -> & _). by rewrite new_dirent_inum by lia.
    + rewrite <-(names_cong name q) by done. by destruct (dir_find (names name) V r).
  - rewrite Hno by done. pose proof (dir_find_spec (names q) V r) as Hs. destruct (dir_find (names q) V r) as [off|]; [|done].
    destruct Hs as [Ho He]. destruct Hl as (_ & _ & Hl). cbn. rewrite Hl; [done..|]. intros ->.
    destruct (slot_cases V r H0 Hm) as [[_ Hf]|[_ ?]]; [|done]. unfold names in He. by rewrite Hf in He.
Qed.

Module Directories.
Section Props.
Context {D : DiskOps} {HD : Disk D} {LY : Layout} {LK : LayoutOk LY}.

(** dirlookup looks a name up: when the directory has the name, it returns an
    in-memory inode with the number of the first entry in use that has it and one
    more reference, and the offset of this entry; when no entry has the name it
    returns none.  The file system does not change, and with no entry left in the
    inode cache it panics. *)
Theorem dirlookup_finds w p (L H : list Z) dp name :
  let r := w_inodes w dp in let f := w_inodes w in
  blocks w p L H → directory w H r → icache_ok f → Z.of_nat (length L) + Z.of_nat (length H) + 1 < NBUF →
  match dir_get (view w) r name with
  | None => ∃ w', runs (dirlookup dp name) w (None, 0) w' ∧ same_blocks w w' p L H
  | Some n =>
      (icache_room f (i_dev r) n →
        ∃ ip off w', runs (dirlookup dp name) w (Some ip, off) w' ∧ dir_find (names name) (view w) r = Some off ∧
          entry_for (i_dev r) n (w_inodes w' ip) = true ∧ icache_ok (w_inodes w') ∧
          counts f (w_inodes w') (i_dev r) n (irefs f (i_dev r) n + 1) ∧ view w' = view w) ∧
      (¬ icache_room f (i_dev r) n → panics (dirlookup dp name) w "iget: no inodes")
  end.
Proof.
  intros r f Hb Hd Hok Hr. destruct (dirlookup_run w p L H dp name Hb Hd Hr) as (v & S & E). fold r in E. unfold dir_get.
  assert (Ei : w_inodes v = f) by exact (fstep_inodes _ _ (sm_step _ _ _ _ _ S)).
  destruct (dir_find (names name) (view w) r) as [off|]; cbn; [|by exists v]. destruct E as [E1 E2].
  pose proof (iget_spec v p (i_dev r) (de_inum (dirent_at (view w) r off)) (same_quiet _ _ _ _ _ S)) as G.
  cbv zeta in G. rewrite Ei in G. destruct (G Hok) as [(Z0 & Hfull & Hp)|(Hroom & ip & w' & Hg & Hip & He & Hok' & Hc & (g & Hw) & _)].
  - split; [|by intros _; apply E2]. intros [?|(i & Hi & Hz)]; [lia|]. specialize (Hfull i Hi). lia.
  - split; [|by intros []]. intros _. exists ip, off, w'. split_and!; try done; [by apply E1|].
    rewrite Hw. exact (sm_view _ _ _ _ _ S).
Qed.

End Props.

(** A directory in block 50 with an entry for inode 1, named ".", and a free one. *)
Definition sample_dir : inode := mkInode ROOTDEV 1 1 true T_DIR 0 0 1 32 (<[0 := 50]> zeroes).
Definition sample_entries : bytes := λ x, if x =? 0 then 1 else if x =? 2 then 46 else 0.
Definition dot : bytes := λ x, if x =? 0 then 46 else 0.

Lemma sample_directory w : l_start (w_log w) = 2 → view w = <[50 := sample_entries]> (λ _, zeroes) → w_sb w = sample_sb →
  writable_dir w [] sample_dir BSIZE.
Proof.
  intros El Ev Es. assert (Hd : mapped (view w) [] sample_dir BSIZE) by (eapply mapped_addrs; [| |apply FileData.sample_mapped]; done).
  split; rewrite ?Es; try done; [| | | |set_solver|].
  - split; try done. by apply (mapped_less _ _ _ BSIZE).
  - destruct (FileData.sample_writable w El) as [_ W2 W3 W4]. by split.
  - rewrite Ev. vm_compute. done.
  - change (IBLOCK _ _) with 32. split; [lia|]. rewrite El. unfold outside, LOGSIZE, MAXOPBLOCKS. lia.
  - exact (FileData.sample_elsewhere (view w)).
Qed.

Lemma dirlookup_finds_witness :
  ∃ w ip off w', runs (D := prompt_disk) (dirlookup (H := prompt_disk) (H0 := sample_layout) 0 dot) w (Some ip, off) w' ∧
    i_inum (w_inodes w' ip) = 1.
Proof.
  destruct (sample_fs (<[50 := sample_entries]> (λ _, zeroes)) (one_entry sample_dir)) as (w & Hb & Hl & Hv & Hs & Hi & El & _).
  pose proof (wd_dir _ _ _ _ (sample_directory w El Hv Hs)) as Hd.
  pose proof (dirlookup_finds (D := prompt_disk) (LY := sample_layout) w 1 [] [] 0 dot Hb) as Hf.
  cbv zeta in Hf. rewrite Hi, Hv in Hf. specialize (Hf Hd (one_entry_ok sample_dir ltac:(done)) ltac:(done)).
  change (dir_get _ _ _) with (Some 1) in Hf. destruct Hf as [Hf _].
  destruct Hf as (ip & off & w' & E & _ & He & _); [by left|]. apply entry_spec in He as (_ & _ & En). by exists w, ip, off, w'.
Defined.

End Directories.
