(* ===== verification/FsPath.v ===== *)
(** * Path names

    namex follows a path from the root or from the current directory: it locks one
    inode after the other, looks the next name up in it and gives back the
    reference to it.  The tree it walks is that of the inodes on disk. *)

From S2P Require Import Prelude Types StringC Spinlock Kalloc Vm VmCopy Sched Sleeplock Run Bio Cache BioProps Log Recover LogOps Tx Fs FsPure Icache FsBlocks FsFile FsWrite FsProps FsDir.

(** ** The tree on disk *)

Definition disk_inode (V : Z → bytes) (sb : superblock) (i : Z) : inode :=
  load_dinode (V (IBLOCK i sb)) (i `mod` IPB * sizeof_dinode) (mkInode ROOTDEV i 0 false 0 0 0 0 0 zeroes).

(** Where a path leads from inode [i]; with [parent], to the directory of its last
    element. *)
Fixpoint resolve (V : Z → bytes) (sb : superblock) (parent : bool) (i : Z) (es : list (list Z)) : option Z :=
  match es with
  | [] => if parent then None else Some i
  | e :: es' =>
      let r := disk_inode V sb i in
      if negb (i_type r =? T_DIR) then None
      else if parent && (match es' with [] => true | _ => false end) then Some i
      else match dir_get V r (of_list e) with
           | Some j => resolve V sb parent j es'
           | None => None
           end
  end.

Lemma same_dinode_block V a b bn : same_dinode a b → 0 ≤ bn → block_of V a bn = block_of V b bn.
Proof.
  intros (_ & _ & _ & _ & _ & E) Hb. unfold block_of. destruct (Z.ltb_spec bn NDIRECT); [apply E; unfold NDIRECT in *; lia|].
  by rewrite (E NDIRECT) by (unfold NDIRECT; lia).
Qed.

Lemma same_dinode_byte V a b o : same_dinode a b → 0 ≤ o → file_byte V a o = file_byte V b o.
Proof. intros E Ho. unfold file_byte. rewrite (same_dinode_block _ _ _ _ E); [done|]. by apply Z.div_pos. Qed.

Lemma same_dinode_get V a b name : same_dinode a b → dir_get V a name = dir_get V b name.
Proof.
  intros E. assert (Hd : ∀ off, off ∈ dir_offs (i_size b) → dirent_at V a off = dirent_at V b off).
  { intros off (k & -> & Hk%elem_of_seqZ)%list_elem_of_fmap. extensionality x. unfold dirent_at. case_decide; [|done].
    apply same_dinode_byte; [done|]. cbn. change sizeof_dirent with 16 in *. lia. }
  pose proof E as (_ & _ & _ & _ & Es & _). unfold dir_get, dir_find. rewrite Es.
  rewrite (find_ext_in _ (λ off, names name (dirent_at V b off))) by (intros off Ho; by rewrite Hd).
  destruct (List.find _ _) as [off|] eqn:Ef; [|done]. cbn. f_equal. rewrite Hd; [done|].
  apply List.find_some in Ef as [Ho _]. by apply list_elem_of_In.
Qed.

Lemma name_is_get V r name e : name_is name e → dir_get V r name = dir_get V r (of_list e).
Proof.
  intros [H1 H2]. unfold dir_get. rewrite (names_cong name (of_list e)); [done|]. unfold same_name. apply bool_decide_eq_true.
  assert (G : ∀ k n, Z.of_nat k + Z.of_nat n ≤ DIRSIZ → (k ≤ length e)%nat → cstr n name (Z.of_nat k) = cstr n (of_list e) (Z.of_nat k)); [|apply (G O); [done|lia]].
  intros k n. revert k. induction n as [|n IH]; intros k Hn Hk; [done|]. cbn [cstr]. destruct (decide (k < length e)%nat) as [Hlt|Hge].
  - destruct (lookup_lt_is_Some_2 e k Hlt) as [x Hx]. rewrite (H1 k x Hx) by lia. rewrite (of_list_lookup e k x Hx). case_match; [|done].
    f_equal. replace (Z.of_nat k + 1) with (Z.of_nat (S k)) by lia. apply IH; lia.
  - replace k with (length e) by lia. rewrite H2 by lia. unfold of_list. rewrite (proj2 (Z.ltb_ge _ _)), Nat2Z.id, nth_overflow by lia. done.
Qed.

(** ** The machine between the steps of namex *)

(** What they change of the world. *)
Definition istep (w w' : world) : Prop := ∃ f s g, w' = set_inodes g (set_slk s (set_bufs f w)).

#[export] Instance istep_po : PreOrder istep.
Proof.
  split.
  - intros w. by exists (w_bufs w), (w_slk w), (w_inodes w).
  - intros w1 w2 w3 (f1 & s1 & g1 & ->) (f2 & s2 & g2 & ->). by exists f2, s2, g2.
Qed.

Lemma istep_slk w s : istep w (set_slk s w).
Proof. by exists (w_bufs w), s, (w_inodes w). Qed.
Lemma istep_inodes w g : istep w (set_inodes g w).
Proof. by exists (w_bufs w), (w_slk w), g. Qed.

Section Path.
Context {D : DiskOps} {HD : Disk D} {LY : Layout} {LK : LayoutOk LY}.
Context (p : Z) (L H : list Z).

(** Inodes that are in use, with directories whose entries are such inodes. *)
Record live_tree (w : world) (S : Z → Prop) : Prop := {
  lt_block i : S i → is_block (IBLOCK i (w_sb w)) ∧ IBLOCK i (w_sb w) ∉ H;
  lt_used i : S i → i_type (disk_inode (view w) (w_sb w) i) ≠ 0 ∧ i_nlink (disk_inode (view w) (w_sb w) i) ≠ 0;
  lt_dir i : S i → i_type (disk_inode (view w) (w_sb w) i) = T_DIR → directory w H (disk_inode (view w) (w_sb w) i);
  lt_closed i name j : S i → i_type (disk_inode (view w) (w_sb w) i) = T_DIR → dir_get (view w) (disk_inode (view w) (w_sb w) i) name = Some j → S j
}.

(** The inode cache agrees with the disk, and of the inodes only [lk] is locked, by
    this process. *)
Record calm (w : world) (lk : option Z) : Prop := {
  cm_blocks : blocks w p L H;
  cm_room : Z.of_nat (length L) + Z.of_nat (length H) + 1 < NBUF;
  cm_icache : icache_ok (w_inodes w);
  cm_coherent ip : 0 ≤ ip < NINODE → 0 < i_ref (w_inodes w ip) → i_valid (w_inodes w ip) = true → i_dev (w_inodes w ip) = ROOTDEV →
    same_dinode (w_inodes w ip) (disk_inode (view w) (w_sb w) (i_inum (w_inodes w ip)));
  cm_locks ip : 0 ≤ ip < NINODE →
    if decide (lk = Some ip) then sl_locked (w_slk w (SInode ip)) = true ∧ sl_pid (w_slk w (SInode ip)) = p_pid (w_procs w p)
    else sl_locked (w_slk w (SInode ip)) = false
}.

(** A reference to inode [i]. *)
Definition ref_to (f : Z → inode) (ip i : Z) : Prop := 0 ≤ ip < NINODE ∧ 0 < i_ref (f ip) ∧ i_dev (f ip) = ROOTDEV ∧ i_inum (f ip) = i.

(** The same file system. *)
Definition same_fs (w w' : world) : Prop := istep w w' ∧ view w' = view w.

#[export] Instance same_fs_po : PreOrder same_fs.
Proof. split; [by intros w|]. intros w1 w2 w3 [S1 V1] [S2 V2]. split; [by rewrite S1|by rewrite V2]. Qed.

Lemma same_fs_sb w w' : same_fs w w' → w_sb w' = w_sb w.
Proof. by intros [(f & s & g & ->) _]. Qed.
Lemma same_fs_procs w w' : same_fs w w' → w_procs w' = w_procs w.
Proof. by intros [(f & s & g & ->) _]. Qed.

Lemma live_same w w' S : same_fs w w' → live_tree w S → live_tree w' S.
Proof.
  intros HS [T1 T2 T3 T4]. pose proof (same_fs_sb _ _ HS) as Es. destruct HS as [_ Ev]. split; rewrite ?Ev, ?Es; try done.
  intros i Hi Ht. destruct (T3 i Hi Ht) as [R1 R2 R3 R4]. split; try done. by rewrite Ev.
Qed.

Lemma blocks_slk w s : (∀ c, s (SBuf c) = w_slk w (SBuf c)) → blocks w p L H → blocks (set_slk s w) p L H.
Proof. intros Hs [Ha Hb Hr]. split; [exact Ha|by apply (bstore_frame w)|done]. Qed.

Lemma calm_quiet w lk : calm w lk → quiet w p.
Proof. intros C. eapply blocks_quiet, cm_blocks, C. Qed.

(** The lock of an inode changes. *)
Lemma calm_slk w lk lk' ip sl :
  calm w lk → 0 ≤ ip < NINODE → (∀ jp, jp ≠ ip → lk = Some jp ↔ lk' = Some jp) →
  (if decide (lk' = Some ip) then sl_locked sl = true ∧ sl_pid sl = p_pid (w_procs w p) else sl_locked sl = false) →
  calm (set_slk (<[SInode ip := sl]> (w_slk w)) w) lk' ∧ same_fs w (set_slk (<[SInode ip := sl]> (w_slk w)) w).
Proof.
  intros [C1 C2 C3 C4 C5] Hip Hlk Hsl. split; [split|split; [apply istep_slk|done]]; try done.
  - by apply blocks_slk.
  - intros jp Hj. cbn. destruct (decide (ip = jp)) as [->|Hne]; [by rewrite fn_lookup_insert|]. rewrite fn_lookup_insert_ne by congruence.
    specialize (C5 jp Hj). destruct (decide (lk = Some jp)) as [E|E]; [rewrite decide_True by (by apply Hlk)|rewrite decide_False by (by rewrite <-Hlk)]; done.
Qed.

(** An entry of the cache changes. *)
Lemma calm_inode w lk ip r :
  calm w lk → fits_at (w_inodes w) ip r → (0 < i_ref r → i_valid r = true → i_dev r = ROOTDEV → same_dinode r (disk_inode (view w) (w_sb w) (i_inum r))) →
  calm (set_inodes (<[ip := r]> (w_inodes w)) w) lk ∧ same_fs w (set_inodes (<[ip := r]> (w_inodes w)) w).
Proof.
  intros [C1 C2 C3 C4 C5] Hf Hr. split; [split|split; [apply istep_inodes|done]]; try done; cbn [w_inodes set_inodes].
  - by apply blocks_inodes.
  - by apply fits_ok.
  - intros jp Hj. rewrite fn_lookup_insert_if. case_decide; [done|by apply C4].
Qed.

(** Blocks were read. *)
Lemma calm_blocks w w' lk : calm w lk → same_blocks w w' p L H → calm w' lk ∧ same_fs w w' ∧ w_inodes w' = w_inodes w.
Proof.
  intros [C1 C2 C3 C4 C5] [Sf Sb Sl Sv _]. destruct Sf as (f & s & lg & -> & Hs & _). cbn in Sl. subst lg.
  assert (HS : same_fs w (set_log (w_log w) (set_slk s (set_bufs f w)))) by (split; [by exists f, s, (w_inodes w)|done]).
  split; [split|done]; try done.
  - intros ip Hi Hr Hv Hd. rewrite Sv. by apply C4.
  - intros ip Hi. cbn. rewrite Hs. by apply C5.
Qed.

(** ilock: the lock, and the inode read from disk if it was not. *)
Definition loaded (V : Z → bytes) (sb : superblock) (r : inode) : inode :=
  if i_valid r then r else set_i_valid true (load_dinode (V (IBLOCK (i_inum r) sb)) (i_inum r `mod` IPB * sizeof_dinode) r).

Lemma loaded_fields V sb r : i_dev (loaded V sb r) = i_dev r ∧ i_inum (loaded V sb r) = i_inum r ∧ i_ref (loaded V sb r) = i_ref r ∧ i_valid (loaded V sb r) = true.
Proof. unfold loaded. by destruct (i_valid r) eqn:E. Qed.

Lemma load_same V sb r : same_dinode (set_i_valid true (load_dinode (V (IBLOCK (i_inum r) sb)) (i_inum r `mod` IPB * sizeof_dinode) r)) (disk_inode V sb (i_inum r)).
Proof. split_and!; try done. intros i Hi. cbn. by rewrite (proj2 (andb_true_iff (0 <=? i) (i <=? NDIRECT))) by lia. Qed.

Lemma set_inodes_id w : set_inodes (w_inodes w) w = w.
Proof. by destruct w. Qed.

Lemma load_run w ip :
  let r := w_inodes w ip in let r' := loaded (view w) (w_sb w) r in
  calm w (Some ip) → ref_to (w_inodes w) ip (i_inum r) → is_block (IBLOCK (i_inum r) (w_sb w)) → IBLOCK (i_inum r) (w_sb w) ∉ H →
  i_type (disk_inode (view w) (w_sb w) (i_inum r)) ≠ 0 → i_valid r = false →
  ∃ w', same_blocks w w' p L H ∧ runs (
    sb <- get_sb ;; bp <- bread (i_dev r) (IBLOCK (i_inum r) sb) ;; bf <- get_buf bp ;;
    upd_inode ip (load_dinode (b_data bf) (i_inum r `mod` IPB * sizeof_dinode)) ;; brelse bp ;;
    upd_inode ip (set_i_valid true) ;; r <- get_inode ip ;; when (i_type r =? 0) (panic "ilock: no type")) w tt
    (set_inodes (<[ip := r']> (w_inodes w')) w').
Proof.
  intros r r' C (Hip & Hr & Hd & _) Hb Hn Ht Hv. fold r in Hr, Hd.
  destruct (tx_bread w p L H _ (cm_blocks _ _ C) Hb Hn (cm_room _ _ C)) as (b & w1 & E1 & S1 & B1 & H1 & D1 & V1 & C1 & G1 & K1).
  set (g := alter (load_dinode (view w (IBLOCK (i_inum r) (w_sb w))) (i_inum r `mod` IPB * sizeof_dinode)) ip (w_inodes w1)).
  destruct (tx_brelse (set_inodes g w1) p L H b (IBLOCK (i_inum r) (w_sb w))) as (w2 & E2 & S2 & B2 & V2 & G2 & K2).
  { by apply blocks_inodes. } { by destruct H1. } { by destruct C1; [left|right]. }
  assert (Sw : same_blocks w (set_inodes (w_inodes w) w2) p L H).
  { split.
    - destruct S1 as (f1 & s1 & g1 & -> & Q1 & Q1'). destruct S2 as (f2 & s2 & g2 & -> & Q2 & Q2'). exists f2, s2, g2. split_and!; [done| |by rewrite Q2']. intros jp. rewrite Q2. apply Q1.
    - by apply blocks_inodes.
    - change (w_log w2 = w_log w). by rewrite G2.
    - change (view w2 = view w). rewrite V2. exact V1.
    - intros b' m Hm Hin. apply (held_frame w2); try done. apply K2; [by intros ->|]. apply (held_frame w1); try done. by apply K1. }
  exists (set_inodes (w_inodes w) w2). split; [done|]. unfold get_sb, get_buf, upd_inode, get_inode. rsteps. rewrite Hd. eapply runs_bind; [exact E1|]. rsteps. rewrite D1. fold g.
  eapply runs_bind; [exact E2|]. rsteps. rewrite (fstep_inodes _ _ S2). cbn [w_inodes set_inodes].
  assert (Eg : alter (set_i_valid true) ip g = <[ip := r']> (w_inodes w)).
  { unfold g. rewrite (fstep_inodes _ _ S1), !fn_alter_insert, fn_lookup_insert, fn_insert_insert. fold r. unfold r', loaded. by rewrite Hv. }
  rewrite Eg. rewrite fn_lookup_insert. assert (Ht' : i_type r' ≠ 0). { unfold r', loaded. rewrite Hv. exact Ht. }
  rewrite (proj2 (Z.eqb_neq _ _) Ht'). apply runs_ret.
Qed.

Lemma ilock_calm w ip :
  let r := w_inodes w ip in let r' := loaded (view w) (w_sb w) r in
  calm w None → ref_to (w_inodes w) ip (i_inum r) → is_block (IBLOCK (i_inum r) (w_sb w)) → IBLOCK (i_inum r) (w_sb w) ∉ H →
  i_type (disk_inode (view w) (w_sb w) (i_inum r)) ≠ 0 →
  ∃ w', runs (ilock (Some ip)) w tt w' ∧ calm w' (Some ip) ∧ same_fs w w' ∧ w_inodes w' = <[ip := r']> (w_inodes w) ∧
    same_dinode r' (disk_inode (view w) (w_sb w) (i_inum r)).
Proof.
  intros r r' C Href Hb Hn Ht. pose proof Href as (Hip & Hr & Hd & _). fold r in Hr, Hd.
  set (sl := mkSleeplock true (sl_name (w_slk w (SInode ip))) (p_pid (w_procs w p))).
  destruct (calm_slk w None (Some ip) ip sl C Hip ltac:(intros; split; congruence) ltac:(by rewrite decide_True)) as [C1 F1].
  set (w1 := set_slk _ w) in *. pose proof (cm_locks _ _ C ip Hip) as Hlk. rewrite decide_False in Hlk by done.
  pose proof (runs_acquiresleep (SInode ip) p w (calm_quiet _ _ C) Hlk) as Ea. fold sl w1 in Ea.
  assert (Hrun : ∀ v, runs (when (negb (i_valid r)) (
    sb <- get_sb ;; bp <- bread (i_dev r) (IBLOCK (i_inum r) sb) ;; bf <- get_buf bp ;;
    upd_inode ip (load_dinode (b_data bf) (i_inum r `mod` IPB * sizeof_dinode)) ;; brelse bp ;;
    upd_inode ip (set_i_valid true) ;; r <- get_inode ip ;; when (i_type r =? 0) (panic "ilock: no type"))) w1 tt v → runs (ilock (Some ip)) w tt v).
  { intros v Hv. unfold ilock, get_inode. rsteps. fold r. rewrite (proj2 (Z.ltb_ge _ _)) by lia. eapply runs_bind; [exact Ea|]. rsteps. exact Hv. }
  destruct (i_valid r) eqn:Ev.
  - exists w1. split_and!; [apply Hrun; apply runs_ret|done|done| |]; unfold r', loaded; rewrite Ev; [unfold r; by rewrite fn_insert_id|]. by apply (cm_coherent _ _ C).
  - destruct (load_run w1 ip C1 Href Hb Hn Ht Ev) as (w2 & S2 & E2). destruct (calm_blocks _ _ _ C1 S2) as (C2 & F2 & I2).
    change (loaded (view w1) (w_sb w1) (w_inodes w1 ip)) with r' in E2. assert (Hs : same_dinode r' (disk_inode (view w) (w_sb w) (i_inum r))) by (unfold r', loaded; rewrite Ev; apply load_same).
    destruct (loaded_fields (view w) (w_sb w) r) as (Q1 & Q2 & Q3 & Q4). fold r' in Q1, Q2, Q3, Q4.
    destruct (calm_inode w2 (Some ip) ip r' C2) as [C3 F3].
    { rewrite I2. cbn [w_inodes set_slk w1]. split; [done|]. split; [lia|]. rewrite Q1, Q2. split; [|done]. intros j Hj Ej.
      apply (ic_once _ (cm_icache _ _ C) j ip (i_dev r) (i_inum r)); try done. by apply entry_spec. }
    { intros _ _ _. rewrite Q2, (same_fs_sb _ _ F2). destruct F2 as [_ ->]. exact Hs. }
    eexists. split_and!; [apply Hrun; exact E2|exact C3|etransitivity; [exact F1|]; etransitivity; [exact F2|exact F3]| |exact Hs]. cbn [w_inodes set_inodes]. by rewrite I2.
Qed.

Lemma iunlock_calm w ip :
  calm w (Some ip) → 0 ≤ ip < NINODE → 0 < i_ref (w_inodes w ip) →
  ∃ w', runs (iunlock (Some ip)) w tt w' ∧ calm w' None ∧ same_fs w w' ∧ w_inodes w' = w_inodes w.
Proof.
  intros C Hip Hr. pose proof (cm_locks _ _ C ip Hip) as Hlk. rewrite decide_True in Hlk by done. destruct Hlk as [Hl Hp].
  set (sl := mkSleeplock false (sl_name (w_slk w (SInode ip))) 0).
  destruct (calm_slk w (Some ip) None ip sl C Hip ltac:(intros; split; congruence) ltac:(by rewrite decide_False)) as [C1 F1].
  exists (set_slk (<[SInode ip := sl]> (w_slk w)) w). split_and!; try done. unfold iunlock, get_inode.
  eapply runs_bind; [apply (runs_holdingsleep _ p), (calm_quiet _ _ C)|]. rewrite Hl, Hp, Z.eqb_refl. cbn [andb negb]. rsteps.
  rewrite (proj2 (Z.ltb_ge _ _)) by lia. apply (runs_releasesleep _ p), (calm_quiet _ _ C).
Qed.

(** A reference is given back. *)
Lemma iput_calm w ip i S :
  calm w None → live_tree w S → S i → ref_to (w_inodes w) ip i →
  let r := w_inodes w ip in
  ∃ w', runs (iput ip) w tt w' ∧ calm w' None ∧ same_fs w w' ∧ w_inodes w' = <[ip := set_i_ref (i_ref r - 1) r]> (w_inodes w).
Proof.
  intros C T Hi (Hip & Hr & Hd & En) r. fold r in Hr, Hd, En.
  assert (Hl : last_put r = false).
  { unfold last_put. destruct (i_valid r) eqn:Ev; [|by rewrite andb_false_r]. destruct (cm_coherent _ _ C ip Hip Hr Ev Hd) as (_ & _ & _ & E & _).
    fold r in E. rewrite E. rewrite En. destruct (lt_used _ _ T i Hi) as [_ Hn]. rewrite (proj2 (Z.eqb_neq _ _) Hn). by rewrite andb_false_r. }
  destruct (calm_inode w None ip (set_i_ref (i_ref r - 1) r) C) as [C1 F1].
  { apply held_fits; [apply C|done|done|lia]. }
  { intros _ Ev _. cbn in *. by apply (cm_coherent _ _ C). }
  eexists. split_and!; [by apply (iput_run w p), Hl; apply (calm_quiet _ _ C)|exact C1|exact F1|done].
Qed.

Lemma same_dinode_directory w a b : same_dinode a b → i_dev a = ROOTDEV → directory w H b → directory w H a.
Proof.
  intros E Hd [R1 R2 R3 [M1 M2 M3 M4]]. pose proof E as (E1 & _ & _ & _ & E5 & E6). split; rewrite ?E1, ?E5; try done. split; try done.
  - intros bn Hb Hl. rewrite (same_dinode_block _ _ _ _ E) by done. by apply M3.
  - rewrite (E6 NDIRECT) by (unfold NDIRECT; lia). exact M4.
Qed.

Lemma dirlookup_calm w ip i name :
  let d := disk_inode (view w) (w_sb w) i in
  calm w (Some ip) → ref_to (w_inodes w) ip i → same_dinode (w_inodes w ip) d → directory w H d →
  match dir_get (view w) d name with
  | None => ∃ w', runs (dirlookup ip name) w (None, 0) w' ∧ calm w' (Some ip) ∧ same_fs w w' ∧ w_inodes w' = w_inodes w
  | Some n => ∀ jp r, igot ROOTDEV n (w_inodes w) = Some (jp, r) →
      ∃ off w', runs (dirlookup ip name) w (Some jp, off) w' ∧ calm w' (Some ip) ∧ same_fs w w' ∧ w_inodes w' = <[jp := r]> (w_inodes w)
  end.
Proof.
  intros d C (Hip & Hr & Hd & En) Hs Hdir. pose proof (same_dinode_directory w _ _ Hs Hd Hdir) as Hdir'.
  destruct (dirlookup_run w p L H ip name (cm_blocks _ _ C) Hdir' (cm_room _ _ C)) as (v & Sv & E). destruct (calm_blocks _ _ _ C Sv) as (C1 & F1 & I1).
  rewrite <-(same_dinode_get _ _ _ name Hs). unfold dir_get. destruct (dir_find (names name) (view w) (w_inodes w ip)) as [off|]; [|by exists v].
  cbn [fmap option_fmap option_map]. intros jp r Eg. destruct E as [E _]. rewrite Hd in E.
  pose proof (iget_run v p ROOTDEV (de_inum (dirent_at (view w) (w_inodes w ip) off)) (calm_quiet _ _ C1)) as Ei. rewrite I1, Eg in Ei.
  destruct (igot_fits _ _ _ _ _ (cm_icache _ _ C) Eg) as (Hf & G1 & G2 & G3).
  assert (Hc : i_valid r = true → same_dinode r (disk_inode (view v) (w_sb v) (i_inum r))).
  { intros Hv. rewrite (same_fs_sb _ _ F1), (proj2 F1). unfold igot in Eg. destruct (icache_hit _ _ _) as [kp|] eqn:Eh; [|destruct (icache_empty _); [by simplify_eq|done]].
    simplify_eq. destruct (hit_spec _ _ _ _ Eh) as [Hk He]. apply entry_spec in He as (He1 & He2 & He3). cbn in *. by apply (cm_coherent _ _ C). }
  destruct (calm_inode v (Some ip) jp r C1) as [C2 F2]; [by rewrite I1|by intros _ Hv _; apply Hc|]. rewrite I1 in C2, F2.
  exists off, (set_inodes (<[jp := r]> (w_inodes w)) v). split_and!; [by apply E|done|by etransitivity|done].
Qed.
End Path.

(** ** Counting references *)

Definition one (i d k : Z) : Z := if (ROOTDEV =? d) && (i =? k) then 1 else 0.

Lemma irefs_same f ip r d k :
  icache_ok f → 0 ≤ ip < NINODE → 0 < i_ref (f ip) → i_dev r = i_dev (f ip) → i_inum r = i_inum (f ip) → 0 ≤ i_ref r →
  irefs (<[ip := r]> f) d k = irefs f d k + (if (i_dev r =? d) && (i_inum r =? k) then i_ref r - i_ref (f ip) else 0).
Proof.
  intros Hok Hip Hr Ed En Hr'. rewrite fits_irefs; [|done|].
  - destruct (_ && _) eqn:E; [|lia]. apply andb_true_iff in E as [<-%Z.eqb_eq <-%Z.eqb_eq]. rewrite (irefs_hit f _ _ ip); try done. lia.
  - split; [done|]. split; [done|]. split; [|done]. intros j Hj Ej. apply (ic_once _ Hok j ip (i_dev r) (i_inum r)); try done. by apply entry_spec.
Qed.

Lemma irefs_igot f n jp r d k : icache_ok f → igot ROOTDEV n f = Some (jp, r) → irefs (<[jp := r]> f) d k = irefs f d k + one n d k.
Proof.
  intros Hok E. destruct (igot_fits _ _ _ _ _ Hok E) as (Hf & E1 & E2 & E3). rewrite fits_irefs by done. rewrite E1, E2. unfold one.
  destruct (_ && _) eqn:Eb; [|lia]. apply andb_true_iff in Eb as [<-%Z.eqb_eq <-%Z.eqb_eq]. lia.
Qed.

(** There are two entries that can be used: free, or that of [ip], about to be. *)
Definition spare (f : Z → inode) (ip : Z) : Prop :=
  ∃ i j, 0 ≤ i < NINODE ∧ 0 ≤ j < NINODE ∧ i ≠ j ∧ i_ref (f i) = 0 ∧ (i_ref (f j) = 0 ∨ (j = ip ∧ i_ref (f ip) = 1)).

Lemma spare_ext f g ip : (∀ i, i_ref (g i) = i_ref (f i)) → spare f ip → spare g ip.
Proof. intros E (i & j & H). exists i, j. by rewrite !E. Qed.

Lemma spare_igot f ip n : spare f ip → is_Some (igot ROOTDEV n f).
Proof.
  intros (i & j & Hi & _ & _ & Hz & _). unfold igot. destruct (icache_hit _ _ _); [eauto|]. destruct (icache_empty f) eqn:E; [eauto|].
  by destruct (empty_none _ _ E Hi).
Qed.

(** The next inode takes the place of [ip]. *)
Lemma spare_next f ip n jp r g :
  spare f ip → 0 < i_ref (f ip) → 0 ≤ ip < NINODE → igot ROOTDEV n f = Some (jp, r) →
  (∀ k, i_ref (g k) = i_ref ((<[jp := r]> f) k) - (if decide (k = ip) then 1 else 0)) → spare g jp.
Proof.
  intros (i & j & Hi & Hj & Hne & Hz & Hj') Hr Hip E Hg. unfold igot in E.
  assert (Eg : ∀ k, i_ref (g k) = (if decide (jp = k) then i_ref r else i_ref (f k)) - (if decide (k = ip) then 1 else 0)).
  { intros k. rewrite Hg, fn_lookup_insert_if. by case_decide. }
  destruct (icache_hit _ _ _) as [kp|] eqn:Eh.
  - simplify_eq. destruct (hit_spec _ _ _ _ Eh) as [Hk He]. apply entry_spec in He as (He1 & _). exists i, j. rewrite !Eg. cbn. do 3 (split; [done|]). split.
    + repeat case_decide; subst; lia.
    + destruct Hj' as [?|[-> ?]]; [left; repeat case_decide; subst; lia|]. destruct (decide (jp = ip)) as [->|]; [right; split; [done|]|left]; repeat case_decide; subst; try done; lia.
  - destruct (icache_empty f) as [kp|] eqn:Ee; [|done]. simplify_eq. destruct (empty_spec _ _ Ee) as [Hk He].
    destruct (decide (i = jp)) as [->|Hi']; [exists j, jp|exists i, jp]; rewrite !Eg; cbn; do 2 (split; [done|]); (split; [congruence|]); split; [|right; split; [done|]| |right; split; [done|]];
      repeat case_decide; subst; try done; lia.
Qed.

(** ** The walk *)

Section Walk.
Context {D : DiskOps} {HD : Disk D} {LY : Layout} {LK : LayoutOk LY}.
Context (p : Z) (L H : list Z) (T : Z → Prop).

(** [ip] is unlocked and given back. *)
Lemma iunlockput_calm w ip i :
  calm p L H w (Some ip) → live_tree H w T → T i → ref_to (w_inodes w) ip i →
  let r := w_inodes w ip in
  ∃ w', runs (iunlockput ip) w tt w' ∧ calm p L H w' None ∧ same_fs w w' ∧ w_inodes w' = <[ip := set_i_ref (i_ref r - 1) r]> (w_inodes w).
Proof.
  intros C Tr Hi Href r. pose proof Href as (Hip & Hr & _). destruct (iunlock_calm p L H w ip C Hip Hr) as (w1 & E1 & C1 & F1 & I1).
  destruct (iput_calm p L H w1 ip i T C1 (live_same H _ _ _ F1 Tr) Hi ltac:(by rewrite I1)) as (w2 & E2 & C2 & F2 & I2). rewrite I1 in I2.
  exists w2. split_and!; [by eapply runs_bind|done|by etransitivity|done].
Qed.

(** The machine after the walk, which began with a reference to [i]. *)
Definition walked (w : world) (i : Z) (o : option Z) (res : option Z) (w' : world) : Prop :=
  calm p L H w' None ∧ same_fs w w' ∧
  match o with
  | Some j => ∃ jp, res = Some jp ∧ ref_to (w_inodes w') jp j ∧ T j ∧ spare (w_inodes w') jp ∧
      ∀ d k, irefs (w_inodes w') d k = irefs (w_inodes w) d k - one i d k + one j d k
  | None => res = None ∧ ∀ d k, irefs (w_inodes w') d k = irefs (w_inodes w) d k - one i d k
  end.

Lemma irefs_put f ip i r d k :
  icache_ok f → ref_to f ip i → r = f ip → irefs (<[ip := set_i_ref (i_ref r - 1) r]> f) d k = irefs f d k - one i d k.
Proof.
  intros Hok (Hip & Hr & Hd & <-) ->. rewrite irefs_same; cbn; try done; [|lia]. rewrite Hd. unfold one. case_match; lia.
Qed.

(** The inode [ip] is locked and read. *)
Lemma locked_walk w ip i :
  calm p L H w None → live_tree H w T → T i → ref_to (w_inodes w) ip i →
  ∃ w1, runs (ilock (Some ip)) w tt w1 ∧ calm p L H w1 (Some ip) ∧ same_fs w w1 ∧ ref_to (w_inodes w1) ip i ∧
    same_dinode (w_inodes w1 ip) (disk_inode (view w) (w_sb w) i) ∧ (∀ k, i_ref (w_inodes w1 k) = i_ref (w_inodes w k)) ∧
    ∀ d k, irefs (w_inodes w1) d k = irefs (w_inodes w) d k.
Proof.
  intros C Tr Hi (Hip & Hr & Hd & En). destruct (lt_block _ _ _ Tr i Hi) as [Hb Hn]. destruct (lt_used _ _ _ Tr i Hi) as [Ht _].
  destruct (ilock_calm p L H w ip) as (w1 & E1 & C1 & F1 & I1 & Hs); rewrite ?En; try done.
  destruct (loaded_fields (view w) (w_sb w) (w_inodes w ip)) as (Q1 & Q2 & Q3 & Q4). exists w1. rewrite I1. split_and!; try done.
  - split_and!; try apply Hip; rewrite fn_lookup_insert; [lia|by rewrite Q1|by rewrite Q2].
  - rewrite fn_lookup_insert. by rewrite En in Hs.
  - intros k. rewrite fn_lookup_insert_if. by case_decide; subst.
  - intros d k. rewrite irefs_same; [|apply C|try done..]; [|lia]. case_match; lia.
Qed.

Lemma walk_fails w w1 ip i :
  same_fs w w1 → calm p L H w1 (Some ip) → live_tree H w T → T i → ref_to (w_inodes w1) ip i → (∀ d k, irefs (w_inodes w1) d k = irefs (w_inodes w) d k) →
  ∃ w2, runs (iunlockput ip) w1 tt w2 ∧ walked w i None None w2.
Proof.
  intros F1 C1 Tr Hi R1 Hc1. destruct (iunlockput_calm w1 ip i C1 (live_same H _ _ _ F1 Tr) Hi R1) as (w2 & E2 & C2 & F2 & I2).
  exists w2. split; [done|]. split_and!; [done|by etransitivity|done|]. intros d k. rewrite I2, <-Hc1. apply irefs_put; [apply C1|done..].
Qed.

(** Both references, to [ip] and to the next inode. *)
Lemma ref_igot f ip i n jp r : icache_ok f → ref_to f ip i → igot ROOTDEV n f = Some (jp, r) → ref_to (<[jp := r]> f) ip i.
Proof.
  intros Hok (Hip & Hr & Hd & En) E. destruct (igot_fits _ _ _ _ _ Hok E) as ((Hj & _ & _ & Hs) & E1 & E2 & E3). pose proof (igot_ref _ _ _ _ _ E).
  split; [done|]. rewrite fn_lookup_insert_if. destruct (decide (jp = ip)) as [->|]; [|done]. destruct (Hs Hr) as [-> ->]. done.
Qed.

Lemma ref_next f ip i n jp r :
  icache_ok f → ref_to f ip i → igot ROOTDEV n f = Some (jp, r) →
  let f' := <[jp := r]> f in ref_to (<[ip := set_i_ref (i_ref (f' ip) - 1) (f' ip)]> f') jp n.
Proof.
  intros Hok (Hip & Hr & Hd & En) E f'. destruct (igot_fits _ _ _ _ _ Hok E) as ((Hj & _ & _ & Hs) & E1 & E2 & E3). pose proof (igot_ref _ _ _ _ _ E) as Hrr.
  split; [done|]. unfold f'. rewrite !fn_lookup_insert_if. destruct (decide (ip = jp)) as [->|]; [|by rewrite decide_True].
  rewrite decide_True by done. cbn. split_and!; [|done..]. destruct (Hs Hr) as [E4 E5]. rewrite E3, (irefs_hit f _ _ jp); congruence || lia.
Qed.

(** The next name is looked up in [ip], which is locked, and [ip] given back. *)
Lemma walk_next w w1 ip i nm e :
  let d := disk_inode (view w) (w_sb w) i in
  same_fs w w1 → calm p L H w1 (Some ip) → live_tree H w T → T i → ref_to (w_inodes w1) ip i → (∀ d k, irefs (w_inodes w1) d k = irefs (w_inodes w) d k) →
  same_dinode (w_inodes w1 ip) d → i_type d = T_DIR → spare (w_inodes w1) ip → name_is nm e →
  match dir_get (view w) d (of_list e) with
  | None => ∃ w2 w3, runs (dirlookup ip nm) w1 (None, 0) w2 ∧ runs (iunlockput ip) w2 tt w3 ∧ walked w i None None w3
  | Some n => ∃ jp off w2 w3, runs (dirlookup ip nm) w1 (Some jp, off) w2 ∧ runs (iunlockput ip) w2 tt w3 ∧ walked w i (Some n) (Some jp) w3
  end.
Proof.
  intros d F1 C1 Tr Hi R1 Hc1 Hs1 Hty Hsp Hnm. pose proof (live_same H _ _ _ F1 Tr) as Tr1.
  assert (Ed : disk_inode (view w1) (w_sb w1) i = d) by (unfold d; by rewrite (proj2 F1), (same_fs_sb _ _ F1)).
  pose proof (dirlookup_calm p L H w1 ip i nm C1 R1) as Hd. rewrite Ed in Hd. specialize (Hd Hs1). rewrite (proj2 F1) in Hd.
  assert (Hdir : directory w1 H d) by (rewrite <-Ed; apply (lt_dir _ _ _ Tr1 i Hi); by rewrite Ed). specialize (Hd Hdir).
  rewrite (name_is_get _ _ _ _ Hnm) in Hd. destruct (dir_get (view w) d (of_list e)) as [n|] eqn:En.
  - destruct (spare_igot _ _ n Hsp) as [[jp r] Eg]. destruct (Hd jp r Eg) as (off & w2 & E2 & C2 & F2 & I2).
    assert (R2 : ref_to (w_inodes w2) ip i) by (rewrite I2; eapply ref_igot; [apply C1|done..]).
    destruct (iunlockput_calm w2 ip i C2 (live_same H _ _ _ F2 Tr1) Hi R2) as (w3 & E3 & C3 & F3 & I3).
    exists jp, off, w2, w3. split; [done|]. split; [done|]. split; [done|]. split; [by etransitivity; [|etransitivity]|]. exists jp. split; [done|]. split; [|split_and!].
    + rewrite I3, I2. eapply ref_next; [apply C1|done..].
    + by apply (lt_closed _ _ _ Tr i (of_list e) n Hi Hty).
    + eapply spare_next; [exact Hsp|apply R1|apply R1|exact Eg|]. intros k. rewrite I3, I2, fn_lookup_insert_if. case_decide; subst; [rewrite decide_True by done; done|rewrite decide_False by done; lia].
    + intros d' k. rewrite I3, (irefs_put (w_inodes w2) ip i) by (done || apply C2). rewrite I2, (irefs_igot _ _ _ _ _ _ (cm_icache _ _ _ _ _ C1) Eg), Hc1. lia.
  - destruct Hd as (w2 & E2 & C2 & F2 & I2). destruct (walk_fails w w2 ip i ltac:(by etransitivity) C2 Tr Hi ltac:(by rewrite I2) ltac:(by rewrite I2)) as (w3 & E3 & W3). by exists w2, w3.
Qed.

Lemma walked_trans w w1 i n jp o res w2 : walked w i (Some n) (Some jp) w1 → walked w1 n o res w2 → walked w i o res w2.
Proof.
  intros (C1 & F1 & (jp' & E1 & R1 & T1 & S1 & I1)) (C2 & F2 & H2). split_and!; [done|by etransitivity|]. destruct o as [j|].
  - destruct H2 as (kp & -> & R2 & T2 & S2 & I2). exists kp. split_and!; try done; try apply R2. intros d k. rewrite I2, I1. lia.
  - destruct H2 as [-> I2]. split; [done|]. intros d k. rewrite I2, I1. lia.
Qed.

Lemma namex_loop_run fuel w ip i path parent name :
  calm p L H w None → live_tree H w T → T i → ref_to (w_inodes w) ip i → spare (w_inodes w) ip → (length path < fuel)%nat →
  ∃ res name' w', runs (namex_loop fuel ip path parent name) w (res, name') w' ∧
    walked w i (resolve (view w) (w_sb w) parent i (elems path)) res w' ∧
    (parent = true → res ≠ None → ∃ e, last (elems path) = Some e ∧ name_is name' e).
Proof.
  revert w ip i path name. induction fuel as [|fuel IH]; intros w ip i path name C Tr Hi Href Hsp Hf; [lia|]. cbn [namex_loop].
  pose proof (Paths.skipelem_elems path name) as Hsk. destruct (skipelem path name) as [[rest nm]|].
  2:{ rewrite Hsk. cbn [resolve]. destruct parent.
      - destruct (iput_calm p L H w ip i T C Tr Hi Href) as (w1 & E1 & C1 & F1 & I1). exists None, name, w1.
        split; [eapply runs_bind; [exact E1|apply runs_ret]|]. split; [|done]. split_and!; try done. intros d k. rewrite I1. apply irefs_put; [apply C|done..].
      - exists (Some ip), name, w. split; [apply runs_ret|]. split; [|done]. split_and!; try done. exists ip. split_and!; try apply Href; try done. intros d k. lia. }
  destruct Hsk as (e & Ee & _ & Hnm & Hrest & Hlen). rewrite Ee. cbn [resolve].
  destruct (locked_walk w ip i C Tr Hi Href) as (w1 & E1 & C1 & F1 & R1 & Hs1 & Hr1 & Hc1).
  pose proof (walk_next w w1 ip i nm e F1 C1 Tr Hi R1 Hc1 Hs1) as Hnx. set (d := disk_inode (view w) (w_sb w) i) in *. pose proof Hs1 as (Et & _).
  assert (Hm : match rest with [] => true | _ => false end = match elems rest with [] => true | _ => false end).
  { destruct (elems rest) eqn:El; [by rewrite (proj2 Hrest)|]. by destruct rest. }
  destruct (Z.eqb_spec (i_type d) T_DIR) as [Hty|Hty]; cbn [negb].
  2:{ destruct (walk_fails w w1 ip i F1 C1 Tr Hi R1 Hc1) as (w2 & E2 & W2). exists None, nm, w2. split; [|done]. eapply runs_bind; [exact E1|]. unfold get_inode. rstep. rewrite Et.
      rewrite (proj2 (Z.eqb_neq _ _) Hty). eapply runs_bind; [exact E2|apply runs_ret]. }
  assert (Hrun : ∀ A (m m' : K A) res w', runs m' w1 res w' → runs (ilock (Some ip) ;; r <- get_inode ip ;; if negb (i_type r =? T_DIR) then m else m') w res w').
  { intros A m m' res w' Hr. eapply runs_bind; [exact E1|]. unfold get_inode. rstep. rewrite Et, Hty. exact Hr. }
  rewrite <-Hm. destruct (parent && match rest with [] => true | _ => false end) eqn:Ep.
  { apply andb_true_iff in Ep as [-> Hl]. destruct (iunlock_calm p L H w1 ip C1 ltac:(apply R1) ltac:(apply R1)) as (w2 & E2 & C2 & F2 & I2).
    exists (Some ip), nm, w2. split; [apply Hrun; eapply runs_bind; [exact E2|apply runs_ret]|]. split.
    - split_and!; [done|by etransitivity|]. exists ip. rewrite I2. split_and!; try apply R1; try done; [by eapply spare_ext|]. intros d' k. rewrite Hc1. lia.
    - intros _ _. exists e. rewrite Hm in Hl. by destruct (elems rest). }
  specialize (Hnx Hty ltac:(by eapply spare_ext) Hnm). destruct (dir_get (view w) d (of_list e)) as [n|].
  - destruct Hnx as (jp & off & w2 & w3 & E2 & E3 & W3). pose proof W3 as (C3 & F3 & (jp' & [= <-] & R3 & T3 & S3 & I3)).
    destruct (IH w3 jp n rest nm C3 (live_same H _ _ _ F3 Tr) T3 R3 S3 ltac:(lia)) as (res & name' & w4 & E4 & W4 & N4).
    rewrite (same_fs_sb _ _ F3), (proj2 F3) in W4. exists res, name', w4. split_and!; [|by eapply walked_trans|].
    + apply Hrun. eapply runs_bind; [exact E2|]. cbn [fst]. eapply runs_bind; [exact E3|exact E4].
    + intros Hp Hne. destruct (N4 Hp Hne) as (e' & El & He'). exists e'. split; [|done]. rewrite last_cons, El. done.
  - destruct Hnx as (w2 & w3 & E2 & E3 & W3). exists None, nm, w3. split_and!; [|done|done].
    apply Hrun. eapply runs_bind; [exact E2|]. cbn [fst]. eapply runs_bind; [exact E3|apply runs_ret].
Qed.
End Walk.

(** ** Where the walk starts *)

(** Two entries of the cache are free. *)
Definition two_free (f : Z → inode) : Prop := ∃ i j, 0 ≤ i < NINODE ∧ 0 ≤ j < NINODE ∧ i ≠ j ∧ i_ref (f i) = 0 ∧ i_ref (f j) = 0.

Lemma two_free_spare f ip r : two_free f → 0 < i_ref r → (i_ref (f ip) = 0 → i_ref r = 1) → 0 ≤ ip < NINODE → spare (<[ip := r]> f) ip.
Proof.
  intros (i & j & Hi & Hj & Hne & Zi & Zj) Hr H1 Hip. unfold spare. destruct (decide (ip = i)) as [->|Hi'].
  - exists j, i. rewrite fn_lookup_insert_ne, fn_lookup_insert by done. split_and!; try done; try lia; congruence.
  - exists i. destruct (decide (ip = j)) as [->|Hj'].
    + exists j. rewrite fn_lookup_insert_ne, fn_lookup_insert by done. split_and!; try done; lia.
    + exists j. rewrite !fn_lookup_insert_ne by done. split_and!; try done; lia.
Qed.

(** The current directory of [p] is inode [i]. *)
Definition in_cwd (w : world) (p i : Z) : Prop := ∃ c, p_cwd (w_procs w p) = Some c ∧ ref_to (w_inodes w) c i.

(** A path starts at the root, or at the current directory. *)
Definition starts (w : world) (p : Z) (path : list Z) (i : Z) : Prop :=
  match path with c :: _ => if c =? slash then i = ROOTINO else in_cwd w p i | [] => in_cwd w p i end.

Section Start.
Context {D : DiskOps} {HD : Disk D} {LY : Layout} {LK : LayoutOk LY}.
Context (p : Z) (L H : list Z).

Lemma runs_get_cwd {A} w c (k : Z → K A) r w' :
  p_cwd (w_procs w p) = Some c → runs (k c) w r w' → runs (pr <- get_proc p ;; cwd <- deref (p_cwd pr) ;; k cwd) w r w'.
Proof.
  intros Ec Hk env v E. destruct (Hk env v E) as (v' & E' & A'). exists v'. split; [|done].
  assert (Ev : p_cwd (w_procs v p) = Some c).
  { rewrite <-Ec. assert (Hf : ∀ f : Z → proc, p_cwd (erase f p) = p_cwd (f p)) by (intros f; unfold erase; by case_decide).
    rewrite <-(Hf (w_procs v)), <-(Hf (w_procs w)). change (erase (w_procs v)) with (w_procs (norm v)). change (erase (w_procs w)) with (w_procs (norm w)). by destruct E as [-> _]. }
  unfold get_proc. mstep. rewrite Ev. unfold deref. mstep. exact E'.
Qed.

(** namex takes a reference to where it starts. *)
Definition started (w : world) (i ip : Z) (w' : world) : Prop :=
  calm p L H w' None ∧ same_fs w w' ∧ ref_to (w_inodes w') ip i ∧ spare (w_inodes w') ip ∧ ∀ d k, irefs (w_inodes w') d k = irefs (w_inodes w) d k + one i d k.

Lemma start_root w : calm p L H w None → two_free (w_inodes w) → ∃ ip w', runs (iget ROOTDEV ROOTINO) w ip w' ∧ started w ROOTINO ip w'.
Proof.
  intros C Hf. pose proof (iget_run w p ROOTDEV ROOTINO (calm_quiet _ _ _ _ _ C)) as Eg. destruct (igot ROOTDEV ROOTINO (w_inodes w)) as [[ip r]|] eqn:E.
  2:{ exfalso. unfold igot in E. destruct (icache_hit _ _ _); [done|]. destruct (icache_empty (w_inodes w)) eqn:Ee; [done|]. destruct Hf as (i & j & Hi & _ & _ & Zi & _). by destruct (empty_none _ _ Ee Hi). }
  destruct (igot_fits _ _ _ _ _ (cm_icache _ _ _ _ _ C) E) as (Hfit & E1 & E2 & E3). pose proof (igot_ref _ _ _ _ _ E) as Hr. pose proof Hfit as (Hip & _).
  destruct (calm_inode p L H w None ip r C Hfit) as [C1 F1].
  { intros _ Hv _. unfold igot in E. destruct (icache_hit _ _ _) as [kp|] eqn:Eh; [|destruct (icache_empty _); [by simplify_eq|done]].
    simplify_eq. destruct (hit_spec _ _ _ _ Eh) as [Hk He]. apply entry_spec in He as (He1 & He2 & He3). cbn in *. by apply (cm_coherent _ _ _ _ _ C). }
  eexists ip, _. split; [exact Eg|]. split; [done|]. split; [done|]. cbn [w_inodes set_inodes]. split; [|split].
  - split; [done|]. by rewrite fn_lookup_insert.
  - apply two_free_spare; try done. intros Hz. unfold igot in E. destruct (icache_hit _ _ _) as [kp|] eqn:Eh; [|destruct (icache_empty _); [by simplify_eq|done]].
    simplify_eq. destruct (hit_spec _ _ _ _ Eh) as [Hk He]. apply entry_spec in He as (He1 & _). lia.
  - intros d k. apply irefs_igot; [apply C|done].
Qed.

Lemma start_cwd w i : calm p L H w None → two_free (w_inodes w) → in_cwd w p i →
  ∃ ip w', runs (mp <- myproc ;; p <- deref mp ;; pr <- get_proc p ;; cwd <- deref (p_cwd pr) ;; idup cwd) w ip w' ∧ started w i ip w'.
Proof.
  intros C Hf (c & Ec & Hc & Hr & Hd & En). set (r := w_inodes w c) in *. pose proof (calm_quiet _ _ _ _ _ C) as Hq.
  destruct (calm_inode p L H w None c (set_i_ref (i_ref r + 1) r) C) as [C1 F1].
  { apply held_fits; [apply C|done|done|]. fold r. lia. } { intros _ Hv _. by apply (cm_coherent _ _ _ _ _ C). }
  eexists c, _. split.
  - eapply runs_bind; [apply runs_myproc; eauto with xv6|]. rewrite (quiet_cproc _ _ Hq). unfold deref at 1. rstep. eapply runs_get_cwd; [exact Ec|]. by apply (idup_run w p).
  - split; [exact C1|]. split; [exact F1|]. cbn [w_inodes set_inodes]. fold r. split; [|split].
    + split; [done|]. rewrite fn_lookup_insert. cbn. split_and!; [lia|done|done].
    + apply two_free_spare; cbn; try done; [lia|]. fold r. lia.
    + intros d k. rewrite irefs_same; [|apply C|done|done|done|done|cbn; fold r; lia]. cbn. fold r. rewrite Hd, En. unfold one. case_match; lia.
Qed.

Lemma namex_start w path i parent name T :
  calm p L H w None → two_free (w_inodes w) → starts w p path i → live_tree H w T → T i →
  ∃ ip w1, started w i ip w1 ∧ ∀ res w', runs (namex_loop (S (length path)) ip path parent name) w1 res w' → runs (namex path parent name) w res w'.
Proof.
  intros C Hf Hs Tr Hi. unfold namex. destruct path as [|c path]; cbn [starts] in Hs; [|destruct (c =? slash)].
  - destruct (start_cwd w i C Hf Hs) as (ip & w1 & E1 & S1). exists ip, w1. split; [done|]. intros res w' Er. by eapply runs_bind.
  - subst i. destruct (start_root w C Hf) as (ip & w1 & E1 & S1). exists ip, w1. split; [done|]. intros res w' Er. by eapply runs_bind.
  - destruct (start_cwd w i C Hf Hs) as (ip & w1 & E1 & S1). exists ip, w1. split; [done|]. intros res w' Er. by eapply runs_bind.
Qed.
End Start.

Module Lookup.
(** C5: namei and nameiparent follow paths.  The path leads from the root or, without a
    leading slash, from the current directory, through the directories on disk to an
    inode: namex returns a reference to exactly that inode, the only count that
    changes, and by one.  When a name is missing or an inode on the way is no directory, or
    for the parent of an empty path, it returns 0 with every count as it was.  It gives back the locks and
    references it took on the way and leaves the file system as it was; nameiparent also gives the last element
    of the path. *)
Theorem namex_resolves {D : DiskOps} {HD : Disk D} {LY : Layout} {LK : LayoutOk LY} p (L H : list Z) T w path i parent name :
  let f := w_inodes w in
  calm p L H w None → live_tree H w T → starts w p path i → T i → two_free f →
  ∃ res name' w', runs (namex path parent name) w (res, name') w' ∧ calm p L H w' None ∧ same_fs w w' ∧
    match resolve (view w) (w_sb w) parent i (elems path) with
    | Some j => ∃ ip, res = Some ip ∧ ref_to (w_inodes w') ip j ∧ counts f (w_inodes w') ROOTDEV j (irefs f ROOTDEV j + 1) ∧
        (parent = true → ∃ e, last (elems path) = Some e ∧ name_is name' e)
    | None => res = None ∧ ∀ d k, irefs (w_inodes w') d k = irefs f d k
    end.
Proof.
  intros f C Tr Hs Hi Hf. destruct (namex_start p L H w path i parent name T C Hf Hs Tr Hi) as (ip & w1 & (C1 & F1 & R1 & S1 & I1) & Hrun).
  destruct (namex_loop_run p L H T (S (length path)) w1 ip i path parent name) as (res & name' & w' & E & (C2 & F2 & W) & Hn); try done; [by eapply live_same|lia|].
  rewrite (same_fs_sb _ _ F1), (proj2 F1) in W. exists res, name', w'. split; [by apply Hrun|]. split; [done|]. split; [by etransitivity|].
  destruct (resolve _ _ _ _ _) as [j|].
  - destruct W as (jp & -> & R2 & _ & _ & I2). exists jp. split_and!; [done|by apply R2..| |by intros Hp; apply Hn].
    intros d k. rewrite I2, I1. fold f. unfold one. destruct ((ROOTDEV =? d) && (j =? k)) eqn:Ej; [|lia].
    apply andb_true_iff in Ej as [<-%Z.eqb_eq <-%Z.eqb_eq]. lia.
  - destruct W as [-> I2]. split; [done|]. intros d k. rewrite I2, I1. fold f. lia.
Qed.

(** A root directory with the entries "." and "a", the latter a file. *)
Definition tree_dir : inode := mkInode ROOTDEV 1 0 true T_DIR 0 0 1 32 (<[0 := 50]> zeroes).
Definition tree_file : inode := mkInode ROOTDEV 2 0 true T_FILE 0 0 1 0 zeroes.
Definition tree_inodes : bytes := store_dinode tree_file (store_dinode tree_dir zeroes 64) 128.
Definition tree_entries : bytes := λ x, if x =? 0 then 1 else if x =? 2 then 46 else if x =? 16 then 2 else if x =? 18 then 97 else 0.
Definition tree_disk : Z → bytes := <[32 := tree_inodes]> (<[50 := tree_entries]> (λ _, zeroes)).
Definition in_tree (i : Z) : Prop := i = 1 ∨ i = 2.
Definition no_inodes : Z → inode := λ _, mkInode 0 0 0 false 0 0 0 0 0 zeroes.

Lemma tree_root :
  let r := disk_inode tree_disk sample_sb 1 in i_type r = T_DIR ∧ i_nlink r = 1 ∧ i_size r = 32 ∧ i_dev r = ROOTDEV ∧ i_addrs r 0 = 50.
Proof. vm_compute. repeat split. Qed.

Lemma tree_leaf : let r := disk_inode tree_disk sample_sb 2 in i_type r = T_FILE ∧ i_nlink r = 1.
Proof. vm_compute. repeat split. Qed.

Lemma tree_inums : de_inum (dirent_at tree_disk (disk_inode tree_disk sample_sb 1) 0) = 1 ∧ de_inum (dirent_at tree_disk (disk_inode tree_disk sample_sb 1) 16) = 2.
Proof. vm_compute. repeat split. Qed.

Lemma tree_directory w : view w = tree_disk → directory w [] (disk_inode tree_disk sample_sb 1).
Proof.
  intros Ev. destruct tree_root as (E1 & E2 & E3 & E4 & E5). revert E1 E2 E3 E4 E5. generalize (disk_inode tree_disk sample_sb 1). intros r E1 E2 E3 E4 E5.
  split; rewrite ?E3; [exact E1|unfold sizeof_dirent, DIRSIZ; lia|reflexivity|]. split; [exact E4|by vm_compute| |unfold NDIRECT, BSIZE; lia].
  intros bn H0 H1. assert (bn = 0) as -> by (unfold BSIZE in H1; lia). unfold block_of. change (0 <? NDIRECT) with true. rewrite E5.
  split; [done|]. split; [split; lia|apply not_elem_of_nil].
Qed.

Lemma tree_closed name j : dir_get tree_disk (disk_inode tree_disk sample_sb 1) name = Some j → in_tree j.
Proof.
  destruct tree_root as (_ & _ & E3 & _). destruct tree_inums as [I1 I2]. revert E3 I1 I2. generalize (disk_inode tree_disk sample_sb 1). intros r E3 I1 I2.
  unfold dir_get. pose proof (dir_find_spec (names name) tree_disk r) as Hs. destruct (dir_find _ _ _) as [off|]; [|intros [=]].
  intros [= <-]. destruct Hs as [Ho _]. rewrite E3 in Ho. change (dir_offs 32) with [0; 16] in Ho. rewrite !elem_of_cons, elem_of_nil in Ho.
  destruct Ho as [->|[->|[]]]; [left; exact I1|right; exact I2].
Qed.

Lemma tree_live (w : world) : view w = tree_disk → w_sb w = sample_sb → live_tree [] w in_tree.
Proof.
  intros Ev Es. destruct tree_root as (E1 & E2 & _). destruct tree_leaf as (E3 & E4). split; rewrite ?Ev, ?Es.
  - intros i [->| ->]; (split; [split; by vm_compute|apply not_elem_of_nil]).
  - intros i [->| ->]; rewrite ?E1, ?E2, ?E3, ?E4; split; intros [=].
  - intros i [->| ->]; [intros _; by apply tree_directory|]. rewrite E3. intros [=].
  - intros i name j [->| ->]; [intros _; apply tree_closed|]. rewrite E3. intros [=].
Qed.

Lemma namex_resolves_witness :
  ∃ w ip name' w', runs (D := prompt_disk) (namex (H := prompt_disk) (H0 := sample_layout) [47; 97] false zeroes) w (Some ip, name') w' ∧ i_inum (w_inodes w' ip) = 2.
Proof.
  destruct (sample_fs tree_disk no_inodes) as (w & Hb & _ & Hv & Hs & Hi & _ & _ & Hsl & _).
  assert (C : calm (D := prompt_disk) 1 [] [] w None).
  { split; try done; rewrite ?Hi; [split; [by intros i j d n _ _ E|done]|done|]. intros ip _. rewrite decide_False by done. by rewrite Hsl. }
  destruct (namex_resolves (D := prompt_disk) (LY := sample_layout) (LK := sample_layout_ok) 1 [] [] in_tree w [47; 97] 1 false zeroes C (tree_live w Hv Hs) eq_refl ltac:(by left))
    as (res & name' & w' & E & _ & _ & W).
  { exists 0, 1. by rewrite Hi. }
  rewrite Hv, Hs in W. change (resolve _ _ _ _ _) with (Some 2) in W. destruct W as (ip & -> & (_ & _ & _ & En) & _). by exists w, ip, name', w'.
Defined.
End Lookup.
