(* ===== verification/Riscv.v ===== *)
(** * riscv.h: the control registers, and the device registers

    The accessors of the control registers that start.c and trap.c use, and
    loads and stores of memory-mapped device registers.  A device register
    reads as what the device presents there ([w_dev]); the stores are kept in
    order in [w_mmio]. *)

From S2P Require Import Prelude Types StringC Spinlock.

(** ** Machine mode *)

Definition MSTATUS_MPP_MASK : Z := 3 ≪ 11.
Definition MSTATUS_MPP_S : Z := 1 ≪ 11.
Definition MSTATUS_MIE : Z := 1 ≪ 3.
Definition SIE_SEIE : Z := 1 ≪ 9.
Definition SIE_STIE : Z := 1 ≪ 5.
Definition SIE_SSIE : Z := 1 ≪ 1.
Definition MIE_MTIE : Z := 1 ≪ 7.

(** The code runs on one hart, whose number is the index of its registers; the
    tp register, which start() sets from it, need not hold it yet. *)
Section Machine.
Context (hartno : Z).

Definition get_m {A} (f : mhart → A) : K A := gets (λ w, f (w_mharts w hartno)).
Definition upd_m (f : mhart → mhart) : K unit :=
  modify (λ w, set_mharts (alter f hartno (w_mharts w)) w).

Definition r_mhartid : K Z := get_m m_hartid.
Definition r_mstatus : K Z := get_m m_status.
Definition w_mstatus (x : Z) : K unit := upd_m (set_m_status x).
Definition w_mepc (x : Z) : K unit := upd_m (set_m_epc x).
Definition r_sie : K Z := get_m m_sie.
Definition w_sie (x : Z) : K unit := upd_m (set_m_sie x).
Definition r_mie : K Z := get_m m_ie.
Definition w_mie (x : Z) : K unit := upd_m (set_m_ie x).
Definition w_medeleg (x : Z) : K unit := upd_m (set_m_edeleg x).
Definition w_mideleg (x : Z) : K unit := upd_m (set_m_ideleg x).
Definition w_mtvec (x : Z) : K unit := upd_m (set_m_tvec x).
Definition w_pmpcfg0 (x : Z) : K unit := upd_m (set_m_pmpcfg0 x).
Definition w_pmpaddr0 (x : Z) : K unit := upd_m (set_m_pmpaddr0 x).
Definition w_mscratch (x : Z) : K unit := upd_m (set_m_scratch x).
End Machine.

(** ** Supervisor mode *)

Definition get_h {A} (f : hart → A) : K A := gets (λ w, f (my_hart w)).

Definition r_sip : K Z := get_h h_sip.
Definition w_sip (x : Z) : K unit := upd_hart (set_h_sip x).
Definition w_sepc (x : Z) : K unit := upd_hart (set_h_sepc x).
Definition r_sepc : K Z := get_h h_sepc.
Definition w_stvec (x : Z) : K unit := upd_hart (set_h_stvec x).
Definition r_satp : K Z := get_h h_satp.
Definition r_scause : K Z := get_h h_scause.
Definition r_stval : K Z := get_h h_stval.

(** w_tp: the name is that of the field for the register. *)
Definition write_tp (x : Z) : K unit := modify (λ w, set_tp x w).

(** ** Device registers *)

Definition mmio_read (a : Z) : K Z := gets (λ w, w_dev w a).
Definition mmio_write (a v : Z) : K unit := modify (λ w, set_mmio (w_mmio w ++ [(a, v)]) w).

Definition CLINT_MTIMECMP (hartid : Z) : Z := CLINT + 0x4000 + 8 * hartid.
Definition CLINT_MTIME : Z := CLINT + 0xBFF8.

(** ** plic.c *)

Definition plicinit : K unit :=
  mmio_write (PLIC + UART0_IRQ * 4) 1 ;;
  mmio_write (PLIC + VIRTIO0_IRQ * 4) 1.

Definition plicinithart : K unit :=
  hart <- cpuid ;;
  mmio_write (PLIC_SENABLE hart) (Z.lor (1 ≪ UART0_IRQ) (1 ≪ VIRTIO0_IRQ)) ;;
  mmio_write (PLIC_SPRIORITY hart) 0.

Definition plic_claim : K Z :=
  hart <- cpuid ;;
  irq <- mmio_read (PLIC_SCLAIM hart) ;;
  ret (i32 (u32 irq)).

Definition plic_complete (irq : Z) : K unit :=
  hart <- cpuid ;;
  mmio_write (PLIC_SCLAIM hart) (u32 irq).
