(* ===== verification/Uart.v ===== *)
(** * uart.c: the serial port

    The transmit side of the driver and uartgetc; uartintr, which calls
    consoleintr, is in Console.  The 16550's registers behave as the comments of
    uart.c say: LSR has LSR_RX_READY while input is waiting ([w_rx]) and
    LSR_TX_IDLE while THR can accept another character ([w_txspace]); a read of
    RHR takes the oldest input byte and a store to THR sends a byte ([w_thr]),
    except in the mode that sets the baud rate. *)

From S2P Require Import Prelude Types StringC Spinlock Sched Riscv.

Definition RHR : Z := 0.
Definition THR : Z := 0.
Definition IER : Z := 1.
Definition IER_TX_ENABLE : Z := 1 ≪ 0.
Definition IER_RX_ENABLE : Z := 1 ≪ 1.
Definition FCR : Z := 2.
Definition FCR_FIFO_ENABLE : Z := 1 ≪ 0.
Definition FCR_FIFO_CLEAR : Z := 3 ≪ 1.
Definition LCR : Z := 3.
Definition LCR_EIGHT_BITS : Z := 3 ≪ 0.
Definition LCR_BAUD_LATCH : Z := 1 ≪ 7.
Definition LSR : Z := 5.
Definition LSR_RX_READY : Z := 1 ≪ 0.
Definition LSR_TX_IDLE : Z := 1 ≪ 5.

(** The last store to LCR set the baud-rate mode. *)
Definition baud_mode (stores : list (Z * Z)) : bool :=
  match List.find (λ x, x.1 =? UART0 + LCR) (reverse stores) with
  | Some x => nz (Z.land x.2 LCR_BAUD_LATCH)
  | None => false
  end.

Definition lsr (w : world) : Z :=
  Z.lor (match w_rx w with [] => 0 | _ => LSR_RX_READY end)
        (match w_txspace w with O => 0 | _ => LSR_TX_IDLE end).

Definition ReadReg (reg : Z) : K Z :=
  if reg =? LSR then gets lsr
  else if reg =? RHR then
    rx <- gets (λ w, w_rx w) ;;
    match rx with
    | [] => mmio_read (UART0 + reg)
    | c :: rx' => modify (λ w, set_rx rx' w) ;; ret c
    end
  else mmio_read (UART0 + reg).

Definition WriteReg (reg v : Z) : K unit :=
  latch <- gets (λ w, baud_mode (w_mmio w)) ;;
  if (reg =? THR) && negb latch then
    modify (λ w, set_thr (w_thr w ++ [u8 v]) (set_txspace (pred (w_txspace w)) w))
  else mmio_write (UART0 + reg) (u8 v).

Definition get_uart : K uartstate := gets (λ w, w_uart w).
Definition upd_uart (f : uartstate → uartstate) : K unit := modify (λ w, set_uart (f (w_uart w)) w).

Definition uartinit : K unit :=
  WriteReg IER 0x00 ;;
  WriteReg LCR LCR_BAUD_LATCH ;;
  WriteReg 0 0x03 ;;
  WriteReg 1 0x00 ;;
  WriteReg LCR LCR_EIGHT_BITS ;;
  WriteReg FCR (Z.lor FCR_FIFO_ENABLE FCR_FIFO_CLEAR) ;;
  WriteReg IER (Z.lor IER_TX_ENABLE IER_RX_ENABLE) ;;
  initlock LUart "uart".

(** Every round takes a byte out of the buffer, so that UART_TX_BUF_SIZE rounds
    are enough. *)
Definition uartstart : K unit :=
  loop (Z.to_nat UART_TX_BUF_SIZE) (
    u <- get_uart ;;
    if uart_tx_w u =? uart_tx_r u then ret (Some tt) else
    l <- ReadReg LSR ;;
    if Z.land l LSR_TX_IDLE =? 0 then ret (Some tt) else
    let c := uart_tx_buf u (uart_tx_r u) in
    upd_uart (λ u, set_uart_tx_r (Z.rem (uart_tx_r u + 1) UART_TX_BUF_SIZE) u) ;;
    wakeup CUart ;;
    WriteReg THR c ;;
    ret None).

Definition uartputc (c : Z) : K unit :=
  acquire LUart ;;
  panicked <- gets (λ w, w_panicked w) ;;
  if (panicked : bool) then hang else
  loop_wait (
    u <- get_uart ;;
    if Z.rem (uart_tx_w u + 1) UART_TX_BUF_SIZE =? uart_tx_r u then
      sleep CUart LUart ;;
      ret None
    else
      upd_uart (λ u, set_uart_tx_buf (<[uart_tx_w u := u8 c]> (uart_tx_buf u)) u) ;;
      upd_uart (λ u, set_uart_tx_w (Z.rem (uart_tx_w u + 1) UART_TX_BUF_SIZE) u) ;;
      uartstart ;;
      release LUart ;;
      ret (Some tt)).

Definition uartputc_sync (c : Z) : K unit :=
  push_off ;;
  panicked <- gets (λ w, w_panicked w) ;;
  if (panicked : bool) then hang else
  loop_wait (
    l <- ReadReg LSR ;;
    if Z.land l LSR_TX_IDLE =? 0 then wait_event ;; ret None else ret (Some tt)) ;;
  WriteReg THR c ;;
  pop_off.

(** [-1] when no input is waiting. *)
Definition uartgetc : K Z :=
  l <- ReadReg LSR ;;
  if nz (Z.land l 0x01) then ReadReg RHR else ret (-1).
