(* ===== verification/UartProps.v ===== *)
(** * The serial port sends every byte once and in order

    [stream] is what has been sent followed by what is buffered: uartputc appends
    to it, uartstart moves bytes from the buffer to the wire. *)

From S2P Require Import Prelude Types StringC Spinlock Sched Sleeplock Run Sleep Riscv Uart.

(** The buffered bytes, oldest first. *)
Definition ulen (u : uartstate) : Z := (uart_tx_w u - uart_tx_r u) `mod` UART_TX_BUF_SIZE.
Definition uqueue (u : uartstate) : list Z :=
  ring (uart_tx_buf u) UART_TX_BUF_SIZE (uart_tx_r u) (ulen u).

Definition uart_ok (u : uartstate) : Prop :=
  0 ≤ uart_tx_r u < UART_TX_BUF_SIZE ∧ 0 ≤ uart_tx_w u < UART_TX_BUF_SIZE ∧
  (∀ i, u8 (uart_tx_buf u i) = uart_tx_buf u i).

Definition stream (w : world) : list Z := w_thr w ++ uqueue (w_uart w).

(** The port is in use: not panicked, and in the mode in which THR sends. *)
Definition uart_up (w : world) : Prop := w_panicked w = false ∧ baud_mode (w_mmio w) = false.

(** The buffer after the oldest byte has been taken out, and with [c] put in. *)
Definition utake (u : uartstate) : uartstate := set_uart_tx_r (Z.rem (uart_tx_r u + 1) UART_TX_BUF_SIZE) u.
Definition uput (c : Z) (u : uartstate) : uartstate :=
  set_uart_tx_w (Z.rem (uart_tx_w u + 1) UART_TX_BUF_SIZE)
    (set_uart_tx_buf (<[uart_tx_w u := u8 c]> (uart_tx_buf u)) u).

(** A byte on the wire. *)
Definition sent (c : Z) (w : world) : world :=
  set_thr (w_thr w ++ [u8 c]) (set_txspace (pred (w_txspace w)) w).

(** ** The ring *)

Lemma rem_succ x : 0 ≤ x < UART_TX_BUF_SIZE → Z.rem (x + 1) UART_TX_BUF_SIZE = (x + 1) `mod` UART_TX_BUF_SIZE.
Proof. intros H. apply Z.rem_mod_nonneg; unfold UART_TX_BUF_SIZE in *; lia. Qed.

Lemma mod_succ_range x : 0 ≤ (x + 1) `mod` UART_TX_BUF_SIZE < UART_TX_BUF_SIZE.
Proof. by apply Z.mod_pos_bound. Qed.

Lemma ulen_range u : 0 ≤ ulen u < UART_TX_BUF_SIZE.
Proof. by apply Z.mod_pos_bound. Qed.

Lemma ulen_zero u : uart_ok u → ulen u = 0 ↔ uart_tx_w u = uart_tx_r u.
Proof.
  unfold uart_ok, ulen, UART_TX_BUF_SIZE. intros (Hr & Hw & _).
  pose proof (Z.div_mod (uart_tx_w u - uart_tx_r u) 32 ltac:(lia)). pose proof (Z.mod_pos_bound (uart_tx_w u - uart_tx_r u) 32).
  split; [|intros ->; by rewrite Z.sub_diag]. nia.
Qed.

Lemma utake_ok u : uart_ok u → uart_ok (utake u).
Proof. intros (Hr & Hw & Hb). split; [|done]. unfold utake. rsimpl. rewrite rem_succ by done. apply mod_succ_range. Qed.

Lemma uput_ok c u : uart_ok u → uart_ok (uput c u).
Proof. 
  intros (Hr & Hw & Hb). unfold uput, uart_ok. rsimpl. rewrite rem_succ by done.
  split; [done|]. split; [apply mod_succ_range|]. intros i. destruct (decide (uart_tx_w u = i)) as [->|].
  - rewrite fn_lookup_insert. apply Zmod_mod.
  - by rewrite fn_lookup_insert_ne.
Qed.

Lemma ulen_take u : uart_ok u → 0 < ulen u → ulen (utake u) = ulen u - 1.
Proof.
  intros (Hr & Hw & _) Hl. unfold utake, ulen in *. rsimpl. rewrite rem_succ by done.
  rewrite Zminus_mod_idemp_r. unfold UART_TX_BUF_SIZE in *.
  rewrite <-(Z.mod_small ((uart_tx_w u - uart_tx_r u) `mod` 32 - 1) 32).
  - rewrite Zminus_mod_idemp_l. f_equal. lia.
  - pose proof (Z.mod_pos_bound (uart_tx_w u - uart_tx_r u) 32). lia.
Qed.

Lemma ulen_put c u : uart_ok u → ulen u < UART_TX_BUF_SIZE - 1 → ulen (uput c u) = ulen u + 1.
Proof.
  intros (Hr & Hw & _) Hl. unfold uput, ulen in *. rsimpl. rewrite rem_succ by done.
  rewrite Zminus_mod_idemp_l. unfold UART_TX_BUF_SIZE in *.
  rewrite <-(Z.mod_small ((uart_tx_w u - uart_tx_r u) `mod` 32 + 1) 32).
  - rewrite Zplus_mod_idemp_l. f_equal. lia.
  - pose proof (Z.mod_pos_bound (uart_tx_w u - uart_tx_r u) 32). lia.
Qed.

Lemma uqueue_take u :
  uart_ok u → 0 < ulen u → uqueue u = uart_tx_buf u (uart_tx_r u) :: uqueue (utake u).
Proof.
  intros Hok Hl. unfold uqueue. rewrite ring_cons by done. rewrite ulen_take by done.
  rewrite (Z.mod_small (uart_tx_r u)) by apply Hok. f_equal. unfold utake. cbn. apply ring_mod.
  by rewrite rem_succ, Zmod_mod by apply Hok.
Qed.

Lemma uring_end u : uart_ok u → (uart_tx_r u + ulen u) `mod` UART_TX_BUF_SIZE = uart_tx_w u.
Proof.
  intros Hok. unfold ulen. rewrite Zplus_mod_idemp_r.
  replace (uart_tx_r u + (uart_tx_w u - uart_tx_r u)) with (uart_tx_w u) by lia. apply Z.mod_small, Hok.
Qed.

Lemma uqueue_put c u :
  uart_ok u → ulen u < UART_TX_BUF_SIZE - 1 → uqueue (uput c u) = uqueue u ++ [u8 c].
Proof.
  intros Hok Hl. unfold uqueue. rewrite ulen_put by done. unfold uput. cbn. rewrite <-(uring_end u) by done.
  apply ring_push. pose proof (ulen_range u). lia.
Qed.

(** ** The driver *)

Section Driver.
Context `{DiskOps}.

Lemma read_lsr w : runs (ReadReg LSR) w (lsr w) w.
Proof. change (ReadReg LSR) with (gets lsr). apply runs_gets. reflexivity. Qed.

Lemma lsr_idle w : (Z.land (lsr w) LSR_TX_IDLE =? 0) = match w_txspace w with O => true | S _ => false end.
Proof. unfold lsr. destruct (w_rx w), (w_txspace w); reflexivity. Qed.

Lemma write_thr c w : baud_mode (w_mmio w) = false → runs (WriteReg THR c) w tt (sent c w).
Proof. intros Hb. unfold WriteReg. rstep. rewrite Hb. cbn [negb andb]. change (THR =? THR) with true. cbn [andb]. rsteps. Qed.

(** Worlds in which the driver has moved on. *)
Definition uworld (u : uartstate) (t : list Z) (n : nat) (w : world) : world :=
  set_uart u (set_thr t (set_txspace n w)).

Lemma uartstart_run w :
  cpu_ok w → procs_free w → uart_ok (w_uart w) → baud_mode (w_mmio w) = false →
  ∃ u t n, runs uartstart w tt (uworld u t n w) ∧ t ++ uqueue u = stream w ∧ uart_ok u ∧
    (uqueue u = [] ∨ n = O) ∧ ulen u ≤ ulen (w_uart w).
Proof.
  unfold uartstart. assert (Hf : (Z.to_nat (ulen (w_uart w)) < Z.to_nat UART_TX_BUF_SIZE)%nat).
  { pose proof (ulen_range (w_uart w)). lia. }
  revert Hf. generalize (Z.to_nat UART_TX_BUF_SIZE). intros f. revert w.
  induction f as [|f IH]; intros w Hf Hok Hp Hu Hb; [lia|]. cbn [loop].
  destruct (decide (uart_tx_w (w_uart w) = uart_tx_r (w_uart w))) as [E|E].
  { exists (w_uart w), (w_thr w), (w_txspace w). split_and!; try done.
    - rstep. unfold get_uart. rstep. rewrite (proj2 (Z.eqb_eq _ _) E). rsteps.
    - left. unfold uqueue. by rewrite (proj2 (ulen_zero _ Hu) E). }
  assert (Hl : 0 < ulen (w_uart w)).
  { pose proof (ulen_range (w_uart w)). rewrite <-(ulen_zero _ Hu) in E. lia. }
  pose proof (lsr_idle w) as Hi. destruct (w_txspace w) as [|sp] eqn:Es.
  { exists (w_uart w), (w_thr w), (w_txspace w). split_and!; try done; [|by right].
    rstep. unfold get_uart. rstep. rewrite (proj2 (Z.eqb_neq _ _) E). rstep. rcall read_lsr. rewrite Hi. rsteps. }
  set (w1 := sent (uart_tx_buf (w_uart w) (uart_tx_r (w_uart w))) (set_uart (utake (w_uart w)) w)).
  destruct (IH w1) as (u & t & n & R & Ht & Hu' & Hor & Hle); try done.
  { unfold w1, sent. rsimpl. rewrite ulen_take by done. lia. }
  { by apply utake_ok. }
  exists u, t, n. split_and!; try done.
  - rstep. unfold get_uart at 1. rstep. rewrite (proj2 (Z.eqb_neq _ _) E). rstep. rcall read_lsr.
    rewrite Hi. unfold upd_uart. rsteps. rcall runs_wakeup. rsteps. rcall write_thr. rsteps. exact R.
  - rewrite Ht. unfold w1, sent, stream. rsimpl. rewrite (uqueue_take (w_uart w)) by done.
    destruct Hu as (_ & _ & Hc). rewrite Hc, <-app_assoc. reflexivity.
  - etrans; [exact Hle|]. unfold w1, sent. rsimpl. rewrite ulen_take by done. lia.
Qed.

Lemma not_full u : uart_ok u → ulen u < UART_TX_BUF_SIZE - 1 → Z.rem (uart_tx_w u + 1) UART_TX_BUF_SIZE ≠ uart_tx_r u.
Proof.
  intros Hok Hl E. pose proof (ulen_put 0 u Hok Hl) as Hp. pose proof (uput_ok 0 u Hok) as Ho.
  assert (H0 : ulen (uput 0 u) = 0) by (apply ulen_zero; [done|exact E]). pose proof (ulen_range u). lia.
Qed.

Lemma uartputc_run c w p :
  quiet w p → uart_ok (w_uart w) → uart_up w → ulen (w_uart w) < UART_TX_BUF_SIZE - 1 →
  ∃ u t n, runs (uartputc c) w tt (uworld u t n w) ∧ t ++ uqueue u = stream w ++ [u8 c] ∧ uart_ok u.
Proof.
  intros Hq Hu [Hpn Hb] Hl. set (wl := locked_by LUart w).
  destruct (uartstart_run (set_uart (uput c (w_uart w)) wl)) as (u & t & n & R & Ht & Hu' & _ & _).
  { apply (cpu_ok_locked_by LUart w). eauto with xv6. }
  { apply (procs_free_locked LUart w); [eauto with xv6|done]. }
  { by apply uput_ok. }
  { done. }
  exists u, t, n. split_and!; [| |done].
  - unfold uartputc. rcall runs_acquire; [eauto with xv6..|]. rstep. change (w_panicked (locked_by LUart w)) with (w_panicked w).
    rewrite Hpn. apply runs_loop_wait. unfold get_uart. rstep. change (w_uart (locked_by LUart w)) with (w_uart w).
    rewrite (proj2 (Z.eqb_neq _ _) (not_full _ Hu Hl)). unfold upd_uart. rsteps. eapply runs_bind; [exact R|].
    eapply runs_bind; [apply (runs_release LUart w); try reflexivity; eauto with xv6|]. rsteps.
  - rewrite Ht. unfold stream. rewrite <-app_assoc, <-uqueue_put by done. reflexivity.
Qed.

Lemma uartputc_sync_run c w :
  cpu_ok w → uart_up w → (0 < w_txspace w)%nat → runs (uartputc_sync c) w tt (sent c w).
Proof.
  intros Hok [Hp Hb] Hs. unfold uartputc_sync. rcall runs_push_off; [by auto|]. rstep.
  change (w_panicked (pushed w)) with (w_panicked w). rewrite Hp.
  eapply runs_bind.
  { apply runs_loop_wait. rcall read_lsr. change (lsr (pushed w)) with (lsr w). rewrite lsr_idle.
    destruct (w_txspace w); [lia|]. rsteps. }
  rcall write_thr. by apply (runs_pop_off w).
Qed.
End Driver.

Lemma full_ring u : uart_ok u → ulen u = UART_TX_BUF_SIZE - 1 → Z.rem (uart_tx_w u + 1) UART_TX_BUF_SIZE = uart_tx_r u.
Proof.
  intros Hok Hl. pose proof (uring_end u Hok) as E. destruct Hok as (Hr & Hw & _). rewrite rem_succ by done.
  rewrite <-E, Zplus_mod_idemp_l, Hl. replace (uart_tx_r u + (UART_TX_BUF_SIZE - 1) + 1) with (uart_tx_r u + 1 * UART_TX_BUF_SIZE) by lia.
  rewrite Z.mod_add by done. by apply Z.mod_small.
Qed.

(** ** The properties *)

Module Serial.

(** C33: The serial port is a FIFO: with room in its buffer, uartputc appends the byte
    to the stream of sent and buffered bytes and returns; with a full buffer the
    process sleeps until uartstart has made room.  uartstart sends buffered bytes
    in order until the buffer is empty or the port takes no more, and neither
    loses nor reorders any. *)
Theorem uart_fifo {D : DiskOps} (w : world) (p c : Z) :
  quiet w p → uart_ok (w_uart w) → uart_up w →
  (ulen (w_uart w) < UART_TX_BUF_SIZE - 1 →
    ∃ w', runs (uartputc c) w tt w' ∧ stream w' = stream w ++ [u8 c] ∧ uart_ok (w_uart w') ∧ quiet w' p) ∧
  (ulen (w_uart w) = UART_TX_BUF_SIZE - 1 → uartputc c [] w = Blocked (asleep CUart p w)) ∧
  (∃ w', runs (acquire LUart ;; uartstart ;; release LUart) w tt w' ∧ stream w' = stream w ∧
    uart_ok (w_uart w') ∧ (uqueue (w_uart w') = [] ∨ w_txspace w' = O) ∧ quiet w' p).
Proof.
  intros Hq Hu Hup. split_and!.
  - intros Hl. destruct (uartputc_run c w p Hq Hu Hup Hl) as (u & t & n & R & Ht & Hu'). by exists (uworld u t n w).
  - intros Hl. destruct Hup as [Hp _]. unfold uartputc. mcall acquire_free; [eauto with xv6..|]. mstep.
    change (w_panicked (locked_by LUart w)) with (w_panicked w). rewrite Hp. unfold loop_wait. cbn [loop length].
    apply bind_Blocked. unfold get_uart at 1. mstep. change (w_uart (locked_by LUart w)) with (w_uart w).
    rewrite (proj2 (Z.eqb_eq _ _) (full_ring _ Hu Hl)). apply bind_Blocked.
    exact (sleep_blocks CUart LUart p w (locked_by LUart w) (quiet_calm _ _ Hq) ltac:(done) (inside_self LUart w)).
  - destruct (uartstart_run (locked_by LUart w)) as (u & t & n & R & Ht & Hu' & Hor & _); try done.
    { apply cpu_ok_locked_by. eauto with xv6. }
    { apply procs_free_locked; [eauto with xv6|done]. }
    { apply Hup. }
    exists (uworld u t n w). split_and!; try done.
    rcall runs_acquire; [eauto with xv6..|]. eapply runs_bind; [exact R|].
    by apply (runs_release LUart w); eauto with xv6.
Qed.

Lemma uart_fifo_witness :
  ∃ w', runs (D := prompt_disk) (uartputc 65) (running_world (λ _, zeroes)) tt w' ∧ stream w' = [65].
Proof.
  destruct (uart_fifo (D := prompt_disk) (running_world (λ _, zeroes)) 1 65) as [H _].
  - apply running_world_quiet.
  - done.
  - done.
  - destruct H as (w' & R & E & _); [done|]. exists w'. split; [exact R|exact E].
Defined.
End Serial.
