(* ===== verification/Printf.v ===== *)
(** * printf.c: formatted console output

    The kernel is built with -DTEST: printf(...) is _printf(__FILE__, __LINE__,
    ...), which prefixes every message with its place in the source. *)

From S2P Require Import Prelude Types StringC Spinlock Sched Riscv Uart.

(** The characters of a string literal. *)
Definition chars (s : string) : list Z :=
  (λ c, Z.of_N (Ascii.N_of_ascii c)) <$> String.list_ascii_of_string s.

Definition BACKSPACE : Z := 0x100.

(** console.c *)
Definition consputc (c : Z) : K unit :=
  if c =? BACKSPACE then
    uartputc_sync 8 ;;
    uartputc_sync 32 ;;
    uartputc_sync 8
  else uartputc_sync c.

Definition consputs (s : list Z) : K unit := for_each s consputc.

(** digits[] *)
Definition digit (d : Z) : Z := nth (Z.to_nat d) (chars "0123456789abcdef") 0.

(** do { buf[i++] = digits[x % base]; } while ((x /= base) != 0): the digits,
    least significant first.  A 32-bit value has at most 32 of them. *)
Fixpoint digits_of (fuel : nat) (x base : Z) : list Z :=
  match fuel with
  | O => []
  | S fuel =>
      digit (x `mod` base) :: (if x / base =? 0 then [] else digits_of fuel (x / base) base)
  end.

(** What printint puts in buf[], in the order it is printed. *)
Definition int_chars (xx base : Z) (sign : bool) : list Z :=
  let neg := sign && (xx <? 0) in
  let x := if neg then u32 (- xx) else u32 xx in
  reverse (digits_of 32 x base ++ (if neg then [45] else [])).

Definition printint (xx base : Z) (sign : bool) : K unit := consputs (int_chars xx base sign).

(** digits[x >> 60] for 16 rounds of x <<= 4 *)
Definition ptr_chars (x : Z) : list Z :=
  (λ i, digit (u64 (x ≪ (4 * i)) ≫ 60)) <$> seqZ 0 16.

Definition printptr (x : Z) : K unit :=
  consputc 48 ;;
  consputc 120 ;;
  consputs (ptr_chars x).

(** An argument of printf: an int or a uint64, or a char pointer. *)
Inductive varg := VNum (x : Z) | VStr (s : option (list Z)).

(** va_arg: the callers pass one argument of the right kind per directive. *)
Definition arg_num (ap : list varg) : Z := match ap with VNum x :: _ => x | _ => 0 end.
Definition arg_str (ap : list varg) : option (list Z) := match ap with VStr s :: _ => s | _ => None end.

(** The loop over fmt. *)
Fixpoint printf_loop (fmt : list Z) (ap : list varg) : K unit :=
  match fmt with
  | [] => ret tt
  | c :: fmt =>
      if negb (c =? 37) then consputc c ;; printf_loop fmt ap else
      match fmt with
      | [] => ret tt
      | c :: fmt =>
          if c =? 100 (* d *) then printint (i32 (arg_num ap)) 10 true ;; printf_loop fmt (tail ap)
          else if c =? 120 (* x *) then printint (i32 (arg_num ap)) 16 true ;; printf_loop fmt (tail ap)
          else if c =? 112 (* p *) then printptr (u64 (arg_num ap)) ;; printf_loop fmt (tail ap)
          else if c =? 115 (* s *) then
            consputs (default (chars "(null)") (arg_str ap)) ;;
            printf_loop fmt (tail ap)
          else if c =? 37 then consputc 37 ;; printf_loop fmt ap
          else consputc 37 ;; consputc c ;; printf_loop fmt ap
      end
  end.

(** The escape sequences around the place of the message. *)
Definition file_color : list Z := 27 :: chars "[0;36m".
Definition line_color : list Z := 58 :: 27 :: chars "[0;35m".
Definition content_color : list Z := 9 :: 27 :: chars "[0;32m".
Definition rst_str : list Z := 27 :: chars "[0m".

(** A format as its characters; [None] is the null pointer. *)
Definition lit (s : string) : option (list Z) := Some (chars s).

Definition printf (filename : string) (line : Z) (fmt : option (list Z)) (ap : list varg) : K unit :=
  locking <- gets (λ w, w_pr_locking w) ;;
  when locking (acquire LPr) ;;
  match fmt with None => panic "null fmt" | Some fmt =>
  consputs file_color ;;
  consputs (chars filename) ;;
  consputs line_color ;;
  printint (i32 line) 10 true ;;
  consputs content_color ;;
  printf_loop fmt ap ;;
  consputs rst_str ;;
  when locking (release LPr)
  end.

(** What the kernel's panic(s) prints before it stops; the outcome [Panic s]
    stands for the call. *)
Definition panic_output (s : list Z) : K unit :=
  modify (λ w, set_pr_locking false w) ;;
  printf "kernel/printf.c" 135 (lit "panic: ") [] ;;
  printf "kernel/printf.c" 136 (Some s) [] ;;
  printf "kernel/printf.c" 137 (Some [10]) [] ;;
  modify (λ w, set_panicked true w) ;;
  hang.

Definition printfinit : K unit :=
  initlock LPr "pr" ;;
  modify (λ w, set_pr_locking true w).
