(* ===== verification/Console.v ===== *)
(** * console.c: the console device; uartintr and procdump *)

From S2P Require Import Prelude Types StringC Spinlock Kalloc Vm Sched Riscv Uart Printf.

Definition newline : Z := 10.

(** C(x), the control characters *)
Definition ctrl (x : Z) : Z := x - 64.
Definition ctrl_D : Z := ctrl 68.
Definition ctrl_H : Z := ctrl 72.
Definition ctrl_P : Z := ctrl 80.
Definition ctrl_U : Z := ctrl 85.

Definition get_cons : K consstate := gets (λ w, w_cons w).
Definition upd_cons (f : consstate → consstate) : K unit := modify (λ w, set_cons (f (w_cons w)) w).

(** ** proc.c: procdump *)

(** The characters of a char array up to its nul. *)
Fixpoint upto_nul (l : list Z) : list Z :=
  match l with
  | [] => []
  | c :: l => if c =? 0 then [] else c :: upto_nul l
  end.

Definition state_name (s : procstate) : list Z :=
  chars (match s with
         | UNUSED => "unused" | SLEEPING => "sleep " | RUNNABLE => "runble" | RUNNING => "run   " | ZOMBIE => "zombie"
         end).

Definition procdump : K unit :=
  printf "kernel/proc.c" 611 (Some [newline]) [] ;;
  for_each all_procs (λ p,
    pr <- get_proc p ;;
    if decide (p_state pr = UNUSED) then ret tt else
    printf "kernel/proc.c" 618 (lit "%d %s %s")
      [VNum (p_pid pr); VStr (Some (state_name (p_state pr))); VStr (Some (upto_nul (p_name pr)))] ;;
    printf "kernel/proc.c" 619 (Some [newline]) []).

(** ** Input: the interrupt handler *)

(** The loop of control-u, from the end of the line being edited to its start. *)
Fixpoint kill_line (fuel : nat) : K unit :=
  match fuel with
  | O => λ _ _, NoFuel
  | S fuel =>
      c <- get_cons ;;
      if negb (cons_e c =? cons_w c)
         && negb (cons_buf c (u32 (cons_e c - 1) `mod` INPUT_BUF) =? newline) then
        upd_cons (λ c, set_cons_e (u32 (cons_e c - 1)) c) ;;
        consputc BACKSPACE ;;
        kill_line fuel
      else ret tt
  end.

(** case C('U'): at most e - w characters are erased. *)
Definition kill_rounds (c : consstate) : nat := S (Z.to_nat (u32 (cons_e c - cons_w c))).

Definition consoleintr (c : Z) : K unit :=
  acquire LCons ;;
  (if c =? ctrl_P then procdump
   else if c =? ctrl_U then
     cs <- get_cons ;;
     kill_line (kill_rounds cs)
   else if (c =? ctrl_H) || (c =? 0x7f) then
     cs <- get_cons ;;
     when (negb (cons_e cs =? cons_w cs)) (
       upd_cons (λ c, set_cons_e (u32 (cons_e c - 1)) c) ;;
       consputc BACKSPACE)
   else
     cs <- get_cons ;;
     when (nz c && (u32 (cons_e cs - cons_r cs) <? INPUT_BUF)) (
       let c := if c =? 13 then newline else c in
       consputc c ;;
       upd_cons (λ s, set_cons_buf (<[cons_e s `mod` INPUT_BUF := u8 c]> (cons_buf s)) s) ;;
       upd_cons (λ s, set_cons_e (u32 (cons_e s + 1)) s) ;;
       cs <- get_cons ;;
       when ((c =? newline) || (c =? ctrl_D) || (cons_e cs =? u32 (cons_r cs + INPUT_BUF))) (
         upd_cons (λ s, set_cons_w (cons_e s) s) ;;
         wakeup CCons))) ;;
  release LCons.

(** uart.c.  Each round takes one of the bytes that have been received. *)
Definition uartintr : K unit :=
  rx <- gets (λ w, w_rx w) ;;
  loop (S (length rx)) (
    c <- uartgetc ;;
    if c =? -1 then ret (Some tt) else
    consoleintr c ;;
    ret None) ;;
  acquire LUart ;;
  uartstart ;;
  release LUart.

(** ** The device *)

Section Console.
Context `{Layout}.

(** A user source; [ksrc] is a kernel one. *)
Definition consolewrite (user_src : bool) (src : Z) (ksrc : bytes) (n : Z) : K Z :=
  acquire LCons ;;
  r <- for_find (seqZ 0 n) (λ i,
    e <- either_copyin zeroes user_src (u64 (src + i)) ksrc 1 ;;
    if e.1 =? -1 then ret (Some i) else
    uartputc (e.2 0) ;;
    ret None) ;;
  release LCons ;;
  ret (match r with Some i => i | None => Z.max 0 n end).

(** The loop of consoleread: [n] bytes still wanted of [target].  The result is
    [None] when the process was killed while waiting, else the [n] at the end. *)
Fixpoint consoleread_loop (n : nat) (user_dst : bool) (dst : Z) (kdst : bytes) (target : Z)
    : K (option (nat * bytes)) :=
  match n with
  | O => ret (Some (O, kdst))
  | S n' =>
      go <- loop_wait (
        c <- get_cons ;;
        if cons_r c =? cons_w c then
          mp <- myproc ;;
          p <- deref mp ;;
          pr <- get_proc p ;;
          if p_killed pr then ret (Some false) else
          sleep CCons LCons ;;
          ret None
        else ret (Some true)) ;;
      if negb go then release LCons ;; ret None else
      cs <- get_cons ;;
      let c := cons_buf cs (cons_r cs `mod` INPUT_BUF) in
      upd_cons (λ s, set_cons_r (u32 (cons_r s + 1)) s) ;;
      if c =? ctrl_D then
        when (Z.of_nat n <? target) (upd_cons (λ s, set_cons_r (u32 (cons_r s - 1)) s)) ;;
        ret (Some (n, kdst))
      else
      e <- either_copyout user_dst dst kdst (λ _, c) 1 ;;
      if e.1 =? -1 then ret (Some (n, kdst)) else
      if c =? newline then ret (Some (n', e.2)) else
      consoleread_loop n' user_dst (u64 (dst + 1)) e.2 target
  end.

Definition consoleread (user_dst : bool) (dst : Z) (kdst : bytes) (n : Z) : K (Z * bytes) :=
  let target := n in
  acquire LCons ;;
  if n >? 0 then
    r <- consoleread_loop (Z.to_nat n) user_dst dst kdst target ;;
    match r with
    | None => ret (-1, kdst)
    | Some (n, kdst) => release LCons ;; ret (target - Z.of_nat n, kdst)
    end
  else
    release LCons ;;
    ret (0, kdst).

End Console.

Definition consoleinit : K unit :=
  initlock LCons "cons" ;;
  uartinit ;;
  modify (λ w, set_devsw (<[CONSOLE := true]> (w_devsw w)) w).
