(* ===== verification/ConsoleProps.v ===== *)
(** * The console's line discipline

    The input buffer as two byte sequences: the lines that consoleread may take
    ([ready]) and the line being edited ([line]).  consoleintr is an editor on
    them, [edit], that echoes what it does. *)

From S2P Require Import Prelude Types StringC Spinlock Kalloc Vm Sched Sleeplock Run Sleep Riscv Uart UartProps Printf Console.

(** ** The abstract editor *)

Definition is_erase (c : Z) : bool := (c =? ctrl_H) || (c =? 0x7f).
Definition cr_to_nl (c : Z) : Z := if c =? 13 then newline else c.
Definition ends_line (c : Z) : bool := (c =? newline) || (c =? ctrl_D).
Definition room_for (ready line : list Z) : bool := Z.of_nat (length ready + length line) <? INPUT_BUF.

Definition edit (c : Z) (ready line : list Z) : list Z * list Z :=
  if c =? ctrl_U then (ready, [])
  else if is_erase c then (ready, removelast line)
  else if nz c && room_for ready line then
    let line := line ++ [cr_to_nl c] in
    if ends_line (cr_to_nl c) || negb (room_for ready line) then (ready ++ line, []) else (ready, line)
  else (ready, line).

(** What is sent to the terminal: an erased character is overwritten. *)
Definition rubout : list Z := [8; 32; 8].
Definition echo (c : Z) (ready line : list Z) : list Z :=
  if c =? ctrl_U then concat (replicate (length line) rubout)
  else if is_erase c then (match line with [] => [] | _ => rubout end)
  else if nz c && room_for ready line then [cr_to_nl c]
  else [].

(** The buffer holds [ready] and [line], at indices that run modulo 2^32. *)
Record cons_shape (c : consstate) (ready line : list Z) : Prop := {
  ca_r : 0 ≤ cons_r c < 2 ^ 32;
  ca_w : cons_w c = u32 (cons_r c + Z.of_nat (length ready));
  ca_e : cons_e c = u32 (cons_r c + Z.of_nat (length ready) + Z.of_nat (length line));
  ca_len : Z.of_nat (length ready + length line) ≤ INPUT_BUF;
  ca_ready : ready = ring (cons_buf c) INPUT_BUF (cons_r c) (Z.of_nat (length ready));
  ca_line : line = ring (cons_buf c) INPUT_BUF (cons_r c + Z.of_nat (length ready)) (Z.of_nat (length line))
}.

Definition cons_abs (c : consstate) (ready line : list Z) : Prop := cons_shape c ready line ∧ newline ∉ line.

(** ** Indices *)

Lemma u32_mod_input x : u32 x `mod` INPUT_BUF = x `mod` INPUT_BUF.
Proof. by apply (u32_mod_pow x 7). Qed.

Section Abs.
Context (c : consstate) (ready line : list Z) (Ha : cons_shape c ready line).

Lemma ca_bound : 0 ≤ Z.of_nat (length ready) ≤ 128 ∧ 0 ≤ Z.of_nat (length line) ≤ 128 ∧
  Z.of_nat (length ready) + Z.of_nat (length line) ≤ 128.
Proof using Ha. pose proof (ca_len _ _ _ Ha). unfold INPUT_BUF in *. lia. Qed.

Lemma ca_e_r : u32 (cons_e c - cons_r c) = Z.of_nat (length ready + length line).
Proof using Ha.
  rewrite (ca_e _ _ _ Ha), <-Z.add_assoc. pose proof ca_bound. rewrite u32_sub_small; lia.
Qed.

Lemma ca_e_w : u32 (cons_e c - cons_w c) = Z.of_nat (length line).
Proof using Ha.
  rewrite (ca_e _ _ _ Ha), (ca_w _ _ _ Ha). unfold u32. rewrite Zminus_mod_idemp_l, Zminus_mod_idemp_r.
  rewrite Z.mod_small; [lia|]. pose proof ca_bound. lia.
Qed.

Lemma ca_empty : cons_e c = cons_w c ↔ line = [].
Proof using Ha.
  pose proof ca_bound. rewrite (ca_e _ _ _ Ha), (ca_w _ _ _ Ha). split.
  - intros E. rewrite <-Z.add_assoc in E. apply (u32_inj_near (cons_r c)) in E; [|lia|lia].
    destruct line; [done|]. cbn [length] in E. lia.
  - intros ->. cbn. by rewrite Z.add_0_r.
Qed.

(** The last character of the line. *)
Lemma ca_last : line ≠ [] → ∃ l x, line = l ++ [x] ∧ cons_buf c (u32 (cons_e c - 1) `mod` INPUT_BUF) = x ∧
  cons_shape (set_cons_e (u32 (cons_e c - 1)) c) ready l.
Proof using Ha.
  intros Hne. destruct (exists_last Hne) as (l & x & El). exists l, x. pose proof ca_bound as Hb.
  destruct Ha as [R W E Len Hr Hl]. rewrite El, length_app in *. cbn [length] in *.
  assert (Ee : u32 (cons_e c - 1) = u32 (cons_r c + Z.of_nat (length ready) + Z.of_nat (length l))).
  { rewrite E, u32_pred. f_equal. lia. }
  replace (Z.of_nat (length l + 1)) with (Z.of_nat (length l) + 1) in Hl by lia. rewrite ring_snoc in Hl by lia.
  apply app_inj_tail in Hl as [Hl Hx]. split_and!; [done| |].
  - rewrite Ee, u32_mod_input. by symmetry.
  - split; rsimpl; try done. lia.
Qed.

(** A character is stored behind the line. *)
Definition stored_char (x : Z) (c : consstate) : consstate :=
  set_cons_e (u32 (cons_e c + 1)) (set_cons_buf (<[cons_e c `mod` INPUT_BUF := x]> (cons_buf c)) c).

Lemma ca_store x : room_for ready line = true → cons_shape (stored_char x c) ready (line ++ [x]).
Proof using Ha.
  intros Hroom%Z.ltb_lt. pose proof ca_bound as Hb. destruct Ha as [R W E Len Hr Hl]. unfold stored_char.
  assert (Ei : cons_e c `mod` INPUT_BUF = (cons_r c + Z.of_nat (length ready) + Z.of_nat (length line)) `mod` INPUT_BUF).
  { by rewrite E, u32_mod_input. }
  split; rsimpl; rewrite ?length_app; cbn [length]; try done.
  - rewrite E, u32_succ. f_equal. lia.
  - lia.
  - rewrite Hr at 1. apply list_fmap_ext. intros k i [-> Hk]%lookup_seqZ. symmetry. apply fn_lookup_insert_ne.
    rewrite Ei. intros Em. assert (Hz : (Z.of_nat (length ready) + Z.of_nat (length line) - Z.of_nat k) `mod` INPUT_BUF = 0).
    { replace (Z.of_nat (length ready) + Z.of_nat (length line) - Z.of_nat k)
        with ((cons_r c + Z.of_nat (length ready) + Z.of_nat (length line)) - (cons_r c + (0 + Z.of_nat k))) by lia.
      rewrite Zminus_mod, Em, Z.sub_diag. done. }
    rewrite Z.mod_small in Hz; unfold INPUT_BUF in *; lia.
  - rewrite Ei. replace (Z.of_nat (length line + 1)) with (Z.of_nat (length line) + 1) by lia.
    rewrite ring_push; [|unfold INPUT_BUF in *; lia]. by rewrite <-Hl.
Qed.

(** The line is handed over to the readers. *)
Lemma ca_commit : cons_shape (set_cons_w (cons_e c) c) (ready ++ line) [].
Proof using Ha.
  destruct Ha as [R W E Len Hr Hl]. split; rsimpl; rewrite ?length_app; cbn [length]; try done.
  - rewrite E. f_equal. lia.
  - rewrite E. f_equal. lia.
  - lia.
  - rewrite Nat2Z.inj_add, ring_app by lia. by rewrite <-Hr, <-Hl.
Qed.
End Abs.

(** ** Echoing *)

Section Echo.
Context `{DiskOps}.

Definition sends (l : list Z) (w : world) : world :=
  set_thr (w_thr w ++ l) (set_txspace (w_txspace w - length l) w).

Lemma sends_nil w : sends [] w = w.
Proof. unfold sends. cbn [length]. rewrite app_nil_r, Nat.sub_0_r. reflexivity. Qed.

Lemma sends_app l1 l2 w : sends l2 (sends l1 w) = sends (l1 ++ l2) w.
Proof. unfold sends. rsimpl. rewrite <-app_assoc, length_app, <-Nat.sub_add_distr. reflexivity. Qed.

Lemma putc_run c w :
  cpu_ok w → uart_up w → (1 ≤ w_txspace w)%nat → 0 ≤ c < 256 → runs (uartputc_sync c) w tt (sends [c] w).
Proof.
  intros Hok Hup Hs Hc. eapply runs_eq; [apply uartputc_sync_run; try done; lia|].
  unfold sent, sends. cbn [length]. rewrite Nat.sub_1_r. unfold u8. rewrite Z.mod_small by lia. reflexivity.
Qed.

Lemma consputc_run c w :
  cpu_ok w → uart_up w → (1 ≤ w_txspace w)%nat → 0 ≤ c < 256 → runs (consputc c) w tt (sends [c] w).
Proof.
  intros. unfold consputc, BACKSPACE. rewrite (proj2 (Z.eqb_neq _ _)) by lia. by apply putc_run.
Qed.

Lemma consputc_rubout w :
  cpu_ok w → uart_up w → (3 ≤ w_txspace w)%nat → runs (consputc BACKSPACE) w tt (sends rubout w).
Proof.
  intros Hok Hup Hs. unfold consputc. change (BACKSPACE =? BACKSPACE) with true. cbv iota.
  rcall (putc_run 8); [lia|done|]. rcall (putc_run 32); [cbn; lia|done|].
  eapply runs_eq; [apply (putc_run 8); [exact Hok|exact Hup|cbn; lia|done]|]. by rewrite !sends_app.
Qed.
End Echo.

(** ** The interrupt handler *)

Section Intr.
Context `{DiskOps}.

Lemma kill_line_run fuel w ready line :
  cpu_ok w → uart_up w → cons_abs (w_cons w) ready line → (length line < fuel)%nat →
  (3 * length line ≤ w_txspace w)%nat →
  ∃ c, runs (kill_line fuel) w tt (set_cons c (sends (concat (replicate (length line) rubout)) w)) ∧ cons_shape c ready [].
Proof.
  revert w line. induction fuel as [|fuel IH]; intros w line Hok Hup [Ha Hnl] Hf Hs; [lia|]. cbn [kill_line].
  destruct (decide (line = [])) as [->|Hne].
  { exists (w_cons w). split; [|done]. unfold get_cons. rstep. rewrite (proj2 (Z.eqb_eq _ _) (proj2 (ca_empty _ _ _ Ha) eq_refl)).
    cbn [negb andb]. eapply runs_eq; [apply runs_ret|]. cbn [length replicate concat]. by rewrite sends_nil. }
  destruct (ca_last _ _ _ Ha Hne) as (l & x & -> & Hx & Ha').
  assert (Hxn : x ≠ newline) by set_solver. rewrite length_app in *. cbn [length] in *.
  set (w1 := sends rubout (set_cons (set_cons_e (u32 (cons_e (w_cons w) - 1)) (w_cons w)) w)).
  destruct (IH w1 l) as (c & R & Hc).
  { exact Hok. } { exact Hup. } { split; [exact Ha'|set_solver]. } { lia. } { unfold w1. cbn. lia. }
  exists c. split; [|done]. unfold get_cons, upd_cons. rstep.
  rewrite (proj2 (Z.eqb_neq _ _)) by (rewrite (ca_empty _ _ _ Ha); done). rewrite Hx, (proj2 (Z.eqb_neq _ _) Hxn). cbn [negb andb].
  rstep. rcall consputc_rubout; [cbn; lia|]. eapply runs_eq; [exact R|].
  unfold w1. rewrite <-(Nat.add_comm 1). cbn [Nat.add replicate concat]. rewrite <-sends_app. reflexivity.
Qed.

Lemma erase_run w ready line :
  cpu_ok w → uart_up w → cons_abs (w_cons w) ready line → (3 ≤ w_txspace w)%nat →
  ∃ c, runs (
    cs <- get_cons ;;
    when (negb (cons_e cs =? cons_w cs)) (
      upd_cons (λ c, set_cons_e (u32 (cons_e c - 1)) c) ;;
      consputc BACKSPACE)) w tt (set_cons c (sends (match line with [] => [] | _ => rubout end) w)) ∧
  cons_abs c ready (removelast line).
Proof.
  intros Hok Hup [Ha Hnl] Hs. unfold get_cons, upd_cons. destruct (decide (line = [])) as [->|Hne].
  { exists (w_cons w). split; [|done]. rstep. rewrite (proj2 (Z.eqb_eq _ _) (proj2 (ca_empty _ _ _ Ha) eq_refl)).
    cbn [negb]. eapply runs_eq; [apply runs_ret|]. by rewrite sends_nil. }
  destruct (ca_last _ _ _ Ha Hne) as (l & x & -> & Hx & Ha').
  exists (set_cons_e (u32 (cons_e (w_cons w) - 1)) (w_cons w)). split.
  - rstep. rewrite (proj2 (Z.eqb_neq _ _)) by (rewrite (ca_empty _ _ _ Ha); done). cbn [negb]. rsteps.
    eapply runs_eq; [by apply consputc_rubout|]. by destruct l.
  - rewrite removelast_last. split; [done|set_solver].
Qed.

(** The test for a full buffer, after a character has been stored. *)
Lemma full_test c ready line x :
  cons_shape c ready line → room_for ready line = true →
  (cons_e (stored_char x c) =? u32 (cons_r (stored_char x c) + INPUT_BUF)) = negb (room_for ready (line ++ [x])).
Proof.
  intros Ha Hr. pose proof (ca_store _ _ _ Ha x Hr) as Hs. pose proof (ca_bound _ _ _ Hs) as Hb.
  rewrite (ca_e _ _ _ Hs), <-Z.add_assoc. unfold room_for. apply Bool.eq_iff_eq_true.
  rewrite Z.eqb_eq, negb_true_iff, Z.ltb_ge. unfold INPUT_BUF. split.
  - intros E%u32_inj_near; lia.
  - intros E. f_equal. lia.
Qed.

Lemma insert_run w ready line c :
  cpu_ok w → procs_free w → uart_up w → cons_abs (w_cons w) ready line → (1 ≤ w_txspace w)%nat →
  0 ≤ c < 256 → c ≠ ctrl_U → is_erase c = false →
  ∃ cs, runs (
     cs <- get_cons ;;
     when (nz c && (u32 (cons_e cs - cons_r cs) <? INPUT_BUF)) (
       let c := if c =? 13 then newline else c in
       consputc c ;;
       upd_cons (λ s, set_cons_buf (<[cons_e s `mod` INPUT_BUF := u8 c]> (cons_buf s)) s) ;;
       upd_cons (λ s, set_cons_e (u32 (cons_e s + 1)) s) ;;
       cs <- get_cons ;;
       when ((c =? newline) || (c =? ctrl_D) || (cons_e cs =? u32 (cons_r cs + INPUT_BUF))) (
         upd_cons (λ s, set_cons_w (cons_e s) s) ;;
         wakeup CCons))) w tt (set_cons cs (sends (echo c ready line) w)) ∧
  cons_abs cs (edit c ready line).1 (edit c ready line).2.
Proof.
  intros Hok Hp Hup [Ha Hnl] Hs Hc Hu He. unfold echo, edit. rewrite (proj2 (Z.eqb_neq _ _) Hu), He.
  unfold get_cons, upd_cons.
  assert (Er : (u32 (cons_e (w_cons w) - cons_r (w_cons w)) <? INPUT_BUF) = room_for ready line) by (by rewrite (ca_e_r _ _ _ Ha)).
  destruct (nz c && room_for ready line) eqn:Eg.
  2:{ exists (w_cons w). split; [|done]. rstep. rewrite Er, Eg. eapply runs_eq; [apply runs_ret|]. by rewrite sends_nil. }
  apply andb_true_iff in Eg as [Enz Eroom]. fold (cr_to_nl c). set (x := cr_to_nl c).
  assert (Hx : 0 ≤ x < 256) by (unfold x, cr_to_nl, newline; case_match; lia).
  assert (Eu : u8 x = x) by (by apply Z.mod_small).
  pose proof (ca_store _ _ _ Ha x Eroom) as Hst. pose proof (full_test _ _ _ x Ha Eroom) as Hfull.
  set (cs := stored_char x (w_cons w)) in *.
  assert (R0 : ∀ (k : unit → K unit) r,
    runs (k tt) (set_cons cs (sends [x] w)) tt r →
    runs (consputc x ;;
      modify (λ w, set_cons (set_cons_buf (<[cons_e (w_cons w) `mod` INPUT_BUF := u8 x]> (cons_buf (w_cons w))) (w_cons w)) w) ;;
      bind (modify (λ w, set_cons (set_cons_e (u32 (cons_e (w_cons w) + 1)) (w_cons w)) w)) k) w tt r).
  { intros k r Hr. rcall (consputc_run x); [done..|]. rewrite Eu. rsteps. exact Hr. }
  destruct (ends_line x || negb (room_for ready (line ++ [x]))) eqn:Ee.
  - exists (set_cons_w (cons_e cs) cs). split; [|split; [by apply ca_commit|set_solver]].
    rstep. rewrite Er, Enz, Eroom. cbn [andb]. apply R0. rstep. fold (ends_line x).
    change (w_cons (set_cons cs (sends [x] w))) with cs. rewrite Hfull, Ee. rsteps. by apply runs_wakeup.
  - exists cs. apply orb_false_iff in Ee as [Ee1 Ee2]. split.
    + rstep. rewrite Er, Enz, Eroom. cbn [andb]. apply R0. rstep. fold (ends_line x).
      change (w_cons (set_cons cs (sends [x] w))) with cs. rewrite Hfull, Ee1, Ee2. cbn [orb]. rsteps.
    + split; [done|]. apply orb_false_iff in Ee1 as [Ee1 _]. apply Z.eqb_neq in Ee1. set_solver.
Qed.
End Intr.

(** ** The properties *)

Module LineDiscipline.

(** C26: For every input character (other than control-P, which prints the process
    list), consoleintr does to the buffered input exactly what the line editor
    does: it appends, erases or kills, hands a finished or full line over to the
    readers, drops characters when the buffer is full, and echoes each step.  The
    ring indices stay consistent across their wrap-around at 2^32. *)
Theorem consoleintr_edits {D : DiskOps} (w : world) (c : Z) (ready line : list Z) :
  cpu_ok w → lk_free w LCons → procs_free w → uart_up w → cons_abs (w_cons w) ready line →
  0 ≤ c < 256 → c ≠ ctrl_P → (3 * length line + 3 ≤ w_txspace w)%nat →
  ∃ cs, runs (consoleintr c) w tt (set_cons cs (sends (echo c ready line) w)) ∧
    cons_abs cs (edit c ready line).1 (edit c ready line).2.
Proof.
  intros Hok Hlk Hp Hup Ha Hc HP Hs. set (wl := locked_by LCons w).
  assert (Hokl : cpu_ok wl) by (by apply cpu_ok_locked_by).
  assert (Hpl : procs_free wl) by (by apply procs_free_locked).
  assert (Hrel : ∀ cs l (m : K unit), runs m wl tt (set_cons cs (sends l wl)) →
    runs (acquire LCons ;; m ;; release LCons) w tt (set_cons cs (sends l w))).
  { intros cs l m R. rcall runs_acquire; [by auto|]. eapply runs_bind; [exact R|]. by apply (runs_release LCons w). }
  unfold consoleintr. rewrite (proj2 (Z.eqb_neq _ _) HP). destruct (Z.eqb_spec c ctrl_U) as [->|Hu].
  { destruct (kill_line_run (kill_rounds (w_cons w)) wl ready line) as (cs & R & Hcs); try done.
    - unfold kill_rounds. rewrite (ca_e_w _ _ _ (proj1 Ha)). lia.
    - change (w_txspace wl) with (w_txspace w). lia.
    - exists cs. split; [apply Hrel; unfold get_cons; rstep; exact R|]. split; [exact Hcs|]. cbn. set_solver. }
  fold (is_erase c). destruct (is_erase c) eqn:Ee.
  { destruct (erase_run wl ready line) as (cs & R & Hcs); try done.
    { change (w_txspace wl) with (w_txspace w). lia. }
    exists cs. unfold echo, edit. rewrite (proj2 (Z.eqb_neq _ _) Hu), Ee. split; [|done]. by apply Hrel. }
  destruct (insert_run wl ready line c) as (cs & R & Hcs); try done.
  { change (w_txspace wl) with (w_txspace w). lia. }
  exists cs. split; [|done]. by apply Hrel.
Qed.

(** The console of the kernel image, after "ab" has been typed. *)
Definition typed_world : world :=
  set_txspace 64 (set_cons (mkCons (<[0 := 97]> (<[1 := 98]> zeroes)) 0 0 2) (running_world (λ _, zeroes))).

Lemma consoleintr_edits_witness :
  ∃ cs, runs (D := prompt_disk) (consoleintr 13) typed_world tt (set_cons cs (sends [10] typed_world)) ∧
    cons_abs cs [97; 98; 10] [].
Proof.
  apply (consoleintr_edits (D := prompt_disk) typed_world 13 [] [97; 98]); try done.
  - split; [split; done|set_solver].
  - vm_compute. lia.
Defined.
End LineDiscipline.
