(* ===== verification/Pipe.v ===== *)
(** * pipe.c: pipes

    pipeclose, pipewrite and piperead; pipealloc, which allocates files, is in
    File.  A pipe is named by the page it lies in. *)

From S2P Require Import Prelude Types StringC Spinlock Kalloc Vm Sched.

Definition get_pipe (pi : Z) : K pipe := gets (λ w, w_pipes w pi).
Definition upd_pipe (pi : Z) (f : pipe → pipe) : K unit :=
  modify (λ w, set_pipes (alter f pi (w_pipes w)) w).

Section Pipe.
Context `{Layout}.

Definition pipeclose (pi : Z) (writable : bool) : K unit :=
  acquire (LPipe pi) ;;
  (if writable then
     upd_pipe pi (set_pi_writeopen false) ;;
     wakeup (CPipeRead pi)
   else
     upd_pipe pi (set_pi_readopen false) ;;
     wakeup (CPipeWrite pi)) ;;
  p <- get_pipe pi ;;
  if negb (pi_readopen p) && negb (pi_writeopen p) then
    release (LPipe pi) ;;
    kfree pi
  else release (LPipe pi).

(** The wait for room in pipewrite: false when the pipe has no reader or the
    process has been killed. *)
Definition pipe_room (pi pr : Z) : K bool :=
  loop_wait (
    p <- get_pipe pi ;;
    if pi_nwrite p =? u32 (pi_nread p + PIPESIZE) then
      me <- get_proc pr ;;
      if negb (pi_readopen p) || p_killed me then ret (Some false) else
      wakeup (CPipeRead pi) ;;
      sleep (CPipeWrite pi) (LPipe pi) ;;
      ret None
    else ret (Some true)).

(** A round of pipewrite's loop: it ends with -1, or at [i]. *)
Definition write_byte (pi pr addr i : Z) : K (option Z) :=
  ok <- pipe_room pi pr ;;
  if negb ok then release (LPipe pi) ;; ret (Some (-1)) else
  me <- get_proc pr ;;
  e <- copyin (p_pagetable me) zeroes (u64 (addr + i)) 1 ;;
  if e.1 =? -1 then ret (Some i) else
  upd_pipe pi (λ p, set_pi_data (<[pi_nwrite p `mod` PIPESIZE := e.2 0]> (pi_data p)) p) ;;
  upd_pipe pi (λ p, set_pi_nwrite (u32 (pi_nwrite p + 1)) p) ;;
  ret None.

Definition pipewrite (pi addr n : Z) : K Z :=
  mp <- myproc ;;
  pr <- deref mp ;;
  acquire (LPipe pi) ;;
  r <- for_find (seqZ 0 n) (write_byte pi pr addr) ;;
  if bool_decide (r = Some (-1)) then ret (-1) else
  wakeup (CPipeRead pi) ;;
  release (LPipe pi) ;;
  ret (default (Z.max 0 n) r).

(** The wait for input in piperead: false when the process has been killed. *)
Definition pipe_input (pi pr : Z) : K bool :=
  loop_wait (
    p <- get_pipe pi ;;
    if (pi_nread p =? pi_nwrite p) && pi_writeopen p then
      me <- get_proc pr ;;
      if p_killed me then ret (Some false) else
      sleep (CPipeRead pi) (LPipe pi) ;;
      ret None
    else ret (Some true)).

(** A round of piperead's loop. *)
Definition read_byte (pi pr addr i : Z) : K (option Z) :=
  p <- get_pipe pi ;;
  if pi_nread p =? pi_nwrite p then ret (Some i) else
  let ch := pi_data p (pi_nread p `mod` PIPESIZE) in
  upd_pipe pi (λ p, set_pi_nread (u32 (pi_nread p + 1)) p) ;;
  me <- get_proc pr ;;
  e <- copyout (p_pagetable me) (u64 (addr + i)) (λ _, ch) 1 ;;
  if e =? -1 then ret (Some i) else
  ret None.

Definition piperead (pi addr n : Z) : K Z :=
  mp <- myproc ;;
  pr <- deref mp ;;
  acquire (LPipe pi) ;;
  ok <- pipe_input pi pr ;;
  if negb ok then release (LPipe pi) ;; ret (-1) else
  r <- for_find (seqZ 0 n) (read_byte pi pr addr) ;;
  wakeup (CPipeWrite pi) ;;
  release (LPipe pi) ;;
  ret (default (Z.max 0 n) r).

End Pipe.
