(* ===== verification/PipeProps.v ===== *)
(** * Pipes are FIFOs

    A pipe's ring buffer as a byte sequence: pipewrite appends the bytes of the
    user's buffer, piperead takes bytes off the front into the user's buffer, and
    either sleeps when it has to wait. *)

From S2P Require Import Prelude Types StringC Spinlock Kalloc PageTable Vm VmCopy Sched Sleeplock Run Sleep Pipe.

(** The bytes in the pipe; the counters run modulo 2^32. *)
Record pipe_abs (p : pipe) (q : list Z) : Prop := {
  pa_r : 0 ≤ pi_nread p < 2 ^ 32;
  pa_w : pi_nwrite p = u32 (pi_nread p + Z.of_nat (length q));
  pa_len : Z.of_nat (length q) ≤ PIPESIZE;
  pa_q : q = ring (pi_data p) PIPESIZE (pi_nread p) (Z.of_nat (length q))
}.

Definition pipe_put (x : Z) (p : pipe) : pipe :=
  set_pi_nwrite (u32 (pi_nwrite p + 1)) (set_pi_data (<[pi_nwrite p `mod` PIPESIZE := x]> (pi_data p)) p).
Definition pipe_take (p : pipe) : pipe := set_pi_nread (u32 (pi_nread p + 1)) p.

Section Ring.
Context (p : pipe) (q : list Z) (Ha : pipe_abs p q).

Lemma pa_bound : 0 ≤ Z.of_nat (length q) ≤ 512.
Proof using Ha. pose proof (pa_len _ _ Ha). unfold PIPESIZE in *. lia. Qed.

Lemma u32_mod_pipe x : u32 x `mod` PIPESIZE = x `mod` PIPESIZE.
Proof. by apply (u32_mod_pow x 9). Qed.

Lemma pa_empty : pi_nread p = pi_nwrite p ↔ q = [].
Proof using Ha.
  pose proof pa_bound. rewrite (pa_w _ _ Ha). split.
  - intros E. rewrite <-(u32_small (pi_nread p) (pa_r _ _ Ha)) in E at 1.
    rewrite <-(Z.add_0_r (pi_nread p)) in E at 1. apply u32_inj_near in E; [|lia|lia]. by destruct q.
  - intros ->. cbn. rewrite Z.add_0_r, u32_small; [done|apply Ha].
Qed.

Lemma pa_full : pi_nwrite p = u32 (pi_nread p + PIPESIZE) ↔ Z.of_nat (length q) = PIPESIZE.
Proof using Ha.
  pose proof pa_bound. rewrite (pa_w _ _ Ha). unfold PIPESIZE. split; [|by intros ->].
  intros E%u32_inj_near; lia.
Qed.

Lemma pa_put x : Z.of_nat (length q) < PIPESIZE → pipe_abs (pipe_put x p) (q ++ [x]).
Proof using Ha.
  intros Hl. destruct Ha as [R W L Q].
  assert (Ei : pi_nwrite p `mod` PIPESIZE = (pi_nread p + Z.of_nat (length q)) `mod` PIPESIZE) by (by rewrite W, u32_mod_pipe).
  unfold pipe_put. split; rsimpl; rewrite ?length_app; cbn [length]; try done.
  - rewrite W, u32_succ. f_equal. lia.
  - lia.
  - rewrite Ei. replace (Z.of_nat (length q + 1)) with (Z.of_nat (length q) + 1) by lia.
    rewrite ring_push by lia. by rewrite <-Q.
Qed.

Lemma pa_take x q' : q = x :: q' → pi_data p (pi_nread p `mod` PIPESIZE) = x ∧ pipe_abs (pipe_take p) q'.
Proof using Ha.
  intros ->. destruct Ha as [R W L Q]. cbn [length] in *. rewrite Nat2Z.inj_succ, <-Z.add_1_r in *.
  rewrite ring_cons in Q by lia. injection Q as Hx Q. rewrite Z.add_simpl_r in Q. split; [by symmetry|].
  unfold pipe_take. split; rsimpl.
  - apply u32_range.
  - rewrite W. unfold u32. rewrite Zplus_mod_idemp_l. f_equal. lia.
  - lia.
  - rewrite Q at 1. apply ring_mod. by rewrite u32_mod_pipe.
Qed.
End Ring.

(** ** Writing *)

Section Ops.
Context `{LayoutOk}.

(** Inside the critical section of the pipe, with the pipe as [q] and memory [m]. *)
Definition pworld (pi : Z) (w : world) (q : pipe) (m : bytes) : world :=
  set_mem m (set_pipes (<[pi := q]> (w_pipes w)) (locked_by (LPipe pi) w)).

Lemma pworld_start pi w : pworld pi w (w_pipes w pi) (w_mem w) = locked_by (LPipe pi) w.
Proof. unfold pworld. rewrite fn_insert_id. reflexivity. Qed.

Lemma pworld_pipe pi w q m : w_pipes (pworld pi w q m) pi = q.
Proof. unfold pworld. rsimpl. apply fn_lookup_insert. Qed.

(** Leaving: wake the sleepers of [ch], and release. *)
Lemma pipe_leave {B} pi w p q m ch (k : K B) env :
  quiet w p →
  (wakeup ch ;; release (LPipe pi) ;; k) env (pworld pi w q m) =
  k env (set_procs (woken ch all_procs (w_procs w)) (set_mem m (set_pipes (<[pi := q]> (w_pipes w)) (settle w)))).
Proof.
  intros Hq. pose proof (quiet_cpu_ok _ _ Hq) as Hok.
  mcall wakeup_run; [by apply (cpu_ok_locked_by (LPipe pi) w)|by apply (procs_free_locked (LPipe pi) w); eauto with xv6|].
  rewrite settle_inside.
  2:{ change (c_noff (my_cpu (locked_by (LPipe pi) w)) ≠ 0). rewrite noff_locked_by. destruct Hok as (_ & ? & _). lia. }
  mcall (release_after (LPipe pi) env w); try reflexivity. eauto with xv6.
Qed.

(** One byte from the user. *)
Lemma copyin_byte root addr c env w :
  pt_wf (w_mem w) root → 0 ≤ addr → ubyte (w_mem w) root addr = Some c →
  ∃ d, copyin root zeroes addr 1 env w = Ret (0, d) env w ∧ d 0 = c.
Proof.
  intros Hwf Ha Hc. destruct (copyin_loop_run (S (Z.to_nat 1)) root zeroes 0 addr 1 env w) as (r & d & E & _ & R); try done; [lia|].
  destruct R as [[-> R]|(-> & i & Hi & R)].
  - exists d. split; [exact E|]. specialize (R 0 ltac:(lia)). rewrite !Z.add_0_r, Hc in R. by injection R as ->.
  - replace (addr + i) with addr in R by lia. congruence.
Qed.

(** The loop of pipewrite appends byte after byte. *)
Lemma pipewrite_loop pi w p q l addr env :
  quiet w p → pipe_abs (w_pipes w pi) q → Z.of_nat (length q + length l) ≤ PIPESIZE →
  pt_wf (w_mem w) (p_pagetable (w_procs w p)) → 0 ≤ addr → addr + Z.of_nat (length l) ≤ 2 ^ 64 →
  (∀ i x, l !! i = Some x → ubyte (w_mem w) (p_pagetable (w_procs w p)) (addr + Z.of_nat i) = Some x) →
  ∃ v, (∃ q', v = pworld pi w q' (w_mem w) ∧ pipe_abs q' (q ++ l)) ∧
  for_find (seqZ 0 (Z.of_nat (length l))) (write_byte pi p addr) env (locked_by (LPipe pi) w) = Ret None env v.
Proof.
  intros Hq Ha Hlen Hwf Hadr Hend Hl.
  set (I := λ i v, ∃ q', v = pworld pi w q' (w_mem w) ∧ pipe_abs q' (q ++ take (Z.to_nat i) l)).
  destruct (for_find_through I (Z.of_nat (length l)) (write_byte pi p addr) env (locked_by (LPipe pi) w)) as (v & Hv & E).
  - lia.
  - exists (w_pipes w pi). split; [by rewrite pworld_start|]. cbn. by rewrite app_nil_r.
  - intros i v Hi (q' & -> & Hq').
    destruct (lookup_lt_is_Some_2 l (Z.to_nat i)) as [x Hx]; [lia|].
    assert (Hroom : Z.of_nat (length (q ++ take (Z.to_nat i) l)) < PIPESIZE).
    { rewrite length_app, length_take. lia. }
    specialize (Hl _ _ Hx). rewrite Z2Nat.id in Hl by lia.
    destruct (copyin_byte (p_pagetable (w_procs w p)) (addr + i) x env (pworld pi w q' (w_mem w)) Hwf ltac:(lia) Hl) as (d & Ec & Hd).
    exists (pworld pi w (pipe_put x q') (w_mem w)). split.
    + unfold write_byte. mcall loop_wait_Some.
      { unfold get_pipe. mstep. rewrite pworld_pipe, (proj2 (Z.eqb_neq _ _)); [reflexivity|].
        rewrite (pa_full _ _ Hq'). lia. }
      cbn [negb]. unfold get_proc. mstep. change (w_procs (pworld pi w q' (w_mem w))) with (w_procs w).
      rewrite u64_small by lia. mcall Ec. cbn [fst snd]. change (0 =? -1) with false. cbv iota.
      unfold upd_pipe. msteps. f_equal. rewrite Hd. unfold pworld, pipe_put. rsimpl. by autorewrite with xv6.
    + exists (pipe_put x q'). split; [done|]. replace (Z.to_nat (i + 1)) with (S (Z.to_nat i)) by lia.
      rewrite (take_S_r _ _ x) by done. rewrite app_assoc. by apply pa_put.
  - exists v. split; [|exact E]. destruct Hv as (q' & -> & Hq'). exists q'. split; [done|].
    by rewrite Nat2Z.id, firstn_all in Hq'.
Qed.

(** ** Reading *)

(** One byte to the user. *)
Lemma copyout_byte root addr c env w :
  pt_wf (w_mem w) root → as_ok (w_mem w) root → 0 ≤ addr → ubyte (w_mem w) root addr ≠ None →
  ∃ m, copyout root addr (λ _, c) 1 env w = Ret 0 env (set_mem m w) ∧ wrote (w_mem w) m root addr (λ _, c) 0 1.
Proof.
  intros Hwf Has Ha Hc.
  destruct (copyout_loop_run (S (Z.to_nat 1)) root addr (λ _, c) 0 1 env w) as (r & m & k & E & W & R); try done; [lia|].
  destruct R as [(-> & -> & _)|(_ & Hk & R)]; [by exists m|]. replace (addr + k) with addr in R by lia. done.
Qed.

Lemma filled_snoc m m1 m2 root addr l x :
  filled m m1 root addr l → wrote m1 m2 root (addr + Z.of_nat (length l)) (λ _, x) 0 1 →
  filled m m2 root addr (l ++ [x]).
Proof.
  intros Hf W. pose proof Hf as (_ & Hwf & Has & _). eapply filled_app; [done|]. by apply (wrote_filled _ _ _ _ _ _ W).
Qed.

(** A round of the loop with a byte [x] at the front. *)
Lemma read_byte_run pi w p pp m x q i addr env :
  let root := p_pagetable (w_procs w p) in
  pipe_abs pp (x :: q) → pt_wf m root → as_ok m root → 0 ≤ addr + i < 2 ^ 64 → ubyte m root (addr + i) ≠ None →
  ∃ m', read_byte pi p addr i env (pworld pi w pp m) = Ret None env (pworld pi w (pipe_take pp) m') ∧
    pipe_abs (pipe_take pp) q ∧ wrote m m' root (addr + i) (λ _, x) 0 1.
Proof.
  intros root Ha Hwf Has Hadr Hu. destruct (pa_take _ _ Ha x q eq_refl) as [Hx Ht].
  destruct (copyout_byte root (addr + i) x env (pworld pi w (pipe_take pp) m)) as (m' & Ec & W); try done; [lia|].
  exists m'. split_and!; [|done|done].
  unfold read_byte, get_pipe. mstep. rewrite pworld_pipe, (proj2 (Z.eqb_neq _ _)).
  2:{ rewrite (pa_empty _ _ Ha). done. }
  rewrite Hx. unfold upd_pipe. mstep. unfold get_proc. mstep. rewrite u64_small by lia.
  assert (Ew : ∀ v, set_pipes (alter (λ p, set_pi_nread (u32 (pi_nread p + 1)) p) pi (w_pipes (pworld pi w pp m))) (pworld pi w pp m) = v →
    v = pworld pi w (pipe_take pp) m) by (intros v <-; unfold pworld; rsimpl; by autorewrite with xv6).
  rewrite (Ew _ eq_refl). change (p_pagetable (w_procs (pworld pi w (pipe_take pp) m) p)) with root. mcall Ec. reflexivity.
Qed.

Lemma piperead_loop pi w p q addr n env :
  let root := p_pagetable (w_procs w p) in
  let k := Z.min n (Z.of_nat (length q)) in
  pipe_abs (w_pipes w pi) q → pt_wf (w_mem w) root → as_ok (w_mem w) root →
  0 ≤ n → 0 ≤ addr → addr + n ≤ 2 ^ 64 → (∀ i, 0 ≤ i < k → ubyte (w_mem w) root (addr + i) ≠ None) →
  ∃ pp m r, for_find (seqZ 0 n) (read_byte pi p addr) env (locked_by (LPipe pi) w) = Ret r env (pworld pi w pp m) ∧
    default n r = k ∧ pipe_abs pp (drop (Z.to_nat k) q) ∧ filled (w_mem w) m root addr (take (Z.to_nat k) q).
Proof.
  intros root k Ha Hwf Has Hn Hadr Hend Hu.
  set (I := λ i v, ∃ pp m, v = pworld pi w pp m ∧ pipe_abs pp (drop (Z.to_nat i) q) ∧ filled (w_mem w) m root addr (take (Z.to_nat i) q)).
  assert (H0 : I 0 (locked_by (LPipe pi) w)).
  { exists (w_pipes w pi), (w_mem w). rewrite pworld_start. split_and!; [done|done|by apply filled_nil]. }
  assert (Hs : ∀ i v, 0 ≤ i < k → I i v → ∃ v', read_byte pi p addr i env v = Ret None env v' ∧ I (i + 1) v').
  { intros i v Hi (pp & m & -> & Hpp & Hf). destruct (lookup_lt_is_Some_2 q (Z.to_nat i)) as [x Hx]; [lia|].
    rewrite (drop_S q x) in Hpp by done. pose proof Hf as (Hfu & Hfwf & Hfas & Hfb).
    destruct (read_byte_run pi w p pp m x (drop (S (Z.to_nat i)) q) i addr env Hpp) as (m' & E & Ht & W); try done; [lia| |].
    { rewrite ubyte_None, Hfu, <-ubyte_None. apply Hu. lia. }
    exists (pworld pi w (pipe_take pp) m'). split; [done|]. exists (pipe_take pp), m'.
    replace (Z.to_nat (i + 1)) with (S (Z.to_nat i)) by lia. split_and!; [done|done|].
    rewrite (take_S_r _ _ x) by done. eapply filled_snoc; [done|]. rewrite length_take_le by lia.
    by rewrite Z2Nat.id by lia. }
  destruct (decide (n ≤ Z.of_nat (length q))) as [Hle|Hgt].
  - assert (k = n) as Ek by lia. rewrite Ek in Hs.
    destruct (for_find_through I n (read_byte pi p addr) env _ Hn H0 Hs) as (v & (pp & m & -> & Hpp & Hf) & E).
    exists pp, m, None. rewrite Ek. by split_and!.
  - assert (k = Z.of_nat (length q)) as Ek by lia.
    destruct (for_find_until I n k (read_byte pi p addr) env (locked_by (LPipe pi) w) k (λ v, v)) as (v & (pp & m & -> & Hpp & Hf) & E); [lia|done|done| |].
    + intros v (pp & m & -> & Hpp & Hf). unfold read_byte, get_pipe. mstep. rewrite pworld_pipe, (proj2 (Z.eqb_eq _ _)); [done|].
      apply (pa_empty _ _ Hpp). apply nil_length_inv. rewrite length_drop. lia.
    + exists pp, m, (Some k). by split_and!.
Qed.
(** A full pipe: the round of pipewrite fails, or sleeps. *)
Lemma pipe_full_waits pi w p addr q env :
  quiet w p → pipe_abs (w_pipes w pi) q → Z.of_nat (length q) = PIPESIZE →
  if negb (pi_readopen (w_pipes w pi)) || p_killed (w_procs w p) then
    write_byte pi p addr 0 env (locked_by (LPipe pi) w) = Ret (Some (-1)) env (settle w)
  else write_byte pi p addr 0 [] (locked_by (LPipe pi) w) =
    Blocked (asleep (CPipeWrite pi) p (set_procs (woken (CPipeRead pi) all_procs (w_procs w)) w)).
Proof.
  intros Hq Ha Hfull. pose proof (quiet_cpu_ok _ _ Hq) as Hok. destruct (negb _ || _) eqn:Eb; unfold write_byte, pipe_room.
  - mcall loop_wait_Some.
    + unfold get_pipe. mstep. change (w_pipes (locked_by (LPipe pi) w)) with (w_pipes w).
      rewrite (proj2 (Z.eqb_eq _ _)) by (by apply (pa_full _ _ Ha)). unfold get_proc. mstep.
      change (w_procs (locked_by (LPipe pi) w)) with (w_procs w). rewrite Eb. reflexivity.
    + cbn [negb]. mcall release_locked_by; [eauto with xv6..|]. reflexivity.
  - apply bind_Blocked. unfold loop_wait. cbn [loop length]. apply bind_Blocked. unfold get_pipe. mstep.
    change (w_pipes (locked_by (LPipe pi) w)) with (w_pipes w).
    rewrite (proj2 (Z.eqb_eq _ _)) by (by apply (pa_full _ _ Ha)). unfold get_proc. mstep.
    change (w_procs (locked_by (LPipe pi) w)) with (w_procs w). rewrite Eb.
    mcall wakeup_run; [by apply (cpu_ok_locked_by (LPipe pi) w)|by apply (procs_free_locked (LPipe pi) w); eauto with xv6|].
    rewrite settle_inside by (rewrite noff_locked_by; destruct Hok as (_ & ? & _); lia).
    apply bind_Blocked. by apply (sleep_blocks (CPipeWrite pi) (LPipe pi) p w); [apply quiet_calm| |].
Qed.

End Ops.

(** ** The properties *)

Module Fifo.
Section Props.
Context `{LayoutOk}.

(** C24: pipewrite appends to the pipe exactly the bytes in the user's buffer, in
    order, when there is room for them, returns their number and makes the
    sleeping readers runnable.  On a full pipe the writer makes the readers
    runnable and sleeps; it fails with -1 when there is no reader or it has been
    killed. *)
Theorem pipewrite_appends (w : world) (pi p addr : Z) (q l : list Z) env :
  let root := p_pagetable (w_procs w p) in
  quiet w p → pipe_abs (w_pipes w pi) q → pt_wf (w_mem w) root → 0 ≤ addr → addr + Z.of_nat (length l) ≤ 2 ^ 64 →
  (∀ i x, l !! i = Some x → ubyte (w_mem w) root (addr + Z.of_nat i) = Some x) →
  (Z.of_nat (length q + length l) ≤ PIPESIZE →
    ∃ pp, pipewrite pi addr (Z.of_nat (length l)) env w = Ret (Z.of_nat (length l)) env
        (set_procs (woken (CPipeRead pi) all_procs (w_procs w)) (set_pipes (<[pi := pp]> (w_pipes w)) (settle w))) ∧
      pipe_abs pp (q ++ l)) ∧
  (Z.of_nat (length q) = PIPESIZE → l ≠ [] →
    if negb (pi_readopen (w_pipes w pi)) || p_killed (w_procs w p) then
      pipewrite pi addr (Z.of_nat (length l)) env w = Ret (-1) env (settle w)
    else pipewrite pi addr (Z.of_nat (length l)) [] w =
      Blocked (asleep (CPipeWrite pi) p (set_procs (woken (CPipeRead pi) all_procs (w_procs w)) w))).
Proof.
  intros root Hq Ha Hwf Hadr Hend Hl. unfold pipewrite. split.
  - intros Hlen. destruct (pipewrite_loop pi w p q l addr env) as (v & (pp & -> & Hpp) & E); try done.
    exists pp. split; [|done]. etransitivity; [by apply enter_as|]. mcall E. rewrite bool_decide_false by done.
    etransitivity; [by apply (pipe_leave pi w p)|]. cbn [default]. rewrite Z.max_r by lia. reflexivity.
  - intros Hfull Hne. destruct l as [|c l]; [done|]. pose proof (pipe_full_waits pi w p addr q env Hq Ha Hfull) as E.
    destruct (negb _ || _); (etransitivity; [by apply enter_as|]);
      cbv beta; rewrite seqZ_cons by (cbn; lia); cbn [for_find].
    + mstep. mcall E. cbv iota. mstep. rewrite bool_decide_true by done. reflexivity.
    + by do 2 apply bind_Blocked.
Qed.

(** C25: piperead takes bytes off the front of the pipe, in order, as many as there are
    but at most [n], puts them into the user's buffer and nothing else, returns
    their number and makes the sleeping writers runnable.  An empty pipe is the
    end of the file once the write end is closed; before, it makes the reader
    sleep, or fail with -1 when it has been killed. *)
Theorem piperead_takes (w : world) (pi p addr n : Z) (q : list Z) env :
  let root := p_pagetable (w_procs w p) in
  let k := Z.min n (Z.of_nat (length q)) in
  quiet w p → pipe_abs (w_pipes w pi) q → pt_wf (w_mem w) root → as_ok (w_mem w) root →
  0 ≤ n → 0 ≤ addr → addr + n ≤ 2 ^ 64 → (∀ i, 0 ≤ i < k → ubyte (w_mem w) root (addr + i) ≠ None) →
  (q ≠ [] ∨ pi_writeopen (w_pipes w pi) = false →
    ∃ pp m, piperead pi addr n env w = Ret k env
        (set_procs (woken (CPipeWrite pi) all_procs (w_procs w)) (set_mem m (set_pipes (<[pi := pp]> (w_pipes w)) (settle w)))) ∧
      pipe_abs pp (drop (Z.to_nat k) q) ∧ filled (w_mem w) m root addr (take (Z.to_nat k) q)) ∧
  (q = [] → pi_writeopen (w_pipes w pi) = true →
    if p_killed (w_procs w p) then piperead pi addr n env w = Ret (-1) env (settle w)
    else piperead pi addr n [] w = Blocked (asleep (CPipeRead pi) p w)).
Proof.
  intros root k Hq Ha Hwf Has Hn Hadr Hend Hu. unfold piperead. split.
  - intros Hne. destruct (piperead_loop pi w p q addr n env) as (pp & m & r & E & Er & Hpp & Hf); try done.
    exists pp, m. split_and!; [|done|done]. etransitivity; [by apply enter_as|].
    mcall loop_wait_Some.
    { unfold get_pipe. mstep. change (w_pipes (locked_by (LPipe pi) w)) with (w_pipes w).
      destruct Hne as [Hne| ->]; [|by rewrite andb_false_r].
      rewrite (proj2 (Z.eqb_neq _ _)); [reflexivity|]. by rewrite (pa_empty _ _ Ha). }
    cbn [negb]. mcall E. etransitivity; [by apply (pipe_leave pi w p)|]. rewrite Z.max_r, Er by lia. reflexivity.
  - intros -> Hwo. assert (Ee : pi_nread (w_pipes w pi) = pi_nwrite (w_pipes w pi)) by (by apply (pa_empty _ _ Ha)).
    destruct (p_killed (w_procs w p)) eqn:Ek; (etransitivity; [by apply enter_as|]).
    + mcall loop_wait_Some.
      { unfold get_pipe. mstep. change (w_pipes (locked_by (LPipe pi) w)) with (w_pipes w).
        rewrite (proj2 (Z.eqb_eq _ _) Ee), Hwo. cbn [andb]. unfold get_proc. mstep.
        change (w_procs (locked_by (LPipe pi) w)) with (w_procs w). rewrite Ek. reflexivity. }
      cbn [negb]. mcall release_locked_by; [eauto with xv6..|]. reflexivity.
    + apply bind_Blocked. unfold pipe_input, loop_wait. cbn [loop length]. apply bind_Blocked. unfold get_pipe. mstep.
      change (w_pipes (locked_by (LPipe pi) w)) with (w_pipes w). rewrite (proj2 (Z.eqb_eq _ _) Ee), Hwo. cbn [andb].
      unfold get_proc. mstep. change (w_procs (locked_by (LPipe pi) w)) with (w_procs w). rewrite Ek. apply bind_Blocked.
      exact (sleep_blocks (CPipeRead pi) (LPipe pi) p w (locked_by (LPipe pi) w) (quiet_calm _ _ Hq) ltac:(done) (inside_self _ w)).
Qed.
End Props.
End Fifo.

Module SamplePipe.
Import Sample.
#[local] Existing Instance sample_layout.
#[local] Existing Instance sample_layout_ok.

(** Process 1 with one page of memory, and a pipe with two bytes in it. *)
Definition pipe0 : pipe := mkPipe (<[3 := 7]> (<[4 := 9]> zeroes)) 3 5 true true.
Definition pipe_world : world :=
  set_mem m3 (set_pipes (λ _, pipe0) (set_procs (<[1 := set_p_pagetable (page 0) (set_p_pid 1 (set_p_state RUNNING zero_proc))]>
    (w_procs image_world)) (running_world (λ _, zeroes)))).

Lemma pipe_world_quiet : quiet pipe_world 1.
Proof. exact (running_world_quiet (λ _, zeroes)). Qed.

Lemma pipe0_abs : pipe_abs pipe0 [7; 9].
Proof. by split. Qed.

Lemma pipewrite_appends_witness :
  ∃ w' pp, pipewrite 4096 0 2 [] pipe_world = Ret 2 [] w' ∧ w_pipes w' 4096 = pp ∧ pipe_abs pp [7; 9; 0; 0].
Proof.
  destruct (Fifo.pipewrite_appends pipe_world 4096 1 0 [7; 9] [0; 0] [] pipe_world_quiet pipe0_abs wf3 ltac:(lia) ltac:(done)) as [H _].
  - intros i x Hi. assert (x = 0 ∧ Z.of_nat i < 2) as [-> Hlt].
    { destruct i as [|[|]]; cbn in Hi; simplify_eq; lia. }
    change (ubyte m3 (page 0) (0 + Z.of_nat i) = Some 0). unfold ubyte. rewrite uaddr3, decide_True by (unfold PGSIZE; lia).
    destruct i as [|[|]]; [reflexivity|reflexivity|lia].
  - destruct H as (pp & E & Hpp); [done|]. eexists _, pp. split_and!; [exact E| |exact Hpp].
    change ((<[4096 := pp]> (w_pipes pipe_world)) 4096 = pp). apply fn_lookup_insert.
Defined.

Lemma piperead_takes_witness :
  ∃ w', piperead 4096 0 5 [] pipe_world = Ret 2 [] w' ∧ ubyte (w_mem w') (page 0) 1 = Some 9.
Proof.
  destruct (Fifo.piperead_takes pipe_world 4096 1 0 5 [7; 9] [] pipe_world_quiet pipe0_abs wf3 as3 ltac:(lia) ltac:(lia) ltac:(done)) as [H _].
  - intros i Hi. apply mapped3. change (Z.min 5 (Z.of_nat (length [7; 9]))) with 2 in Hi. unfold PGSIZE. lia.
  - destruct H as (pp & m & E & _ & (_ & _ & _ & Hf)); [by left|]. eexists. split; [exact E|].
    change (ubyte m (page 0) 1 = Some 9). etransitivity; [apply Hf; lia|]. reflexivity.
Defined.
End SamplePipe.
