(* ===== verification/File.v ===== *)
(** * file.c: open files; pipealloc

    A struct file pointer is its index in ftable.file.  The only device in devsw
    is the console. *)

From S2P Require Import Prelude Types StringC Spinlock Kalloc Vm Sched Sleeplock Run Bio Log Fs Riscv Uart Printf Console Pipe.

Definition get_file (f : Z) : K file := gets (λ w, w_files w f).
Definition upd_file (f : Z) (g : file → file) : K unit :=
  modify (λ w, set_files (alter g f (w_files w)) w).

Definition fileinit : K unit := initlock LFtable "ftable".

Definition filealloc : K (option Z) :=
  acquire LFtable ;;
  r <- for_find (seqZ 0 NFILE) (λ f,
    fl <- get_file f ;;
    if f_ref fl =? 0 then
      upd_file f (set_f_ref 1) ;;
      release LFtable ;;
      ret (Some f)
    else ret None) ;;
  match r with
  | Some f => ret (Some f)
  | None => release LFtable ;; ret None
  end.

Definition filedup (f : Z) : K Z :=
  acquire LFtable ;;
  fl <- get_file f ;;
  if f_ref fl <? 1 then panic "filedup" else
  upd_file f (λ fl, set_f_ref (f_ref fl + 1) fl) ;;
  release LFtable ;;
  ret f.

Definition sizeof_stat : Z := 24.

Section File.
Context `{DiskOps} `{Layout}.

Definition fileclose (f : Z) : K unit :=
  acquire LFtable ;;
  fl <- get_file f ;;
  if f_ref fl <? 1 then panic "fileclose" else
  upd_file f (λ fl, set_f_ref (f_ref fl - 1) fl) ;;
  ff <- get_file f ;;
  if f_ref ff >? 0 then release LFtable else
  upd_file f (set_f_ref 0) ;;
  upd_file f (set_f_type FD_NONE) ;;
  release LFtable ;;
  match f_type ff with
  | FD_PIPE => pipeclose (f_pipe ff) (f_writable ff)
  | FD_INODE | FD_DEVICE =>
      begin_op ;;
      ip <- deref (f_ip ff) ;;
      iput ip ;;
      end_op
  | FD_NONE => ret tt
  end.

(** [st] is the uninitialised struct stat on the stack. *)
Definition filestat (f addr : Z) (st : bytes) : K Z :=
  mp <- myproc ;;
  fl <- get_file f ;;
  match f_type fl with
  | FD_INODE | FD_DEVICE =>
      ilock (f_ip fl) ;;
      ip <- deref (f_ip fl) ;;
      st <- stati ip st ;;
      iunlock (f_ip fl) ;;
      p <- deref mp ;;
      pr <- get_proc p ;;
      e <- copyout (p_pagetable pr) addr st sizeof_stat ;;
      if e <? 0 then ret (-1) else ret 0
  | _ => ret (-1)
  end.

Definition fileread (f addr n : Z) : K Z :=
  fl <- get_file f ;;
  if negb (f_readable fl) then ret (-1) else
  match f_type fl with
  | FD_PIPE => piperead (f_pipe fl) addr n
  | FD_DEVICE =>
      dv <- gets (λ w, w_devsw w) ;;
      if (f_major fl <? 0) || (f_major fl >=? NDEV) || negb (dv (f_major fl)) then ret (-1) else
      r <- consoleread true addr zeroes n ;;
      ret r.1
  | FD_INODE =>
      ilock (f_ip fl) ;;
      ip <- deref (f_ip fl) ;;
      fl <- get_file f ;;
      x <- readi ip true addr zeroes (f_off fl) (u32 n) ;;
      let r := i32 x.1 in
      when (r >? 0) (upd_file f (λ fl, set_f_off (u32 (f_off fl + r)) fl)) ;;
      iunlock (f_ip fl) ;;
      ret r
  | FD_NONE => panic "fileread"
  end.

(** int max = ((MAXOPBLOCKS-1-1-2) / 2) * BSIZE *)
Definition write_max : Z := (MAXOPBLOCKS - 1 - 1 - 2) / 2 * BSIZE.

(** while (i < n): each round writes n1 bytes or ends the loop, so that
    n / max + 2 rounds are enough, the last one included, which finds i = n; the result is the [i] at the end. *)
Fixpoint filewrite_loop (fuel : nat) (f addr n i : Z) : K Z :=
  match fuel with
  | O => λ _ _, NoFuel
  | S fuel =>
      if negb (i <? n) then ret i else
      let n1 := if n - i >? write_max then write_max else n - i in
      begin_op ;;
      fl <- get_file f ;;
      ilock (f_ip fl) ;;
      ip <- deref (f_ip fl) ;;
      fl <- get_file f ;;
      r <- writei ip true (u64 (addr + i)) zeroes (f_off fl) n1 ;;
      when (r >? 0) (upd_file f (λ fl, set_f_off (u32 (f_off fl + r)) fl)) ;;
      iunlock (f_ip fl) ;;
      end_op ;;
      if r <? 0 then ret i else
      if negb (r =? n1) then panic "short filewrite" else
      filewrite_loop fuel f addr n (i + r)
  end.

Definition filewrite (f addr n : Z) : K Z :=
  fl <- get_file f ;;
  if negb (f_writable fl) then ret (-1) else
  match f_type fl with
  | FD_PIPE => pipewrite (f_pipe fl) addr n
  | FD_DEVICE =>
      dv <- gets (λ w, w_devsw w) ;;
      if (f_major fl <? 0) || (f_major fl >=? NDEV) || negb (dv (f_major fl)) then ret (-1) else
      consolewrite true addr zeroes n
  | FD_INODE =>
      i <- filewrite_loop (S (S (Z.to_nat (n / write_max)))) f addr n 0 ;;
      ret (if i =? n then n else -1)
  | FD_NONE => panic "filewrite"
  end.

(** pipe.c.  [None] is the result -1. *)
Definition pipealloc : K (option (Z * Z)) :=
  f0 <- filealloc ;;
  f1 <- (match f0 with Some _ => filealloc | None => ret None end) ;;
  pi <- (match f0, f1 with Some _, Some _ => kalloc | _, _ => ret 0 end) ;;
  match f0, f1 with
  | Some r, Some w =>
      if pi =? 0 then fileclose r ;; fileclose w ;; ret None else
      upd_pipe pi (set_pi_readopen true) ;;
      upd_pipe pi (set_pi_writeopen true) ;;
      upd_pipe pi (set_pi_nwrite 0) ;;
      upd_pipe pi (set_pi_nread 0) ;;
      initlock (LPipe pi) "pipe" ;;
      upd_file r (set_f_type FD_PIPE) ;;
      upd_file r (set_f_readable true) ;;
      upd_file r (set_f_writable false) ;;
      upd_file r (set_f_pipe pi) ;;
      upd_file w (set_f_type FD_PIPE) ;;
      upd_file w (set_f_readable false) ;;
      upd_file w (set_f_writable true) ;;
      upd_file w (set_f_pipe pi) ;;
      ret (Some (r, w))
  | Some r, None => fileclose r ;; ret None
  | None, _ => ret None
  end.

End File.
