(* ===== verification/FsCall.v ===== *)
(** * Writing a file: from the system call to the disk

    filewrite cuts a write into transactions of a few blocks each.  Each one locks
    the inode, writes, unlocks it and commits; a crash in between leaves the pieces
    that were committed. *)

From S2P Require Import Prelude Types StringC Spinlock Kalloc PageTable Vm VmCopy Sched Sleeplock Run Bio Cache BioProps Log Recover LogOps Tx Fs FsPure Icache FsBlocks FsFile FsWrite FsProps FsDir FsPath.
From S2P Require Import Riscv Uart Printf Console Pipe File.

(** ** Inodes on disk *)

Lemma load_store_other ip d o o' jp : o' + sizeof_dinode ≤ o ∨ o + sizeof_dinode ≤ o' → load_dinode (store_dinode ip d o) o' jp = load_dinode d o' jp.
Proof.
  intros Ho. change sizeof_dinode with 64 in Ho. unfold load_dinode, ld16, ld32.
  rewrite !store_dinode_ld by (change sizeof_dinode with 64; lia). f_equal. extensionality i. destruct ((0 <=? i) && (i <=? NDIRECT)) eqn:E; [|done].
  unfold NDIRECT in E. by rewrite store_dinode_ld by (change sizeof_dinode with 64; lia).
Qed.

Lemma same_dinode_sym a b : same_dinode a b → same_dinode b a.
Proof. intros (E1 & E2 & E3 & E4 & E5 & E6). split_and!; try done. intros i Hi. by rewrite E6. Qed.

Lemma same_dinode_trans a b c : same_dinode a b → same_dinode b c → same_dinode a c.
Proof. intros (E1 & E2 & E3 & E4 & E5 & E6) (F1 & F2 & F3 & F4 & F5 & F6). split_and!; try congruence. intros i Hi. by rewrite E6, F6. Qed.

Lemma same_dinode_fits a b : same_dinode a b → dinode_fits b → dinode_fits a.
Proof.
  intros (E1 & E2 & E3 & E4 & E5 & E6) [F1 F2 F3 F4 F5 F6]. split; rewrite ?E1, ?E2, ?E3, ?E4, ?E5; try done. intros i Hi. rewrite E6 by done. by apply F6.
Qed.

(** Inodes of one block lie apart. *)
Lemma IBLOCK_apart sb i j :
  0 ≤ sb_inodestart sb < 2 ^ 31 → 0 ≤ i < 2 ^ 16 → 0 ≤ j < 2 ^ 16 → i ≠ j → IBLOCK i sb = IBLOCK j sb →
  i `mod` IPB * sizeof_dinode + sizeof_dinode ≤ j `mod` IPB * sizeof_dinode ∨ j `mod` IPB * sizeof_dinode + sizeof_dinode ≤ i `mod` IPB * sizeof_dinode.
Proof.
  intros Hs Hi Hj Hne E. unfold IBLOCK in E. change IPB with 16 in *. change sizeof_dinode with 64.
  assert (H1 : 0 ≤ i / 16 < 2 ^ 16 ∧ 0 ≤ j / 16 < 2 ^ 16) by (Z.to_euclidean_division_equations; lia).
  rewrite !u32_small in E by lia. assert (i / 16 = j / 16) by lia. Z.to_euclidean_division_equations; lia.
Qed.

(** ** What a write does to the disk *)

(** The file [i], with room for [e] bytes, has the bytes [l] at [off], and is as it
    was otherwise. *)
Definition written (sb : superblock) (V V' : Z → bytes) (i e off : Z) (l : list Z) : Prop :=
  let d := disk_inode V sb i in let d' := disk_inode V' sb i in
  i_size d' = (match l with [] => i_size d | _ => Z.max (i_size d) (off + Z.of_nat (length l)) end) ∧ i_type d' = i_type d ∧ i_nlink d' = i_nlink d ∧
  ∀ o, 0 ≤ o < e → file_byte V' d' o =
    if decide (off ≤ o < off + Z.of_nat (length l)) then default 0 (l !! Z.to_nat (o - off)) else file_byte V d o.

Lemma written_nil sb V i e off : written sb V V i e off [].
Proof. split_and!; try done. intros o Ho. rewrite decide_False; [done|]. cbn. lia. Qed.

Lemma written_app sb V V1 V2 i e off l1 l2 :
  written sb V V1 i e off l1 → written sb V1 V2 i e (off + Z.of_nat (length l1)) l2 → written sb V V2 i e off (l1 ++ l2).
Proof.
  intros (S1 & T1 & N1 & B1) (S2 & T2 & N2 & B2). split_and!; [|congruence..|].
  - rewrite S2, S1. destruct l1 as [|x l1], l2 as [|y l2]; cbn [app length]; rewrite ?length_app; cbn [length]; rewrite ?app_nil_r; lia || (f_equal; lia) || done.
  - intros o Ho. rewrite B2, B1, length_app by done.
    destruct (decide (off + Z.of_nat (length l1) ≤ o < off + Z.of_nat (length l1) + Z.of_nat (length l2))).
    + rewrite decide_True, lookup_app_r by lia. do 2 f_equal. lia.
    + destruct (decide (off ≤ o < off + Z.of_nat (length l1))); [by rewrite decide_True, lookup_app_l by lia|by rewrite decide_False by lia].
Qed.

Lemma same_dinode_elsewhere V a b e n : same_dinode a b → elsewhere V b e n → elsewhere V a e n.
Proof.
  intros E [E1 E2]. pose proof E as (_ & _ & _ & _ & _ & E6). split.
  - intros bn H0 Hb. rewrite (same_dinode_block _ _ _ _ E) by done. by apply E1.
  - rewrite (E6 NDIRECT) by (unfold NDIRECT; lia). exact E2.
Qed.

Lemma same_dinode_writable w H a b e : same_dinode a b → i_dev a = ROOTDEV → writable_file w H b e → writable_file w H a e.
Proof.
  intros E Hd [[M1 M2 M3 M4] W2 W3 W4]. pose proof E as (_ & _ & _ & _ & _ & E6).
  assert (Eb : ∀ bn, 0 ≤ bn → block_of (view w) a bn = block_of (view w) b bn) by (intros; by apply same_dinode_block).
  assert (EN : i_addrs a NDIRECT = i_addrs b NDIRECT) by (apply E6; unfold NDIRECT; lia).
  split; [split; try done|..].
  - intros bn H0 Hb. rewrite Eb by done. by apply M3.
  - by rewrite EN.
  - intros bn H0 Hb. rewrite Eb by done. by apply W2.
  - intros bn bn' H0 Hb H0' Hb'. rewrite !Eb by done. by apply W3.
  - intros bn H0 Hb He. rewrite Eb, EN by done. by apply W4.
Qed.

Section Effect.
Context (V V1 : Z → bytes) (sb : superblock) (r : inode) (i e off : Z) (l : list Z).
Let d := disk_inode V sb i.
Let n := IBLOCK i sb.
Let k := Z.of_nat (length l).
Let V' := <[n := store_dinode (grown r off k) (V n) (i `mod` IPB * sizeof_dinode)]> V1.
Context (Hr : same_dinode r d) (Hfit : dinode_fits d) (Hov : overwritten V V1 r e off l) (Hel : elsewhere V r e n).
Context (Hoff : 0 ≤ off) (Hne : l ≠ []) (He : off + k ≤ e) (Hmax : e ≤ MAXFILE * BSIZE).

Lemma effect_dinode : same_dinode (disk_inode V' sb i) (grown r off k).
Proof using Hr Hfit He Hmax Hoff.
  unfold disk_inode. fold n. unfold V'. rewrite fn_lookup_insert. apply load_store_dinode.
  pose proof (same_dinode_fits _ _ Hr Hfit) as [D1 D2 D3 D4 D5 D6]. destruct (grown_fields r off k) as (F1 & F2 & F3 & F4). change (MAXFILE * BSIZE) with 274432 in Hmax.
  assert (0 ≤ k) by (unfold k; lia). split; rewrite ?F1, ?F4; try done; [..|lia]; unfold grown; by case_match.
Qed.

Lemma effect_written : written sb V V' i e off l.
Proof using Hr Hfit Hov Hel Hoff Hne He Hmax.
  pose proof effect_dinode as Es. pose proof Es as (E1 & _ & _ & E4 & E5 & _). pose proof Hr as (R1 & _ & _ & R4 & R5 & _).
  destruct (grown_fields r off k) as (F1 & F2 & F3 & F4). split_and!.
  - rewrite E5, F4, R5. by destruct l.
  - rewrite E1. etransitivity; [|exact R1]. unfold grown. by case_match.
  - rewrite E4. etransitivity; [|exact R4]. unfold grown. by case_match.
  - intros o Ho. rewrite (same_dinode_byte _ _ _ _ Es), (file_byte_addrs _ r) by (done || lia). unfold V'.
    rewrite (elsewhere_byte V1 n _ r e) by (done || by eapply elsewhere_over). destruct Hov as (Hb & _). rewrite Hb by done. case_decide; [done|].
    apply same_dinode_byte; [done|lia].
Qed.

Lemma effect_other j : 0 ≤ sb_inodestart sb < 2 ^ 31 → 0 ≤ i < 2 ^ 16 → 0 ≤ j < 2 ^ 16 → j ≠ i → elsewhere V r e (IBLOCK j sb) → disk_inode V' sb j = disk_inode V sb j.
Proof using Hov Hel.
  intros Hs Hi Hj Hne' Hej. destruct Hov as (_ & Ho & _). unfold disk_inode, V'. rewrite fn_lookup_insert_if. case_decide as E; [|by rewrite (Ho _ Hej)].
  unfold n in E. rewrite load_store_other; [unfold n; by rewrite E|]. destruct (IBLOCK_apart sb i j Hs Hi Hj) as [?|?]; auto.
Qed.

(** The blocks of the file are where they were. *)
Lemma effect_block bn : 0 ≤ bn → bn * BSIZE < e → block_of V' (disk_inode V' sb i) bn = block_of V d bn.
Proof using Hr Hfit Hov Hel Hoff Hne He Hmax.
  intros H0 Hb. rewrite (same_dinode_block _ _ _ _ effect_dinode) by done. rewrite <-(same_dinode_block V r d) by done.
  destruct (grown_fields r off k) as (F1 & _). destruct Hov as (_ & _ & Hi). unfold block_of. rewrite F1. destruct (Z.ltb_spec bn NDIRECT); [done|].
  assert (He' : NDIRECT * BSIZE < e) by (unfold BSIZE in *; lia). unfold V'. rewrite fn_lookup_insert_ne by (by destruct Hel; auto). by rewrite Hi.
Qed.
End Effect.

(** ** The file that is written *)

(** Block [n] may go through the log at [ls]. *)
Definition free_block (ls n : Z) : Prop := 0 ≤ n < 2 ^ 31 ∧ outside ls n.

(** [ip] is a file with blocks for [e] bytes, none of them used twice or holding
    inodes. *)
Record file_ok (V : Z → bytes) (sb : superblock) (ls : Z) (f : Z → inode) (ip i e : Z) : Prop := {
  fo_ref : ref_to f ip i;
  fo_fits : dinode_fits (disk_inode V sb i);
  fo_type : i_type (disk_inode V sb i) ≠ 0;
  fo_size : 0 ≤ i_size (disk_inode V sb i) ≤ e;
  fo_max : e ≤ MAXFILE * BSIZE;
  fo_block bn : 0 ≤ bn → bn * BSIZE < e → block_of V (disk_inode V sb i) bn ≠ 0 ∧ free_block ls (block_of V (disk_inode V sb i) bn);
  fo_inj bn bn' : 0 ≤ bn → bn * BSIZE < e → 0 ≤ bn' → bn' * BSIZE < e →
    block_of V (disk_inode V sb i) bn = block_of V (disk_inode V sb i) bn' → bn = bn';
  fo_ind : NDIRECT * BSIZE < e → let a := i_addrs (disk_inode V sb i) NDIRECT in
    a ≠ 0 ∧ free_block ls a ∧ ∀ bn, 0 ≤ bn → bn * BSIZE < e → block_of V (disk_inode V sb i) bn ≠ a;
  fo_inodes j : (j = i ∨ ∃ jp, ref_to f jp j) → 0 ≤ j < 2 ^ 16 ∧ free_block ls (IBLOCK j sb) ∧ elsewhere V (disk_inode V sb i) e (IBLOCK j sb);
  fo_sb : 0 ≤ sb_inodestart sb < 2 ^ 31
}.

Lemma file_writable w ip i e : file_ok (view w) (w_sb w) (l_start (w_log w)) (w_inodes w) ip i e → writable_file w [] (disk_inode (view w) (w_sb w) i) e.
Proof.
  intros [F1 F2 F3 F4 F5 F6 F7 F8 F9 F10]. split; [split|..]; try done.
  - intros bn H0 Hb. destruct (F6 bn H0 Hb) as [? [? _]]. split_and!; [done..|apply not_elem_of_nil].
  - intros Hi. destruct (F8 Hi) as (? & [? _] & _). split_and!; [done..|apply not_elem_of_nil].
  - intros bn H0 Hb. by apply F6.
  - intros bn H0 Hb Hi. by apply F8.
Qed.

(** The file stays good when its blocks stay in place. *)
Lemma file_ok_keep V V' sb ls f f' ip i e :
  file_ok V sb ls f ip i e → (∀ jp j, ref_to f' jp j ↔ ref_to f jp j) →
  (∀ bn, 0 ≤ bn → bn * BSIZE < e → block_of V' (disk_inode V' sb i) bn = block_of V (disk_inode V sb i) bn) →
  i_addrs (disk_inode V' sb i) NDIRECT = i_addrs (disk_inode V sb i) NDIRECT → dinode_fits (disk_inode V' sb i) →
  i_type (disk_inode V' sb i) = i_type (disk_inode V sb i) → 0 ≤ i_size (disk_inode V' sb i) ≤ e → file_ok V' sb ls f' ip i e.
Proof.
  intros [F1 F2 F3 F4 F5 F6 F7 F8 F9 F10] Hr Hb Ha Hf Ht Hs. split; try done.
  - by apply Hr.
  - by rewrite Ht.
  - intros bn H0 H1. rewrite Hb by done. by apply F6.
  - intros bn bn' H0 H1 H0' H1'. rewrite !Hb by done. by apply F7.
  - intros Hi. rewrite Ha. destruct (F8 Hi) as (A1 & A2 & A3). split_and!; try done; try apply A2. intros bn H0 H1. rewrite Hb by done. by apply A3.
  - intros j Hj. destruct (F9 j) as (J1 & J2 & J3 & J4). { destruct Hj as [->|[jp Hj]]; [by left|right; exists jp; by apply Hr]. }
    split_and!; try apply J1; try apply J2. split; [|by rewrite Ha]. intros bn H0 H1. rewrite Hb by done. by apply J3.
Qed.

(** Two disks that agree outside the log have the same file. *)
Lemma ld_block (k : nat) o (d d' : bytes) : d ≈b d' → 0 ≤ o → o + Z.of_nat k ≤ BSIZE → ld (Z.of_nat k) d o = ld (Z.of_nat k) d' o.
Proof. intros E H0 H1. apply ld_ext. intros x Hx. apply E. lia. Qed.

Lemma agree_inode V V' sb ls f ip i e j :
  file_ok V sb ls f ip i e → (j = i ∨ ∃ jp, ref_to f jp j) → (∀ n, outside ls n → V' n ≈b V n) → disk_inode V' sb j = disk_inode V sb j.
Proof.
  intros F Hj HV. destruct (fo_inodes _ _ _ _ _ _ _ F j Hj) as (_ & [_ Ho] & _). pose proof (HV _ Ho) as E.
  assert (Hm : 0 ≤ j `mod` IPB < 16) by (apply Z.mod_pos_bound; done). unfold disk_inode, load_dinode. change sizeof_dinode with 64. change BSIZE with 1024 in *.
  assert (L16 : ∀ a, 0 ≤ a ≤ 62 → ld16 (V' (IBLOCK j sb)) (j `mod` IPB * 64 + a) = ld16 (V (IBLOCK j sb)) (j `mod` IPB * 64 + a)) by (intros a Ha; apply (ld_block 2); [done|lia|change BSIZE with 1024; lia]).
  assert (L32 : ∀ a, 0 ≤ a ≤ 60 → ld32 (V' (IBLOCK j sb)) (j `mod` IPB * 64 + a) = ld32 (V (IBLOCK j sb)) (j `mod` IPB * 64 + a)) by (intros a Ha; apply (ld_block 4); [done|lia|change BSIZE with 1024; lia]).
  pose proof (L16 0 ltac:(lia)) as L0. rewrite Z.add_0_r in L0. rewrite L0, !L16, L32 by lia. f_equal. extensionality x. cbn.
  destruct ((0 <=? x) && (x <=? NDIRECT)) eqn:Ex; [|done]. unfold NDIRECT in Ex. rewrite <-!Z.add_assoc. apply L32. lia.
Qed.

Lemma agree_block V V' sb ls f ip i e bn :
  file_ok V sb ls f ip i e → (∀ n, outside ls n → V' n ≈b V n) → 0 ≤ bn → bn * BSIZE < e → block_of V' (disk_inode V sb i) bn = block_of V (disk_inode V sb i) bn.
Proof.
  intros F HV H0 Hb. unfold block_of. destruct (Z.ltb_spec bn NDIRECT) as [|Hn]; [done|]. pose proof (fo_max _ _ _ _ _ _ _ F) as Hm. change (MAXFILE * BSIZE) with 274432 in Hm.
  destruct (fo_ind _ _ _ _ _ _ _ F) as (_ & [_ Ho] & _); [unfold BSIZE in *; lia|]. apply (ld_block 4); [by apply HV|lia|]. unfold NDIRECT, BSIZE in *. lia.
Qed.

Lemma agree_byte V V' sb ls f ip i e o :
  file_ok V sb ls f ip i e → (∀ n, outside ls n → V' n ≈b V n) → 0 ≤ o < e → file_byte V' (disk_inode V sb i) o = file_byte V (disk_inode V sb i) o.
Proof.
  intros F HV Ho. destruct (in_file o e Ho) as [H0 Hb]. unfold file_byte. rewrite (agree_block _ _ _ _ _ _ _ _ _ F HV H0 Hb).
  apply HV; [by apply (fo_block _ _ _ _ _ _ _ F)|]. by apply Z.mod_pos_bound.
Qed.

Lemma agree_written V V1 V2 sb ls f ip i e off l :
  file_ok V1 sb ls f ip i e → (∀ n, outside ls n → V2 n ≈b V1 n) → written sb V V1 i e off l → written sb V V2 i e off l.
Proof.
  intros F HV (W1 & W2 & W3 & W4). unfold written. rewrite (agree_inode _ _ _ _ _ _ _ _ i F (or_introl eq_refl) HV). split_and!; try done.
  intros o Ho. rewrite (agree_byte _ _ _ _ _ _ _ _ _ F HV Ho). by apply W4.
Qed.

Lemma agree_ok V V' sb ls f ip i e : file_ok V sb ls f ip i e → (∀ n, outside ls n → V' n ≈b V n) → file_ok V' sb ls f ip i e.
Proof.
  intros F HV. pose proof (agree_inode _ _ _ _ _ _ _ _ i F (or_introl eq_refl) HV) as Ed. apply (file_ok_keep V V' sb ls f f); rewrite ?Ed; try done; try apply F.
  intros bn H0 Hb. by apply (agree_block _ _ _ _ _ _ _ _ _ F HV).
Qed.

(** ** One transaction *)

Section Round.
Context {D : DiskOps} {HD : Disk D} {LY : Layout} {LK : LayoutOk LY}.
Context (p : Z).

(** No transaction is running. *)
Record idle (w : world) : Prop := {
  id_calm : calm p [] [] w None;
  id_log : logging w [] 0;
  id_head : lh_n (w_disk w (l_start (w_log w))) = 0
}.

Definition good (w : world) (ip i e : Z) : Prop := file_ok (view w) (w_sb w) (l_start (w_log w)) (w_inodes w) ip i e.

Lemma idle_clean w n : idle w → view w n = w_disk w n.
Proof. intros [C _ _]. apply (bstore_clean _ _ _ _ n (bk_store _ _ _ _ (cm_blocks _ _ _ _ _ C))). unfold refs, pins. by rewrite !bool_decide_false by apply not_elem_of_nil. Qed.

Lemma calm_frame L w w' lk :
  calm p L [] w lk → blocks w' p L [] → w_inodes w' = w_inodes w → view w' = view w → w_sb w' = w_sb w → w_procs w' = w_procs w →
  (∀ ip, w_slk w' (SInode ip) = w_slk w (SInode ip)) → calm p L [] w' lk.
Proof.
  intros [C1 C2 C3 C4 C5] Hb Ei Ev Es Ep El. split; rewrite ?Ei, ?Ev, ?Es, ?Ep; try done. intros ip Hi. rewrite El. by apply C5.
Qed.

Lemma begin_idle w : idle w → let w1 := set_log (set_l_outstanding 1 (w_log w)) w in runs begin_op w tt w1 ∧ calm p [] [] w1 None ∧ logging w1 [] 1.
Proof.
  intros [C G Hh] w1. split; [|split].
  - apply (begin_op_run w p [] 0); [apply (calm_quiet _ _ _ _ _ C)|done|done].
  - apply (calm_frame [] w); try done. destruct (cm_blocks _ _ _ _ _ C) as [B1 B2 B3]. split; [exact B1|by apply (bstore_frame w)|done].
  - destruct G as [[] G2 G3 G4]. by split; [split|..].
Qed.

Lemma touched_piece off n : 0 ≤ off → 0 < n ≤ write_max → touched off n ≤ 4.
Proof.
  intros H0 Hn. unfold touched. change write_max with 3072 in Hn. pose proof (Z.mod_pos_bound off BSIZE ltac:(done)). change BSIZE with 1024 in *.
  Z.to_euclidean_division_equations; lia.
Qed.

(** writei, with the inode locked. *)
Lemma writei_calm w ip i e src off l :
  let k := Z.of_nat (length l) in let d := disk_inode (view w) (w_sb w) i in
  calm p [] [] w (Some ip) → logging w [] 1 → good w ip i e → same_dinode (w_inodes w ip) d → 0 ≤ off ≤ i_size d → l ≠ [] → k ≤ write_max → off + k ≤ e →
  source true w p src zeroes l →
  ∃ w' L', runs (writei ip true src zeroes off k) w k w' ∧ calm p L' [] w' (Some ip) ∧ logging w' L' 1 ∧ ustep w w' ∧
    written (w_sb w) (view w) (view w') i e off l ∧ good w' ip i e ∧ i_ref (w_inodes w' ip) = i_ref (w_inodes w ip).
Proof.
  intros k d C G F Hs Hoff Hne Hk He Hsrc. set (r := w_inodes w ip) in *. destruct (fo_ref _ _ _ _ _ _ _ F) as (Hip & Href & Hdev & Hinum). fold r in Href, Hdev, Hinum.
  destruct (fo_inodes _ _ _ _ _ _ _ F i (or_introl eq_refl)) as (Hi16 & Hlo & Hel). fold d in Hel. pose proof Hs as (_ & _ & _ & _ & Esz & _).
  assert (Hk0 : 0 < k) by (unfold k; destruct l; [done|cbn; lia]). pose proof (touched_piece off k ltac:(lia) ltac:(lia)) as Ht.
  destruct (writei_run true w p [] [] ip src zeroes off e l 1) as (w' & L' & V1 & E & B & G' & I & O & V & N & U); fold r; rewrite ?Hinum, ?Esz; try done.
  { apply C. } { eapply same_dinode_writable; [exact Hs|done|by apply (file_writable w ip i e)]. } { apply not_elem_of_nil. } { by eapply same_dinode_elsewhere. }
  { fold k. change LOGSIZE with 30. change (Z.of_nat (length [])) with 0. lia. } { fold k. change NBUF with 30. change (Z.of_nat (length [])) with 0. lia. }
  fold r k in O, V, I, N. unfold inode_off in V. rewrite Hinum in V. pose proof (same_dinode_elsewhere _ _ _ _ _ Hs Hel) as Hel'.
  pose proof (fo_max _ _ _ _ _ _ _ F) as Hmax. pose proof (fo_fits _ _ _ _ _ _ _ F) as Hfit. fold d in Hfit.
  pose proof (effect_dinode (view w) V1 (w_sb w) r i e off l Hs Hfit ltac:(lia) He Hmax) as X1.
  pose proof (effect_written (view w) V1 (w_sb w) r i e off l Hs Hfit O Hel' ltac:(lia) Hne He Hmax) as X2.
  pose proof (effect_block (view w) V1 (w_sb w) r i e off l Hs Hfit O Hel' ltac:(lia) Hne He Hmax) as X3.
  pose proof (effect_other (view w) V1 (w_sb w) r i e off l O Hel') as X4. fold k in X1, X2, X3, X4. rewrite <-V in X1, X2, X3, X4. fold d in X3.
  assert (Er : i_ref (grown r off k) = i_ref r ∧ i_valid (grown r off k) = i_valid r) by (unfold grown; by case_match). destruct (grown_fields r off k) as (F1 & F2 & F3 & F4).
  assert (Eu : w_sb w' = w_sb w ∧ w_procs w' = w_procs w ∧ l_start (w_log w') = l_start (w_log w) ∧ ∀ jp, w_slk w' (SInode jp) = w_slk w (SInode jp)).
  { destruct U as (fb & s & lg & g & -> & Hsl & Hls). done. }
  destruct Eu as (Eu1 & Eu2 & Eu3 & Eu4).
  assert (Hrefs : ∀ jp j, ref_to (w_inodes w') jp j ↔ ref_to (w_inodes w) jp j).
  { intros jp j. rewrite I. unfold ref_to. rewrite fn_lookup_insert_if. case_decide; subst; [|done]. by rewrite (proj1 Er), F2, F3. }
  exists w', L'. split; [exact E|]. split; [|split; [done|split; [done|split; [done|split]]]].
  - split; rewrite ?Eu1, ?Eu2.
    + done.
    + change NBUF with 30. change (Z.of_nat (length [])) with 0 in *. lia.
    + rewrite I. apply fits_ok; [apply C|]. split; [done|]. split; [lia|]. rewrite F2, F3. split; [|done]. intros j Hj Ej.
      apply (ic_once _ (cm_icache _ _ _ _ _ C) j ip (i_dev r) (i_inum r)); try done. by apply entry_spec.
    + intros jp Hj Hr Hv Hd. destruct (decide (ip = jp)) as [<-|Hn]; [rewrite I, fn_lookup_insert, F2, Hinum; by apply same_dinode_sym|].
      rewrite I, fn_lookup_insert_ne in Hr, Hv, Hd |- * by done. set (j := i_inum (w_inodes w jp)).
      destruct (fo_inodes _ _ _ _ _ _ _ F j) as (J1 & J2 & J3); [right; by exists jp|].
      rewrite (X4 j); [by apply (cm_coherent _ _ _ _ _ C)|apply F|done|done| |by eapply same_dinode_elsewhere].
      intros Ej. apply Hn. apply (ic_once _ (cm_icache _ _ _ _ _ C) ip jp ROOTDEV i); try done; by apply entry_spec.
    + intros jp Hj. rewrite Eu4. by apply (cm_locks _ _ _ _ _ C).
  - unfold good. rewrite Eu1, Eu3. apply (file_ok_keep (view w) (view w') _ _ (w_inodes w)); try done.
    + destruct X1 as (_ & _ & _ & _ & _ & A). rewrite A, F1 by (unfold NDIRECT; lia). destruct Hs as (_ & _ & _ & _ & _ & A'). apply A'. unfold NDIRECT. lia.
    + eapply same_dinode_fits; [exact X1|]. destruct (same_dinode_fits _ _ Hs Hfit) as [D1 D2 D3 D4 D5 D6]. change (MAXFILE * BSIZE) with 274432 in Hmax.
      split; rewrite ?F1, ?F4; try done; [..|lia]; unfold grown; by case_match.
    + apply X2.
    + destruct X1 as (_ & _ & _ & _ & -> & _). rewrite F4. pose proof (fo_size _ _ _ _ _ _ _ F) as Hz. fold d in Hz. lia.
  - rewrite I, fn_lookup_insert. apply Er.
Qed.

(** The body of filewrite's loop, up to the end of the transaction, and what follows it. *)
Definition write_piece {A} (f addr n1 : Z) (k : Z → K A) : K A :=
  begin_op ;;
  fl <- get_file f ;;
  ilock (f_ip fl) ;;
  ip <- deref (f_ip fl) ;;
  fl <- get_file f ;;
  r <- writei ip true addr zeroes (f_off fl) n1 ;;
  when (r >? 0) (upd_file f (λ fl, set_f_off (u32 (f_off fl + r)) fl)) ;;
  iunlock (f_ip fl) ;;
  end_op ;;
  k r.

(** The machine after a transaction that wrote [t]. *)
Record committed (w w' : world) (f ip i e off : Z) (l : list Z) (t : list (Z * bytes)) : Prop := {
  co_idle : idle w';
  co_good : good w' ip i e;
  co_written : written (w_sb w) (view w) (view w') i e off l;
  co_sb : w_sb w' = w_sb w;
  co_mem : w_mem w' = w_mem w;
  co_procs : w_procs w' = w_procs w;
  co_start : l_start (w_log w') = l_start (w_log w);
  co_files : w_files w' = <[f := set_f_off (off + Z.of_nat (length l)) (w_files w f)]> (w_files w);
  co_trace : w_dtrace w' = w_dtrace w ++ t;
  co_disk : w_disk w' = apply_writes t (w_disk w);
  co_crash k : let crashed := recover (l_start (w_log w)) (apply_writes (take k t) (w_disk w)) in
    (∀ n, outside (l_start (w_log w)) n → crashed n ≈b view w n) ∨ (∀ n, outside (l_start (w_log w)) n → crashed n ≈b view w' n)
}.

(** end_op, with everything unlocked. *)
Lemma end_idle w L ip i e :
  calm p L [] w None → logging w L 1 → lh_n (w_disk w (l_start (w_log w))) = 0 → good w ip i e →
  ∃ w' t, runs end_op w tt w' ∧ idle w' ∧ good w' ip i e ∧ (∀ n, outside (l_start (w_log w)) n → view w' n = view w n) ∧
    w_inodes w' = w_inodes w ∧ w_files w' = w_files w ∧ w_sb w' = w_sb w ∧ w_mem w' = w_mem w ∧ w_procs w' = w_procs w ∧ l_start (w_log w') = l_start (w_log w) ∧
    w_dtrace w' = w_dtrace w ++ t ∧ w_disk w' = apply_writes t (w_disk w) ∧
    ∀ k, let crashed := recover (l_start (w_log w)) (apply_writes (take k t) (w_disk w)) in
      (∀ n, outside (l_start (w_log w)) n → crashed n ≈b w_disk w n) ∨ (∀ n, outside (l_start (w_log w)) n → crashed n ≈b view w n).
Proof.
  intros C G Hh F. destruct (cm_blocks _ _ _ _ _ C) as [B1 B2 B3].
  assert (Er : refs L [] = pins L) by (extensionality n; unfold refs; rewrite bool_decide_false by apply not_elem_of_nil; lia). rewrite Er in B2.
  destruct (end_op_commits w p L _ B1 B2 G eq_refl Hh) as (w' & t & E & G' & B' & Hh' & HV & T & Dk & Cr & (fb & s & dd & tt' & lg & -> & Hsl & Hls)).
  cbn in Dk, T, HV, G', B'. set (w' := set_log _ _) in *.
  assert (HVb : ∀ n, outside (l_start (w_log w)) n → view w' n = view w n) by (intros n Hn; by apply HV).
  eexists w', t. split; [exact E|]. split; [split|]; [|exact G'|exact (eq_trans (f_equal (λ x, lh_n (dd x)) Hls) Hh')|].
  - split.
    + split; [exact B1| |done]. replace (refs [] []) with (λ _ : Z, 0); [exact B'|]. extensionality n. unfold refs, pins. by rewrite !bool_decide_false by apply not_elem_of_nil.
    + done.
    + apply C.
    + change (w_inodes w') with (w_inodes w). change (w_sb w') with (w_sb w). intros jp Hj Hr Hv Hd. rewrite (agree_inode (view w) (view w') (w_sb w) (l_start (w_log w)) (w_inodes w) ip i e (i_inum (w_inodes w jp)) F).
      * by apply (cm_coherent _ _ _ _ _ C).
      * right. by exists jp.
      * intros n Hn x Hx. by rewrite HVb.
    + intros jp Hj. cbn. rewrite Hsl. by apply (cm_locks _ _ _ _ _ C).
  - split_and!; try done. unfold good. change (l_start (w_log w')) with (l_start lg). rewrite Hls. apply (agree_ok (view w)); [exact F|]. intros n Hn x Hx. by rewrite HVb.
Qed.

Lemma calm_files L w lk g : calm p L [] w lk → calm p L [] (set_files g w) lk.
Proof.
  intros C. apply (calm_frame L w); try done. destruct (cm_blocks _ _ _ _ _ C) as [B1 B2 B3]. split; [exact B1|by apply (bstore_frame w)|done].
Qed.

(** What the steps of a transaction leave alone until it commits. *)
Definition outer (w : world) := (w_sb w, w_mem w, w_procs w, l_start (w_log w), w_disk w, w_dtrace w).

Lemma istep_outer w w' : istep w w' → outer w' = outer w ∧ w_files w' = w_files w ∧ w_log w' = w_log w.
Proof. by intros (f & s & g & ->). Qed.

Lemma ustep_outer w w' : ustep w w' → outer w' = outer w ∧ w_files w' = w_files w.
Proof. intros (f & s & lg & g & -> & _ & Hl). unfold outer. cbn. by rewrite Hl. Qed.

(** The inode is locked, inside a transaction. *)
Lemma lock_piece w ip i e :
  idle w → good w ip i e →
  ∃ w1 w2, runs begin_op w tt w1 ∧ runs (ilock (Some ip)) w1 tt w2 ∧ w_files w1 = w_files w ∧ calm p [] [] w2 (Some ip) ∧ logging w2 [] 1 ∧ good w2 ip i e ∧ view w2 = view w ∧
    same_dinode (w_inodes w2 ip) (disk_inode (view w) (w_sb w) i) ∧ outer w2 = outer w ∧ w_files w2 = w_files w.
Proof.
  intros Hid F. destruct (begin_idle w Hid) as (E1 & C1 & G1). set (w1 := set_log _ w) in *. destruct (fo_ref _ _ _ _ _ _ _ F) as (Hip & Href & Hdev & Hinum).
  destruct (fo_inodes _ _ _ _ _ _ _ F i (or_introl eq_refl)) as (_ & [Hb _] & _).
  destruct (ilock_calm p [] [] w1 ip C1) as (w2 & E2 & C2 & F2 & I2 & S2); try (change (w_inodes w1) with (w_inodes w); rewrite Hinum); try done; [apply not_elem_of_nil|apply F|].
  change (w_inodes w1) with (w_inodes w) in *. rewrite Hinum in S2. change (view w1) with (view w) in *. change (w_sb w1) with (w_sb w) in *.
  destruct (loaded_fields (view w) (w_sb w) (w_inodes w ip)) as (Q1 & Q2 & Q3 & Q4). destruct F2 as [Hst Ev]. destruct (istep_outer _ _ Hst) as (Ho & Hf & Hl). change (outer w1) with (outer w) in Ho. injection Ho as H1 H2 H3 H4 H5 H6.
  exists w1, w2. split_and!; try done.
  - by apply (logging_same w1).
  - unfold good. rewrite Ev, H1, H4. apply (file_ok_keep (view w) (view w) _ _ (w_inodes w)); try done; try apply F. intros jp j. rewrite I2. unfold ref_to. rewrite fn_lookup_insert_if. case_decide; subst; [|done]. by rewrite Q1, Q2, Q3.
  - rewrite I2, fn_lookup_insert. exact S2.
  - unfold outer. by rewrite H1, H2, H3, H4, H5, H6.
Qed.

Lemma write_piece_run w f ip i e addr off l :
  let d := disk_inode (view w) (w_sb w) i in let k := Z.of_nat (length l) in
  idle w → good w ip i e → f_ip (w_files w f) = Some ip → f_off (w_files w f) = off → 0 ≤ off ≤ i_size d → l ≠ [] → k ≤ write_max → off + k ≤ e →
  source true w p addr zeroes l →
  ∃ w' t, committed w w' f ip i e off l t ∧ ∀ A (K : Z → K A) res v, runs (K k) w' res v → runs (write_piece f addr k K) w res v.
Proof.
  intros d k Hid F Hf Ho Hoff Hne Hk He Hsrc. destruct (lock_piece w ip i e Hid F) as (w1 & w2 & E1 & E2 & X1 & C2 & G2 & F2 & V2 & S2 & O2 & X2). injection O2 as H1 H2 H3 H4 H5 H6.
  destruct (writei_calm w2 ip i e addr off l) as (w3 & L' & E3 & C3 & G3 & U3 & W3 & F3 & R3); rewrite ?V2, ?H1; try done; [by eapply source_frame|]. fold k in E3.
  destruct (ustep_outer _ _ U3) as [O3 X3]. injection O3 as J1 J2 J3 J4 J5 J6. rewrite V2, H1 in W3.
  assert (Hfo : u32 (off + k) = off + k). { apply u32_small. pose proof (fo_max _ _ _ _ _ _ _ F) as Hm. change (MAXFILE * BSIZE) with 274432 in Hm. unfold k in *. lia. }
  set (w4 := set_files (<[f := set_f_off (off + k) (w_files w f)]> (w_files w)) w3).
  destruct (iunlock_calm p L' [] w4 ip) as (w5 & E5 & C5 & [St5 V5] & I5); [by apply calm_files|apply (fo_ref _ _ _ _ _ _ _ F)|change (0 < i_ref (w_inodes w3 ip)); rewrite R3; apply (fo_ref _ _ _ _ _ _ _ F2)|].
  destruct (istep_outer _ _ St5) as (O5 & X5 & L5). change (outer w4) with (outer w3) in O5. injection O5 as M1 M2 M3 M4 M5 M6. change (view w4) with (view w3) in V5. change (w_inodes w4) with (w_inodes w3) in I5.
  destruct (end_idle w5 L' ip i e C5) as (w6 & t & E6 & Id6 & F6 & V6 & I6 & A1 & A2 & A3 & A4 & A5 & T6 & D6 & Cr6).
  { by apply (logging_same w3). } { rewrite M5, J5, H5, M4, J4, H4. apply Hid. } { unfold good. rewrite V5, M1, M4, I5. exact F3. }
  assert (Els : l_start (w_log w5) = l_start (w_log w)) by congruence. assert (Edk : w_disk w5 = w_disk w) by congruence. rewrite Els, Edk in *. assert (Ev6 : ∀ n, outside (l_start (w_log w)) n → view w6 n = view w3 n) by (intros n Hn; rewrite V6, V5; done).
  exists w6, t. split; [split; try congruence|].
  - eapply agree_written; [|intros n Hn x Hx; by rewrite Ev6|exact W3]. unfold good in F3. rewrite J1, H1, J4, H4 in F3. exact F3.
  - rewrite A1, X5. done.
  - intros c crashed. destruct (Cr6 c) as [Hc|Hc]; [left|right]; intros n Hn; specialize (Hc n Hn); fold crashed in Hc; intros x Hx; rewrite (Hc x Hx); [by rewrite (idle_clean w)|by rewrite V6].
  - intros A K0 res v Hv. unfold write_piece. eapply runs_bind; [exact E1|]. unfold get_file. rstep. rewrite X1, Hf. eapply runs_bind; [exact E2|]. unfold deref. rsteps. rewrite X2, Ho.
    assert (Hk0 : 0 < k) by (unfold k; destruct l; [done|cbn; lia]). eapply runs_bind; [exact E3|]. replace (k >? 0) with true by lia. unfold upd_file. rsteps. rewrite Hf.
    rewrite fn_alter_insert, X3, X2, Ho, Hfo. eapply runs_bind; [exact E5|]. eapply runs_bind; [exact E6|]. exact Hv.
Qed.

(** ** The loop *)

(** Some of the pieces of [l] are in the file. *)
Definition pieces (sb : superblock) (V V' : Z → bytes) (i e off : Z) (l : list Z) : Prop :=
  ∃ j, (j ≤ length l)%nat ∧ (j = length l ∨ Z.of_nat j `mod` write_max = 0) ∧ written sb V V' i e off (take j l).

Record wrote_file (w w' : world) (f ip i e off : Z) (l : list Z) (t : list (Z * bytes)) : Prop := {
  wr_idle : idle w';
  wr_good : good w' ip i e;
  wr_written : written (w_sb w) (view w) (view w') i e off l;
  wr_off : w_files w' = <[f := set_f_off (off + Z.of_nat (length l)) (w_files w f)]> (w_files w);
  wr_trace : w_dtrace w' = w_dtrace w ++ t;
  wr_disk : w_disk w' = apply_writes t (w_disk w);
  wr_crash k : pieces (w_sb w) (view w) (recover (l_start (w_log w)) (apply_writes (take k t) (w_disk w))) i e off l
}.

Lemma wrote_nil w f ip i e : idle w → good w ip i e → wrote_file w w f ip i e (f_off (w_files w f)) [] [].
Proof.
  intros Hid F. split; try done.
  - apply written_nil.
  - cbn. rewrite Z.add_0_r. assert (Ef : set_f_off (f_off (w_files w f)) (w_files w f) = w_files w f) by (by destruct (w_files w f)). by rewrite Ef, fn_insert_id.
  - by rewrite app_nil_r.
  - intros k. exists 0%nat. split_and!; [done|by left|]. cbn. rewrite take_nil. eapply agree_written; [exact F| |apply written_nil].
    intros n Hn x Hx. cbn. rewrite recover_other; [by rewrite (idle_clean w)|done|]. rewrite lh_list_0 by apply Hid. apply not_elem_of_nil.
Qed.

Lemma wrote_app w w1 w2 f ip i e off l1 l2 t1 t2 :
  good w ip i e → committed w w1 f ip i e off l1 t1 → wrote_file w1 w2 f ip i e (off + Z.of_nat (length l1)) l2 t2 → (l2 = [] ∨ Z.of_nat (length l1) = write_max) →
  wrote_file w w2 f ip i e off (l1 ++ l2) (t1 ++ t2).
Proof.
  intros F [A1 A2 A3 A4 A5 A6 A7 A8 A9 A10 A11] [B1 B2 B3 B4 B5 B6 B7] Hl. rewrite A4 in B3, B7. rewrite A7 in B7. split; try done.
  - by eapply written_app.
  - rewrite B4, A8, fn_lookup_insert, fn_insert_insert, length_app. replace (off + Z.of_nat (length l1 + length l2)) with (off + Z.of_nat (length l1) + Z.of_nat (length l2)) by lia. done.
  - by rewrite B5, A9, app_assoc.
  - by rewrite B6, A10, apply_app.
  - intros k. rewrite take_app. destruct (decide (k ≤ length t1)%nat) as [Hk|Hk].
    + replace (k - length t1)%nat with 0%nat by lia. rewrite take_0, app_nil_r. destruct (A11 k) as [Hc|Hc].
      * exists 0%nat. split_and!; [lia|by right|]. rewrite take_0. eapply agree_written; [exact F|exact Hc|apply written_nil].
      * exists (length l1). rewrite length_app, take_app_length. split_and!; [lia| |].
        -- destruct Hl as [->|Hl]; [left; cbn; lia|right]. rewrite Hl. done.
        -- eapply agree_written; [|exact Hc|exact A3]. unfold good in A2. by rewrite A4, A7 in A2.
    + rewrite (take_ge t1), apply_app, <-A10 by lia. destruct (B7 (k - length t1)%nat) as (j & Hj & Hm & Hw). exists (length l1 + j)%nat. rewrite length_app, List.firstn_app_2. split_and!; [lia| |by eapply written_app].
      destruct Hl as [->|Hl]; [left; cbn in *; lia|]. destruct Hm as [->|Hm]; [by left|right]. rewrite Nat2Z.inj_add, Hl, <-Z.add_mod_idemp_l, Z.mod_same, Z.add_0_l by done. done.
Qed.

Lemma filewrite_loop_run fuel w f ip i e addr n tot l :
  let off := f_off (w_files w f) in
  idle w → good w ip i e → f_ip (w_files w f) = Some ip → 0 ≤ off ≤ i_size (disk_inode (view w) (w_sb w) i) → n - tot = Z.of_nat (length l) → off + Z.of_nat (length l) ≤ e →
  0 ≤ addr → 0 ≤ tot → source true w p (addr + tot) zeroes l → Z.of_nat (length l) ≤ (Z.of_nat fuel - 1) * write_max →
  ∃ w' t, runs (filewrite_loop fuel f addr n tot) w n w' ∧ wrote_file w w' f ip i e off l t.
Proof.
  revert w tot l. induction fuel as [|fuel IH]; intros w tot l off Hid F Hf Hoff Hn He Ha Ht Hsrc Hfuel; [change write_max with 3072 in *; lia|]. cbn [filewrite_loop].
  destruct l as [|x l0].
  { cbn in Hn. replace (tot <? n) with false by lia. exists w, []. split; [cbn; replace n with tot by lia; apply runs_ret|by apply wrote_nil]. }
  set (l := x :: l0) in *. assert (Hl0 : 0 < Z.of_nat (length l)) by (cbn; lia). replace (tot <? n) with true by lia. cbn [negb].
  set (n1 := if n - tot >? write_max then write_max else n - tot). assert (Hn1 : 0 < n1 ≤ write_max ∧ n1 ≤ n - tot ∧ (n1 = n - tot ∨ n1 = write_max)) by (unfold n1; change write_max with 3072; case_match; lia).
  set (l1 := take (Z.to_nat n1) l). set (l2 := drop (Z.to_nat n1) l). assert (El : l = l1 ++ l2) by (symmetry; apply take_drop).
  assert (Hl1 : Z.of_nat (length l1) = n1) by (unfold l1; rewrite length_take; lia). assert (Hl2 : Z.of_nat (length l2) = n - tot - n1) by (unfold l2; rewrite length_drop; lia).
  assert (Hs1 : source true w p (addr + tot) zeroes l1).
  { destruct Hsrc as (S1 & S2 & S3 & S4). split_and!; [done|lia|done|]. intros j y Hy. apply S4. rewrite El. by apply lookup_app_l_Some. }
  destruct (write_piece_run w f ip i e (addr + tot) off l1) as (w1 & t1 & Hc & Hrun); try done; [intros E; rewrite E in Hl1; cbn in Hl1; lia|lia|lia|]. rewrite Hl1 in Hrun.
  pose proof Hc as [A1 A2 A3 A4 A5 A6 A7 A8 _ _ _].
  destruct (IH w1 (tot + n1) l2) as (w' & t2 & E2 & W2); rewrite ?A8, ?fn_lookup_insert, ?A4; cbn [set_f_off f_off f_ip]; try done; try lia.
  { pose proof A3 as (Hsz & _). rewrite Hsz. destruct l1 as [|y l1'] eqn:El1; [cbn in Hl1; lia|]. lia. }
  { rewrite Z.add_assoc. eapply source_frame; [exact A5|exact A6|]. apply source_drop; [done|lia]. }
  { change write_max with 3072 in *. lia. }
  exists w', (t1 ++ t2). split.
  - assert (Hu : u64 (addr + tot) = addr + tot) by (apply u64_small; destruct Hsrc as (S1 & S2 & _); lia). rewrite Hu. unfold write_piece in Hrun. apply (Hrun _ (λ r, if r <? 0 then ret tot else if negb (r =? n1) then panic "short filewrite" else filewrite_loop fuel f addr n (tot + r))).
    replace (n1 <? 0) with false by lia. rewrite Z.eqb_refl. exact E2.
  - rewrite El. eapply wrote_app; [done|exact Hc| |].
    + rewrite A8, fn_lookup_insert in W2. exact W2.
    + destruct Hn1 as (_ & _ & [E|E]); [left; destruct l2; [done|cbn in Hl2; lia]|right; lia].
Qed.

End Round.

Module WriteCall.

(** Inode 2 is a file of 10 bytes in block 51; its cache entry has not been read. *)
Definition call_inode : inode := mkInode ROOTDEV 2 1 false T_FILE 0 0 1 10 (<[0 := 51]> zeroes).
Definition call_disk : Z → bytes := <[32 := store_dinode call_inode zeroes 128]> (λ _, zeroes).
Definition call_file : file := mkFile FD_INODE 1 true true 0 (Some 0) 10 0.

Lemma call_fields : let r := disk_inode call_disk sample_sb 2 in
  i_type r = T_FILE ∧ i_major r = 0 ∧ i_minor r = 0 ∧ i_nlink r = 1 ∧ i_size r = 10 ∧ i_addrs r 0 = 51 ∧ forallb (λ i, (0 <=? i_addrs r i) && (i_addrs r i <? 2 ^ 32)) (seqZ 0 13) = true.
Proof. vm_compute. repeat split. Qed.

Lemma call_good : file_ok call_disk sample_sb 2 (one_entry call_inode) 0 2 BSIZE.
Proof.
  destruct call_fields as (E1 & E2 & E3 & E4 & E5 & E6 & E7).
  assert (Hj : ∀ j, (j = 2 ∨ ∃ jp, ref_to (one_entry call_inode) jp j) → j = 2).
  { intros j [->|(jp & _ & Hr & _ & <-)]; [done|]. unfold one_entry in *. by destruct (jp =? 0). }
  assert (Hsb : IBLOCK 2 sample_sb = 32) by (by vm_compute).
  revert E1 E2 E3 E4 E5 E6 E7. generalize call_disk. intros V E1 E2 E3 E4 E5 E6 E7.
  assert (Eb : ∀ bn, 0 ≤ bn → bn * BSIZE < BSIZE → block_of V (disk_inode V sample_sb 2) bn = 51).
  { intros bn H0 Hb. assert (bn = 0) as -> by (unfold BSIZE in *; lia). exact E6. }
  split.
  - by split_and!.
  - split; rewrite ?E1, ?E2, ?E3, ?E4, ?E5; try done. intros i Hi. unfold NDIRECT in Hi. rewrite forallb_forall in E7. specialize (E7 i). rewrite <-list_elem_of_In, elem_of_seqZ in E7. lia.
  - by rewrite E1.
  - rewrite E5. unfold BSIZE. lia.
  - by vm_compute.
  - intros bn H0 Hb. rewrite Eb by done. split; [done|]. split; [lia|]. unfold outside, LOGSIZE, MAXOPBLOCKS. lia.
  - intros bn bn' H0 Hb H0' Hb' _. unfold BSIZE in *. lia.
  - unfold NDIRECT, BSIZE. lia.
  - intros j ->%Hj. rewrite Hsb. split; [lia|]. split; [split; [lia|unfold outside, LOGSIZE, MAXOPBLOCKS; lia]|]. split; [|unfold NDIRECT, BSIZE; lia]. intros bn H0 Hb. by rewrite Eb.
  - cbn. lia.
Qed.

(** A machine with this disk, on which process 1 has a page of zeroes at address 0. *)
Lemma call_world : ∃ w, idle (D := prompt_disk) 1 w ∧ good w 0 2 BSIZE ∧ w_files w 3 = call_file ∧ w_disk w = call_disk ∧ w_sb w = sample_sb ∧
  source (LY := sample_layout) true w 1 8 zeroes [0; 0; 0].
Proof.
  destruct (sample_fs call_disk (one_entry call_inode)) as (w & Hb & Hl & Hv & Hs & Hi & El & _ & Hsl & _).
  set (w1 := set_files (λ _, call_file) (set_mem Sample.m3 (set_procs (<[1 := set_p_pagetable (Sample.page 0) (w_procs w 1)]> (w_procs w)) (set_log (set_l_outstanding 0 (w_log w)) w)))).
  assert (Hd : w_disk w = call_disk).
  { rewrite <-Hv. extensionality n. symmetry. apply (bstore_clean _ _ _ _ n (bk_store _ _ _ _ Hb)). unfold refs, pins. by rewrite !bool_decide_false by apply not_elem_of_nil. }
  assert (Hb1 : blocks (D := prompt_disk) w1 1 [] []).
  { destruct Hb as [Ha Hst Hr]. split; [|apply (bstore_frame w); try done; cbn; by rewrite fn_lookup_insert|done].
    destruct Ha as [(Q1 & Q2 & Q3 & Q4 & Q5 & Q6) Hv']. split; [|done]. split_and!; try done; cbn; by rewrite fn_lookup_insert. }
  assert (Hm : pt_wf (H := sample_layout) Sample.m3 (Sample.page 0) ∧ ∀ j x, [0; 0; 0] !! j = Some x → ubyte Sample.m3 (Sample.page 0) (8 + Z.of_nat j) = Some x).
  { split; [exact Sample.wf3|]. intros j x Hx. pose proof (lookup_lt_Some _ _ _ Hx) as Hj. cbn in Hj. unfold ubyte. rewrite Sample.uaddr3, decide_True by (unfold PGSIZE; lia).
    do 3 (destruct j as [|j]; [injection Hx as <-; vm_compute; reflexivity|]). done. }
  assert (Hroot : p_pagetable (w_procs w1 1) = Sample.page 0) by (cbn; by rewrite fn_lookup_insert).
  exists w1. split; [split|split; [|split; [done|split; [done|split; [done|]]]]].
  - split; [done|done|..]; change (w_inodes w1) with (w_inodes w); rewrite ?Hi.
    + by apply one_entry_ok.
    + intros jp _ Hr Hva. unfold one_entry in *. by destruct (jp =? 0).
    + intros jp _. rewrite decide_False by done. cbn. by rewrite Hsl.
  - destruct Hl as [[] G2 G3 G4]. by split; [split|..].
  - cbn. rewrite El, Hd. by vm_compute.
  - unfold good. change (view w1) with (view w). change (w_sb w1) with (w_sb w). change (l_start (w_log w1)) with (l_start (w_log w)). change (w_inodes w1) with (w_inodes w). rewrite Hv, Hs, El, Hi. apply call_good.
  - unfold source. rewrite Hroot. split; [lia|]. split; [cbn; lia|]. exact Hm.
Qed.

End WriteCall.
