(* ===== verification/Proc.v ===== *)
(** * proc.c: creating, growing and ending processes

    The trapframe of a process is the page [p_trapframe]; its fields are 64-bit
    words there, at the offsets of proc.h.  forkret, which calls usertrapret, is
    in Trap. *)

From S2P Require Import Prelude Types StringC Spinlock Kalloc PageTable Vm Sched Sleeplock Run Bio Log Fs Riscv Uart Printf Console Pipe File.

(** ** struct trapframe *)

Definition tf_kernel_satp : Z := 0.
Definition tf_kernel_sp : Z := 8.
Definition tf_kernel_trap : Z := 16.
Definition tf_epc : Z := 24.
Definition tf_kernel_hartid : Z := 32.
Definition tf_sp : Z := 48.
Definition tf_a0 : Z := 112.
Definition tf_a1 : Z := 120.
Definition tf_a7 : Z := 168.
Definition sizeof_trapframe : Z := 288.

Definition get_tf (p field : Z) : K Z :=
  pr <- get_proc p ;;
  ld64_k (p_trapframe pr + field).

Definition set_tf (p field v : Z) : K unit :=
  pr <- get_proc p ;;
  st64_k (p_trapframe pr + field) (u64 v).

(** safestrcpy(dst, src, sizeof(dst)) for a char array [dst]. *)
Definition name_copy (dst : list Z) (src : bytes) : list Z :=
  let n := Z.of_nat (length dst) in
  ld_bytes (safestrcpy (beside (of_list dst) src n) 0 n n) 0 n.

Section Proc.
Context `{DiskOps} `{Layout}.

Definition procinit : K unit :=
  initlock LPid "nextpid" ;;
  for_each all_procs (λ p,
    initlock (LProc p) "proc" ;;
    pa <- kalloc ;;
    if pa =? 0 then panic "kalloc" else
    let va := KSTACK p in
    kvmmap va pa PGSIZE (Z.lor PTE_R PTE_W) ;;
    upd_proc p (set_p_kstack va)) ;;
  kvminithart.

Definition proc_pagetable (p : Z) : K Z :=
  pagetable <- uvmcreate ;;
  if pagetable =? 0 then ret 0 else
  r <- mappages pagetable TRAMPOLINE PGSIZE trampoline (Z.lor PTE_R PTE_X) ;;
  if r <? 0 then uvmfree pagetable 0 ;; ret 0 else
  pr <- get_proc p ;;
  r <- mappages pagetable TRAPFRAME PGSIZE (p_trapframe pr) (Z.lor PTE_R PTE_W) ;;
  if r <? 0 then
    uvmunmap pagetable TRAMPOLINE 1 false ;;
    uvmfree pagetable 0 ;;
    ret 0
  else ret pagetable.

Definition proc_freepagetable (pagetable sz : Z) : K unit :=
  uvmunmap pagetable TRAMPOLINE 1 false ;;
  uvmunmap pagetable TRAPFRAME 1 false ;;
  uvmfree pagetable sz.

Definition freeproc (p : Z) : K unit :=
  pr <- get_proc p ;;
  when (nz (p_trapframe pr)) (kfree (p_trapframe pr)) ;;
  upd_proc p (set_p_trapframe 0) ;;
  pr <- get_proc p ;;
  when (nz (p_pagetable pr)) (proc_freepagetable (p_pagetable pr) (p_sz pr)) ;;
  upd_proc p (set_p_pagetable 0) ;;
  upd_proc p (set_p_sz 0) ;;
  upd_proc p (set_p_pid 0) ;;
  upd_proc p (set_p_parent None) ;;
  upd_proc p (λ pr, set_p_name (<[0%nat := 0]> (p_name pr)) pr) ;;
  upd_proc p (set_p_chan None) ;;
  upd_proc p (set_p_killed false) ;;
  upd_proc p (set_p_xstate 0) ;;
  upd_proc p (set_p_state UNUSED).

(** The search for an UNUSED slot, which is returned with its lock held. *)
Definition find_unused_proc : K (option Z) :=
  for_find all_procs (λ p,
    acquire (LProc p) ;;
    pr <- get_proc p ;;
    if decide (p_state pr = UNUSED) then ret (Some p) else
    release (LProc p) ;;
    ret None).

Definition allocproc : K (option Z) :=
  f <- find_unused_proc ;;
  match f with
  | None => ret None
  | Some p =>
      pid <- allocpid ;;
      upd_proc p (set_p_pid pid) ;;
      tf <- kalloc ;;
      upd_proc p (set_p_trapframe tf) ;;
      if tf =? 0 then release (LProc p) ;; ret None else
      pt <- proc_pagetable p ;;
      upd_proc p (set_p_pagetable pt) ;;
      if pt =? 0 then freeproc p ;; release (LProc p) ;; ret None else
      upd_proc p (λ pr, set_p_context (mkContext forkret_addr (p_kstack pr + PGSIZE) (replicate 12 0)) pr) ;;
      ret (Some p)
  end.

(** a user program that calls exec("/init") *)
Definition initcode : list Z :=
  [0x17; 0x05; 0x00; 0x00; 0x13; 0x05; 0x45; 0x02; 0x97; 0x05; 0x00; 0x00; 0x93;
   0x85; 0x35; 0x02; 0x93; 0x08; 0x70; 0x00; 0x73; 0x00; 0x00; 0x00; 0x93; 0x08;
   0x20; 0x00; 0x73; 0x00; 0x00; 0x00; 0xef; 0xf0; 0x9f; 0xff; 0x2f; 0x69; 0x6e;
   0x69; 0x74; 0x00; 0x00; 0x24; 0x00; 0x00; 0x00; 0x00; 0x00; 0x00; 0x00; 0x00].

Definition userinit : K unit :=
  mp <- allocproc ;;
  modify (λ w, set_initproc mp w) ;;
  p <- deref mp ;;
  pr <- get_proc p ;;
  uvminit (p_pagetable pr) (of_list initcode) (Z.of_nat (length initcode)) ;;
  upd_proc p (set_p_sz PGSIZE) ;;
  set_tf p tf_epc 0 ;;
  set_tf p tf_sp PGSIZE ;;
  upd_proc p (λ pr, set_p_name (name_copy (p_name pr) (of_list (chars "initcode"))) pr) ;;
  cwd <- namei [slash] ;;
  upd_proc p (set_p_cwd cwd) ;;
  upd_proc p (set_p_state RUNNABLE) ;;
  release (LProc p).

(** sz is a uint: sizes are truncated to 32 bits. *)
Definition growproc (n : Z) : K Z :=
  mp <- myproc ;;
  p <- deref mp ;;
  pr <- get_proc p ;;
  let sz := u32 (p_sz pr) in
  if n >? 0 then
    r <- uvmalloc (p_pagetable pr) sz (u32 (sz + n)) ;;
    let sz := u32 r in
    if sz =? 0 then ret (-1) else
    upd_proc p (set_p_sz sz) ;;
    ret 0
  else if n <? 0 then
    r <- uvmdealloc (p_pagetable pr) sz (u32 (sz + n)) ;;
    upd_proc p (set_p_sz (u32 r)) ;;
    ret 0
  else
    upd_proc p (set_p_sz sz) ;;
    ret 0.

Definition fork : K Z :=
  mp <- myproc ;;
  p <- deref mp ;;
  mnp <- allocproc ;;
  match mnp with
  | None => ret (-1)
  | Some np =>
      pr <- get_proc p ;;
      npr <- get_proc np ;;
      r <- uvmcopy (p_pagetable pr) (p_pagetable npr) (p_sz pr) ;;
      if r <? 0 then freeproc np ;; release (LProc np) ;; ret (-1) else
      pr <- get_proc p ;;
      upd_proc np (set_p_sz (p_sz pr)) ;;
      upd_proc np (set_p_parent (Some p)) ;;
      npr <- get_proc np ;;
      modify (λ w, set_mem (mem_copy (w_mem w) (p_trapframe npr) (w_mem w) (p_trapframe pr) sizeof_trapframe) w) ;;
      set_tf np tf_a0 0 ;;
      for_each (seqZ 0 NOFILE) (λ i,
        pr <- get_proc p ;;
        match p_ofile pr i with
        | Some f => f <- filedup f ;; upd_proc np (λ npr, set_p_ofile (<[i := Some f]> (p_ofile npr)) npr)
        | None => ret tt
        end) ;;
      pr <- get_proc p ;;
      cwd <- deref (p_cwd pr) ;;
      cwd <- idup cwd ;;
      upd_proc np (set_p_cwd (Some cwd)) ;;
      upd_proc np (λ npr, set_p_name (name_copy (p_name npr) (of_list (p_name pr))) npr) ;;
      npr <- get_proc np ;;
      let pid := p_pid npr in
      upd_proc np (set_p_state RUNNABLE) ;;
      release (LProc np) ;;
      ret pid
  end.

Definition reparent (p : Z) : K unit :=
  for_each all_procs (λ pp,
    ppr <- get_proc pp ;;
    when (bool_decide (p_parent ppr = Some p)) (
      acquire (LProc pp) ;;
      ip <- gets (λ w, w_initproc w) ;;
      upd_proc pp (set_p_parent ip) ;;
      release (LProc pp))).

(** exit does not return. *)
Definition exit (status : Z) : K unit :=
  mp <- myproc ;;
  mip <- gets (λ w, w_initproc w) ;;
  if bool_decide (mp = mip) then panic "init exiting" else
  p <- deref mp ;;
  for_each (seqZ 0 NOFILE) (λ fd,
    pr <- get_proc p ;;
    match p_ofile pr fd with
    | Some f => fileclose f ;; upd_proc p (λ pr, set_p_ofile (<[fd := None]> (p_ofile pr)) pr)
    | None => ret tt
    end) ;;
  begin_op ;;
  pr <- get_proc p ;;
  cwd <- deref (p_cwd pr) ;;
  iput cwd ;;
  end_op ;;
  upd_proc p (set_p_cwd None) ;;
  mip <- gets (λ w, w_initproc w) ;;
  ip <- deref mip ;;
  acquire (LProc ip) ;;
  wakeup1 ip ;;
  release (LProc ip) ;;
  acquire (LProc p) ;;
  pr <- get_proc p ;;
  let original_parent := p_parent pr in
  release (LProc p) ;;
  op <- deref original_parent ;;
  acquire (LProc op) ;;
  acquire (LProc p) ;;
  reparent p ;;
  wakeup1 op ;;
  upd_proc p (set_p_xstate status) ;;
  upd_proc p (set_p_state ZOMBIE) ;;
  release (LProc op) ;;
  sched ;;
  panic "zombie exit".

(** The scan of wait() for exited children: [inl r] returns [r] from wait,
    [inr havekids] is the end of the table. *)
Fixpoint wait_scan (l : list Z) (p addr : Z) (havekids : bool) : K (Z + bool) :=
  match l with
  | [] => ret (inr havekids)
  | np :: l =>
      npr <- get_proc np ;;
      if negb (bool_decide (p_parent npr = Some p)) then wait_scan l p addr havekids else
      acquire (LProc np) ;;
      npr <- get_proc np ;;
      if decide (p_state npr = ZOMBIE) then
        let pid := p_pid npr in
        pr <- get_proc p ;;
        r <- (if nz addr then copyout (p_pagetable pr) addr (st32 zeroes 0 (u32 (p_xstate npr))) 4 else ret 0) ;;
        if r <? 0 then
          release (LProc np) ;;
          release (LProc p) ;;
          ret (inl (-1))
        else
          freeproc np ;;
          release (LProc np) ;;
          release (LProc p) ;;
          ret (inl pid)
      else
        release (LProc np) ;;
        wait_scan l p addr true
  end.

Definition wait (addr : Z) : K Z :=
  mp <- myproc ;;
  p <- deref mp ;;
  acquire (LProc p) ;;
  loop_wait (
    r <- wait_scan all_procs p addr false ;;
    match r with
    | inl r => ret (Some r)
    | inr havekids =>
        pr <- get_proc p ;;
        if negb havekids || p_killed pr then release (LProc p) ;; ret (Some (-1)) else
        sleep (CProc p) (LProc p) ;;
        ret None
    end).

End Proc.
