(* ===== verification/Exec.v ===== *)
(** * exec.c: running a program

    The ELF headers are read from the file as bytes.  The program's path is the
    list of its characters; [argv] is the list of the pointers before the null
    one, each to a nul-terminated string in kernel memory. *)

From S2P Require Import Prelude Types StringC Spinlock Kalloc PageTable Vm Sched Sleeplock Run Bio Log Fs Riscv Uart Printf Console Pipe File Proc.

(** ** elf.h *)

Definition ELF_MAGIC : Z := 0x464C457F.
Definition ELF_PROG_LOAD : Z := 1.
Definition sizeof_elfhdr : Z := 64.
Definition sizeof_proghdr : Z := 56.

Record elfhdr := mkElfhdr {
  elf_magic : Z;
  elf_entry : Z;
  elf_phoff : Z;
  elf_phnum : Z
}.

Record proghdr := mkProghdr {
  ph_type : Z;
  ph_off : Z;
  ph_vaddr : Z;
  ph_filesz : Z;
  ph_memsz : Z
}.

Definition load_elfhdr (d : bytes) : elfhdr := mkElfhdr (ld32 d 0) (ld64 d 24) (ld64 d 32) (ld16 d 56).
Definition load_proghdr (d : bytes) : proghdr :=
  mkProghdr (ld32 d 0) (ld64 d 8) (ld64 d 16) (ld64 d 32) (ld64 d 40).

(** Program name: the path after its last slash. *)
Fixpoint last_elem (path last : list Z) : list Z :=
  match path with
  | [] => last
  | c :: path => last_elem path (if c =? slash then path else last)
  end.

(** strlen of a kernel string, which lies in a page. *)
Definition strlen_k (s : Z) : K Z :=
  n <- gets (λ w, strlen (Z.to_nat PGSIZE) (w_mem w) s) ;;
  match n with Some n => ret n | None => λ _ _, NoFuel end.

Section Exec.
Context `{DiskOps} `{Layout}.

(** for (i = 0; i < sz; i += PGSIZE), with i a uint *)
Fixpoint loadseg_loop (fuel : nat) (pagetable va ip offset sz i : Z) : K Z :=
  match fuel with
  | O => λ _ _, NoFuel
  | S fuel =>
      if negb (i <? sz) then ret 0 else
      pa <- walkaddr pagetable (u64 (va + i)) ;;
      if pa =? 0 then panic "loadseg: address should exist" else
      let n := if sz - i <? PGSIZE then sz - i else PGSIZE in
      m <- gets (λ w, w_mem w) ;;
      x <- readi ip false pa m (u32 (offset + i)) n ;;
      modify (λ w, set_mem (mem_copy (w_mem w) pa x.2 pa n) w) ;;
      if negb (x.1 =? n) then ret (-1) else
      loadseg_loop fuel pagetable va ip offset sz (u32 (i + PGSIZE))
  end.

Definition loadseg (pagetable va ip offset sz : Z) : K Z :=
  if negb (va `mod` PGSIZE =? 0) then panic "loadseg: va must be page aligned" else
  loadseg_loop (Z.to_nat (sz / PGSIZE + 2)) pagetable va ip offset sz 0.

(** The loop over the [n] program headers still to read, the next at [off]:
    whether all went well, and sz. *)
Fixpoint load_segments (n : nat) (pagetable ip off sz : Z) : K (bool * Z) :=
  match n with
  | O => ret (true, sz)
  | S n =>
      x <- readi ip false 0 zeroes (u32 off) sizeof_proghdr ;;
      if negb (x.1 =? sizeof_proghdr) then ret (false, sz) else
      let ph := load_proghdr x.2 in
      let off := i32 (off + sizeof_proghdr) in
      if negb (ph_type ph =? ELF_PROG_LOAD) then load_segments n pagetable ip off sz else
      if ph_memsz ph <? ph_filesz ph then ret (false, sz) else
      if u64 (ph_vaddr ph + ph_memsz ph) <? ph_vaddr ph then ret (false, sz) else
      sz1 <- uvmalloc pagetable sz (u64 (ph_vaddr ph + ph_memsz ph)) ;;
      if sz1 =? 0 then ret (false, sz) else
      if negb (ph_vaddr ph `mod` PGSIZE =? 0) then ret (false, sz1) else
      r <- loadseg pagetable (ph_vaddr ph) ip (u32 (ph_off ph)) (u32 (ph_filesz ph)) ;;
      if r <? 0 then ret (false, sz1) else
      load_segments n pagetable ip off sz1
  end.

(** Push the argument strings; [None] is the jump to bad, otherwise sp and the
    addresses of the strings. *)
Fixpoint push_args (argv : list Z) (argc pagetable sp stackbase : Z) (ustack : list Z)
    : K (option (Z * list Z)) :=
  match argv with
  | [] => ret (Some (sp, ustack))
  | a :: argv =>
      if argc >=? MAXARG then ret None else
      n <- strlen_k a ;;
      let sp := u64 (sp - (n + 1)) in
      let sp := sp - sp `mod` 16 in
      if sp <? stackbase then ret None else
      m <- gets (λ w, w_mem w) ;;
      r <- copyout pagetable sp (λ x, m (a + x)) (n + 1) ;;
      if r <? 0 then ret None else
      push_args argv (argc + 1) pagetable sp stackbase (ustack ++ [sp])
  end.

(** ustack[] as bytes *)
Definition words (l : list Z) : bytes :=
  foldl (λ m i, st64 m (8 * i) (nth (Z.to_nat i) l 0)) zeroes (seqZ 0 (Z.of_nat (length l))).

(** bad: with ip = 0 *)
Definition exec_bad (pagetable sz : Z) : K Z :=
  when (nz pagetable) (proc_freepagetable pagetable sz) ;;
  ret (-1).

(** bad: with ip locked, inside the transaction *)
Definition exec_bad_ip (pagetable sz ip : Z) : K Z :=
  when (nz pagetable) (proc_freepagetable pagetable sz) ;;
  iunlockput ip ;;
  end_op ;;
  ret (-1).

(** After the program is loaded: the stack, the arguments, the commit. *)
Definition exec_stack (path argv : list Z) (entry pagetable sz : Z) : K Z :=
  mp <- myproc ;;
  p <- deref mp ;;
  pr <- get_proc p ;;
  let oldsz := p_sz pr in
  let sz := PGROUNDUP sz in
  sz1 <- uvmalloc pagetable sz (u64 (sz + 2 * PGSIZE)) ;;
  if sz1 =? 0 then exec_bad pagetable sz else
  let sz := sz1 in
  uvmclear pagetable (u64 (sz - 2 * PGSIZE)) ;;
  let sp := sz in
  let stackbase := u64 (sp - PGSIZE) in
  a <- push_args argv 0 pagetable sp stackbase [] ;;
  match a with
  | None => exec_bad pagetable sz
  | Some (sp, ustack) =>
      let argc := Z.of_nat (length ustack) in
      let sp := u64 (sp - (argc + 1) * 8) in
      let sp := sp - sp `mod` 16 in
      if sp <? stackbase then exec_bad pagetable sz else
      r <- copyout pagetable sp (words (ustack ++ [0])) ((argc + 1) * 8) ;;
      if r <? 0 then exec_bad pagetable sz else
      set_tf p tf_a1 sp ;;
      upd_proc p (λ pr, set_p_name (name_copy (p_name pr) (of_list (last_elem path path))) pr) ;;
      pr <- get_proc p ;;
      let oldpagetable := p_pagetable pr in
      upd_proc p (set_p_pagetable pagetable) ;;
      upd_proc p (set_p_sz sz) ;;
      set_tf p tf_epc entry ;;
      set_tf p tf_sp sp ;;
      proc_freepagetable oldpagetable oldsz ;;
      ret argc
  end.

Definition exec (path argv : list Z) : K Z :=
  mp <- myproc ;;
  p <- deref mp ;;
  begin_op ;;
  mip <- namei path ;;
  match mip with
  | None => end_op ;; ret (-1)
  | Some ip =>
      ilock (Some ip) ;;
      x <- readi ip false 0 zeroes 0 sizeof_elfhdr ;;
      if negb (x.1 =? sizeof_elfhdr) then exec_bad_ip 0 0 ip else
      let elf := load_elfhdr x.2 in
      if negb (elf_magic elf =? ELF_MAGIC) then exec_bad_ip 0 0 ip else
      pagetable <- proc_pagetable p ;;
      if pagetable =? 0 then exec_bad_ip 0 0 ip else
      s <- load_segments (Z.to_nat (elf_phnum elf)) pagetable ip (i32 (elf_phoff elf)) 0 ;;
      let sz := s.2 in
      if negb s.1 then exec_bad_ip pagetable sz ip else
      iunlockput ip ;;
      end_op ;;
      exec_stack path argv (elf_entry elf) pagetable sz
  end.

End Exec.
