(* ===== verification/SysArgs.v ===== *)
(** * syscall.c: system call arguments; sysproc.c: system calls on processes

    argint and argaddr always return 0, so that the tests of their result never
    fail; they are the value they store. *)

From S2P Require Import Prelude Types StringC Spinlock Kalloc PageTable Vm Sched Sleeplock Run Bio Log Fs Riscv Uart Printf Console Pipe File Proc.

(** The current process. *)
Definition this_proc : K Z := mp <- myproc ;; deref mp.

(** ** syscall.c *)

Section Args.
Context `{Layout}.

(** [None] is -1, otherwise the word at *ip. *)
Definition fetchaddr (addr : Z) : K (option Z) :=
  p <- this_proc ;;
  pr <- get_proc p ;;
  if (addr >=? p_sz pr) || (u64 (addr + 8) >? p_sz pr) then ret None else
  e <- copyin (p_pagetable pr) zeroes addr 8 ;;
  if negb (e.1 =? 0) then ret None else ret (Some (ld64 e.2 0)).

(** The result and the bytes of buf. *)
Definition fetchstr (addr : Z) (buf : bytes) (max : Z) : K (Z * bytes) :=
  p <- this_proc ;;
  pr <- get_proc p ;;
  e <- copyinstr (p_pagetable pr) buf addr max ;;
  if e.1 <? 0 then ret e else
  match strlen (Z.to_nat max) e.2 0 with
  | Some n => ret (n, e.2)
  | None => λ _ _, NoFuel
  end.

Definition argraw (n : Z) : K Z :=
  p <- this_proc ;;
  if (0 <=? n) && (n <=? 5) then get_tf p (tf_a0 + 8 * n) else panic "argraw".

Definition argint (n : Z) : K Z := x <- argraw n ;; ret (i32 x).

Definition argaddr (n : Z) : K Z := argraw n.

Definition argstr (n : Z) (buf : bytes) (max : Z) : K (Z * bytes) :=
  addr <- argaddr n ;;
  fetchstr addr buf max.

(** argstr into a local char array: [None] when it fails. *)
Definition arg_path (n max : Z) : K (option (list Z)) :=
  r <- argstr n zeroes max ;;
  ret (if r.1 <? 0 then None else Some (cstr (Z.to_nat max) r.2 0)).

End Args.

(** ** sysproc.c *)

Section Sysproc.
Context `{DiskOps} `{Layout}.

Definition sys_exit : K Z :=
  n <- argint 0 ;;
  exit n ;;
  ret 0.

Definition sys_getpid : K Z :=
  p <- this_proc ;;
  pr <- get_proc p ;;
  ret (p_pid pr).

Definition sys_fork : K Z := fork.

Definition sys_wait : K Z :=
  p <- argaddr 0 ;;
  wait p.

Definition sys_sbrk : K Z :=
  n <- argint 0 ;;
  p <- this_proc ;;
  pr <- get_proc p ;;
  let addr := i32 (p_sz pr) in
  r <- growproc n ;;
  if r <? 0 then ret (-1) else ret addr.

(** ticks - ticks0 < n compares unsigned values. *)
Definition sys_sleep : K Z :=
  n <- argint 0 ;;
  acquire LTicks ;;
  ticks0 <- gets (λ w, w_ticks w) ;;
  done <- loop_wait (
    t <- gets (λ w, w_ticks w) ;;
    if u32 (t - ticks0) <? u32 n then
      p <- this_proc ;;
      pr <- get_proc p ;;
      if p_killed pr then ret (Some false) else
      sleep CTicks LTicks ;;
      ret None
    else ret (Some true)) ;;
  release LTicks ;;
  ret (if (done : bool) then 0 else -1).

Definition sys_kill : K Z :=
  pid <- argint 0 ;;
  kill pid.

Definition sys_uptime : K Z :=
  acquire LTicks ;;
  xticks <- gets (λ w, w_ticks w) ;;
  release LTicks ;;
  ret xticks.

End Sysproc.
