(* ===== verification/Sysfile.v ===== *)
(** * sysfile.c: system calls on files

    A jump to bad is written out as the code there.  Character arrays on the
    stack start as zeroes. *)

From S2P Require Import Prelude Types StringC Spinlock Kalloc PageTable Vm Sched Sleeplock Run Bio Log Fs Riscv Uart Printf Console Pipe File Proc Exec SysArgs.

(** The descriptor and the file; [None] is -1. *)
Definition argfd (n : Z) : K (option (Z * Z)) :=
  fd <- argint n ;;
  if (fd <? 0) || (fd >=? NOFILE) then ret None else
  p <- this_proc ;;
  pr <- get_proc p ;;
  ret ((λ f, (fd, f)) <$> p_ofile pr fd).

Definition fdalloc (f : Z) : K Z :=
  p <- this_proc ;;
  r <- for_find (seqZ 0 NOFILE) (λ fd,
    pr <- get_proc p ;;
    match p_ofile pr fd with
    | None => upd_proc p (λ pr, set_p_ofile (<[fd := Some f]> (p_ofile pr)) pr) ;; ret (Some fd)
    | Some _ => ret None
    end) ;;
  ret (default (-1) r).

Definition dot : bytes := of_list [46].
Definition dotdot : bytes := of_list [46; 46].

Section Sysfile.
Context `{DiskOps} `{Layout}.

Definition sys_dup : K Z :=
  a <- argfd 0 ;;
  match a with
  | None => ret (-1)
  | Some (_, f) =>
      fd <- fdalloc f ;;
      if fd <? 0 then ret (-1) else
      filedup f ;;
      ret fd
  end.

Definition sys_read : K Z :=
  a <- argfd 0 ;;
  match a with
  | None => ret (-1)
  | Some (_, f) =>
      n <- argint 2 ;;
      p <- argaddr 1 ;;
      fileread f p n
  end.

Definition sys_write : K Z :=
  a <- argfd 0 ;;
  match a with
  | None => ret (-1)
  | Some (_, f) =>
      n <- argint 2 ;;
      p <- argaddr 1 ;;
      filewrite f p n
  end.

Definition sys_close : K Z :=
  a <- argfd 0 ;;
  match a with
  | None => ret (-1)
  | Some (fd, f) =>
      p <- this_proc ;;
      upd_proc p (λ pr, set_p_ofile (<[fd := None]> (p_ofile pr)) pr) ;;
      fileclose f ;;
      ret 0
  end.

Definition sys_fstat : K Z :=
  a <- argfd 0 ;;
  match a with
  | None => ret (-1)
  | Some (_, f) =>
      st <- argaddr 1 ;;
      filestat f st zeroes
  end.

(** nlink is a short. *)
Definition add_nlink (ip d : Z) : K unit := upd_inode ip (λ r, set_i_nlink (i16 (i_nlink r + d)) r).

Definition sys_link : K Z :=
  old <- arg_path 0 MAXPATH ;;
  match old with None => ret (-1) | Some old =>
  new <- arg_path 1 MAXPATH ;;
  match new with None => ret (-1) | Some new =>
  begin_op ;;
  mip <- namei old ;;
  match mip with
  | None => end_op ;; ret (-1)
  | Some ip =>
      ilock (Some ip) ;;
      r <- get_inode ip ;;
      if i_type r =? T_DIR then
        iunlockput ip ;;
        end_op ;;
        ret (-1)
      else
      add_nlink ip 1 ;;
      iupdate ip ;;
      iunlock (Some ip) ;;
      let bad :=
        ilock (Some ip) ;;
        add_nlink ip (-1) ;;
        iupdate ip ;;
        iunlockput ip ;;
        end_op ;;
        ret (-1) in
      d <- nameiparent new zeroes ;;
      match d.1 with
      | None => bad
      | Some dp =>
          ilock (Some dp) ;;
          rd <- get_inode dp ;;
          r <- get_inode ip ;;
          e <- (if negb (i_dev rd =? i_dev r) then ret (-1) else dirlink dp d.2 (i_inum r)) ;;
          if e <? 0 then
            iunlockput dp ;;
            bad
          else
            iunlockput dp ;;
            iput ip ;;
            end_op ;;
            ret 0
      end
  end end end.

(** for (off = 2*sizeof(de); off < dp->size; off += sizeof(de)) *)
Definition isdirempty (dp : Z) : K bool :=
  r <- get_inode dp ;;
  f <- for_find (drop 2 (dir_offs (i_size r))) (λ off,
    x <- readi dp false 0 zeroes off sizeof_dirent ;;
    if negb (x.1 =? sizeof_dirent) then panic "isdirempty: readi" else
    if negb (de_inum x.2 =? 0) then ret (Some false) else ret None) ;;
  ret (default true f).

Definition sys_unlink : K Z :=
  path <- arg_path 0 MAXPATH ;;
  match path with None => ret (-1) | Some path =>
  begin_op ;;
  d <- nameiparent path zeroes ;;
  match d.1 with
  | None => end_op ;; ret (-1)
  | Some dp =>
      let name := d.2 in
      let bad := iunlockput dp ;; end_op ;; ret (-1) in
      ilock (Some dp) ;;
      if (namecmp name dot =? 0) || (namecmp name dotdot =? 0) then bad else
      f <- dirlookup dp name ;;
      match f.1 with
      | None => bad
      | Some ip =>
          let off := f.2 in
          ilock (Some ip) ;;
          r <- get_inode ip ;;
          if i_nlink r <? 1 then panic "unlink: nlink < 1" else
          e <- (if i_type r =? T_DIR then isdirempty ip else ret true) ;;
          if negb e then
            iunlockput ip ;;
            bad
          else
          n <- writei dp false 0 zeroes off sizeof_dirent ;;
          if negb (n =? sizeof_dirent) then panic "unlink: writei" else
          r <- get_inode ip ;;
          when (i_type r =? T_DIR) (
            add_nlink dp (-1) ;;
            iupdate dp) ;;
          iunlockput dp ;;
          add_nlink ip (-1) ;;
          iupdate ip ;;
          iunlockput ip ;;
          end_op ;;
          ret 0
      end
  end end.

(** ialloc panics instead of returning 0. *)
Definition create (path : list Z) (type major minor : Z) : K (option Z) :=
  d <- nameiparent path zeroes ;;
  match d.1 with
  | None => ret None
  | Some dp =>
      let name := d.2 in
      ilock (Some dp) ;;
      f <- dirlookup dp name ;;
      match f.1 with
      | Some ip =>
          iunlockput dp ;;
          ilock (Some ip) ;;
          r <- get_inode ip ;;
          if (type =? T_FILE) && ((i_type r =? T_FILE) || (i_type r =? T_DEVICE)) then ret (Some ip) else
          iunlockput ip ;;
          ret None
      | None =>
          rd <- get_inode dp ;;
          ip <- ialloc (i_dev rd) type ;;
          ilock (Some ip) ;;
          upd_inode ip (set_i_major major) ;;
          upd_inode ip (set_i_minor minor) ;;
          upd_inode ip (set_i_nlink 1) ;;
          iupdate ip ;;
          when (type =? T_DIR) (
            add_nlink dp 1 ;;
            iupdate dp ;;
            r <- get_inode ip ;;
            a <- dirlink ip dot (i_inum r) ;;
            if a <? 0 then panic "create dots" else
            rd <- get_inode dp ;;
            b <- dirlink ip dotdot (i_inum rd) ;;
            if b <? 0 then panic "create dots" else ret tt) ;;
          r <- get_inode ip ;;
          e <- dirlink dp name (i_inum r) ;;
          if e <? 0 then panic "create: dirlink" else
          iunlockput dp ;;
          ret (Some ip)
      end
  end.

(** The end of sys_open, with ip locked. *)
Definition open_inode (ip omode : Z) : K Z :=
  r <- get_inode ip ;;
  if (i_type r =? T_DEVICE) && ((i_major r <? 0) || (i_major r >=? NDEV)) then
    iunlockput ip ;;
    end_op ;;
    ret (-1)
  else
  mf <- filealloc ;;
  fd <- (match mf with Some f => fdalloc f | None => ret (-1) end) ;;
  match mf with
  | None =>
      iunlockput ip ;;
      end_op ;;
      ret (-1)
  | Some f =>
      if fd <? 0 then
        fileclose f ;;
        iunlockput ip ;;
        end_op ;;
        ret (-1)
      else
      r <- get_inode ip ;;
      (if i_type r =? T_DEVICE then
         upd_file f (set_f_type FD_DEVICE) ;;
         upd_file f (set_f_major (i_major r))
       else
         upd_file f (set_f_type FD_INODE) ;;
         upd_file f (set_f_off 0)) ;;
      upd_file f (set_f_ip (Some ip)) ;;
      upd_file f (set_f_readable (negb (nz (Z.land omode O_WRONLY)))) ;;
      upd_file f (set_f_writable (nz (Z.land omode O_WRONLY) || nz (Z.land omode O_RDWR))) ;;
      when (nz (Z.land omode O_TRUNC) && (i_type r =? T_FILE)) (itrunc ip) ;;
      iunlock (Some ip) ;;
      end_op ;;
      ret fd
  end.

Definition sys_open : K Z :=
  path <- arg_path 0 MAXPATH ;;
  match path with None => ret (-1) | Some path =>
  omode <- argint 1 ;;
  begin_op ;;
  if nz (Z.land omode O_CREATE) then
    mip <- create path T_FILE 0 0 ;;
    match mip with
    | None => end_op ;; ret (-1)
    | Some ip => open_inode ip omode
    end
  else
    mip <- namei path ;;
    match mip with
    | None => end_op ;; ret (-1)
    | Some ip =>
        ilock (Some ip) ;;
        r <- get_inode ip ;;
        if (i_type r =? T_DIR) && negb (omode =? O_RDONLY) then
          iunlockput ip ;;
          end_op ;;
          ret (-1)
        else open_inode ip omode
    end
  end.

Definition sys_mkdir : K Z :=
  begin_op ;;
  path <- arg_path 0 MAXPATH ;;
  mip <- (match path with Some path => create path T_DIR 0 0 | None => ret None end) ;;
  match mip with
  | None => end_op ;; ret (-1)
  | Some ip =>
      iunlockput ip ;;
      end_op ;;
      ret 0
  end.

Definition sys_mknod : K Z :=
  begin_op ;;
  path <- arg_path 0 MAXPATH ;;
  mip <- (match path with
          | None => ret None
          | Some path =>
              major <- argint 1 ;;
              minor <- argint 2 ;;
              create path T_DEVICE (i16 major) (i16 minor)
          end) ;;
  match mip with
  | None => end_op ;; ret (-1)
  | Some ip =>
      iunlockput ip ;;
      end_op ;;
      ret 0
  end.

Definition sys_chdir : K Z :=
  p <- this_proc ;;
  begin_op ;;
  path <- arg_path 0 MAXPATH ;;
  mip <- (match path with Some path => namei path | None => ret None end) ;;
  match mip with
  | None => end_op ;; ret (-1)
  | Some ip =>
      ilock (Some ip) ;;
      r <- get_inode ip ;;
      if negb (i_type r =? T_DIR) then
        iunlockput ip ;;
        end_op ;;
        ret (-1)
      else
      iunlock (Some ip) ;;
      pr <- get_proc p ;;
      cwd <- deref (p_cwd pr) ;;
      iput cwd ;;
      end_op ;;
      upd_proc p (set_p_cwd (Some ip)) ;;
      ret 0
  end.

(** The loop of sys_exec over the [n] entries of argv[] from [i] on: whether it
    ended at a null pointer, and the pages it allocated. *)
Fixpoint fetch_argv (n : nat) (uargv i : Z) (argv : list Z) : K (bool * list Z) :=
  match n with
  | O => ret (false, argv)
  | S n =>
      mu <- fetchaddr (u64 (uargv + 8 * i)) ;;
      match mu with
      | None => ret (false, argv)
      | Some uarg =>
          if uarg =? 0 then ret (true, argv) else
          page <- kalloc ;;
          if page =? 0 then ret (false, argv) else
          m <- gets (λ w, w_mem w) ;;
          r <- fetchstr uarg (λ x, m (page + x)) PGSIZE ;;
          modify (λ w, set_mem (mem_copy (w_mem w) page r.2 0 PGSIZE) w) ;;
          if r.1 <? 0 then ret (false, argv ++ [page]) else
          fetch_argv n uargv (i + 1) (argv ++ [page])
      end
  end.

Definition sys_exec : K Z :=
  path <- arg_path 0 MAXPATH ;;
  match path with None => ret (-1) | Some path =>
  uargv <- argaddr 1 ;;
  a <- fetch_argv (Z.to_nat MAXARG) uargv 0 [] ;;
  if negb a.1 then for_each a.2 kfree ;; ret (-1) else
  r <- exec path a.2 ;;
  for_each a.2 kfree ;;
  ret r
  end.

Definition clear_fd (p fd : Z) : K unit :=
  upd_proc p (λ pr, set_p_ofile (<[fd := None]> (p_ofile pr)) pr).

Definition sys_pipe : K Z :=
  p <- this_proc ;;
  fdarray <- argaddr 0 ;;
  r <- pipealloc ;;
  match r with
  | None => ret (-1)
  | Some (rf, wf) =>
      fd0 <- fdalloc rf ;;
      fd1 <- (if fd0 <? 0 then ret (-1) else fdalloc wf) ;;
      if fd1 <? 0 then
        when (fd0 >=? 0) (clear_fd p fd0) ;;
        fileclose rf ;;
        fileclose wf ;;
        ret (-1)
      else
      pr <- get_proc p ;;
      e <- copyout (p_pagetable pr) fdarray (st32 zeroes 0 fd0) 4 ;;
      e <- (if e <? 0 then ret e
            else copyout (p_pagetable pr) (u64 (fdarray + 4)) (st32 zeroes 0 fd1) 4) ;;
      if e <? 0 then
        clear_fd p fd0 ;;
        clear_fd p fd1 ;;
        fileclose rf ;;
        fileclose wf ;;
        ret (-1)
      else ret 0
  end.

End Sysfile.
