(* ===== verification/VirtioDisk.v ===== *)
(** * virtio_disk.c: the driver of the virtio block device

    struct disk is [vdisk]: the descriptors, the avail and used rings that the
    driver shares with the device, and the driver's own book-keeping.  What a
    descriptor points to is [daddr]; the request header of virtio_disk_rw is on
    the kernel stack, and [AHdr] stands for the address that kvmpa translates it
    to.  Stores to the registers of the device are recorded in order. *)

From S2P Require Import Prelude Types StringC Spinlock Sched Riscv.

(** ** virtio.h *)

Definition VIRTIO_MMIO_MAGIC_VALUE : Z := 0x000.
Definition VIRTIO_MMIO_VERSION : Z := 0x004.
Definition VIRTIO_MMIO_DEVICE_ID : Z := 0x008.
Definition VIRTIO_MMIO_VENDOR_ID : Z := 0x00c.
Definition VIRTIO_MMIO_DEVICE_FEATURES : Z := 0x010.
Definition VIRTIO_MMIO_DRIVER_FEATURES : Z := 0x020.
Definition VIRTIO_MMIO_GUEST_PAGE_SIZE : Z := 0x028.
Definition VIRTIO_MMIO_QUEUE_SEL : Z := 0x030.
Definition VIRTIO_MMIO_QUEUE_NUM_MAX : Z := 0x034.
Definition VIRTIO_MMIO_QUEUE_NUM : Z := 0x038.
Definition VIRTIO_MMIO_QUEUE_PFN : Z := 0x040.
Definition VIRTIO_MMIO_QUEUE_NOTIFY : Z := 0x050.
Definition VIRTIO_MMIO_INTERRUPT_STATUS : Z := 0x060.
Definition VIRTIO_MMIO_INTERRUPT_ACK : Z := 0x064.
Definition VIRTIO_MMIO_STATUS : Z := 0x070.
Definition VIRTIO_CONFIG_S_ACKNOWLEDGE : Z := 1.
Definition VIRTIO_CONFIG_S_DRIVER : Z := 2.
Definition VIRTIO_CONFIG_S_DRIVER_OK : Z := 4.
Definition VIRTIO_CONFIG_S_FEATURES_OK : Z := 8.
Definition VIRTIO_BLK_F_RO : Z := 5.
Definition VIRTIO_BLK_F_SCSI : Z := 7.
Definition VIRTIO_BLK_F_CONFIG_WCE : Z := 11.
Definition VIRTIO_BLK_F_MQ : Z := 12.
Definition VIRTIO_F_ANY_LAYOUT : Z := 27.
Definition VIRTIO_RING_F_INDIRECT_DESC : Z := 28.
Definition VIRTIO_RING_F_EVENT_IDX : Z := 29.

Definition read_R (r : Z) : K Z := v <- mmio_read (VIRTIO0 + r) ;; ret (u32 v).
Definition get_vd : K vdisk := gets (λ w, w_vd w).
Definition upd_vd (f : vdisk → vdisk) : K unit := modify (λ w, set_vd (f (w_vd w)) w).

Definition write_R (r v : Z) : K unit := upd_vd (λ d, set_v_regs (v_regs d ++ [(r, u32 v)]) d).

(** The features the driver does not want. *)
Definition negotiated (features : Z) : Z :=
  foldl (λ f bit, Z.land f (Z.lnot (1 ≪ bit))) features
    [VIRTIO_BLK_F_RO; VIRTIO_BLK_F_SCSI; VIRTIO_BLK_F_CONFIG_WCE; VIRTIO_BLK_F_MQ;
     VIRTIO_F_ANY_LAYOUT; VIRTIO_RING_F_EVENT_IDX; VIRTIO_RING_F_INDIRECT_DESC].

Definition virtio_disk_init `{Layout} : K unit :=
  initlock LDisk "virtio_disk" ;;
  magic <- read_R VIRTIO_MMIO_MAGIC_VALUE ;;
  version <- read_R VIRTIO_MMIO_VERSION ;;
  device <- read_R VIRTIO_MMIO_DEVICE_ID ;;
  vendor <- read_R VIRTIO_MMIO_VENDOR_ID ;;
  if negb (magic =? 0x74726976) || negb (version =? 1) || negb (device =? 2) || negb (vendor =? 0x554d4551)
  then panic "could not find virtio disk" else
  let status := VIRTIO_CONFIG_S_ACKNOWLEDGE in
  write_R VIRTIO_MMIO_STATUS status ;;
  let status := Z.lor status VIRTIO_CONFIG_S_DRIVER in
  write_R VIRTIO_MMIO_STATUS status ;;
  features <- read_R VIRTIO_MMIO_DEVICE_FEATURES ;;
  write_R VIRTIO_MMIO_DRIVER_FEATURES (negotiated features) ;;
  let status := Z.lor status VIRTIO_CONFIG_S_FEATURES_OK in
  write_R VIRTIO_MMIO_STATUS status ;;
  let status := Z.lor status VIRTIO_CONFIG_S_DRIVER_OK in
  write_R VIRTIO_MMIO_STATUS status ;;
  write_R VIRTIO_MMIO_GUEST_PAGE_SIZE PGSIZE ;;
  write_R VIRTIO_MMIO_QUEUE_SEL 0 ;;
  max <- read_R VIRTIO_MMIO_QUEUE_NUM_MAX ;;
  if max =? 0 then panic "virtio disk has no queue 0" else
  if max <? NUM then panic "virtio disk max queue too short" else
  write_R VIRTIO_MMIO_QUEUE_NUM NUM ;;
  upd_vd (set_v_desc (λ _, mkVdesc ANull 0 0 0)) ;;
  upd_vd (set_v_avail_idx 0) ;;
  upd_vd (set_v_avail zeroes) ;;
  upd_vd (set_v_used_id 0) ;;
  upd_vd (set_v_used zeroes) ;;
  write_R VIRTIO_MMIO_QUEUE_PFN (disk_pages ≫ PGSHIFT) ;;
  for_each (seqZ 0 NUM) (λ i, upd_vd (λ d, set_v_free (<[i := true]> (v_free d)) d)).

(** ** Descriptors *)

Definition upd_desc (i : Z) (f : vdesc → vdesc) : K unit :=
  upd_vd (λ d, set_v_desc (alter f i (v_desc d)) d).

Definition alloc_desc : K Z :=
  r <- for_find (seqZ 0 NUM) (λ i,
    d <- get_vd ;;
    if v_free d i then upd_vd (λ d, set_v_free (<[i := false]> (v_free d)) d) ;; ret (Some i)
    else ret None) ;;
  ret (default (-1) r).

Definition free_desc (i : Z) : K unit :=
  if i >=? NUM then panic "virtio_disk_intr 1" else
  d <- get_vd ;;
  if v_free d i then panic "virtio_disk_intr 2" else
  upd_desc i (set_d_addr ANull) ;;
  upd_vd (λ d, set_v_free (<[i := true]> (v_free d)) d) ;;
  wakeup CDiskFree.

(** A chain frees a descriptor per round: NUM rounds are enough. *)
Fixpoint free_chain_loop (fuel : nat) (i : Z) : K unit :=
  match fuel with
  | O => λ _ _, NoFuel
  | S fuel =>
      free_desc i ;;
      d <- get_vd ;;
      if nz (Z.land (d_flags (v_desc d i)) VRING_DESC_F_NEXT) then free_chain_loop fuel (d_next (v_desc d i))
      else ret tt
  end.

Definition free_chain (i : Z) : K unit := free_chain_loop (S (Z.to_nat NUM)) i.

(** for (int i = 0; i < 3; i++), with the [i] indices so far in [idx]. *)
Fixpoint alloc3_loop (n : nat) (idx : list Z) : K (option (list Z)) :=
  match n with
  | O => ret (Some idx)
  | S n =>
      i <- alloc_desc ;;
      if i <? 0 then for_each idx free_desc ;; ret None
      else alloc3_loop n (idx ++ [i])
  end.

(** [None] is -1, otherwise idx[]. *)
Definition alloc3_desc : K (option (list Z)) := alloc3_loop 3 [].

(** ** Requests *)

Definition upd_disk_buf (b : Z) (f : buf → buf) : K unit :=
  modify (λ w, set_bufs (alter f b (w_bufs w)) w).

(** The middle of virtio_disk_rw: format the three descriptors and tell the
    device about them. *)
Definition submit (b : Z) (write : bool) (sector : Z) (idx : list Z) : K unit :=
  let idx0 := nth 0 idx 0 in
  let idx1 := nth 1 idx 0 in
  let idx2 := nth 2 idx 0 in
  let type := if write then VIRTIO_BLK_T_OUT else VIRTIO_BLK_T_IN in
  upd_desc idx0 (λ _, mkVdesc (AHdr type sector) 16 VRING_DESC_F_NEXT idx1) ;;
  upd_desc idx1 (λ _, mkVdesc (AData b) BSIZE
    (Z.lor (if write then 0 else VRING_DESC_F_WRITE) VRING_DESC_F_NEXT) idx2) ;;
  upd_vd (λ d, set_v_info_status (<[idx0 := 0]> (v_info_status d)) d) ;;
  upd_desc idx2 (λ _, mkVdesc (AStatus idx0) 1 VRING_DESC_F_WRITE 0) ;;
  upd_disk_buf b (set_b_disk true) ;;
  upd_vd (λ d, set_v_info_b (<[idx0 := Some b]> (v_info_b d)) d) ;;
  upd_vd (λ d, set_v_avail (<[v_avail_idx d `mod` NUM := idx0]> (v_avail d)) d) ;;
  upd_vd (λ d, set_v_avail_idx (u16 (v_avail_idx d + 1)) d) ;;
  write_R VIRTIO_MMIO_QUEUE_NOTIFY 0.

Definition virtio_disk_rw (b : Z) (write : bool) : K unit :=
  bf <- gets (λ w, w_bufs w b) ;;
  let sector := u32 (b_blockno bf * (BSIZE / 512)) in
  acquire LDisk ;;
  idx <- loop_wait (
    r <- alloc3_desc ;;
    match r with
    | Some idx => ret (Some idx)
    | None => sleep CDiskFree LDisk ;; ret None
    end) ;;
  submit b write sector idx ;;
  loop_wait (
    bf <- gets (λ w, w_bufs w b) ;;
    if b_disk bf then sleep (CBuf b) LDisk ;; ret None else ret (Some tt)) ;;
  let idx0 := nth 0 idx 0 in
  upd_vd (λ d, set_v_info_b (<[idx0 := None]> (v_info_b d)) d) ;;
  free_chain idx0 ;;
  release LDisk.

(** A round of virtio_disk_intr's loop. *)
Definition intr_round : K (option unit) :=
  d <- get_vd ;;
  if v_used_idx d `mod` NUM =? v_used_id d `mod` NUM then ret (Some tt) else
  let id := v_used d (v_used_idx d) in
  if negb (v_info_status d id =? 0) then panic "virtio_disk_intr status" else
  match v_info_b d id with
  | None => panic "kerneltrap"
  | Some b =>
      upd_disk_buf b (set_b_disk false) ;;
      wakeup (CBuf b) ;;
      upd_vd (λ d, set_v_used_idx ((v_used_idx d + 1) `mod` NUM) d) ;;
      ret None
  end.

(** Each round moves used_idx by one round the ring: NUM rounds are enough. *)
Definition virtio_disk_intr : K unit :=
  acquire LDisk ;;
  loop (S (Z.to_nat NUM)) intr_round ;;
  s <- read_R VIRTIO_MMIO_INTERRUPT_STATUS ;;
  write_R VIRTIO_MMIO_INTERRUPT_ACK (Z.land s 0x3) ;;
  release LDisk.
