(* ===== verification/VirtioProps.v ===== *)
(** * The disk driver implements the disk

    virtio_disk_rw, run with the block device and the interrupt handler as its
    environment, does what [Disk] promises to the buffer cache.  The device is a
    parameter: what is assumed of it is the part of the virtio specification that
    the driver relies on. *)

From S2P Require Import Prelude Types StringC Spinlock Sched Sleeplock Run Sleep Riscv VirtioDisk.

(** ** The device *)

Definition has_next (d : vdesc) : bool := nz (Z.land (d_flags d) VRING_DESC_F_NEXT).
Definition writable (d : vdesc) : bool := nz (Z.land (d_flags d) VRING_DESC_F_WRITE).

(** A block request: its type, its sector, the buffer and the slot of the status
    byte, when the descriptors from [i] on form one. *)
Definition request (d : vdisk) (i : Z) : option (Z * Z * Z * Z) :=
  let h := v_desc d i in
  let m := v_desc d (d_next h) in
  let s := v_desc d (d_next m) in
  match d_addr h, d_addr m, d_addr s with
  | AHdr t n, AData b, AStatus j =>
      if (d_len h =? 16) && has_next h && negb (writable h) &&
         (d_len m =? BSIZE) && has_next m && eqb (writable m) (t =? VIRTIO_BLK_T_IN) &&
         (d_len s =? 1) && negb (has_next s) && writable s
      then Some (t, n, b, j) else None
  | _, _, _ => None
  end.

(** The transfer of a block between buffer [b] and the sectors from [n] on. *)
Definition transfer (t n b : Z) (w : world) : world :=
  let k := n / (BSIZE / 512) in
  let data := b_data (w_bufs w b) in
  let read := t =? VIRTIO_BLK_T_IN in
  set_bufs (if read then alter (set_b_data (w_disk w k)) b (w_bufs w) else w_bufs w)
    (set_disk (if read then w_disk w else <[k := data]> (w_disk w))
      (set_dtrace (if read then w_dtrace w else w_dtrace w ++ [(k, data)]) w)).

(** The request is in the used ring, with its status. *)
Definition completed (i j : Z) (d : vdisk) : vdisk :=
  set_v_seen (u16 (v_seen d + 1))
    (set_v_info_status (<[j := 0]> (v_info_status d))
      (set_v_used_id (u16 (v_used_id d + 1))
        (set_v_used (<[v_used_id d `mod` NUM := i]> (v_used d)) d))).

Definition served (i t n b j : Z) (w : world) : world :=
  set_vd (completed i j (w_vd w)) (transfer t n b w).

(** What the virtio specification says of the next available request, when it is
    for a whole block. *)
Class Device := {
  device : world → world;
  device_serves w i t n b j :
    v_seen (w_vd w) ≠ v_avail_idx (w_vd w) → v_avail (w_vd w) (v_seen (w_vd w) `mod` NUM) = i →
    request (w_vd w) i = Some (t, n, b, j) → n `mod` (BSIZE / 512) = 0 →
    t = VIRTIO_BLK_T_IN ∨ t = VIRTIO_BLK_T_OUT →
    device w = served i t n b j w
}.

(** A device that does just that. *)
Definition sample_device_step (w : world) : world :=
  let d := w_vd w in
  let i := v_avail d (v_seen d `mod` NUM) in
  match request d i with
  | Some (t, n, b, j) => served i t n b j w
  | None => w
  end.

Lemma sample_device_serves w i t n b j :
  v_avail (w_vd w) (v_seen (w_vd w) `mod` NUM) = i → request (w_vd w) i = Some (t, n, b, j) →
  sample_device_step w = served i t n b j w.
Proof. intros <- E. unfold sample_device_step. by rewrite E. Qed.

Definition sample_device : Device :=
  {| device := sample_device_step; device_serves w i t n b j _ Hi Hr _ _ := sample_device_serves w i t n b j Hi Hr |}.

(** ** The rest of the system while the caller sleeps

    The scheduler lets go of the process, the device serves the request and
    interrupts, and the scheduler comes to the process again. *)

Section Env.
Context `{Device}.

Definition meanwhile (p : Z) : K unit :=
  c <- mycpu ;;
  upd_cpu c (set_c_proc None) ;;
  release (LProc p) ;;
  modify device ;;
  virtio_disk_intr ;;
  acquire (LProc p) ;;
  pr <- get_proc p ;;
  if decide (p_state pr = RUNNABLE) then
    upd_proc p (set_p_state RUNNING) ;;
    upd_cpu c (set_c_proc (Some p))
  else wait_event.

Definition serve (w : world) : world :=
  match c_proc (my_cpu w) with
  | Some p => match meanwhile p [] w with Ret _ _ w' => w' | _ => w end
  | None => w
  end.

(** Between requests: every descriptor is free and the rings are even. *)
Definition vd_even (d : vdisk) : Prop :=
  (∀ i, 0 ≤ i < NUM → v_free d i = true) ∧ v_seen d = v_avail_idx d ∧ 0 ≤ v_avail_idx d < 2 ^ 16 ∧
  v_used_idx d = v_used_id d `mod` NUM ∧ 0 ≤ v_used_id d < 2 ^ 16.

(** virtio_disk_rw with the environment above as what happens while it sleeps. *)
#[export] Instance virtio : DiskOps := {|
  disk_rw := λ b write env w, virtio_disk_rw b write (serve :: env) w;
  vd_idle := vd_even
|}.

End Env.

(** ** Steps of the driver *)

Lemma get_vd_at env d w : get_vd env (set_vd d w) = Ret d env (set_vd d w).
Proof. reflexivity. Qed.
Lemma upd_vd_at f env d w : upd_vd f env (set_vd d w) = Ret tt env (set_vd (f d) w).
Proof. reflexivity. Qed.
Lemma upd_desc_at i f env d w : upd_desc i f env (set_vd d w) = Ret tt env (set_vd (set_v_desc (alter f i (v_desc d)) d) w).
Proof. reflexivity. Qed.
Lemma write_R_at r x env d w :
  write_R r x env (set_vd d w) = Ret tt env (set_vd (set_v_regs (v_regs d ++ [(r, u32 x)]) d) w).
Proof. reflexivity. Qed.

Lemma read_R_at r env d w : read_R r env (set_vd d w) = Ret (u32 (w_dev w (VIRTIO0 + r))) env (set_vd d w).
Proof. reflexivity. Qed.

Lemma descriptors : seqZ 0 NUM = [0; 1; 2; 3; 4; 5; 6; 7].
Proof. reflexivity. Qed.

Definition took_desc (i : Z) (d : vdisk) : vdisk := set_v_free (<[i := false]> (v_free d)) d.

(** alloc_desc takes the first free descriptor. *)
Lemma alloc_desc_first i env d w :
  0 ≤ i < NUM → (∀ j, 0 ≤ j < i → v_free d j = false) → v_free d i = true →
  alloc_desc env (set_vd d w) = Ret i env (set_vd (took_desc i d) w).
Proof.
  intros Hi Hbusy Hfree. unfold alloc_desc.
  assert (E : ∀ k n, 0 ≤ k → i < k + Z.of_nat n → k ≤ i → for_find (seqZ k (Z.of_nat n)) (λ i,
      d <- get_vd ;;
      if v_free d i then upd_vd (λ d, set_v_free (<[i := false]> (v_free d)) d) ;; ret (Some i)
      else ret None) env (set_vd d w) = Ret (Some i) env (set_vd (took_desc i d) w)).
  { intros k n. revert k. induction n as [|n IH]; intros k Hk Hl Hle; [lia|].
    rewrite seqZ_cons by lia. cbn [for_find]. mstep. mcall get_vd_at. destruct (decide (k = i)) as [->|Hne].
    - rewrite Hfree. mstep. mcall upd_vd_at. reflexivity.
    - rewrite Hbusy by lia. mstep. replace (Z.pred (Z.of_nat (S n))) with (Z.of_nat n) by lia.
      apply IH; lia. }
  mcall (E 0 8%nat); [unfold NUM in Hi; lia..|]. reflexivity.
Qed.

Lemma alloc3_idle env d w :
  (∀ i, 0 ≤ i < NUM → v_free d i = true) →
  alloc3_desc env (set_vd d w) = Ret (Some [0; 1; 2]) env (set_vd (took_desc 2 (took_desc 1 (took_desc 0 d))) w).
Proof.
  intros Hf. unfold alloc3_desc. cbn [alloc3_loop].
  mcall (alloc_desc_first 0); [done|lia|by apply Hf|]. cbn [Z.ltb Z.compare app].
  mcall (alloc_desc_first 1); [done| |by apply Hf|].
  { intros j Hj. replace j with 0 by lia. apply fn_lookup_insert. }
  cbn [Z.ltb Z.compare app]. mcall (alloc_desc_first 2); [done| |by apply Hf|reflexivity].
  intros j Hj. unfold took_desc. rsimpl. destruct (decide (j = 1)) as [->|]; [apply fn_lookup_insert|].
  rewrite fn_lookup_insert_ne by done. replace j with 0 by lia. apply fn_lookup_insert.
Qed.

(** Freeing inside the critical section. *)
Definition freed_desc (i : Z) (d : vdisk) : vdisk :=
  set_v_free (<[i := true]> (v_free d)) (set_v_desc (alter (set_d_addr ANull) i (v_desc d)) d).

Lemma freed_flags i d j : d_flags (v_desc (freed_desc i d) j) = d_flags (v_desc d j).
Proof. unfold freed_desc. rsimpl. rewrite fn_alter_insert, fn_lookup_insert_if. by case_decide; subst. Qed.
Lemma freed_next i d j : d_next (v_desc (freed_desc i d) j) = d_next (v_desc d j).
Proof. unfold freed_desc. rsimpl. rewrite fn_alter_insert, fn_lookup_insert_if. by case_decide; subst. Qed.
Lemma freed_free i d j : i ≠ j → v_free (freed_desc i d) j = v_free d j.
Proof. intros Hij. unfold freed_desc. rsimpl. by rewrite fn_lookup_insert_ne. Qed.

Lemma free_desc_run i env d w :
  i < NUM → v_free d i = false → cpu_ok w → procs_free w → c_noff (my_cpu w) ≠ 0 →
  free_desc i env (set_vd d w) =
  Ret tt env (set_vd (freed_desc i d) (set_procs (woken CDiskFree all_procs (w_procs w)) w)).
Proof.
  intros Hi Hf Hok Hp Hn. unfold free_desc. rewrite Z.geb_leb, (proj2 (Z.leb_gt _ _)) by done.
  mcall get_vd_at. rewrite Hf. mcall upd_desc_at. mcall upd_vd_at.
  etransitivity; [by apply wakeup_run|]. rewrite settle_inside by done. reflexivity.
Qed.

(** The chain of a request. *)
Definition chained (i0 i1 i2 : Z) (d : vdisk) : Prop :=
  NoDup [i0; i1; i2] ∧ i0 < NUM ∧ i1 < NUM ∧ i2 < NUM ∧
  v_free d i0 = false ∧ v_free d i1 = false ∧ v_free d i2 = false ∧
  has_next (v_desc d i0) = true ∧ d_next (v_desc d i0) = i1 ∧
  has_next (v_desc d i1) = true ∧ d_next (v_desc d i1) = i2 ∧ has_next (v_desc d i2) = false.

Lemma free_chain_run i0 i1 i2 env d w :
  chained i0 i1 i2 d → cpu_ok w → procs_free w → c_noff (my_cpu w) ≠ 0 →
  free_chain i0 env (set_vd d w) =
  Ret tt env (set_vd (freed_desc i2 (freed_desc i1 (freed_desc i0 d)))
    (set_procs (Nat.iter 3 (woken CDiskFree all_procs) (w_procs w)) w)).
Proof.
  intros (Hd & H0 & H1 & H2 & F0 & F1 & F2 & N0 & E0 & N1 & E1 & N2) Hok Hp Hn.
  apply NoDup_cons in Hd as [D0 Hd]. apply NoDup_cons in Hd as [D1 _]. unfold has_next in *.
  assert (i0 ≠ i1 ∧ i0 ≠ i2 ∧ i1 ≠ i2) as (D01 & D02 & D12) by (split_and!; set_solver).
  unfold free_chain. change (S (Z.to_nat NUM)) with 9%nat. cbn [free_chain_loop Nat.iter nat_rect].
  mcall free_desc_run. mcall get_vd_at. rewrite freed_flags, freed_next, N0, E0.
  mcall free_desc_run; [by rewrite freed_free|].
  mcall get_vd_at. rewrite !freed_flags, !freed_next, N1, E1.
  mcall free_desc_run; [by rewrite !freed_free|].
  mcall get_vd_at. rewrite !freed_flags, N2. reflexivity.
Qed.

(** ** The interrupt handler *)

Definition acked (d : vdisk) (x : Z) : vdisk := set_v_regs (v_regs d ++ [(VIRTIO_MMIO_INTERRUPT_ACK, x)]) d.

(** One completed request is waiting. *)
Lemma intr_run u b i env :
  cpu_ok u → lk_free u LDisk → procs_free u →
  let d := w_vd u in
  0 ≤ v_used_idx d < NUM → v_used_id d `mod` NUM = (v_used_idx d + 1) `mod` NUM →
  v_used d (v_used_idx d) = i → v_info_status d i = 0 → v_info_b d i = Some b →
  ∃ x, virtio_disk_intr env u = Ret tt env
    (set_vd (acked (set_v_used_idx ((v_used_idx d + 1) `mod` NUM) d) x)
      (set_procs (woken (CBuf b) all_procs (w_procs u))
        (set_bufs (alter (set_b_disk false) b (w_bufs u)) (settle u)))).
Proof.
  intros Hok Hl Hp d Hi Hid Hu Hst Hb. eexists.
  assert (Hn : c_noff (my_cpu (locked_by LDisk u)) ≠ 0) by (rewrite noff_locked_by; destruct Hok as (_ & ? & _); lia).
  assert (Hne : v_used_idx d `mod` NUM ≠ v_used_id d `mod` NUM).
  { rewrite Hid. unfold NUM in *. intros E. pose proof (Z.div_mod (v_used_idx d) 8). pose proof (Z.div_mod (v_used_idx d + 1) 8). lia. }
  unfold virtio_disk_intr. mcall acquire_free; [by destruct Hok|].
  change (S (Z.to_nat NUM)) with 9%nat.
  etransitivity; [apply bind_Ret; etransitivity; [apply loop_None|apply loop_Some]|].
  - unfold intr_round, get_vd. mstep. change (w_vd (locked_by LDisk u)) with d.
    rewrite (proj2 (Z.eqb_neq _ _) Hne), Hu, Hst. cbn [Z.eqb negb]. rewrite Hb. unfold upd_disk_buf. mstep.
    mcall wakeup_run; [by apply (cpu_ok_locked_by LDisk u)|]. rewrite settle_inside by exact Hn. unfold upd_vd. msteps. reflexivity.
  - unfold intr_round, get_vd. mstep. rsimpl. change (w_vd (locked_by LDisk u)) with d.
    rewrite Z.mod_mod, Hid, Z.eqb_refl by done. reflexivity.
  - unfold read_R, mmio_read. msteps. unfold write_R, upd_vd. msteps.
    etransitivity; [by apply (release_after LDisk env u)|]. reflexivity.
Qed.

(** ** While the caller sleeps *)

Lemma cproc_locked l c v :
  set_cpus (alter (set_c_proc c) (w_tp v) (w_cpus (locked_by l v))) (locked_by l v) =
  locked_by l (set_cpus (alter (set_c_proc c) (w_tp v) (w_cpus v)) v).
Proof.
  unfold locked_by, pushed, my_cpu. rsimpl. rewrite !fn_alter_insert, !fn_lookup_insert, !fn_insert_insert. reflexivity.
Qed.

(** The cpu without a process, and with it again. *)
Definition vacant (w : world) : world := set_cpus (alter (set_c_proc None) (w_tp w) (w_cpus w)) w.

Lemma vacant_ok w : cpu_ok w → cpu_ok (vacant w).
Proof.
  intros (Ht & Hn & Hs). unfold cpu_ok, my_cpu, vacant. rsimpl. rewrite fn_alter_insert, fn_lookup_insert. done.
Qed.

Lemma vacant_back w p : c_proc (my_cpu w) = Some p → c_noff (my_cpu w) = 0 →
  alter (set_c_proc (Some p)) (w_tp w) (w_cpus (settle (settle (vacant w)))) = w_cpus (settle w).
Proof.
  intros Hp Hn. rewrite settle_settle. unfold settle, vacant, my_cpu in *. rsimpl.
  rewrite !fn_alter_insert, !fn_lookup_insert. rsimpl. rewrite Hn. cbn [Z.eqb].
  rewrite fn_lookup_insert, !fn_insert_insert. f_equal. change (sie (set_cpus _ w)) with (sie w). destruct (w_cpus w (w_tp w)). cbn in *.
  by subst.
Qed.

Section Meanwhile.
Context `{Device} (v : world) (p i t n b j : Z) (Hc : calm v p) (Hp : 0 ≤ p < NPROC).
Context (Hst : p_state (w_procs v p) = SLEEPING) (Hch : p_chan (w_procs v p) = Some (CBuf b)).
Context (Hseen : v_seen (w_vd v) ≠ v_avail_idx (w_vd v)) (Hav : v_avail (w_vd v) (v_seen (w_vd v) `mod` NUM) = i).
Context (Hreq : request (w_vd v) i = Some (t, n, b, j)) (Hn : n `mod` (BSIZE / 512) = 0).
Context (Ht : t = VIRTIO_BLK_T_IN ∨ t = VIRTIO_BLK_T_OUT).
Context (Hui : v_used_idx (w_vd v) = v_used_id (w_vd v) `mod` NUM) (Hu : 0 ≤ v_used_id (w_vd v) < 2 ^ 16).
Context (Hij : i = j) (Hib : v_info_b (w_vd v) i = Some b).

(** The state of the driver after the interrupt. *)
Definition after_intr (x : Z) (d : vdisk) : vdisk :=
  acked (set_v_used_idx ((v_used_idx d + 1) `mod` NUM) (completed i j d)) x.

Lemma used_next : u16 (v_used_id (w_vd v) + 1) `mod` NUM = (v_used_idx (w_vd v) + 1) `mod` NUM.
Proof using Hui Hu.
  rewrite Hui. unfold u16, NUM. rewrite Zplus_mod_idemp_l, Z.mod_mod_divide; [done|]. by exists (2 ^ 13).
Qed.

Lemma meanwhile_run env :
  ∃ x, meanwhile p env (locked_by (LProc p) v) = Ret tt env (locked_by (LProc p)
    (set_vd (after_intr x (w_vd v))
      (set_procs (alter (set_p_state RUNNING) p (woken (CBuf b) all_procs (w_procs v)))
        (set_bufs (alter (set_b_disk false) b (w_bufs (transfer t n b v))) (transfer t n b (settle v)))))).
Proof using All.
  destruct Hc as ([Hok Hcp] & Hnoff & Hfree). pose proof Hok as (Htp & _).
  set (u := served i t n b j (settle (vacant v))).
  assert (Hwoken : p_state (woken (CBuf b) all_procs (w_procs v) p) = RUNNABLE).
  { unfold woken, wake, sleeping_on. rewrite decide_True by (apply elem_of_seqZ; lia).
    rewrite Hst, Hch. rewrite !bool_decide_true by done. done. }
  destruct (intr_run u b i env) as [x E].
  { exact (settle_cpu_ok _ (vacant_ok v Hok)). } { apply Hfree. } { intros q _. apply Hfree. }
  { change (0 ≤ v_used_idx (w_vd v) < NUM). rewrite Hui. by apply Z.mod_pos_bound. } { exact used_next. }
  { change ((<[v_used_id (w_vd v) `mod` NUM := i]> (v_used (w_vd v))) (v_used_idx (w_vd v)) = i). rewrite Hui. apply fn_lookup_insert. }
  { change ((<[j := 0]> (v_info_status (w_vd v))) i = 0). rewrite Hij. apply fn_lookup_insert. } { exact Hib. }
  exists x. unfold meanwhile, mycpu. mcall cpuid_tp. unfold upd_cpu at 1. mstep.
  change (w_tp (locked_by (LProc p) v)) with (w_tp v). rewrite cproc_locked. fold (vacant v).
  mcall release_locked_by; [by apply vacant_ok|apply Hfree|]. mstep.
  rewrite (device_serves (settle (vacant v)) i t n b j) by done. fold u.
  mcall E. mcall acquire_free; [exact (Hfree (LProc p))|].
  unfold get_proc. mstep. set (z := set_vd _ _). change (w_procs (locked_by (LProc p) z)) with (woken (CBuf b) all_procs (w_procs v)).
  rewrite Hwoken, decide_True by done. unfold upd_proc, upd_cpu. msteps. f_equal.
  change (set_procs (alter (set_p_state RUNNING) p (w_procs (locked_by (LProc p) z))) (locked_by (LProc p) z))
    with (locked_by (LProc p) (set_procs (alter (set_p_state RUNNING) p (w_procs z)) z)).
  change (w_tp v) with (w_tp (set_procs (alter (set_p_state RUNNING) p (w_procs z)) z)).
  rewrite (cproc_locked (LProc p) (Some p) (set_procs (alter (set_p_state RUNNING) p (w_procs z)) z)). f_equal.
  change (w_tp (set_procs (alter (set_p_state RUNNING) p (w_procs z)) z)) with (w_tp v).
  change (w_cpus (set_procs (alter (set_p_state RUNNING) p (w_procs z)) z)) with (w_cpus (settle (settle (vacant v)))).
  rewrite vacant_back by done. reflexivity.
Qed.
End Meanwhile.

(** ** A whole request *)

Section Request.
Context (b : Z) (write : bool) (n : Z).

Definition rtype : Z := if write then VIRTIO_BLK_T_OUT else VIRTIO_BLK_T_IN.

(** The driver's state once the device has been notified. *)
Definition submitted (d : vdisk) : vdisk :=
  set_v_regs (v_regs d ++ [(VIRTIO_MMIO_QUEUE_NOTIFY, u32 0)])
  (set_v_avail_idx (u16 (v_avail_idx d + 1))
  (set_v_avail (<[v_avail_idx d `mod` NUM := 0]> (v_avail d))
  (set_v_info_b (<[0 := Some b]> (v_info_b d))
  (set_v_info_status (<[0 := 0]> (v_info_status d))
  (set_v_desc
    (<[2 := mkVdesc (AStatus 0) 1 VRING_DESC_F_WRITE 0]>
    (<[1 := mkVdesc (AData b) BSIZE (Z.lor (if write then 0 else VRING_DESC_F_WRITE) VRING_DESC_F_NEXT) 2]>
    (<[0 := mkVdesc (AHdr rtype n) 16 VRING_DESC_F_NEXT 1]> (v_desc d)))) d))))).

Lemma submit_run env d w :
  submit b write n [0; 1; 2] env (set_vd d w) =
  Ret tt env (set_vd (submitted d) (set_bufs (alter (set_b_disk true) b (w_bufs w)) w)).
Proof. reflexivity. Qed.

Lemma submitted_request d : request (submitted d) 0 = Some (rtype, n, b, 0).
Proof. unfold submitted, rtype. destruct write; reflexivity. Qed.

Lemma submitted_pending d : 0 ≤ v_avail_idx d < 2 ^ 16 → v_seen d = v_avail_idx d →
  v_seen (submitted d) ≠ v_avail_idx (submitted d) ∧ v_avail (submitted d) (v_seen (submitted d) `mod` NUM) = 0.
Proof.
  intros Hr Hs. unfold submitted. rsimpl. rewrite Hs. split; [|apply fn_lookup_insert]. unfold u16.
  intros E. pose proof (Z.div_mod (v_avail_idx d + 1) (2 ^ 16)). lia.
Qed.
End Request.

Lemma submitted_chained b write n d x f :
  chained 0 1 2 (set_v_info_b f (after_intr 0 0 x (submitted b write n (took_desc 2 (took_desc 1 (took_desc 0 d)))))).
Proof.
  split; [apply (bool_decide_unpack _); by vm_compute|]. split_and!; try done; unfold has_next; destruct write; reflexivity.
Qed.

(** The transfer is what [rw_done] says. *)
Lemma rw_done_fields b write w (R := rw_done b write w) :
  R = set_bufs (w_bufs R) (set_disk (w_disk R) (set_dtrace (w_dtrace R) w)).
Proof. unfold R, rw_done. by destruct write. Qed.

Lemma transfer_done b write n w v (R := rw_done b write w) :
  w_bufs v = alter (set_b_disk true) b (w_bufs w) → w_disk v = w_disk w → w_dtrace v = w_dtrace w →
  b_disk (w_bufs w b) = false → n / (BSIZE / 512) = b_blockno (w_bufs w b) →
  alter (set_b_disk false) b (w_bufs (transfer (rtype write) n b v)) = w_bufs R ∧
  w_disk (transfer (rtype write) n b v) = w_disk R ∧ w_dtrace (transfer (rtype write) n b v) = w_dtrace R.
Proof.
  intros Eb Ed Et Hb Ek. unfold transfer. rewrite Ek, Eb, Ed, Et. unfold R, rw_done, rtype.
  rewrite !(fn_alter_insert (set_b_disk true)), fn_lookup_insert. rsimpl.
  destruct write; cbn; rewrite !fn_alter_insert, !fn_lookup_insert, !fn_insert_insert; (split; [|done]).
  - apply fn_insert_same. destruct (w_bufs w b). cbn in *. by subst.
  - f_equal. destruct (w_bufs w b). cbn in *. by subst.
Qed.

Section Whole.
Context `{Device} (b : Z) (write : bool) (w : world) (p : Z).
Context (Hq : quiet w p) (Hd : vd_even (w_vd w)) (Hb : b_disk (w_bufs w b) = false) (Hblk : is_block (b_blockno (w_bufs w b))).

Let n : Z := b_blockno (w_bufs w b) * (BSIZE / 512).
Let d1 : vdisk := submitted b write n (took_desc 2 (took_desc 1 (took_desc 0 (w_vd w)))).
Let w1 : world := set_vd d1 (set_bufs (alter (set_b_disk true) b (w_bufs w)) (locked_by LDisk w)).
Let v : world := set_procs (alter (λ pr, set_p_state SLEEPING (set_p_chan (Some (CBuf b)) pr)) p (w_procs w1)) (leave w w1).

Lemma sector_block : u32 n = n ∧ n `mod` (BSIZE / 512) = 0 ∧ n / (BSIZE / 512) = b_blockno (w_bufs w b).
Proof using Hblk.
  unfold is_block in Hblk. unfold n. change (BSIZE / 512) with 2. split_and!.
  - apply u32_small. lia.
  - by apply Z.mod_mul.
  - by apply Z.div_mul.
Qed.

(** The world in which the process finds itself when it runs again. *)
Definition resumed (x : Z) : world :=
  set_vd (after_intr 0 0 x d1)
    (set_procs (alter (set_p_state RUNNING) p (woken (CBuf b) all_procs (w_procs v)))
      (set_bufs (alter (set_b_disk false) b (w_bufs (transfer (rtype write) n b v))) (transfer (rtype write) n b (settle v)))).

Lemma serve_run : ∃ x, serve (asleep (CBuf b) p (leave w w1)) = locked_by (LProc p) (resumed x).
Proof using All.
  destruct Hq as ([Hok Hcp] & Hn & Hl & Hs & Hch & Hp). destruct Hd as (Hf & Hse & Ha & Hui & Hu).
  destruct sector_block as (_ & Hm & _).
  assert (Hc : calm v p) by (split; [split; [exact Hok|exact Hcp]|split; [exact Hn|exact Hl]]).
  assert (Hvp : w_procs v p = set_p_state SLEEPING (set_p_chan (Some (CBuf b)) (w_procs w p))).
  { unfold v. rsimpl. by rewrite fn_alter_insert, fn_lookup_insert. }
  destruct (submitted_pending b write n (took_desc 2 (took_desc 1 (took_desc 0 (w_vd w)))) Ha Hse) as [Hs1 Hs2].
  destruct (meanwhile_run v p 0 (rtype write) n b 0) with (env := @nil (world → world)) as [x E]; try done.
  { by rewrite Hvp. } { by rewrite Hvp. } { apply submitted_request. } { unfold rtype. destruct write; tauto. }
  exists x. unfold serve. assert (Ecp : c_proc (my_cpu (asleep (CBuf b) p (leave w w1))) = Some p).
  { exact (f_equal c_proc (inside_my_cpu (LProc p) p v _ Hc (inside_self _ _))). }
  rewrite Ecp. change (asleep (CBuf b) p (leave w w1)) with (locked_by (LProc p) v). rewrite E. reflexivity.
Qed.

Lemma resumed_calm x : calm (resumed x) p ∧ sie (resumed x) = sie w.
Proof using Hq.
  destruct Hq as ([Hok Hcp] & Hn & Hl & _). split; [|done].
  split; [split; [exact (settle_cpu_ok w Hok)|rewrite <-Hcp; exact (cproc_settle w)]|].
  split; [rewrite <-Hn; exact (noff_settle w)|exact Hl].
Qed.

(** The driver's state after the request. *)
Definition finished (x : Z) : vdisk :=
  freed_desc 2 (freed_desc 1 (freed_desc 0
    (set_v_info_b (<[0 := None]> (v_info_b d1)) (after_intr 0 0 x d1)))).

Definition finished_procs : Z → proc :=
  Nat.iter 3 (woken CDiskFree all_procs)
    (alter (set_p_chan None) p (alter (set_p_state RUNNING) p (woken (CBuf b) all_procs (w_procs v)))).

Lemma virtio_rw_run env : ∃ x,
  virtio_disk_rw b write (serve :: env) w =
  Ret tt env (set_procs finished_procs (set_vd (finished x) (settle (rw_done b write w)))).
Proof using All.
  destruct serve_run as [x Ef]. exists x. destruct (resumed_calm x) as [Hc3 Hs3]. destruct sector_block as (Eu & _ & Ek).
  pose proof Hq as ([Hok Hcp] & Hn & Hl & Hs & Hch & Hp). pose proof Hd as (Hf & _).
  set (y := settle (set_procs (alter (set_p_chan None) p (w_procs (resumed x))) (resumed x))).
  assert (Hin : inside LDisk w w1) by done.
  assert (Hy : calm y p).
  { destruct Hc3 as ([Hok3 Hcp3] & Hn3 & Hl3). split; [split; [exact (settle_cpu_ok (resumed x) Hok3)|rewrite <-Hcp3; exact (cproc_settle (resumed x))]|].
    split; [rewrite <-Hn3; exact (noff_settle (resumed x))|exact Hl3]. }
  destruct Hy as ([Hoky _] & Hny & Hly).
  assert (Hb0 : b_disk (w_bufs (locked_by LDisk y) b) = false).
  { change (b_disk ((alter (set_b_disk false) b (w_bufs (transfer (rtype write) n b v))) b) = false).
    by rewrite fn_alter_insert, fn_lookup_insert. }
  assert (Hb1 : b_disk (w_bufs w1 b) = true) by (unfold w1; rsimpl; by rewrite fn_alter_insert, fn_lookup_insert).
  unfold virtio_disk_rw. mstep. fold n. rewrite Eu. mcall acquire_free; [by destruct Hok|apply Hl|].
  etransitivity; [apply bind_Ret, loop_wait_Some; mcall (alloc3_idle (serve :: env) (w_vd w) (locked_by LDisk w)); reflexivity|].
  mcall submit_run. fold d1. change (set_vd d1 _) with w1.
  etransitivity; [apply bind_Ret; unfold loop_wait; cbn [length]; etransitivity; [apply loop_None|apply loop_Some]|].
  - mstep. rewrite Hb1.
    mcall (sleep_returns (CBuf b) LDisk p w w1 (quiet_calm _ _ Hq) ltac:(done) Hin serve env (resumed x) Ef Hc3 Hs3). reflexivity.
  - fold y. mstep. rewrite Hb0. reflexivity.
  - cbv beta. cbn [nth]. change (locked_by LDisk y) with (set_vd (w_vd y) (locked_by LDisk y)). mcall upd_vd_at.
    mcall (free_chain_run 0 1 2).
    { apply submitted_chained. }
    { by apply cpu_ok_locked_by. } { by apply procs_free_locked; [intros q _; apply Hly|]. }
    { rewrite noff_locked_by, Hny. done. }
    etransitivity; [by apply (release_after LDisk env y)|]. f_equal.
    destruct (transfer_done b write n w v eq_refl eq_refl eq_refl Hb Ek) as (Eb & Ed & Et).
    rewrite (rw_done_fields b write w), <-Eb, <-Ed, <-Et.
    transitivity (set_procs finished_procs (set_vd (finished x)
      (set_bufs (alter (set_b_disk false) b (w_bufs (transfer (rtype write) n b v)))
        (set_disk (w_disk (transfer (rtype write) n b v)) (set_dtrace (w_dtrace (transfer (rtype write) n b v))
          (set_cpus (w_cpus (settle (settle (settle w)))) w)))))); [reflexivity|].
    rewrite !settle_settle. reflexivity.
Qed.
Lemma finished_erase : erase finished_procs = erase (w_procs w).
Proof using Hq.
  destruct Hq as (_ & _ & _ & Hs & Hch & Hp). unfold finished_procs. cbn [Nat.iter nat_rect]. rewrite !erase_woken.
  set (g := woken _ _ _). assert (Eg : g p = set_p_state RUNNABLE (set_p_chan (Some (CBuf b)) (w_procs w p))).
  { unfold g, woken, wake, sleeping_on. rewrite decide_True by (apply elem_of_seqZ; lia).
    replace (w_procs v p) with (set_p_state SLEEPING (set_p_chan (Some (CBuf b)) (w_procs w p)))
      by (unfold v; rsimpl; by rewrite fn_alter_insert, fn_lookup_insert).
    rsimpl. by rewrite !bool_decide_true. }
  assert (Ep : alter (set_p_chan None) p (alter (set_p_state RUNNING) p g) = <[p := w_procs w p]> g).
  { rewrite !fn_alter_insert, !fn_lookup_insert, !fn_insert_insert, Eg. f_equal. destruct (w_procs w p). cbn in *. by subst. }
  rewrite Ep. extensionality q. destruct (decide (p = q)) as [<-|Hne].
  - unfold erase. by rewrite fn_lookup_insert.
  - transitivity (erase g q); [unfold erase; by rewrite fn_lookup_insert_ne|]. unfold g. rewrite erase_woken.
    unfold erase, v. rsimpl. by rewrite fn_alter_insert, fn_lookup_insert_ne.
Qed.

Lemma finished_even x : vd_even (finished x).
Proof using Hd.
  destruct Hd as (Hf & Hs & Ha & Hui & Hu).
  assert (E1 : v_seen (finished x) = u16 (v_seen (w_vd w) + 1)) by done.
  assert (E2 : v_avail_idx (finished x) = u16 (v_avail_idx (w_vd w) + 1)) by done.
  assert (E3 : v_used_idx (finished x) = (v_used_idx (w_vd w) + 1) `mod` NUM) by done.
  assert (E4 : v_used_id (finished x) = u16 (v_used_id (w_vd w) + 1)) by done.
  split_and!.
  - intros i Hi. unfold finished, freed_desc at 1. rsimpl. rewrite fn_lookup_insert_if. case_decide as E2'; [done|].
    unfold freed_desc at 1. rsimpl. rewrite fn_lookup_insert_if. case_decide as E1'; [done|].
    unfold freed_desc. rsimpl. rewrite fn_lookup_insert_if. case_decide as E0'; [done|].
    unfold after_intr, acked, completed, d1, submitted, took_desc. rsimpl. rewrite !fn_lookup_insert_ne by done. by apply Hf.
  - by rewrite E1, E2, Hs.
  - rewrite E2. by apply Z.mod_pos_bound.
  - rewrite E2. by apply Z.mod_pos_bound.
  - rewrite E3, E4. symmetry. by apply used_next.
  - rewrite E4. by apply Z.mod_pos_bound.
  - rewrite E4. by apply Z.mod_pos_bound.
Qed.

Lemma virtio_rw_alike env : ∃ w', virtio_disk_rw b write (serve :: env) w = Ret tt env w' ∧ w' ~~ rw_done b write w.
Proof using All.
  destruct (virtio_rw_run env) as [x E]. eexists. split; [exact E|]. etransitivity; [|apply settle_alike].
  assert (Er : w_procs (rw_done b write w) = w_procs w ∧ w_vd (rw_done b write w) = w_vd w).
  { rewrite rw_done_fields. done. }
  destruct Er as [Ep Ev]. split.
  - apply norm_hide. change (w_procs (settle (rw_done b write w))) with (w_procs (rw_done b write w)). rewrite Ep. apply finished_erase.
  - change (w_vd (settle (rw_done b write w))) with (w_vd (rw_done b write w)). rewrite Ev.
    split; intros _; [exact Hd|apply finished_even].
Qed.
End Whole.

Lemma alike_quiet `{DiskOps} w w' p : w ~~ w' → quiet w' p → quiet w p.
Proof.
  intros E ([Hok Hcp] & Hn & Hl & Hs & Hch & Hp).
  assert (Ep : erase (w_procs w) p = erase (w_procs w') p) by (destruct E as [E _]; exact (f_equal (λ v, w_procs v p) E)).
  assert (Es : w_procs w p = w_procs w' p).
  { revert Ep. unfold erase. rewrite (decide_False (P := p_state (w_procs w' p) = SLEEPING)) by (by rewrite Hs).
    case_decide; [|done]. intros Ep. exfalso. by rewrite <-Ep in Hs. }
  split; [split; [by eapply alike_cpu_ok|by rewrite (alike_cproc _ _ E)]|].
  split; [by rewrite (alike_noff _ _ E)|]. split; [intros l; unfold lk_free; rewrite (alike_lk _ _ E); apply Hl|].
  by rewrite Es.
Qed.

Lemma virtio_rw_runs `{Device} b write w p :
  quiet w p → vd_even (w_vd w) → b_disk (w_bufs w b) = false → is_block (b_blockno (w_bufs w b)) →
  runs (disk_rw b write) w tt (rw_done b write w).
Proof.
  intros Hq Hd Hb Hk env w1 E. 
  assert (Eb : w_bufs w1 = w_bufs w) by exact (alike_field w_bufs _ _ E (λ _, eq_refl)).
  assert (Ek : w_disk w1 = w_disk w) by exact (alike_field w_disk _ _ E (λ _, eq_refl)).
  assert (Et : w_dtrace w1 = w_dtrace w) by exact (alike_field w_dtrace _ _ E (λ _, eq_refl)).
  destruct (virtio_rw_alike b write w1 p) with (env := env) as (w2 & R & E2).
  - by apply (alike_quiet _ w).
  - by apply (proj2 E).
  - by rewrite Eb.
  - by rewrite Eb.
  - exists w2. split; [exact R|]. rewrite E2. unfold rw_done. rewrite Eb, Ek, Et.
    destruct write.
    + by apply (alike_map (λ v, set_dtrace _ (set_disk _ v)) w1 w E).
    + by apply (alike_map (λ v, set_bufs _ v) w1 w E).
Qed.

#[export] Instance virtio_ok `{Device} : Disk virtio.
Proof. split. intros b write w p Hq Hd _ Hb Hk. by apply (virtio_rw_runs b write w p). Qed.

(** ** Initialization *)

Lemma write_R_regs r x env l d w :
  write_R r x env (set_vd (set_v_regs l d) w) = Ret tt env (set_vd (set_v_regs (l ++ [(r, u32 x)]) d) w).
Proof. reflexivity. Qed.

Lemma free_all env d w : ∃ f, (∀ i, 0 ≤ i < NUM → f i = true) ∧
  for_each (seqZ 0 NUM) (λ i, upd_vd (λ d, set_v_free (<[i := true]> (v_free d)) d)) env (set_vd d w) =
  Ret tt env (set_vd (set_v_free f d) w).
Proof.
  assert (E : ∀ i f, upd_vd (λ d, set_v_free (<[i := true]> (v_free d)) d) env (set_vd (set_v_free f d) w) =
    Ret tt env (set_vd (set_v_free (<[i := true]> f) d) w)) by done.
  change d with (set_v_free (v_free d) d) at 1. eexists.
  split; [|rewrite descriptors; cbn [for_each]; do 8 mcall E; reflexivity].
  intros i Hi. unfold NUM in Hi. rewrite !fn_lookup_insert_if. repeat (case_decide; [done|]). lia.
Qed.

Definition fresh_queue (d : vdisk) : vdisk :=
  set_v_used zeroes (set_v_used_id 0 (set_v_avail zeroes (set_v_avail_idx 0 (set_v_desc (λ _, mkVdesc ANull 0 0 0) d)))).

Lemma init_run `{Layout} env w :
  let r k := u32 (w_dev w (VIRTIO0 + k)) in
  v_seen (w_vd w) = 0 → v_used_idx (w_vd w) = 0 →
  ∃ w', virtio_disk_init env w =
    (if (r VIRTIO_MMIO_MAGIC_VALUE =? 0x74726976) && (r VIRTIO_MMIO_VERSION =? 1) &&
        (r VIRTIO_MMIO_DEVICE_ID =? 2) && (r VIRTIO_MMIO_VENDOR_ID =? 0x554d4551) then
       if r VIRTIO_MMIO_QUEUE_NUM_MAX =? 0 then Panic "virtio disk has no queue 0" else
       if r VIRTIO_MMIO_QUEUE_NUM_MAX <? NUM then Panic "virtio disk max queue too short" else Ret tt env w'
     else Panic "could not find virtio disk") ∧ vd_even (w_vd w') ∧ lk_free w' LDisk.
Proof.
  intros r Hs Hu. set (w0 := set_lk (alter (λ l, set_lk_cpu None (set_lk_locked false (set_lk_name "virtio_disk" l))) LDisk (w_lk w)) w).
  assert (E : ∃ l, virtio_disk_init env w =
    if (r VIRTIO_MMIO_MAGIC_VALUE =? 0x74726976) && (r VIRTIO_MMIO_VERSION =? 1) &&
       (r VIRTIO_MMIO_DEVICE_ID =? 2) && (r VIRTIO_MMIO_VENDOR_ID =? 0x554d4551) then
      if r VIRTIO_MMIO_QUEUE_NUM_MAX =? 0 then Panic "virtio disk has no queue 0" else
      if r VIRTIO_MMIO_QUEUE_NUM_MAX <? NUM then Panic "virtio disk max queue too short" else
      for_each (seqZ 0 NUM) (λ i, upd_vd (λ d, set_v_free (<[i := true]> (v_free d)) d)) env
        (set_vd (set_v_regs l (fresh_queue (w_vd w))) w0)
    else Panic "could not find virtio disk").
  { eexists. unfold virtio_disk_init, initlock, upd_lk. msteps.
    replace (set_lk _ _) with (set_vd (set_v_regs (v_regs (w_vd w)) (w_vd w)) w0)
      by (unfold w0; rsimpl; rewrite !fn_alter_insert, !fn_lookup_insert, !fn_insert_insert; reflexivity).
    do 4 mcall read_R_at. change (w_dev w0) with (w_dev w).
    fold (r VIRTIO_MMIO_MAGIC_VALUE) (r VIRTIO_MMIO_VERSION) (r VIRTIO_MMIO_DEVICE_ID) (r VIRTIO_MMIO_VENDOR_ID).
    rewrite <-!negb_andb. destruct (_ && _); [|reflexivity]. cbn [negb]. cbv zeta.
    do 2 mcall write_R_regs. mcall read_R_at. do 5 mcall write_R_regs. mcall read_R_at.
    change (w_dev w0) with (w_dev w). fold (r VIRTIO_MMIO_QUEUE_NUM_MAX).
    destruct (_ =? 0); [reflexivity|]. destruct (_ <? NUM); [reflexivity|].
    mcall write_R_regs. do 5 mcall upd_vd_at. mcall write_R_at. reflexivity. }
  destruct E as [l E]. destruct (free_all env (set_v_regs l (fresh_queue (w_vd w))) w0) as (f & Hf & Ef). rewrite Ef in E.
  eexists. split; [exact E|]. split.
  - split_and!; try done.
  - unfold lk_free, w0. rsimpl. by rewrite fn_alter_insert, fn_lookup_insert.
Qed.

(** ** The properties *)

Module Driver.

(** C9: virtio_disk_rw, with a device that follows the specification and the interrupt
    handler virtio_disk_intr in its environment, completes: a write puts the
    buffer on the disk, a read fills the buffer with the block, the three
    descriptors are free again and the caller holds what it held before. *)
Theorem virtio_refines_disk `{Device} b write w p :
  quiet w p → vd_even (w_vd w) → b_disk (w_bufs w b) = false → is_block (b_blockno (w_bufs w b)) →
  runs (λ env, virtio_disk_rw b write (serve :: env)) w tt (rw_done b write w).
Proof. apply virtio_rw_runs. Qed.

(** virtio_disk_init panics unless the device is a virtio disk with a queue that is
    long enough; then it leaves the driver ready for its first request. *)
Theorem virtio_disk_init_ready `{Layout} env w :
  let r k := u32 (w_dev w (VIRTIO0 + k)) in
  v_seen (w_vd w) = 0 → v_used_idx (w_vd w) = 0 →
  if (r VIRTIO_MMIO_MAGIC_VALUE =? 0x74726976) && (r VIRTIO_MMIO_VERSION =? 1) &&
     (r VIRTIO_MMIO_DEVICE_ID =? 2) && (r VIRTIO_MMIO_VENDOR_ID =? 0x554d4551) then
    if r VIRTIO_MMIO_QUEUE_NUM_MAX =? 0 then virtio_disk_init env w = Panic "virtio disk has no queue 0" else
    if r VIRTIO_MMIO_QUEUE_NUM_MAX <? NUM then virtio_disk_init env w = Panic "virtio disk max queue too short" else
    ∃ w', virtio_disk_init env w = Ret tt env w' ∧ vd_even (w_vd w') ∧ lk_free w' LDisk
  else virtio_disk_init env w = Panic "could not find virtio disk".
Proof.
  intros r Hs Hu. destruct (init_run env w Hs Hu) as (w' & E & Hv & Hl). fold r in E. rewrite E.
  destruct (_ && _); [|done]. destruct (_ =? 0); [done|]. destruct (_ <? NUM); [done|]. by exists w'.
Qed.

(** Buffer 3, for block 7, in a system with an idle driver. *)
Definition busy_world : world :=
  let w := running_world (λ _, zeroes) in
  set_vd (set_v_free (λ _, true) (w_vd w))
    (set_bufs (<[3 := set_b_data (λ _, 42) (set_b_blockno 7 (w_bufs w 3))]> (w_bufs w)) w).

Lemma virtio_refines_disk_witness :
  ∃ w', virtio_disk_rw 3 true [serve (H := sample_device)] busy_world = Ret tt [] w' ∧ w_disk w' 7 0 = 42.
Proof.
  destruct (virtio_refines_disk (H := sample_device) 3 true busy_world 1) with (env := @nil (world → world)) (w1 := busy_world)
    as (w' & E & A).
  - exact (running_world_quiet (λ _, zeroes)).
  - split_and!; done.
  - done.
  - done.
  - done.
  - exists w'. split; [exact E|]. assert (Ed : w_disk w' = w_disk (rw_done 3 true busy_world)) by exact (alike_field w_disk _ _ A (λ _, eq_refl)).
    by rewrite Ed.
Defined.

Lemma virtio_disk_init_ready_witness :
  let w := set_dev (<[VIRTIO0 + VIRTIO_MMIO_MAGIC_VALUE := 0x74726976]> (<[VIRTIO0 + VIRTIO_MMIO_VERSION := 1]>
    (<[VIRTIO0 + VIRTIO_MMIO_DEVICE_ID := 2]> (<[VIRTIO0 + VIRTIO_MMIO_VENDOR_ID := 0x554d4551]>
    (<[VIRTIO0 + VIRTIO_MMIO_QUEUE_NUM_MAX := 1024]> zeroes))))) image_world in
  ∃ w', virtio_disk_init (H := sample_layout) [] w = Ret tt [] w' ∧ vd_even (w_vd w').
Proof.
  intros w. destruct (virtio_disk_init_ready (H := sample_layout) [] w eq_refl eq_refl) as (w' & E & Hv & _).
  by exists w'.
Defined.
End Driver.
