(* ===== verification/Syscall.v ===== *)
(** * syscall.c: dispatch *)

From S2P Require Import Prelude Types StringC Spinlock Kalloc PageTable Vm Sched Sleeplock Run Bio Log Fs Riscv Uart Printf Console Pipe File Proc Exec SysArgs Sysfile.

(** ** syscall.h *)

Definition SYS_fork : Z := 1.
Definition SYS_exit : Z := 2.
Definition SYS_wait : Z := 3.
Definition SYS_pipe : Z := 4.
Definition SYS_read : Z := 5.
Definition SYS_kill : Z := 6.
Definition SYS_exec : Z := 7.
Definition SYS_fstat : Z := 8.
Definition SYS_chdir : Z := 9.
Definition SYS_dup : Z := 10.
Definition SYS_getpid : Z := 11.
Definition SYS_sbrk : Z := 12.
Definition SYS_sleep : Z := 13.
Definition SYS_uptime : Z := 14.
Definition SYS_open : Z := 15.
Definition SYS_write : Z := 16.
Definition SYS_mknod : Z := 17.
Definition SYS_unlink : Z := 18.
Definition SYS_link : Z := 19.
Definition SYS_mkdir : Z := 20.
Definition SYS_close : Z := 21.

Section Syscall.
Context `{DiskOps} `{Layout}.

(** syscalls[]: the number and the function; entry 0 is null. *)
Definition syscall_table : list (Z * K Z) :=
  [(SYS_fork, sys_fork); (SYS_exit, sys_exit); (SYS_wait, sys_wait); (SYS_pipe, sys_pipe);
   (SYS_read, sys_read); (SYS_kill, sys_kill); (SYS_exec, sys_exec); (SYS_fstat, sys_fstat);
   (SYS_chdir, sys_chdir); (SYS_dup, sys_dup); (SYS_getpid, sys_getpid); (SYS_sbrk, sys_sbrk);
   (SYS_sleep, sys_sleep); (SYS_uptime, sys_uptime); (SYS_open, sys_open); (SYS_write, sys_write);
   (SYS_mknod, sys_mknod); (SYS_unlink, sys_unlink); (SYS_link, sys_link); (SYS_mkdir, sys_mkdir);
   (SYS_close, sys_close)].

Definition syscalls (num : Z) : option (K Z) :=
  snd <$> List.find (λ e, e.1 =? num) syscall_table.

(** NELEM(syscalls) *)
Definition nsyscalls : Z := SYS_close + 1.

Definition syscall : K unit :=
  p <- this_proc ;;
  a7 <- get_tf p tf_a7 ;;
  let num := i32 a7 in
  match (if (num >? 0) && (num <? nsyscalls) then syscalls num else None) with
  | Some f =>
      r <- f ;;
      set_tf p tf_a0 r
  | None =>
      pr <- get_proc p ;;
      printf "kernel/syscall.c" 109 (Some (chars "%d %s: unknown sys call %d" ++ [10]))
        [VNum (p_pid pr); VStr (Some (upto_nul (p_name pr))); VNum num] ;;
      set_tf p tf_a0 (-1)
  end.

End Syscall.
