(* ===== verification/Trap.v ===== *)
(** * trap.c: traps, interrupts and the way back to user space; forkret

    usertrapret ends with a jump to the trampoline, which does not return: the
    result of [usertrapret] is where it jumps and the two arguments it passes. *)

From S2P Require Import Prelude Types StringC Spinlock Kalloc PageTable Vm Sched Sleeplock Run Bio Log Fs Riscv Uart Printf Console Pipe File Proc Exec SysArgs Sysfile Syscall VirtioDisk.

Definition trapinit : K unit := initlock LTicks "time".

Section Trap.
Context `{DiskOps} `{Layout}.

Definition trapinithart : K unit := w_stvec kernelvec.

Record user_entry := mkEntry { e_fn : Z; e_trapframe : Z; e_satp : Z }.

Definition usertrapret : K user_entry :=
  p <- this_proc ;;
  intr_off ;;
  w_stvec (u64 (TRAMPOLINE + (uservec - trampoline))) ;;
  satp <- r_satp ;;
  set_tf p tf_kernel_satp satp ;;
  pr <- get_proc p ;;
  set_tf p tf_kernel_sp (p_kstack pr + PGSIZE) ;;
  set_tf p tf_kernel_trap usertrap_addr ;;
  tp <- r_tp ;;
  set_tf p tf_kernel_hartid tp ;;
  x <- r_sstatus ;;
  let x := Z.land x (Z.lnot SSTATUS_SPP) in
  let x := Z.lor x SSTATUS_SPIE in
  w_sstatus x ;;
  epc <- get_tf p tf_epc ;;
  w_sepc epc ;;
  pr <- get_proc p ;;
  let satp := MAKE_SATP (p_pagetable pr) in
  let fn := u64 (TRAMPOLINE + (userret - trampoline)) in
  ret (mkEntry fn TRAPFRAME satp).

Definition clockintr : K unit :=
  acquire LTicks ;;
  modify (λ w, set_ticks (u32 (w_ticks w + 1)) w) ;;
  wakeup CTicks ;;
  release LTicks.

Definition devintr : K Z :=
  scause <- r_scause ;;
  if nz (Z.land scause 0x8000000000000000) && (Z.land scause 0xff =? 9) then
    irq <- plic_claim ;;
    (if irq =? UART0_IRQ then uartintr
     else if irq =? VIRTIO0_IRQ then virtio_disk_intr
     else when (nz irq)
       (printf "kernel/trap.c" 167 (Some (chars "unexpected interrupt irq=%d" ++ [10])) [VNum irq])) ;;
    when (nz irq) (plic_complete irq) ;;
    ret 1
  else if scause =? 0x8000000000000001 then
    c <- cpuid ;;
    when (c =? 0) clockintr ;;
    sip <- r_sip ;;
    w_sip (Z.land sip (Z.lnot 2)) ;;
    ret 2
  else ret 0.

Definition usertrap : K user_entry :=
  st <- r_sstatus ;;
  if nz (Z.land st SSTATUS_SPP) then panic "usertrap: not from user mode" else
  w_stvec kernelvec ;;
  p <- this_proc ;;
  sepc <- r_sepc ;;
  set_tf p tf_epc sepc ;;
  scause <- r_scause ;;
  which_dev <- (if scause =? 8 then
      pr <- get_proc p ;;
      when (p_killed pr) (exit (-1)) ;;
      epc <- get_tf p tf_epc ;;
      set_tf p tf_epc (epc + 4) ;;
      intr_on ;;
      syscall ;;
      ret 0
    else
      which_dev <- devintr ;;
      if nz which_dev then ret which_dev else
      scause <- r_scause ;;
      pr <- get_proc p ;;
      printf "kernel/trap.c" 59 (Some (chars "usertrap(): unexpected scause %p pid=%d" ++ [10]))
        [VNum scause; VNum (p_pid pr)] ;;
      sepc <- r_sepc ;;
      stval <- r_stval ;;
      printf "kernel/trap.c" 60 (Some (chars "            sepc=%p stval=%p" ++ [10])) [VNum sepc; VNum stval] ;;
      upd_proc p (set_p_killed true) ;;
      ret 0) ;;
  pr <- get_proc p ;;
  when (p_killed pr) (exit (-1)) ;;
  when (which_dev =? 2) yield ;;
  usertrapret.

Definition kerneltrap : K unit :=
  sepc <- r_sepc ;;
  sstatus <- r_sstatus ;;
  scause <- r_scause ;;
  if Z.land sstatus SSTATUS_SPP =? 0 then panic "kerneltrap: not from supervisor mode" else
  i <- intr_get ;;
  if (i : bool) then panic "kerneltrap: interrupts enabled" else
  which_dev <- devintr ;;
  (if which_dev =? 0 then
     printf "kernel/trap.c" 127 (Some (chars "scause %p" ++ [10])) [VNum scause] ;;
     sepc' <- r_sepc ;;
     stval <- r_stval ;;
     printf "kernel/trap.c" 128 (Some (chars "sepc=%p stval=%p" ++ [10])) [VNum sepc'; VNum stval] ;;
     panic "kerneltrap"
   else ret tt) ;;
  (if which_dev =? 2 then
     mp <- myproc ;;
     match mp with
     | None => ret tt
     | Some _ =>
         p <- this_proc ;;
         pr <- get_proc p ;;
         when (bool_decide (p_state pr = RUNNING)) yield
     end
   else ret tt) ;;
  w_sepc sepc ;;
  w_sstatus sstatus.

(** proc.c *)
Definition forkret : K user_entry :=
  p <- this_proc ;;
  release (LProc p) ;;
  first <- gets (λ w, w_first w) ;;
  when first (
    modify (λ w, set_first false w) ;;
    fsinit ROOTDEV) ;;
  usertrapret.

End Trap.
