(* ===== verification/Main.v ===== *)
(** * start.c and main.c: booting

    start() runs on every hart in machine mode and ends with mret to main. *)

From S2P Require Import Prelude Types StringC Spinlock Kalloc PageTable Vm Sched Sleeplock Run Bio Log Fs Riscv Uart Printf Console Pipe File Proc Exec SysArgs Sysfile Syscall VirtioDisk Trap.

Section Start.
Context `{Layout} (hartno : Z).

Definition timerinit : K unit :=
  id <- r_mhartid hartno ;;
  let id := i32 id in
  let interval := 1000000 in
  mtime <- mmio_read CLINT_MTIME ;;
  mmio_write (CLINT_MTIMECMP id) (u64 (mtime + interval)) ;;
  let scratch := 32 * id in
  modify (λ w, set_mscratch0 (<[scratch + 4 := CLINT_MTIMECMP id]> (w_mscratch0 w)) w) ;;
  modify (λ w, set_mscratch0 (<[scratch + 5 := interval]> (w_mscratch0 w)) w) ;;
  w_mscratch hartno (mscratch0_addr + 8 * scratch) ;;
  w_mtvec hartno timervec ;;
  x <- r_mstatus hartno ;;
  w_mstatus hartno (Z.lor x MSTATUS_MIE) ;;
  x <- r_mie hartno ;;
  w_mie hartno (Z.lor x MIE_MTIE).

Definition start : K unit :=
  x <- r_mstatus hartno ;;
  let x := Z.land x (Z.lnot MSTATUS_MPP_MASK) in
  let x := Z.lor x MSTATUS_MPP_S in
  w_mstatus hartno x ;;
  w_mepc hartno main_addr ;;
  modify (λ w, set_harts (alter (set_h_satp 0) hartno (w_harts w)) w) ;;
  w_medeleg hartno 0xffff ;;
  w_mideleg hartno 0xffff ;;
  x <- r_sie hartno ;;
  w_sie hartno (Z.lor (Z.lor (Z.lor x SIE_SEIE) SIE_STIE) SIE_SSIE) ;;
  w_pmpaddr0 hartno 0x1fffffffffffff ;;
  w_pmpcfg0 hartno 0x1f ;;
  timerinit ;;
  id <- r_mhartid hartno ;;
  write_tp (u64 (i32 id)) ;;
  c <- cpuid ;;
  when (c =? 0) (
    consoleinit ;;
    printfinit).

End Start.

Section Main.
Context `{DiskOps} `{Layout}.

(** What hart 0 sets up before the scheduler. *)
Definition boot : K unit :=
  printf "kernel/main.c" 14 (Some [newline]) [] ;;
  printf "kernel/main.c" 15 (Some (chars "xv6 kernel is booting" ++ [10])) [] ;;
  printf "kernel/main.c" 16 (Some [newline]) [] ;;
  kinit ;;
  kvminit ;;
  kvminithart ;;
  procinit ;;
  trapinit ;;
  trapinithart ;;
  plicinit ;;
  plicinithart ;;
  binit ;;
  iinit ;;
  fileinit ;;
  virtio_disk_init ;;
  userinit ;;
  modify (λ w, set_started true w).

Definition main : K unit :=
  c <- cpuid ;;
  (if c =? 0 then boot
   else
     loop_wait (
       s <- gets (λ w, w_started w) ;;
       if (s : bool) then ret (Some tt) else wait_event ;; ret None) ;;
     c <- cpuid ;;
     printf "kernel/main.c" 36 (Some (chars "hart %d starting" ++ [10])) [VNum c] ;;
     kvminithart ;;
     trapinithart ;;
     plicinithart) ;;
  scheduler.

End Main.
