(* ===== verification/TypeInv.v ===== *)
(** * The types of the kernel's data

    [wt w] says that the globals of the kernel have values of their C types: every
    integer is in the range of its type, every pointer to an element of a table
    points to an element of that table, and what lies outside of an array is as it
    was when the kernel was loaded, so that nothing was ever stored there.  [typed m
    P] says that [m] keeps this true, whatever the disk and the memory of the
    processes contain, and that its results are in [P].  The rest of the machine,
    which acts while [m] waits, is assumed to keep it true as well. *)

From S2P Require Import Prelude Types StringC Spinlock Kalloc PageTable Vm Sched Sleeplock.

(** ** Values *)

(** An index of a table with [n] elements. *)
Definition ix (n i : Z) : Prop := 0 ≤ i < n.
Definition oix (n : Z) (o : option Z) : Prop := ∀ i, o = Some i → ix n i.

Definition is8 (x : Z) : Prop := 0 ≤ x < 2 ^ 8.
Definition is16 (x : Z) : Prop := 0 ≤ x < 2 ^ 16.
Definition is32 (x : Z) : Prop := 0 ≤ x < 2 ^ 32.
Definition is64 (x : Z) : Prop := 0 ≤ x < 2 ^ 64.
Definition isi16 (x : Z) : Prop := - 2 ^ 15 ≤ x < 2 ^ 15.
Definition isi32 (x : Z) : Prop := - 2 ^ 31 ≤ x < 2 ^ 31.

(** An array of [n] elements in [P]; the value outside of it is [d]. *)
Definition arr {A} (n : Z) (P : A → Prop) (d : A) (f : Z → A) : Prop :=
  (∀ i, P (f i)) ∧ ∀ i, ¬ ix n i → f i = d.

Definition lock_ok (l : lockid) : Prop :=
  match l with
  | LProc p => ix NPROC p
  | LSleep (SBuf b) => ix NBUF b
  | LSleep (SInode ip) => ix NINODE ip
  | _ => True
  end.
Definition slock_ok (s : sleepid) : Prop := lock_ok (LSleep s).

(** ** Structures *)

Record wt_proc (pr : proc) : Prop := {
  wp_parent : oix NPROC (p_parent pr);
  wp_xstate : isi32 (p_xstate pr);
  wp_pid : isi32 (p_pid pr);
  wp_sz : is64 (p_sz pr);
  wp_pagetable : is64 (p_pagetable pr);
  wp_trapframe : is64 (p_trapframe pr);
  wp_ofile : arr NOFILE (oix NFILE) None (p_ofile pr);
  wp_cwd : oix NINODE (p_cwd pr);
  wp_name : length (p_name pr) = 16%nat ∧ Forall is8 (p_name pr)
}.

Definition wt_cpu (c : cpu) : Prop := oix NPROC (c_proc c).

(** The data of a block. *)
Abbreviation block := (arr BSIZE is8 0) (only parsing).

Record wt_buf (b : buf) : Prop := {
  wb_dev : is32 (b_dev b);
  wb_blockno : is32 (b_blockno b);
  wb_refcnt : is32 (b_refcnt b);
  wb_prev : ix (NBUF + 1) (b_prev b);
  wb_next : ix (NBUF + 1) (b_next b);
  wb_data : block (b_data b)
}.

Record wt_log (l : logstate) : Prop := {
  wl_start : isi32 (l_start l);
  wl_size : isi32 (l_size l);
  wl_n : 0 ≤ l_n l ≤ LOGSIZE;
  wl_block : arr LOGSIZE isi32 0 (l_block l)
}.

Record wt_sb (sb : superblock) : Prop := {
  ws_size : is32 (sb_size sb);
  ws_ninodes : is32 (sb_ninodes sb);
  ws_inodestart : is32 (sb_inodestart sb);
  ws_bmapstart : is32 (sb_bmapstart sb)
}.

Record wt_inode (ip : inode) : Prop := {
  wi_dev : is32 (i_dev ip);
  wi_inum : is32 (i_inum ip);
  wi_type : isi16 (i_type ip);
  wi_major : isi16 (i_major ip);
  wi_minor : isi16 (i_minor ip);
  wi_nlink : isi16 (i_nlink ip);
  wi_size : is32 (i_size ip);
  wi_addrs : arr (NDIRECT + 1) is32 0 (i_addrs ip)
}.

Record wt_file (f : file) : Prop := {
  wf_ip : oix NINODE (f_ip f);
  wf_off : is32 (f_off f);
  wf_major : isi16 (f_major f)
}.

Record wt_pipe (p : pipe) : Prop := {
  wq_data : arr PIPESIZE is8 0 (pi_data p);
  wq_nread : is32 (pi_nread p);
  wq_nwrite : is32 (pi_nwrite p)
}.

Record wt_cons (c : consstate) : Prop := {
  wc_buf : arr INPUT_BUF is8 0 (cons_buf c);
  wc_r : is32 (cons_r c);
  wc_w : is32 (cons_w c);
  wc_e : is32 (cons_e c)
}.

Record wt_uart (u : uartstate) : Prop := {
  wu_buf : arr UART_TX_BUF_SIZE is8 0 (uart_tx_buf u);
  wu_w : ix UART_TX_BUF_SIZE (uart_tx_w u);
  wu_r : ix UART_TX_BUF_SIZE (uart_tx_r u)
}.

Definition wt_desc (d : vdesc) : Prop := is16 (d_next d).

Record wt_vd (v : vdisk) : Prop := {
  wv_desc : arr NUM wt_desc (mkVdesc ANull 0 0 0) (v_desc v);
  wv_avail : arr NUM (ix NUM) 0 (v_avail v);
  wv_avail_idx : is16 (v_avail_idx v);
  wv_free : arr NUM (λ _, True) false (v_free v);
  wv_used_idx : ix NUM (v_used_idx v);
  wv_info_b : arr NUM (oix NBUF) None (v_info_b v);
  wv_info_status : arr NUM (λ _, True) 0 (v_info_status v)
}.

(** ** The kernel *)

Record wt (w : world) : Prop := {
  ww_tp : ix NCPU (w_tp w);
  ww_harts : ∀ c, ¬ ix NCPU c → w_harts w c = w_harts image_world c;
  ww_cpus : arr NCPU wt_cpu (w_cpus image_world 0) (w_cpus w);
  ww_lk : ∀ l, ¬ lock_ok l → w_lk w l = w_lk image_world l;
  ww_slk : ∀ s, ¬ slock_ok s → w_slk w s = w_slk image_world s;
  ww_procs : arr NPROC wt_proc zero_proc (w_procs w);
  ww_initproc : oix NPROC (w_initproc w);
  ww_nextpid : isi32 (w_nextpid w);
  ww_ticks : is32 (w_ticks w);
  ww_mem : byte_mem (w_mem w);
  ww_freelist : is64 (w_freelist w);
  ww_kpgtbl : is64 (w_kpgtbl w);
  ww_bufs : arr (NBUF + 1) wt_buf (w_bufs image_world 0) (w_bufs w);
  ww_disk : ∀ n, block (w_disk w n);
  ww_log : wt_log (w_log w);
  ww_sb : wt_sb (w_sb w);
  ww_inodes : arr NINODE wt_inode (w_inodes image_world 0) (w_inodes w);
  ww_files : arr NFILE wt_file (w_files image_world 0) (w_files w);
  ww_pipes : ∀ pi, wt_pipe (w_pipes w pi);
  ww_cons : wt_cons (w_cons w);
  ww_uart : wt_uart (w_uart w);
  ww_vd : wt_vd (w_vd w);
  ww_devsw : arr NDEV (λ _, True) false (w_devsw w)
}.

(** What the rest of the machine may do: anything that keeps the types.  The
    reservations of begin_op leave the log with room for the running operations,
    so that the others do not fill it up. *)
Definition peaceful (f : world → world) : Prop :=
  ∀ w, wt w → wt (f w) ∧ l_n (w_log (f w)) < Z.max LOGSIZE (l_n (w_log w) + 1).

(** ** The logic

    [keeps I m P]: [m] keeps the invariant [I], and its results are in [P]. *)

Definition triple {A} (I : world → Prop) (m : K A) (Q : A → world → Prop) : Prop :=
  ∀ env w, Forall peaceful env → I w →
    match m env w with
    | Ret a env' w' => Q a w' ∧ Forall peaceful env'
    | Blocked w' => wt w'
    | _ => True
    end.

Definition keeps (I : world → Prop) {A} (m : K A) (P : A → Prop) : Prop := triple I m (λ a w, P a ∧ I w).

Abbreviation typed := (keeps wt).

(** The invariants that locking and the rest of the machine leave alone. *)
Class Stable (I : world → Prop) : Prop := {
  stable_wt w : I w → wt w;
  stable_peaceful f w : peaceful f → I w → I (f w);
  stable_lk w f : (∀ l, ¬ lock_ok l → f l = w_lk image_world l) → I w → I (set_lk f w);
  stable_cpus w f : arr NCPU wt_cpu (w_cpus image_world 0) f → I w → I (set_cpus f w);
  stable_harts w f : (∀ c, ¬ ix NCPU c → f c = w_harts image_world c) → I w → I (set_harts f w);
  stable_bufs w f : arr (NBUF + 1) wt_buf (w_bufs image_world 0) f → I w → I (set_bufs f w)
}.

Lemma triple_bind {A B} I (m : K A) (k : A → K B) R Q :
  triple I m R → (∀ a, triple (R a) (k a) Q) → triple I (bind m k) Q.
Proof.
  intros Hm Hk env w He Hw. specialize (Hm env w He Hw). unfold bind.
  destruct (m env w) as [a env' w'| | |]; [|done..]. destruct Hm as [HR He']. by apply (Hk a).
Qed.

Lemma triple_conseq {A} (I I' : world → Prop) (m : K A) (Q Q' : A → world → Prop) :
  triple I m Q → (∀ w, I' w → I w) → (∀ a w, Q a w → Q' a w) → triple I' m Q'.
Proof.
  intros Hm HI HQ env w He Hw. specialize (Hm env w He (HI w Hw)). destruct (m env w); naive_solver.
Qed.

Section Rules.
Context {I : world → Prop}.

Lemma keeps_bind {A B} (m : K A) (k : A → K B) P Q :
  keeps I m P → (∀ a, P a → keeps I (k a) Q) → keeps I (bind m k) Q.
Proof.
  intros Hm Hk. eapply triple_bind; [exact Hm|]. intros a env w He [HP Hw]. by apply (Hk a HP).
Qed.

Lemma keeps_mono {A} (m : K A) (P P' : A → Prop) : keeps I m P → (∀ a, P a → P' a) → keeps I m P'.
Proof. intros Hm HP. eapply triple_conseq; [exact Hm|done|]. naive_solver. Qed.

Lemma keeps_ret {A} (a : A) (P : A → Prop) : P a → keeps I (ret a) P.
Proof. intros HP env w He Hw. done. Qed.

Lemma keeps_panic {A} s (P : A → Prop) : keeps I (panic s) P.
Proof. intros env w He Hw. done. Qed.

Lemma keeps_nofuel {A} (P : A → Prop) : keeps I (λ _ _, NoFuel) P.
Proof. intros env w He Hw. done. Qed.

Lemma keeps_gets {A} (f : world → A) (P : A → Prop) : (∀ w, I w → P (f w)) → keeps I (gets f) P.
Proof. intros Hf env w He Hw. cbn. split_and!; [by apply Hf|done..]. Qed.

Lemma keeps_modify (f : world → world) : (∀ w, I w → I (f w)) → keeps I (modify f) (λ _, True).
Proof. intros Hf env w He Hw. cbn. split_and!; [done|by apply Hf|done]. Qed.

Lemma keeps_when (b : bool) m : (b = true → keeps I m (λ _, True)) → keeps I (when b m) (λ _, True).
Proof. intros Hm. destruct b; [by apply Hm|by apply keeps_ret]. Qed.

Lemma keeps_loop {A} fuel (body : K (option A)) (P : A → Prop) :
  keeps I body (λ r, ∀ a, r = Some a → P a) → keeps I (loop fuel body) P.
Proof.
  intros Hb. induction fuel as [|fuel IH]; [apply keeps_nofuel|]. cbn. eapply keeps_bind; [exact Hb|].
  intros [a|] Hr; [|exact IH]. apply keeps_ret. by apply Hr.
Qed.

Lemma keeps_loop_wait {A} (body : K (option A)) (P : A → Prop) :
  keeps I body (λ r, ∀ a, r = Some a → P a) → keeps I (loop_wait body) P.
Proof. intros Hb env w. unfold loop_wait. apply keeps_loop. exact Hb. Qed.

Lemma keeps_deref n (o : option Z) : oix n o → keeps I (deref o) (ix n).
Proof. intros Ho. destruct o as [i|]; [apply (keeps_ret i); by apply Ho|apply (keeps_panic "kerneltrap")]. Qed.

Lemma keeps_for_each {A} (l : list A) (body : A → K unit) :
  (∀ x, x ∈ l → keeps I (body x) (λ _, True)) → keeps I (for_each l body) (λ _, True).
Proof.
  induction l as [|x l IH]; intros Hb; [by apply keeps_ret|]. cbn.
  eapply keeps_bind; [apply Hb; set_solver|]. intros _ _. apply IH. intros y Hy. apply Hb. set_solver.
Qed.

Lemma keeps_for_find {A B} (l : list A) (body : A → K (option B)) (P : B → Prop) :
  (∀ x, x ∈ l → keeps I (body x) (λ r, ∀ b, r = Some b → P b)) →
  keeps I (for_find l body) (λ r, ∀ b, r = Some b → P b).
Proof.
  induction l as [|x l IH]; intros Hb; [by apply keeps_ret|]. cbn.
  eapply keeps_bind; [apply Hb; set_solver|]. intros [b|] Hr; [by apply keeps_ret|].
  apply IH. intros y Hy. apply Hb. set_solver.
Qed.

Context {HI : Stable I}.

Lemma keeps_hang {A} (P : A → Prop) : keeps I hang P.
Proof. intros env w He Hw. cbn. by apply stable_wt. Qed.

Lemma keeps_wait : keeps I wait_event (λ _, True).
Proof.
  intros env w He Hw. destruct He as [|f env Hf He]; [cbn; by apply stable_wt|]. cbn.
  split; [|done]. split; [done|]. by apply stable_peaceful.
Qed.
End Rules.

Lemma keeps_elim {A} I (m : K A) P : keeps I m P → triple I m (λ a w, P a ∧ I w).
Proof. done. Qed.
Lemma keeps_intro {A} I (m : K A) P : triple I m (λ a w, P a ∧ I w) → keeps I m P.
Proof. done. Qed.

#[global] Opaque keeps.

(** ** Arrays *)

Lemma arr_insert {A} n (P : A → Prop) d f i v : arr n P d f → ix n i → P v → arr n P d (<[i := v]> f).
Proof.
  intros [H1 H2] Hi Hv. split; intros j; destruct (decide (i = j)) as [->|Hne].
  1,3: rewrite fn_lookup_insert; done. all: rewrite fn_lookup_insert_ne by done; auto.
Qed.

Lemma arr_alter {A} n (P : A → Prop) d f i (g : A → A) :
  arr n P d f → ix n i → (∀ x, P x → P (g x)) → arr n P d (alter g i f).
Proof. intros H Hi Hg. rewrite fn_alter_insert. apply arr_insert; [done..|]. apply Hg, H. Qed.

Lemma arr_get {A} n (P : A → Prop) d f i : arr n P d f → P (f i).
Proof. intros H. apply H. Qed.

Lemma seqZ_ix n i : i ∈ seqZ 0 n → ix n i.
Proof. intros [? ?]%elem_of_seqZ. split; lia. Qed.

(** ** Automation

    [tside] proves the conditions on values; [t] goes through the code, calling the
    lemmas of the database [typed]. *)

Create HintDb wt.
Create HintDb typed.

Lemma is8_u8 x : is8 (u8 x). Proof. by apply Z.mod_pos_bound. Qed.
Lemma is16_u16 x : is16 (u16 x). Proof. by apply Z.mod_pos_bound. Qed.
Lemma is32_u32 x : is32 (u32 x). Proof. by apply Z.mod_pos_bound. Qed.
Lemma is64_u64 x : is64 (u64 x). Proof. by apply Z.mod_pos_bound. Qed.
Lemma isi16_i16 x : isi16 (i16 x).
Proof. unfold isi16, i16. pose proof (Z.mod_pos_bound (x + 2 ^ 15) (2 ^ 16)). lia. Qed.
Lemma isi32_i32 x : isi32 (i32 x).
Proof. unfold isi32, i32. pose proof (Z.mod_pos_bound (x + 2 ^ 31) (2 ^ 32)). lia. Qed.
Lemma is32_ld32 m a : byte_mem m → is32 (ld32 m a).
Proof. intros H. apply (ld_range 4 m a H). lia. Qed.
Lemma is64_ld64 m a : byte_mem m → is64 (ld64 m a).
Proof. intros H. apply (ld_range 8 m a H). lia. Qed.
Lemma is16_ld16 m a : byte_mem m → is16 (ld16 m a).
Proof. intros H. apply (ld_range 2 m a H). lia. Qed.
Lemma oix_None n : oix n None. Proof. done. Qed.
Lemma oix_Some n i : ix n i → oix n (Some i). Proof. by intros Hi j [= <-]. Qed.
Lemma block_bytes d : block d → byte_mem d. Proof. intros H. exact (proj1 H). Qed.

#[export] Hint Resolve is8_u8 is16_u16 is32_u32 is64_u64 isi16_i16 isi32_i32 is32_ld32 is64_ld64 is16_ld16
  oix_None oix_Some seqZ_ix block_bytes : wt.
#[export] Hint Extern 1 => match goal with H : arr _ _ _ ?f |- _ (?f ?i) => exact (proj1 H i) end : wt.
#[export] Hint Extern 1 => match goal with H : arr _ (oix ?n) _ ?f, E : ?f ?i = Some ?x |- ix ?n ?x => exact (proj1 H i x E) end : wt.
#[export] Hint Extern 1 => match goal with H : ∀ x, Some ?b = Some x → _ |- _ => exact (H b eq_refl) end : wt.
#[export] Hint Extern 1 => match goal with H : oix ?n (Some ?b) |- ix ?n ?b => exact (H b eq_refl) end : wt.
#[export] Hint Extern 1 => match goal with H : oix ?n ?o, E : ?o = Some ?b |- ix ?n ?b => exact (H b E) end : wt.
#[export] Hint Extern 1 (is8 (?m ?x)) => match goal with H : byte_mem m |- _ => exact (H x) end : wt.
#[export] Hint Extern 1 (arr _ _ _ (insert _ _ _)) => apply arr_insert : wt.

(** The parts of a structure of the right type, in the context. *)
Ltac wt_facts :=
  repeat match goal with
  | H : wt_proc _ |- _ => destruct H
  | H : wt_buf _ |- _ => destruct H
  | H : wt_log _ |- _ => destruct H
  | H : wt_sb _ |- _ => destruct H
  | H : wt_inode _ |- _ => destruct H
  | H : wt_file _ |- _ => destruct H
  | H : wt_pipe _ |- _ => destruct H
  | H : wt_cons _ |- _ => destruct H
  | H : wt_uart _ |- _ => destruct H
  | H : wt_vd _ |- _ => destruct H
  end.

Ltac num :=
  unfold ix, is8, is16, is32, is64, isi16, isi32, NPROC, NCPU, NOFILE, NFILE, NINODE, NDEV, LOGSIZE, NBUF, MAXOPBLOCKS,
    NDIRECT, NINDIRECT, BSIZE, PIPESIZE, INPUT_BUF, UART_TX_BUF_SIZE, NUM in *; lia.

Ltac tside :=
  intros; cbn [fst snd] in *; try done; wt_facts; simplify_eq; rsimpl;
  try done; eauto with wt; try num.

(** A structure with one field changed. *)
Ltac wt_upd := wt_facts; split; rsimpl; try done; eauto with wt.

(** [t1] takes one step. *)
Ltac seq_facts :=
  repeat match goal with
  | H : _ ∈ seqZ 0 _ |- _ => apply seqZ_ix in H
  end.
Ltac tcall := solve [eauto with typed wt|progress wt_facts; eauto with typed wt].
Ltac t1 :=
  lazymatch goal with
  | |- keeps _ (@bind _ unit _ _ _) _ =>
      first [eapply keeps_bind; [tcall|intros _ _]|apply (keeps_bind _ _ (λ _, True)); [|intros _ _]]
  | |- keeps _ (bind _ _) _ => eapply keeps_bind; [tcall|intros ? ?; cbv beta in *]
  | |- keeps _ (ret _) _ => apply keeps_ret; solve [tside]
  | |- keeps _ (panic _) _ => apply keeps_panic
  | |- keeps _ (λ _ _, NoFuel) _ => apply keeps_nofuel
  | |- keeps _ (when _ _) _ => apply keeps_when; intros
  | |- keeps _ (for_each _ _) _ => apply keeps_for_each; intros; seq_facts
  | |- keeps _ (loop_wait _) _ => apply keeps_loop_wait
  | |- keeps _ (for_find _ _) _ => apply keeps_for_find; intros; seq_facts
  | |- keeps _ (if ?b then _ else _) _ => destruct b eqn:?
  | |- keeps _ (let _ := _ in _) _ => cbv zeta
  | |- keeps _ (match ?x with _ => _ end) _ => destruct x eqn:?
  | |- keeps _ (modify _) _ => tcall
  | |- keeps _ _ _ => first [tcall|eapply keeps_mono; [tcall|solve [tside]]]
  end.
Ltac t := cbv beta in *; repeat t1.

(** ** Locks and interrupts *)

#[export] Instance wt_stable : Stable wt.
Proof.
  split.
  - done.
  - intros f w Hf Hw. by apply Hf.
  - intros w f Hf []. by split.
  - intros w f Hf []. by split.
  - intros w f Hf []. by split.
  - intros w f Hf []. by split.
Qed.
#[export] Hint Resolve wt_stable : typed.

(** The log has room for one more block. *)
Definition wt_room (w : world) : Prop := wt w ∧ l_n (w_log w) < LOGSIZE.

#[export] Instance wt_room_stable : Stable wt_room.
Proof.
  split.
  - by intros w [].
  - intros f w Hf [Hw Hn]. destruct (Hf w Hw). split; [done|lia].
  - intros w f Hf [[] Hn]. split; [by split|done].
  - intros w f Hf [[] Hn]. split; [by split|done].
  - intros w f Hf [[] Hn]. split; [by split|done].
  - intros w f Hf [[] Hn]. split; [by split|done].
Qed.
#[export] Hint Resolve wt_room_stable : typed.

Section Locks.
Context {I : world → Prop} {HI : Stable I}.

Lemma r_sstatus_typed : keeps I r_sstatus (λ _, True).
Proof. by apply keeps_gets. Qed.

Lemma upd_hart_typed f : keeps I (upd_hart f) (λ _, True).
Proof.
  apply keeps_modify. intros w Hw. apply stable_harts; [|done]. pose proof (stable_wt w Hw) as [].
  intros c Hc. rewrite fn_alter_insert, fn_lookup_insert_ne; [auto|]. by intros <-.
Qed.

Lemma mycpu_typed : keeps I mycpu (ix NCPU).
Proof.
  eapply (keeps_bind _ _ (ix NCPU)); [apply keeps_gets; intros w Hw; apply (stable_wt w Hw)|].
  intros c Hc. apply keeps_ret. rewrite i32_small; [done|]. unfold ix in Hc. change NCPU with 8 in Hc. lia.
Qed.

Lemma get_cpu_typed c : keeps I (get_cpu c) wt_cpu.
Proof. apply keeps_gets. intros w Hw. apply (stable_wt w Hw). Qed.

Lemma upd_cpu_typed c f : ix NCPU c → (∀ x, wt_cpu x → wt_cpu (f x)) → keeps I (upd_cpu c f) (λ _, True).
Proof.
  intros Hc Hf. apply keeps_modify. intros w Hw. apply stable_cpus; [|done].
  apply arr_alter; [apply (stable_wt w Hw)|done..].
Qed.

Lemma get_lk_typed l : keeps I (get_lk l) (λ _, True).
Proof. by apply keeps_gets. Qed.

Lemma upd_lk_typed l f : lock_ok l → keeps I (upd_lk l f) (λ _, True).
Proof.
  intros Hl. apply keeps_modify. intros w Hw. apply stable_lk; [|done]. pose proof (stable_wt w Hw) as [].
  intros k Hk. rewrite fn_alter_insert, fn_lookup_insert_ne; [auto|]. by intros <-.
Qed.
End Locks.
#[export] Hint Resolve keeps_wait keeps_hang keeps_deref r_sstatus_typed upd_hart_typed mycpu_typed get_cpu_typed upd_cpu_typed
  get_lk_typed upd_lk_typed : typed.
#[export] Hint Extern 1 (wt_cpu _) => assumption : wt.

Section Locking.
Context {I : world → Prop} {HI : Stable I}.

Lemma intr_get_typed : keeps I intr_get (λ _, True).
Proof. unfold intr_get. t. Qed.
Lemma intr_on_typed : keeps I intr_on (λ _, True).
Proof. unfold intr_on, w_sstatus. t. Qed.
Lemma intr_off_typed : keeps I intr_off (λ _, True).
Proof. unfold intr_off, w_sstatus. t. Qed.
Hint Resolve intr_get_typed intr_on_typed intr_off_typed : typed.

Lemma push_off_typed : keeps I push_off (λ _, True).
Proof. unfold push_off. t. Qed.
Lemma pop_off_typed : keeps I pop_off (λ _, True).
Proof. unfold pop_off. t. Qed.
Lemma holding_typed l : keeps I (holding l) (λ _, True).
Proof. unfold holding. t. Qed.
Lemma initlock_typed l name : lock_ok l → keeps I (initlock l name) (λ _, True).
Proof. intros Hl. unfold initlock. t. Qed.
Lemma test_and_set_typed l : lock_ok l → keeps I (test_and_set l) (λ _, True).
Proof. intros Hl. unfold test_and_set. t. Qed.
Hint Resolve push_off_typed pop_off_typed holding_typed test_and_set_typed : typed.

Lemma acquire_typed l : lock_ok l → keeps I (acquire l) (λ _, True).
Proof. intros Hl. unfold acquire. t. Qed.
Lemma release_typed l : lock_ok l → keeps I (release l) (λ _, True).
Proof. intros Hl. unfold release. t. Qed.
End Locking.
#[export] Hint Resolve intr_get_typed intr_on_typed intr_off_typed push_off_typed pop_off_typed holding_typed initlock_typed
  acquire_typed release_typed : typed.
#[export] Hint Extern 1 (lock_ok _) => first [done|assumption] : wt.
#[export] Hint Extern 1 (slock_ok _) => first [done|assumption] : wt.

(** ** Memory (kalloc.c, vm.c) *)

Section Memory.
Context `{LayoutOk}.

Lemma set_mem_typed f : (∀ w, wt w → byte_mem (f w)) → typed (modify (λ w, set_mem (f w) w)) (λ _, True).
Proof. intros Hf. apply keeps_modify. intros w Hw. pose proof (Hf w Hw). destruct Hw. by split. Qed.

Lemma get_mem_typed : typed (gets w_mem) byte_mem.
Proof. apply keeps_gets. apply ww_mem. Qed.

Lemma ld64_k_typed a : typed (ld64_k a) is64.
Proof. apply keeps_gets. intros w []. by apply is64_ld64. Qed.

Lemma st64_k_typed a v : typed (st64_k a v) (λ _, True).
Proof. apply set_mem_typed. intros w []. by apply st_byte_mem. Qed.

Lemma memset_k_typed a c n : typed (memset_k a c n) (λ _, True).
Proof. apply set_mem_typed. intros w []. by apply mem_fill_byte_mem. Qed.

Lemma set_freelist_typed f : (∀ w, wt w → is64 (f w)) → typed (modify (λ w, set_freelist (f w) w)) (λ _, True).
Proof. intros Hf. apply keeps_modify. intros w Hw. pose proof (Hf w Hw). destruct Hw. by split. Qed.
Hint Resolve get_mem_typed ld64_k_typed st64_k_typed memset_k_typed : typed.

Lemma kfree_typed pa : typed (kfree pa) (λ _, True).
Proof.
  unfold kfree. t1; [t1|]. apply orb_false_iff in Heqb as [[_ H1]%orb_false_iff H2].
  assert (is64 pa) as Hpa.
  { pose proof kend_pos. apply Z.ltb_ge in H1. apply Z.leb_gt in H2. unfold is64. unfold PHYSTOP, KERNBASE in H2. lia. }
  t1. t1.
  eapply keeps_bind; [apply set_mem_typed; intros w []; by apply st_byte_mem|intros _ _].
  eapply keeps_bind; [by apply set_freelist_typed|intros _ _]. t.
Qed.

Lemma kalloc_typed : typed kalloc is64.
Proof.
  unfold kalloc. t1. eapply (keeps_bind _ _ is64); [apply keeps_gets, ww_freelist|intros r Hr].
  t1; [|t]. t1. apply set_freelist_typed. intros w []. by apply is64_ld64.
Qed.
Hint Resolve kfree_typed kalloc_typed : typed.

Lemma walk_levels_typed levels pagetable va alloc : typed (walk_levels levels pagetable va alloc) (λ _, True).
Proof. revert pagetable. induction levels as [|level levels IH]; intros; cbn [walk_levels]; t. Qed.
Hint Resolve walk_levels_typed : typed.

Lemma walk_typed pagetable va alloc : typed (walk pagetable va alloc) (λ _, True).
Proof. unfold walk. t. Qed.
Hint Resolve walk_typed : typed.

Lemma walkaddr_typed pagetable va : typed (walkaddr pagetable va) (λ _, True).
Proof. unfold walkaddr. t. Qed.

Lemma mappages_loop_typed fuel pagetable a last pa perm : typed (mappages_loop fuel pagetable a last pa perm) (λ _, True).
Proof. revert a pa. induction fuel as [|fuel IH]; intros; cbn [mappages_loop]; t. Qed.
Hint Resolve walkaddr_typed mappages_loop_typed : typed.

Lemma mappages_typed pagetable va size pa perm : typed (mappages pagetable va size pa perm) (λ _, True).
Proof. unfold mappages. t. Qed.
Hint Resolve mappages_typed : typed.

Lemma get_kpgtbl_typed : typed (gets w_kpgtbl) is64.
Proof. apply keeps_gets, ww_kpgtbl. Qed.
Lemma set_kpgtbl_typed pt : is64 pt → typed (modify (λ w, set_kpgtbl pt w)) (λ _, True).
Proof. intros Hp. apply keeps_modify. intros w []. by split. Qed.
Hint Resolve get_kpgtbl_typed set_kpgtbl_typed : typed.

Lemma kvmmap_typed va pa sz perm : typed (kvmmap va pa sz perm) (λ _, True).
Proof. unfold kvmmap. t. Qed.
Hint Resolve kvmmap_typed : typed.

Lemma kvminit_typed : typed kvminit (λ _, True).
Proof. unfold kvminit. t. Qed.
Lemma kvminithart_typed : typed kvminithart (λ _, True).
Proof. unfold kvminithart, w_satp. t. Qed.

Lemma uvmunmap_loop_typed fuel pagetable a stop do_free : typed (uvmunmap_loop fuel pagetable a stop do_free) (λ _, True).
Proof. revert a. induction fuel as [|fuel IH]; intros; cbn [uvmunmap_loop]; t. Qed.
Hint Resolve uvmunmap_loop_typed : typed.

Lemma uvmunmap_typed pagetable va npages do_free : typed (uvmunmap pagetable va npages do_free) (λ _, True).
Proof. unfold uvmunmap. t. Qed.
Lemma uvmcreate_typed : typed uvmcreate is64.
Proof. unfold uvmcreate. t. Qed.
Hint Resolve uvmunmap_typed uvmcreate_typed : typed.

Lemma uvminit_typed pagetable src sz : byte_mem src → typed (uvminit pagetable src sz) (λ _, True).
Proof. intros Hs. unfold uvminit. t. apply set_mem_typed. intros w []. by apply mem_copy_byte_mem. Qed.

Lemma uvmdealloc_typed pagetable oldsz newsz : is64 oldsz → is64 newsz → typed (uvmdealloc pagetable oldsz newsz) is64.
Proof. intros Ho Hn. unfold uvmdealloc. t. Qed.
Hint Resolve uvmdealloc_typed : typed.

Lemma uvmalloc_loop_typed fuel pagetable a oldsz newsz :
  is64 a → is64 oldsz → is64 newsz → typed (uvmalloc_loop fuel pagetable a oldsz newsz) is64.
Proof. revert a. induction fuel as [|fuel IH]; intros; cbn [uvmalloc_loop]; t. Qed.
Hint Resolve uvmalloc_loop_typed : typed.

Lemma is64_PGROUNDUP a : is64 (PGROUNDUP a).
Proof.
  unfold PGROUNDUP, is64. pose proof (u64_range (a + PGSIZE - 1)). set (x := u64 _) in *.
  change (Z.lnot (PGSIZE - 1)) with (Z.lnot (Z.ones 12)).
  rewrite <-Z.ldiff_land, Z.ldiff_ones_r, Z.shiftr_div_pow2, Z.shiftl_mul_pow2 by lia.
  pose proof (Z.mul_div_le x (2 ^ 12) ltac:(lia)). pose proof (Z.div_pos x (2 ^ 12)). lia.
Qed.
Hint Resolve is64_PGROUNDUP : wt.

Lemma uvmalloc_typed pagetable oldsz newsz : is64 oldsz → is64 newsz → typed (uvmalloc pagetable oldsz newsz) is64.
Proof. intros Ho Hn. unfold uvmalloc. t. Qed.

Lemma freewalk_typed depth pagetable : typed (freewalk depth pagetable) (λ _, True).
Proof. revert pagetable. induction depth as [|depth IH]; intros; cbn [freewalk]; t. Qed.
Hint Resolve freewalk_typed : typed.

Lemma uvmfree_typed pagetable sz : typed (uvmfree pagetable sz) (λ _, True).
Proof. unfold uvmfree. t. Qed.

Lemma copy_own_typed d s n : typed (modify (λ w, set_mem (mem_copy (w_mem w) d (w_mem w) s n) w)) (λ _, True).
Proof. apply set_mem_typed. intros w []. by apply mem_copy_byte_mem. Qed.
Lemma copy_to_typed d s n src : byte_mem src → typed (modify (λ w, set_mem (mem_copy (w_mem w) d src s n) w)) (λ _, True).
Proof. intros Hs. apply set_mem_typed. intros w []. by apply mem_copy_byte_mem. Qed.
Hint Resolve copy_own_typed copy_to_typed : typed.

Lemma uvmcopy_loop_typed fuel old new i sz : typed (uvmcopy_loop fuel old new i sz) (λ _, True).
Proof. revert i. induction fuel as [|fuel IH]; intros; cbn [uvmcopy_loop]; t. Qed.
Hint Resolve uvmcopy_loop_typed : typed.

Lemma uvmcopy_typed old new sz : typed (uvmcopy old new sz) (λ _, True).
Proof. unfold uvmcopy. t. Qed.
Lemma uvmclear_typed pagetable va : typed (uvmclear pagetable va) (λ _, True).
Proof. unfold uvmclear. t. Qed.

Lemma copyout_loop_typed fuel pagetable dstva src s len : byte_mem src → typed (copyout_loop fuel pagetable dstva src s len) (λ _, True).
Proof. intros Hs. revert dstva s len. induction fuel as [|fuel IH]; intros; cbn [copyout_loop]; t. Qed.
Hint Resolve copyout_loop_typed : typed.
Lemma copyout_typed pagetable dstva src len : byte_mem src → typed (copyout pagetable dstva src len) (λ _, True).
Proof. intros Hs. unfold copyout. t. Qed.

Lemma copyin_loop_typed fuel pagetable dst d srcva len :
  byte_mem dst → typed (copyin_loop fuel pagetable dst d srcva len) (λ r, byte_mem r.2).
Proof. revert dst d srcva len. induction fuel as [|fuel IH]; intros; cbn [copyin_loop]; t. Qed.
Hint Resolve copyin_loop_typed : typed.
Lemma copyin_typed pagetable dst srcva len : byte_mem dst → typed (copyin pagetable dst srcva len) (λ r, byte_mem r.2).
Proof. intros Hd. unfold copyin. t. Qed.

Lemma insert_byte_mem m a v : byte_mem m → is8 v → byte_mem (<[a := v]> m).
Proof. intros Hm Hv x. destruct (decide (a = x)) as [->|?]; [by rewrite fn_lookup_insert|by rewrite fn_lookup_insert_ne]. Qed.

Lemma copyinstr_page_bytes n m p dst d max : byte_mem m → byte_mem dst → byte_mem (copyinstr_page n m p dst d max).2.2.
Proof.
  intros Hm. revert p dst d max. induction n as [|n IH]; intros p dst d max Hd; cbn; [done|].
  destruct (m p =? 0); [apply insert_byte_mem; [done|num]|]. apply IH. apply insert_byte_mem; [done|apply Hm].
Qed.

Lemma copyinstr_loop_typed fuel pagetable dst d srcva max :
  byte_mem dst → typed (copyinstr_loop fuel pagetable dst d srcva max) (λ r, byte_mem r.2).
Proof.
  revert dst d srcva max. induction fuel as [|fuel IH]; intros dst d srcva max Hd; cbn [copyinstr_loop]; [t|].
  t1; [t|]. t1. t1; [t|]. t1. cbv zeta. set (r := copyinstr_page _ _ _ _ _ _).
  assert (byte_mem r.2.2) by (by apply copyinstr_page_bytes).
  destruct r as [[] [[max' d'] dst']]; t.
Qed.
Hint Resolve copyinstr_loop_typed : typed.
Lemma copyinstr_typed pagetable dst srcva max : byte_mem dst → typed (copyinstr pagetable dst srcva max) (λ r, byte_mem r.2).
Proof. intros Hd. unfold copyinstr. t. Qed.
End Memory.
#[export] Hint Resolve get_mem_typed ld64_k_typed st64_k_typed memset_k_typed kfree_typed kalloc_typed walk_typed
  walkaddr_typed mappages_typed kvmmap_typed kvminit_typed kvminithart_typed uvmunmap_typed uvmcreate_typed uvminit_typed
  uvmdealloc_typed uvmalloc_typed uvmfree_typed copy_own_typed copy_to_typed uvmcopy_typed uvmclear_typed copyout_typed
  copyin_typed copyinstr_typed : typed.
#[export] Hint Resolve is64_PGROUNDUP insert_byte_mem : wt.

(** ** Processes (proc.c, sleeplock.c) *)

Lemma get_proc_typed p : typed (get_proc p) wt_proc.
Proof. apply keeps_gets. intros w Hw. apply (ww_procs w Hw). Qed.

Lemma upd_proc_typed p f : ix NPROC p → (∀ x, wt_proc x → wt_proc (f x)) → typed (upd_proc p f) (λ _, True).
Proof. intros Hp Hf. apply keeps_modify. intros w []. split; try done. by apply arr_alter. Qed.

#[export] Hint Resolve get_proc_typed upd_proc_typed : typed.

(** A changed structure is of the right type when the new value is. *)
#[export] Hint Extern 2 (wt_proc _) => solve [wt_upd] : typed.

Lemma lock_proc p : ix NPROC p → lock_ok (LProc p). Proof. done. Qed.
Lemma all_procs_ix p : p ∈ all_procs → ix NPROC p. Proof. apply seqZ_ix. Qed.
#[export] Hint Resolve lock_proc all_procs_ix : wt.

Lemma myproc_typed : typed myproc (oix NPROC).
Proof. unfold myproc. t. Qed.
#[export] Hint Resolve myproc_typed : typed.

Lemma allocpid_typed : typed allocpid isi32.
Proof.
  unfold allocpid. t1. eapply (keeps_bind _ _ isi32); [apply keeps_gets, ww_nextpid|intros pid Hp].
  eapply keeps_bind; [apply keeps_modify; intros w []; split; try done; apply isi32_i32|intros _ _]. t.
Qed.

Lemma sched_typed : typed sched (λ _, True).
Proof. unfold sched, swtch. t. Qed.
#[export] Hint Resolve allocpid_typed sched_typed : typed.

Lemma yield_typed : typed yield (λ _, True).
Proof. unfold yield. t. Qed.

Lemma sleep_typed ch lk : lock_ok lk → typed (sleep ch lk) (λ _, True).
Proof. intros Hlk. unfold sleep. t. Qed.

Lemma wakeup_typed ch : typed (wakeup ch) (λ _, True).
Proof. unfold wakeup. t. Qed.

Lemma wakeup1_typed p : ix NPROC p → typed (wakeup1 p) (λ _, True).
Proof. intros Hp. unfold wakeup1. t. Qed.

Lemma kill_typed pid : typed (kill pid) (λ _, True).
Proof.
  unfold kill. eapply keeps_bind; [apply (keeps_for_find _ _ (λ _, True)); intros|intros]; t.
Qed.
#[export] Hint Resolve yield_typed sleep_typed wakeup_typed wakeup1_typed kill_typed : typed.

Lemma either_copyout_typed `{LayoutOk} user dst kdst src len :
  byte_mem kdst → byte_mem src → typed (either_copyout user dst kdst src len) (λ r, byte_mem r.2).
Proof. intros Hk Hs. unfold either_copyout. t. Qed.
Lemma either_copyin_typed `{LayoutOk} dst user src ksrc len :
  byte_mem dst → byte_mem ksrc → typed (either_copyin dst user src ksrc len) (λ r, byte_mem r.2).
Proof. intros Hk Hs. unfold either_copyin. t. Qed.
#[export] Hint Resolve either_copyout_typed either_copyin_typed : typed.

Lemma get_slk_typed s : typed (get_slk s) (λ _, True).
Proof. by apply keeps_gets. Qed.
Lemma upd_slk_typed s f : slock_ok s → typed (upd_slk s f) (λ _, True).
Proof.
  intros Hs. apply keeps_modify. intros w []. split; try done.
  intros k Hk. rsimpl. rewrite fn_alter_insert, fn_lookup_insert_ne; [auto|]. by intros <-.
Qed.
#[export] Hint Resolve get_slk_typed upd_slk_typed : typed.

Lemma initsleeplock_typed s name : slock_ok s → typed (initsleeplock s name) (λ _, True).
Proof. intros Hs. unfold initsleeplock. t. Qed.
Lemma acquiresleep_typed s : slock_ok s → typed (acquiresleep s) (λ _, True).
Proof. intros Hs. unfold acquiresleep. t. Qed.
Lemma releasesleep_typed s : slock_ok s → typed (releasesleep s) (λ _, True).
Proof. intros Hs. unfold releasesleep. t. Qed.
Lemma holdingsleep_typed s : slock_ok s → typed (holdingsleep s) (λ _, True).
Proof.
  intros Hs. unfold holdingsleep. do 2 t1. apply (keeps_bind _ _ (λ _, True)); [|intros]; t.
Qed.
#[export] Hint Resolve initsleeplock_typed acquiresleep_typed releasesleep_typed holdingsleep_typed : typed.
