(* ===== verification/TypeFs.v ===== *)
(** * The types are kept: buffers, log and file system

    bio.c, log.c and fs.c keep the types of TypeInv for any contents of the disk: a
    block number, an inode or a directory entry that was read from it is never used
    to store outside of a table or of the data of a buffer.  The one thing that is
    taken on trust is the log header, when the log is recovered at the first
    start. *)

From S2P Require Import Prelude Types StringC Spinlock Kalloc PageTable Vm Sched Sleeplock Run Bio Log Fs TypeInv.

(** What the driver of the disk promises. *)
Class TypedDisk (D : DiskOps) : Prop :=
  disk_rw_typed b write : ix NBUF b → typed (disk_rw b write) (λ _, True).
#[export] Hint Resolve disk_rw_typed : typed.

(** ** The data of a block *)

Lemma block_copy d o src s n : block d → byte_mem src → 0 ≤ o → o + n ≤ BSIZE → block (mem_copy d o src s n).
Proof.
  intros [H1 H2] Hs Ho Hn. split; intros i; unfold mem_copy.
  - destruct (_ && _); [apply Hs|apply H1].
  - intros Hi. destruct (Z.leb_spec o i), (Z.ltb_spec i (o + n)); cbn; try by apply H2. unfold ix in Hi. lia.
Qed.

Lemma block_fill d o n c : block d → 0 ≤ o → o + n ≤ BSIZE → block (mem_fill d o n c).
Proof.
  intros [H1 H2] Ho Hn. split; intros i; unfold mem_fill.
  - destruct (_ && _); [apply is8_u8|apply H1].
  - intros Hi. destruct (Z.leb_spec o i), (Z.ltb_spec i (o + n)); cbn; try by apply H2. unfold ix in Hi. lia.
Qed.

Lemma block_st_bytes l d a : block d → Forall is8 l → 0 ≤ a → a + Z.of_nat (length l) ≤ BSIZE → block (st_bytes d a l).
Proof.
  revert d a. induction l as [|x l IH]; intros d a Hd Hl Ha Hn; cbn [st_bytes]; [done|].
  apply Forall_cons in Hl as [Hx Hl]. cbn [length] in Hn. apply IH; [|done|lia..]. apply arr_insert; [done| |done]. unfold ix. lia.
Qed.

Lemma block_st n d a v : block d → 0 ≤ n → 0 ≤ a → a + n ≤ BSIZE → block (st n d a v).
Proof.
  intros Hd Hn Ha Hb. apply block_st_bytes; [done| |done|].
  - by apply Z_to_little_endian_bound.
  - rewrite length_Z_to_little_endian by done. lia.
Qed.

Lemma shift_bytes m o : byte_mem m → byte_mem (λ x, m (x + o)).
Proof. intros H x. apply H. Qed.
#[export] Hint Resolve shift_bytes : wt.

(** ** bio.c *)

Section Bio.
Context {I : world → Prop} {HI : Stable I}.

Lemma get_buf_typed b : keeps I (get_buf b) wt_buf.
Proof. apply keeps_gets. intros w Hw. apply (stable_wt w Hw). Qed.

Lemma upd_buf_typed b f : ix (NBUF + 1) b → (∀ x, wt_buf x → wt_buf (f x)) → keeps I (upd_buf b f) (λ _, True).
Proof.
  intros Hb Hf. apply keeps_modify. intros w Hw. apply stable_bufs; [|done].
  apply arr_alter; [apply (stable_wt w Hw)|done..].
Qed.
End Bio.
#[export] Hint Resolve get_buf_typed upd_buf_typed : typed.
#[export] Hint Extern 2 (wt_buf _) => solve [wt_upd] : typed.

Lemma ix_buf b : ix NBUF b → ix (NBUF + 1) b. Proof. num. Qed.
Lemma bhead_ix : ix (NBUF + 1) bhead. Proof. unfold bhead. num. Qed.
Lemma lock_buf_ok b : ix NBUF b → lock_ok (LSleep (SBuf b)). Proof. done. Qed.
Lemma slock_buf_ok b : ix NBUF b → slock_ok (SBuf b). Proof. done. Qed.
Lemma is32_0 : is32 0. Proof. num. Qed.
Lemma is32_1 : is32 1. Proof. num. Qed.
Lemma ix_addr i : ix NDIRECT i → ix (NDIRECT + 1) i. Proof. num. Qed.
#[export] Hint Resolve ix_buf bhead_ix slock_buf_ok is32_0 is32_1 ix_addr : wt.

Lemma not_bhead b : ix (NBUF + 1) b → (b =? bhead) = false → ix NBUF b.
Proof. intros Hb Hne%Z.eqb_neq. unfold bhead in Hne. num. Qed.
#[export] Hint Resolve not_bhead : wt.

Lemma find_cached_typed fuel b dev blockno :
  ix (NBUF + 1) b → typed (find_cached fuel b dev blockno) (oix NBUF).
Proof. revert b. induction fuel as [|fuel IH]; intros b Hb; cbn [find_cached]; t. Qed.

Lemma find_unused_typed fuel b : ix (NBUF + 1) b → typed (find_unused fuel b) (oix NBUF).
Proof. revert b. induction fuel as [|fuel IH]; intros b Hb; cbn [find_unused]; t. Qed.
#[export] Hint Resolve find_cached_typed find_unused_typed : typed.

Lemma bget_typed dev blockno : is32 dev → is32 blockno → typed (bget dev blockno) (ix NBUF).
Proof. intros Hd Hb. unfold bget. t. Qed.
#[export] Hint Resolve bget_typed : typed.

Lemma brelse_typed b : ix NBUF b → typed (brelse b) (λ _, True).
Proof. intros Hb. unfold brelse. t. Qed.

Lemma binit_typed : typed binit (λ _, True).
Proof. unfold binit. t. Qed.

Section Pins.
Context {I : world → Prop} {HI : Stable I}.

Lemma bpin_typed b : ix NBUF b → keeps I (bpin b) (λ _, True).
Proof. intros Hb. unfold bpin. t. Qed.
Lemma bunpin_typed b : ix NBUF b → keeps I (bunpin b) (λ _, True).
Proof. intros Hb. unfold bunpin. t. Qed.
End Pins.
#[export] Hint Resolve brelse_typed bpin_typed bunpin_typed : typed.

Section BioDisk.
Context `{TypedDisk}.

Lemma bread_typed dev blockno : is32 dev → is32 blockno → typed (bread dev blockno) (ix NBUF).
Proof. intros Hd Hb. unfold bread. t. Qed.
Lemma bwrite_typed b : ix NBUF b → typed (bwrite b) (λ _, True).
Proof. intros Hb. unfold bwrite. t. Qed.
End BioDisk.
#[export] Hint Resolve bread_typed bwrite_typed : typed.

(** ** log.c *)

Lemma get_log_typed : typed get_log wt_log.
Proof. apply keeps_gets, ww_log. Qed.
Lemma upd_log_typed f : (∀ x, wt_log x → wt_log (f x)) → typed (upd_log f) (λ _, True).
Proof. intros Hf. apply keeps_modify. intros w []. split; try done. by apply Hf. Qed.
Lemma upd_data_typed b f : ix NBUF b → (∀ d, block d → block (f d)) → typed (upd_data b f) (λ _, True).
Proof. intros Hb Hf. unfold upd_data. apply upd_buf_typed; [by apply ix_buf|]. intros x []. split; try done. by apply Hf. Qed.
#[export] Hint Resolve get_log_typed upd_log_typed upd_data_typed : typed.
#[export] Hint Extern 2 (wt_log _) => solve [wt_upd] : typed.
#[export] Hint Extern 2 (arr BSIZE is8 0 (mem_copy _ _ _ _ _)) => apply block_copy; [done|eauto with wt|wt_facts; num..] : typed.
#[export] Hint Extern 2 (arr BSIZE is8 0 (mem_fill _ _ _ _)) => apply block_fill; [done|wt_facts; num..] : typed.
#[export] Hint Extern 2 (arr BSIZE is8 0 (st32 _ _ _)) => apply block_st; [done|wt_facts; num..] : typed.
#[export] Hint Extern 2 (arr BSIZE is8 0 (st16 _ _ _)) => apply block_st; [done|wt_facts; num..] : typed.

Section Log.
Context `{TypedDisk}.

Lemma install_trans_typed : typed install_trans (λ _, True).
Proof. unfold install_trans. t. Qed.
Lemma write_log_typed : typed write_log (λ _, True).
Proof. unfold write_log. t. Qed.

Lemma write_head_typed : typed write_head (λ _, True).
Proof.
  unfold write_head. t.
Qed.
Hint Resolve install_trans_typed write_log_typed write_head_typed : typed.

Lemma commit_typed : typed commit (λ _, True).
Proof. unfold commit. t. Qed.
Hint Resolve commit_typed : typed.

Lemma begin_op_typed : typed begin_op (λ _, True).
Proof. unfold begin_op. t. Qed.

Lemma end_op_typed : typed end_op (λ _, True).
Proof. unfold end_op. do 4 t1; [t|]. apply (keeps_bind _ _ (λ _, True)); [|intros]; t. Qed.
End Log.
#[export] Hint Resolve begin_op_typed end_op_typed : typed.

Lemma log_index_range lg n : 0 ≤ l_n lg → 0 ≤ log_index lg n ≤ l_n lg.
Proof.
  intros Hn. unfold log_index. destruct (List.find _ _) as [i|] eqn:E; [|lia].
  apply find_some in E as [Hi _]. apply list_elem_of_In, elem_of_seqZ in Hi. lia.
Qed.

Lemma room_log w : wt_room w → wt_log (w_log w) ∧ l_n (w_log w) < LOGSIZE.
Proof. intros [[] Hn]. done. Qed.

(** After the test for room: the block is put into the log. *)
Definition log_block (b : Z) : K unit :=
  bf <- get_buf b ;;
  i <- gets (λ w, log_index (w_log w) (b_blockno bf)) ;;
  upd_log (λ lg, set_l_block (<[i := i32 (b_blockno bf)]> (l_block lg)) lg) ;;
  lg <- get_log ;;
  when (i =? l_n lg) (
    bpin b ;;
    upd_log (λ lg, set_l_n (l_n lg + 1) lg)) ;;
  release LLog.

Lemma log_block_typed b : ix NBUF b → triple wt_room (log_block b) (λ _, wt).
Proof.
  intros Hb. unfold log_block. eapply triple_bind; [apply keeps_elim, get_buf_typed|intros bf].
  eapply (triple_conseq wt_room); [|by intros w []|intros ? ? X; exact X].
  eapply (triple_bind _ _ _ (λ i w, ix LOGSIZE i ∧ wt_room w)).
  { apply keeps_elim, keeps_gets. intros w Hw. destruct (room_log w Hw) as [[] Hn].
    pose proof (log_index_range (w_log w) (b_blockno bf)). unfold ix. lia. }
  intros i env w He [Hi Hw]. revert env w He Hw. eapply (triple_bind _ _ _ (λ _, wt_room)).
  { intros env w He [[] Hn]. cbn. split; [|done]. split; [|done]. split; try done. cbn. wt_upd. }
  intros _. eapply (triple_bind _ _ _ (λ _, wt_room)); [by intros env w He Hw|intros lg].
  eapply (triple_bind _ _ _ (λ _, wt)); [|intros _; apply (triple_conseq wt _ _ (λ _ w, True ∧ wt w)); [by apply keeps_elim, release_typed|done|by intros ? ? []]].
  destruct (i =? l_n lg); [|intros env w He [Hw _]; done].
  eapply triple_bind; [apply keeps_elim, bpin_typed, Hb|]. intros _ env w He [_ Hw]. destruct (room_log w Hw) as [[] Hn].
  destruct Hw as [[] _]. cbn. split; [|done]. split; try done. cbn. split; rsimpl; try done. lia.
Qed.

Lemma log_write_typed b : ix NBUF b → typed (log_write b) (λ _, True).
Proof.
  intros Hb. apply keeps_intro. unfold log_write. fold (log_block b).
  eapply (triple_bind _ _ _ (λ lg w, wt w ∧ lg = w_log w)); [by intros env w He Hw|].
  intros lg env w He [Hw ->]. destruct (_ || _) eqn:E1; [done|]. destruct (_ <? _) eqn:E2; [done|].
  apply orb_false_iff in E1 as [E1 _]. rewrite Z.geb_leb, Z.leb_gt in E1.
  revert env w He Hw E1 E2.
  assert (triple wt_room (acquire LLog ;; log_block b) (λ _ w, True ∧ wt w)) as Hrun.
  { eapply triple_bind; [by apply keeps_elim, (acquire_typed (I:=wt_room))|intros []].
    eapply triple_conseq; [by apply log_block_typed|by intros w []|done]. }
  intros env w He Hw E1 E2. by apply (Hrun env w He).
Qed.
#[export] Hint Resolve log_write_typed : typed.

(** ** fs.c *)

Lemma get_sb_typed : typed get_sb wt_sb.
Proof. apply keeps_gets, ww_sb. Qed.
Lemma get_inode_typed ip : typed (get_inode ip) wt_inode.
Proof. apply keeps_gets. intros w Hw. apply (ww_inodes w Hw). Qed.
Lemma upd_inode_typed ip f : ix NINODE ip → (∀ x, wt_inode x → wt_inode (f x)) → typed (upd_inode ip f) (λ _, True).
Proof. intros Hi Hf. apply keeps_modify. intros w []. split; try done. by apply arr_alter. Qed.
#[export] Hint Resolve get_sb_typed get_inode_typed upd_inode_typed : typed.
#[export] Hint Extern 2 (wt_inode _) => solve [wt_upd] : typed.

Lemma lock_inode_ok ip : ix NINODE ip → lock_ok (LSleep (SInode ip)). Proof. done. Qed.
Lemma slock_inode_ok ip : ix NINODE ip → slock_ok (SInode ip). Proof. done. Qed.
Lemma is32_IBLOCK i sb : is32 (IBLOCK i sb). Proof. apply is32_u32. Qed.
Lemma is32_BBLOCK b sb : is32 (BBLOCK b sb). Proof. apply is32_u32. Qed.
#[export] Hint Resolve slock_inode_ok is32_IBLOCK is32_BBLOCK : wt.

Lemma iinit_typed : typed iinit (λ _, True).
Proof. unfold iinit. t. Qed.

Lemma find_ix n P : oix n (List.find P (seqZ 0 n)).
Proof. intros i [Hi _]%List.find_some. by apply seqZ_ix, list_elem_of_In. Qed.

Lemma iget_typed dev inum : is32 dev → is32 inum → typed (iget dev inum) (ix NINODE).
Proof.
  intros Hd Hi. unfold iget. t1.
  apply (keeps_bind _ _ (oix NINODE)); [apply keeps_gets; intros; apply find_ix|intros [ip|] Hip].
  { specialize (Hip _ eq_refl). t. }
  apply (keeps_bind _ _ (oix NINODE)); [apply keeps_gets; intros; apply find_ix|intros [ip|] He; [|t]].
  specialize (He _ eq_refl). t.
Qed.

Lemma idup_typed ip : ix NINODE ip → typed (idup ip) (ix NINODE).
Proof. intros Hi. unfold idup. t. Qed.
Lemma iunlock_typed ip : oix NINODE ip → typed (iunlock ip) (λ _, True).
Proof. intros Hi. unfold iunlock. destruct ip as [ip|]; [|t]. specialize (Hi _ eq_refl). t. Qed.
#[export] Hint Resolve iget_typed idup_typed iunlock_typed : typed.

Lemma dinode_fits inum : 0 ≤ inum `mod` IPB * sizeof_dinode ∧ inum `mod` IPB * sizeof_dinode + sizeof_dinode ≤ BSIZE.
Proof.
  pose proof (Z.mod_pos_bound inum IPB eq_refl) as Hm. change IPB with 16 in *. change sizeof_dinode with 64. change BSIZE with 1024. lia.
Qed.

Lemma load_dinode_wt d o ip : byte_mem d → wt_inode ip → wt_inode (load_dinode d o ip).
Proof.
  intros Hd Hip. pose proof (wi_addrs _ Hip) as Ha. destruct Hip. unfold load_dinode. split; cbn; eauto with wt. split.
  - intros i. destruct (_ && _); [by apply is32_ld32|apply Ha].
  - intros i Hi. destruct (Z.leb_spec 0 i), (Z.leb_spec i NDIRECT); cbn; try (by apply Ha). unfold ix in Hi. lia.
Qed.

Lemma store_dinode_block ip d o : block d → 0 ≤ o → o + sizeof_dinode ≤ BSIZE → block (store_dinode ip d o).
Proof.
  change sizeof_dinode with 64. change BSIZE with 1024. intros Hd H0 H1. unfold store_dinode.
  assert (∀ l d, block d → (∀ i, i ∈ l → 0 ≤ i ≤ 12) → block (foldl (λ d i, st32 d (o + 12 + 4 * i) (i_addrs ip i)) d l)) as Hl.
  { intros l. induction l as [|i l IH]; intros e He Hl; [done|]. cbn. pose proof (Hl i ltac:(set_solver)).
    apply IH; [|set_solver]. apply block_st; [done|num..]. }
  apply Hl; [|intros i Hi%elem_of_seqZ; unfold NDIRECT in Hi; lia].
  repeat (apply block_st; [|num..]). done.
Qed.
#[export] Hint Resolve load_dinode_wt : typed.
#[export] Hint Extern 2 (arr BSIZE is8 0 (store_dinode _ _ _)) => apply store_dinode_block; [done|apply dinode_fits..] : typed.

Section Fs.
Context {D : DiskOps} {HD : TypedDisk D} {L : Layout} {HL : LayoutOk L}.

Lemma bzero_typed dev bno : is32 dev → typed (bzero dev bno) (λ _, True).
Proof. intros Hd. unfold bzero. t. Qed.
Hint Resolve bzero_typed : typed.

Lemma bitmap_ix bi : 0 ≤ bi < BPB → ix BSIZE (bi / 8).
Proof. change BPB with 8192. unfold ix. change BSIZE with 1024. intros. split; [apply Z.div_pos; lia|apply Z.div_lt_upper_bound; lia]. Qed.

Lemma balloc_round_typed dev sb b :
  is32 dev → wt_sb sb → 0 ≤ b → typed (balloc_round dev sb b) (λ r, ∀ x, r = Some x → is32 x).
Proof.
  intros Hd Hs Hb. unfold balloc_round, first_clear. do 2 t1. destruct (List.find _ _) as [bi|] eqn:E; [|t].
  apply List.find_some in E as [Hi _]. apply list_elem_of_In, elem_of_seqZ in Hi.
  assert (ix BSIZE (bi / 8)) by (apply bitmap_ix; lia). assert (is32 (b + bi)) by (destruct Hs; num).
  t.
Qed.

Lemma balloc_typed dev : is32 dev → typed (balloc dev) is32.
Proof.
  intros Hd. unfold balloc. t1. apply (keeps_bind _ _ (λ r, ∀ b, r = Some b → is32 b)); [|intros [b|] Hb; t].
  apply keeps_for_find. intros x [i [-> Hi%elem_of_seqZ]]%list_elem_of_fmap. apply balloc_round_typed; [done..|].
  change BPB with 8192. lia.
Qed.

Lemma bfree_typed dev b : is32 dev → typed (bfree dev b) (λ _, True).
Proof.
  intros Hd. unfold bfree. assert (ix BSIZE (b `mod` BPB / 8)) by (apply bitmap_ix; by apply Z.mod_pos_bound). t.
Qed.
Hint Resolve balloc_typed bfree_typed : typed.

Lemma ialloc_typed dev type : is32 dev → typed (ialloc dev type) (ix NINODE).
Proof.
  intros Hd. unfold ialloc. t1. apply (keeps_bind _ _ (oix NINODE)); [|intros [ip|] Hip; t].
  apply keeps_for_find. intros inum Hi%elem_of_seqZ. pose proof (dinode_fits inum) as Hf. change sizeof_dinode with 64 in *.
  assert (is32 inum) by (wt_facts; num). t.
Qed.
Hint Resolve ialloc_typed : typed.

Lemma iupdate_typed ip : ix NINODE ip → typed (iupdate ip) (λ _, True).
Proof. intros Hi. unfold iupdate. t. Qed.

Lemma ilock_typed mip : oix NINODE mip → typed (ilock mip) (λ _, True).
Proof. intros Hi. unfold ilock. destruct mip as [ip|]; [|t]. specialize (Hi _ eq_refl). t. Qed.
Hint Resolve iupdate_typed ilock_typed : typed.

Lemma bmap_typed ip bn : ix NINODE ip → 0 ≤ bn → typed (bmap ip bn) is32.
Proof.
  intros Hi Hn. unfold bmap. t1. t1.
  { assert (ix (NDIRECT + 1) bn) by (apply Z.ltb_lt in Heqb; num). t. }
  t1; [|t]. assert (ix (NDIRECT + 1) NDIRECT) by num.
  apply (keeps_bind _ _ is32); [t|intros addr Ha]. do 2 t1.
  apply (keeps_bind _ _ is32); [|intros; t].
  apply Z.ltb_ge in Heqb. apply Z.ltb_lt in Heqb0. unfold NINDIRECT in Heqb0. change (BSIZE / 4) with 256 in Heqb0. t.
Qed.
Hint Resolve bmap_typed : typed.

Lemma itrunc_typed ip : ix NINODE ip → typed (itrunc ip) (λ _, True).
Proof.
  intros Hi. unfold itrunc. assert (ix (NDIRECT + 1) NDIRECT) by num. t.
Qed.
Hint Resolve itrunc_typed : typed.

Lemma iput_typed ip : ix NINODE ip → typed (iput ip) (λ _, True).
Proof. intros Hi. unfold iput. t. Qed.
Hint Resolve iput_typed : typed.
Lemma iunlockput_typed ip : ix NINODE ip → typed (iunlockput ip) (λ _, True).
Proof. intros Hi. unfold iunlockput. t. Qed.
Hint Resolve iunlockput_typed : typed.

Lemma readi_loop_typed fuel ip user dst kdst off n tot :
  ix NINODE ip → byte_mem kdst → 0 ≤ off → typed (readi_loop fuel ip user dst kdst off n tot) (λ r, byte_mem r.2).
Proof.
  intros Hi. revert dst kdst off tot. induction fuel as [|fuel IH]; intros dst kdst off tot Hk Ho; cbn [readi_loop]; [t|].
  assert (0 ≤ off / BSIZE) by (by apply Z.div_pos). pose proof (Z.mod_pos_bound off BSIZE eq_refl).
  t1; [t|]. apply negb_false_iff, Z.ltb_lt in Heqb.
  assert (0 ≤ off + Z.min (n - tot) (BSIZE - off `mod` BSIZE)) by lia. t.
Qed.
Hint Resolve readi_loop_typed : typed.

Lemma readi_typed ip user dst kdst off n :
  ix NINODE ip → byte_mem kdst → 0 ≤ off → typed (readi ip user dst kdst off n) (λ r, byte_mem r.2).
Proof. intros Hi Hk Ho. unfold readi. t. Qed.

Lemma writei_loop_typed fuel ip user src ksrc off n tot e :
  ix NINODE ip → byte_mem ksrc → 0 ≤ off ≤ e → e = off + (n - tot) →
  typed (writei_loop fuel ip user src ksrc off n tot) (λ r, 0 ≤ r ≤ e).
Proof.
  intros Hi Hk. revert src off tot. induction fuel as [|fuel IH]; intros src off tot Ho He; cbn [writei_loop]; [t|].
  assert (0 ≤ off / BSIZE) by (apply Z.div_pos; [lia|done]). pose proof (Z.mod_pos_bound off BSIZE eq_refl).
  t1; [t|]. apply negb_false_iff, Z.ltb_lt in Heqb. set (m := Z.min _ _) in *.
  assert (0 ≤ m ∧ off `mod` BSIZE + m ≤ BSIZE ∧ m ≤ n - tot) as (? & ? & ?) by lia.
  t. apply IH; lia.
Qed.

Lemma no_wrap off n : is32 off → is32 n → off ≤ u32 (off + n) → u32 (off + n) = off + n.
Proof.
  unfold is32, u32. intros Ho Hn Hle. destruct (decide (off + n < 2 ^ 32)); [apply Z.mod_small; lia|].
  assert ((off + n) `mod` 2 ^ 32 = off + n - 2 ^ 32); [|lia].
  rewrite <-(Z.mod_small (off + n - 2 ^ 32) (2 ^ 32)) by lia. rewrite <-(Z_mod_plus_full (off + n - 2 ^ 32) 1). f_equal. lia.
Qed.

Lemma writei_typed ip user src ksrc off n :
  ix NINODE ip → byte_mem ksrc → 0 ≤ off → is32 n → typed (writei ip user src ksrc off n) (λ _, True).
Proof.
  intros Hi Hk Ho Hn. unfold writei. t1. t1; [t|]. t1; [t|].
  apply orb_false_iff in Heqb as [H0 H1%Z.ltb_ge]. rewrite Z.gtb_ltb, Z.ltb_ge in H0, Heqb0.
  assert (is32 off) by (wt_facts; num). rewrite no_wrap in Heqb0, H1 by done. change (MAXFILE * BSIZE) with 274432 in *.
  eapply keeps_bind; [apply (writei_loop_typed _ _ _ _ _ _ _ _ (off + n)); [done..|lia|lia]|intros r Hr].
  cbv beta in Hr. assert (is32 r) by (unfold is32; lia). t.
Qed.
Hint Resolve readi_typed writei_typed : typed.

Lemma zeroes_bytes : byte_mem zeroes. Proof. intros x. unfold zeroes. lia. Qed.
Hint Resolve zeroes_bytes : wt.

Lemma dir_offs_pos size x : x ∈ dir_offs size → 0 ≤ x.
Proof. intros [i [-> Hi%elem_of_seqZ]]%list_elem_of_fmap. change sizeof_dirent with 16. lia. Qed.

Lemma is32_de_inum m : byte_mem m → is32 (de_inum m).
Proof. intros Hm. pose proof (is16_ld16 m 0 Hm). unfold de_inum. num. Qed.
Hint Resolve dir_offs_pos is32_de_inum : wt.

Lemma dirlookup_typed dp name : ix NINODE dp → typed (dirlookup dp name) (λ r, oix NINODE r.1 ∧ 0 ≤ r.2).
Proof.
  intros Hd. unfold dirlookup, lookup_round. t1. t1; [t|].
  apply (keeps_bind _ _ (λ r, ∀ x, r = Some x → 0 ≤ x.1 ∧ is32 x.2)).
  - apply keeps_for_find. intros off Ho%dir_offs_pos. t.
  - intros [[off inum]|] Hr; [|t]. destruct (Hr _ eq_refl). t.
Qed.
Hint Resolve dirlookup_typed : typed.

Lemma zero_up_bytes n m s : byte_mem m → byte_mem (zero_up n m s).
Proof. revert m s. induction n as [|n IH]; intros m s Hm; [done|]. apply IH, insert_byte_mem; [done|num]. Qed.

Lemma strncpy_bytes n m s t : byte_mem m → byte_mem (strncpy_loop n m s t).
Proof.
  revert m s t. induction n as [|n IH]; intros m s t Hm; [done|]. cbn. assert (byte_mem (<[s := m t]> m)).
  { apply insert_byte_mem; [done|apply Hm]. } destruct (nz (m t)); [by apply IH|by apply zero_up_bytes].
Qed.

Lemma make_dirent_bytes name inum : byte_mem name → byte_mem (make_dirent name inum).
Proof. intros Hn. unfold make_dirent. apply st_byte_mem; [|done]. intros x. by apply strncpy_bytes. Qed.
Hint Resolve make_dirent_bytes : wt.

Lemma dirlink_typed dp name inum : ix NINODE dp → byte_mem name → typed (dirlink dp name inum) (λ _, True).
Proof.
  intros Hd Hn. unfold dirlink. t1. destruct H as [Hf _]. t1; [t|]. t1.
  apply (keeps_bind _ _ (λ r, ∀ x, r = Some x → 0 ≤ x)).
  - apply keeps_for_find. intros off Ho%dir_offs_pos. t.
  - intros o Ho. cbv zeta. set (off := match o with Some off => off | None => _ end).
    assert (0 ≤ off).
    { unfold off. destruct o as [x|]; [by apply Ho|]. change sizeof_dirent with 16. wt_facts. unfold is32 in *.
      pose proof (Z.div_pos (i_size a0 + 16 - 1) 16). lia. }
    assert (is32 sizeof_dirent) by done. t.
Qed.
Hint Resolve dirlink_typed : typed.

(** *** Path names *)

Lemma of_list_bytes l : Forall is8 l → byte_mem (of_list l).
Proof.
  intros Hl x. unfold of_list. destruct (x <? 0); [lia|]. destruct (nth_in_or_default (Z.to_nat x) l 0) as [Hi| ->]; [|lia].
  rewrite Forall_forall in Hl. by apply Hl, list_elem_of_In.
Qed.

Lemma skip_slashes_bytes path : Forall is8 path → Forall is8 (skip_slashes path).
Proof. induction 1 as [|c path Hc Hp IH]; cbn; [done|]. destruct (c =? slash); [done|by constructor]. Qed.

Lemma take_elem_bytes path : Forall is8 path → Forall is8 (take_elem path).1 ∧ Forall is8 (take_elem path).2.
Proof.
  induction 1 as [|c path Hc Hp IH]; cbn; [done|]. destruct (c =? slash); [split; [done|by constructor]|].
  destruct (take_elem path); cbn in *. destruct IH. split; [by constructor|done].
Qed.

Lemma skipelem_bytes path name path' name' :
  Forall is8 path → byte_mem name → skipelem path name = Some (path', name') → Forall is8 path' ∧ byte_mem name'.
Proof.
  intros Hp Hn. unfold skipelem. apply skip_slashes_bytes in Hp. destruct (skip_slashes path) as [|c l]; [done|].
  pose proof (take_elem_bytes (c :: l) Hp) as [H1 H2]. destruct (take_elem (c :: l)) as [s rest]. cbn in H1, H2. intros [= <- <-].
  split; [by apply skip_slashes_bytes|]. destruct (_ >=? _); [|apply insert_byte_mem; [|num]].
  all: apply mem_copy_byte_mem; [done|by apply of_list_bytes].
Qed.

Lemma namex_loop_typed fuel ip path parent name :
  ix NINODE ip → Forall is8 path → byte_mem name →
  typed (namex_loop fuel ip path parent name) (λ r, oix NINODE r.1 ∧ byte_mem r.2).
Proof.
  revert ip path name. induction fuel as [|fuel IH]; intros ip path name Hi Hp Hn; cbn [namex_loop]; [t|].
  destruct (skipelem path name) as [[path' name']|] eqn:E; [|t].
  destruct (skipelem_bytes path name path' name' Hp Hn E). do 2 t1. t1; [t|]. t1; [t|]. t1. destruct H2 as [Hd _]. t.
Qed.
Hint Resolve namex_loop_typed : typed.

Lemma namex_typed path parent name :
  Forall is8 path → byte_mem name → typed (namex path parent name) (λ r, oix NINODE r.1 ∧ byte_mem r.2).
Proof.
  intros Hp Hn. unfold namex. apply (keeps_bind _ _ (ix NINODE)); [|intros; t].
  assert (is32 ROOTDEV) by done. assert (is32 ROOTINO) by done. destruct path as [|c path]; t.
Qed.
Hint Resolve namex_typed : typed.

Lemma namei_typed path : Forall is8 path → typed (namei path) (oix NINODE).
Proof. intros Hp. unfold namei. t1. destruct H as [Hf _]. t. Qed.
Lemma nameiparent_typed path name :
  Forall is8 path → byte_mem name → typed (nameiparent path name) (λ r, oix NINODE r.1 ∧ byte_mem r.2).
Proof. intros Hp Hn. by apply namex_typed. Qed.
End Fs.
#[export] Hint Resolve zeroes_bytes of_list_bytes is32_de_inum dir_offs_pos : wt.
#[export] Hint Resolve ialloc_typed iupdate_typed ilock_typed itrunc_typed iput_typed iunlockput_typed readi_typed writei_typed
  dirlookup_typed dirlink_typed namei_typed nameiparent_typed : typed.
