(* ===== verification/TypeKernel.v ===== *)
(** * The types are kept: the whole kernel

    From the devices to the system calls and traps: whatever a process puts into
    its registers and its memory, the kernel keeps the types of TypeInv while it
    serves the trap. *)

From S2P Require Import Prelude Types StringC Spinlock Kalloc PageTable Vm Sched Sleeplock Run Bio Log Fs TypeInv TypeFs.
From S2P Require Import Riscv Uart Printf Console Pipe File Proc Exec SysArgs Sysfile VirtioDisk Syscall Trap Main.

(** ** Registers and the serial port (riscv.h, plic.c, uart.c, printf.c) *)

Lemma get_h_typed {A} (f : hart → A) : typed (get_h f) (λ _, True).
Proof. by apply keeps_gets. Qed.
Lemma r_tp_typed : typed r_tp (ix NCPU).
Proof. apply keeps_gets, ww_tp. Qed.
Lemma mmio_read_typed a : typed (mmio_read a) (λ _, True).
Proof. by apply keeps_gets. Qed.
Lemma mmio_write_typed a v : typed (mmio_write a v) (λ _, True).
Proof. apply keeps_modify. intros w []. by split. Qed.
#[export] Hint Resolve get_h_typed r_tp_typed mmio_read_typed mmio_write_typed : typed.

Lemma plic_claim_typed : typed plic_claim (λ _, True).
Proof. unfold plic_claim. t. Qed.
Lemma plic_complete_typed irq : typed (plic_complete irq) (λ _, True).
Proof. unfold plic_complete. t. Qed.
Lemma plicinit_typed : typed plicinit (λ _, True).
Proof. unfold plicinit. t. Qed.
Lemma plicinithart_typed : typed plicinithart (λ _, True).
Proof. unfold plicinithart. t. Qed.
#[export] Hint Resolve plic_claim_typed plic_complete_typed plicinit_typed plicinithart_typed : typed.

Lemma get_uart_typed : typed get_uart wt_uart.
Proof. apply keeps_gets, ww_uart. Qed.
Lemma upd_uart_typed f : (∀ x, wt_uart x → wt_uart (f x)) → typed (upd_uart f) (λ _, True).
Proof. intros Hf. apply keeps_modify. intros w []. split; try done. by apply Hf. Qed.
#[export] Hint Resolve get_uart_typed upd_uart_typed : typed.
#[export] Hint Extern 2 (wt_uart _) => solve [wt_upd] : typed.

Lemma ReadReg_typed reg : typed (ReadReg reg) (λ _, True).
Proof.
  unfold ReadReg. t1; [by apply keeps_gets|]. t1; [|t]. apply (keeps_bind _ _ (λ _, True)); [by apply keeps_gets|intros rx _].
  t. apply keeps_modify. intros w []. by split.
Qed.
Lemma WriteReg_typed reg v : typed (WriteReg reg v) (λ _, True).
Proof.
  unfold WriteReg. apply (keeps_bind _ _ (λ _, True)); [by apply keeps_gets|intros latch _].
  t. apply keeps_modify. intros w []. by split.
Qed.
#[export] Hint Resolve ReadReg_typed WriteReg_typed : typed.

Lemma uartinit_typed : typed uartinit (λ _, True).
Proof. unfold uartinit. t. Qed.

Lemma tx_next_ix x : ix UART_TX_BUF_SIZE x → ix UART_TX_BUF_SIZE (Z.rem (x + 1) UART_TX_BUF_SIZE).
Proof. unfold ix. change UART_TX_BUF_SIZE with 32. intros Hx. apply Z.rem_bound_pos; lia. Qed.
#[export] Hint Resolve tx_next_ix : wt.

Lemma uartstart_typed : typed uartstart (λ _, True).
Proof. unfold uartstart. apply keeps_loop. t. Qed.
#[export] Hint Resolve uartinit_typed uartstart_typed : typed.

Lemma panicked_typed : typed (gets (λ w, w_panicked w)) (λ _, True).
Proof. by apply keeps_gets. Qed.
#[export] Hint Resolve panicked_typed : typed.

Lemma uartputc_typed c : typed (uartputc c) (λ _, True).
Proof. unfold uartputc. t. Qed.
Lemma uartputc_sync_typed c : typed (uartputc_sync c) (λ _, True).
Proof. unfold uartputc_sync. t. Qed.
Lemma uartgetc_typed : typed uartgetc (λ _, True).
Proof. unfold uartgetc. t. Qed.
#[export] Hint Resolve uartputc_typed uartputc_sync_typed uartgetc_typed : typed.

Lemma consputc_typed c : typed (consputc c) (λ _, True).
Proof. unfold consputc. t. Qed.
#[export] Hint Resolve consputc_typed : typed.
Lemma consputs_typed s : typed (consputs s) (λ _, True).
Proof. unfold consputs. t. Qed.
#[export] Hint Resolve consputs_typed : typed.
Lemma printint_typed xx base sign : typed (printint xx base sign) (λ _, True).
Proof. unfold printint. t. Qed.
Lemma printptr_typed x : typed (printptr x) (λ _, True).
Proof. unfold printptr. t. Qed.
#[export] Hint Resolve printint_typed printptr_typed : typed.

Lemma printf_loop_typed fmt ap : typed (printf_loop fmt ap) (λ _, True).
Proof.
  revert ap. remember (length fmt) as n eqn:En. revert fmt En. induction (lt_wf n) as [n _ IH]. intros fmt -> ap.
  destruct fmt as [|c fmt]; cbn [printf_loop]; [t|].
  assert (∀ ap, typed (printf_loop fmt ap) (λ _, True)) as H1 by (intros; eapply IH; [|done]; cbn; lia).
  t1; [t|]. destruct fmt as [|c' fmt]; [t|].
  assert (∀ ap, typed (printf_loop fmt ap) (λ _, True)) as H2 by (intros; eapply IH; [|done]; cbn; lia). clear IH H1. t.
Qed.
#[export] Hint Resolve printf_loop_typed : typed.

Lemma printf_typed filename line fmt ap : typed (printf filename line fmt ap) (λ _, True).
Proof. unfold printf. apply (keeps_bind _ _ (λ _, True)); [by apply keeps_gets|intros; t]. Qed.
#[export] Hint Resolve printf_typed : typed.
Lemma printfinit_typed : typed printfinit (λ _, True).
Proof. unfold printfinit. t1. apply keeps_modify. intros w []. by split. Qed.

(** ** The console (console.c) *)

Lemma get_cons_typed : typed get_cons wt_cons.
Proof. apply keeps_gets, ww_cons. Qed.
Lemma upd_cons_typed f : (∀ x, wt_cons x → wt_cons (f x)) → typed (upd_cons f) (λ _, True).
Proof. intros Hf. apply keeps_modify. intros w []. split; try done. by apply Hf. Qed.
#[export] Hint Resolve get_cons_typed upd_cons_typed : typed.
#[export] Hint Extern 2 (wt_cons _) => solve [wt_upd] : typed.

Lemma mod_ix x n : 0 < n → ix n (x `mod` n).
Proof. apply Z.mod_pos_bound. Qed.
#[export] Hint Extern 1 (ix ?n (_ `mod` ?n)) => apply mod_ix; done : wt.

Lemma procdump_typed : typed procdump (λ _, True).
Proof. unfold procdump. t. Qed.
Lemma kill_line_typed fuel : typed (kill_line fuel) (λ _, True).
Proof. induction fuel as [|fuel IH]; cbn [kill_line]; t. Qed.
#[export] Hint Resolve procdump_typed kill_line_typed : typed.

Lemma consoleintr_typed c : typed (consoleintr c) (λ _, True).
Proof. unfold consoleintr. t. Qed.
#[export] Hint Resolve consoleintr_typed : typed.

Lemma uartintr_typed : typed uartintr (λ _, True).
Proof.
  unfold uartintr. apply (keeps_bind _ _ (λ _, True)); [by apply keeps_gets|intros rx _].
  apply (keeps_bind _ _ (λ _, True)); [apply keeps_loop|intros]; t.
Qed.
#[export] Hint Resolve uartintr_typed : typed.

Lemma const_bytes c : is8 c → byte_mem (λ _, c).
Proof. by intros Hc x. Qed.
#[export] Hint Resolve const_bytes : wt.

Section Console.
Context `{LayoutOk}.

Lemma consolewrite_typed user src ksrc n : byte_mem ksrc → typed (consolewrite user src ksrc n) (λ _, True).
Proof.
  intros Hk. unfold consolewrite. t1. apply (keeps_bind _ _ (λ _, True)); [|intros; t].
  eapply keeps_mono; [apply (keeps_for_find _ _ (λ _, True)); intros; t|done].
Qed.

Lemma consoleread_loop_typed n user dst kdst target :
  byte_mem kdst → typed (consoleread_loop n user dst kdst target) (λ r, ∀ x, r = Some x → byte_mem x.2).
Proof.
  revert dst kdst. induction n as [|n IH]; intros dst kdst Hk; cbn [consoleread_loop]; [t|].
  apply (keeps_bind _ _ (λ _, True)); [t|intros]. t.
Qed.
Hint Resolve consoleread_loop_typed : typed.

Lemma consoleread_typed user dst kdst n : byte_mem kdst → typed (consoleread user dst kdst n) (λ r, byte_mem r.2).
Proof. intros Hk. unfold consoleread. t. Qed.
End Console.
#[export] Hint Resolve consolewrite_typed consoleread_typed : typed.

Lemma consoleinit_typed : typed consoleinit (λ _, True).
Proof. unfold consoleinit. t. apply keeps_modify. intros w []. split; try done. by apply arr_insert. Qed.

(** ** Pipes and files (pipe.c, file.c) *)

Lemma get_pipe_typed pi : typed (get_pipe pi) wt_pipe.
Proof. apply keeps_gets. intros w Hw. apply (ww_pipes w Hw). Qed.
Lemma upd_pipe_typed pi f : (∀ x, wt_pipe x → wt_pipe (f x)) → typed (upd_pipe pi f) (λ _, True).
Proof.
  intros Hf. apply keeps_modify. intros w []. split; try done. intros p. rsimpl. rewrite fn_alter_insert.
  destruct (decide (pi = p)) as [->|?]; [rewrite fn_lookup_insert; by apply Hf|by rewrite fn_lookup_insert_ne].
Qed.
Lemma get_file_typed f : typed (get_file f) wt_file.
Proof. apply keeps_gets. intros w Hw. apply (ww_files w Hw). Qed.
Lemma upd_file_typed f g : ix NFILE f → (∀ x, wt_file x → wt_file (g x)) → typed (upd_file f g) (λ _, True).
Proof. intros Hi Hf. apply keeps_modify. intros w []. split; try done. by apply arr_alter. Qed.
#[export] Hint Resolve get_pipe_typed upd_pipe_typed get_file_typed upd_file_typed : typed.
#[export] Hint Extern 2 (wt_pipe _) => solve [wt_upd] : typed.
#[export] Hint Extern 2 (wt_file _) => solve [wt_upd] : typed.

Lemma fileinit_typed : typed fileinit (λ _, True).
Proof. unfold fileinit. t. Qed.

Lemma filealloc_typed : typed filealloc (oix NFILE).
Proof.
  unfold filealloc. t1. apply (keeps_bind _ _ (oix NFILE)); [t|intros [f|] Hf; t].
Qed.
Lemma filedup_typed f : ix NFILE f → typed (filedup f) (ix NFILE).
Proof. intros Hf. unfold filedup. t. Qed.
#[export] Hint Resolve filealloc_typed filedup_typed : typed.

Section Pipe.
Context `{LayoutOk}.

Lemma pipeclose_typed pi writable : typed (pipeclose pi writable) (λ _, True).
Proof. unfold pipeclose. t. Qed.

Lemma pipe_room_typed pi pr : typed (pipe_room pi pr) (λ _, True).
Proof. unfold pipe_room. t. Qed.
Hint Resolve pipe_room_typed : typed.

Lemma write_byte_typed pi pr addr i : typed (write_byte pi pr addr i) (λ _, True).
Proof. unfold write_byte. t. Qed.
Lemma pipe_input_typed pi pr : typed (pipe_input pi pr) (λ _, True).
Proof. unfold pipe_input. t. Qed.
Lemma read_byte_typed pi pr addr i : typed (read_byte pi pr addr i) (λ _, True).
Proof. unfold read_byte. t. Qed.
Hint Resolve write_byte_typed pipe_input_typed read_byte_typed : typed.

Lemma for_find_any {A B} (l : list A) (body : A → K (option B)) :
  (∀ x, typed (body x) (λ _, True)) → typed (for_find l body) (λ _, True).
Proof.
  intros Hb. eapply keeps_mono; [apply (keeps_for_find _ _ (λ _, True)); intros x _|done].
  eapply keeps_mono; [apply Hb|done].
Qed.
Hint Resolve for_find_any : typed.

Lemma pipewrite_typed pi addr n : typed (pipewrite pi addr n) (λ _, True).
Proof. unfold pipewrite. t. Qed.
Lemma piperead_typed pi addr n : typed (piperead pi addr n) (λ _, True).
Proof. unfold piperead. t. Qed.
End Pipe.
#[export] Hint Resolve pipeclose_typed for_find_any pipewrite_typed piperead_typed : typed.

Section File.
Context {D : DiskOps} {HD : TypedDisk D} {L : Layout} {HL : LayoutOk L}.

Lemma fileclose_typed f : ix NFILE f → typed (fileclose f) (λ _, True).
Proof. intros Hf. unfold fileclose. t. Qed.

Lemma stati_typed ip st : byte_mem st → typed (stati ip st) byte_mem.
Proof. intros Hs. unfold stati. t1. apply keeps_ret. by repeat apply st_byte_mem. Qed.
Hint Resolve fileclose_typed stati_typed : typed.

Lemma filestat_typed f addr st : ix NFILE f → byte_mem st → typed (filestat f addr st) (λ _, True).
Proof. intros Hf Hs. unfold filestat. t. Qed.

Lemma is32_nonneg x : is32 x → 0 ≤ x. Proof. num. Qed.
Hint Resolve is32_nonneg : wt.

Lemma devsw_typed : typed (gets (λ w, w_devsw w)) (λ _, True).
Proof. by apply keeps_gets. Qed.
Hint Resolve devsw_typed : typed.

Lemma fileread_typed f addr n : ix NFILE f → typed (fileread f addr n) (λ _, True).
Proof. intros Hf. unfold fileread. t. Qed.

Lemma filewrite_loop_typed fuel f addr n i : ix NFILE f → typed (filewrite_loop fuel f addr n i) (λ _, True).
Proof.
  intros Hf. revert i. induction fuel as [|fuel IH]; intros i; cbn [filewrite_loop]; [t|].
  t1; [t|]. apply negb_false_iff, Z.ltb_lt in Heqb.
  assert (is32 (if n - i >? write_max then write_max else n - i)).
  { destruct (Z.gtb_spec (n - i) write_max) as [?|Hle]; [done|]. change write_max with 3072 in Hle. num. }
  t.
Qed.
Hint Resolve filewrite_loop_typed : typed.

Lemma filewrite_typed f addr n : ix NFILE f → typed (filewrite f addr n) (λ _, True).
Proof. intros Hf. unfold filewrite. t. Qed.

Lemma pipealloc_typed : typed pipealloc (λ r, ∀ x, r = Some x → ix NFILE x.1 ∧ ix NFILE x.2).
Proof.
  unfold pipealloc. t1. apply (keeps_bind _ _ (oix NFILE)); [t|intros f1 H1].
  apply (keeps_bind _ _ (λ _, True)); [t|intros pi _]. t.
Qed.
End File.
#[export] Hint Resolve fileclose_typed filestat_typed fileread_typed filewrite_typed pipealloc_typed is32_nonneg : typed.

(** ** Processes (proc.c, exec.c) *)

Lemma get_tf_typed p field : typed (get_tf p field) is64.
Proof. unfold get_tf. t. Qed.
Lemma set_tf_typed p field v : typed (set_tf p field v) (λ _, True).
Proof. unfold set_tf. t. Qed.
#[export] Hint Resolve get_tf_typed set_tf_typed : typed.

Lemma safestrcpy_loop_bytes n m s t : byte_mem m → byte_mem (safestrcpy_loop n m s t).
Proof.
  revert m s t. induction n as [|n IH]; intros m s t Hm; cbn; [apply insert_byte_mem; [done|num]|].
  assert (byte_mem (<[s := m t]> m)) by (apply insert_byte_mem; [done|apply Hm]).
  destruct (nz (m t)); [by apply IH|apply insert_byte_mem; [done|num]].
Qed.

Lemma name_copy_ok dst src :
  length dst = 16%nat ∧ Forall is8 dst → byte_mem src → length (name_copy dst src) = 16%nat ∧ Forall is8 (name_copy dst src).
Proof.
  intros [Hl Hd] Hs. unfold name_copy. rewrite Hl. change (Z.of_nat 16) with 16. unfold ld_bytes.
  split; [by rewrite length_fmap, length_seqZ|]. apply Forall_fmap, Forall_forall. intros x _. unfold compose, safestrcpy. cbn [Z.leb].
  apply safestrcpy_loop_bytes. intros y. unfold beside. destruct (y <? 16); [by apply of_list_bytes|apply Hs].
Qed.
Lemma name_clear_ok l : length l = 16%nat ∧ Forall is8 l → length (<[0%nat := 0]> l) = 16%nat ∧ Forall is8 (<[0%nat := 0]> l).
Proof. intros [Hl Hf]. split; [by rewrite length_insert|apply Forall_insert; [done|num]]. Qed.
Lemma is64_0 : is64 0. Proof. num. Qed.
Lemma isi32_0 : isi32 0. Proof. num. Qed.
Lemma isi32_m1 : isi32 (-1). Proof. num. Qed.
#[export] Hint Resolve name_copy_ok name_clear_ok is64_0 isi32_0 isi32_m1 : wt.
#[export] Hint Extern 1 (Forall is8 ?l) => match goal with H : _ ∧ Forall is8 l |- _ => exact (proj2 H) end : wt.

Lemma chars_bytes s : Forall is8 (chars s).
Proof.
  apply Forall_fmap, Forall_forall. intros c _. unfold compose, is8. pose proof (Ascii.N_ascii_bounded c). lia.
Qed.
#[export] Hint Resolve chars_bytes : wt.

Section Proc.
Context {D : DiskOps} {HD : TypedDisk D} {L : Layout} {HL : LayoutOk L}.

Lemma proc_pagetable_typed p : typed (proc_pagetable p) is64.
Proof. unfold proc_pagetable. t. Qed.
Lemma proc_freepagetable_typed pt sz : typed (proc_freepagetable pt sz) (λ _, True).
Proof. unfold proc_freepagetable. t. Qed.
Hint Resolve proc_pagetable_typed proc_freepagetable_typed : typed.

Lemma freeproc_typed p : ix NPROC p → typed (freeproc p) (λ _, True).
Proof. intros Hp. unfold freeproc. t. Qed.
Lemma find_unused_proc_typed : typed find_unused_proc (oix NPROC).
Proof. unfold find_unused_proc. t. Qed.
Hint Resolve freeproc_typed find_unused_proc_typed : typed.

Lemma allocproc_typed : typed allocproc (oix NPROC).
Proof. unfold allocproc. t. Qed.
Hint Resolve allocproc_typed : typed.

Lemma procinit_typed : typed procinit (λ _, True).
Proof. unfold procinit. t. Qed.

Lemma get_initproc_typed : typed (gets (λ w, w_initproc w)) (oix NPROC).
Proof. apply keeps_gets, ww_initproc. Qed.
Lemma set_initproc_typed o : oix NPROC o → typed (modify (λ w, set_initproc o w)) (λ _, True).
Proof. intros Ho. apply keeps_modify. intros w []. by split. Qed.
Hint Resolve get_initproc_typed set_initproc_typed : typed.

Lemma is64_PGSIZE : is64 PGSIZE. Proof. done. Qed.
Lemma is64_is32 x : is32 x → is64 x. Proof. num. Qed.
Hint Resolve is64_PGSIZE is64_is32 : wt.

Lemma userinit_typed : typed userinit (λ _, True).
Proof.
  assert (Forall is8 initcode) by (apply Forall_forall; intros x Hx; vm_compute in Hx; unfold is8; set_solver by lia).
  assert (Forall is8 [slash]) by (by repeat constructor). unfold userinit. t.
Qed.

Lemma growproc_typed n : typed (growproc n) (λ _, True).
Proof. unfold growproc. t. Qed.

Lemma fork_typed : typed fork (λ _, True).
Proof. unfold fork. t. Qed.

Lemma reparent_typed p : typed (reparent p) (λ _, True).
Proof. unfold reparent. t. Qed.
Hint Resolve reparent_typed : typed.

Lemma exit_typed status : isi32 status → typed (exit status) (λ _, True).
Proof. intros Hs. unfold exit. t. Qed.

Lemma wait_scan_typed l p addr havekids :
  (∀ x, x ∈ l → ix NPROC x) → ix NPROC p → typed (wait_scan l p addr havekids) (λ _, True).
Proof.
  intros Hl Hp. revert havekids. induction l as [|np l IH]; intros havekids; cbn [wait_scan]; [t|].
  pose proof (Hl np ltac:(set_solver)). specialize (IH ltac:(set_solver)).
  t1. t1; [t|]. do 2 t1. t1; [|t]. cbv zeta. t1. apply (keeps_bind _ _ (λ _, True)); [|intros; t].
  assert (byte_mem (st32 zeroes 0 (u32 (p_xstate a0)))) by (by apply st_byte_mem; [apply zeroes_bytes|]). t.
Qed.

Lemma wait_typed addr : typed (wait addr) (λ _, True).
Proof.
  unfold wait. do 3 t1. t1. apply (keeps_bind _ _ (λ _, True)); [|intros; t].
  apply wait_scan_typed; [apply all_procs_ix|done].
Qed.
End Proc.
#[export] Hint Resolve proc_pagetable_typed proc_freepagetable_typed procinit_typed userinit_typed growproc_typed fork_typed
  exit_typed wait_typed : typed.
#[export] Hint Resolve is64_is32 : wt.

Section Exec.
Context {D : DiskOps} {HD : TypedDisk D} {L : Layout} {HL : LayoutOk L}.

Lemma get_mem_k_typed : typed (gets (λ w, w_mem w)) byte_mem.
Proof. apply keeps_gets, ww_mem. Qed.
Hint Resolve get_mem_k_typed : typed.

Lemma strlen_k_typed s : typed (strlen_k s) (λ _, True).
Proof. unfold strlen_k. apply (keeps_bind _ _ (λ _, True)); [by apply keeps_gets|intros; t]. Qed.
Hint Resolve strlen_k_typed : typed.

Lemma loadseg_loop_typed fuel pt va ip offset sz i :
  ix NINODE ip → typed (loadseg_loop fuel pt va ip offset sz i) (λ _, True).
Proof. intros Hi. revert i. induction fuel as [|fuel IH]; intros i; cbn [loadseg_loop]; t. Qed.
Hint Resolve loadseg_loop_typed : typed.
Lemma loadseg_typed pt va ip offset sz : ix NINODE ip → typed (loadseg pt va ip offset sz) (λ _, True).
Proof. intros Hi. unfold loadseg. t. Qed.
Hint Resolve loadseg_typed : typed.

Lemma load_segments_typed n pt ip off sz : ix NINODE ip → is64 sz → typed (load_segments n pt ip off sz) (λ r, is64 r.2).
Proof. intros Hi. revert off sz. induction n as [|n IH]; intros off sz Hs; cbn [load_segments]; t. Qed.
Hint Resolve load_segments_typed : typed.

Lemma push_args_typed argv argc pt sp base ustack : typed (push_args argv argc pt sp base ustack) (λ _, True).
Proof.
  revert argc sp ustack. induction argv as [|a argv IH]; intros argc sp ustack; cbn [push_args]; [t|].
  t1; [t|]. t1. cbv zeta. t1; [t|]. t1. assert (byte_mem (λ x, a1 (a + x))) by (intros x; apply H0). t.
Qed.
Hint Resolve push_args_typed : typed.

Lemma words_bytes l : byte_mem (words l).
Proof.
  unfold words. generalize (seqZ 0 (Z.of_nat (length l))). assert (byte_mem zeroes) as Hz by apply zeroes_bytes. revert Hz.
  generalize zeroes. intros m Hm k. revert m Hm. induction k as [|i k IH]; intros m Hm; [done|]. cbn. apply IH. by apply st_byte_mem.
Qed.
Hint Resolve words_bytes : wt.

Lemma last_elem_bytes path last : Forall is8 path → Forall is8 last → Forall is8 (last_elem path last).
Proof.
  intros Hp. revert last. induction Hp as [|c path Hc Hp IH]; intros last Hl; cbn; [done|]. apply IH. by destruct (c =? slash).
Qed.
Hint Resolve last_elem_bytes : wt.

Lemma exec_bad_typed pt sz : typed (exec_bad pt sz) (λ _, True).
Proof. unfold exec_bad. t. Qed.
Lemma exec_bad_ip_typed pt sz ip : ix NINODE ip → typed (exec_bad_ip pt sz ip) (λ _, True).
Proof. intros Hi. unfold exec_bad_ip. t. Qed.
Hint Resolve exec_bad_typed exec_bad_ip_typed : typed.

Lemma exec_stack_typed path argv entry pt sz :
  Forall is8 path → is64 pt → is64 sz → typed (exec_stack path argv entry pt sz) (λ _, True).
Proof. intros Hp Hpt Hs. unfold exec_stack. t. Qed.
Hint Resolve exec_stack_typed : typed.

Lemma exec_typed path argv : Forall is8 path → typed (exec path argv) (λ _, True).
Proof. intros Hp. unfold exec. t. Qed.
End Exec.
#[export] Hint Resolve exec_typed : typed.

(** ** System calls (syscall.c, sysproc.c, sysfile.c) *)

Lemma this_proc_typed : typed this_proc (ix NPROC).
Proof. unfold this_proc. t. Qed.
#[export] Hint Resolve this_proc_typed : typed.

Lemma cstr_bytes n m p : byte_mem m → Forall is8 (cstr n m p).
Proof. intros Hm. revert p. induction n as [|n IH]; intros p; cbn; [done|]. destruct (nz (m p)); [|done]. constructor; [apply Hm|apply IH]. Qed.
#[export] Hint Resolve cstr_bytes : wt.

Section Args.
Context `{LayoutOk}.

Lemma fetchaddr_typed addr : typed (fetchaddr addr) (λ _, True).
Proof. unfold fetchaddr. t. Qed.
Lemma fetchstr_typed addr buf max : byte_mem buf → typed (fetchstr addr buf max) (λ r, byte_mem r.2).
Proof. intros Hb. unfold fetchstr. t. Qed.
Lemma argraw_typed n : typed (argraw n) is64.
Proof. unfold argraw. t. Qed.
Hint Resolve fetchaddr_typed fetchstr_typed argraw_typed : typed.
Lemma argint_typed n : typed (argint n) isi32.
Proof. unfold argint. t. Qed.
Lemma argaddr_typed n : typed (argaddr n) is64.
Proof. unfold argaddr. t. Qed.
Hint Resolve argint_typed argaddr_typed : typed.
Lemma argstr_typed n buf max : byte_mem buf → typed (argstr n buf max) (λ r, byte_mem r.2).
Proof. intros Hb. unfold argstr. t. Qed.
Hint Resolve argstr_typed : typed.
Lemma arg_path_typed n max : typed (arg_path n max) (λ r, ∀ p, r = Some p → Forall is8 p).
Proof. unfold arg_path. t1. apply keeps_ret. destruct (_ <? _); [done|]. intros p [= <-]. by apply cstr_bytes. Qed.
End Args.
#[export] Hint Resolve fetchaddr_typed fetchstr_typed argint_typed argaddr_typed arg_path_typed : typed.

Lemma argfd_typed n : typed (argfd n) (λ r, ∀ x, r = Some x → ix NOFILE x.1 ∧ ix NFILE x.2).
Proof.
  unfold argfd. t1. t1; [t|]. do 2 t1. apply keeps_ret. intros x Hx.
  apply orb_false_iff in Heqb as [H2%Z.ltb_ge H3]. rewrite Z.geb_leb, Z.leb_gt in H3.
  destruct (p_ofile a1 a) as [f|] eqn:E; [|done]. injection Hx as <-. split; [done|]. wt_facts. eauto with wt.
Qed.

Lemma fdalloc_typed f : ix NFILE f → typed (fdalloc f) (λ r, r < 0 ∨ ix NOFILE r).
Proof.
  intros Hf. unfold fdalloc. t1. apply (keeps_bind _ _ (oix NOFILE)); [t|]. intros [fd|] Hr; apply keeps_ret; cbn; eauto with wt.
  left. lia.
Qed.
#[export] Hint Resolve argfd_typed fdalloc_typed : typed.

Section Sysproc.
Context {D : DiskOps} {HD : TypedDisk D} {L : Layout} {HL : LayoutOk L}.

Lemma get_ticks_typed : typed (gets (λ w, w_ticks w)) is32.
Proof. apply keeps_gets, ww_ticks. Qed.
Hint Resolve get_ticks_typed : typed.

Lemma sys_exit_typed : typed sys_exit (λ _, True).
Proof. unfold sys_exit. t. Qed.
Lemma sys_getpid_typed : typed sys_getpid (λ _, True).
Proof. unfold sys_getpid. t. Qed.
Lemma sys_fork_typed : typed sys_fork (λ _, True).
Proof. unfold sys_fork. t. Qed.
Lemma sys_wait_typed : typed sys_wait (λ _, True).
Proof. unfold sys_wait. t. Qed.
Lemma sys_sbrk_typed : typed sys_sbrk (λ _, True).
Proof. unfold sys_sbrk. t. Qed.
Lemma sys_sleep_typed : typed sys_sleep (λ _, True).
Proof. unfold sys_sleep. do 3 t1. apply (keeps_bind _ _ (λ _, True)); [|intros]; t. Qed.
Lemma sys_kill_typed : typed sys_kill (λ _, True).
Proof. unfold sys_kill. t. Qed.
Lemma sys_uptime_typed : typed sys_uptime (λ _, True).
Proof. unfold sys_uptime. t. Qed.
End Sysproc.
#[export] Hint Resolve sys_exit_typed sys_getpid_typed sys_fork_typed sys_wait_typed sys_sbrk_typed sys_sleep_typed sys_kill_typed
  sys_uptime_typed : typed.

Section Sysfile.
Context {D : DiskOps} {HD : TypedDisk D} {L : Layout} {HL : LayoutOk L}.

(** A system call that works on an open file. *)
Ltac with_fd := eapply keeps_bind; [apply argfd_typed|intros [[fd f]|] Ha; [destruct (Ha _ eq_refl) as [Hfd Hf]; cbn in Hfd, Hf|]].

Lemma sys_dup_typed : typed sys_dup (λ _, True).
Proof. unfold sys_dup. with_fd; t. Qed.
Lemma sys_read_typed : typed sys_read (λ _, True).
Proof. unfold sys_read. with_fd; t. Qed.
Lemma sys_write_typed : typed sys_write (λ _, True).
Proof. unfold sys_write. with_fd; t. Qed.
Lemma sys_close_typed : typed sys_close (λ _, True).
Proof. unfold sys_close. with_fd; t. Qed.
Lemma sys_fstat_typed : typed sys_fstat (λ _, True).
Proof. unfold sys_fstat. with_fd; t. Qed.

Lemma add_nlink_typed ip d : ix NINODE ip → typed (add_nlink ip d) (λ _, True).
Proof. intros Hi. unfold add_nlink. t. Qed.
Hint Resolve add_nlink_typed : typed.

Lemma sys_link_typed : typed sys_link (λ _, True).
Proof.
  unfold sys_link. t1. t1; [|t]. t1. t1; [|t]. t1. t1. t1; [|t]. do 2 t1. t1; [t|]. do 3 t1. cbv zeta. t1.
  destruct H3 as [Hd Hn]. t1; [|t]. do 3 t1. apply (keeps_bind _ _ (λ _, True)); [|intros]; t.
Qed.

Lemma isdirempty_typed dp : ix NINODE dp → typed (isdirempty dp) (λ _, True).
Proof.
  intros Hd. unfold isdirempty. t1. apply (keeps_bind _ _ (λ _, True)); [|intros; t].
  eapply keeps_mono; [apply (keeps_for_find _ _ (λ _, True))|done]. intros off Ho.
  assert (0 ≤ off).
  { apply (dir_offs_pos (i_size a)). rewrite <-(take_drop 2 (dir_offs (i_size a))). set_solver. }
  t.
Qed.
Hint Resolve isdirempty_typed : typed.

Lemma is32_sizeof_dirent : is32 sizeof_dirent. Proof. done. Qed.
Hint Resolve is32_sizeof_dirent : wt.

Lemma sys_unlink_typed : typed sys_unlink (λ _, True).
Proof.
  unfold sys_unlink. t1. t1; [|t]. t1. t1. destruct H0 as [Hd Hn]. t1; [|t]. cbv zeta. t1. t1; [t|]. t1. destruct H0 as [Hf Ho].
  t1; [|t]. do 2 t1. t1; [t|]. apply (keeps_bind _ _ (λ _, True)); [t|intros]. t.
Qed.

Lemma dots_bytes : byte_mem dot ∧ byte_mem dotdot.
Proof. split; apply of_list_bytes; by repeat constructor. Qed.
Lemma isi16_1 : isi16 1. Proof. num. Qed.
Hint Resolve isi16_1 : wt.

Lemma create_typed path type major minor :
  Forall is8 path → isi16 major → isi16 minor → typed (create path type major minor) (oix NINODE).
Proof.
  intros Hp H1 H2. pose proof dots_bytes as [Hb1 Hb2].
  unfold create. t1. destruct H as [Hd Hn]. t1; [|t]. cbv zeta. t1. t1. destruct H as [Hf _]. t.
Qed.
Hint Resolve create_typed : typed.

Lemma open_inode_typed ip omode : ix NINODE ip → typed (open_inode ip omode) (λ _, True).
Proof.
  intros Hi. unfold open_inode. t1. t1; [t|]. t1. apply (keeps_bind _ _ (λ r, True)); [|intros; t].
  t.
Qed.
Hint Resolve open_inode_typed : typed.

Lemma isi16_0 : isi16 0. Proof. num. Qed.
Hint Resolve isi16_0 : wt.

Lemma sys_open_typed : typed sys_open (λ _, True).
Proof. unfold sys_open. t. Qed.
Lemma sys_mkdir_typed : typed sys_mkdir (λ _, True).
Proof. unfold sys_mkdir. t1. t1. apply (keeps_bind _ _ (oix NINODE)); [|intros]; t. Qed.
Lemma sys_mknod_typed : typed sys_mknod (λ _, True).
Proof. unfold sys_mknod. t1. t1. apply (keeps_bind _ _ (oix NINODE)); [|intros]; t. Qed.
Lemma sys_chdir_typed : typed sys_chdir (λ _, True).
Proof. unfold sys_chdir. do 3 t1. apply (keeps_bind _ _ (oix NINODE)); [|intros]; t. Qed.

Lemma fetch_argv_typed n uargv i argv : typed (fetch_argv n uargv i argv) (λ _, True).
Proof.
  revert i argv. induction n as [|n IH]; intros i argv; cbn [fetch_argv]; [t|].
  t1. t1; [|t]. t1; [t|]. t1. t1; [t|].
  apply (keeps_bind _ _ byte_mem); [apply keeps_gets, ww_mem|intros m Hm].
  assert (byte_mem (λ x, m (a0 + x))) by (intros x; apply Hm). t.
Qed.
Hint Resolve fetch_argv_typed : typed.

Lemma sys_exec_typed : typed sys_exec (λ _, True).
Proof. unfold sys_exec. t. Qed.

Lemma clear_fd_typed p fd : ix NPROC p → ix NOFILE fd → typed (clear_fd p fd) (λ _, True).
Proof. intros Hp Hf. unfold clear_fd. t. Qed.

Lemma fd_bytes fd : byte_mem (st32 zeroes 0 fd).
Proof. apply st_byte_mem; [apply zeroes_bytes|done]. Qed.
Hint Resolve clear_fd_typed fd_bytes : typed.

Lemma sys_pipe_typed : typed sys_pipe (λ _, True).
Proof.
  unfold sys_pipe. do 2 t1. eapply keeps_bind; [apply pipealloc_typed|intros [[rf wf]|] Hr; [|t]].
  destruct (Hr _ eq_refl) as [H1 H2]. cbn in H1, H2. t1. rename a1 into fd0, H3 into Hfd0.
  apply (keeps_bind _ _ (λ r, r < 0 ∨ ix NOFILE r ∧ ix NOFILE fd0)).
  { t1; [apply keeps_ret; lia|]. eapply keeps_mono; [by apply fdalloc_typed|].
    intros r [?|?]; [by left|]. apply Z.ltb_ge in Heqb. right. split; [done|]. destruct Hfd0; [lia|done]. }
  intros fd1 Hfd1. cbv beta in Hfd1. t1.
  - assert ((fd0 >=? 0) = true → ix NOFILE fd0). { rewrite Z.geb_leb, Z.leb_le. destruct Hfd0; [lia|done]. } t.
  - apply Z.ltb_ge in Heqb. destruct Hfd1 as [?|[Hf1 Hf0]]; [lia|]. t1. t1.
    apply (keeps_bind _ _ (λ _, True)); [|intros]; t.
Qed.
End Sysfile.
#[export] Hint Resolve sys_dup_typed sys_read_typed sys_write_typed sys_close_typed sys_fstat_typed sys_link_typed sys_unlink_typed
  sys_open_typed sys_mkdir_typed sys_mknod_typed sys_chdir_typed sys_exec_typed sys_pipe_typed : typed.

(** ** The driver of the disk (virtio_disk.c) *)

Lemma get_vd_typed : typed get_vd wt_vd.
Proof. apply keeps_gets, ww_vd. Qed.
Lemma upd_vd_typed f : (∀ x, wt_vd x → wt_vd (f x)) → typed (upd_vd f) (λ _, True).
Proof. intros Hf. apply keeps_modify. intros w []. split; try done. by apply Hf. Qed.
#[export] Hint Resolve get_vd_typed upd_vd_typed : typed.
#[export] Hint Extern 2 (wt_vd _) => solve [wt_upd] : typed.

Lemma read_R_typed r : typed (read_R r) (λ _, True).
Proof. unfold read_R. t. Qed.
Lemma write_R_typed r v : typed (write_R r v) (λ _, True).
Proof. unfold write_R. t. Qed.
#[export] Hint Resolve read_R_typed write_R_typed : typed.

Lemma upd_desc_typed i f : ix NUM i → (∀ d, wt_desc d → wt_desc (f d)) → typed (upd_desc i f) (λ _, True).
Proof. intros Hi Hf. unfold upd_desc. apply upd_vd_typed. intros x []. split; try done. by apply arr_alter. Qed.
#[export] Hint Resolve upd_desc_typed : typed.

Lemma alloc_desc_typed : typed alloc_desc (λ r, r < 0 ∨ ix NUM r).
Proof.
  unfold alloc_desc. apply (keeps_bind _ _ (oix NUM)); [t|]. intros [i|] Hi; apply keeps_ret; cbn; eauto with wt. lia.
Qed.

Lemma free_desc_typed i : 0 ≤ i → typed (free_desc i) (λ _, True).
Proof.
  intros Hi. unfold free_desc. t1; [t|]. rewrite Z.geb_leb, Z.leb_gt in Heqb. assert (ix NUM i) by done. t.
Qed.
#[export] Hint Resolve alloc_desc_typed free_desc_typed : typed.

Lemma free_chain_loop_typed fuel i : 0 ≤ i → typed (free_chain_loop fuel i) (λ _, True).
Proof.
  revert i. induction fuel as [|fuel IH]; intros i Hi; cbn [free_chain_loop]; [t|]. t1. t1. t1; [|t]. apply IH.
  destruct H. pose proof (proj1 wv_desc i) as [? _]. done.
Qed.

Lemma alloc3_loop_typed n idx :
  Forall (ix NUM) idx → typed (alloc3_loop n idx) (λ r, ∀ l, r = Some l → Forall (ix NUM) l ∧ length l = (length idx + n)%nat).
Proof.
  revert idx. induction n as [|n IH]; intros idx Hl; cbn [alloc3_loop].
  { apply keeps_ret. intros l [= <-]. split; [done|lia]. }
  t1. destruct H as [?|Hi].
  - t1; [|apply Z.ltb_ge in Heqb; lia]. t. rewrite Forall_forall in Hl. destruct (Hl x H0). t.
  - t1; [apply Z.ltb_lt in Heqb; destruct Hi; lia|]. eapply keeps_mono; [apply IH, Forall_app; split; [done|by constructor]|].
    intros r Hr l ->. destruct (Hr l eq_refl) as [? ->]. split; [done|]. rewrite length_app. cbn. lia.
Qed.

Lemma alloc3_desc_typed :
  typed alloc3_desc (λ r, ∀ l, r = Some l → ix NUM (nth 0 l 0) ∧ ix NUM (nth 1 l 0) ∧ ix NUM (nth 2 l 0)).
Proof.
  eapply keeps_mono; [by apply alloc3_loop_typed|]. intros r Hr l ->. destruct (Hr l eq_refl) as [Hf Hl].
  destruct l as [|x0 [|x1 [|x2 l]]]; try done. apply Forall_cons in Hf as [? Hf]. apply Forall_cons in Hf as [? Hf].
  by apply Forall_cons in Hf as [? _].
Qed.
#[export] Hint Resolve alloc3_desc_typed free_chain_loop_typed : typed.

Lemma upd_disk_buf_typed b f : ix NBUF b → (∀ x, wt_buf x → wt_buf (f x)) → typed (upd_disk_buf b f) (λ _, True).
Proof. intros Hb Hf. apply upd_buf_typed; [by apply ix_buf|done]. Qed.
#[export] Hint Resolve upd_disk_buf_typed : typed.

Lemma is16_ix i : ix NUM i → is16 i. Proof. num. Qed.
Lemma is16_0 : is16 0. Proof. num. Qed.
Lemma ix_nonneg n i : ix n i → 0 ≤ i. Proof. by intros []. Qed.
#[export] Hint Resolve is16_ix is16_0 ix_nonneg : wt.
#[export] Hint Extern 1 (wt_cpu _) => unfold wt_cpu; cbn; eauto with wt : typed.
#[export] Hint Extern 1 (wt_desc _) => unfold wt_desc; cbn; eauto with wt : typed.

Lemma submit_typed b write sector idx :
  ix NBUF b → ix NUM (nth 0 idx 0) → ix NUM (nth 1 idx 0) → ix NUM (nth 2 idx 0) →
  typed (submit b write sector idx) (λ _, True).
Proof. intros Hb H0 H1 H2. unfold submit. t. Qed.
#[export] Hint Resolve submit_typed : typed.

Lemma get_disk_buf_typed b : typed (gets (λ w, w_bufs w b)) wt_buf.
Proof. apply (get_buf_typed b). Qed.
#[export] Hint Resolve get_disk_buf_typed : typed.

Lemma virtio_disk_rw_typed b write : ix NBUF b → typed (virtio_disk_rw b write) (λ _, True).
Proof.
  intros Hb. unfold virtio_disk_rw, free_chain. do 2 t1.
  apply (keeps_bind _ _ (λ l, ix NUM (nth 0 l 0) ∧ ix NUM (nth 1 l 0) ∧ ix NUM (nth 2 l 0))); [t|].
  intros idx (H1 & H2 & H3). t.
Qed.

(** The kernel is linked with this driver. *)
#[export] Instance driver : DiskOps := {| disk_rw := virtio_disk_rw; vd_idle := λ _, True |}.
#[export] Instance driver_typed : TypedDisk driver.
Proof. intros b write. apply virtio_disk_rw_typed. Qed.
#[export] Hint Resolve driver_typed : typed.

Lemma virtio_disk_intr_typed : typed virtio_disk_intr (λ _, True).
Proof. unfold virtio_disk_intr, intr_round. t. apply keeps_loop. t. Qed.

Lemma virtio_disk_init_typed `{Layout} : typed virtio_disk_init (λ _, True).
Proof. unfold virtio_disk_init. t. Qed.
#[export] Hint Resolve virtio_disk_intr_typed virtio_disk_init_typed : typed.

(** ** Traps and booting (syscall.c, trap.c, main.c) *)

Section Kernel.
Context {L : Layout} {HL : LayoutOk L}.

Lemma syscall_table_typed : Forall (λ e, typed e.2 (λ _, True)) syscall_table.
Proof. repeat (constructor; [cbn [snd]; t|]). constructor. Qed.

Lemma syscall_typed : typed syscall (λ _, True).
Proof.
  unfold syscall. do 2 t1. cbv zeta. destruct (if _ && _ then _ else _) as [f|] eqn:E; [|t].
  destruct (_ && _); [|done]. unfold syscalls in E. destruct (List.find _ _) as [e|] eqn:F; [|done].
  injection E as <-. apply List.find_some in F as [F _]. apply list_elem_of_In in F.
  eapply keeps_bind; [exact (proj1 (Forall_forall _ _) syscall_table_typed e F)|intros; t].
Qed.
Hint Resolve syscall_typed : typed.

Lemma set_ticks_typed : typed (modify (λ w, set_ticks (u32 (w_ticks w + 1)) w)) (λ _, True).
Proof. apply keeps_modify. intros w []. split; try done. apply is32_u32. Qed.
Hint Resolve set_ticks_typed : typed.

Lemma clockintr_typed : typed clockintr (λ _, True).
Proof. unfold clockintr. t. Qed.
Hint Resolve clockintr_typed : typed.

Lemma devintr_typed : typed devintr (λ _, True).
Proof. unfold devintr, r_scause, r_sip, w_sip. t. Qed.

Lemma usertrapret_typed : typed usertrapret (λ _, True).
Proof. unfold usertrapret, w_stvec, r_satp, w_sstatus, w_sepc. t. Qed.
Hint Resolve devintr_typed usertrapret_typed : typed.

Lemma usertrap_typed : typed usertrap (λ _, True).
Proof.
  unfold usertrap, w_stvec, r_sepc, r_scause, r_stval. t1. t1; [t|]. do 5 t1.
  apply (keeps_bind _ _ (λ _, True)); [|intros]; t.
Qed.

Lemma kerneltrap_typed : typed kerneltrap (λ _, True).
Proof. unfold kerneltrap, r_sepc, r_scause, r_stval, w_sepc, w_sstatus. t. Qed.

Lemma scheduler_pass_typed c : ix NCPU c → typed (scheduler_pass c) (λ _, True).
Proof.
  intros Hc. unfold scheduler_pass. t1. apply (keeps_bind _ _ (λ _, True)); [|intros; t].
  assert (∀ l m, (∀ p, p ∈ l → ix NPROC p) → typed m (λ _, True) → typed (foldl (λ (m : K bool) p,
    found <- m ;;
    acquire (LProc p) ;;
    pr <- get_proc p ;;
    found <- (if decide (p_state pr = RUNNABLE) then
      upd_proc p (set_p_state RUNNING) ;;
      upd_cpu c (set_c_proc (Some p)) ;;
      swtch ;;
      upd_cpu c (set_c_proc None) ;;
      ret true
    else ret found) ;;
    release (LProc p) ;;
    ret found) m l) (λ _, True)) as Hl.
  { intros l. induction l as [|p l IH]; intros m Hp Hm; [done|]. cbn [foldl]. apply IH; [set_solver|].
    pose proof (Hp p ltac:(set_solver)). do 3 t1. apply (keeps_bind _ _ (λ _, True)); [|intros]; unfold swtch; t. }
  apply Hl; [apply all_procs_ix|by apply keeps_ret].
Qed.
Hint Resolve scheduler_pass_typed : typed.

Lemma scheduler_typed : typed scheduler (λ _, True).
Proof. unfold scheduler. t. Qed.

Lemma freerange_loop_typed fuel p e : typed (freerange_loop fuel p e) (λ _, True).
Proof. revert p. induction fuel as [|fuel IH]; intros p; cbn [freerange_loop]; t. Qed.
Hint Resolve freerange_loop_typed : typed.
Lemma kinit_typed : typed kinit (λ _, True).
Proof. unfold kinit, freerange. t. Qed.

Lemma set_started_typed : typed (modify (λ w, set_started true w)) (λ _, True).
Proof. apply keeps_modify. intros w []. by split. Qed.
Lemma get_started_typed : typed (gets (λ w, w_started w)) (λ _, True).
Proof. by apply keeps_gets. Qed.
Hint Resolve kinit_typed binit_typed iinit_typed set_started_typed get_started_typed : typed.

Lemma main_typed : typed main (λ _, True).
Proof.
  unfold main, boot, trapinit, trapinithart, w_stvec. t1. apply (keeps_bind _ _ (λ _, True)); [|intros; apply scheduler_typed]. t.
Qed.

Lemma image_wt tp mem disk :
  ix NCPU tp → byte_mem mem → (∀ n, block (disk n)) → wt (set_tp tp (set_mem mem (set_disk disk image_world))).
Proof.
  intros Ht Hm Hd. split; rsimpl; try done. split; [|done]. intros p. split; try done.
  split; [done|]. by repeat constructor.
Qed.
End Kernel.

(** ** The states of the kernel

    A state is reached from the kernel image, with any contents of the memory and
    the disk, by running the kernel on a hart: main, or the handler of a trap.  Between
    such runs, and while they wait, processes run in user mode and devices and other
    harts act, all of them in a way that keeps the types. *)

Section Reach.
Context `{LayoutOk}.

Definition kernel_code : list (K unit) := [main; (usertrap ;; ret tt); kerneltrap].

(** The state in which a run has returned or waits. *)
Definition stops {A} (o : outcome world A) (w' : world) : Prop :=
  match o with Ret _ _ w | Blocked w => w = w' | _ => False end.

Inductive kernel_state : world → Prop :=
| at_start tp mem disk : ix NCPU tp → byte_mem mem → (∀ n, block (disk n)) →
    kernel_state (set_tp tp (set_mem mem (set_disk disk image_world)))
| at_trap m env w w' : kernel_state w → m ∈ kernel_code → Forall peaceful env → stops (m env w) w' → kernel_state w'
| at_rest f w : kernel_state w → peaceful f → kernel_state (f w).

Lemma typed_stops {A} (m : K A) P env w w' : typed m P → wt w → Forall peaceful env → stops (m env w) w' → wt w'.
Proof.
  intros Hm Hw He. pose proof (keeps_elim _ _ _ Hm env w He Hw) as Hr. unfold stops. destruct (m env w); naive_solver.
Qed.

Lemma kernel_code_typed : Forall (λ m, typed m (λ _, True)) kernel_code.
Proof.
  repeat constructor; [apply main_typed| |apply kerneltrap_typed].
  eapply keeps_bind; [apply usertrap_typed|intros; by apply keeps_ret].
Qed.
End Reach.

Module Safety.

(** A process that has just executed ecall for getpid. *)
Definition tf_page : Z := 0x87000000.
Definition getpid_proc : proc := set_p_trapframe tf_page (set_p_pid 7 (set_p_state RUNNING zero_proc)).
Definition getpid_world : world :=
  set_mem (st64 zeroes (tf_page + tf_a7) SYS_getpid)
  (set_procs (<[3 := getpid_proc]> (w_procs image_world))
  (set_cpus (<[0 := mkCpu (Some 3) 0 false]> (w_cpus image_world))
  (set_harts (<[0 := mkHart 0 0 8 0 0 0 0]> (w_harts image_world)) image_world))).

Lemma getpid_world_wt : wt getpid_world.
Proof.
  pose proof (image_wt 0 zeroes (λ _, zeroes) ltac:(done) zeroes_bytes ltac:(done)) as [].
  split; unfold getpid_world; rsimpl; try done.
  - intros c Hc. rewrite fn_lookup_insert_ne; [done|]. intros <-. apply Hc. done.
  - apply arr_insert; [done..|]. by intros i [= <-].
  - apply arr_insert; [done..|]. split; try done. split; [done|]. by repeat constructor.
  - apply st_byte_mem; [apply zeroes_bytes|done].
Qed.

Definition returned {A} (o : outcome world A) : world := match o with Ret _ _ w | Blocked w => w | _ => image_world end.
Lemma stops_returned {A} (o : outcome world A) :
  match o with Ret _ _ _ | Blocked _ => true | _ => false end = true → stops o (returned o).
Proof. by destruct o. Qed.

End Safety.
