(* ===== verification/UserLib.v ===== *)
(** * user/ulib.c: the C library of the user programs

    The string and number functions, on the memory of the process.  A loop that
    ends at a NUL takes fuel, the number of bytes it may look at, and gives [None]
    when there is no NUL among them.  Characters are unsigned, as on this
    machine. *)

From S2P Require Import Prelude Types StringC.

(** [while (( *s++ = *t++) != 0);] *)
Fixpoint strcpy (fuel : nat) (m : bytes) (s t : Z) : option bytes :=
  match fuel with
  | O => None
  | S f => let m' := <[s := m t]> m in if nz (m t) then strcpy f m' (s + 1) (t + 1) else Some m'
  end.

(** [while ( *p && *p == *q) p++, q++;] then the difference. *)
Fixpoint strcmp (fuel : nat) (m : bytes) (p q : Z) : option Z :=
  match fuel with
  | O => None
  | S f => if nz (m p) && (m p =? m q) then strcmp f m (p + 1) (q + 1) else Some (m p - m q)
  end.

(** [for (; *s; s++) if ( *s == c) return s; return 0;] *)
Fixpoint strchr (fuel : nat) (m : bytes) (s c : Z) : option (option Z) :=
  match fuel with
  | O => None
  | S f => if nz (m s) then if m s =? c then Some (Some s) else strchr f m (s + 1) c else Some None
  end.

(** [for (i = 0; i + 1 < max;)] with a read of one character from [input], what
    is left to be read on descriptor 0: i, the memory and the rest of it. *)
Fixpoint ugets_loop (fuel : nat) (m : bytes) (buf max i : Z) (input : list Z) : bytes * Z * list Z :=
  match fuel with
  | O => (m, i, input)
  | S f =>
      if negb (i + 1 <? max) then (m, i, input) else
      match input with
      | [] => (m, i, input)
      | c :: input =>
          let m := <[buf + i := c]> m in
          if (c =? 10) || (c =? 13) then (m, i + 1, input) else ugets_loop f m buf max (i + 1) input
      end
  end.

Definition ugets (m : bytes) (buf max : Z) (input : list Z) : bytes * list Z :=
  let '(m, i, input) := ugets_loop (Z.to_nat max) m buf max 0 input in
  (<[buf + i := 0]> m, input).

Definition digit_0 : Z := 48.
Definition digit_9 : Z := 57.
Definition minus : Z := 45.

(** [while ('0' <= *s && *s <= '9') n = n * 10 + *s++ - '0';] in an int. *)
Fixpoint atoi_loop (fuel : nat) (m : bytes) (s n : Z) : option Z :=
  match fuel with
  | O => None
  | S f => if (digit_0 <=? m s) && (m s <=? digit_9) then atoi_loop f m (s + 1) (i32 (n * 10 + m s - digit_0)) else Some n
  end.

Definition atoi (fuel : nat) (m : bytes) (s : Z) : option Z := atoi_loop fuel m s 0.

(** [do { s[i++] = n % 10 + '0'; n /= 10; } while (n > 0);]  An int has at most
    ten digits. *)
Fixpoint itoa_digits (fuel : nat) (m : bytes) (s n i : Z) : option (bytes * Z) :=
  match fuel with
  | O => None
  | S f =>
      let m := st8 m (s + i) (Z.rem n 10 + digit_0) in
      let n := Z.quot n 10 in
      if n >? 0 then itoa_digits f m s n (i + 1) else Some (m, i + 1)
  end.

(** [for (int j = 0; j < i / 2; j++) swap s[j] and s[i - j - 1]] *)
Definition itoa_swap (s i : Z) (m : bytes) (j : Z) : bytes :=
  let temp := m (s + j) in
  let m := <[s + j := m (s + (i - j - 1))]> m in
  <[s + (i - j - 1) := temp]> m.

Definition itoa (m : bytes) (n s : Z) : option bytes :=
  let is_negative := n <? 0 in
  let n := if is_negative then i32 (- n) else n in
  match itoa_digits 10 m s n 0 with
  | None => None
  | Some (m, i) =>
      let '(m, i) := if is_negative then (st8 m (s + i) minus, i + 1) else (m, i) in
      let m := <[s + i := 0]> m in
      Some (foldl (itoa_swap s i) m (seqZ 0 (i / 2)))
  end.

(** memmove copies upwards from above and downwards from below. *)
Definition umemmove (m : bytes) (vdst vsrc n : Z) : bytes :=
  if vsrc >? vdst then copy_up (Z.to_nat n) m vdst vsrc
  else copy_down (Z.to_nat n) m (vdst + n) (vsrc + n).

(** ** Decimal numbers *)

(** The value of a list of decimal digits, the most significant one first. *)
Definition dec_value (l : list Z) : Z := foldl (λ n d, n * 10 + (d - digit_0)) 0 l.

Definition is_digit (c : Z) : Prop := digit_0 ≤ c ≤ digit_9.

(** The digits of [n], the least significant one first. *)
Fixpoint digits_of (fuel : nat) (n : Z) : list Z :=
  match fuel with
  | O => []
  | S f => (n `mod` 10 + digit_0) :: if 10 <=? n then digits_of f (n / 10) else []
  end.

Lemma digits_of_S f n : digits_of (S f) n = (n `mod` 10 + digit_0) :: if 10 <=? n then digits_of f (n / 10) else [].
Proof. done. Qed.

Lemma div10_lt f n : 0 ≤ n < 10 ^ Z.of_nat (S f) → 0 ≤ n / 10 < 10 ^ Z.of_nat f.
Proof.
  intros Hn. rewrite Nat2Z.inj_succ, Z.pow_succ_r in Hn by lia. split; [apply Z.div_pos; lia|apply Z.div_lt_upper_bound; lia].
Qed.

Lemma digits_of_digits f n : Forall is_digit (digits_of f n).
Proof.
  revert n. induction f as [|f IH]; intros n; [constructor|]. rewrite digits_of_S. constructor.
  - pose proof (Z.mod_pos_bound n 10 ltac:(lia)). unfold is_digit, digit_0, digit_9. lia.
  - case_match; [apply IH|constructor].
Qed.

Lemma dec_value_snoc l d : dec_value (l ++ [d]) = dec_value l * 10 + (d - digit_0).
Proof. unfold dec_value. by rewrite foldl_app. Qed.

Lemma digits_of_value f n : 0 ≤ n < 10 ^ Z.of_nat f → (0 < f)%nat → dec_value (reverse (digits_of f n)) = n.
Proof.
  revert n. induction f as [|f IH]; intros n Hn Hf; [lia|]. rewrite digits_of_S. rewrite reverse_cons, dec_value_snoc.
  pose proof (Z.div_mod n 10 ltac:(lia)). destruct (Z.leb_spec 10 n).
  - assert (0 < f)%nat by (destruct f; [cbn in Hn; lia|lia]). rewrite IH; [lia|by apply div10_lt|done].
  - cbn. pose proof (Z.mod_small n 10). unfold dec_value. cbn. lia.
Qed.

Lemma digits_of_length f n : (length (digits_of f n) ≤ f)%nat.
Proof. revert n. induction f as [|f IH]; intros n; [done|]. rewrite digits_of_S. cbn. case_match; [specialize (IH (n / 10))|cbn]; lia. Qed.

Lemma digits_of_nonempty f n : (0 < f)%nat → (0 < length (digits_of f n))%nat.
Proof. destruct f; [lia|]. intros _. rewrite digits_of_S. cbn. lia. Qed.

(** [l] lies in memory at [s]. *)
Definition at_mem (m : bytes) (s : Z) (l : list Z) : Prop := ∀ k d, l !! k = Some d → m (s + Z.of_nat k) = d.

Lemma itoa_digits_spec f m s n i :
  0 ≤ n < 10 ^ Z.of_nat f → (0 < f)%nat →
  let ds := digits_of f n in
  ∃ m', itoa_digits f m s n i = Some (m', i + Z.of_nat (length ds)) ∧ at_mem m' (s + i) ds ∧
    ∀ x, ¬ (s + i ≤ x < s + i + Z.of_nat (length ds)) → m' x = m x.
Proof.
  revert m n i. induction f as [|f IH]; intros m n i Hn Hf; [lia|]. cbv zeta. cbn [itoa_digits]. rewrite digits_of_S.
  pose proof (Z.mod_pos_bound n 10 ltac:(lia)) as Hmod. rewrite (Z.rem_mod_nonneg n 10), (Z.quot_div_nonneg n 10) by lia.
  set (m1 := st8 m (s + i) (n `mod` 10 + digit_0)).
  assert (E1 : m1 (s + i) = n `mod` 10 + digit_0).
  { unfold m1, st8. rewrite fn_lookup_insert. apply Z.mod_small. unfold digit_0. lia. }
  destruct (Z.leb_spec 10 n) as [Hge|Hlt].
  - assert (0 < f)%nat by (destruct f; [cbn in Hn; lia|lia]). pose proof (Z.div_le_lower_bound n 10 1 ltac:(lia) ltac:(lia)).
    replace (n / 10 >? 0) with true by lia. destruct (IH m1 (n / 10) (i + 1)) as (m' & E & Ha & Ho); [by apply div10_lt|done|].
    exists m'. cbn [length]. split_and!; [rewrite E; do 2 f_equal; lia| |].
    + intros [|k] d Hd; cbn in Hd.
      * injection Hd as <-. rewrite Z.add_0_r, Ho, E1 by lia. done.
      * rewrite <-(Ha k d Hd). f_equal. lia.
    + intros x Hx. rewrite Ho by lia. unfold m1, st8. apply fn_lookup_insert_ne. lia.
  - rewrite (Z.div_small n 10) by lia. exists m1. cbn [length]. split_and!; [done| |].
    + intros [|k] d Hd; cbn in Hd; [|done]. injection Hd as <-. by rewrite Z.add_0_r.
    + intros x Hx. unfold m1, st8. apply fn_lookup_insert_ne. lia.
Qed.

(** The swaps reverse the first [i] bytes. *)
Lemma itoa_swaps m s i j :
  0 ≤ j ≤ i / 2 →
  ∀ x, foldl (itoa_swap s i) m (seqZ 0 j) x =
    if bool_decide (s ≤ x < s + j ∨ s + i - j ≤ x < s + i) then m (s + (i - 1 - (x - s))) else m x.
Proof.
  intros Hj. pose proof (Z.div_mod i 2 ltac:(lia)). pose proof (Z.mod_pos_bound i 2 ltac:(lia)).
  rewrite <-(Z2Nat.id j) in * by lia. generalize dependent (Z.to_nat j). clear j. intros j Hj.
  induction j as [|j IH]; intros x.
  - rewrite bool_decide_eq_false_2 by lia. done.
  - rewrite seqZ_S, foldl_app. cbn [foldl]. unfold itoa_swap at 1. rewrite !fn_lookup_insert_if.
    rewrite !IH, !Z.add_0_l by lia.
    destruct (decide (s + (i - Z.of_nat j - 1) = x)); [|destruct (decide (s + Z.of_nat j = x))]; repeat case_bool_decide; try lia; f_equal; lia.
Qed.

Lemma itoa_reverses m s i x :
  0 ≤ i → foldl (itoa_swap s i) m (seqZ 0 (i / 2)) x = if bool_decide (s ≤ x < s + i) then m (s + (i - 1 - (x - s))) else m x.
Proof.
  intros Hi. rewrite itoa_swaps by (pose proof (Z.div_pos i 2); lia). pose proof (Z.div_mod i 2 ltac:(lia)). pose proof (Z.mod_pos_bound i 2 ltac:(lia)).
  repeat case_bool_decide; try done; try lia. f_equal. lia.
Qed.

Lemma foldl_dec n l : foldl (λ n d, n * 10 + (d - digit_0)) n l = n * 10 ^ Z.of_nat (length l) + dec_value l.
Proof.
  unfold dec_value. revert n. induction l as [|d l IH]; intros n; cbn [foldl length]; [cbn; lia|].
  rewrite IH, (IH (0 * 10 + _)), Nat2Z.inj_succ, Z.pow_succ_r by lia. lia.
Qed.

Lemma dec_value_pos l : Forall is_digit l → 0 ≤ dec_value l.
Proof.
  induction l as [|d l IH] using rev_ind; [done|]. rewrite Forall_app, Forall_singleton. intros [Hl Hd]. rewrite dec_value_snoc.
  unfold is_digit in Hd. specialize (IH Hl). lia.
Qed.

(** atoi reads the digits up to the first other character. *)
Lemma atoi_reads l fuel m s n :
  at_mem m s l → Forall is_digit l → ¬ is_digit (m (s + Z.of_nat (length l))) → (length l < fuel)%nat →
  0 ≤ n → n * 10 ^ Z.of_nat (length l) + dec_value l < 2 ^ 31 →
  atoi_loop fuel m s n = Some (n * 10 ^ Z.of_nat (length l) + dec_value l).
Proof.
  revert fuel s n. induction l as [|d l IH]; intros fuel s n Hm Hd He Hf Hn Hv; (destruct fuel as [|fuel]; [cbn in Hf; lia|]); cbn [atoi_loop].
  - cbn in He |- *. rewrite Z.add_0_r in He. unfold is_digit in He.
    replace ((digit_0 <=? m s) && (m s <=? digit_9)) with false by lia. f_equal. unfold dec_value. cbn. lia.
  - apply Forall_cons in Hd as [Hd0 Hd]. pose proof (Hm 0%nat d eq_refl) as E0. rewrite Z.add_0_r in E0. rewrite E0.
    replace ((digit_0 <=? d) && (d <=? digit_9)) with true by (unfold is_digit in Hd0; lia).
    assert (Ev : n * 10 ^ Z.of_nat (length (d :: l)) + dec_value (d :: l) = (n * 10 + d - digit_0) * 10 ^ Z.of_nat (length l) + dec_value l).
    { rewrite <-!foldl_dec. cbn [foldl]. f_equal. lia. }
    rewrite Ev in Hv |- *. pose proof (dec_value_pos l Hd) as Hp. assert (H10 : 1 ≤ 10 ^ Z.of_nat (length l)) by (apply (Z.pow_le_mono_r 10 0); lia).
    assert (Hn' : 0 ≤ n * 10 + d - digit_0 < 2 ^ 31) by (unfold is_digit in Hd0; nia).
    rewrite i32_small by lia. apply IH; try done.
    + intros k x Hx. rewrite <-(Hm (S k) x Hx). f_equal. lia.
    + cbn [length] in He. replace (s + 1 + Z.of_nat (length l)) with (s + Z.of_nat (S (length l))) by lia. done.
    + cbn in Hf. lia.
    + lia.
Qed.

Lemma at_cstr l fuel m s : at_mem m s l → Forall (λ c, c ≠ 0) l → m (s + Z.of_nat (length l)) = 0 → (length l ≤ fuel)%nat → cstr fuel m s = l.
Proof.
  revert fuel s. induction l as [|c l IH]; intros fuel s Hm Hc He Hf.
  - destruct fuel; [done|]. cbn in He |- *. rewrite Z.add_0_r in He. by rewrite He.
  - destruct fuel as [|fuel]; [cbn in Hf; lia|]. apply Forall_cons in Hc as [Hc0 Hc]. pose proof (Hm 0%nat c eq_refl) as E0. rewrite Z.add_0_r in E0.
    cbn [cstr]. rewrite E0, (proj2 (nz_true _) Hc0). f_equal. apply IH; [|done| |cbn in Hf; lia].
    + intros k x Hx. rewrite <-(Hm (S k) x Hx). f_equal. lia.
    + rewrite <-He. f_equal. cbn [length]. lia.
Qed.

Lemma at_mem_app m s l1 l2 : at_mem m s (l1 ++ l2) ↔ at_mem m s l1 ∧ at_mem m (s + Z.of_nat (length l1)) l2.
Proof.
  split.
  - intros Ha. split; intros k d Hd.
    + apply Ha. by apply lookup_app_l_Some.
    + rewrite <-(Ha (length l1 + k)%nat d); [f_equal; lia|]. rewrite lookup_app_r by lia. rewrite <-Hd. f_equal. lia.
  - intros [H1 H2] k d Hd. apply lookup_app_Some in Hd as [Hd|[Hk Hd]]; [by apply H1|]. rewrite <-(H2 _ _ Hd). f_equal. lia.
Qed.

Lemma at_mem_same m m' s l : (∀ x, s ≤ x < s + Z.of_nat (length l) → m' x = m x) → at_mem m s l → at_mem m' s l.
Proof. intros E Ha k d Hd. apply lookup_lt_Some in Hd as Hk. rewrite E by lia. by apply Ha. Qed.

Lemma at_mem_ld m s l : at_mem m s l → ld_bytes m s (Z.of_nat (length l)) = l.
Proof.
  intros Ha. apply list_eq. intros i. unfold ld_bytes. rewrite list_lookup_fmap. destruct (l !! i) as [d|] eqn:E.
  - apply lookup_lt_Some in E as Hi. rewrite lookup_seqZ_lt by lia. cbn. f_equal. by apply Ha.
  - apply lookup_ge_None in E. rewrite lookup_seqZ_ge by lia. done.
Qed.

(** A string in memory, with its NUL. *)
Definition cstring (m : bytes) (p : Z) (l : list Z) : Prop := at_mem m p l ∧ Forall (λ c, c ≠ 0) l ∧ m (p + Z.of_nat (length l)) = 0.

Lemma cstring_at m p l x : cstring m p l → p ≤ x < p + Z.of_nat (length l) → m x ≠ 0.
Proof.
  intros (Ha & Hf & _) Hx. destruct (lookup_lt_is_Some_2 l (Z.to_nat (x - p)) ltac:(lia)) as [c Hc]. rewrite Forall_lookup in Hf.
  pose proof (Ha _ _ Hc) as E. rewrite Z2Nat.id in E by lia. replace (p + (x - p)) with x in E by lia. rewrite E. by eapply Hf.
Qed.

Lemma cstring_strlen m p l fuel : cstring m p l → (length l < fuel)%nat → strlen fuel m p = Some (Z.of_nat (length l)).
Proof.
  intros Hc Hf. assert (H : ∀ k f, (k ≤ length l)%nat → (length l - k < f)%nat → strlen_loop f m p (Z.of_nat k) = Some (Z.of_nat (length l))).
  { intros k f. revert k. induction f as [|f IH]; intros k Hk Hlt; [lia|]. cbn [strlen_loop]. destruct (decide (k = length l)) as [->|Hne].
    - destruct Hc as (_ & _ & ->). done.
    - unfold nz. rewrite (proj2 (Z.eqb_neq _ _)) by (apply (cstring_at _ _ _ _ Hc); lia). cbn. rewrite <-(IH (S k)) by lia. f_equal. lia. }
  apply (H O fuel); lia.
Qed.

Lemma cstring_rest m p l : cstring m p l → ld_bytes m p (Z.of_nat (length l)) = l.
Proof. intros (Ha & _ & _). by apply at_mem_ld. Qed.

(** What itoa leaves at [s]. *)
Lemma itoa_run m n s :
  - 2 ^ 31 < n < 2 ^ 31 →
  let l := (if n <? 0 then [minus] else []) ++ reverse (digits_of 10 (Z.abs n)) in
  ∃ m', itoa m n s = Some m' ∧ at_mem m' s l ∧ m' (s + Z.of_nat (length l)) = 0 ∧
    ∀ x, ¬ (s ≤ x < s + Z.of_nat (length l) + 1) → m' x = m x.
Proof.
  intros Hn l. unfold itoa. set (a := if n <? 0 then i32 (- n) else n).
  assert (Ea : a = Z.abs n) by (unfold a; destruct (Z.ltb_spec n 0); [rewrite i32_small by lia|]; lia). rewrite Ea.
  destruct (itoa_digits_spec 10 m s (Z.abs n) 0) as (m1 & E1 & A1 & O1); [change (10 ^ Z.of_nat 10) with 10000000000; lia|lia|].
  rewrite E1, Z.add_0_l. rewrite Z.add_0_r in A1, O1. set (ds := digits_of 10 (Z.abs n)) in *. set (i := Z.of_nat (length ds)) in *.
  set (i' := i + if n <? 0 then 1 else 0). set (m2 := if n <? 0 then st8 m1 (s + i) minus else m1).
  assert (El : Z.of_nat (length l) = i').
  { unfold l, i', i. rewrite length_app, length_reverse. fold ds. destruct (n <? 0); cbn [length]; lia. }
  assert (A2 : at_mem m2 s (ds ++ if n <? 0 then [minus] else [])).
  { unfold m2. intros k d Hd. destruct (n <? 0); [|rewrite app_nil_r in Hd; by apply A1].
    apply lookup_app_Some in Hd as [Hd|[Hk Hd]]; unfold st8.
    - apply lookup_lt_Some in Hd as Hk. rewrite fn_lookup_insert_ne by lia. by apply A1.
    - destruct (k - length ds)%nat eqn:Ek; [|done]. injection Hd as <-. replace (s + Z.of_nat k) with (s + i) by lia. by rewrite fn_lookup_insert. }
  exists (foldl (itoa_swap s i') (<[s + i' := 0]> m2) (seqZ 0 (i' / 2))). rewrite El. split_and!.
  - unfold i', m2. destruct (n <? 0); [done|]. by rewrite Z.add_0_r.
  - intros k d Hd. apply lookup_lt_Some in Hd as Hk. rewrite itoa_reverses by lia. rewrite bool_decide_eq_true_2 by lia.
    rewrite fn_lookup_insert_ne by lia. replace (s + (i' - 1 - (s + Z.of_nat k - s))) with (s + Z.of_nat (Z.to_nat i' - 1 - k)) by lia.
    apply A2. assert (Er : reverse l = ds ++ if n <? 0 then [minus] else []) by (unfold l; rewrite reverse_app, reverse_involutive; by destruct (n <? 0)).
    rewrite <-Er. rewrite reverse_lookup by lia. rewrite <-Hd. f_equal. lia.
  - rewrite itoa_reverses by lia. rewrite bool_decide_eq_false_2 by lia. apply fn_lookup_insert.
  - intros x Hx. rewrite itoa_reverses by lia. rewrite bool_decide_eq_false_2 by lia. rewrite fn_lookup_insert_ne by lia.
    unfold m2, i' in *. destruct (n <? 0); [unfold st8; rewrite fn_lookup_insert_ne by lia|]; apply O1; lia.
Qed.

Module Numbers.

(** itoa writes the decimal representation of an int, a minus sign first when it
    is negative, with its NUL and within 12 bytes; the smallest int excepted.  For
    a number that is not negative, atoi gives it back. *)
Theorem itoa_decimal m n s :
  - 2 ^ 31 < n < 2 ^ 31 →
  ∃ m' l, itoa m n s = Some m' ∧ cstr 12 m' s = (if n <? 0 then [minus] else []) ++ l ∧
    Forall is_digit l ∧ dec_value l = Z.abs n ∧ (∀ x, ¬ (s ≤ x < s + 12) → m' x = m x) ∧
    (0 ≤ n → atoi 12 m' s = Some n).
Proof.
  intros Hn. destruct (itoa_run m n s Hn) as (m' & E & A & Z0 & O). set (l := reverse (digits_of 10 (Z.abs n))) in *.
  assert (Hd : Forall is_digit l) by (apply Forall_reverse, digits_of_digits).
  assert (Hv : dec_value l = Z.abs n) by (apply digits_of_value; [change (10 ^ Z.of_nat 10) with 10000000000|]; lia).
  assert (Hl : (length l ≤ 10)%nat) by (unfold l; rewrite length_reverse; apply digits_of_length).
  clearbody l. rewrite length_app in Z0, O. exists m', l. split_and!; try done.
  - apply at_cstr; [done| |by rewrite length_app|rewrite length_app; destruct (n <? 0); cbn [length]; lia].
    apply Forall_app. split; [by destruct (n <? 0); repeat constructor|]. eapply Forall_impl; [done|]. unfold is_digit, digit_0. lia.
  - intros x Hx. apply O. destruct (n <? 0); cbn [length]; lia.
  - intros H0. replace (n <? 0) with false in * by lia. cbn in A, Z0. unfold atoi. rewrite (atoi_reads l); try done.
    + f_equal. lia.
    + rewrite Z0. unfold is_digit, digit_0. lia.
    + lia.
    + lia.
Qed.

Lemma itoa_decimal_witness : ∃ m', itoa zeroes 120 4 = Some m' ∧ atoi 12 m' 4 = Some 120.
Proof.
  destruct (itoa_decimal zeroes 120 4) as (m' & l & E & _ & _ & _ & _ & A); [lia|]. exists m'. split; [exact E|]. apply A. lia.
Defined.

(** itoa cannot negate the smallest int: it writes a minus sign and a character
    that is not a digit. *)
Theorem itoa_smallest_int m s : ∃ m', itoa m (- 2 ^ 31) s = Some m' ∧ cstr 12 m' s = [minus; 40].
Proof.
  set (m1 := <[s + 2 := 0]> (st8 (st8 m (s + 0) 40) (s + 1) minus)). exists (itoa_swap s 2 m1 0). split; [done|].
  apply at_cstr; [|by repeat constructor| |cbn; lia].
  - intros [|[|k]] d; intros [= <-]; unfold itoa_swap, m1, st8; rewrite !fn_lookup_insert_if; repeat case_decide; done || lia.
  - unfold itoa_swap, m1, st8. cbn [length]. rewrite !fn_lookup_insert_if. repeat case_decide; done || lia.
Qed.

End Numbers.
