(* ===== verification/Grep.v ===== *)
(** * user/grep.c

    The pattern matcher, on the characters of nul-terminated strings, and the loop
    that reads a file through a buffer and prints the matching lines.  The file is
    an interface, [Input]: what read() promises to its caller. *)

From S2P Require Import Prelude Types StringC UserLib.

Definition nl : Z := 10.
Definition caret : Z := 94.
Definition star : Z := 42.
Definition dollar : Z := 36.
Definition dot : Z := 46.

(** The loop of matchstar: [here] is matchhere of the rest of the pattern. *)
Fixpoint star_loop (here : list Z → bool) (c : Z) (text : list Z) : bool :=
  if here text then true else
  match text with
  | [] => false
  | t :: text => if (t =? c) || (c =? dot) then star_loop here c text else false
  end.

(** re[0], re[1] and *text are 0 at the end of the strings. *)
Fixpoint matchhere (re text : list Z) : bool :=
  match re with
  | [] => true
  | c :: re1 =>
      match re1 with
      | c1 :: re2 =>
          if c1 =? star then star_loop (matchhere re2) c text else
          match text with
          | t :: text => if (c =? dot) || (c =? t) then matchhere re1 text else false
          | [] => false
          end
      | [] =>
          if c =? dollar then match text with [] => true | _ => false end else
          match text with
          | t :: text => if (c =? dot) || (c =? t) then matchhere re1 text else false
          | [] => false
          end
      end
  end.

Definition matchstar (c : Z) (re text : list Z) : bool := star_loop (matchhere re) c text.

(** [do { if (matchhere(re, text)) return 1; } while ( *text++ != 0);] *)
Fixpoint match_loop (re text : list Z) : bool :=
  if matchhere re text then true else
  match text with
  | [] => false
  | _ :: text => match_loop re text
  end.

(** match *)
Definition grep_match (re text : list Z) : bool :=
  match re with
  | c :: re1 => if c =? caret then matchhere re1 text else match_loop re text
  | [] => match_loop re text
  end.

(** ** Reading *)

(** What read() promises: at most [n] bytes, the next ones of the file, and at
    least one of them unless none is left or asked for. *)
Class Input (S : Type) := {
  remaining : S → list Z;
  read : S → Z → list Z * S;
  read_next s n : remaining s = (read s n).1 ++ remaining (read s n).2;
  read_most s n : Z.of_nat (length (read s n).1) ≤ Z.max 0 n;
  read_least s n : 0 < n → remaining s ≠ [] → (read s n).1 ≠ []
}.

(** sizeof(buf) *)
Definition BUFSZ : Z := 1024.

(** The inner loop: the lines in buf from [p] on; the output is [out]. *)
Fixpoint grep_lines (fuel : nat) (pattern : list Z) (buf : bytes) (p : Z) (out : list Z) : option (bytes * Z * list Z) :=
  match fuel with
  | O => None
  | S f =>
      match strchr (Z.to_nat BUFSZ) buf p nl with
      | None => None
      | Some None => Some (buf, p, out)
      | Some (Some q) =>
          let buf := <[q := 0]> buf in
          if grep_match pattern (cstr (Z.to_nat BUFSZ) buf p) then
            let buf := <[q := nl]> buf in
            grep_lines f pattern buf (q + 1) (out ++ ld_bytes buf p (q + 1 - p))
          else grep_lines f pattern buf (q + 1) out
      end
  end.

Section Grep.
Context {S : Type} `{Input S}.

Fixpoint grep_loop (fuel : nat) (pattern : list Z) (s : S) (buf : bytes) (m : Z) (out : list Z) : option (list Z) :=
  match fuel with
  | O => None
  | Datatypes.S f =>
      let '(data, s) := read s (BUFSZ - m - 1) in
      let n := Z.of_nat (length data) in
      if n >? 0 then
        let buf := st_bytes buf m data in
        let m := m + n in
        let buf := <[m := 0]> buf in
        match grep_lines (Z.to_nat BUFSZ) pattern buf 0 out with
        | None => None
        | Some (buf, p, out) =>
            let '(m, buf) := if m >? 0 then (m - p, umemmove buf 0 p (m - p)) else (m, buf) in
            grep_loop f pattern s buf m out
        end
      else Some out
  end.

(** grep(pattern, fd), with what is left in buf from before. *)
Definition grep (pattern : list Z) (s : S) (buf : bytes) : option (list Z) :=
  grep_loop (Datatypes.S (length (remaining s))) pattern s buf 0 [].
End Grep.

(** ** The language of patterns *)

Inductive item := One (c : Z) | Many (c : Z).

(** A pattern as items, and whether it ends with '$'. *)
Fixpoint parse (re : list Z) : list item * bool :=
  match re with
  | [] => ([], false)
  | c :: re1 =>
      match re1 with
      | c1 :: re2 =>
          if c1 =? star then let '(its, e) := parse re2 in (Many c :: its, e)
          else let '(its, e) := parse re1 in (One c :: its, e)
      | [] => if c =? dollar then ([], true) else ([One c], false)
      end
  end.

(** '.' stands for any character. *)
Definition chr (c t : Z) : Prop := c = dot ∨ c = t.

(** The strings that the items describe. *)
Fixpoint lang (its : list item) (t : list Z) : Prop :=
  match its with
  | [] => t = []
  | One c :: its => ∃ x t', t = x :: t' ∧ chr c x ∧ lang its t'
  | Many c :: its => ∃ t1 t2, t = t1 ++ t2 ∧ Forall (chr c) t1 ∧ lang its t2
  end.

(** A prefix of the text, or all of it when the pattern ends with '$'. *)
Definition starts (re text : list Z) : Prop :=
  ∃ t1 t2, text = t1 ++ t2 ∧ lang (parse re).1 t1 ∧ ((parse re).2 = true → t2 = []).

Lemma starts_nil text : starts [] text.
Proof. by exists [], text. Qed.

Lemma starts_many c re text :
  starts (c :: star :: re) text ↔ ∃ t1 t2, text = t1 ++ t2 ∧ Forall (chr c) t1 ∧ starts re t2.
Proof.
  unfold starts. cbn [parse]. change (star =? star) with true. cbn iota. destruct (parse re) as [its e]. cbn. split.
  - intros (a & t2 & -> & (t1 & t1' & -> & Hc & Hl) & He). exists t1, (t1' ++ t2). split_and!; [by rewrite app_assoc|done|]. by exists t1', t2.
  - intros (t1 & t' & -> & Hc & t1' & t2 & -> & Hl & He). exists (t1 ++ t1'), t2. split_and!; [by rewrite app_assoc| |done]. by exists t1, t1'.
Qed.

Lemma starts_end text : starts [dollar] text ↔ text = [].
Proof.
  unfold starts. cbn. split; [|by intros ->; exists [], []]. intros (t1 & t2 & -> & -> & He). by rewrite He.
Qed.

Lemma starts_one c re text :
  head re ≠ Some star → ¬ (c = dollar ∧ re = []) →
  starts (c :: re) text ↔ ∃ x text', text = x :: text' ∧ chr c x ∧ starts re text'.
Proof.
  intros Hs Hd. assert (Ep : parse (c :: re) = (One c :: (parse re).1, (parse re).2)).
  { cbn. destruct re as [|c1 re].
    - destruct (Z.eqb_spec c dollar); [naive_solver|done].
    - destruct (Z.eqb_spec c1 star) as [->|]; [done|]. by destruct (parse (c1 :: re)). }
  unfold starts. rewrite Ep. cbn. split.
  - intros (a & t2 & -> & (x & t' & -> & Hc & Hl) & He). exists x, (t' ++ t2). split_and!; [done|done|]. by exists t', t2.
  - intros (x & text' & -> & Hc & t1 & t2 & -> & Hl & He). exists (x :: t1), t2. split_and!; [done| |done]. by exists x, t1.
Qed.

Lemma chr_test c t : (c =? dot) || (c =? t) = true ↔ chr c t.
Proof. unfold chr. rewrite orb_true_iff, !Z.eqb_eq. done. Qed.

Lemma star_loop_spec here c text :
  star_loop here c text = true ↔ ∃ t1 t2, text = t1 ++ t2 ∧ Forall (chr c) t1 ∧ here t2 = true.
Proof.
  induction text as [|t text IH]; cbn [star_loop].
  - split.
    + destruct (here []) eqn:E; [|done]. intros _. by exists [], [].
    + intros (t1 & t2 & E & _ & Hh). symmetry in E. apply app_nil in E as [-> ->]. by rewrite Hh.
  - destruct (here (t :: text)) eqn:Eh.
    + split; [|done]. intros _. by exists [], (t :: text).
    + assert (Ec : (t =? c) || (c =? dot) = true ↔ chr c t) by (unfold chr; rewrite orb_true_iff, !Z.eqb_eq; naive_solver).
      destruct ((t =? c) || (c =? dot)) eqn:Et.
      * rewrite IH. split.
        -- intros (t1 & t2 & -> & Hc & Hh). exists (t :: t1), t2. split_and!; [done|constructor; [by apply Ec|done]|done].
        -- intros (t1 & t2 & E & Hc & Hh). destruct t1 as [|x t1]; cbn in E; [subst; congruence|].
           injection E as -> ->. apply Forall_cons in Hc as [_ Hc]. by exists t1, t2.
      * split; [done|]. intros (t1 & t2 & E & Hc & Hh). destruct t1 as [|x t1]; cbn in E; [subst; congruence|].
        injection E as -> ->. apply Forall_cons in Hc as [Hc _]. apply Ec in Hc. congruence.
Qed.

Lemma match_one c t text (b : bool) P :
  (b = true ↔ P text) → (if (c =? dot) || (c =? t) then b else false) = true ↔ ∃ x text', t :: text = x :: text' ∧ chr c x ∧ P text'.
Proof.
  intros Hb. destruct ((c =? dot) || (c =? t)) eqn:E.
  - apply chr_test in E. rewrite Hb. naive_solver.
  - split; [done|]. intros (x & text' & [= <- <-] & Hc & _). apply chr_test in Hc. congruence.
Qed.

Lemma matchhere_spec re text : matchhere re text = true ↔ starts re text.
Proof.
  revert text. induction re as [re IH] using (induction_ltof1 _ (@length Z)). unfold ltof in IH. intros text.
  destruct re as [|c [|c1 re2]].
  - split; [intros _; apply starts_nil|done].
  - cbn [matchhere]. destruct (Z.eqb_spec c dollar) as [->|Hd].
    + rewrite starts_end. by destruct text.
    + rewrite starts_one by (cbn; naive_solver). destruct text as [|t text]; [naive_solver|]. apply match_one.
      split; [intros _; apply starts_nil|done].
  - cbn [matchhere]. destruct (Z.eqb_spec c1 star) as [->|Hs].
    + rewrite starts_many, star_loop_spec. setoid_rewrite IH; [done|cbn; lia].
    + rewrite starts_one by (cbn; naive_solver). destruct text as [|t text]; [naive_solver|]. apply match_one.
      apply (IH (c1 :: re2)). cbn. lia.
Qed.

Lemma match_loop_spec re text : match_loop re text = true ↔ ∃ t0 t, text = t0 ++ t ∧ starts re t.
Proof.
  induction text as [|x text IH]; cbn [match_loop].
  - destruct (matchhere re []) eqn:E.
    + split; [|done]. intros _. exists [], []. split; [done|]. by apply matchhere_spec.
    + split; [done|]. intros (t0 & t & Et & Hs). symmetry in Et. apply app_nil in Et as [-> ->]. apply matchhere_spec in Hs. congruence.
  - destruct (matchhere re (x :: text)) eqn:E.
    + split; [|done]. intros _. exists [], (x :: text). split; [done|]. by apply matchhere_spec.
    + rewrite IH. split.
      * intros (t0 & t & -> & Hs). by exists (x :: t0), t.
      * intros (t0 & t & Et & Hs). destruct t0 as [|y t0]; cbn in Et; [subst; apply matchhere_spec in Hs; congruence|].
        injection Et as -> ->. by exists t0, t.
Qed.

(** ** Lines *)

(** The complete lines of a text, and what follows the last newline. *)
Fixpoint split_lines (t : list Z) : list (list Z) * list Z :=
  match t with
  | [] => ([], [])
  | c :: t =>
      let '(ls, r) := split_lines t in
      if c =? nl then ([] :: ls, r) else
      match ls with
      | [] => ([], c :: r)
      | l :: ls => ((c :: l) :: ls, r)
      end
  end.

(** What grep prints of the lines. *)
Definition shown (pattern : list Z) (ls : list (list Z)) : list Z :=
  mjoin ((λ l, if grep_match pattern l then l ++ [nl] else []) <$> ls).

Lemma shown_cons pattern l ls : shown pattern (l :: ls) = (if grep_match pattern l then l ++ [nl] else []) ++ shown pattern ls.
Proof. done. Qed.

Lemma split_line a t : nl ∉ a → split_lines (a ++ nl :: t) = (a :: (split_lines t).1, (split_lines t).2).
Proof.
  induction a as [|c a IH]; intros Ha; cbn [app split_lines].
  - destruct (split_lines t) as [ls r]. done.
  - apply not_elem_of_cons in Ha as [Hc Ha]. rewrite IH by done. by rewrite (proj2 (Z.eqb_neq c nl)) by done.
Qed.

Lemma split_none a : nl ∉ a → split_lines a = ([], a).
Proof.
  induction a as [|c a IH]; intros Ha; [done|]. apply not_elem_of_cons in Ha as [Hc Ha]. cbn [split_lines].
  rewrite IH by done. by rewrite (proj2 (Z.eqb_neq c nl)) by done.
Qed.

Lemma first_nl t : nl ∉ t ∨ ∃ a t', t = a ++ nl :: t' ∧ nl ∉ a.
Proof.
  destruct (decide (nl ∈ t)) as [Hin|]; [right|by left]. apply list_elem_of_split_l in Hin as (a & t' & -> & Ha). eauto.
Qed.

(** Lines are independent of where the text is cut. *)
Lemma split_app t u :
  split_lines (t ++ u) = ((split_lines t).1 ++ (split_lines ((split_lines t).2 ++ u)).1, (split_lines ((split_lines t).2 ++ u)).2).
Proof.
  induction t as [t IH] using (induction_ltof1 _ (@length Z)). unfold ltof in IH. destruct (first_nl t) as [Hn|(a & t' & -> & Ha)].
  - rewrite (split_none t) by done. cbn. by destruct (split_lines (t ++ u)).
  - rewrite <-app_assoc. cbn [app]. rewrite !split_line by done. cbn. rewrite IH; [done|]. rewrite length_app. cbn. lia.
Qed.

Lemma split_rest t : (nl ∉ (split_lines t).2) ∧ ∃ u, t = u ++ (split_lines t).2.
Proof.
  induction t as [t IH] using (induction_ltof1 _ (@length Z)). unfold ltof in IH. destruct (first_nl t) as [Hn|(a & t' & -> & Ha)].
  - rewrite (split_none t) by done. split; [done|]. by exists [].
  - rewrite split_line by done. cbn. destruct (IH t') as [Hr (u & E)]; [rewrite length_app; cbn; lia|]. split; [done|].
    exists (a ++ nl :: u). rewrite E at 1. by rewrite <-app_assoc.
Qed.

(** ** The text in the buffer *)

(** The string [t], without NUL inside, lies at [p] and ends there. *)
Definition string_at (buf : bytes) (p : Z) (t : list Z) : Prop :=
  at_mem buf p t ∧ buf (p + Z.of_nat (length t)) = 0 ∧ Forall (λ c, c ≠ 0) t.

Lemma strchr_none f buf p c t : string_at buf p t → c ∉ t → (length t < f)%nat → strchr f buf p c = Some None.
Proof.
  revert f p. induction t as [|x t IH]; intros f p (Ha & Hz & Hn) Hc Hf; (destruct f as [|f]; [cbn in Hf; lia|]); cbn [strchr].
  - cbn in Hz. rewrite Z.add_0_r in Hz. by rewrite Hz.
  - apply not_elem_of_cons in Hc as [Hcx Hc]. apply Forall_cons in Hn as [Hx Hn]. apply (at_mem_app _ _ [x] t) in Ha as [Hx0 Ha].
    pose proof (Hx0 0%nat x eq_refl) as E. rewrite Z.add_0_r in E. rewrite E, (proj2 (nz_true _) Hx), (proj2 (Z.eqb_neq x c)) by done.
    apply IH; [|done|cbn in Hf; lia]. split_and!; [done| |done]. rewrite <-Hz. f_equal. cbn [length]. lia.
Qed.

Lemma strchr_found f buf p c a t : string_at buf p (a ++ c :: t) → c ∉ a → (length a < f)%nat → strchr f buf p c = Some (Some (p + Z.of_nat (length a))).
Proof.
  revert f p. induction a as [|x a IH]; intros f p (Ha & Hz & Hn) Hc Hf; (destruct f as [|f]; [cbn in Hf; lia|]); cbn [strchr app] in *.
  - apply Forall_cons in Hn as [Hx Hn]. pose proof (Ha 0%nat c eq_refl) as E. rewrite Z.add_0_r in E.
    rewrite E, (proj2 (nz_true _) Hx), Z.eqb_refl. cbn. do 2 f_equal. lia.
  - apply not_elem_of_cons in Hc as [Hcx Hc]. apply Forall_cons in Hn as [Hx Hn]. apply (at_mem_app _ _ [x] (a ++ c :: t)) in Ha as [Hx0 Ha].
    pose proof (Hx0 0%nat x eq_refl) as E. rewrite Z.add_0_r in E. rewrite E, (proj2 (nz_true _) Hx), (proj2 (Z.eqb_neq x c)) by done.
    rewrite IH; [do 2 f_equal; cbn [length]; lia| |done|cbn in Hf; lia]. split_and!; [done| |done]. rewrite <-Hz. f_equal. cbn [length]. lia.
Qed.

(** The loop over the lines: what it prints, where it stops and what it leaves. *)
Lemma grep_lines_run fuel pattern buf p out t :
  string_at buf p t → (length t < fuel)%nat → Z.of_nat (length t) < BUFSZ →
  let '(ls, r) := split_lines t in
  ∃ buf', grep_lines fuel pattern buf p out = Some (buf', p + Z.of_nat (length t) - Z.of_nat (length r), out ++ shown pattern ls) ∧
    ∀ x, p + Z.of_nat (length t) - Z.of_nat (length r) ≤ x → buf' x = buf x.
Proof.
  revert fuel buf p out. induction t as [t IH] using (induction_ltof1 _ (@length Z)). unfold ltof in IH.
  intros fuel buf p out Hs Hf Hb. destruct fuel as [|fuel]; [lia|]. cbn [grep_lines]. destruct (first_nl t) as [Hn|(a & t' & -> & Ha)].
  - rewrite split_none by done. rewrite (strchr_none _ _ _ _ t) by (done || lia). exists buf. rewrite app_nil_r. split; [|done].
    do 3 f_equal. lia.
  - rewrite split_line by done. rewrite length_app in *. cbn [length] in *.
    rewrite (strchr_found _ _ _ _ a t') by (done || (unfold BUFSZ in *; lia)). set (q := p + Z.of_nat (length a)).
    destruct Hs as (Hat & Hz & Hn0). apply Forall_app in Hn0 as [Hna Hnt]. apply Forall_cons in Hnt as [_ Hnt].
    apply at_mem_app in Hat as [Hata Hatq]. apply (at_mem_app _ _ [nl] t') in Hatq as [Hatn Hatt]. fold q in Hatn, Hatt. cbn [length] in Hatt.
    rewrite length_app in Hz. cbn [length] in Hz.
    assert (Hc : cstr (Z.to_nat BUFSZ) (<[q := 0]> buf) p = a).
    { apply at_cstr; [|done|apply fn_lookup_insert|unfold BUFSZ in *; lia]. apply (at_mem_same buf); [|done].
      intros x Hx. apply fn_lookup_insert_ne. lia. }
    rewrite Hc.
    assert (Hgo : ∀ v out', let '(ls, r) := split_lines t' in
      ∃ buf', grep_lines fuel pattern (<[q := v]> buf) (q + 1) out' = Some (buf', q + 1 + Z.of_nat (length t') - Z.of_nat (length r), out' ++ shown pattern ls) ∧
        ∀ x, q + 1 + Z.of_nat (length t') - Z.of_nat (length r) ≤ x → buf' x = <[q := v]> buf x).
    { intros v out'. apply IH; [lia| |lia|lia]. split_and!; [|rewrite fn_lookup_insert_ne by lia; rewrite <-Hz; f_equal; lia|done].
      eapply at_mem_same; [|exact Hatt]. intros x Hx. apply fn_lookup_insert_ne. lia. }
    pose proof (split_rest t') as [_ (u & Eu)]. destruct (split_lines t') as [ls r]. cbn [fst snd] in *.
    assert (Hr : (length r ≤ length t')%nat) by (rewrite Eu, length_app; lia). rewrite shown_cons.
    assert (Hld : ld_bytes (<[q := nl]> (<[q := 0]> buf)) p (q + 1 - p) = a ++ [nl]).
    { replace (q + 1 - p) with (Z.of_nat (length (a ++ [nl]))) by (rewrite length_app; cbn; lia). apply at_mem_ld. rewrite fn_insert_insert.
      apply at_mem_app. fold q. split; [apply (at_mem_same buf); [intros x Hx; apply fn_lookup_insert_ne; lia|done]|].
      intros [|k] d [= <-]. rewrite Z.add_0_r. apply fn_lookup_insert. }
    destruct (grep_match pattern a).
    + rewrite Hld, fn_insert_insert. destruct (Hgo nl (out ++ a ++ [nl])) as (buf' & E & Ho). exists buf'. rewrite E. split.
      * f_equal. f_equal; [f_equal; lia|]. by rewrite <-app_assoc.
      * intros x Hx. rewrite Ho by lia. apply fn_lookup_insert_ne. lia.
    + destruct (Hgo 0 out) as (buf' & E & Ho). exists buf'. rewrite E. split; [do 3 f_equal; lia|].
      intros x Hx. rewrite Ho by lia. apply fn_lookup_insert_ne. lia.
Qed.

Lemma umemmove_down buf p n : 0 ≤ p → 0 ≤ n → ∀ x, 0 ≤ x < n → umemmove buf 0 p n x = buf (p + x).
Proof.
  intros Hp Hn x Hx. unfold umemmove. destruct (Z.gtb_spec p 0).
  - rewrite Strings.copy_up_spec by lia. rewrite mem_copy_in by lia. f_equal. lia.
  - assert (p = 0) as -> by lia. rewrite Strings.copy_down_spec by lia. rewrite mem_copy_in by lia. f_equal. lia.
Qed.

(** The lines before the first one that does not fit into the buffer. *)
Fixpoint fitting (ls : list (list Z)) : list (list Z) :=
  match ls with
  | [] => []
  | l :: ls => if Z.of_nat (length l) <=? BUFSZ - 2 then l :: fitting ls else []
  end.

Lemma fitting_short t ls : Z.of_nat (length t) < BUFSZ → fitting ((split_lines t).1 ++ ls) = (split_lines t).1 ++ fitting ls.
Proof.
  induction t as [t IH] using (induction_ltof1 _ (@length Z)). unfold ltof in IH. intros Hl. destruct (first_nl t) as [Hn|(a & t' & -> & Ha)].
  - by rewrite split_none.
  - rewrite split_line by done. rewrite length_app in Hl, IH. cbn in Hl, IH |- *. rewrite IH by lia. by rewrite (proj2 (Z.leb_le _ _)) by lia.
Qed.

(** A full buffer without a newline: the next line does not fit. *)
Lemma no_line r u : nl ∉ r → Z.of_nat (length r) = BUFSZ - 1 → fitting (split_lines (r ++ u)).1 = [].
Proof.
  intros Hr Hlen. destruct (first_nl (r ++ u)) as [Hn|(a & t & E & Ha)]; [by rewrite split_none|].
  rewrite E, split_line by done. cbn. destruct (Z.leb_spec (Z.of_nat (length a)) (BUFSZ - 2)) as [Hl|]; [|done]. exfalso. apply Hr.
  apply (list_elem_of_lookup_2 _ (length a)). rewrite <-(lookup_app_l r u) by lia. rewrite E, lookup_app_r, Nat.sub_diag by lia. done.
Qed.

Section Loop.
Context {S : Type} `{IN : Input S}.

Lemma grep_loop_run fuel pattern (s : S) buf out r :
  at_mem buf 0 r → nl ∉ r → Forall (λ c, c ≠ 0) (r ++ remaining s) → Z.of_nat (length r) < BUFSZ →
  (length (remaining s) < fuel)%nat →
  grep_loop fuel pattern s buf (Z.of_nat (length r)) out = Some (out ++ shown pattern (fitting (split_lines (r ++ remaining s)).1)).
Proof.
  revert s buf out r. induction fuel as [|fuel IH]; intros s buf out r Ha Hr Hz Hlen Hfuel; [lia|]. cbn [grep_loop].
  pose proof (read_next s (BUFSZ - Z.of_nat (length r) - 1)) as Hnext. pose proof (read_most s (BUFSZ - Z.of_nat (length r) - 1)) as Hmost.
  pose proof (read_least s (BUFSZ - Z.of_nat (length r) - 1)) as Hleast. destruct (read s _) as [data s']. cbn [fst snd] in *.
  destruct data as [|c data].
  { cbn. f_equal. rewrite <-(app_nil_r out) at 1. f_equal. destruct (decide (Z.of_nat (length r) = BUFSZ - 1)) as [He|He].
    - by rewrite no_line.
    - destruct (remaining s) as [|x u] eqn:Er; [by rewrite app_nil_r, split_none|]. exfalso. apply Hleast; [lia|done|done]. }
  set (data' := c :: data) in *. assert (Hd : (0 < length data')%nat) by (cbn; lia). clearbody data'. clear c data.
  rewrite (proj2 (Z.gtb_lt _ _)) by lia. set (t := r ++ data'). rewrite Hnext, app_assoc in Hz |- *. fold t in Hz |- *.
  assert (Et : Z.of_nat (length r) + Z.of_nat (length data') = Z.of_nat (length t)) by (unfold t; rewrite length_app; lia). rewrite Et.
  assert (Hs : string_at (<[Z.of_nat (length t) := 0]> (st_bytes buf (Z.of_nat (length r)) data')) 0 t).
  { apply Forall_app in Hz as [Hz _]. split_and!; [|rewrite Z.add_0_l; apply fn_lookup_insert|done].
    eapply at_mem_same; [intros x Hx; apply fn_lookup_insert_ne; lia|]. apply at_mem_app. split.
    - eapply at_mem_same; [|exact Ha]. intros x Hx. apply st_bytes_out. lia.
    - intros k d Hk. rewrite Z.add_0_l. by apply st_bytes_in. }
  pose proof (grep_lines_run (Z.to_nat BUFSZ) pattern _ 0 out t Hs ltac:(unfold BUFSZ in *; lia) ltac:(lia)) as Hrun.
  rewrite split_app. cbn [fst]. rewrite fitting_short by lia. pose proof (split_rest t) as [Hr' (u & Eu)]. destruct (split_lines t) as [ls r']. cbn [fst snd] in *.
  destruct Hrun as (buf' & E & Hout). rewrite E. cbn iota beta. rewrite (proj2 (Z.gtb_lt _ _)) by lia.
  assert (Hlr : (length r' ≤ length t)%nat) by (rewrite Eu, length_app; lia).
  replace (Z.of_nat (length t) - (0 + Z.of_nat (length t) - Z.of_nat (length r'))) with (Z.of_nat (length r')) by lia.
  apply Forall_app in Hz as [Hz1 Hz2]. rewrite IH; try done.
  - unfold shown. rewrite fmap_app, join_app, app_assoc. done.
  - intros k d Hk. apply lookup_lt_Some in Hk as Hk'. rewrite umemmove_down by lia. rewrite Hout by lia.
    assert (Elt : length t = (length u + length r')%nat) by (rewrite Eu, length_app; lia).
    destruct Hs as (Hs & _). rewrite Eu in Hs at 2. apply at_mem_app in Hs as [_ Hs]. rewrite <-(Hs k d Hk). f_equal. lia.
  - apply Forall_app. split; [|done]. rewrite Eu in Hz1. by apply Forall_app in Hz1 as [_ ?].
  - lia.
  - rewrite Hnext, length_app in Hfuel. lia.
Qed.
End Loop.

Module Matching.

(** C37: match decides the language of patterns: with a leading '^' the rest of the
    pattern describes a prefix of the text, otherwise some part of it, up to the
    end when the pattern ends with '$'; 'c*' is any number of c, '.' any character
    and every other character itself. *)
Theorem grep_match_language re text :
  grep_match re text = true ↔
    ∃ t0 t1 t2, text = t0 ++ t1 ++ t2 ∧
      match re with
      | c :: re' => if c =? caret then t0 = [] ∧ lang (parse re').1 t1 ∧ ((parse re').2 = true → t2 = [])
                    else lang (parse re).1 t1 ∧ ((parse re).2 = true → t2 = [])
      | [] => t1 = []
      end.
Proof.
  assert (Hl : ∀ re, match_loop re text = true ↔ ∃ t0 t1 t2, text = t0 ++ t1 ++ t2 ∧ lang (parse re).1 t1 ∧ ((parse re).2 = true → t2 = [])).
  { intros re'. rewrite match_loop_spec. split.
    - intros (t0 & t & -> & t1 & t2 & -> & Hl & He). by exists t0, t1, t2.
    - intros (t0 & t1 & t2 & -> & Hl & He). exists t0, (t1 ++ t2). split; [done|]. by exists t1, t2. }
  unfold grep_match. destruct re as [|c re'].
  - rewrite Hl. cbn. split; intros (t0 & t1 & t2 & E & H); exists t0, t1, t2; by destruct_and?.
  - destruct (c =? caret); [|apply Hl]. rewrite matchhere_spec. split.
    + intros (t1 & t2 & -> & Hs). by exists [], t1, t2.
    + intros (t0 & t1 & t2 & -> & -> & Hs). by exists t1, t2.
Qed.


(** A file that comes in pieces of three bytes. *)
#[local] Program Instance in_threes : Input (list Z) := {
  remaining s := s;
  read s n := (take (Z.to_nat (Z.min 3 n)) s, drop (Z.to_nat (Z.min 3 n)) s)
}.
Next Obligation. intros s n. cbn. by rewrite take_drop. Qed.
Next Obligation. intros s n. cbn. rewrite length_take. lia. Qed.
Next Obligation. intros s n Hn Hs. cbn. destruct s; [done|]. destruct (Z.to_nat (Z.min 3 n)) eqn:E; [lia|done]. Qed.


End Matching.
