(* ===== verification/Sh.v ===== *)
(** * user/sh.c: the shell's parser

    The shell reads a line into memory and parses it in place: the commands hold
    pointers into the line, and nulterminate ends the words with NULs when the
    whole line has been parsed.  The structures that the constructors get from
    malloc are cells of a heap; a pointer to a structure is the number of its cell,
    counted from 1, and 0 is the null pointer.  malloc always finds memory here.  A
    message followed by exit(1) is a panic, as in the function panic of the
    shell. *)

From S2P Require Import Prelude Types StringC UserLib.

Definition MAXARGS : Z := 10.

(** The structs execcmd, redircmd, pipecmd, listcmd and backcmd; the type tag is
    the constructor. *)
Inductive cmd :=
| EXEC (argv eargv : Z → Z)
| REDIR (sub file efile mode fd : Z)
| PIPE (left right : Z)
| LIST (left right : Z)
| BACK (sub : Z).

Record shell := mkShell {
  sh_mem : bytes;
  sh_heap : list cmd
}.

Definition set_sh_mem (v : bytes) (w : shell) : shell := mkShell v (sh_heap w).
Definition set_sh_heap (v : list cmd) (w : shell) : shell := mkShell (sh_mem w) v.

Abbreviation SH := (M shell) (only parsing).

(** The structure at [c]. *)
Definition cmd_at (h : list cmd) (c : Z) : option cmd := if c <=? 0 then None else h !! Z.to_nat (c - 1).

(** [cmd = malloc(sizeof *cmd); memset(cmd, 0, sizeof *cmd);] and the assignments
    to its fields. *)
Definition new_cmd (x : cmd) : SH Z :=
  h <- gets sh_heap ;;
  modify (set_sh_heap (h ++ [x])) ;;
  ret (Z.of_nat (length h) + 1).

Definition execcmd : SH Z := new_cmd (EXEC zeroes zeroes).
Definition redircmd (subcmd file efile mode fd : Z) : SH Z := new_cmd (REDIR subcmd file efile mode fd).
Definition pipecmd (left right : Z) : SH Z := new_cmd (PIPE left right).
Definition listcmd (left right : Z) : SH Z := new_cmd (LIST left right).
Definition backcmd (subcmd : Z) : SH Z := new_cmd (BACK subcmd).

(** ** Tokens *)

Definition bar : Z := 124.
Definition lparen : Z := 40.
Definition rparen : Z := 41.
Definition semi : Z := 59.
Definition amp : Z := 38.
Definition lt : Z := 60.
Definition gt : Z := 62.
Definition plus : Z := 43.
Definition letter_a : Z := 97.

Definition whitespace : list Z := [32; 9; 13; 10; 11].
Definition symbols : list Z := [lt; bar; gt; amp; semi; lparen; rparen].

(** strchr(set, c) is not null. *)
Definition has_char (set : list Z) (c : Z) : bool :=
  match strchr (S (length set)) (string_bytes set) 0 c with Some (Some _) => true | _ => false end.

(** [while (s < es && P( *s)) s++;] which ends at [es] at the latest. *)
Fixpoint skip_while (fuel : nat) (P : Z → bool) (m : bytes) (s es : Z) : Z :=
  match fuel with
  | O => s
  | S f => if (s <? es) && P (m s) then skip_while f P m (s + 1) es else s
  end.

Definition skip (P : Z → bool) (m : bytes) (s es : Z) : Z := skip_while (Z.to_nat (es - s)) P m s es.

(** The token at [s]: what is returned, *q, *eq and *ps. *)
Definition gettoken (m : bytes) (s es : Z) : Z * Z * Z * Z :=
  let s := skip (has_char whitespace) m s es in
  let q := s in
  let c := m s in
  let '(r, s) :=
    if c =? 0 then (c, s)
    else if (c =? bar) || (c =? lparen) || (c =? rparen) || (c =? semi) || (c =? amp) || (c =? lt) then (c, s + 1)
    else if c =? gt then
      let s := s + 1 in
      if m s =? gt then (plus, s + 1) else (c, s)
    else (letter_a, skip (λ c, negb (has_char whitespace c) && negb (has_char symbols c)) m s es) in
  let eq := s in
  (r, q, eq, skip (has_char whitespace) m s es).

(** What is returned, and *ps. *)
Definition peek (m : bytes) (s es : Z) (toks : list Z) : bool * Z :=
  let s := skip (has_char whitespace) m s es in
  (nz (m s) && has_char toks (m s), s).

(** The next token only for its effect on *ps. *)
Definition next_token (m : bytes) (s es : Z) : Z := (gettoken m s es).2.

(** ** Commands

    A parsing function returns the command and the new value of *ps. *)

Fixpoint parseredirs (fuel : nat) (c s es : Z) : SH (Z * Z) :=
  match fuel with
  | O => λ _ _, NoFuel
  | S f =>
      m <- gets sh_mem ;;
      let '(more, s) := peek m s es [lt; gt] in
      if negb more then ret (c, s) else
      let '(tok, _, _, s) := gettoken m s es in
      let '(r, q, eq, s) := gettoken m s es in
      if negb (r =? letter_a) then panic "missing file for redirection" else
      c <- (if tok =? lt then redircmd c q eq O_RDONLY 0
            else if tok =? gt then redircmd c q eq (Z.lor (Z.lor O_WRONLY O_CREATE) O_TRUNC) 1
            else if tok =? plus then redircmd c q eq (Z.lor O_WRONLY O_CREATE) 1
            else ret c) ;;
      parseredirs f c s es
  end.

(** Every round takes two characters at least. *)
Definition redir_fuel (s es : Z) : nat := S (Z.to_nat (es - s)).

(** [cmd->argv[argc] = q; cmd->eargv[argc] = eq;] *)
Definition set_arg (c argc q eq : Z) : SH unit :=
  h <- gets sh_heap ;;
  match cmd_at h c with
  | Some (EXEC argv eargv) => modify (set_sh_heap (<[Z.to_nat (c - 1) := EXEC (<[argc := q]> argv) (<[argc := eq]> eargv)]> h))
  | _ => panic "usertrap"
  end.

(** The loop of parseexec, which ends when argc reaches MAXARGS. *)
Fixpoint exec_loop (fuel : nat) (c r argc s es : Z) : SH (Z * Z * Z) :=
  match fuel with
  | O => λ _ _, NoFuel
  | S f =>
      m <- gets sh_mem ;;
      let '(stop, s) := peek m s es [bar; rparen; amp; semi] in
      if stop then ret (r, argc, s) else
      let '(tok, q, eq, s) := gettoken m s es in
      if tok =? 0 then ret (r, argc, s) else
      if negb (tok =? letter_a) then panic "syntax" else
      set_arg c argc q eq ;;
      let argc := argc + 1 in
      if argc >=? MAXARGS then panic "too many args" else
      x <- parseredirs (redir_fuel s es) r s es ;;
      exec_loop f c x.1 argc x.2 es
  end.

(** parseexec without a block. *)
Definition parsesimple (s es : Z) : SH (Z * Z) :=
  c <- execcmd ;;
  x <- parseredirs (redir_fuel s es) c s es ;;
  x <- exec_loop (Z.to_nat MAXARGS) c x.1 0 x.2 es ;;
  let '(r, argc, s) := x in
  set_arg c argc 0 0 ;;
  ret (r, s).

(** [while (peek(ps, es, "&")) { gettoken(ps, es, 0, 0); cmd = backcmd(cmd); }] *)
Fixpoint back_loop (fuel : nat) (c s es : Z) : SH (Z * Z) :=
  match fuel with
  | O => λ _ _, NoFuel
  | S f =>
      m <- gets sh_mem ;;
      let '(more, s) := peek m s es [amp] in
      if negb more then ret (c, s) else
      let s := next_token m s es in
      c <- backcmd c ;;
      back_loop f c s es
  end.

Fixpoint parseline (fuel : nat) (s es : Z) : SH (Z * Z) :=
  match fuel with
  | O => λ _ _, NoFuel
  | S f =>
      x <- parsepipe f s es ;;
      x <- back_loop (redir_fuel x.2 es) x.1 x.2 es ;;
      m <- gets sh_mem ;;
      let '(more, s) := peek m x.2 es [semi] in
      if negb more then ret (x.1, s) else
      let s := next_token m s es in
      y <- parseline f s es ;;
      c <- listcmd x.1 y.1 ;;
      ret (c, y.2)
  end
with parsepipe (fuel : nat) (s es : Z) : SH (Z * Z) :=
  match fuel with
  | O => λ _ _, NoFuel
  | S f =>
      x <- parseexec f s es ;;
      m <- gets sh_mem ;;
      let '(more, s) := peek m x.2 es [bar] in
      if negb more then ret (x.1, s) else
      let s := next_token m s es in
      y <- parsepipe f s es ;;
      c <- pipecmd x.1 y.1 ;;
      ret (c, y.2)
  end
with parseexec (fuel : nat) (s es : Z) : SH (Z * Z) :=
  match fuel with
  | O => λ _ _, NoFuel
  | S f =>
      m <- gets sh_mem ;;
      let '(block, s) := peek m s es [lparen] in
      if block then parseblock f s es else parsesimple s es
  end
with parseblock (fuel : nat) (s es : Z) : SH (Z * Z) :=
  match fuel with
  | O => λ _ _, NoFuel
  | S f =>
      m <- gets sh_mem ;;
      let '(ok, s) := peek m s es [lparen] in
      if negb ok then panic "parseblock" else
      let s := next_token m s es in
      x <- parseline f s es ;;
      m <- gets sh_mem ;;
      let '(ok, s) := peek m x.2 es [rparen] in
      if negb ok then panic "syntax - missing )" else
      let s := next_token m s es in
      parseredirs (redir_fuel s es) x.1 s es
  end.

(** [*p = 0] *)
Definition put_nul (p : Z) : SH unit := modify (λ w, set_sh_mem (<[p := 0]> (sh_mem w)) w).

(** [for (i = 0; ecmd->argv[i]; i++) *ecmd->eargv[i] = 0;] *)
Fixpoint nul_args (fuel : nat) (argv eargv : Z → Z) (i : Z) : SH unit :=
  match fuel with
  | O => λ _ _, NoFuel
  | S f => if argv i =? 0 then ret tt else put_nul (eargv i) ;; nul_args f argv eargv (i + 1)
  end.

Fixpoint nulterminate (fuel : nat) (c : Z) : SH unit :=
  match fuel with
  | O => λ _ _, NoFuel
  | S f =>
      if c =? 0 then ret tt else
      h <- gets sh_heap ;;
      match cmd_at h c with
      | None => panic "usertrap"
      | Some (EXEC argv eargv) => nul_args (Z.to_nat MAXARGS) argv eargv 0
      | Some (REDIR sub file efile mode fd) => nulterminate f sub ;; put_nul efile
      | Some (PIPE l r) => nulterminate f l ;; nulterminate f r
      | Some (LIST l r) => nulterminate f l ;; nulterminate f r
      | Some (BACK sub) => nulterminate f sub
      end
  end.

(** A call of parseline takes four of the functions to come to a call of itself,
    and has then passed a character. *)
Definition line_fuel (s es : Z) : nat := (4 * Z.to_nat (es - s) + 3)%nat.

(** [len] bounds the search for the end of the line. *)
Definition parsecmd (len : nat) (s : Z) : SH Z :=
  m <- gets sh_mem ;;
  match strlen len m s with
  | None => λ _ _, NoFuel
  | Some n =>
      let es := s + n in
      x <- parseline (line_fuel s es) s es ;;
      let '(_, s) := peek m x.2 es [] in
      if negb (s =? es) then panic "syntax" else
      h <- gets sh_heap ;;
      nulterminate (S (length h)) x.1 ;;
      ret x.1
  end.

(** ** Running commands

    What a process of the shell does, as the system calls it makes: what it does
    next may depend on what a call returns.  The process that exec replaces and the
    one that exits do no more, and the child of a fork is a process of its own.
    Messages are left out. *)
Inductive prog :=
| PExit (status : Z)
| PExec (argv : list (list Z)) (fails : prog)
| PClose (fd : Z) (k : prog)
| POpen (path : list Z) (mode : Z) (k : Z → prog)
| PDup (fd : Z) (k : prog)
| PPipe (k : option (Z * Z) → prog)
| PFork (child : prog) (parent : Z → prog)
| PWait (k : prog)
| PChdir (path : list Z) (k : prog)
| PFault.

(** A child that never returns, and the parent. *)
Definition fork1 (child parent : prog) : prog := PFork child (λ pid, if pid =? -1 then PExit 1 else parent).

(** The strings of argv, up to the null pointer; no string is longer than
    [len]. *)
Fixpoint arg_strings (len fuel : nat) (m : bytes) (argv : Z → Z) (i : Z) : list (list Z) :=
  match fuel with
  | O => []
  | S f => if argv i =? 0 then [] else cstr len m (argv i) :: arg_strings len f m argv (i + 1)
  end.

Fixpoint runcmd (len fuel : nat) (w : shell) (c : Z) : prog :=
  match fuel with
  | O => PFault
  | S f =>
      if c =? 0 then PExit 1 else
      match cmd_at (sh_heap w) c with
      | None => PFault
      | Some (EXEC argv _) =>
          if argv 0 =? 0 then PExit 1 else PExec (arg_strings len (Z.to_nat MAXARGS) (sh_mem w) argv 0) (PExit 0)
      | Some (REDIR sub file _ mode fd) =>
          PClose fd (POpen (cstr len (sh_mem w) file) mode (λ r, if r <? 0 then PExit 1 else runcmd len f w sub))
      | Some (LIST l r) => fork1 (runcmd len f w l) (PWait (runcmd len f w r))
      | Some (PIPE l r) =>
          PPipe (λ p,
            match p with
            | None => PExit 1
            | Some (p0, p1) =>
                fork1 (PClose 1 (PDup p1 (PClose p0 (PClose p1 (runcmd len f w l)))))
               (fork1 (PClose 0 (PDup p0 (PClose p0 (PClose p1 (runcmd len f w r)))))
               (PClose p0 (PClose p1 (PWait (PWait (PExit 0))))))
            end)
      | Some (BACK sub) => fork1 (runcmd len f w sub) (PExit 0)
      end
  end.

Definition nbuf : Z := 100.

(** -1 at the end of the input; the memory and the rest of the input. *)
Definition getcmd (m : bytes) (buf : Z) (input : list Z) : Z * bytes * list Z :=
  let m := mem_fill m buf nbuf 0 in
  let '(m, input) := ugets m buf nbuf input in
  (if m buf =? 0 then -1 else 0, m, input).

(** [runcmd(parsecmd(buf))] *)
Definition run_line (m : bytes) (buf : Z) : prog :=
  match parsecmd (Z.to_nat nbuf) buf [] (mkShell m []) with
  | Ret c _ w => runcmd (Z.to_nat nbuf) (S (length (sh_heap w))) w c
  | Panic _ => PExit 1
  | _ => PFault
  end.

(** The loop over the commands; every round but the last reads a character at
    least. *)
Fixpoint cmd_loop (fuel : nat) (m : bytes) (buf : Z) (input : list Z) : prog :=
  match fuel with
  | O => PFault
  | S f =>
      let '(r, m, input) := getcmd m buf input in
      if r <? 0 then PExit 0 else
      if (m buf =? 99) && (m (buf + 1) =? 100) && (m (buf + 2) =? 32) then
        let m := <[buf + default 0 (strlen (Z.to_nat nbuf) m buf) - 1 := 0]> m in
        PChdir (cstr (Z.to_nat nbuf) m (buf + 3)) (cmd_loop f m buf input)
      else fork1 (run_line m buf) (PWait (cmd_loop f m buf input))
  end.

Definition console_path : list Z := [99; 111; 110; 115; 111; 108; 101].

(** [while ((fd = open("console", O_RDWR)) >= 0) if (fd >= 3) { close(fd); break; }]
    A descriptor below 3 is new each time. *)
Fixpoint open_console (fuel : nat) (k : prog) : prog :=
  match fuel with
  | O => PFault
  | S f => POpen console_path O_RDWR (λ fd, if fd <? 0 then k else if fd >=? 3 then PClose fd k else open_console f k)
  end.

Definition sh_main (m : bytes) (buf : Z) (input : list Z) : prog :=
  open_console 4 (cmd_loop (S (length input)) m buf input).
