(* ===== verification/ShGrammar.v ===== *)
(** * The language of the shell

    What a line means, apart from how sh.c parses it: its lexemes, a context-free
    grammar over them with the command that each sentence stands for, and a parser
    on lists of lexemes, which finds exactly the derivations of the grammar. *)

From S2P Require Import Prelude Types StringC UserLib Sh.

(** ** Lexemes *)

Inductive lexeme := Word (w : list Z) | Sym (c : Z).

Definition is_space (c : Z) : bool := bool_decide (c ∈ whitespace).
Definition is_symbol (c : Z) : bool := bool_decide (c ∈ symbols).
Definition is_word (c : Z) : bool := negb (is_space c) && negb (is_symbol c).

Definition flush (w : list Z) : list lexeme := match w with [] => [] | _ => [Word w] end.

(** The lexemes of a line, character by character; [w] is the word so far. *)
Fixpoint lex (w l : list Z) : list lexeme :=
  match l with
  | [] => flush w
  | c :: l1 =>
      if is_space c then flush w ++ lex [] l1
      else if is_symbol c then
        flush w ++ match l1 with
                   | c' :: l2 => if (c =? gt) && (c' =? gt) then Sym plus :: lex [] l2 else Sym c :: lex [] l1
                   | [] => [Sym c]
                   end
      else lex (w ++ [c]) l1
  end.

(** ** Commands *)

Inductive tree :=
| TExec (args : list (list Z))
| TRedir (t : tree) (file : list Z) (mode fd : Z)
| TPipe (t u : tree)
| TList (t u : tree)
| TBack (t : tree).

Inductive redop := From | To | Append.
Definition redirection : Type := redop * list Z.

Definition redop_sym (o : redop) : Z := match o with From => lt | To => gt | Append => plus end.

(** The mode in which the file is opened and the descriptor it gets. *)
Definition redop_mode (o : redop) : Z * Z :=
  match o with
  | From => (O_RDONLY, 0)
  | To => (Z.lor (Z.lor O_WRONLY O_CREATE) O_TRUNC, 1)
  | Append => (Z.lor O_WRONLY O_CREATE, 1)
  end.

Definition redirect (t : tree) (r : redirection) : tree := TRedir t r.2 (redop_mode r.1).1 (redop_mode r.1).2.

Definition redir_lex (rs : list redirection) : list lexeme := rs ≫= λ r, [Sym (redop_sym r.1); Word r.2].

(** A simple command is a sequence of words and redirections. *)
Inductive item := IWord (w : list Z) | IRedir (r : redirection).

Definition item_lex (l : list item) : list lexeme := l ≫= λ i, match i with IWord w => [Word w] | IRedir r => redir_lex [r] end.
Definition item_words (l : list item) : list (list Z) := l ≫= λ i, match i with IWord w => [w] | IRedir _ => [] end.
Definition item_redirs (l : list item) : list redirection := l ≫= λ i, match i with IWord _ => [] | IRedir r => [r] end.

(** ** The grammar *)

Inductive gline : list lexeme → tree → Prop :=
| g_line a t k : gpipe a t → gline (a ++ replicate k (Sym amp)) (Nat.iter k TBack t)
| g_list a t k b u : gpipe a t → gline b u → gline (a ++ replicate k (Sym amp) ++ Sym semi :: b) (TList (Nat.iter k TBack t) u)
with gpipe : list lexeme → tree → Prop :=
| g_exec a t : gexec a t → gpipe a t
| g_pipe a t b u : gexec a t → gpipe b u → gpipe (a ++ Sym bar :: b) (TPipe t u)
with gexec : list lexeme → tree → Prop :=
| g_simple l : Z.of_nat (length (item_words l)) < MAXARGS → gexec (item_lex l) (foldl redirect (TExec (item_words l)) (item_redirs l))
| g_block a t rs : gline a t → gexec (Sym lparen :: a ++ Sym rparen :: redir_lex rs) (foldl redirect t rs).

Scheme gline_mut := Minimality for gline Sort Prop
with gpipe_mut := Minimality for gpipe Sort Prop
with gexec_mut := Minimality for gexec Sort Prop.
Combined Scheme grammar_ind from gline_mut, gpipe_mut, gexec_mut.

(** ** The parser on lexemes *)

Inductive result (A : Type) := Ok (x : A) (ts : list lexeme) | Err | Out.
Arguments Ok {A} x ts.
Arguments Err {A}.
Arguments Out {A}.

Definition rbind {A B} (r : result A) (k : A → list lexeme → result B) : result B :=
  match r with Ok x ts => k x ts | Err => Err | Out => Out end.

Definition redop_of (c : Z) : option redop :=
  if c =? lt then Some From else if c =? gt then Some To else if c =? plus then Some Append else None.

(** What follows the symbol [c] at the head. *)
Definition after (c : Z) (ts : list lexeme) : option (list lexeme) :=
  match ts with Sym c' :: ts' => if c' =? c then Some ts' else None | _ => None end.

Fixpoint rredirs (ts : list lexeme) : result (list redirection) :=
  match ts with
  | Sym c :: ts' =>
      match redop_of c with
      | None => Ok [] ts
      | Some o => match ts' with Word f :: ts'' => rbind (rredirs ts'') (λ rs r, Ok ((o, f) :: rs) r) | _ => Err end
      end
  | _ => Ok [] ts
  end.

(** Words, [n] at most, with the redirections that follow each of them. *)
Fixpoint rargs (n : nat) (ts : list lexeme) : result (list (list Z * list redirection)) :=
  match ts with
  | [] => Ok [] []
  | Sym c :: _ => if bool_decide (c ∈ [bar; rparen; amp; semi]) then Ok [] ts else Err
  | Word w :: ts' =>
      match n with
      | O => Err
      | S n => rbind (rredirs ts') (λ rs r, rbind (rargs n r) (λ ws r', Ok ((w, rs) :: ws) r'))
      end
  end.

Definition rsimple (ts : list lexeme) : result tree :=
  rbind (rredirs ts) (λ rs r, rbind (rargs (Z.to_nat MAXARGS - 1) r) (λ ws r', Ok (foldl redirect (TExec ws.*1) (rs ++ mjoin ws.*2)) r')).

(** The number of &s at the head, and what follows. *)
Fixpoint ramps (ts : list lexeme) : nat * list lexeme :=
  match ts with
  | Sym c :: ts' => if c =? amp then let '(k, r) := ramps ts' in (S k, r) else (O, ts)
  | _ => (O, ts)
  end.

Fixpoint rline (n : nat) (ts : list lexeme) : result tree :=
  match n with
  | O => Out
  | S n => rbind (rpipe n ts) (λ t r,
      let '(k, r) := ramps r in
      match after semi r with
      | Some r' => rbind (rline n r') (λ u r'', Ok (TList (Nat.iter k TBack t) u) r'')
      | None => Ok (Nat.iter k TBack t) r
      end)
  end
with rpipe (n : nat) (ts : list lexeme) : result tree :=
  match n with
  | O => Out
  | S n => rbind (rexec n ts) (λ t r,
      match after bar r with
      | Some r' => rbind (rpipe n r') (λ u r'', Ok (TPipe t u) r'')
      | None => Ok t r
      end)
  end
with rexec (n : nat) (ts : list lexeme) : result tree :=
  match n with
  | O => Out
  | S n => match after lparen ts with Some r => rblock n r | None => rsimple ts end
  end
with rblock (n : nat) (ts : list lexeme) : result tree :=
  match n with
  | O => Out
  | S n => rbind (rline n ts) (λ t r,
      match after rparen r with
      | Some r' => rbind (rredirs r') (λ rs r'', Ok (foldl redirect t rs) r'')
      | None => Err
      end)
  end.

Lemma rbind_Ok {A B} (r : result A) (k : A → list lexeme → result B) x ts :
  rbind r k = Ok x ts → ∃ y ts', r = Ok y ts' ∧ k y ts' = Ok x ts.
Proof. destruct r; naive_solver. Qed.

Ltac rinv :=
  repeat match goal with
  | H : rbind _ _ = Ok _ _ |- _ => apply rbind_Ok in H as (? & ? & ? & ?)
  | H : Ok _ _ = Ok _ _ |- _ => injection H as ? ?; subst
  end.

Lemma after_Some c ts r : after c ts = Some r ↔ ts = Sym c :: r.
Proof.
  destruct ts as [|[w|c'] ts]; cbn; [naive_solver..|]. destruct (Z.eqb_spec c' c); naive_solver.
Qed.

Lemma redop_of_sym o : redop_of (redop_sym o) = Some o.
Proof. by destruct o. Qed.

Lemma redop_of_Some c o : redop_of c = Some o → c = redop_sym o.
Proof.
  unfold redop_of. destruct (Z.eqb_spec c lt), (Z.eqb_spec c gt), (Z.eqb_spec c plus); intros [= <-]; done.
Qed.

(** ** What the parser finds is derived by the grammar *)

Lemma rredirs_sound ts rs r : rredirs ts = Ok rs r → ts = redir_lex rs ++ r.
Proof.
  revert rs. induction ts as [ts IH] using (induction_ltof1 _ length). intros rs. destruct ts as [|[w|c] ts]; cbn; [naive_solver..|].
  destruct (redop_of c) as [o|] eqn:Eo; [|naive_solver]. apply redop_of_Some in Eo as ->. destruct ts as [|[f|] ts]; [done| |done].
  intros H. rinv. match goal with H : rredirs ts = _ |- _ => apply IH in H as ->; [done|unfold ltof; cbn; lia] end.
Qed.

(** The words of a command with the redirections after each. *)
Definition args_items (ws : list (list Z * list redirection)) : list item := ws ≫= λ w, IWord w.1 :: (IRedir <$> w.2).

Lemma item_lex_app a b : item_lex (a ++ b) = item_lex a ++ item_lex b.
Proof. apply bind_app. Qed.

Lemma item_lex_redirs rs : item_lex (IRedir <$> rs) = redir_lex rs.
Proof. induction rs as [|r rs IH]; [done|]. cbn. f_equal. f_equal. exact IH. Qed.

Lemma item_redirs_words rs : item_words (IRedir <$> rs) = [] ∧ item_redirs (IRedir <$> rs) = rs.
Proof. induction rs as [|r rs [IH1 IH2]]; [done|]. cbn. split; [exact IH1|f_equal; exact IH2]. Qed.

Lemma args_items_cons w rs ws : args_items ((w, rs) :: ws) = IWord w :: (IRedir <$> rs) ++ args_items ws.
Proof. done. Qed.

Lemma item_words_app a b : item_words (a ++ b) = item_words a ++ item_words b.
Proof. apply bind_app. Qed.

Lemma item_redirs_app a b : item_redirs (a ++ b) = item_redirs a ++ item_redirs b.
Proof. apply bind_app. Qed.

Lemma args_items_parts ws : item_words (args_items ws) = ws.*1 ∧ item_redirs (args_items ws) = mjoin ws.*2.
Proof.
  induction ws as [|[w rs] ws [IH1 IH2]]; [done|]. rewrite args_items_cons. destruct (item_redirs_words rs) as [E1 E2].
  change (item_words (IWord w :: ?l)) with (w :: item_words l). change (item_redirs (IWord w :: ?l)) with (item_redirs l).
  rewrite item_words_app, item_redirs_app, E1, E2, IH1, IH2. done.
Qed.

Lemma args_items_lex w rs ws : item_lex (args_items ((w, rs) :: ws)) = Word w :: redir_lex rs ++ item_lex (args_items ws).
Proof. rewrite args_items_cons. change (item_lex (IWord w :: ?l)) with (Word w :: item_lex l). by rewrite item_lex_app, item_lex_redirs. Qed.

Lemma rargs_sound n ts ws r : rargs n ts = Ok ws r → ts = item_lex (args_items ws) ++ r ∧ (length ws ≤ n)%nat.
Proof.
  revert ts ws. induction n as [|n IH]; intros [|[w|c] ts] ws; cbn [rargs].
  1, 4: intros H; rinv; split; [done|cbn; lia]. 2, 4: case_bool_decide as E; [|done]; intros H; rinv; split; [done|cbn; lia]. { done. }
  intros H. apply rbind_Ok in H as (rs & r1 & ->%rredirs_sound & H). apply rbind_Ok in H as (l & r2 & Hn & H). rinv. apply IH in Hn as [-> Hl].
  split; [|cbn; lia]. rewrite args_items_lex. cbn. by rewrite <-app_assoc.
Qed.

Lemma rsimple_sound ts t r : rsimple ts = Ok t r → ∃ a, ts = a ++ r ∧ gexec a t.
Proof.
  unfold rsimple. intros H. apply rbind_Ok in H as (rs & r1 & ->%rredirs_sound & H). apply rbind_Ok in H as (ws & r2 & [-> Hl]%rargs_sound & H). rinv.
  exists (item_lex ((IRedir <$> rs) ++ args_items ws)). destruct (item_redirs_words rs) as [E1 E2], (args_items_parts ws) as [E3 E4].
  pose proof (g_simple ((IRedir <$> rs) ++ args_items ws)) as Hg.
  rewrite item_words_app, item_redirs_app, E1, E2, E3, E4, item_lex_app, item_lex_redirs in *. split; [by rewrite app_assoc|]. apply Hg.
  cbn [app]. rewrite length_fmap. change (Z.to_nat MAXARGS - 1)%nat with 9%nat in Hl. unfold MAXARGS. lia.
Qed.

Lemma ramps_spec ts k r : ramps ts = (k, r) → ts = replicate k (Sym amp) ++ r ∧ after amp r = None.
Proof.
  revert k. induction ts as [|[w|c] ts IH]; intros k; cbn; [intros [= <- <-]; done..|]. destruct (Z.eqb_spec c amp) as [->|Hne].
  - destruct (ramps ts) as [k' r'] eqn:E. intros [= <- <-]. destruct (IH k' eq_refl) as [-> Ha]. done.
  - intros [= <- <-]. split; [done|]. cbn. by rewrite (proj2 (Z.eqb_neq _ _)).
Qed.

Lemma parse_sound n :
  (∀ ts t r, rline n ts = Ok t r → ∃ a, ts = a ++ r ∧ gline a t) ∧ (∀ ts t r, rpipe n ts = Ok t r → ∃ a, ts = a ++ r ∧ gpipe a t) ∧
  (∀ ts t r, rexec n ts = Ok t r → ∃ a, ts = a ++ r ∧ gexec a t) ∧ (∀ ts t r, rblock n ts = Ok t r → ∃ a, Sym lparen :: ts = a ++ r ∧ gexec a t).
Proof.
  induction n as [|n (IHl & IHp & IHe & IHb)]; [done|]. split_and!; intros ts t r.
  - cbn [rline]. intros H. apply rbind_Ok in H as (t1 & r1 & (a & -> & Ha)%IHp & H). destruct (ramps r1) as [k r2] eqn:Ek. apply ramps_spec in Ek as [-> _].
    destruct (after semi r2) as [r3|] eqn:Es.
    + apply after_Some in Es as ->. apply rbind_Ok in H as (u & r4 & (b & -> & Hb)%IHl & H). rinv.
      exists (a ++ replicate k (Sym amp) ++ Sym semi :: b). split; [by rewrite <-!app_assoc|by constructor].
    + rinv. exists (a ++ replicate k (Sym amp)). split; [by rewrite <-app_assoc|by constructor].
  - cbn [rpipe]. intros H. apply rbind_Ok in H as (t1 & r1 & (a & -> & Ha)%IHe & H). destruct (after bar r1) as [r2|] eqn:Es.
    + apply after_Some in Es as ->. apply rbind_Ok in H as (u & r4 & (b & -> & Hb)%IHp & H). rinv.
      exists (a ++ Sym bar :: b). split; [by rewrite <-app_assoc|by constructor].
    + rinv. exists a. split; [done|by constructor].
  - cbn [rexec]. destruct (after lparen ts) as [r1|] eqn:Es; [|apply rsimple_sound]. apply after_Some in Es as ->. apply IHb.
  - cbn [rblock]. intros H. apply rbind_Ok in H as (t1 & r1 & (a & -> & Ha)%IHl & H). destruct (after rparen r1) as [r2|] eqn:Es; [|done].
    apply after_Some in Es as ->. apply rbind_Ok in H as (rs & r3 & ->%rredirs_sound & H). rinv.
    exists (Sym lparen :: a ++ Sym rparen :: redir_lex rs). split; [cbn; by rewrite <-app_assoc|by constructor].
Qed.

(** ** More fuel does not change a result, and enough of it gives one *)

Definition below {A} (r r' : result A) : Prop := r = Out ∨ r = r'.

Lemma below_refl {A} (r : result A) : below r r.
Proof. by right. Qed.

Lemma below_bind {A B} (r r' : result A) (k k' : A → list lexeme → result B) :
  below r r' → (∀ x ts, below (k x ts) (k' x ts)) → below (rbind r k) (rbind r' k').
Proof. intros [->| ->] Hk; [by left|]. destruct r'; [apply Hk|by right..]. Qed.

Lemma parse_mono n :
  (∀ ts, below (rline n ts) (rline (S n) ts)) ∧ (∀ ts, below (rpipe n ts) (rpipe (S n) ts)) ∧
  (∀ ts, below (rexec n ts) (rexec (S n) ts)) ∧ (∀ ts, below (rblock n ts) (rblock (S n) ts)).
Proof.
  induction n as [|n (IHl & IHp & IHe & IHb)]; [split_and!; by left|]. split_and!; intros ts.
  - apply (below_bind (rpipe n ts)); [apply IHp|]. intros t r. destruct (ramps r) as [k r1]. destruct (after semi r1); [|apply below_refl].
    apply (below_bind (rline n _)); [apply IHl|]. intros; apply below_refl.
  - apply (below_bind (rexec n ts)); [apply IHe|]. intros t r. destruct (after bar r); [|apply below_refl].
    apply (below_bind (rpipe n _)); [apply IHp|]. intros; apply below_refl.
  - change (rexec (S n) ts) with (match after lparen ts with Some r => rblock n r | None => rsimple ts end).
    change (rexec (S (S n)) ts) with (match after lparen ts with Some r => rblock (S n) r | None => rsimple ts end).
    destruct (after lparen ts); [apply IHb|apply below_refl].
  - apply (below_bind (rline n ts)); [apply IHl|]. intros; apply below_refl.
Qed.

Lemma below_more {A} (f : nat → result A) n m : (∀ n, below (f n) (f (S n))) → (n ≤ m)%nat → below (f n) (f m).
Proof.
  intros Hf. induction 1 as [|m _ IH]; [apply below_refl|]. destruct (Hf m) as [E|<-]; [|done]. rewrite E in IH. destruct IH as [-> | ->]; by left.
Qed.

Lemma below_Ok {A} (r r' : result A) x ts : below r r' → r = Ok x ts → r' = Ok x ts.
Proof. intros [->| ->]; done. Qed.

Lemma rredirs_Out ts : rredirs ts ≠ Out.
Proof.
  induction ts as [ts IH] using (induction_ltof1 _ length). destruct ts as [|[w|c] ts]; [done..|]. cbn. destruct (redop_of c); [|done].
  destruct ts as [|[f|] ts]; [done| |done]. pose proof (IH ts ltac:(unfold ltof; cbn; lia)). by destruct (rredirs ts).
Qed.

Lemma rargs_Out n ts : rargs n ts ≠ Out.
Proof.
  revert ts. induction n as [|n IH]; intros [|[w|c] ts]; cbn; try done; try (by case_bool_decide).
  pose proof (rredirs_Out ts). destruct (rredirs ts) as [rs r| |]; [cbn|done..]. pose proof (IH r). by destruct (rargs n r).
Qed.

Lemma rsimple_Out ts : rsimple ts ≠ Out.
Proof.
  unfold rsimple. pose proof (rredirs_Out ts). destruct (rredirs ts) as [rs r| |]; [cbn -[rargs]|done..].
  pose proof (rargs_Out (Z.to_nat MAXARGS - 1) r). by destruct (rargs (Z.to_nat MAXARGS - 1) r).
Qed.

Lemma suffix_length {A} (ts a r : list A) : ts = a ++ r → (length r ≤ length ts)%nat.
Proof. intros ->. rewrite length_app. lia. Qed.

Lemma parse_fuel n :
  (∀ ts, (4 * length ts + 3 ≤ n)%nat → rline n ts ≠ Out) ∧ (∀ ts, (4 * length ts + 2 ≤ n)%nat → rpipe n ts ≠ Out) ∧
  (∀ ts, (4 * length ts + 1 ≤ n)%nat → rexec n ts ≠ Out) ∧ (∀ ts, (4 * length ts + 4 ≤ n)%nat → rblock n ts ≠ Out).
Proof.
  induction n as [|n (IHl & IHp & IHe & IHb)]; [split_and!; intros; lia|]. destruct (parse_sound n) as (Sl & Sp & Se & _). split_and!; intros ts Hn.
  - cbn [rline]. pose proof (IHp ts ltac:(lia)). destruct (rpipe n ts) as [t r| |] eqn:E; [|done..]. apply Sp in E as (a & Ea & _). cbn [rbind].
    apply suffix_length in Ea. destruct (ramps r) as [k r1] eqn:Er. apply ramps_spec in Er as [Er%suffix_length _].
    destruct (after semi r1) as [r2|] eqn:Ea2; [|done]. apply after_Some in Ea2 as ->. cbn [length] in Er.
    pose proof (IHl r2 ltac:(lia)). by destruct (rline n r2).
  - cbn [rpipe]. pose proof (IHe ts ltac:(lia)). destruct (rexec n ts) as [t r| |] eqn:E; [|done..]. apply Se in E as (a & Ea & _). cbn [rbind].
    apply suffix_length in Ea. destruct (after bar r) as [r2|] eqn:Ea2; [|done]. apply after_Some in Ea2 as ->. cbn [length] in Ea.
    pose proof (IHp r2 ltac:(lia)). by destruct (rpipe n r2).
  - cbn [rexec]. destruct (after lparen ts) as [r|] eqn:Ea; [|apply rsimple_Out]. apply after_Some in Ea as ->. cbn [length] in Hn. apply IHb. lia.
  - cbn [rblock]. pose proof (IHl ts ltac:(lia)). destruct (rline n ts) as [t r| |] eqn:E; [|done..]. cbn [rbind].
    destruct (after rparen r) as [r2|]; [|done]. pose proof (rredirs_Out r2). by destruct (rredirs r2).
Qed.

(** ** Every derivation is found *)

(** The rest of the line is empty or begins with one of [cs]. *)
Definition follows (cs : list Z) (ts : list lexeme) : Prop := ts = [] ∨ ∃ c ts', ts = Sym c :: ts' ∧ c ∈ cs.

Lemma follows_mono cs cs' ts : cs ⊆ cs' → follows cs ts → follows cs' ts.
Proof. intros Hs [->|(c & ts' & -> & Hc)]; [by left|right; exists c, ts'; split; [done|by apply Hs]]. Qed.

Lemma follows_after cs c ts : follows cs ts → c ∉ cs → after c ts = None.
Proof.
  intros [->|(c' & ts' & -> & Hc)] Hn; [done|]. cbn. destruct (Z.eqb_spec c' c); [by subst|done].
Qed.

Definition no_redir (ts : list lexeme) : Prop := match ts with Sym c :: _ => redop_of c = None | _ => True end.

Lemma rredirs_complete rs ts : no_redir ts → rredirs (redir_lex rs ++ ts) = Ok rs ts.
Proof.
  intros Hn. induction rs as [|[o f] rs IH].
  - destruct ts as [|[w|c] ts]; [done..|]. cbn in *. by rewrite Hn.
  - change (redir_lex ((o, f) :: rs) ++ ts) with (Sym (redop_sym o) :: Word f :: redir_lex rs ++ ts). cbn [rredirs]. rewrite redop_of_sym, IH. done.
Qed.

Definition exec_follow : list Z := [bar; rparen; amp; semi].

Lemma follow_no_redir ts : follows exec_follow ts → no_redir ts.
Proof.
  intros [->|(c & ts' & -> & Hc)]; [done|]. unfold exec_follow in Hc. cbn. repeat (apply elem_of_cons in Hc as [->|Hc]; [done|]). set_solver.
Qed.

Lemma rargs_complete n ws ts :
  (length ws ≤ n)%nat → follows exec_follow ts → rargs n (item_lex (args_items ws) ++ ts) = Ok ws ts.
Proof.
  intros Hn Hf. revert n Hn. induction ws as [|[w rs] ws IH]; intros n Hn.
  - destruct Hf as [->|(c & ts' & -> & Hc)]; [by destruct n|]. unfold exec_follow in Hc. destruct n; cbn; by rewrite bool_decide_eq_true_2.
  - rewrite args_items_lex. destruct n as [|n]; [cbn in Hn; lia|]. cbn [app rargs]. rewrite <-app_assoc, rredirs_complete.
    + cbn [rbind]. rewrite IH by (cbn in Hn; lia). done.
    + destruct ws as [|[w' rs'] ws]; [by apply follow_no_redir|]. rewrite args_items_lex. done.
Qed.

(** The items of a command as the parser groups them. *)
Lemma items_group l : ∃ rs ws, item_lex l = redir_lex rs ++ item_lex (args_items ws) ∧ item_words l = ws.*1 ∧ item_redirs l = rs ++ mjoin ws.*2.
Proof.
  induction l as [|[w|r] l (rs & ws & E1 & E2 & E3)].
  - by exists [], [].
  - exists [], ((w, rs) :: ws). rewrite args_items_lex. change (item_lex (IWord w :: l)) with (Word w :: item_lex l). rewrite E1.
    change (item_words (IWord w :: l)) with (w :: item_words l). change (item_redirs (IWord w :: l)) with (item_redirs l). rewrite E2, E3. done.
  - exists (r :: rs), ws. change (item_lex (IRedir r :: l)) with (redir_lex [r] ++ item_lex l). rewrite E1, app_assoc.
    change (item_words (IRedir r :: l)) with (item_words l). change (item_redirs (IRedir r :: l)) with (r :: item_redirs l). rewrite E2, E3. done.
Qed.

Lemma rsimple_complete l ts :
  Z.of_nat (length (item_words l)) < MAXARGS → follows exec_follow ts →
  rsimple (item_lex l ++ ts) = Ok (foldl redirect (TExec (item_words l)) (item_redirs l)) ts.
Proof.
  intros Hl Hf. destruct (items_group l) as (rs & ws & -> & E2 & E3). rewrite E2, E3 in *. rewrite length_fmap in Hl. unfold rsimple.
  rewrite <-app_assoc, rredirs_complete.
  - cbn [rbind]. rewrite rargs_complete; [done|change (Z.to_nat MAXARGS - 1)%nat with 9%nat; unfold MAXARGS in Hl; lia|done].
  - destruct ws as [|[w' rs'] ws]; [by apply follow_no_redir|]. rewrite args_items_lex. done.
Qed.

Lemma ramps_complete k ts : after amp ts = None → ramps (replicate k (Sym amp) ++ ts) = (k, ts).
Proof.
  intros Ha. induction k as [|k IH].
  - destruct ts as [|[w|c] ts]; [done..|]. cbn in *. by destruct (c =? amp).
  - cbn. rewrite IH. done.
Qed.

Lemma item_lex_after l ts : follows exec_follow ts → after lparen (item_lex l ++ ts) = None.
Proof.
  intros Hf. destruct l as [|[w|[o f]] l]; [|done|by destruct o]. apply (follows_after _ _ _ Hf). unfold exec_follow. set_solver.
Qed.

Lemma parse_complete :
  (∀ a t, gline a t → ∀ ts, follows [rparen] ts → ∃ n, rline n (a ++ ts) = Ok t ts) ∧
  (∀ a t, gpipe a t → ∀ ts, follows [rparen; amp; semi] ts → ∃ n, rpipe n (a ++ ts) = Ok t ts) ∧
  (∀ a t, gexec a t → ∀ ts, follows exec_follow ts → ∃ n, rexec n (a ++ ts) = Ok t ts).
Proof.
  assert (Hamps : ∀ k c ts, c ∈ [amp; semi] ∨ k ≠ O → follows [rparen; amp; semi] (replicate k (Sym amp) ++ Sym c :: ts)).
  { intros [|k] c ts Hk; right; [|exists amp; eexists; split; [done|set_solver]]. destruct Hk as [Hk|]; [|done]. exists c, ts. split; [done|set_solver]. }
  assert (Hm : ∀ n m ts, (n ≤ m)%nat → below (rline n ts) (rline m ts)) by (intros; apply (below_more (λ n, rline n ts)); [intros i; by apply parse_mono|done]).
  assert (Hp : ∀ n m ts, (n ≤ m)%nat → below (rpipe n ts) (rpipe m ts)) by (intros; apply (below_more (λ n, rpipe n ts)); [intros i; by apply parse_mono|done]).
  assert (He : ∀ n m ts, (n ≤ m)%nat → below (rexec n ts) (rexec m ts)) by (intros; apply (below_more (λ n, rexec n ts)); [intros i; by apply parse_mono|done]).
  apply grammar_ind.
  - intros a t k _ IH ts Hf. destruct (IH (replicate k (Sym amp) ++ ts)) as [n E].
    { destruct k; [apply (follows_mono [rparen]); [set_solver|done]|]. right. exists amp. eexists. split; [done|set_solver]. }
    exists (S n). cbn [rline]. rewrite <-app_assoc, E. cbn [rbind]. rewrite ramps_complete by (apply (follows_after _ _ _ Hf); set_solver).
    rewrite (follows_after [rparen] semi ts Hf) by set_solver. done.
  - intros a t k b u _ IHa _ IHb ts Hf. destruct (IHb ts Hf) as [n1 E1]. destruct (IHa (replicate k (Sym amp) ++ Sym semi :: b ++ ts)) as [n2 E2].
    { apply Hamps. left. set_solver. }
    exists (S (n1 `max` n2)). cbn [rline]. rewrite <-!app_assoc. cbn [app].
    rewrite (below_Ok _ _ _ _ (Hp n2 (n1 `max` n2)%nat _ ltac:(lia)) E2). cbn [rbind]. rewrite ramps_complete by done. cbn [after]. rewrite Z.eqb_refl.
    rewrite (below_Ok _ _ _ _ (Hm n1 (n1 `max` n2)%nat _ ltac:(lia)) E1). done.
  - intros a t _ IH ts Hf. destruct (IH ts) as [n E]; [apply (follows_mono [rparen; amp; semi]); [unfold exec_follow; set_solver|done]|].
    exists (S n). cbn [rpipe]. rewrite E. cbn [rbind]. rewrite (follows_after _ bar _ Hf) by set_solver. done.
  - intros a t b u _ IHa _ IHb ts Hf. destruct (IHb ts Hf) as [n1 E1]. destruct (IHa (Sym bar :: b ++ ts)) as [n2 E2].
    { right. exists bar. eexists. split; [done|unfold exec_follow; set_solver]. }
    exists (S (n1 `max` n2)). cbn [rpipe]. rewrite <-!app_assoc. cbn [app].
    rewrite (below_Ok _ _ _ _ (He n2 (n1 `max` n2)%nat _ ltac:(lia)) E2). cbn [rbind after]. rewrite Z.eqb_refl.
    rewrite (below_Ok _ _ _ _ (Hp n1 (n1 `max` n2)%nat _ ltac:(lia)) E1). done.
  - intros l Hl ts Hf. exists 1%nat. cbn [rexec]. rewrite item_lex_after by done. by apply rsimple_complete.
  - intros a t rs _ IH ts Hf. destruct (IH (Sym rparen :: redir_lex rs ++ ts)) as [n E]; [right; exists rparen; eexists; split; [done|set_solver]|].
    exists (S (S n)). cbn [rexec after app]. rewrite Z.eqb_refl. cbn [rblock]. rewrite <-app_assoc. cbn [app]. rewrite E. cbn [rbind after].
    rewrite Z.eqb_refl, rredirs_complete by (by apply follow_no_redir). done.
Qed.

(** The parser with enough fuel decides the grammar. *)
Lemma rline_decides ts n :
  (4 * length ts + 3 ≤ n)%nat →
  (∃ t, rline n ts = Ok t [] ∧ gline ts t ∧ ∀ u, gline ts u → u = t) ∨
  ((rline n ts = Err ∨ ∃ t r, rline n ts = Ok t r ∧ r ≠ []) ∧ ∀ t, ¬ gline ts t).
Proof.
  intros Hn. destruct parse_complete as (Hc & _). destruct (parse_fuel n) as (Hf & _). destruct (parse_sound n) as (Hs & _).
  assert (Hu : ∀ u, gline ts u → rline n ts = Ok u []).
  { intros u Hu. destruct (Hc ts u Hu [] ltac:(by left)) as [m E]. rewrite app_nil_r in E.
    assert (Hb : ∀ i j, (i ≤ j)%nat → below (rline i ts) (rline j ts)) by (intros; apply (below_more (λ n, rline n ts)); [intros i'; by apply parse_mono|done]).
    destruct (Hb n (n `max` m)%nat ltac:(lia)) as [Eo|En]; [by destruct (Hf ts Hn)|]. rewrite En. by apply (below_Ok _ _ _ _ (Hb m (n `max` m)%nat ltac:(lia))). }
  destruct (rline n ts) as [t r| |] eqn:E; [|right; split; [by left|intros t Ht; by apply Hu in Ht]|by destruct (Hf ts Hn)].
  destruct r as [|x r].
  - left. exists t. split; [done|]. destruct (Hs ts t [] E) as (a & -> & Ha). rewrite app_nil_r in *. split; [done|]. intros u Hgu. apply Hu in Hgu. congruence.
  - right. split; [right; by exists t, (x :: r)|]. intros u Hgu. apply Hu in Hgu. congruence.
Qed.

(** The command that a line stands for. *)
Definition parse (ts : list lexeme) : option tree := match rline (4 * length ts + 3) ts with Ok t [] => Some t | _ => None end.

Lemma parse_derives ts t : parse ts = Some t ↔ gline ts t.
Proof.
  unfold parse. destruct (rline_decides ts (4 * length ts + 3) ltac:(lia)) as [(u & -> & Hu & Huniq)|[[->|(u & r & -> & Hr)] Hno]].
  - split; [by intros [= <-]|]. intros Ht. by rewrite (Huniq t Ht).
  - split; [done|]. intros Ht. by destruct (Hno t).
  - destruct r; [done|]. split; [done|]. intros Ht. by destruct (Hno t).
Qed.
