(* ===== verification/ShProps.v ===== *)
(** * The shell parses its language

    The functions of sh.c on a line in memory do what the parser of ShGrammar does
    on its lexemes: gettoken and peek see the lexemes one after the other, the
    commands on the heap represent the trees, and nulterminate turns the words
    into strings without touching any other. *)

From S2P Require Import Prelude Types StringC UserLib Sh ShGrammar.

Lemma has_char_spec set c : Forall (λ x, x ≠ 0) set → has_char set c = bool_decide (c ∈ set).
Proof.
  unfold has_char. change set with ([] ++ set) at 3. change 0 with (Z.of_nat (length (@nil Z))) at 2. generalize (@nil Z).
  induction set as [|x set IH]; intros pre Hs.
  - cbn [length strchr]. replace (string_bytes (pre ++ []) (Z.of_nat (length pre))) with 0; [done|].
    unfold string_bytes. rewrite (proj2 (Z.ltb_ge _ _)), Nat2Z.id, app_nil_r, lookup_ge_None_2 by lia. done.
  - apply Forall_cons in Hs as [Hx Hs]. replace (strchr (S (length (x :: set))) (string_bytes (pre ++ x :: set)) (Z.of_nat (length pre)) c)
      with (if x =? c then Some (Some (Z.of_nat (length pre))) else strchr (S (length set)) (string_bytes (pre ++ x :: set)) (Z.of_nat (length pre) + 1) c).
    + destruct (Z.eqb_spec x c) as [->|Hne]; [by rewrite bool_decide_eq_true_2 by set_solver|].
      rewrite cons_middle, app_assoc. replace (Z.of_nat (length pre) + 1) with (Z.of_nat (length (pre ++ [x]))) by (rewrite length_app; cbn; lia).
      rewrite IH by done. apply bool_decide_ext. set_solver.
    + cbn [length strchr]. assert (string_bytes (pre ++ x :: set) (Z.of_nat (length pre)) = x) as ->.
      { unfold string_bytes. rewrite (proj2 (Z.ltb_ge _ _)), Nat2Z.id, list_lookup_middle by lia. done. }
      replace (nz x) with true; [done|]. symmetry. unfold nz. by rewrite (proj2 (Z.eqb_neq x 0)).
Qed.

Lemma has_space c : has_char whitespace c = is_space c.
Proof. apply has_char_spec. repeat constructor; done. Qed.

Lemma has_symbol c : has_char symbols c = is_symbol c.
Proof. apply has_char_spec. repeat constructor; done. Qed.

(** The characters of words. *)
Definition wchar (c : Z) : bool := nz c && is_word c.

Lemma ld_bytes_cons m a n : 0 < n → ld_bytes m a n = m a :: ld_bytes m (a + 1) (n - 1).
Proof. intros Hn. unfold ld_bytes. by rewrite seqZ_cons, <-Z.add_1_r, <-Z.sub_1_r by lia. Qed.

(** ** A line in memory *)

Section Line.
Context (m : bytes) (s0 es : Z).
Context (Hs0 : 0 < s0 ≤ es) (Hend : m es = 0) (Hline : ∀ x, s0 ≤ x < es → m x ≠ 0).

Definition rest (s : Z) : list Z := ld_bytes m s (es - s).
Definition lexR (s : Z) : list lexeme := lex [] (rest s).

Lemma rest_cons s : s < es → rest s = m s :: rest (s + 1).
Proof.
  intros Hs. unfold rest. rewrite (ld_bytes_cons m s) by lia. do 2 f_equal. lia.
Qed.

Lemma rest_es : rest es = [].
Proof. unfold rest. by rewrite Z.sub_diag. Qed.

Lemma skip_spec P s : s ≤ es → P 0 = false →
  let s' := skip P m s es in s ≤ s' ≤ es ∧ (∀ x, s ≤ x < s' → P (m x) = true) ∧ P (m s') = false.
Proof.
  intros Hs HP. unfold skip. remember (Z.to_nat (es - s)) as f eqn:Ef. revert s Hs Ef. induction f as [|f IH]; intros s Hs Ef; cbn [skip_while].
  - assert (s = es) as -> by lia. split; [lia|]. split; [lia|]. by rewrite Hend.
  - rewrite (proj2 (Z.ltb_lt s es)) by lia. cbn [andb]. destruct (P (m s)) eqn:E; [|split; [lia|]; split; [lia|done]].
    destruct (IH (s + 1) ltac:(lia) ltac:(lia)) as (H1 & H2 & H3). split; [lia|]. split; [|done].
    intros x Hx. destruct (decide (x = s)) as [->|]; [done|]. apply H2. lia.
Qed.

Lemma lex_spaces s s' : s ≤ s' ≤ es → (∀ x, s ≤ x < s' → is_space (m x) = true) → lexR s = lexR s'.
Proof.
  intros Hs Hx. remember (Z.to_nat (s' - s)) as n eqn:En. revert s Hs Hx En. induction n as [|n IH]; intros s Hs Hx En.
  - by assert (s = s') as -> by lia.
  - rewrite <-(IH (s + 1)) by (intros; try apply Hx; lia). unfold lexR. rewrite (rest_cons s) by lia. cbn [lex]. by rewrite Hx by lia.
Qed.

Lemma lex_word w s e : s ≤ e ≤ es → (∀ x, s ≤ x < e → is_word (m x) = true) → lex w (rest s) = lex (w ++ ld_bytes m s (e - s)) (rest e).
Proof.
  intros Hs Hx. remember (Z.to_nat (e - s)) as n eqn:En. revert w s Hs Hx En. induction n as [|n IH]; intros w s Hs Hx En.
  - assert (s = e) as -> by lia. by rewrite Z.sub_diag, app_nil_r.
  - assert (Hc : is_word (m s) = true) by (apply Hx; lia). unfold is_word in Hc. apply andb_true_iff in Hc as [H1%negb_true_iff H2%negb_true_iff].
    rewrite rest_cons by lia. cbn [lex]. rewrite H1, H2. rewrite (IH (w ++ [m s]) (s + 1)) by (intros; try apply Hx; lia).
    rewrite <-app_assoc, (ld_bytes_cons m s) by lia. cbn. do 4 f_equal. lia.
Qed.

Lemma lex_stop w s : s ≤ es → s0 ≤ s → wchar (m s) = false → lex w (rest s) = flush w ++ lexR s.
Proof.
  intros Hs H0 Hw. destruct (decide (s = es)) as [->|Hne].
  - unfold lexR. rewrite rest_es. cbn. by rewrite app_nil_r.
  - unfold lexR. rewrite rest_cons by lia. cbn [lex]. pose proof (Hline s ltac:(lia)) as Hz. unfold wchar, nz in Hw. rewrite (proj2 (Z.eqb_neq _ _)) in Hw by done.
    cbn in Hw. unfold is_word in Hw. destruct (is_space (m s)); [done|]. by destruct (is_symbol (m s)).
Qed.

(** A word of the line, from [q] to [e]. *)
Record word (q e : Z) (w : list Z) : Prop := {
  wd_range : s0 ≤ q < e ∧ e ≤ es;
  wd_bytes : w = ld_bytes m q (e - q);
  wd_chars x : q ≤ x < e → wchar (m x) = true;
  wd_end : wchar (m e) = false
}.

Lemma lex_symbol s : s < es → is_symbol (m s) = true → is_space (m s) = false → ¬ (m s = gt ∧ m (s + 1) = gt) → lexR s = Sym (m s) :: lexR (s + 1).
Proof.
  intros Hs Hy Hp Hn. unfold lexR. rewrite rest_cons by done. cbn [lex]. rewrite Hp, Hy. cbn [flush app]. destruct (decide (s + 1 = es)) as [E|E].
  - rewrite E, rest_es. done.
  - rewrite (rest_cons (s + 1)) by lia. destruct (Z.eqb_spec (m s) gt), (Z.eqb_spec (m (s + 1)) gt); cbn [andb]; try done. exfalso. by apply Hn.
Qed.

Lemma lex_append s : s + 1 < es → m s = gt → m (s + 1) = gt → lexR s = Sym plus :: lexR (s + 2).
Proof.
  intros Hs E1 E2. unfold lexR. rewrite rest_cons by lia. cbn [lex]. rewrite E1. change (is_space gt) with false. change (is_symbol gt) with true.
  cbn [flush app]. rewrite (rest_cons (s + 1)), E2 by lia. change ((gt =? gt) && (gt =? gt)) with true. cbn iota. by replace (s + 1 + 1) with (s + 2) by lia.
Qed.

(** The lexeme at a place with no white space. *)
Lemma lex_at s : s0 ≤ s ≤ es → is_space (m s) = false →
  (s = es ∧ lexR s = []) ∨
  (s < es ∧ is_symbol (m s) = true ∧ ¬ (m s = gt ∧ m (s + 1) = gt) ∧ lexR s = Sym (m s) :: lexR (s + 1)) ∨
  (s + 1 < es ∧ m s = gt ∧ m (s + 1) = gt ∧ lexR s = Sym plus :: lexR (s + 2)) ∨
  (s < es ∧ is_symbol (m s) = false ∧ wchar (m s) = true ∧ let e := skip wchar m s es in
     word s e (ld_bytes m s (e - s)) ∧ lexR s = Word (ld_bytes m s (e - s)) :: lexR e).
Proof.
  intros Hs Hp. destruct (decide (s = es)) as [->|Hne]; [left; unfold lexR; by rewrite rest_es|right]. pose proof (Hline s ltac:(lia)) as Hz.
  destruct (is_symbol (m s)) eqn:Hy.
  - destruct (decide (m s = gt ∧ m (s + 1) = gt)) as [[E1 E2]|Hn]; [right; left|left; split_and!; try done; [lia|by apply lex_symbol; [lia|..]]].
    assert (s + 1 ≠ es) by (intros E; rewrite E, Hend in E2; done). split_and!; try done; [lia|apply lex_append; [lia|done..]].
  - assert (Hw : wchar (m s) = true) by (unfold wchar, is_word, nz; rewrite Hp, Hy, (proj2 (Z.eqb_neq _ _)) by done; done).
    right. right. split; [lia|]. do 2 (split; [done|]). intros e. destruct (skip_spec wchar s ltac:(lia) eq_refl) as (H1 & H2 & H3). fold e in H1, H2, H3.
    assert (s ≠ e) by (intros E; rewrite <-E in H3; congruence). assert (Hword : word s e (ld_bytes m s (e - s))) by (split; [lia|done..]).
    split; [done|]. unfold lexR at 1. rewrite (lex_word [] s e) by (try lia; intros x Hx; apply H2 in Hx; unfold wchar in Hx; by apply andb_true_iff in Hx as [_ Hx]).
    rewrite lex_stop by (lia || done). cbn [app]. rewrite (ld_bytes_cons m s) by lia. done.
Qed.

Lemma skip_ext (P Q : Z → bool) s : s0 ≤ s ≤ es → (∀ x, s0 ≤ x < es → P (m x) = Q (m x)) → skip P m s es = skip Q m s es.
Proof.
  intros Hs HPQ. unfold skip. remember (Z.to_nat (es - s)) as f eqn:Ef. revert s Hs Ef. induction f as [|f IH]; intros s Hs Ef; [done|]. cbn [skip_while].
  rewrite (proj2 (Z.ltb_lt s es)), HPQ by lia. destruct (Q (m s)); [|done]. apply IH; lia.
Qed.

Lemma skip_space s : s0 ≤ s ≤ es → let s' := skip (has_char whitespace) m s es in s ≤ s' ≤ es ∧ is_space (m s') = false ∧ lexR s' = lexR s.
Proof.
  intros Hs. destruct (skip_spec (has_char whitespace) s ltac:(lia) eq_refl) as (H1 & H2 & H3). rewrite has_space in H3. split; [done|]. split; [done|].
  symmetry. apply lex_spaces; [done|]. intros x Hx. rewrite <-has_space. by apply H2.
Qed.

(** The symbols of one character but >. *)
Lemma plain_symbol c : is_symbol c = true → c ≠ gt → (c =? bar) || (c =? lparen) || (c =? rparen) || (c =? semi) || (c =? amp) || (c =? lt) = true.
Proof.
  intros Hy%bool_decide_eq_true Hg. unfold symbols in Hy. repeat (apply elem_of_cons in Hy as [->|Hy]; [done|]). by apply elem_of_nil in Hy.
Qed.

Lemma not_symbol c : is_symbol c = false → (c =? bar) || (c =? lparen) || (c =? rparen) || (c =? semi) || (c =? amp) || (c =? lt) = false ∧ (c =? gt) = false.
Proof.
  intros Hy%bool_decide_eq_false. unfold symbols in Hy. rewrite !elem_of_cons in Hy. rewrite !orb_false_iff, !Z.eqb_neq. naive_solver.
Qed.

Lemma gettoken_spec s : s0 ≤ s ≤ es → let '(r, q, e, s') := gettoken m s es in
  s ≤ s' ≤ es ∧
  match lexR s with
  | [] => r = 0 ∧ lexR s' = []
  | Sym c :: ts => r = c ∧ s < s' ∧ lexR s' = ts
  | Word w :: ts => r = letter_a ∧ s < s' ∧ word q e w ∧ lexR s' = ts
  end.
Proof.
  intros Hs. unfold gettoken. destruct (skip_space s Hs) as (H1 & Hp & El). set (s1 := skip (has_char whitespace) m s es) in *. rewrite <-El. clear El.
  destruct (lex_at s1 ltac:(lia) Hp) as [[-> E]|[(Hl & Hy & Hn & E)|[(Hl & E1 & E2 & E)|(Hl & Hy & Hw & Hword & E)]]]; rewrite E.
  - rewrite Hend. cbn [Z.eqb]. destruct (skip_space es ltac:(lia)) as (H2 & _ & E2). rewrite E in E2. split; [lia|done].
  - rewrite (proj2 (Z.eqb_neq _ _)) by (apply Hline; lia). destruct (skip_space (s1 + 1) ltac:(lia)) as (H2 & _ & E2).
    destruct (decide (m s1 = gt)) as [Eg|Eg].
    + rewrite Eg in *. change (_ || (gt =? lt)) with false. rewrite Z.eqb_refl. cbn iota. rewrite (proj2 (Z.eqb_neq (m (s1 + 1)) gt)) by tauto. split; [lia|]. split_and!; [done|lia|done].
    + rewrite plain_symbol by done. split; [lia|]. split_and!; [done|lia|done].
  - rewrite (proj2 (Z.eqb_neq _ _)) by (apply Hline; lia). rewrite E1, E2. change (_ || (gt =? lt)) with false. rewrite Z.eqb_refl. cbn iota.
    destruct (skip_space (s1 + 2) ltac:(lia)) as (H2 & _ & E3). replace (s1 + 1 + 1) with (s1 + 2) by lia. split; [lia|]. split_and!; [done|lia|done].
  - rewrite (proj2 (Z.eqb_neq _ _)) by (apply Hline; lia). destruct (not_symbol _ Hy) as [-> ->]. cbn [orb].
    rewrite (skip_ext _ wchar s1); [|lia|]. 2:{ intros x Hx. rewrite has_space, has_symbol. unfold wchar, nz. by rewrite (proj2 (Z.eqb_neq _ _)) by (apply Hline; lia). }
    destruct (wd_range _ _ _ Hword) as [Hr1 Hr2]. destruct (skip_space (skip wchar m s1 es) ltac:(lia)) as (H2 & _ & E2). split; [lia|]. split_and!; [done|lia|done|done].
Qed.

(** The first character of the next lexeme is one of [toks]. *)
Definition heads (toks : list Z) (ts : list lexeme) : bool :=
  match ts with Sym c :: _ => bool_decide ((if c =? plus then gt else c) ∈ toks) | _ => false end.

Lemma peek_spec s toks : s0 ≤ s ≤ es → toks ⊆ symbols →
  let '(b, s') := peek m s es toks in s ≤ s' ≤ es ∧ lexR s' = lexR s ∧ b = heads toks (lexR s).
Proof.
  intros Hs Ht. unfold peek. destruct (skip_space s Hs) as (H1 & Hp & El). set (s1 := skip (has_char whitespace) m s es) in *. rewrite <-El.
  split; [lia|]. split; [done|]. rewrite has_char_spec.
  2:{ apply Forall_forall. intros x Hx%Ht ->. by apply (bool_decide_eq_true_2 _) in Hx. }
  destruct (lex_at s1 ltac:(lia) Hp) as [[-> E]|[(Hl & Hy & Hn & E)|[(Hl & E1 & E2 & E)|(Hl & Hy & Hw & Hword & E)]]]; rewrite E; cbn [heads].
  - by rewrite Hend.
  - unfold nz. rewrite (proj2 (Z.eqb_neq _ _)) by (apply Hline; lia). cbn. replace (m s1 =? plus) with false; [done|]. symmetry. apply Z.eqb_neq. intros Ec.
    rewrite Ec in Hy. done.
  - rewrite E1. done.
  - rewrite bool_decide_eq_false_2; [by rewrite andb_false_r|]. intros Hx%Ht. apply bool_decide_eq_false in Hy. done.
Qed.

Lemma next_token_spec s c ts : s0 ≤ s ≤ es → lexR s = Sym c :: ts → s < next_token m s es ≤ es ∧ lexR (next_token m s es) = ts.
Proof.
  intros Hs E. unfold next_token. pose proof (gettoken_spec s Hs) as H. destruct (gettoken m s es) as [[[r q] e] s']. rewrite E in H. cbn.
  destruct H as (? & ? & ? & ?). split; [lia|done].
Qed.

Lemma heads_after c ts : c ≠ gt → c ≠ plus → heads [c] ts = match after c ts with Some _ => true | None => false end.
Proof.
  intros Hg Hp. destruct ts as [|[w|d] ts]; [done..|]. cbn. destruct (Z.eqb_spec d plus) as [->|Hd].
  - rewrite bool_decide_eq_false_2 by set_solver. by rewrite (proj2 (Z.eqb_neq _ _)) by done.
  - destruct (Z.eqb_spec d c) as [->|Hne]; [by rewrite bool_decide_eq_true_2 by set_solver|by rewrite bool_decide_eq_false_2 by set_solver].
Qed.

Lemma heads_redir ts : heads [lt; gt] ts = match ts with Sym c :: _ => match redop_of c with Some _ => true | None => false end | _ => false end.
Proof.
  destruct ts as [|[w|d] ts]; [done..|]. cbn. unfold redop_of. destruct (Z.eqb_spec d plus) as [->|Hd]; [done|].
  destruct (Z.eqb_spec d lt) as [->|Hl]; [done|]. destruct (Z.eqb_spec d gt) as [->|Hg]; [done|]. by rewrite bool_decide_eq_false_2 by set_solver.
Qed.

Lemma heads_stop ts : heads exec_follow ts = match ts with Sym c :: _ => bool_decide (c ∈ exec_follow) | _ => false end.
Proof. destruct ts as [|[w|d] ts]; [done..|]. cbn. by destruct (Z.eqb_spec d plus) as [->|Hd]. Qed.

(** ** Commands on the heap *)

Implicit Types h : list cmd.

Lemma cmd_at_range h c x : cmd_at h c = Some x → 0 < c ≤ Z.of_nat (length h).
Proof. unfold cmd_at. case_match eqn:E; [done|]. intros Hx%lookup_lt_Some. lia. Qed.

Lemma cmd_at_prefix h h' c x : h `prefix_of` h' → cmd_at h c = Some x → cmd_at h' c = Some x.
Proof. unfold cmd_at. intros Hp. case_match; [done|]. intros Hx. by eapply prefix_lookup_Some. Qed.

Lemma cmd_at_new h x : cmd_at (h ++ [x]) (Z.of_nat (length h) + 1) = Some x.
Proof. unfold cmd_at. rewrite (proj2 (Z.leb_gt _ _)) by lia. by rewrite Z.add_simpl_r, Nat2Z.id, list_lookup_middle. Qed.

Lemma cmd_at_insert h c d x : 0 < c → cmd_at h d ≠ None → cmd_at (<[Z.to_nat (c - 1) := x]> h) d = if decide (c = d) then Some x else cmd_at h d.
Proof.
  intros Hc Hd. unfold cmd_at in *. destruct (Z.leb_spec d 0) as [Hl|Hl]; [done|]. case_decide as E.
  - subst. apply list_lookup_insert_eq. apply lookup_lt_is_Some. by apply not_eq_None_Some.
  - apply list_lookup_insert_ne. lia.
Qed.

(** The command [c] on heap [h] is the tree, with [W] for its words. *)
Inductive repr (W : Z → Z → list Z → Prop) (h : list cmd) : Z → tree → Prop :=
| r_exec c argv eargv ws :
    cmd_at h c = Some (EXEC argv eargv) → Z.of_nat (length ws) < MAXARGS → argv (Z.of_nat (length ws)) = 0 →
    (∀ i w, ws !! i = Some w → W (argv (Z.of_nat i)) (eargv (Z.of_nat i)) w) → repr W h c (TExec ws)
| r_redir c sub file efile mode fd t w :
    cmd_at h c = Some (REDIR sub file efile mode fd) → sub < c → W file efile w → repr W h sub t → repr W h c (TRedir t w mode fd)
| r_pipe c l r t u : cmd_at h c = Some (PIPE l r) → l < c → r < c → repr W h l t → repr W h r u → repr W h c (TPipe t u)
| r_list c l r t u : cmd_at h c = Some (LIST l r) → l < c → r < c → repr W h l t → repr W h r u → repr W h c (TList t u)
| r_back c sub t : cmd_at h c = Some (BACK sub) → sub < c → repr W h sub t → repr W h c (TBack t).

Lemma repr_prefix W h h' c t : h `prefix_of` h' → repr W h c t → repr W h' c t.
Proof.
  intros Hp. induction 1; [eapply r_exec|eapply r_redir|eapply r_pipe|eapply r_list|eapply r_back]; first [by eapply cmd_at_prefix|done].
Qed.

Lemma repr_range W h c t : repr W h c t → 0 < c ≤ Z.of_nat (length h).
Proof. destruct 1; by eapply cmd_at_range. Qed.

(** The redirections [rs] around command [c0], of which [c] is the last. *)
Inductive chain (h : list cmd) (c0 : Z) : Z → list redirection → Prop :=
| ch_nil : chain h c0 c0 []
| ch_snoc sub c file efile o f rs :
    chain h c0 sub rs → cmd_at h c = Some (REDIR sub file efile (redop_mode o).1 (redop_mode o).2) → sub < c → word file efile f →
    chain h c0 c (rs ++ [(o, f)]).

Lemma chain_prefix h h' c0 c rs : h `prefix_of` h' → chain h c0 c rs → chain h' c0 c rs.
Proof. intros Hp. induction 1; [constructor|]. eapply ch_snoc; [done|by eapply cmd_at_prefix|done|done]. Qed.

Lemma chain_le h c0 c rs : chain h c0 c rs → c0 ≤ c.
Proof. induction 1; lia. Qed.

Lemma chain_repr h c0 c rs t : chain h c0 c rs → repr word h c0 t → repr word h c (foldl redirect t rs).
Proof.
  induction 1 as [|sub c file efile o f rs Hc IH Hat Hlt Hw]; intros Hr; [done|]. rewrite foldl_app. cbn. unfold redirect at 1. cbn [fst snd].
  eapply r_redir; [done..|]. by apply IH.
Qed.

Lemma chain_insert h c0 c rs x : 0 < c0 → chain h c0 c rs → chain (<[Z.to_nat (c0 - 1) := x]> h) c0 c rs.
Proof.
  intros H0. induction 1 as [|sub c file efile o f rs Hc IH Hat Hlt Hw]; [constructor|]. eapply ch_snoc; [done| |done|done].
  pose proof (chain_le _ _ _ _ Hc). rewrite cmd_at_insert, decide_False by (lia || congruence). done.
Qed.

(** ** Running the parser *)

Context (env : list (shell → shell)).

(** What a parsing function does when the parser on lexemes gives [r]. *)
Definition sim {A B} (r : result A) (Q : A → list lexeme → B → list cmd → Prop) (o : outcome shell B) : Prop :=
  match r with
  | Ok x ts => ∃ b h, o = Ret b env (mkShell m h) ∧ Q x ts b h
  | Err => ∃ msg, o = Panic msg
  | Out => o = NoFuel
  end.

Lemma sim_bind {A B A' B'} (r : result A) (k : A → list lexeme → result A') Q Q' (f : M shell B) (g : B → M shell B') w :
  sim r Q (f env w) → (∀ x ts b h, r = Ok x ts → Q x ts b h → sim (k x ts) Q' (g b env (mkShell m h))) → sim (rbind r k) Q' (bind f g env w).
Proof.
  intros Hr Hk. destruct r as [x ts| |]; cbn in *.
  - destruct Hr as (b & h & E & HQ). rewrite (bind_Ret _ _ _ _ _ _ _ E). by apply Hk.
  - destruct Hr as (msg & E). rewrite (bind_Panic _ _ _ _ _ E). by exists msg.
  - unfold bind. by rewrite Hr.
Qed.

Lemma sim_mono {A B} (r : result A) (Q Q' : A → list lexeme → B → list cmd → Prop) o :
  sim r Q o → (∀ x ts b h, Q x ts b h → Q' x ts b h) → sim r Q' o.
Proof. intros H HQ. destruct r; [|done..]. destruct H as (b & h & E & H). exists b, h. split; [done|by apply HQ]. Qed.

(** The position is in the line and the lexemes that are left are [ts]. *)
Definition at_pos (s : Z) (ts : list lexeme) : Prop := s0 ≤ s ≤ es ∧ lexR s = ts.

Lemma run_mem {B} (k : bytes → M shell B) h : bind (gets sh_mem) k env (mkShell m h) = k m env (mkShell m h).
Proof. done. Qed.

Lemma run_new {B} x (k : Z → M shell B) h : bind (new_cmd x) k env (mkShell m h) = k (Z.of_nat (length h) + 1) env (mkShell m (h ++ [x])).
Proof. done. Qed.

Lemma peek_at s ts toks : at_pos s ts → toks ⊆ symbols → ∃ s', peek m s es toks = (heads toks ts, s') ∧ at_pos s' ts ∧ s ≤ s'.
Proof.
  intros [Hs <-] Ht. pose proof (peek_spec s toks Hs Ht) as H. destruct (peek m s es toks) as [b s']. destruct H as (H1 & H2 & ->).
  exists s'. split; [done|]. split; [split; [lia|done]|lia].
Qed.

Lemma sym_token s c ts : at_pos s (Sym c :: ts) → ∃ q e s', gettoken m s es = (c, q, e, s') ∧ at_pos s' ts ∧ s < s'.
Proof.
  intros [Hs E]. pose proof (gettoken_spec s Hs) as H. destruct (gettoken m s es) as [[[r q] e] s']. rewrite E in H. destruct H as (H1 & -> & H2 & H3).
  exists q, e, s'. split; [done|]. split; [split; [lia|done]|done].
Qed.

Lemma word_token s w ts : at_pos s (Word w :: ts) → ∃ q e s', gettoken m s es = (letter_a, q, e, s') ∧ word q e w ∧ at_pos s' ts ∧ s < s'.
Proof.
  intros [Hs E]. pose proof (gettoken_spec s Hs) as H. destruct (gettoken m s es) as [[[r q] e] s']. rewrite E in H. destruct H as (H1 & -> & H2 & H3 & H4).
  exists q, e, s'. split; [done|]. split; [done|]. split; [split; [lia|done]|done].
Qed.

Lemma no_token s : at_pos s [] → ∃ q e s', gettoken m s es = (0, q, e, s') ∧ at_pos s' [] ∧ s ≤ s'.
Proof.
  intros [Hs E]. pose proof (gettoken_spec s Hs) as H. destruct (gettoken m s es) as [[[r q] e] s']. rewrite E in H. destruct H as (H1 & -> & H2).
  exists q, e, s'. split; [done|]. split; [split; [lia|done]|lia].
Qed.

Lemma skip_token s c ts : at_pos s (Sym c :: ts) → at_pos (next_token m s es) ts ∧ s < next_token m s es.
Proof. intros H. destruct (sym_token s c ts H) as (q & e & s' & E & Hp & Hs). unfold next_token. rewrite E. done. Qed.

(** Lexemes that have been lexed are symbols of the language. *)
Lemma lex_ok l : ∀ w, Forall (λ x, match x with Sym c => c ∈ plus :: symbols | Word _ => True end) (lex w l).
Proof.
  assert (Hfl : ∀ w, Forall (λ x, match x with Sym c => c ∈ plus :: symbols | Word _ => True end) (flush w)) by (intros [|? ?]; repeat constructor).
  induction l as [l IH] using (induction_ltof1 _ length). intros w. destruct l as [|c l]; [apply Hfl|]. cbn [lex].
  assert (IHl : ∀ w, Forall (λ x, match x with Sym c => c ∈ plus :: symbols | Word _ => True end) (lex w l)) by (apply IH; unfold ltof; cbn; lia).
  destruct (is_space c); [by apply Forall_app|]. destruct (is_symbol c) eqn:Ey; [|apply IHl]. apply bool_decide_eq_true in Ey. apply Forall_app. split; [apply Hfl|].
  destruct l as [|c' l]; [constructor; [set_solver|done]|]. case_match; (constructor; [set_solver|]); [|apply IHl].
  apply IH. unfold ltof. cbn. lia.
Qed.

Lemma not_letter s c ts : at_pos s (Sym c :: ts) → c ≠ letter_a ∧ c ≠ 0.
Proof.
  intros [_ E]. pose proof (lex_ok (rest s) []) as H. unfold lexR in E. rewrite E in H. apply Forall_cons in H as [H _].
  split; intros ->; by apply (bool_decide_eq_true_2 _) in H.
Qed.

Lemma parseredirs_sim fuel c0 c s h rs0 ts :
  at_pos s ts → es - s < Z.of_nat fuel → chain h c0 c rs0 → c ≤ Z.of_nat (length h) →
  sim (rredirs ts) (λ rs r b h', h `prefix_of` h' ∧ chain h' c0 b.1 (rs0 ++ rs) ∧ at_pos b.2 r ∧ s ≤ b.2 ∧ b.1 ≤ Z.of_nat (length h'))
    (parseredirs fuel c s es env (mkShell m h)).
Proof.
  revert c s h rs0 ts. induction fuel as [|f IH]; intros c s h rs0 ts Hp Hf Hc Hl; [destruct Hp; lia|]. cbn [parseredirs]. rewrite run_mem.
  destruct (peek_at s ts [lt; gt] Hp) as (s1 & -> & Hp1 & Hs1); [unfold symbols; set_solver|]. rewrite heads_redir.
  assert (Hno : sim (Ok [] ts) (λ rs r b h', h `prefix_of` h' ∧ chain h' c0 b.1 (rs0 ++ rs) ∧ at_pos b.2 r ∧ s ≤ b.2 ∧ b.1 ≤ Z.of_nat (length h')) (ret (c, s1) env (mkShell m h))).
  { exists (c, s1), h. rewrite app_nil_r. done. }
  destruct ts as [|[w|d] ts]; [exact Hno..|]. cbn [rredirs]. destruct (redop_of d) as [o|] eqn:Eo; [|exact Hno]. cbn [negb]. clear Hno.
  destruct (sym_token _ _ _ Hp1) as (q & e & s2 & -> & Hp2 & Hs2). destruct ts as [|[w|d'] ts].
  - destruct (no_token _ Hp2) as (q' & e' & s3 & -> & _). by exists "missing file for redirection"%string.
  - destruct (word_token _ _ _ Hp2) as (q' & e' & s3 & -> & Hw & Hp3 & Hs3). rewrite Z.eqb_refl. cbn [negb]. apply redop_of_Some in Eo as ->.
    assert (Hch : ∀ k : Z → M shell (Z * Z), bind (if redop_sym o =? lt then redircmd c q' e' O_RDONLY 0
            else if redop_sym o =? gt then redircmd c q' e' (Z.lor (Z.lor O_WRONLY O_CREATE) O_TRUNC) 1
            else if redop_sym o =? plus then redircmd c q' e' (Z.lor O_WRONLY O_CREATE) 1 else ret c) k env (mkShell m h) =
            k (Z.of_nat (length h) + 1) env (mkShell m (h ++ [REDIR c q' e' (redop_mode o).1 (redop_mode o).2]))) by (by destruct o).
    rewrite Hch. clear Hch. set (h1 := h ++ _). assert (Hpre : h `prefix_of` h1) by by apply prefix_app_r.
    assert (Hc1 : chain h1 c0 (Z.of_nat (length h) + 1) (rs0 ++ [(o, w)])).
    { eapply ch_snoc; [by eapply chain_prefix|apply cmd_at_new|lia|done]. }
    pose proof (IH _ s3 h1 _ ts Hp3 ltac:(lia) Hc1 ltac:(unfold h1; rewrite length_app; cbn; lia)) as Hsim.
    destruct (rredirs ts) as [rs r| |]; [|done..]. destruct Hsim as (b & h2 & E & H1 & H2 & H3 & H4 & H5). exists b, h2. split; [done|].
    split_and!; [by etrans|by rewrite <-app_assoc in H2|done|lia|done].
  - destruct (not_letter _ _ _ Hp2) as [Hn _]. destruct (sym_token _ _ _ Hp2) as (q' & e' & s3 & -> & _). rewrite (proj2 (Z.eqb_neq _ _)) by done.
    by exists "missing file for redirection"%string.
Qed.

Lemma prefix_insert {A} (h0 h : list A) i x : h0 `prefix_of` h → (length h0 ≤ i)%nat → h0 `prefix_of` <[i := x]> h.
Proof. intros [k ->] Hi. rewrite insert_app_r_alt by done. by apply prefix_app_r. Qed.

Lemma run_set_arg {B} c i q e argv eargv (k : unit → M shell B) h : cmd_at h c = Some (EXEC argv eargv) →
  bind (set_arg c i q e) k env (mkShell m h) = k tt env (mkShell m (<[Z.to_nat (c - 1) := EXEC (<[i := q]> argv) (<[i := e]> eargv)]> h)).
Proof. intros Hc. unfold set_arg. rewrite bind_assoc. cbn. unfold bind at 1, gets. cbn. rewrite Hc. done. Qed.

(** The first words of the command [c0] on the heap. *)
Definition has_args (h : list cmd) (c0 : Z) (ws : list (list Z)) : Prop :=
  ∃ argv eargv, cmd_at h c0 = Some (EXEC argv eargv) ∧ ∀ i w, ws !! i = Some w → word (argv (Z.of_nat i)) (eargv (Z.of_nat i)) w.

Lemma has_args_prefix h h' c0 ws : h `prefix_of` h' → has_args h c0 ws → has_args h' c0 ws.
Proof. intros Hp (argv & eargv & Hc & Hw). exists argv, eargv. split; [by eapply cmd_at_prefix|done]. Qed.

Lemma has_args_snoc h c0 ws argv eargv q e w :
  cmd_at h c0 = Some (EXEC argv eargv) → (∀ i w, ws !! i = Some w → word (argv (Z.of_nat i)) (eargv (Z.of_nat i)) w) → word q e w →
  has_args (<[Z.to_nat (c0 - 1) := EXEC (<[Z.of_nat (length ws) := q]> argv) (<[Z.of_nat (length ws) := e]> eargv)]> h) c0 (ws ++ [w]).
Proof.
  intros Hc Hws Hw. pose proof (cmd_at_range _ _ _ Hc). eexists _, _. split; [rewrite cmd_at_insert, decide_True by (lia || congruence); done|].
  intros i w' Hi. destruct (decide (i = length ws)) as [->|Hne].
  - rewrite list_lookup_middle in Hi by done. injection Hi as <-. by rewrite !fn_lookup_insert.
  - rewrite !fn_lookup_insert_ne by lia. apply Hws. rewrite lookup_app_l in Hi; [done|]. apply lookup_lt_Some in Hi. rewrite length_app in Hi. cbn in Hi. lia.
Qed.

(** What exec_loop leaves: the command with its words and its redirections. *)
Definition built (h0 : list cmd) (c0 : Z) (ws : list (list Z)) (rs : list redirection) (ts : list lexeme) (b : Z * Z * Z) (h : list cmd) : Prop :=
  h0 `prefix_of` h ∧ has_args h c0 ws ∧ chain h c0 b.1.1 rs ∧ b.1.1 ≤ Z.of_nat (length h) ∧ b.1.2 = Z.of_nat (length ws) ∧ at_pos b.2 ts.

Lemma exec_loop_sim f c0 r s h h0 ws0 rs0 ts :
  at_pos s ts → Z.of_nat (S f + length ws0) = MAXARGS → Z.of_nat (length h0) < c0 → built h0 c0 ws0 rs0 ts (r, Z.of_nat (length ws0), s) h →
  sim (rargs f ts) (λ ws rr b h', built h0 c0 (ws0 ++ ws.*1) (rs0 ++ mjoin ws.*2) rr b h' ∧ s ≤ b.2)
    (exec_loop (S f) c0 r (Z.of_nat (length ws0)) s es env (mkShell m h)).
Proof.
  revert r s h ws0 rs0 ts. induction f as [f IH] using lt_wf_ind. intros r s h ws0 rs0 ts Hp Hf H0 Hb. cbn [exec_loop]. rewrite run_mem.
  destruct (peek_at s ts exec_follow Hp) as (s1 & Ep & Hp1 & Hs1); [unfold symbols, exec_follow; set_solver|]. unfold exec_follow in Ep. rewrite Ep. clear Ep.
  fold exec_follow. rewrite heads_stop. destruct Hb as (Hpre & Harg & Hch & Hr & _ & _). cbn [fst snd] in *.
  assert (Hstop : ∀ s2, at_pos s2 ts → s ≤ s2 → sim (Ok [] ts) (λ ws rr b h', built h0 c0 (ws0 ++ ws.*1) (rs0 ++ mjoin ws.*2) rr b h' ∧ s ≤ b.2) (ret (r, Z.of_nat (length ws0), s2) env (mkShell m h))).
  { intros s2 Hp2 Hs2. eexists _, h. split; [done|]. cbn. rewrite !app_nil_r. done. }
  destruct ts as [|[w|d] ts].
  - destruct (no_token _ Hp1) as (q & e & s2 & -> & Hp2 & Hs2). rewrite Z.eqb_refl. destruct f; (apply Hstop; [done|lia]).
  - destruct (word_token _ _ _ Hp1) as (q & e & s2 & -> & Hw & Hp2 & Hs2). change (letter_a =? 0) with false. rewrite Z.eqb_refl. cbn [negb].
    destruct Harg as (argv & eargv & Hc & Hws). rewrite (run_set_arg _ _ _ _ _ _ _ _ Hc). pose proof (cmd_at_range _ _ _ Hc) as Hrange.
    pose proof (has_args_snoc _ _ _ _ _ _ _ _ Hc Hws Hw) as Harg'. set (h1 := <[_ := _]> h) in *.
    unfold MAXARGS in Hf. rewrite Z.geb_leb. destruct f as [|f].
    + rewrite (proj2 (Z.leb_le MAXARGS _)) by (unfold MAXARGS; lia). by exists "too many args"%string.
    + rewrite (proj2 (Z.leb_gt MAXARGS _)) by (unfold MAXARGS; lia). cbn [rargs].
      assert (Hch1 : chain h1 c0 r rs0) by (apply chain_insert; [lia|done]).
      eapply sim_bind; [apply (parseredirs_sim _ c0 r s2 h1 rs0 ts); [done|unfold redir_fuel; lia|done|unfold h1; by rewrite length_insert]|].
      intros rs rr [r' s3] h2 _ (Hpre2 & Hch2 & Hp3 & Hs3 & Hr2). cbn [fst snd] in *.
      replace (Z.of_nat (length ws0) + 1) with (Z.of_nat (length (ws0 ++ [w]))) by (rewrite length_app; cbn; lia).
      assert (Hpre1 : h0 `prefix_of` h1) by (apply prefix_insert; [done|lia]).
      assert (Hb2 : built h0 c0 (ws0 ++ [w]) (rs0 ++ rs) rr (r', Z.of_nat (length (ws0 ++ [w])), s3) h2).
      { split_and!; cbn; [by etrans|by eapply has_args_prefix|done|done|done|apply Hp3..]. }
      pose proof (IH f ltac:(lia) r' s3 h2 (ws0 ++ [w]) (rs0 ++ rs) rr Hp3 ltac:(rewrite length_app; unfold MAXARGS; cbn; lia) H0 Hb2) as Hs.
      destruct (rargs f rr) as [ws rr'| |]; [|done..]. destruct Hs as (b & h3 & E & Hb3 & Hs4).
      exists b, h3. split; [done|]. rewrite <-!app_assoc in Hb3. split; [exact Hb3|lia].
  - case_bool_decide as Hd; [destruct f; cbn [rargs]; (rewrite bool_decide_eq_true_2 by exact Hd); by apply Hstop|].
    destruct (not_letter _ _ _ Hp1) as [Hn1 Hn2]. destruct (sym_token _ _ _ Hp1) as (q & e & s2 & -> & _).
    rewrite (proj2 (Z.eqb_neq d 0)), (proj2 (Z.eqb_neq d letter_a)) by done. destruct f; cbn [rargs]; (rewrite bool_decide_eq_false_2 by exact Hd); by eexists.
Qed.

(** What a parsing function leaves that starts at [s] with heap [h]. *)
Definition parsed (s : Z) (h : list cmd) (t : tree) (ts : list lexeme) (b : Z * Z) (h' : list cmd) : Prop :=
  h `prefix_of` h' ∧ repr word h' b.1 t ∧ at_pos b.2 ts ∧ s ≤ b.2.

Lemma parsesimple_sim s h ts : at_pos s ts → sim (rsimple ts) (parsed s h) (parsesimple s es env (mkShell m h)).
Proof.
  intros Hp. unfold parsesimple, execcmd. rewrite run_new. set (c := Z.of_nat (length h) + 1). set (h1 := h ++ _).
  assert (Hc : cmd_at h1 c = Some (EXEC zeroes zeroes)) by apply cmd_at_new. unfold rsimple.
  eapply sim_bind; [apply (parseredirs_sim _ c c s h1 [] ts); [done|unfold redir_fuel; lia|constructor|unfold h1, c; rewrite length_app; cbn; lia]|].
  intros rs rr [r s1] h2 _ (Hpre & Hch & Hp1 & Hs1 & Hr). cbn [fst snd app] in *.
  assert (Hpre1 : h `prefix_of` h1) by by apply prefix_app_r.
  assert (Hb : built h c [] rs rr (r, 0, s1) h2).
  { split_and!; cbn; [by etrans| |done|done|done|apply Hp1..]. exists zeroes, zeroes. split; [by eapply cmd_at_prefix|done]. }
  change (Z.to_nat MAXARGS) with 10%nat. change (10 - 1)%nat with 9%nat.
  eapply sim_bind; [apply (exec_loop_sim 9 c r s1 h2 h [] rs rr Hp1 eq_refl ltac:(unfold c; lia) Hb)|].
  intros ws rr' [[r' argc] s2] h3 [_ Hlen]%rargs_sound [(Hpre3 & (argv & eargv & Hc3 & Hw3) & Hch3 & Hr3 & Ea & Hp3) Hs3]. cbn [fst snd app] in *. subst argc.
  rewrite (run_set_arg _ _ _ _ _ _ _ _ Hc3). set (h4 := <[_ := _]> h3). eexists _, h4. split; [done|]. pose proof (cmd_at_range _ _ _ Hc3) as Hrange.
  split_and!; cbn [fst snd]; [by apply prefix_insert; [|unfold c; lia]| |apply Hp3..|lia].
  apply (chain_repr _ c); [apply chain_insert; [lia|done]|].
  eapply r_exec; [unfold h4; rewrite cmd_at_insert, decide_True by (lia || congruence); done| |apply fn_lookup_insert|].
  - rewrite length_fmap. unfold MAXARGS. lia.
  - intros i w Hi. pose proof (lookup_lt_Some _ _ _ Hi). rewrite !fn_lookup_insert_ne by lia. by apply Hw3.
Qed.

Lemma back_loop_sim fuel c s h t ts k r :
  at_pos s ts → es - s < Z.of_nat fuel → repr word h c t → ramps ts = (k, r) →
  ∃ b h', back_loop fuel c s es env (mkShell m h) = Ret b env (mkShell m h') ∧ parsed s h (Nat.iter k TBack t) r b h'.
Proof.
  revert c s h t ts k. induction fuel as [|f IH]; intros c s h t ts k Hp Hf Hr Hk; [destruct Hp; lia|]. cbn [back_loop]. rewrite run_mem.
  destruct (peek_at s ts [amp] Hp) as (s1 & -> & Hp1 & Hs1); [unfold symbols; set_solver|]. rewrite heads_after by done.
  destruct (after amp ts) as [ts'|] eqn:Ea.
  - apply after_Some in Ea as ->. cbn [ramps] in Hk. rewrite Z.eqb_refl in Hk. destruct (ramps ts') as [k' r'] eqn:Ek. injection Hk as <- <-.
    cbn [negb]. destruct (skip_token _ _ _ Hp1) as [Hp2 Hs2]. unfold backcmd. rewrite run_new. set (h1 := h ++ _).
    assert (Hr1 : repr word h1 (Z.of_nat (length h) + 1) (TBack t)).
    { pose proof (repr_range _ _ _ _ Hr). eapply r_back; [apply cmd_at_new|lia|eapply repr_prefix; [by apply prefix_app_r|done]]. }
    destruct (IH _ _ h1 (TBack t) ts' k' Hp2 ltac:(lia) Hr1 Ek) as (b & h2 & E & Hpre & Hr2 & Hp3 & Hs3).
    exists b, h2. split; [exact E|]. split_and!; [etrans; [by apply prefix_app_r|done]| |apply Hp3..|lia]. by rewrite Nat.iter_succ_r.
  - assert (k = O ∧ r = ts) as [-> ->]. { destruct ts as [|[w|d] ts]; cbn in *; [naive_solver..|]. destruct (d =? amp); naive_solver. }
    exists (c, s1), h. split; [done|]. split_and!; cbn; [done|done|apply Hp1..|lia].
Qed.

Lemma parsed_trans s s' h h' t ts b h'' : h `prefix_of` h' → s ≤ s' → parsed s' h' t ts b h'' → parsed s h t ts b h''.
Proof. intros Hp Hs (H1 & H2 & H3 & H4). split_and!; [by etrans|done|apply H3..|lia]. Qed.

(** Two commands, and a new one that holds them. *)
Lemma repr_pair h h' c d t u x : h `prefix_of` h' → repr word h c t → repr word h' d u →
  repr word (h' ++ [x]) c t ∧ repr word (h' ++ [x]) d u ∧ c < Z.of_nat (length h') + 1 ∧ d < Z.of_nat (length h') + 1.
Proof.
  intros Hp Hc Hd. pose proof (repr_range _ _ _ _ Hc). pose proof (repr_range _ _ _ _ Hd). pose proof (prefix_length _ _ Hp).
  split_and!; [|apply (repr_prefix word h'); [by apply prefix_app_r|done]|lia..]. eapply repr_prefix; [|done]. etrans; [done|by apply prefix_app_r].
Qed.

Lemma parse_sim n : ∀ s h ts, at_pos s ts →
  sim (rline n ts) (parsed s h) (parseline n s es env (mkShell m h)) ∧ sim (rpipe n ts) (parsed s h) (parsepipe n s es env (mkShell m h)) ∧
  sim (rexec n ts) (parsed s h) (parseexec n s es env (mkShell m h)) ∧
  ∀ ts', ts = Sym lparen :: ts' → sim (rblock n ts') (parsed s h) (parseblock n s es env (mkShell m h)).
Proof.
  induction n as [|n IH]; [done|]. intros s h ts Hp. split_and!.
  - cbn [rline parseline]. eapply sim_bind; [by apply IH|]. intros t r [c s1] h1 _ (Hpre & Hr & Hp1 & Hs1). cbn [fst snd] in *.
    destruct (ramps r) as [k r1] eqn:Ek. destruct (back_loop_sim (redir_fuel s1 es) c s1 h1 t r k r1 Hp1 ltac:(unfold redir_fuel; lia) Hr Ek) as ([c2 s2] & h2 & E & Hpre2 & Hr2 & Hp2 & Hs2).
    rewrite (bind_Ret _ _ _ _ _ _ _ E). cbn [fst snd] in *. rewrite run_mem. destruct (peek_at s2 r1 [semi] Hp2) as (s3 & -> & Hp3 & Hs3); [unfold symbols; set_solver|].
    rewrite heads_after by done. destruct (after semi r1) as [r2|] eqn:Es; cbn [negb].
    + apply after_Some in Es as ->. destruct (skip_token _ _ _ Hp3) as [Hp4 Hs4]. eapply sim_bind; [apply (IH _ h2 _ Hp4)|].
      intros u r' [c5 s5] h5 _ (Hpre5 & Hr5 & Hp5 & Hs5). cbn [fst snd] in *. unfold listcmd. rewrite run_new. eexists _, _. split; [done|].
      destruct (repr_pair h2 h5 _ _ _ _ (LIST c2 c5) Hpre5 Hr2 Hr5) as (Ht & Hu & Hlt & Hlu).
      split_and!; cbn; [etrans; [done|]; etrans; [done|]; etrans; [done|by apply prefix_app_r]| |apply Hp5..|lia].
      by eapply r_list; [apply cmd_at_new|..].
    + eexists _, h2. split; [done|]. split_and!; cbn; [by etrans|done|apply Hp3..|lia].
  - cbn [rpipe parsepipe]. eapply sim_bind; [by apply IH|]. intros t r [c s1] h1 _ (Hpre & Hr & Hp1 & Hs1). cbn [fst snd] in *.
    rewrite run_mem. destruct (peek_at s1 r [bar] Hp1) as (s3 & -> & Hp3 & Hs3); [unfold symbols; set_solver|].
    rewrite heads_after by done. destruct (after bar r) as [r2|] eqn:Es; cbn [negb].
    + apply after_Some in Es as ->. destruct (skip_token _ _ _ Hp3) as [Hp4 Hs4]. eapply sim_bind; [apply (IH _ h1 _ Hp4)|].
      intros u r' [c5 s5] h5 _ (Hpre5 & Hr5 & Hp5 & Hs5). cbn [fst snd] in *. unfold pipecmd. rewrite run_new. eexists _, _. split; [done|].
      destruct (repr_pair h1 h5 _ _ _ _ (PIPE c c5) Hpre5 Hr Hr5) as (Ht & Hu & Hlt & Hlu).
      split_and!; cbn; [etrans; [done|]; etrans; [done|by apply prefix_app_r]| |apply Hp5..|lia].
      by eapply r_pipe; [apply cmd_at_new|..].
    + eexists _, h1. split; [done|]. split_and!; cbn; [done|done|apply Hp3..|lia].
  - cbn [rexec parseexec]. rewrite run_mem. destruct (peek_at s ts [lparen] Hp) as (s1 & -> & Hp1 & Hs1); [unfold symbols; set_solver|].
    rewrite heads_after by done. destruct (after lparen ts) as [ts'|] eqn:Es.
    + apply after_Some in Es as ->. destruct (IH s1 h _ Hp1) as (_ & _ & _ & Hb). eapply sim_mono; [by apply Hb|]. intros ? ? ? ?. by apply parsed_trans.
    + eapply sim_mono; [by apply parsesimple_sim|]. intros ? ? ? ?. by apply parsed_trans.
  - intros ts' ->. cbn [rblock parseblock]. rewrite run_mem. destruct (peek_at s _ [lparen] Hp) as (s1 & -> & Hp1 & Hs1); [unfold symbols; set_solver|].
    rewrite heads_after by done. cbn [after]. rewrite Z.eqb_refl. cbn [negb]. destruct (skip_token _ _ _ Hp1) as [Hp2 Hs2].
    eapply sim_bind; [apply (IH _ h _ Hp2)|]. intros t r [c s3] h1 _ (Hpre & Hr & Hp3 & Hs3). cbn [fst snd] in *. rewrite run_mem.
    destruct (peek_at s3 r [rparen] Hp3) as (s4 & -> & Hp4 & Hs4); [unfold symbols; set_solver|]. rewrite heads_after by done.
    destruct (after rparen r) as [r2|] eqn:Es; cbn [negb]; [|by eexists]. apply after_Some in Es as ->. destruct (skip_token _ _ _ Hp4) as [Hp5 Hs5].
    pose proof (repr_range _ _ _ _ Hr). set (s5 := next_token m s4 es) in *.
    pose proof (parseredirs_sim (redir_fuel s5 es) c c s5 h1 [] r2 Hp5 ltac:(unfold redir_fuel; lia) (ch_nil _ _) ltac:(lia)) as Hsim.
    destruct (rredirs r2) as [rs r3| |]; [|done..]. destruct Hsim as (b & h2 & E & H1 & H2 & H3 & H4 & _). eexists b, h2. split; [done|].
    split_and!; [by etrans| |apply H3..|lia]. eapply chain_repr; [exact H2|by eapply repr_prefix].
Qed.

(** ** nulterminate *)

(** Zeroes have been written from [m1] to [m2], and not into words. *)
Definition zeroed (m1 m2 : bytes) : Prop := ∀ x, m2 x = m1 x ∨ (m2 x = 0 ∧ wchar (m x) = false).

Lemma zeroed_refl m1 : zeroed m1 m1.
Proof. by left. Qed.

Lemma zeroed_trans m1 m2 m3 : zeroed m1 m2 → zeroed m2 m3 → zeroed m1 m3.
Proof. intros H1 H2 x. destruct (H2 x) as [->|]; [apply H1|by right]. Qed.

Lemma zeroed_zero m1 m2 x : zeroed m1 m2 → m1 x = 0 → m2 x = 0.
Proof. intros H Hx. destruct (H x) as [->|[-> _]]; done. Qed.

(** A word that has been ended. *)
Definition ended (m' : bytes) (q e : Z) (w : list Z) : Prop := word q e w ∧ m' e = 0.

Lemma repr_impl (W W' : Z → Z → list Z → Prop) h c t : (∀ q e w, W q e w → W' q e w) → repr W h c t → repr W' h c t.
Proof.
  intros HW. induction 1; [eapply r_exec|eapply r_redir|eapply r_pipe|eapply r_list|eapply r_back]; first [done|by auto|idtac].
Qed.

Lemma put_nul_run {B} (k : unit → M shell B) e m1 h : bind (put_nul e) k env (mkShell m1 h) = k tt env (mkShell (<[e := 0]> m1) h).
Proof. done. Qed.

Lemma zeroed_put q e w m1 : word q e w → zeroed m1 (<[e := 0]> m1).
Proof. intros Hw x. rewrite fn_lookup_insert_if. case_decide as E; [subst; right; split; [done|by apply (wd_end _ _ _ Hw)]|by left]. Qed.

Lemma nul_args_run l : ∀ fuel argv eargv i m1 h, (length l < fuel)%nat → argv (i + Z.of_nat (length l)) = 0 →
  (∀ j w, l !! j = Some w → word (argv (i + Z.of_nat j)) (eargv (i + Z.of_nat j)) w) →
  ∃ m2, nul_args fuel argv eargv i env (mkShell m1 h) = Ret tt env (mkShell m2 h) ∧ zeroed m1 m2 ∧ ∀ j w, l !! j = Some w → m2 (eargv (i + Z.of_nat j)) = 0.
Proof.
  induction l as [|w l IH]; intros [|fuel] argv eargv i m1 h Hf H0 Hw; cbn [length] in *; try lia; cbn [nul_args].
  - rewrite Z.add_0_r in H0. rewrite H0, Z.eqb_refl. exists m1. split; [done|]. split; [apply zeroed_refl|done].
  - pose proof (Hw O w eq_refl) as Hw0. rewrite Z.add_0_r in Hw0. destruct (wd_range _ _ _ Hw0) as [Hr _].
    rewrite (proj2 (Z.eqb_neq _ _)), put_nul_run by lia.
    destruct (IH fuel argv eargv (i + 1) (<[eargv i := 0]> m1) h) as (m2 & E & Hz & Hj); [lia|by replace (i + 1 + Z.of_nat (length l)) with (i + Z.of_nat (S (length l))) by lia|..].
    { intros j w' Hj. specialize (Hw (S j) w' Hj). by replace (i + 1 + Z.of_nat j) with (i + Z.of_nat (S j)) by lia. }
    exists m2. split; [done|]. split; [eapply zeroed_trans; [by eapply zeroed_put|done]|]. intros [|j] w' Hj'.
    + rewrite Z.add_0_r. eapply zeroed_zero; [exact Hz|apply fn_lookup_insert].
    + replace (i + Z.of_nat (S j)) with (i + 1 + Z.of_nat j) by lia. by eapply Hj.
Qed.

Lemma nulterminate_run h c t : repr word h c t → ∀ fuel m1, c < Z.of_nat fuel →
  ∃ m2, nulterminate fuel c env (mkShell m1 h) = Ret tt env (mkShell m2 h) ∧ zeroed m1 m2 ∧ repr (ended m2) h c t.
Proof.
  assert (Hmono : ∀ m1 m2 h c t, zeroed m1 m2 → repr (ended m1) h c t → repr (ended m2) h c t).
  { intros m1 m2 h' c' t' Hz. apply repr_impl. intros q e w [Hw He]. split; [done|]. by eapply zeroed_zero. }
  assert (Hstep : ∀ fuel c x m1 h, cmd_at h c = Some x → c < Z.of_nat fuel → ∃ f, fuel = S f ∧ (∀ d, d < c → d < Z.of_nat f) ∧
    nulterminate (S f) c env (mkShell m1 h) = match x with EXEC argv eargv => nul_args (Z.to_nat MAXARGS) argv eargv 0 | REDIR sub file efile mode fd => nulterminate f sub ;; put_nul efile
      | PIPE l r => nulterminate f l ;; nulterminate f r | LIST l r => nulterminate f l ;; nulterminate f r | BACK sub => nulterminate f sub end env (mkShell m1 h)).
  { intros fuel c' x m1 h' Hc Hf. pose proof (cmd_at_range _ _ _ Hc). destruct fuel as [|f]; [lia|]. exists f. split; [done|]. split; [lia|]. cbn [nulterminate].
    rewrite (proj2 (Z.eqb_neq _ _)) by lia. unfold bind at 1, gets. cbn [sh_heap]. rewrite Hc. by destruct x. }
  induction 1 as [c argv eargv ws Hc Hl H0 Hw|c sub file efile mode fd t w Hc Hlt Hw Hr IH|c l r t u Hc Hll Hlr Ht IHt Hu IHu|c l r t u Hc Hll Hlr Ht IHt Hu IHu|c sub t Hc Hlt Hr IH];
    intros fuel m1 Hf; destruct (Hstep fuel c _ m1 h Hc Hf) as (f & -> & Hd & ->).
  - destruct (nul_args_run ws (Z.to_nat MAXARGS) argv eargv 0 m1 h) as (m2 & E & Hz & Hj); [unfold MAXARGS in *; lia|done|done|].
    exists m2. split; [done|]. split; [done|]. eapply r_exec; [done..|]. intros i w Hi. split; [by apply Hw|by eapply Hj].
  - destruct (IH f m1 (Hd sub Hlt)) as (m2 & E & Hz & Hr2). rewrite (bind_Ret _ _ _ _ _ _ _ E). assert (Hz2 : zeroed m2 (<[efile := 0]> m2)) by by eapply zeroed_put.
    eexists. split; [done|]. split; [by eapply zeroed_trans|]. eapply r_redir; [done..|split; [done|apply fn_lookup_insert]|by eapply Hmono].
  - destruct (IHt f m1 (Hd l Hll)) as (m2 & E & Hz & Hr2). rewrite (bind_Ret _ _ _ _ _ _ _ E). destruct (IHu f m2 (Hd r Hlr)) as (m3 & E3 & Hz3 & Hr3).
    exists m3. split; [done|]. split; [by eapply zeroed_trans|]. eapply r_pipe; [done..|by eapply Hmono|done].
  - destruct (IHt f m1 (Hd l Hll)) as (m2 & E & Hz & Hr2). rewrite (bind_Ret _ _ _ _ _ _ _ E). destruct (IHu f m2 (Hd r Hlr)) as (m3 & E3 & Hz3 & Hr3).
    exists m3. split; [done|]. split; [by eapply zeroed_trans|]. eapply r_list; [done..|by eapply Hmono|done].
  - destruct (IH f m1 (Hd sub Hlt)) as (m2 & E & Hz & Hr2). exists m2. split; [done|]. split; [done|]. by eapply r_back.
Qed.
Lemma peek_end s ts : at_pos s ts → ((peek m s es []).2 =? es) = match ts with [] => true | _ => false end.
Proof.
  intros [Hs <-]. unfold peek. cbn [snd]. destruct (skip_space s Hs) as (Hr & Hp & <-). set (s1 := skip _ _ _ _) in *.
  destruct (lex_at s1 ltac:(lia) Hp) as [[E ->]|[(Hl & _ & _ & ->)|[(Hl & _ & _ & ->)|(Hl & _ & _ & _ & ->)]]]; [by apply Z.eqb_eq|apply Z.eqb_neq; lia..].
Qed.
End Line.

Lemma lex_length l : ∀ w, (length (lex w l) ≤ length (flush w) + length l)%nat.
Proof.
  induction l as [l IH] using (induction_ltof1 _ length). intros w. destruct l as [|c l]; cbn [lex]; [lia|]. cbn [length].
  pose proof (IH l ltac:(unfold ltof; cbn; lia)) as IHl. destruct (is_space c).
  { rewrite length_app. specialize (IHl []). cbn in IHl. lia. }
  destruct (is_symbol c).
  - rewrite length_app. specialize (IHl []). cbn in IHl. destruct l as [|c' l]; [cbn; lia|]. case_match; cbn [length] in *; [|lia].
    pose proof (IH l ltac:(unfold ltof; cbn; lia) []) as H2. cbn in H2. lia.
  - specialize (IHl (w ++ [c])). assert (length (flush (w ++ [c])) = 1%nat) as E by (by destruct w). rewrite E in IHl. lia.
Qed.

(** [q] points to the string [w], of at most [n] characters. *)
Definition arg_string (m : bytes) (n : nat) (q e : Z) (w : list Z) : Prop := q ≠ 0 ∧ cstring m q w ∧ (length w ≤ n)%nat.

(** A word that has been ended is a string. *)
Lemma ended_string m s0 es m' q e w : 0 < s0 → zeroed m m m' → ended m s0 es m' q e w → arg_string m' (Z.to_nat (es - s0)) q e w.
Proof.
  intros H0 Hz [[[Hr1 Hr2] -> Hc _] He]. split; [lia|]. split; [|rewrite ld_bytes_length; lia].
  assert (Hlen : Z.of_nat (length (ld_bytes m q (e - q))) = e - q) by (rewrite ld_bytes_length; lia).
  assert (Hat : ∀ k c, ld_bytes m q (e - q) !! k = Some c → q + Z.of_nat k < e ∧ m (q + Z.of_nat k) = c).
  { intros k c Hk. pose proof (lookup_lt_Some _ _ _ Hk) as Hlt. unfold ld_bytes in Hk. rewrite list_lookup_fmap, lookup_seqZ_lt in Hk by lia.
    cbn in Hk. injection Hk as Hk. split; [lia|done]. }
  split_and!.
  - intros k c [Hk <-]%Hat. destruct (Hz (q + Z.of_nat k)) as [E|[_ E]]; [done|]. rewrite Hc in E by lia. done.
  - apply Forall_lookup. intros k c [Hk <-]%Hat. specialize (Hc (q + Z.of_nat k) ltac:(lia)). unfold wchar, nz in Hc. destruct (Z.eqb_spec (m (q + Z.of_nat k)) 0); done.
  - rewrite Hlen. by replace (q + (e - q)) with e by lia.
Qed.

Lemma parsecmd_run env len m h s l :
  cstring m s l → 0 < s → (length l < len)%nat →
  (∃ t c m' h', gline (lex [] l) t ∧ (∀ u, gline (lex [] l) u → u = t) ∧
    parsecmd len s env (mkShell m h) = Ret c env (mkShell m' h') ∧ repr (arg_string m' (length l)) h' c t) ∨
  ((∀ t, ¬ gline (lex [] l) t) ∧ ∃ msg, parsecmd len s env (mkShell m h) = Panic msg).
Proof.
  intros Hc H0 Hlen. set (es := s + Z.of_nat (length l)).
  assert (A1 : 0 < s ≤ es) by (unfold es; lia). assert (A2 : m es = 0) by apply Hc. assert (A3 : ∀ x, s ≤ x < es → m x ≠ 0) by (intros; by apply (cstring_at _ _ _ _ Hc)).
  assert (Hp : at_pos m s es s (lex [] l)).
  { split; [lia|]. unfold lexR, rest. replace (es - s) with (Z.of_nat (length l)) by (unfold es; lia). by rewrite cstring_rest. }
  unfold parsecmd. rewrite run_mem, (cstring_strlen _ _ _ _ Hc Hlen). fold es.
  destruct (parse_sim m s es A1 A2 A3 env (line_fuel s es) s h _ Hp) as (Hsim & _). pose proof (lex_length l []) as Hll. cbn in Hll.
  destruct (rline_decides (lex [] l) (line_fuel s es)) as [(t & E & Hg & Hu)|[Hbad Hno]]; [unfold line_fuel, es; lia|left|right].
  - rewrite E in Hsim. destruct Hsim as ([c s1] & h1 & E1 & Hpre & Hr & Hp1 & _). cbn [fst snd] in *. rewrite (bind_Ret _ _ _ _ _ _ _ E1). cbn [fst snd].
    pose proof (peek_end m s es A2 A3 s1 [] Hp1) as Hpe. destruct (peek m s1 es []) as [b s2]. cbn [snd] in Hpe. rewrite Hpe. cbn [negb].
    pose proof (repr_range _ _ _ _ Hr) as Hrg. destruct (nulterminate_run m s es A1 env h1 c t Hr (S (length h1)) m ltac:(lia)) as (m2 & E2 & Hz & Hr2).
    exists t, c, m2, h1. split_and!; [done..| |].
    + unfold bind at 1, gets. cbn [sh_heap]. by rewrite (bind_Ret _ _ _ _ _ _ _ E2).
    + eapply repr_impl; [|exact Hr2]. intros q e w He. replace (length l) with (Z.to_nat (es - s)) by (unfold es; lia). by eapply ended_string.
  - split; [done|]. destruct Hbad as [E|(t & r & E & Hr)]; rewrite E in Hsim.
    + destruct Hsim as [msg Em]. exists msg. by rewrite (bind_Panic _ _ _ _ _ Em).
    + destruct Hsim as ([c s1] & h1 & E1 & _ & _ & Hp1 & _). cbn [fst snd] in *. rewrite (bind_Ret _ _ _ _ _ _ _ E1). cbn [fst snd].
      pose proof (peek_end m s es A2 A3 s1 r Hp1) as Hpe. destruct (peek m s1 es []) as [b s2]. cbn [snd] in Hpe. rewrite Hpe. destruct r; [done|]. by eexists.
Qed.

Module Parser.
(** C11: the shell accepts exactly the lines of its grammar.  For a line with a
    derivation, which is then unique, parsecmd returns a command on the heap that
    represents the derived tree, the words of which are strings in memory, each
    ended by a NUL; for any other line it ends with an error message.  It always
    comes to an end. *)
Theorem parsecmd_parses env len m h s l :
  cstring m s l → 0 < s → (length l < len)%nat →
  (∃ t c m' h', gline (lex [] l) t ∧ (∀ u, gline (lex [] l) u → u = t) ∧
    parsecmd len s env (mkShell m h) = Ret c env (mkShell m' h') ∧ repr (arg_string m' (length l)) h' c t) ∨
  ((∀ t, ¬ gline (lex [] l) t) ∧ ∃ msg, parsecmd len s env (mkShell m h) = Panic msg).
Proof. apply parsecmd_run. Qed.

(** "a b>c|d&" at address 64. *)
Lemma parsecmd_parses_witness :
  let l := [97; 32; 98; 62; 99; 124; 100; 38] in let m := λ x, string_bytes l (x - 64) in
  (∃ t c m' h', gline (lex [] l) t ∧ (∀ u, gline (lex [] l) u → u = t) ∧
    parsecmd 100 64 [] (mkShell m []) = Ret c [] (mkShell m' h') ∧ repr (arg_string m' (length l)) h' c t) ∨
  ((∀ t, ¬ gline (lex [] l) t) ∧ ∃ msg, parsecmd 100 64 [] (mkShell m []) = Panic msg).
Proof.
  intros l m. apply parsecmd_parses; [|done|cbn; lia]. split_and!; [|repeat constructor; done|done].
  intros k d Hk. repeat (destruct k as [|k]; [cbn in Hk; injection Hk as <-; done|]). done.
Defined.
End Parser.
