(* ===== verification/ShRun.v ===== *)
(** * What the shell runs

    The system calls of the shell's processes are given a meaning on tables of
    descriptors, by what the kernel promises: open, dup and pipe take the lowest
    descriptors that are free, and a child has a copy of its parent's table.  The
    processes that come out are those of the command that the line stands for,
    each with the right descriptors. *)

From S2P Require Import Prelude Types StringC UserLib Sh ShGrammar ShProps.

(** ** Descriptors and processes *)

(** An open file, an end of the pipe with a name, or something inherited. *)
Inductive ofile := OFile (path : list Z) (mode : Z) | OPipe (name : list nat) (writable : bool) | OInherited (n : Z).

Abbreviation fdtable := (Z → option ofile).

(** What the kernel may refuse; a process is named by the forks that lead to
    it. *)
Record kernel := {
  k_open : list Z → Z → bool;
  k_exec : list (list Z) → bool;
  k_fork : list nat → bool;
  k_pipe : list nat → bool
}.

(** The processes that come out. *)
Inductive job :=
| JExit (status : Z)
| JExec (argv : list (list Z)) (fds : fdtable)
| JFork (child parent : job)
| JWait (k : job)
| JChdir (path : list Z) (k : job)
| JFault.

Definition is_free (fds : fdtable) (fd : Z) : bool := match fds fd with None => true | Some _ => false end.
Definition lowest_free (fds : fdtable) : option Z := List.find (is_free fds) (seqZ 0 NOFILE).

Fixpoint run (K : kernel) (p : list nat) (fds : fdtable) (x : prog) : job :=
  match x with
  | PExit n => JExit n
  | PExec argv fails => if k_exec K argv then JExec argv fds else run K p fds fails
  | PClose fd k => run K p (<[fd := None]> fds) k
  | POpen path mode k =>
      match (if k_open K path mode then lowest_free fds else None) with
      | Some fd => run K p (<[fd := Some (OFile path mode)]> fds) (k fd)
      | None => run K p fds (k (-1))
      end
  | PDup fd k =>
      match fds fd, lowest_free fds with
      | Some f, Some n => run K p (<[n := Some f]> fds) k
      | _, _ => run K p fds k
      end
  | PPipe k =>
      match (if k_pipe K p then lowest_free fds else None) with
      | Some a =>
          let fds1 := <[a := Some (OPipe p false)]> fds in
          match lowest_free fds1 with
          | Some b => run K (p ++ [2%nat]) (<[b := Some (OPipe p true)]> fds1) (k (Some (a, b)))
          | None => run K p fds (k None)
          end
      | None => run K p fds (k None)
      end
  | PFork child parent =>
      if k_fork K p then JFork (run K (p ++ [0%nat]) fds child) (run K (p ++ [1%nat]) fds (parent 1))
      else run K p fds (parent (-1))
  | PWait k => JWait (run K p fds k)
  | PChdir path k => JChdir path (run K p fds k)
  | PFault => JFault
  end.

(** ** What a command means *)

Definition forks (K : kernel) (p : list nat) (child parent : list nat → job) : job :=
  if k_fork K p then JFork (child (p ++ [0%nat])) (parent (p ++ [1%nat])) else JExit 1.

Fixpoint meaning (K : kernel) (p : list nat) (fds : fdtable) (t : tree) : job :=
  match t with
  | TExec [] => JExit 1
  | TExec argv => if k_exec K argv then JExec argv fds else JExit 0
  | TRedir t file mode fd => if k_open K file mode then meaning K p (<[fd := Some (OFile file mode)]> fds) t else JExit 1
  | TPipe t u =>
      if k_pipe K p then
        forks K (p ++ [2%nat]) (λ q, meaning K q (<[1 := Some (OPipe p true)]> fds) t) (λ q,
        forks K q (λ q, meaning K q (<[0 := Some (OPipe p false)]> fds) u) (λ _, JWait (JWait (JExit 0))))
      else JExit 1
  | TList t u => forks K p (λ q, meaning K q fds t) (λ q, JWait (meaning K q fds u))
  | TBack t => forks K p (λ q, meaning K q fds t) (λ _, JExit 0)
  end.

(** Descriptors 0, 1 and 2 are open, and there are two more for a pipe. *)
Definition std_fds (fds : fdtable) : Prop :=
  (∀ fd, 0 ≤ fd < 3 → is_free fds fd = false) ∧ ∃ a b, 0 ≤ a < b ∧ b < NOFILE ∧ is_free fds a = true ∧ is_free fds b = true.

(** The redirections of the shell are those of descriptors 0 and 1. *)
Fixpoint std_redirs (t : tree) : Prop :=
  match t with
  | TExec _ => True
  | TRedir t _ _ fd => (fd = 0 ∨ fd = 1) ∧ std_redirs t
  | TPipe t u => std_redirs t ∧ std_redirs u
  | TList t u => std_redirs t ∧ std_redirs u
  | TBack t => std_redirs t
  end.

Lemma lowest_free_at fds fd : 0 ≤ fd < NOFILE → is_free fds fd = true → (∀ x, 0 ≤ x < fd → is_free fds x = false) → lowest_free fds = Some fd.
Proof.
  intros Hfd Hf Hl. unfold lowest_free. replace NOFILE with (fd + (NOFILE - fd)) by lia. rewrite seqZ_app by lia.
  rewrite (seqZ_cons (0 + fd)) by lia. assert (H : ∀ l, Forall (λ x, is_free fds x = false) l → List.find (is_free fds) (l ++ 0 + fd :: seqZ (Z.succ (0 + fd)) (Z.pred (NOFILE - fd))) = Some fd).
  { induction 1 as [|x l Hx Hl' IH]; cbn [app List.find]; [by rewrite Z.add_0_l, Hf|by rewrite Hx]. }
  apply H. apply Forall_forall. intros x [Hx1 Hx2]%elem_of_seqZ. apply Hl. lia.
Qed.

(** The lowest descriptor that is free, when there is one. *)
Lemma lowest_free_ex fds b : 0 ≤ b < NOFILE → is_free fds b = true →
  ∃ a, lowest_free fds = Some a ∧ 0 ≤ a ≤ b ∧ is_free fds a = true ∧ ∀ x, 0 ≤ x < a → is_free fds x = false.
Proof.
  intros Hb Hf. assert (H : ∀ n, (n ≤ Z.to_nat b)%nat → (∀ x, 0 ≤ x < b - Z.of_nat n → is_free fds x = false) →
    ∃ a, 0 ≤ a ≤ b ∧ is_free fds a = true ∧ ∀ x, 0 ≤ x < a → is_free fds x = false).
  { induction n as [|n IH]; intros Hn Hx.
    - exists b. split; [lia|]. split; [done|]. intros x Hx'. apply Hx. lia.
    - destruct (is_free fds (b - Z.of_nat (S n))) eqn:E.
      + exists (b - Z.of_nat (S n)). split; [lia|]. done.
      + apply IH; [lia|]. intros x Hx'. destruct (decide (x = b - Z.of_nat (S n))) as [->|]; [done|]. apply Hx. lia. }
  destruct (H (Z.to_nat b)) as (a & Ha & Hfa & Hla); [lia|intros; lia|]. exists a. split; [by apply lowest_free_at; [lia|..]|done].
Qed.

Lemma is_free_insert fds fd v x : is_free (<[fd := v]> fds) x = if decide (fd = x) then match v with None => true | Some _ => false end else is_free fds x.
Proof. unfold is_free. rewrite fn_lookup_insert_if. by case_decide. Qed.

(** Putting something else at a descriptor that is in use. *)
Lemma std_fds_insert (fds : fdtable) fd v : std_fds fds → is_free fds fd = false → std_fds (<[fd := Some v]> fds).
Proof.
  intros [H1 (a & b & H2 & H3 & H4 & H5)] Hf. split.
  - intros x Hx. rewrite is_free_insert. case_decide; [done|by apply H1].
  - exists a, b. rewrite !is_free_insert, !decide_False by congruence. done.
Qed.

(** close(fd) and then open, for a standard descriptor. *)
Lemma reopen fds fd : (∀ fd, 0 ≤ fd < 3 → is_free fds fd = false) → 0 ≤ fd < 3 → lowest_free (<[fd := None]> fds) = Some fd.
Proof.
  intros H1 Hfd. apply lowest_free_at; [change NOFILE with 16; lia|by rewrite is_free_insert, decide_True|].
  intros x Hx. rewrite is_free_insert, decide_False by lia. apply H1. lia.
Qed.

(** The ends that pipe gives. *)
Lemma pipe_ends fds f : std_fds fds → ∃ a b, lowest_free fds = Some a ∧ lowest_free (<[a := Some f]> fds) = Some b ∧
  3 ≤ a ∧ 3 ≤ b ∧ a ≠ b ∧ fds a = None ∧ fds b = None.
Proof.
  intros [H1 (a0 & b0 & H2 & H3 & H4 & H5)]. destruct (lowest_free_ex fds a0) as (a & Ea & Ha & Hfa & Hla); [lia|done|].
  assert (Hb0 : is_free (<[a := Some f]> fds) b0 = true) by (rewrite is_free_insert, decide_False by lia; done).
  destruct (lowest_free_ex _ b0 ltac:(lia) Hb0) as (b & Eb & Hb & Hfb & Hlb). rewrite is_free_insert in Hfb. case_decide as Eab; [done|].
  assert (Hge : ∀ x, 0 ≤ x → is_free fds x = true → 3 ≤ x).
  { intros x Hx Hf. destruct (decide (x < 3)); [|lia]. rewrite H1 in Hf by lia. done. }
  exists a, b. split_and!; try done; [apply Hge; [lia|done]..| |]; unfold is_free in *; [by destruct (fds a)|by destruct (fds b)].
Qed.

Lemma restore (fds : fdtable) a b fa fb : a ≠ b → fds a = None → fds b = None → <[b := None]> (<[a := None]> (<[b := Some fb]> (<[a := Some fa]> fds))) = fds.
Proof.
  intros Hab Ha Hb. extensionality x. rewrite !fn_lookup_insert_if. repeat case_decide; subst; done.
Qed.

(** A child of a pipe: close(fd), dup of the end and close of both ends. *)
Lemma pipe_child K p (fds : fdtable) a b fd e fa fb k :
  std_fds fds → 0 ≤ fd < 3 → 3 ≤ a → 3 ≤ b → a ≠ b → fds a = None → fds b = None → (e = a ∧ fd = 0 ∨ e = b ∧ fd = 1) →
  run K p (<[b := Some fb]> (<[a := Some fa]> fds)) (PClose fd (PDup e (PClose a (PClose b k)))) = run K p (<[fd := Some (if e =? a then fa else fb)]> fds) k.
Proof.
  intros Hs Hfd Ha Hb Hab Ea Eb He. cbn [run]. set (fds1 := <[b := _]> _).
  assert (Hf : <[fd := None]> fds1 e = Some (if e =? a then fa else fb)).
  { unfold fds1. rewrite fn_lookup_insert_ne by (destruct He as [[-> _]|[-> _]]; lia). rewrite !fn_lookup_insert_if.
    destruct He as [[-> _]|[-> _]]; [rewrite decide_False, decide_True, Z.eqb_refl by done; done|rewrite decide_True, (proj2 (Z.eqb_neq _ _)) by done; done]. }
  rewrite Hf. assert (Hl : lowest_free (<[fd := None]> fds1) = Some fd).
  { apply reopen; [|done]. intros x Hx. unfold fds1. rewrite !is_free_insert, !decide_False by lia. by apply Hs. }
  rewrite Hl. f_equal. extensionality x. unfold fds1. rewrite !fn_lookup_insert_if. repeat case_decide; subst; try done; lia.
Qed.

(** ** runcmd *)

Lemma arg_strings_eq len fuel m argv eargv ws i n :
  (length ws < fuel)%nat → (n ≤ len)%nat → argv (i + Z.of_nat (length ws)) = 0 →
  (∀ j w, ws !! j = Some w → arg_string m n (argv (i + Z.of_nat j)) (eargv (i + Z.of_nat j)) w) → arg_strings len fuel m argv i = ws.
Proof.
  intros Hf Hn. revert i fuel Hf. induction ws as [|w ws IH]; intros i [|fuel] Hf H0 Hw; cbn [length] in *; try lia; cbn [arg_strings].
  - rewrite Z.add_0_r in H0. by rewrite H0, Z.eqb_refl.
  - destruct (Hw O w eq_refl) as (Hq & (Ha & Hz & He) & Hl). rewrite Z.add_0_r in *. rewrite (proj2 (Z.eqb_neq _ _)) by done.
    rewrite (at_cstr w) by (done || lia). f_equal. apply IH; [lia|by replace (i + 1 + Z.of_nat (length ws)) with (i + Z.of_nat (S (length ws))) by lia|].
    intros j w' Hj. specialize (Hw (S j) w' Hj). by replace (i + 1 + Z.of_nat j) with (i + Z.of_nat (S j)) by lia.
Qed.

(** A fork of the shell's. *)
Lemma run_fork1 K p fds child parent jc jp :
  (∀ q, run K q fds child = jc q) → (∀ q, run K q fds parent = jp q) → run K p fds (fork1 child parent) = forks K p jc jp.
Proof. intros Hc Hp. unfold fork1, forks. cbn [run]. destruct (k_fork K p); [|done]. by rewrite Hc, <-Hp. Qed.

Lemma runcmd_meaning K len m n h c t :
  repr (arg_string m n) h c t → std_redirs t → (n ≤ len)%nat → ∀ fuel p fds, c < Z.of_nat fuel → std_fds fds →
  run K p fds (runcmd len fuel (mkShell m h) c) = meaning K p fds t.
Proof.
  intros Hr Hsr Hn. induction Hr as [c argv eargv ws Hc Hl H0 Hw|c sub file efile mode fd t w Hc Hlt Hw Hr IH|c l r t u Hc Hll Hlr Ht IHt Hu IHu|c l r t u Hc Hll Hlr Ht IHt Hu IHu|c sub t Hc Hlt Hr IH];
    intros fuel p fds Hf Hs; pose proof (cmd_at_range _ _ _ Hc); (destruct fuel as [|f]; [lia|]); cbn [runcmd sh_heap sh_mem]; rewrite (proj2 (Z.eqb_neq c 0)), Hc by lia; cbn [std_redirs] in Hsr.
  - rewrite (arg_strings_eq len (Z.to_nat MAXARGS) m argv eargv ws 0 n) by (unfold MAXARGS in *; done || lia). destruct ws as [|w ws].
    + change (argv 0 = 0) in H0. rewrite H0. done.
    + destruct (Hw O w eq_refl) as (Hq & _). change (argv (Z.of_nat 0)) with (argv 0) in Hq. rewrite (proj2 (Z.eqb_neq _ _)) by done. done.
  - destruct Hsr as [Hfd Hsr]. destruct Hw as (_ & (Ha & Hz & He) & Hlw). rewrite (at_cstr w) by (done || lia). cbn [run meaning].
    destruct (k_open K w mode); [|done]. assert (Hfd3 : 0 ≤ fd < 3) by lia. rewrite (reopen fds fd (proj1 Hs) Hfd3), (proj2 (Z.ltb_ge fd 0)) by lia.
    rewrite fn_insert_insert. apply (IH Hsr); [lia|]. apply std_fds_insert; [done|]. by apply Hs.
  - destruct Hsr as [Hst Hsu]. cbn [run meaning]. destruct (k_pipe K p); [|done]. destruct (pipe_ends fds (OPipe p false) Hs) as (a & b & -> & -> & Ha & Hb & Hab & Ea & Eb).
    assert (Hmt : ∀ q, run K q (<[1 := Some (OPipe p true)]> fds) (runcmd len f (mkShell m h) l) = meaning K q (<[1 := Some (OPipe p true)]> fds) t).
    { intros q. apply (IHt Hst); [lia|]. apply std_fds_insert; [done|]. by apply Hs. }
    assert (Hmu : ∀ q, run K q (<[0 := Some (OPipe p false)]> fds) (runcmd len f (mkShell m h) r) = meaning K q (<[0 := Some (OPipe p false)]> fds) u).
    { intros q. apply (IHu Hsu); [lia|]. apply std_fds_insert; [done|]. by apply Hs. }
    apply run_fork1; intros q; [|apply run_fork1; intros q'].
    + rewrite (pipe_child K q fds a b 1 b), (proj2 (Z.eqb_neq b a)) by (lia || done || by right). apply Hmt.
    + rewrite (pipe_child K q' fds a b 0 a), Z.eqb_refl by (lia || done || by left). apply Hmu.
    + cbn [run]. done.
  - destruct Hsr as [Hst Hsu]. cbn [meaning]. apply run_fork1; intros q; [apply (IHt Hst); [lia|done]|]. cbn [run]. f_equal. apply (IHu Hsu); [lia|done].
  - cbn [meaning]. apply run_fork1; intros q; [apply (IH Hsr); [lia|done]|done].
Qed.

Lemma grammar_redirs : (∀ a t, gline a t → std_redirs t) ∧ (∀ a t, gpipe a t → std_redirs t) ∧ (∀ a t, gexec a t → std_redirs t).
Proof.
  assert (Hr : ∀ rs t, std_redirs t → std_redirs (foldl redirect t rs)).
  { induction rs as [|[o f] rs IH]; intros t Ht; [done|]. cbn. apply IH. cbn. split; [destruct o; cbn; lia|done]. }
  assert (Hb : ∀ k t, std_redirs t → std_redirs (Nat.iter k TBack t)).
  { induction k as [|k IH]; intros t Ht; [done|]. rewrite Nat.iter_succ. cbn [std_redirs]. by apply IH. }
  apply grammar_ind; intros; cbn [std_redirs]; auto. by apply Hr.
Qed.

(** What the child that runs a line does. *)
Definition line_job (K : kernel) (p : list nat) (fds : fdtable) (l : list Z) : job :=
  match parse (lex [] l) with Some t => meaning K p fds t | None => JExit 1 end.

Lemma run_line_job K p fds m buf l :
  cstring m buf l → 0 < buf → Z.of_nat (length l) < nbuf → std_fds fds → run K p fds (run_line m buf) = line_job K p fds l.
Proof.
  intros Hc Hb Hl Hs. unfold run_line, line_job.
  destruct (parsecmd_run [] (Z.to_nat nbuf) m [] buf l Hc Hb ltac:(unfold nbuf in *; lia)) as [(t & c & m' & h' & Hg & _ & -> & Hr)|[Hno [msg ->]]].
  - rewrite (proj2 (parse_derives _ t)) by done. pose proof (repr_range _ _ _ _ Hr). destruct grammar_redirs as (Hgr & _).
    apply (runcmd_meaning K (Z.to_nat nbuf) m' (length l)); [done|by eapply Hgr|unfold nbuf in *; lia|cbn; lia|done].
  - destruct (parse (lex [] l)) as [t|] eqn:E; [|done]. apply parse_derives in E. by apply Hno in E.
Qed.

(** ** The session *)

Definition newline : Z := 10.

(** A line that can be typed: no NUL and no end of line in it, and short enough
    for the buffer. *)
Definition typed (l : list Z) : Prop := Forall (λ c, c ≠ 0 ∧ c ≠ newline ∧ c ≠ 13) l ∧ Z.of_nat (length l) + 1 < nbuf.

Lemma ugets_loop_line l input max : ∀ fuel m buf i,
  Forall (λ c, c ≠ 0 ∧ c ≠ newline ∧ c ≠ 13) l → (length l < fuel)%nat → i + Z.of_nat (length l) + 1 < max →
  ∃ m', ugets_loop fuel m buf max i (l ++ newline :: input) = (m', i + Z.of_nat (length l) + 1, input) ∧
    at_mem m' (buf + i) (l ++ [newline]) ∧ ∀ x, ¬ (buf + i ≤ x ≤ buf + i + Z.of_nat (length l)) → m' x = m x.
Proof.
  induction l as [|c l IH]; intros [|fuel] m buf i Hl Hf Hm; cbn [length] in *; try lia; cbn [app ugets_loop]; rewrite (proj2 (Z.ltb_lt (i + 1) max)) by lia; cbn [negb].
  - change ((newline =? 10) || (newline =? 13)) with true. cbn iota. eexists. split; [do 2 f_equal; lia|]. split.
    + intros [|k] d Hk; [|done]. cbn in Hk. injection Hk as <-. rewrite Z.add_0_r. apply fn_lookup_insert.
    + intros x Hx. apply fn_lookup_insert_ne. lia.
  - apply Forall_cons in Hl as [(H0 & H1 & H2) Hl]. unfold newline in H1. rewrite (proj2 (Z.eqb_neq c 10)), (proj2 (Z.eqb_neq c 13)) by done. cbn [orb].
    destruct (IH fuel (<[buf + i := c]> m) buf (i + 1) Hl) as (m' & E & Ha & Ho); [lia|lia|]. rewrite E. eexists. split; [do 2 f_equal; lia|]. split.
    + intros [|k] d Hk; cbn in Hk.
      * injection Hk as <-. rewrite Z.add_0_r, Ho by lia. apply fn_lookup_insert.
      * specialize (Ha k d Hk). rewrite <-Ha. f_equal. lia.
    + intros x Hx. rewrite Ho by lia. apply fn_lookup_insert_ne. lia.
Qed.

Lemma getcmd_line m buf l input : typed l → ∃ m', getcmd m buf (l ++ newline :: input) = (0, m', input) ∧ cstring m' buf (l ++ [newline]).
Proof.
  intros [Hl Hn]. unfold getcmd, ugets. unfold nbuf in *.
  destruct (ugets_loop_line l input 100 (Z.to_nat 100) (mem_fill m buf 100 0) buf 0 Hl) as (m' & E & Ha & _); [lia|lia|]. rewrite E, Z.add_0_r in *. set (m2 := <[_ := 0]> m').
  assert (Hc : cstring m2 buf (l ++ [newline])).
  { split_and!.
    - intros k d Hk. pose proof (lookup_lt_Some _ _ _ Hk) as Hlt. rewrite length_app in Hlt. cbn in Hlt. unfold m2. rewrite fn_lookup_insert_ne by lia. by apply Ha.
    - apply Forall_app. split; [|by repeat constructor]. eapply Forall_impl; [exact Hl|]. by intros c (? & _).
    - rewrite length_app. cbn. unfold m2. match goal with |- <[?a := _]> _ ?b = _ => replace b with a by lia end. apply fn_lookup_insert. }
  exists m2. split; [|done]. rewrite (proj2 (Z.eqb_neq (m2 buf) 0)); [done|]. apply (cstring_at _ _ _ _ Hc). rewrite length_app. cbn. lia.
Qed.

Lemma getcmd_end m buf : ∃ m', getcmd m buf [] = (-1, m', []).
Proof.
  unfold getcmd, ugets. change (Z.to_nat nbuf) with 100%nat. cbn [ugets_loop]. change (negb (0 + 1 <? nbuf)) with false. cbn iota.
  rewrite Z.add_0_r, fn_lookup_insert. eexists. done.
Qed.

(** White space at the end of a line does not matter. *)
Lemma lex_newline l : ∀ w, lex w (l ++ [newline]) = lex w l.
Proof.
  assert (Hn : ∀ w, lex w [newline] = flush w) by (intros w; cbn; by rewrite app_nil_r).
  induction l as [l IH] using (induction_ltof1 _ length). intros w. destruct l as [|c l]; [apply Hn|]. cbn [app lex].
  rewrite !(IH l) by (unfold ltof; cbn; lia). destruct l as [|c' l]; [|cbn [app]; by rewrite (IH l) by (unfold ltof; cbn; lia)].
  cbn [app]. change (newline =? gt) with false. rewrite andb_false_r. done.
Qed.

Definition cd_prefix : list Z := [99; 100; 32].

(** The processes of a session in which the lines are typed. *)
Fixpoint session (K : kernel) (p : list nat) (fds : fdtable) (lines : list (list Z)) : job :=
  match lines with
  | [] => JExit 0
  | l :: lines =>
      if bool_decide (take 3 l = cd_prefix) then JChdir (drop 3 l) (session K p fds lines)
      else forks K p (λ q, line_job K q fds l) (λ q, JWait (session K q fds lines))
  end.

(** The test for cd, on the memory. *)
Lemma cd_test m buf l : cstring m buf (l ++ [newline]) →
  ((m buf =? 99) && (m (buf + 1) =? 100) && (m (buf + 2) =? 32)) = bool_decide (take 3 l = cd_prefix).
Proof.
  intros (Ha & _ & He). assert (Hb : ∀ k c, (l ++ [newline]) !! k = Some c → m (buf + Z.of_nat k) = c) by exact Ha.
  pose proof (Hb 0%nat) as H0. pose proof (Hb 1%nat) as H1. pose proof (Hb 2%nat) as H2. unfold cd_prefix.
  change (Z.of_nat 0) with 0 in H0. change (Z.of_nat 1) with 1 in H1. change (Z.of_nat 2) with 2 in H2. rewrite Z.add_0_r in H0.
  destruct l as [|c0 [|c1 [|c2 l]]]; cbn in H0, H1, H2.
  - by rewrite (H0 _ eq_refl), bool_decide_eq_false_2.
  - rewrite (H1 _ eq_refl). change (newline =? 100) with false. by rewrite andb_false_r, bool_decide_eq_false_2.
  - rewrite (H2 _ eq_refl). change (newline =? 32) with false. by rewrite andb_false_r, bool_decide_eq_false_2.
  - rewrite (H0 _ eq_refl), (H1 _ eq_refl), (H2 _ eq_refl). apply eq_true_iff_eq. rewrite !andb_true_iff, !Z.eqb_eq, bool_decide_eq_true.
    cbn [take]. split; [intros [[-> ->] ->]; by rewrite take_0|]. intros E. by injection E.
Qed.

(** The path of cd, once the newline is gone. *)
Lemma cd_path m buf l : cstring m buf (l ++ [newline]) → typed l → take 3 l = cd_prefix →
  cstr (Z.to_nat nbuf) (<[buf + default 0 (strlen (Z.to_nat nbuf) m buf) - 1 := 0]> m) (buf + 3) = drop 3 l.
Proof.
  intros Hc [Hl Hn] Ht. unfold nbuf in *. rewrite (cstring_strlen _ _ _ _ Hc) by (rewrite length_app; cbn; lia). cbn [default]. destruct Hc as (Ha & _ & _).
  assert (H3 : (3 ≤ length l)%nat) by (destruct l as [|? [|? [|? ?]]]; cbn in *; try done; lia). unfold id. rewrite length_app. cbn [length].
  apply at_cstr.
  - intros k d Hk. rewrite lookup_drop in Hk. pose proof (lookup_lt_Some _ _ _ Hk) as Hlt. rewrite fn_lookup_insert_ne by lia.
    rewrite <-(Ha (3 + k)%nat d) by (by apply lookup_app_l_Some). f_equal. lia.
  - apply Forall_drop. eapply Forall_impl; [exact Hl|]. by intros c (? & _).
  - rewrite length_drop. match goal with |- <[?a := _]> _ ?b = _ => replace a with b by lia end. apply fn_lookup_insert.
  - rewrite length_drop. lia.
Qed.

Definition typed_input (lines : list (list Z)) : list Z := lines ≫= λ l, l ++ [newline].

Lemma cmd_loop_session K lines : ∀ fuel m buf p fds,
  Forall typed lines → (length lines < fuel)%nat → 0 < buf → std_fds fds →
  run K p fds (cmd_loop fuel m buf (typed_input lines)) = session K p fds lines.
Proof.
  induction lines as [|l lines IH]; intros [|fuel] m buf p fds Ht Hf Hb Hs; cbn [length] in Hf; try lia; cbn [cmd_loop session].
  - change (typed_input []) with (@nil Z). destruct (getcmd_end m buf) as [m' ->]. done.
  - apply Forall_cons in Ht as [Hl Ht]. change (typed_input (l :: lines)) with ((l ++ [newline]) ++ typed_input lines). rewrite <-app_assoc. cbn [app].
    destruct (getcmd_line m buf l (typed_input lines) Hl) as (m' & -> & Hc). change (0 <? 0) with false. cbn iota. rewrite (cd_test _ _ _ Hc).
    case_bool_decide as Ecd.
    + rewrite (cd_path _ _ _ Hc Hl Ecd). cbn [run]. f_equal. apply IH; [done|lia|done|done].
    + apply run_fork1; intros q.
      * rewrite (run_line_job K q fds m' buf _ Hc Hb) by (done || (destruct Hl; rewrite length_app; cbn; unfold nbuf in *; lia)). unfold line_job. by rewrite lex_newline.
      * cbn [run]. f_equal. apply IH; [done|lia|done|done].
Qed.

(** The table with the console where descriptors 0, 1 and 2 were free. *)
Definition with_console (fds : fdtable) : fdtable := λ fd,
  if (0 <=? fd) && (fd <? 3) && is_free fds fd then Some (OFile console_path O_RDWR) else fds fd.

Lemma with_console_fill fds fd : 0 ≤ fd < 3 → is_free fds fd = true → with_console (<[fd := Some (OFile console_path O_RDWR)]> fds) = with_console fds.
Proof.
  intros Hfd Hf. extensionality x. unfold with_console. rewrite is_free_insert, fn_lookup_insert_if. case_decide as E; [|done].
  subst x. rewrite andb_false_r, Hf. by replace ((0 <=? fd) && (fd <? 3)) with true by lia.
Qed.

Lemma with_console_full fds : (∀ fd, 0 ≤ fd < 3 → is_free fds fd = false) → with_console fds = fds.
Proof. intros H. extensionality x. unfold with_console. destruct ((0 <=? x) && (x <? 3)) eqn:E; [|done]. by rewrite H by lia. Qed.

Lemma open_console_run K k : k_open K console_path O_RDWR = true → ∀ n j p fds,
  0 ≤ j ≤ 3 → 4 - j ≤ Z.of_nat n → (∀ fd, 0 ≤ fd < j → is_free fds fd = false) → std_fds (with_console fds) →
  run K p fds (open_console n k) = run K p (with_console fds) k.
Proof.
  intros Ho. induction n as [|n IH]; intros j p fds Hj Hn Hu Hs; [lia|]. cbn [open_console run]. rewrite Ho.
  destruct Hs as [Hs1 (a & b & Ha & Hb & Hfa & Hfb)]. assert (Hb' : is_free fds b = true).
  { unfold is_free, with_console in Hfb. unfold is_free. destruct ((0 <=? b) && (b <? 3) && _); [done|]. by destruct (fds b). }
  destruct (lowest_free_ex fds b ltac:(lia) Hb') as (fd & -> & Hfd & Hff & Hlow).
  assert (Hjfd : j ≤ fd) by (destruct (decide (fd < j)); [rewrite Hu in Hff by lia; done|lia]). rewrite (proj2 (Z.ltb_ge fd 0)) by lia.
  destruct (Z.geb_spec fd 3) as [H3|H3].
  - cbn [run]. rewrite fn_insert_insert, with_console_full by (intros; apply Hlow; lia). f_equal. rewrite <-(fn_insert_id fds fd) at 2. f_equal.
    unfold is_free in Hff. by destruct (fds fd).
  - rewrite (IH (fd + 1)); [|lia|lia| |]; rewrite ?with_console_fill by (done || lia); [done| |].
    + intros x Hx. rewrite is_free_insert. case_decide; [done|]. apply Hlow. lia.
    + split; [done|]. by exists a, b.
Qed.

Module Session.
(** C10: the shell runs what is typed.  For lines that fit the buffer the shell
    makes the descriptors 0, 1 and 2 sure, and then does, line by line, what the
    line stands for by the grammar: cd in the shell itself, and otherwise a child
    that becomes the processes of the command, each with the arguments and the
    descriptors it should have, the files of redirections and the ends of pipes in
    the place of the standard ones and no other end of a pipe left open, or that
    exits with an error; the shell waits for the child before the next line. *)
Theorem sh_runs_lines K p fds m buf lines :
  Forall typed lines → 0 < buf → k_open K console_path O_RDWR = true → std_fds (with_console fds) →
  run K p fds (sh_main m buf (typed_input lines)) = session K p (with_console fds) lines.
Proof.
  intros Ht Hb Ho Hs. unfold sh_main. rewrite (open_console_run K _ Ho 4 0) by (done || lia). apply cmd_loop_session; try done.
  clear. induction lines as [|l lines IH]; [cbn; lia|]. change (typed_input (l :: lines)) with ((l ++ [newline]) ++ typed_input lines). rewrite !length_app. cbn [length]. lia.
Qed.

(** "a|b", with no descriptor open at first. *)
Lemma sh_runs_lines_witness :
  let K := {| k_open _ _ := true; k_exec _ := true; k_fork _ := true; k_pipe _ := true |} in
  run K [] (λ _, None) (sh_main zeroes 64 (typed_input [[97; 124; 98]])) = session K [] (with_console (λ _, None)) [[97; 124; 98]].
Proof.
  intros K. apply sh_runs_lines; [|done|done|].
  - repeat constructor; done.
  - split.
    + intros fd Hfd. unfold is_free, with_console. by replace ((0 <=? fd) && (fd <? 3)) with true by lia.
    + exists 3, 4. done.
Defined.
End Session.
