(* ===== verification/Umalloc.v ===== *)
(** * user/umalloc.c: the allocator of the user programs

    The allocator of Kernighan and Ritchie, on the memory of the process: free
    blocks, each with a header of 16 bytes, form a circular list in the order of
    their addresses.  sbrk moves the end of the process's memory up, as long as the
    kernel has memory for it.  The loops over the list take fuel. *)

From S2P Require Import Prelude Types StringC.

(** sizeof(Header): a pointer, a uint and padding. *)
Definition sizeof_Header : Z := 16.

(** The memory, the variable freep, the end of the memory and how far the kernel
    would let it grow. *)
Record uheap := mkUheap {
  u_mem : bytes;
  u_freep : Z;
  u_brk : Z;
  u_limit : Z
}.

Definition set_u_mem (v : bytes) (w : uheap) : uheap := mkUheap v (u_freep w) (u_brk w) (u_limit w).
Definition set_u_freep (v : Z) (w : uheap) : uheap := mkUheap (u_mem w) v (u_brk w) (u_limit w).
Definition set_u_brk (v : Z) (w : uheap) : uheap := mkUheap (u_mem w) (u_freep w) v (u_limit w).

Abbreviation U := (M uheap) (only parsing).

(** p->s.ptr and p->s.size *)
Definition h_ptr (m : bytes) (p : Z) : Z := ld64 m p.
Definition h_size (m : bytes) (p : Z) : Z := ld32 m (p + 8).
Definition put_ptr (p v : Z) : U unit := modify (λ w, set_u_mem (st64 (u_mem w) p v) w).
Definition put_size (p v : Z) : U unit := modify (λ w, set_u_mem (st32 (u_mem w) (p + 8) v) w).

(** [for (p = freep; !(bp > p && bp < p->s.ptr); p = p->s.ptr)
      if (p >= p->s.ptr && (bp > p || bp < p->s.ptr)) break;] *)
Fixpoint free_place (fuel : nat) (m : bytes) (bp p : Z) : option Z :=
  match fuel with
  | O => None
  | S f =>
      let next := h_ptr m p in
      if (bp >? p) && (bp <? next) then Some p
      else if (p >=? next) && ((bp >? p) || (bp <? next)) then Some p
      else free_place f m bp next
  end.

Definition ufree (fuel : nat) (ap : Z) : U unit :=
  let bp := ap - sizeof_Header in
  m <- gets u_mem ;;
  freep <- gets u_freep ;;
  match free_place fuel m bp freep with
  | None => λ _ _, NoFuel
  | Some p =>
      (if bp + h_size m bp * sizeof_Header =? h_ptr m p then
         put_size bp (u32 (h_size m bp + h_size m (h_ptr m p))) ;;
         m <- gets u_mem ;;
         put_ptr bp (h_ptr m (h_ptr m p))
       else put_ptr bp (h_ptr m p)) ;;
      m <- gets u_mem ;;
      (if p + h_size m p * sizeof_Header =? bp then
         put_size p (u32 (h_size m p + h_size m bp)) ;;
         m <- gets u_mem ;;
         put_ptr p (h_ptr m bp)
       else put_ptr p bp) ;;
      modify (set_u_freep p)
  end.

(** The system call: the old end of the memory, or -1. *)
Definition sbrk (n : Z) : U Z :=
  w <- gets (λ w, w) ;;
  if u_limit w <? u_brk w + n then ret (-1) else
  modify (set_u_brk (u_brk w + n)) ;;
  ret (u_brk w).

Definition morecore (fuel : nat) (nu : Z) : U Z :=
  let nu := if nu <? 4096 then 4096 else nu in
  p <- sbrk (i32 (nu * sizeof_Header)) ;;
  if p =? -1 then ret 0 else
  put_size p nu ;;
  ufree fuel (p + sizeof_Header) ;;
  gets u_freep.

(** The block at [p], or the end of it when it is too large, after [prevp]. *)
Definition take_block (nunits prevp p : Z) : U Z :=
  m <- gets u_mem ;;
  p <- (if h_size m p =? nunits then put_ptr prevp (h_ptr m p) ;; ret p
        else
          put_size p (u32 (h_size m p - nunits)) ;;
          m <- gets u_mem ;;
          let p := p + h_size m p * sizeof_Header in
          put_size p nunits ;;
          ret p) ;;
  modify (set_u_freep prevp) ;;
  ret (p + sizeof_Header).

(** [for (p = prevp->s.ptr;; prevp = p, p = p->s.ptr)] *)
Fixpoint malloc_loop (fuel : nat) (nunits prevp p : Z) : U Z :=
  match fuel with
  | O => λ _ _, NoFuel
  | S f =>
      m <- gets u_mem ;;
      if h_size m p >=? nunits then take_block nunits prevp p else
      freep <- gets u_freep ;;
      if p =? freep then
        p <- morecore f nunits ;;
        if p =? 0 then ret 0 else
        m <- gets u_mem ;;
        malloc_loop f nunits p (h_ptr m p)
      else malloc_loop f nunits p (h_ptr m p)
  end.

(** [base] is the address of the static header. *)
Definition malloc (base : Z) (fuel : nat) (nbytes : Z) : U Z :=
  let nunits := u32 ((nbytes + sizeof_Header - 1) / sizeof_Header + 1) in
  prevp <- gets u_freep ;;
  prevp <- (if prevp =? 0 then
              put_ptr base base ;;
              modify (set_u_freep base) ;;
              put_size base 0 ;;
              ret base
            else ret prevp) ;;
  m <- gets u_mem ;;
  malloc_loop fuel nunits prevp (h_ptr m prevp).
