(* ===== verification/UmallocProps.v ===== *)
(** * The allocator of the user programs hands out memory of their own

    The free list is described by the list of its blocks in the order of their
    addresses; [heap_ok] says how they lie in memory, apart from each other and
    from the blocks that have been handed out. *)

From Stdlib Require Import Sorting.Sorted.
From S2P Require Import Prelude Types StringC Umalloc.

Ltac solve_in := rewrite ?elem_of_app, ?elem_of_cons, ?elem_of_app; tauto.

(** A block: its address and its size in units of 16 bytes. *)
Abbreviation block := (Z * Z)%type.

Definition hdr (m : bytes) (a : Z) : Z * Z := (h_ptr m a, h_size m a).

(** Headers that are the same or do not overlap. *)
Definition hdr_apart (a b : Z) : Prop := a + 16 ≤ b ∨ b + 16 ≤ a.

Lemma hdr_put_ptr_ne m a b v : hdr_apart a b → hdr (st64 m a v) b = hdr m b.
Proof. intros [H|H]; unfold hdr, h_ptr, h_size, ld64, st64, ld32; by rewrite !ld_st_ne by lia. Qed.

Lemma hdr_put_size_ne m a b v : hdr_apart a b → hdr (st32 m (a + 8) v) b = hdr m b.
Proof. intros [H|H]; unfold hdr, h_ptr, h_size, ld64, st32, ld32; by rewrite !ld_st_ne by lia. Qed.

Lemma hdr_put_ptr m a v : 0 ≤ v < 2 ^ 64 → hdr (st64 m a v) a = (v, h_size m a).
Proof. intros Hv. unfold hdr, h_ptr, h_size, ld64, st64, ld32. rewrite ld_st_eq by lia. rewrite ld_st_ne by lia. f_equal. by apply Z.mod_small. Qed.

Lemma hdr_put_size m a v : 0 ≤ v < 2 ^ 32 → hdr (st32 m (a + 8) v) a = (h_ptr m a, v).
Proof. intros Hv. unfold hdr, h_ptr, h_size, ld64, st32, ld32. rewrite ld_st_eq by lia. rewrite ld_st_ne by lia. f_equal. by apply Z.mod_small. Qed.

(** ** The circular list *)

Definition first_of (l : list block) (d : Z) : Z := match l with [] => d | b :: _ => b.1 end.

(** The blocks of [l] are linked one after the other, the last one to [d]. *)
Fixpoint links (m : bytes) (d : Z) (l : list block) : Prop :=
  match l with [] => True | b :: l' => hdr m b.1 = (first_of l' d, b.2) ∧ links m d l' end.

Lemma first_of_app l l' d : first_of (l ++ l') d = first_of l (first_of l' d).
Proof. by destruct l. Qed.

Lemma links_app m d l l' : links m d (l ++ l') ↔ links m (first_of l' d) l ∧ links m d l'.
Proof. induction l as [|b l IH]; cbn; [tauto|]. rewrite IH, first_of_app. tauto. Qed.

Lemma links_frame m m' d l : (∀ b, b ∈ l → hdr m' b.1 = hdr m b.1) → links m d l → links m' d l.
Proof.
  induction l as [|b l IH]; cbn; [done|]. intros Hf [Hb Hl]. split; [rewrite Hf by set_solver; done|]. apply IH; [|done]. intros c Hc. apply Hf. set_solver.
Qed.

(** [b] lies before [c], and there is room between them for a header at least or
    they would have been joined. *)
Definition sep (b c : block) : Prop := b.1 + 16 ≤ c.1 ∧ b.1 + b.2 * 16 < c.1.

(** Blocks that do not overlap. *)
Definition off (b c : block) : Prop := (b.1 + 16 ≤ c.1 ∧ b.1 + b.2 * 16 ≤ c.1) ∨ (c.1 + 16 ≤ b.1 ∧ c.1 + c.2 * 16 ≤ b.1).

Lemma off_sym b c : off b c → off c b.
Proof. unfold off. tauto. Qed.

Lemma sep_off b c : sep b c → off b c.
Proof. intros [H1 H2]. left. lia. Qed.

Lemma off_apart b c : off b c → hdr_apart b.1 c.1.
Proof. intros [[H _]|[H _]]; [by left|by right]. Qed.

Record heap_ok (base : Z) (w : uheap) (F A : list block) : Prop := {
  ho_links : links (u_mem w) base ((base, 0) :: F);
  ho_freep : u_freep w ∈ base :: F.*1;
  ho_sorted : StronglySorted sep ((base, 0) :: F);
  ho_sizes b : b ∈ F ++ A → 1 ≤ b.2;
  ho_apart b c : b ∈ A → c ∈ (base, 0) :: F → off b c;
  ho_alloc : StronglySorted off A;
  ho_above b : b ∈ A → base < b.1;
  ho_header b : b ∈ A → h_size (u_mem w) b.1 = b.2;
  ho_top b : b ∈ F ++ A → b.1 + b.2 * 16 ≤ u_brk w;
  ho_bounds : 0 < base ∧ base + 16 ≤ u_brk w ∧ u_brk w ≤ u_limit w ∧ u_limit w < 2 ^ 36
}.

(** The free memory. *)
Definition covers (l : list block) (x : Z) : Prop := ∃ b, b ∈ l ∧ b.1 ≤ x < b.1 + b.2 * 16.

Lemma covers_app l l' x : covers (l ++ l') x ↔ covers l x ∨ covers l' x.
Proof. unfold covers. setoid_rewrite elem_of_app. naive_solver. Qed.

Lemma covers_cons b l x : covers (b :: l) x ↔ b.1 ≤ x < b.1 + b.2 * 16 ∨ covers l x.
Proof. unfold covers. setoid_rewrite elem_of_cons. naive_solver. Qed.

Lemma covers_nil x : ¬ covers [] x.
Proof. intros (b & Hb & _). by apply elem_of_nil in Hb. Qed.

Lemma sorted_app {A} (R : A → A → Prop) l l' : StronglySorted R (l ++ l') ↔ StronglySorted R l ∧ StronglySorted R l' ∧ ∀ b c, b ∈ l → c ∈ l' → R b c.
Proof.
  induction l as [|x l IH]; cbn.
  - split; [intros H; split_and!; [constructor|done|set_solver]|tauto].
  - split.
    + intros H. apply StronglySorted_inv in H as [H1 H2]. apply IH in H1 as (H3 & H4 & H5). apply Forall_app in H2 as [H6 H7]. rewrite Forall_forall in H7.
      split_and!; [by constructor|done|]. intros b c [->|Hb]%elem_of_cons Hc; [by apply H7|by apply H5].
    + intros (H1 & H2 & H3). apply StronglySorted_inv in H1 as [H4 H5]. constructor; [apply IH; split_and!; [done|done|set_solver]|].
      apply Forall_app. split; [done|]. apply Forall_forall. set_solver.
Qed.

Lemma sorted_cons {A} (R : A → A → Prop) x l : StronglySorted R (x :: l) ↔ StronglySorted R l ∧ ∀ c, c ∈ l → R x c.
Proof.
  split; [intros [H1 H2]%StronglySorted_inv; rewrite Forall_forall in H2; done|]. intros [H1 H2]. constructor; [done|]. by apply Forall_forall.
Qed.

Lemma sorted_pair {A} (R : A → A → Prop) l b c : StronglySorted R l → (∀ b c, R b c → R c b) → b ∈ l → c ∈ l → b ≠ c → R b c.
Proof.
  intros Hs Hsym Hb Hc Hne. apply list_elem_of_split in Hb as (l1 & l2 & ->). apply sorted_app in Hs as (_ & H2 & H3). apply sorted_cons in H2 as [_ H2].
  rewrite elem_of_app, elem_of_cons in Hc. destruct Hc as [Hc|[->|Hc]]; [apply Hsym, H3; [done|by left]|done|by apply H2].
Qed.

Section Heap.
Context (base : Z).

(** ** The place for a block *)

Lemma links_ptr m d b l : links m d (b :: l) → h_ptr m b.1 = first_of l d ∧ h_size m b.1 = b.2.
Proof. intros [E _]. unfold hdr in E. by injection E. Qed.

Lemma place_up m a p sp F2 Y fuel :
  links m base (Y ++ (p, sp) :: F2) → StronglySorted sep (Y ++ (p, sp) :: F2) → base ≤ p < a → (∀ b, b ∈ F2 → a < b.1) → (length Y < fuel)%nat →
  free_place fuel m a (first_of Y p) = Some p.
Proof.
  revert fuel. induction Y as [|y Y IH]; intros fuel Hl Hs Hp HF Hf; (destruct fuel as [|fuel]; [cbn in Hf; lia|]); cbn [app first_of free_place] in *.
  - destruct (links_ptr _ _ _ _ Hl) as [Hn _]. cbn [fst] in Hn. rewrite Hn. destruct F2 as [|b F2]; cbn [first_of].
    + rewrite (proj2 (andb_false_iff (a >? p) (a <? base))) by lia. by rewrite (proj2 (andb_true_iff (p >=? base) _)) by lia.
    + specialize (HF b ltac:(set_solver)). by rewrite (proj2 (andb_true_iff (a >? p) _)) by lia.
  - destruct (links_ptr _ _ _ _ Hl) as [-> _]. rewrite first_of_app. cbn [first_of fst]. apply sorted_cons in Hs as [Hs Hy].
    assert (Hn : y.1 < first_of Y p ≤ p).
    { destruct Y as [|z Y]; cbn [first_of].
      - destruct (Hy (p, sp) ltac:(set_solver)) as [H _]. cbn in H. lia.
      - destruct (Hy z ltac:(set_solver)) as [H _]. cbn [app] in Hs. apply sorted_cons in Hs as [_ Hz]. destruct (Hz (p, sp) ltac:(set_solver)) as [H' _]. cbn in H'. lia. }
    rewrite (proj2 (andb_false_iff (a >? y.1) (a <? first_of Y p))) by lia. rewrite (proj2 (andb_false_iff (y.1 >=? first_of Y p) _)) by lia.
    apply IH; [apply Hl|done|done|done|cbn in Hf; lia].
Qed.

Lemma place_wrap m a R fuel :
  links m base R → StronglySorted sep R → base < a → (∀ b, b ∈ R → a < b.1) →
  free_place (length R + fuel) m a (first_of R base) = free_place fuel m a base.
Proof.
  induction R as [|b R IH]; intros Hl Hs Ha HR; [done|]. cbn [length first_of Nat.add free_place]. destruct (links_ptr _ _ _ _ Hl) as [-> _].
  apply sorted_cons in Hs as [Hs Hb]. pose proof (HR b ltac:(set_solver)). rewrite (proj2 (andb_false_iff (a >? b.1) _)) by lia.
  rewrite (proj2 (andb_false_iff (b.1 >=? first_of R base) _)); [apply IH; [apply Hl|done|done|set_solver]|].
  destruct R as [|c R]; cbn [first_of]; [right; lia|]. left. destruct (Hb c ltac:(set_solver)) as [H' _]. lia.
Qed.

(** The blocks of the list below an address and those above it. *)
Lemma split_at_addr l a : StronglySorted sep l → (∀ b, b ∈ l → b.1 ≠ a) → ∃ l1 l2, l = l1 ++ l2 ∧ (∀ b, b ∈ l1 → b.1 < a) ∧ ∀ b, b ∈ l2 → a < b.1.
Proof.
  induction l as [|b l IH]; intros Hs Hne; [exists [], []; set_solver|]. apply sorted_cons in Hs as [Hs Hb].
  destruct (decide (b.1 < a)) as [Hlt|Hge].
  - destruct IH as (l1 & l2 & -> & H1 & H2); [done|set_solver|]. exists (b :: l1), l2. set_solver.
  - exists [], (b :: l). split; [done|]. split; [set_solver|]. pose proof (Hne b ltac:(set_solver)). intros c [->|Hc]%elem_of_cons; [lia|]. destruct (Hb c Hc). lia.
Qed.

Lemma free_place_ok m F P p sp F2 freep a fuel :
  (base, 0) :: F = P ++ (p, sp) :: F2 → links m base ((base, 0) :: F) → StronglySorted sep ((base, 0) :: F) → freep ∈ base :: F.*1 →
  p < a → (∀ b, b ∈ F2 → a < b.1) → (length F + 2 ≤ fuel)%nat → free_place fuel m a freep = Some p.
Proof.
  intros E Hl Hs Hfp Hp HF Hf. pose proof E as E'. rewrite E in Hl, Hs. assert (HbP : base ≤ p).
  { destruct P as [|b P]; [by injection E' as <- _ _|]. injection E' as <- _. cbn in Hs. apply sorted_cons in Hs as [_ Hb]. destruct (Hb (p, sp) ltac:(set_solver)) as [H _]. cbn in H. lia. }
  assert (Hup : ∀ fuel, (length P < fuel)%nat → free_place fuel m a base = Some p).
  { intros f Hf'. pose proof (place_up m a p sp F2 P f Hl Hs ltac:(lia) HF Hf') as H. by destruct P as [|b P]; injection E' as <- _. }
  assert (Hlen : length (P ++ (p, sp) :: F2) = S (length F)) by (by rewrite <-E). rewrite length_app in Hlen. cbn in Hlen.
  assert (Hin : freep ∈ (P ++ (p, sp) :: F2).*1) by (by rewrite <-E). apply list_elem_of_fmap in Hin as (b & -> & Hb).
  apply elem_of_app in Hb as [Hb|[->|Hb]%elem_of_cons].
  - apply list_elem_of_split in Hb as (X & Y & ->). rewrite <-app_assoc in Hl, Hs. apply links_app in Hl as [_ Hl]. apply sorted_app in Hs as (_ & Hs & _).
    rewrite length_app in Hlen. cbn in Hlen. apply (place_up m a p sp F2 (b :: Y) fuel Hl Hs ltac:(lia) HF). cbn. lia.
  - apply links_app in Hl as [_ Hl]. apply sorted_app in Hs as (_ & Hs & _). apply (place_up m a p sp F2 [] fuel Hl Hs ltac:(lia) HF). cbn. lia.
  - apply list_elem_of_split in Hb as (X & Y & ->). rewrite cons_middle, !app_assoc in Hl, Hs. apply links_app in Hl as [_ Hl]. apply sorted_app in Hs as (_ & Hs & _).
    rewrite length_app in Hlen. cbn in Hlen. replace fuel with (length (b :: Y) + (fuel - length (b :: Y)))%nat by (cbn; lia).
    rewrite (place_wrap m a (b :: Y)) by first [done|lia|intros c Hc; apply HF; set_solver]. apply Hup. cbn. lia.
Qed.

(** ** Putting a block back *)

(** The block [(a, s)] joined with the one that follows it, and the rest. *)
Definition join_next (a s : Z) (F2 : list block) : Z * list block :=
  match F2 with
  | (q, sq) :: F2' => if a + s * 16 =? q then (s + sq, F2') else (s, F2)
  | [] => (s, [])
  end.

(** The list with [(a, s)] between [(p, sp)] and [F2]. *)
Definition join_prev (P : list block) (p sp a : Z) (sR : Z * list block) : list block :=
  if p + sp * 16 =? a then P ++ (p, sp + sR.1) :: sR.2 else P ++ (p, sp) :: (a, sR.1) :: sR.2.

Section Join.
Context (P : list block) (p sp a s : Z) (F2 : list block).
Context (Hs : StronglySorted sep (P ++ (p, sp) :: F2)) (Hp : p < a) (HF : ∀ b, b ∈ F2 → a < b.1).
Context (Hoff : ∀ b, b ∈ P ++ (p, sp) :: F2 → off (a, s) b) (H1 : 1 ≤ s) (Hsz : ∀ b, b ∈ F2 → 1 ≤ b.2) (Hsp : 0 ≤ sp).

(** The joined block ends before the rest. *)
Lemma join_next_sep : let '(s1, R) := join_next a s F2 in
  s ≤ s1 ∧ StronglySorted sep R ∧ (∀ b, b ∈ R → b ∈ F2 ∧ a + 16 ≤ b.1 ∧ a + s1 * 16 < b.1) ∧
  (∀ x, a ≤ x < a + s1 * 16 ∨ covers R x ↔ covers F2 x ∨ a ≤ x < a + s * 16) ∧ (length R ≤ length F2)%nat ∧
  (∀ c, 1 ≤ c.2 → off c (a, s) → (∀ d, d ∈ F2 → off c d) → off c (a, s1)) ∧
  (∀ T, a + s * 16 ≤ T → (∀ d, d ∈ F2 → d.1 + d.2 * 16 ≤ T) → a + s1 * 16 ≤ T) ∧ ∃ X, F2 = X ++ R.
Proof.
  apply sorted_app in Hs as (_ & Hs2 & _). apply sorted_cons in Hs2 as [Hs2 _]. unfold join_next. destruct F2 as [|[q sq] F].
  - split_and!; [lia|constructor|set_solver| |done|done|done|by exists []]. intros x. pose proof (covers_nil x). tauto.
  - pose proof (HF (q, sq) ltac:(set_solver)) as Hq. pose proof (Hoff (q, sq) ltac:(set_solver)) as Ho. pose proof (Hsz (q, sq) ltac:(set_solver)) as Hz. unfold off in Ho. cbn in Hq, Ho, Hz.
    pose proof Hs2 as Hs3. apply sorted_cons in Hs3 as [Hs3 Hq2]. destruct (Z.eqb_spec (a + s * 16) q) as [E|E].
    + split_and!; [lia|done| | |cbn; lia| | |by exists [(q, sq)]].
      * intros b Hb. destruct (Hq2 b Hb) as [G1 G2]. cbn in G1, G2. split; [set_solver|]. lia.
      * intros x. rewrite covers_cons. cbn. assert (a ≤ x < a + (s + sq) * 16 ↔ q ≤ x < q + sq * 16 ∨ a ≤ x < a + s * 16) by lia. tauto.
      * intros c Hc G1 G2. pose proof (G2 (q, sq) ltac:(set_solver)) as G3. unfold off in *. cbn in *. lia.
      * intros T _ HT. specialize (HT (q, sq) ltac:(set_solver)). cbn in HT. lia.
    + split_and!; [lia|done| |intros x; tauto|done|done|done|by exists []].
      intros b Hb. split; [done|]. apply elem_of_cons in Hb as [->|Hb]; cbn; [lia|]. destruct (Hq2 b Hb) as [G1 G2]. cbn in G1, G2. lia.
Qed.

Lemma join_ok : let N := join_prev P p sp a (join_next a s F2) in
  StronglySorted sep N ∧ (∀ x, covers N x ↔ covers (P ++ (p, sp) :: F2) x ∨ a ≤ x < a + s * 16) ∧
  (∀ c, 1 ≤ c.2 → off c (a, s) → (∀ d, d ∈ P ++ (p, sp) :: F2 → off c d) → ∀ d, d ∈ N → off c d) ∧
  (∃ c, c ∈ N ∧ s ≤ c.2) ∧ (length N ≤ S (length (P ++ (p, sp) :: F2)))%nat.
Proof.
  pose proof join_next_sep as Hj. destruct (join_next a s F2) as [s1 R]. destruct Hj as (Hs1 & HsR & HR & Hcov & Hlen & Hjo & _ & _). unfold join_prev. cbn [fst snd].
  pose proof (Hoff (p, sp) ltac:(set_solver)) as Hop. unfold off in Hop. cbn in Hop. apply sorted_app in Hs as (HsP & Hs2 & HsPF). apply sorted_cons in Hs2 as [Hs2 HpF].
  assert (HPp : ∀ b, b ∈ P → sep b (p, sp)) by (intros b Hb; apply HsPF; set_solver).
  assert (HPR : ∀ b c, b ∈ P → c ∈ R → sep b c) by (intros b c Hb [Hc _]%HR; apply HsPF; set_solver).
  assert (Hoc : ∀ c, 1 ≤ c.2 → off c (a, s) → (∀ d, d ∈ P ++ (p, sp) :: F2 → off c d) → off c (a, s1) ∧ off c (p, sp) ∧ ∀ d, d ∈ P ∨ d ∈ R → off c d).
  { intros c Hc Hca Hcd. split; [apply Hjo; [done|done|set_solver]|]. split; [apply Hcd; set_solver|]. intros d [Hd|[Hd _]%HR]; apply Hcd; set_solver. }
  destruct (Z.eqb_spec (p + sp * 16) a) as [E|E]; split_and!.
  - apply sorted_app. split_and!; [done| |].
    + apply sorted_cons. split; [done|]. intros c Hc. destruct (HR c Hc) as (G0 & G1 & G2). split; cbn; lia.
    + intros b c Hb [->|Hc]%elem_of_cons; [by apply HPp|by apply HPR].
  - intros x. rewrite !covers_app, !covers_cons. cbn [fst snd]. specialize (Hcov x).
    assert (p ≤ x < p + (sp + s1) * 16 ↔ p ≤ x < p + sp * 16 ∨ a ≤ x < a + s1 * 16) by lia. tauto.
  - intros c Hc Hca Hcd d Hd. destruct (Hoc c Hc Hca Hcd) as (G1 & G2 & G3). apply elem_of_app in Hd as [Hd|[->|Hd]%elem_of_cons]; [by apply G3; left| |by apply G3; right].
    unfold off in *. cbn in *. lia.
  - exists (p, sp + s1). split; [set_solver|]. cbn. lia.
  - rewrite !length_app. cbn. lia.
  - apply sorted_app. split_and!; [done| |].
    + apply sorted_cons. split; [apply sorted_cons; split; [done|]|].
      * intros c Hc. destruct (HR c Hc) as (G0 & G1 & G2). by split.
      * intros c [->|Hc]%elem_of_cons; [split; cbn; lia|]. apply HpF. by apply HR.
    + intros b c Hb [->|[->|Hc]%elem_of_cons]%elem_of_cons; [by apply HPp| |by apply HPR]. destruct (HPp b Hb) as [G1 G2]. cbn in G1, G2. split; cbn; lia.
  - intros x. rewrite !covers_app, !covers_cons. cbn [fst snd]. specialize (Hcov x). tauto.
  - intros c Hc Hca Hcd d Hd. destruct (Hoc c Hc Hca Hcd) as (G1 & G2 & G3).
    apply elem_of_app in Hd as [Hd|[->|[->|Hd]%elem_of_cons]%elem_of_cons]; [by apply G3; left|done|done|by apply G3; right].
  - exists (a, s1). split; [set_solver|]. cbn. lia.
  - rewrite !length_app. cbn. lia.
Qed.
End Join.

(** The memory has changed at most in the header at [a]. *)
Definition wrote (m m' : bytes) (a : Z) : Prop := (∀ b, hdr_apart a b → hdr m' b = hdr m b) ∧ ∀ x, ¬ (a ≤ x < a + 16) → m' x = m x.

Lemma wrote_trans m m1 m2 a : wrote m m1 a → wrote m1 m2 a → wrote m m2 a.
Proof. intros [H1 G1] [H2 G2]. split; [intros b Hb; by rewrite H2, H1|intros x Hx; by rewrite G2, G1]. Qed.

Lemma wrote_ptr m a v : wrote m (st64 m a v) a.
Proof. split; [intros b Hb; by apply hdr_put_ptr_ne|intros x Hx; unfold st64; apply st_out; lia]. Qed.

Lemma wrote_size m a v : wrote m (st32 m (a + 8) v) a.
Proof. split; [intros b Hb; by apply hdr_put_size_ne|intros x Hx; unfold st32; apply st_out; lia]. Qed.

Lemma put_ptr_run {B} (k : unit → M uheap B) env w a v : bind (put_ptr a v) k env w = k tt env (set_u_mem (st64 (u_mem w) a v) w).
Proof. done. Qed.

Lemma put_size_run {B} (k : unit → M uheap B) env w a v : bind (put_size a v) k env w = k tt env (set_u_mem (st32 (u_mem w) (a + 8) v) w).
Proof. done. Qed.

Lemma gets_mem_run {B} (k : bytes → M uheap B) env w : bind (gets u_mem) k env w = k (u_mem w) env w.
Proof. done. Qed.

Lemma hdr_fields m a v : hdr m a = v → h_ptr m a = v.1 ∧ h_size m a = v.2.
Proof. by intros <-. Qed.

(** Writing both fields, the size first. *)
Lemma put_both env w a v n :
  0 ≤ v < 2 ^ 64 → 0 ≤ n < 2 ^ 32 → ∃ m', put_ptr a v env (set_u_mem (st32 (u_mem w) (a + 8) n) w) = Ret tt env (set_u_mem m' w) ∧ hdr m' a = (v, n) ∧ wrote (u_mem w) m' a.
Proof.
  intros Hv Hn. eexists. split; [done|]. cbn [u_mem set_u_mem]. split.
  - rewrite hdr_put_ptr by done. f_equal. by destruct (hdr_fields _ _ _ (hdr_put_size (u_mem w) a n Hn)).
  - eapply wrote_trans; [apply wrote_size|apply wrote_ptr].
Qed.

Lemma join_next_run env w a s p sp F2 :
  let m := u_mem w in let '(s1, R) := join_next a s F2 in
  base < a → 1 ≤ s → h_size m a = s → hdr m p = (first_of F2 base, sp) → links m base F2 → hdr_apart a p → (∀ b, b ∈ F2 → hdr_apart a b.1) →
  0 ≤ base < 2 ^ 64 → (∀ b, b ∈ F2 → 0 ≤ b.1 < 2 ^ 64 ∧ 0 ≤ b.2) → 0 ≤ s1 < 2 ^ 32 →
  ∃ m1, (if a + h_size m a * sizeof_Header =? h_ptr m p then
           put_size a (u32 (h_size m a + h_size m (h_ptr m p))) ;; m <- gets u_mem ;; put_ptr a (h_ptr m (h_ptr m p))
         else put_ptr a (h_ptr m p)) env w = Ret tt env (set_u_mem m1 w) ∧ hdr m1 a = (first_of R base, s1) ∧ wrote m m1 a.
Proof.
  intros m. destruct (join_next a s F2) as [s1 R] eqn:Ej. intros Ha Hs1 Hs Hp Hl Hap HaF Hb HF Hsz. destruct (hdr_fields _ _ _ Hp) as [-> _]. cbn [fst]. rewrite Hs.
  change sizeof_Header with 16. unfold join_next in Ej. destruct F2 as [|[q sq] F]; cbn [first_of].
  - injection Ej as <- <-. rewrite (proj2 (Z.eqb_neq _ _)) by lia. eexists. split; [done|]. split; [fold m; by rewrite hdr_put_ptr, Hs|apply wrote_ptr].
  - cbn [fst]. destruct (HF (q, sq) ltac:(set_solver)) as [Hq Hsq]. cbn in Hq, Hsq. destruct (Z.eqb_spec (a + s * 16) q) as [E|E]; injection Ej as <- <-.
    + destruct Hl as [Hq1 Hl]. destruct (hdr_fields _ _ _ Hq1) as [Eq1 Eq2]. cbn [fst snd] in Eq1, Eq2. rewrite Eq2, u32_small by done. rewrite put_size_run, gets_mem_run. cbn [u_mem set_u_mem]. fold m.
      pose proof (HaF (q, sq) ltac:(set_solver)) as Haq. cbn in Haq.
      assert (E1 : h_ptr (st32 m (a + 8) (s + sq)) p = q). { destruct (hdr_fields _ _ _ (eq_trans (hdr_put_size_ne m a p (s + sq) Hap) Hp)) as [-> _]. done. }
      rewrite E1. assert (E2 : h_ptr (st32 m (a + 8) (s + sq)) q = first_of F base).
      { destruct (hdr_fields _ _ _ (eq_trans (hdr_put_size_ne m a q (s + sq) Haq) Hq1)) as [-> _]. done. }
      rewrite E2. apply put_both; [|done]. destruct F as [|c F]; [done|]. by apply (HF c); set_solver.
    + eexists. split; [done|]. split; [fold m; by rewrite hdr_put_ptr, Hs|apply wrote_ptr].
Qed.

(** The second step: the block before it. *)
Lemma join_prev_run env w a s1 p sp nx :
  let m := u_mem w in
  hdr m a = (nx, s1) → h_size m p = sp → hdr_apart p a → 0 ≤ nx < 2 ^ 64 → 0 ≤ a < 2 ^ 64 → 0 ≤ sp + s1 < 2 ^ 32 →
  ∃ m2, (if p + h_size m p * sizeof_Header =? a then
           put_size p (u32 (h_size m p + h_size m a)) ;; m <- gets u_mem ;; put_ptr p (h_ptr m a)
         else put_ptr p a) env w = Ret tt env (set_u_mem m2 w) ∧ hdr m2 p = (if p + sp * 16 =? a then (nx, sp + s1) else (a, sp)) ∧ wrote m m2 p.
Proof.
  intros m Ha Hp Hap Hnx Hra Hsz. destruct (hdr_fields _ _ _ Ha) as [Ea1 Ea2]. cbn [fst snd] in Ea1, Ea2. rewrite Hp, Ea2. change sizeof_Header with 16. destruct (_ =? a).
  - rewrite u32_small, put_size_run, gets_mem_run by done. cbn [u_mem set_u_mem]. fold m.
    assert (E : h_ptr (st32 m (p + 8) (sp + s1)) a = nx) by (by destruct (hdr_fields _ _ _ (eq_trans (hdr_put_size_ne m p a (sp + s1) Hap) Ha)) as [-> _]).
    rewrite E. by apply put_both.
  - eexists. split; [done|]. split; [fold m; by rewrite hdr_put_ptr, Hp|apply wrote_ptr].
Qed.

(** What does not change for the blocks [A]. *)
Definition kept (w w' : uheap) (A : list block) : Prop :=
  (∀ b x, b ∈ A → b.1 ≤ x < b.1 + b.2 * 16 → u_mem w' x = u_mem w x) ∧ u_brk w' = u_brk w ∧ u_limit w' = u_limit w.

Lemma hdr_apart_sym a b : hdr_apart a b → hdr_apart b a.
Proof. unfold hdr_apart. tauto. Qed.

Lemma links_join m m2 P p sp a s F2 :
  let '(s1, R) := join_next a s F2 in
  links m base (P ++ (p, sp) :: F2) → (∀ b, b ∈ P ++ F2 → hdr m2 b.1 = hdr m b.1) → (∃ X, F2 = X ++ R) →
  hdr m2 p = (if p + sp * 16 =? a then (first_of R base, sp + s1) else (a, sp)) → (p + sp * 16 ≠ a → hdr m2 a = (first_of R base, s1)) →
  links m2 base (join_prev P p sp a (s1, R)).
Proof.
  destruct (join_next a s F2) as [s1 R]. intros Hl Hf [X EX] Hp Ha. apply links_app in Hl as [HlP Hl]. cbn [first_of fst] in HlP. destruct Hl as [_ HlF].
  assert (HlP2 : links m2 p P) by (apply (links_frame m); [set_solver|done]).
  assert (HlR : links m2 base R). { rewrite EX in HlF. apply links_app in HlF as [_ HlF]. apply (links_frame m); [set_solver|done]. }
  unfold join_prev. cbn [fst snd]. destruct (Z.eqb_spec (p + sp * 16) a) as [E|E]; apply links_app; (split; [done|]); cbn; [done|]. split; [done|]. split; [by apply Ha|done].
Qed.

(** Where a block goes: after the last block below it. *)
Lemma place_of w F A a s : heap_ok base w F A → (a, s) ∈ A →
  ∃ P p sp F2, (base, 0) :: F = P ++ (p, sp) :: F2 ∧ p < a ∧ (∀ b, b ∈ F2 → a < b.1) ∧ (∀ b, b ∈ P ++ (p, sp) :: F2 → off (a, s) b).
Proof.
  intros HO Ha. assert (Hoff : ∀ b, b ∈ (base, 0) :: F → off (a, s) b) by (intros b; by apply (ho_apart _ _ _ _ HO)).
  destruct (split_at_addr ((base, 0) :: F) a (ho_sorted _ _ _ _ HO)) as (l1 & F2 & E & H1 & H2).
  { intros b Hb Eb. apply Hoff in Hb. unfold off in Hb. cbn in Hb. lia. }
  destruct l1 as [|b0 l0] using rev_ind.
  - cbn in E. pose proof (H2 (base, 0) ltac:(rewrite <-E; set_solver)) as H. pose proof (ho_above _ _ _ _ HO _ Ha) as H'. cbn in H, H'. lia.
  - destruct b0 as [p sp]. exists l0, p, sp, F2. rewrite <-app_assoc in E. cbn in E. split; [done|]. split; [apply (H1 (p, sp)); set_solver|]. split; [done|]. by rewrite <-E.
Qed.

(** Membership in lists built from parts. *)

Section Free.
Context (w : uheap) (F A1 A2 : list block) (a s : Z) (P : list block) (p sp : Z) (F2 : list block).
Context (HO : heap_ok base w F (A1 ++ (a, s) :: A2)) (E : (base, 0) :: F = P ++ (p, sp) :: F2).
Context (Hp : p < a) (HF : ∀ b, b ∈ F2 → a < b.1) (Hoff : ∀ b, b ∈ P ++ (p, sp) :: F2 → off (a, s) b).

Lemma freed_block : 1 ≤ s ∧ base < a ∧ a + s * 16 ≤ u_brk w ∧ h_size (u_mem w) a = s ∧ 0 < base ∧ u_brk w < 2 ^ 36.
Proof.
  destruct HO as [_ _ _ L4 _ _ L7 L8 L9 [B0 [_ [B2 B3]]]]. specialize (L4 (a, s)). specialize (L7 (a, s)). specialize (L8 (a, s)). specialize (L9 (a, s)).
  rewrite !elem_of_app, elem_of_cons in *. cbn in *. split_and!; try (apply L4 || apply L7 || apply L9 || apply L8; tauto); lia.
Qed.

(** A block of the list: the static header, or one of at least a unit. *)
Lemma listed_block b : b ∈ P ++ (p, sp) :: F2 → (b = (base, 0) ∨ 1 ≤ b.2) ∧ base ≤ b.1 ∧ 0 ≤ b.2 ∧ b.1 + b.2 * 16 ≤ u_brk w ∧ hdr_apart a b.1.
Proof.
  intros Hb. pose proof (off_apart _ _ (Hoff b Hb)) as Hap. destruct HO as [_ _ L3 L4 _ _ _ _ L9 [B0 [B1 [B2 B3]]]].
  rewrite <-E in Hb. apply elem_of_cons in Hb as [->|Hb]; [cbn in *; split; [by left|]; split_and!; lia || done|].
  pose proof (L4 b ltac:(solve_in)). pose proof (L9 b ltac:(solve_in)). apply sorted_cons in L3 as [_ L3]. destruct (L3 b Hb) as [G _]. cbn in G. split; [by right|]. split_and!; lia || done.
Qed.

Lemma above_size b : b ∈ F2 → 1 ≤ b.2.
Proof.
  intros Hb. destruct (listed_block b ltac:(solve_in)) as ([->|?] & _); [|done]. apply HF in Hb. cbn in Hb. pose proof freed_block. lia.
Qed.

Lemma sorted_nodes : StronglySorted sep (P ++ (p, sp) :: F2).
Proof. rewrite <-E. apply (ho_sorted _ _ _ _ HO). Qed.

Lemma prev_size : 0 ≤ sp ∧ base ≤ p ∧ p + sp * 16 ≤ a.
Proof.
  destruct (listed_block (p, sp) ltac:(solve_in)) as (_ & H1 & H2 & _). pose proof (Hoff (p, sp) ltac:(solve_in)) as H3. unfold off in H3. cbn in *. lia.
Qed.

Lemma joined : let '(s1, R) := join_next a s F2 in s ≤ s1 ∧ a + s1 * 16 ≤ u_brk w ∧ (∃ X, F2 = X ++ R) ∧ (∀ b, b ∈ R → b ∈ F2) ∧ 0 ≤ first_of R base < 2 ^ 64.
Proof.
  pose proof (join_next_sep P p sp a s F2 sorted_nodes Hp HF Hoff ltac:(apply freed_block) above_size ltac:(apply prev_size)) as Hj.
  destruct (join_next a s F2) as [s1 R]. destruct Hj as (G1 & _ & G3 & _ & _ & _ & G7 & HX). pose proof freed_block as (B1 & B2 & B3 & B4 & B5 & B6).
  split_and!; try done; [apply G7; [done|intros d Hd; apply listed_block; solve_in]|intros b Hb; by apply G3|..].
  all: destruct R as [|c R]; cbn; [lia|]; destruct (G3 c ltac:(solve_in)) as [Hc _]; destruct (listed_block c ltac:(solve_in)) as (_ & ? & ? & ? & _); lia.
Qed.

(** The blocks of the new list. *)
Lemma joined_block b : b ∈ join_prev P p sp a (join_next a s F2) → (b = (base, 0) ∨ 1 ≤ b.2) ∧ b.1 + b.2 * 16 ≤ u_brk w.
Proof.
  pose proof joined as Hj. destruct (join_next a s F2) as [s1 R]. destruct Hj as (G1 & G2 & _ & G3 & _). pose proof freed_block as (B1 & _). pose proof prev_size as (B2 & _).
  assert (Hl : ∀ b, b ∈ P ++ (p, sp) :: F2 → (b = (base, 0) ∨ 1 ≤ b.2) ∧ b.1 + b.2 * 16 ≤ u_brk w) by (intros c Hc; by apply listed_block in Hc as (? & _ & _ & ? & _)).
  unfold join_prev. cbn [fst snd]. destruct (Z.eqb_spec (p + sp * 16) a) as [Ep|Ep]; rewrite elem_of_app, !elem_of_cons.
  - intros [Hb|[->|Hb]]; [apply Hl; solve_in|cbn; lia|apply G3 in Hb; apply Hl; solve_in].
  - intros [Hb|[->|[->|Hb]]]; [apply Hl; solve_in|apply Hl; solve_in|cbn; lia|apply G3 in Hb; apply Hl; solve_in].
Qed.

Lemma joined_base : ∃ F', join_prev P p sp a (join_next a s F2) = (base, 0) :: F'.
Proof.
  pose proof freed_block as (_ & B & _). unfold join_prev. destruct (join_next a s F2) as [s1 R]. cbn [fst snd]. clear -E B. destruct P as [|b0 P']; cbn in E.
  - injection E as <- <- _. rewrite (proj2 (Z.eqb_neq _ _)) by lia. by eexists.
  - injection E as <- _. case_match; by eexists.
Qed.

(** The list that comes out, from what is in it. *)
Lemma heap_ok_join w' :
  links (u_mem w') base (join_prev P p sp a (join_next a s F2)) → u_freep w' = p → kept w w' (A1 ++ A2) →
  ∃ F', heap_ok base w' F' (A1 ++ A2) ∧ (∀ x, covers F' x ↔ covers F x ∨ a ≤ x < a + s * 16) ∧ (∃ c, c ∈ F' ∧ s ≤ c.2) ∧ (length F' ≤ S (length F))%nat.
Proof.
  intros Hl Hfp [Hk1 [Hk2 Hk3]].
  destruct (join_ok P p sp a s F2 sorted_nodes Hp HF Hoff ltac:(apply freed_block) above_size ltac:(apply prev_size)) as (J1 & J2 & J3 & (c & J4 & J5) & J6).
  pose proof joined_block as HN'. destruct joined_base as [F' EF]. pose proof freed_block as (B1 & _).
  assert (Hpin : p ∈ (join_prev P p sp a (join_next a s F2)).*1) by (unfold join_prev; case_match; rewrite fmap_app, elem_of_app, !fmap_cons, !elem_of_cons; cbn; tauto).
  destruct HO as [_ _ _ L4 L5 L6 L7 L8 L9 B]. rewrite EF in *. exists F'.
  assert (HF' : ∀ b, b ∈ F' → 1 ≤ b.2).
  { intros b Hb. destruct (HN' b ltac:(solve_in)) as [[->|?] _]; [|done]. apply sorted_cons in J1 as [_ J1]. destruct (J1 _ Hb) as [H _]. cbn in H. lia. }
  assert (HA : ∀ b, b ∈ A1 ++ A2 → b ∈ A1 ++ (a, s) :: A2) by (intros b; rewrite !elem_of_app, elem_of_cons; tauto).
  split_and!.
  - split; rewrite ?Hk2, ?Hk3; try done.
    + by rewrite Hfp.
    + intros b [Hb|Hb]%elem_of_app; [by apply HF'|]. apply L4, elem_of_app. right. by apply HA.
    + intros b d Hb Hd. apply J3; [apply L4, elem_of_app; right; by apply HA| | |done].
      * apply sorted_app in L6 as (_ & L6 & L6'). apply sorted_cons in L6 as [_ L6]. apply elem_of_app in Hb as [Hb|Hb]; [apply L6'; [done|solve_in]|apply off_sym; by apply L6].
      * intros d' Hd'. rewrite <-E in Hd'. apply L5; [by apply HA|done].
    + apply sorted_app in L6 as (K1 & K2 & K3). apply sorted_cons in K2 as [K2 _]. apply sorted_app. split_and!; [done|done|]. intros b d Hb Hd. apply K3; [done|solve_in].
    + intros b Hb. by apply L7, HA.
    + intros b Hb. rewrite <-(L8 b) by by apply HA. unfold h_size, ld32. apply ld_ext. intros x Hx. pose proof (L4 b ltac:(apply elem_of_app; right; by apply HA)). apply (Hk1 b); [done|lia].
    + intros b [Hb|Hb]%elem_of_app; [apply HN'; solve_in|]. apply L9, elem_of_app. right. by apply HA.
  - intros x. pose proof (J2 x) as J. rewrite <-E in J. rewrite !covers_cons in J. cbn in J. assert (¬ base ≤ x < base + 0) by lia. tauto.
  - exists c. split; [|done]. apply elem_of_cons in J4 as [->|J4]; [cbn in J5; lia|done].
  - cbn in J6. assert (length (P ++ (p, sp) :: F2) = S (length F)) as El by (by rewrite <-E). lia.
Qed.

(** The memory after free. *)
Lemma free_memory env fuel : (length F + 2 ≤ fuel)%nat →
  ∃ m2, ufree fuel (a + sizeof_Header) env w = Ret tt env (set_u_freep p (set_u_mem m2 w)) ∧ links m2 base (join_prev P p sp a (join_next a s F2)) ∧
    ∀ x, ¬ (a ≤ x < a + 16) → ¬ (p ≤ x < p + 16) → m2 x = u_mem w x.
Proof.
  intros Hf. pose proof freed_block as (B1 & B2 & B3 & B4 & B5 & B6). pose proof prev_size as (P1 & P2 & P3). pose proof joined as Hj. pose proof (ho_links _ _ _ _ HO) as Hl. rewrite E in Hl.
  destruct (listed_block (p, sp) ltac:(solve_in)) as (_ & _ & _ & _ & Hap). cbn in Hap. pose proof Hl as Hl'. apply links_app in Hl' as [_ [Lp LF]]. cbn [fst snd] in Lp.
  assert (HapF : ∀ b, b ∈ F2 → hdr_apart a b.1) by (intros b Hb; apply listed_block; solve_in).
  assert (HF64 : ∀ b, b ∈ F2 → 0 ≤ b.1 < 2 ^ 64 ∧ 0 ≤ b.2) by (intros b Hb; destruct (listed_block b ltac:(solve_in)) as (_ & ? & ? & ? & _); lia).
  pose proof (join_next_run env w a s p sp F2) as Hr1. pose proof (λ m2, links_join (u_mem w) m2 P p sp a s F2) as Hlj. destruct (join_next a s F2) as [s1 R]. destruct Hj as (G1 & G2 & HX & HR & HRf).
  destruct Hr1 as (m1 & E1 & Hm1 & W1); try done; [lia..|].
  assert (Hp1 : hdr m1 p = (first_of F2 base, sp)) by (rewrite <-Lp; by apply W1). destruct (hdr_fields _ _ _ Hp1) as [_ Hp1s].
  destruct (join_prev_run env (set_u_mem m1 w) a s1 p sp (first_of R base)) as (m2 & E2 & Hm2 & W2); cbn [u_mem set_u_mem] in *; try done; [by apply hdr_apart_sym|lia..|].
  exists m2. split_and!.
  - unfold ufree. rewrite Z.add_simpl_r, gets_mem_run. unfold bind at 1, gets at 1.
    rewrite (free_place_ok (u_mem w) F P p sp F2 (u_freep w) a fuel E) by first [done|by apply (ho_links _ _ _ _ HO)|by apply (ho_sorted _ _ _ _ HO)|by apply (ho_freep _ _ _ _ HO)].
    rewrite (bind_Ret _ _ _ _ _ _ _ E1). rewrite gets_mem_run. cbn [u_mem set_u_mem]. rewrite (bind_Ret _ _ _ _ _ _ _ E2). done.
  - apply Hlj; try done.
    + intros b Hb. assert (Hb' : hdr_apart a b.1 ∧ hdr_apart p b.1).
      { split; [apply listed_block; revert Hb; rewrite !elem_of_app, elem_of_cons; tauto|]. pose proof sorted_nodes as Hs. apply sorted_app in Hs as (_ & Hs & Hs'). apply sorted_cons in Hs as [_ Hs].
        apply elem_of_app in Hb as [Hb|Hb]; [right; apply (Hs' b (p, sp)); [done|solve_in]|left; by apply (Hs b)]. }
      destruct W1 as [W1 _], W2 as [W2 _]. rewrite W2, W1 by tauto. done.
    + intros _. destruct W2 as [W2 _]. rewrite W2 by by apply hdr_apart_sym. done.
  - intros x Hx1 Hx2. destruct W1 as [_ W1], W2 as [_ W2]. by rewrite W2, W1.
Qed.
End Free.

Lemma ufree_run env w F A1 A2 a s fuel :
  heap_ok base w F (A1 ++ (a, s) :: A2) → (length F + 2 ≤ fuel)%nat →
  ∃ w' F', ufree fuel (a + sizeof_Header) env w = Ret tt env w' ∧ heap_ok base w' F' (A1 ++ A2) ∧ (∀ x, covers F' x ↔ covers F x ∨ a ≤ x < a + s * 16) ∧
    kept w w' (A1 ++ A2) ∧ (∃ c, c ∈ F' ∧ s ≤ c.2) ∧ (length F' ≤ S (length F))%nat.
Proof.
  intros HO Hf. destruct (place_of w F _ a s HO ltac:(solve_in)) as (P & p & sp & F2 & E & Hp & HF & Hoff).
  destruct (free_memory w F A1 A2 a s P p sp F2 HO E Hp HF Hoff env fuel Hf) as (m2 & Er & Hl & Hm).
  assert (Hk : kept w (set_u_freep p (set_u_mem m2 w)) (A1 ++ A2)).
  { split; [|done]. intros b x Hb Hx. cbn. destruct HO as [_ _ _ L4 L5 L6 _ _ _ _].
    assert (Ho1 : off b (a, s)). { apply sorted_app in L6 as (_ & L6 & L6'). apply sorted_cons in L6 as [_ L6]. apply elem_of_app in Hb as [Hb|Hb]; [apply L6'; [done|solve_in]|apply off_sym; by apply L6]. }
    assert (HbA : b ∈ A1 ++ (a, s) :: A2) by (revert Hb; rewrite !elem_of_app, elem_of_cons; tauto).
    pose proof (L5 b (p, sp) HbA ltac:(rewrite E; solve_in)) as Ho2. pose proof (L4 b ltac:(apply elem_of_app; by right)). unfold off in *. cbn in *. apply Hm; lia. }
  destruct (heap_ok_join w F A1 A2 a s P p sp F2 HO E Hp HF Hoff (set_u_freep p (set_u_mem m2 w)) Hl eq_refl Hk) as (F' & H1 & H2 & H3 & H4).
  exists (set_u_freep p (set_u_mem m2 w)), F'. done.
Qed.

(** ** Taking a block *)

(** What makes the list and the blocks handed out once [(a, n)] has been taken. *)
Lemma heap_ok_take w w' F A F' a n :
  heap_ok base w F A → links (u_mem w') base ((base, 0) :: F') → u_freep w' ∈ base :: F'.*1 → StronglySorted sep ((base, 0) :: F') →
  (∀ b, b ∈ (base, 0) :: F' → off (a, n) b) → (∀ c, 1 ≤ c.2 → (∀ d, d ∈ (base, 0) :: F → off c d) → off (a, n) c ∧ ∀ d, d ∈ (base, 0) :: F' → off c d) →
  (∀ b, b ∈ F' → 1 ≤ b.2 ∧ b.1 + b.2 * 16 ≤ u_brk w) → 1 ≤ n → a + n * 16 ≤ u_brk w → base < a → h_size (u_mem w') a = n → kept w w' A →
  heap_ok base w' F' ((a, n) :: A).
Proof.
  intros [_ _ _ L4 L5 L6 L7 L8 L9 B] H1 H2 H3 H4 H5 H6 Hn Ht Hb Hh [K1 [K2 K3]].
  assert (HA : ∀ c, c ∈ A → off (a, n) c ∧ ∀ d, d ∈ (base, 0) :: F' → off c d).
  { intros c Hc. apply H5; [apply L4; solve_in|]. intros d Hd. by apply L5. }
  split; rewrite ?K2, ?K3; try done.
  - intros b. rewrite elem_of_app, elem_of_cons. intros [Hb'|[->|Hb']]; [by apply H6|done|apply L4; solve_in].
  - intros b c [->|Hb']%elem_of_cons Hc; [by apply H4|by apply HA].
  - apply sorted_cons. split; [done|]. intros c Hc. by destruct (HA c Hc).
  - intros b [->|Hb']%elem_of_cons; [done|by apply L7].
  - intros b [->|Hb']%elem_of_cons; [done|]. rewrite <-(L8 b) by done. unfold h_size, ld32. apply ld_ext. intros x Hx.
    pose proof (L4 b ltac:(solve_in)). apply (K1 b); [done|lia].
  - intros b. rewrite elem_of_app, elem_of_cons. intros [Hb'|[->|Hb']]; [by apply H6|done|apply L9; solve_in].
Qed.

Section Take.
Context (w : uheap) (F A P : list block) (pv sv c sc n : Z) (R : list block).
Context (HO : heap_ok base w F A) (E : (base, 0) :: F = P ++ (pv, sv) :: (c, sc) :: R) (Hn : 1 ≤ n ≤ sc).

Lemma taken_from : c + sc * 16 ≤ u_brk w ∧ base + 16 ≤ c ∧ sep (pv, sv) (c, sc) ∧ base ≤ pv ∧ (∀ b, b ∈ P → sep b (pv, sv) ∧ sep b (c, sc)) ∧ (∀ b, b ∈ R → sep (pv, sv) b ∧ sep (c, sc) b) ∧
  0 < base ∧ u_brk w < 2 ^ 36 ∧ (∀ b c, b ∈ P → c ∈ R → sep b c) ∧ StronglySorted sep P ∧ StronglySorted sep R ∧ first_of R base < 2 ^ 64 ∧ 0 ≤ first_of R base.
Proof.
  destruct HO as [_ _ L3 L4 _ _ _ _ L9 [B0 [B1 [B2 B3]]]]. pose proof L3 as Hb. apply sorted_cons in Hb as [_ Hb]. pose proof E as E'. rewrite E in L3.
  apply sorted_app in L3 as (S1 & S2 & S3). apply sorted_cons in S2 as [S2 S4]. apply sorted_cons in S2 as [S2 S5].
  assert (EF : ∀ b, b = (c, sc) ∨ b ∈ R → b ∈ F). { intros b Hb'. destruct P as [|b0 P']; cbn in E'; [injection E' as _ _ E'|injection E' as _ E']; rewrite E'; solve_in. }
  assert (Hc : (c, sc) ∈ F) by (apply EF; by left).
  assert (Hpv : base ≤ pv). { destruct P as [|b P']; cbn in E'; [by injection E' as <- _ _|]. injection E' as E1 E2. pose proof (Hb (pv, sv) ltac:(rewrite E2; solve_in)) as [G _]. cbn in G. lia. }
  pose proof (L9 (c, sc) ltac:(solve_in)) as Ht. destruct (Hb (c, sc) Hc) as [Hbc _]. cbn in Ht, Hbc.
  assert (HR : ∀ b, b ∈ R → 0 ≤ b.1 < 2 ^ 64). 
  { intros b HbR. assert (HbF : b ∈ F) by (apply EF; by right).
    pose proof (L9 b ltac:(solve_in)). pose proof (L4 b ltac:(solve_in)). destruct (Hb b HbF) as [G _]. cbn in G. lia. }
  split_and!; try done; try lia; [apply S4; solve_in| | | |destruct R as [|b R']; cbn; [lia|apply HR; solve_in]..].
  - intros b HbP. split; apply S3; solve_in.
  - intros b HbR. split; [apply S4; solve_in|by apply S5].
  - intros b d HbP Hd. apply S3; solve_in.
Qed.

(** What take_block leaves: the block [(a, n)] is handed out. *)
Definition taken (w' : uheap) (r : Z) : Prop :=
  ∃ F', heap_ok base w' F' ((r - 16, n) :: A) ∧ (∀ x, covers F x ↔ covers F' x ∨ r - 16 ≤ x < r - 16 + n * 16) ∧ kept w w' A ∧ base < r - 16.

(** Blocks of [A] and the headers that are written. *)
Lemma kept_headers m' (hs : list Z) : (∀ x, (∀ h, h ∈ hs → ¬ (h ≤ x < h + 16)) → m' x = u_mem w x) →
  (∀ h b, h ∈ hs → b ∈ A → b.1 + b.2 * 16 ≤ h ∨ h + 16 ≤ b.1) → ∀ fp, kept w (set_u_freep fp (set_u_mem m' w)) A.
Proof. intros Hm Ho fp. split; [|done]. intros b x Hb Hx. cbn. apply Hm. intros h Hh Hx'. destruct (Ho h b Hh Hb); lia. Qed.

Lemma whole_list F' : P ++ (pv, sv) :: R = (base, 0) :: F' → ∀ b, b ∈ F' → b ∈ F.
Proof.
  intros EN b Hb. pose proof E as E'. destruct P as [|b0 P']; cbn in EN, E'.
  - injection EN as _ _ <-. injection E' as _ _ ->. solve_in.
  - injection EN as _ <-. injection E' as _ ->. revert Hb. rewrite !elem_of_app, !elem_of_cons. tauto.
Qed.

Lemma take_whole env : sc = n → ∃ w', take_block n pv c env w = Ret (c + 16) env w' ∧ taken w' (c + 16).
Proof.
  intros Hsc. pose proof taken_from as (T1 & T2 & T3 & T4 & T5 & T6 & T7 & T8 & T9 & T10 & T11 & T12 & T13). pose proof (ho_links _ _ _ _ HO) as Hl. rewrite E in Hl.
  apply links_app in Hl as [LP [Lpv [Lc LR]]]. cbn [first_of fst snd] in *. destruct (hdr_fields _ _ _ Lc) as [Ec1 Ec2]. destruct (hdr_fields _ _ _ Lpv) as [_ Epv]. cbn in Ec1, Ec2, Epv.
  set (m' := st64 (u_mem w) pv (first_of R base)). exists (set_u_freep pv (set_u_mem m' w)). split.
  { unfold take_block. rewrite gets_mem_run, Ec2, Hsc, Z.eqb_refl, Ec1. done. }
  destruct (wrote_ptr (u_mem w) pv (first_of R base)) as [W1 W2]. fold m' in W1, W2.
  assert (HE : ∃ F', P ++ (pv, sv) :: R = (base, 0) :: F').
  { pose proof E as E'. destruct P as [|b0 P']; cbn in E'; [injection E' as <- <- _|injection E' as <- _]; by eexists. }
  destruct HE as [F' EN]. exists F'. rewrite Z.add_simpl_r. unfold sep in T3. cbn in T3. destruct HO as [_ _ L3 L4 L5 _ _ _ L9 _].
  assert (HNF : ∀ b, b ∈ (base, 0) :: F' → b ∈ P ∨ b = (pv, sv) ∨ b ∈ R) by (intros b; rewrite <-EN, elem_of_app, elem_of_cons; tauto).
  assert (Hk : kept w (set_u_freep pv (set_u_mem m' w)) A).
  { apply (kept_headers _ [pv]); [intros x Hx; apply W2, Hx; by left|]. intros h b ->%list_elem_of_singleton Hb. pose proof (L5 b (pv, sv) Hb ltac:(rewrite E; solve_in)) as Ho. unfold off in Ho. cbn in Ho. lia. }
  split_and!; [|intros x|done|lia].
  - apply (heap_ok_take w _ F A); try done; cbn [u_mem set_u_mem u_freep set_u_freep].
    + rewrite <-EN. apply links_app. split; [|split].
      * apply (links_frame (u_mem w)); [|done]. intros b Hb. apply W1. right. by apply (T5 b Hb).
      * cbn. unfold m'. rewrite hdr_put_ptr, Epv by lia. done.
      * apply (links_frame (u_mem w)); [|done]. intros b Hb. apply W1. left. by apply (T6 b Hb).
    + assert (Hin : pv ∈ (P ++ (pv, sv) :: R).*1) by (rewrite fmap_app, elem_of_app, fmap_cons, elem_of_cons; cbn; tauto). by rewrite EN in Hin.
    + rewrite <-EN. apply sorted_app. split_and!; [done|apply sorted_cons; split; [done|intros d Hd; by apply T6]|].
      intros b d Hb [->|Hd]%elem_of_cons; [by apply T5|by apply T9].
    + intros b [Hb|[->|Hb]]%HNF; [apply off_sym, sep_off; rewrite <-Hsc; by apply T5|apply off_sym, sep_off; split; cbn; lia|apply sep_off; rewrite <-Hsc; by apply T6].
    + intros d Hd Hdo. split; [apply off_sym; rewrite <-Hsc; apply Hdo; rewrite E; solve_in|]. intros b [Hb|[->|Hb]]%HNF; apply Hdo; rewrite E; solve_in.
    + intros b Hb. apply (whole_list F' EN) in Hb. split; [apply L4|apply L9]; solve_in.
    + lia.
    + lia.
    + lia.
    + destruct (hdr_fields _ _ _ (eq_trans (W1 c ltac:(left; lia)) Lc)) as [_ ->]. done.
  - assert (Hc : covers ((base, 0) :: F) x ↔ covers ((base, 0) :: F') x ∨ c ≤ x < c + n * 16).
    { rewrite E, <-EN, !covers_app, !covers_cons. cbn. rewrite Hsc. tauto. }
    rewrite !covers_cons in Hc. cbn in Hc. assert (¬ base ≤ x < base + 0) by lia. tauto.
Qed.

Lemma part_list F' : P ++ (pv, sv) :: (c, sc - n) :: R = (base, 0) :: F' → ∀ b, b ∈ F' → b ∈ F ∨ b = (c, sc - n).
Proof.
  intros EN b Hb. pose proof E as E'. destruct P as [|b0 P']; cbn in EN, E'.
  - injection EN as _ _ <-. injection E' as _ _ ->. revert Hb. rewrite !elem_of_cons. tauto.
  - injection EN as _ <-. injection E' as _ ->. revert Hb. rewrite !elem_of_app, !elem_of_cons. tauto.
Qed.

Lemma take_part env : n < sc → ∃ w', take_block n pv c env w = Ret (c + (sc - n) * 16 + 16) env w' ∧ taken w' (c + (sc - n) * 16 + 16).
Proof.
  intros Hsc. pose proof taken_from as (T1 & T2 & T3 & T4 & T5 & T6 & T7 & T8 & T9 & T10 & T11 & T12 & T13). pose proof (ho_links _ _ _ _ HO) as Hl. rewrite E in Hl.
  apply links_app in Hl as [LP [Lpv [Lc LR]]]. cbn [first_of fst snd] in *. destruct (hdr_fields _ _ _ Lc) as [Ec1 Ec2]. cbn in Ec1, Ec2.
  set (c' := c + (sc - n) * 16). set (m1 := st32 (u_mem w) (c + 8) (sc - n)). set (m2 := st32 m1 (c' + 8) n). exists (set_u_freep pv (set_u_mem m2 w)).
  assert (Em1 : hdr m1 c = (first_of R base, sc - n)) by (unfold m1; rewrite hdr_put_size, Ec1 by lia; done).
  split.
  { unfold take_block. rewrite gets_mem_run, Ec2, (proj2 (Z.eqb_neq sc n)) by lia. rewrite u32_small by lia. rewrite bind_assoc, put_size_run, bind_assoc, gets_mem_run. cbn [u_mem set_u_mem]. fold m1.
    destruct (hdr_fields _ _ _ Em1) as [_ ->]. cbn [snd]. change sizeof_Header with 16. fold c'. rewrite bind_assoc, put_size_run. done. }
  destruct (wrote_size (u_mem w) c (sc - n)) as [W1 W2]. destruct (wrote_size m1 c' n) as [W3 W4]. fold m1 in W1, W2. fold m2 in W3, W4.
  assert (Hcc : c + 16 ≤ c') by (unfold c'; lia). assert (Ec' : c' + n * 16 = c + sc * 16) by (unfold c'; lia).
  assert (HE : ∃ F', P ++ (pv, sv) :: (c, sc - n) :: R = (base, 0) :: F').
  { pose proof E as E'. destruct P as [|b0 P']; cbn in E'; [injection E' as <- <- _|injection E' as <- _]; by eexists. }
  destruct HE as [F' EN]. exists F'. rewrite Z.add_simpl_r. unfold sep in T3. cbn in T3. destruct HO as [_ _ L3 L4 L5 _ _ _ L9 _].
  assert (HNF : ∀ b, b ∈ (base, 0) :: F' → b ∈ P ∨ b = (pv, sv) ∨ b = (c, sc - n) ∨ b ∈ R) by (intros b; rewrite <-EN, elem_of_app, !elem_of_cons; tauto).
  assert (Hk : kept w (set_u_freep pv (set_u_mem m2 w)) A).
  { apply (kept_headers _ [c; c']); [intros x Hx; rewrite W4, W2; [done|apply Hx; solve_in..]|]. intros h b Hh Hb. pose proof (L5 b (c, sc) Hb ltac:(rewrite E; solve_in)) as Ho. unfold off in Ho. cbn in Ho.
    rewrite !elem_of_cons in Hh. destruct Hh as [->|[->|Hh%elem_of_nil]]; [lia|lia|done]. }
  assert (HP : ∀ b, b ∈ P → b.1 + 16 ≤ c ∧ b.1 + b.2 * 16 < c) by (intros b Hb; destruct (T5 b Hb) as [_ [G1 G2]]; done).
  assert (HR : ∀ b, b ∈ R → c' + 16 ≤ b.1 ∧ c' + n * 16 < b.1) by (intros b Hb; destruct (T6 b Hb) as [_ [G1 G2]]; cbn in *; lia).
  split_and!; [|intros x|done|lia].
  - apply (heap_ok_take w _ F A); try done; cbn [u_mem set_u_mem u_freep set_u_freep].
    + rewrite <-EN. apply links_app. split; [|split; [|split]].
      * apply (links_frame (u_mem w)); [|done]. intros b Hb. destruct (HP b Hb). rewrite W3, W1; [done|right; lia..].
      * cbn [fst]. rewrite W3, W1 by (right; lia). done.
      * cbn [fst snd]. rewrite W3 by (right; lia). done.
      * apply (links_frame (u_mem w)); [|done]. intros b Hb. destruct (HR b Hb). rewrite W3, W1; [done|left; lia..].
    + assert (Hin : pv ∈ (P ++ (pv, sv) :: (c, sc - n) :: R).*1) by (rewrite fmap_app, elem_of_app, fmap_cons, elem_of_cons; cbn; tauto). by rewrite EN in Hin.
    + rewrite <-EN. apply sorted_app. split_and!; [done|apply sorted_cons; split; [apply sorted_cons; split; [done|]|]|].
      * intros d Hd. destruct (HR d Hd). split; cbn; lia.
      * intros d [->|Hd]%elem_of_cons; [split; cbn; lia|by apply T6].
      * intros b d Hb [->|[->|Hd]%elem_of_cons]%elem_of_cons; [by apply T5|destruct (HP b Hb); split; cbn; lia|by apply T9].
    + intros b [Hb|[->|[->|Hb]]]%HNF; [destruct (HP b Hb); right; cbn; lia|right; cbn; lia|right; cbn; unfold c'; lia|destruct (HR b Hb); left; cbn; lia].
    + intros d Hd Hdo. pose proof (Hdo (c, sc) ltac:(rewrite E; solve_in)) as Hoc. unfold off in Hoc. cbn in Hoc. split; [unfold off; cbn; unfold c'; lia|].
      intros b [Hb|[->|[->|Hb]]]%HNF; [apply Hdo; rewrite E; solve_in..|unfold off; cbn; lia|apply Hdo; rewrite E; solve_in].
    + intros b Hb. apply (part_list F' EN) in Hb as [Hb|Hb]; [split; [apply L4|apply L9]; solve_in|subst b; cbn; lia].
    + lia.
    + lia.
    + lia.
    + destruct (hdr_fields _ _ _ (hdr_put_size m1 c' n ltac:(lia))) as [_ H]. exact H.
  - assert (Hc : covers ((base, 0) :: F) x ↔ covers ((base, 0) :: F') x ∨ c' ≤ x < c' + n * 16).
    { rewrite E, <-EN, !covers_app, !covers_cons. cbn. assert (c ≤ x < c + sc * 16 ↔ c ≤ x < c + (sc - n) * 16 ∨ c' ≤ x < c' + n * 16) by (unfold c'; lia). tauto. }
    rewrite !covers_cons in Hc. cbn in Hc. assert (¬ base ≤ x < base + 0) by lia. tauto.
Qed.

Lemma take_run env : ∃ r w', take_block n pv c env w = Ret r env w' ∧ taken w' r.
Proof. destruct (decide (sc = n)) as [H|H]; [destruct (take_whole env H) as (w' & ? & ?)|destruct (take_part env ltac:(lia)) as (w' & ? & ?)]; eauto. Qed.
End Take.

(** ** Searching the list *)

Lemma gets_freep_run {B} (k : Z → M uheap B) env w : bind (gets u_freep) k env w = k (u_freep w) env w.
Proof. done. Qed.

Fixpoint last_of (l : list block) (pv : Z) : Z := match l with [] => pv | b :: l' => last_of l' b.1 end.

Lemma last_of_app X b l : ∃ P c, X ++ b :: l = P ++ [c] ∧ c.1 = last_of l b.1.
Proof.
  revert X b. induction l as [|d l IH]; intros X b; [by exists X, b|]. destruct (IH (X ++ [b]) d) as (P & c & E & Ec). rewrite <-app_assoc in E. exists P, c. done.
Qed.

Lemma last_of_snoc l b pv : last_of (l ++ [b]) pv = b.1.
Proof. revert pv. induction l as [|d l IH]; intros pv; [done|apply IH]. Qed.

Lemma walk n env w l : ∀ fuel d pv, links (u_mem w) d l → u_freep w ∉ l.*1 → (length l ≤ fuel)%nat →
  (∃ l1 c l2, l = l1 ++ c :: l2 ∧ n ≤ c.2 ∧ malloc_loop fuel n pv (first_of l d) env w = take_block n (last_of l1 pv) c.1 env w) ∨
  (Forall (λ b, b.2 < n) l ∧ malloc_loop fuel n pv (first_of l d) env w = malloc_loop (fuel - length l) n (last_of l pv) d env w).
Proof.
  induction l as [|b l IH]; intros fuel d pv Hl Hf Hn; [right; split; [constructor|cbn; by rewrite Nat.sub_0_r]|].
  destruct fuel as [|fuel]; cbn [length] in Hn; [lia|]. cbn [first_of malloc_loop]. rewrite gets_mem_run. destruct (links_ptr _ _ _ _ Hl) as [Ep ->].
  rewrite fmap_cons, not_elem_of_cons in Hf. destruct Hf as [Hf1 Hf2]. destruct (Z.geb_spec b.2 n) as [Hb|Hb]; [left; by exists [], b, l|].
  rewrite gets_freep_run, (proj2 (Z.eqb_neq b.1 (u_freep w))), Ep by congruence.
  destruct (IH fuel d b.1 (proj2 Hl) Hf2 ltac:(lia)) as [(l1 & c & l2 & -> & Hc & Er)|[Hs Er]].
  - left. by exists (b :: l1), c, l2.
  - right. split; [by constructor|]. exact Er.
Qed.

(** The rest of the loop when the list has no block that is large enough. *)
Definition after_search (f : nat) (n : Z) : M uheap Z :=
  p <- morecore f n ;; if p =? 0 then ret 0 else m <- gets u_mem ;; malloc_loop f n p (h_ptr m p).

Lemma sorted_nodup l b : StronglySorted sep (b :: l) → b.1 ∉ l.*1.
Proof. intros [_ Hb]%sorted_cons (c & E & Hc)%list_elem_of_fmap. destruct (Hb c Hc) as [H _]. lia. Qed.

Lemma sorted_before X b : (∀ c, c ∈ X → sep c b) → b.1 ∉ X.*1.
Proof. intros H (c & E & Hc)%list_elem_of_fmap. destruct (H c Hc) as [G _]. lia. Qed.

Lemma search n env w F A fuel : heap_ok base w F A → 1 ≤ n → (length F + 1 ≤ fuel)%nat →
  (∃ P pv sv c sc R, (base, 0) :: F = P ++ (pv, sv) :: (c, sc) :: R ∧ n ≤ sc ∧
    malloc_loop fuel n (u_freep w) (h_ptr (u_mem w) (u_freep w)) env w = take_block n pv c env w) ∨
  (Forall (λ b, b.2 < n) F ∧ malloc_loop fuel n (u_freep w) (h_ptr (u_mem w) (u_freep w)) env w = after_search (fuel - length F - 1) n env w).
Proof.
  intros HO Hn Hf. destruct HO as [Hl Hfp Hs _ _ _ _ _ _ _]. change (base :: F.*1) with (((base, 0) :: F).*1) in Hfp. apply list_elem_of_fmap in Hfp as ([fp sfp] & Efp & Hin).
  apply list_elem_of_split in Hin as (X & Y & E). cbn in Efp. pose proof E as E'. rewrite E in Hl, Hs. apply links_app in Hl as [LX [Lfp LY]]. cbn [first_of fst snd] in LX, Lfp.
  apply sorted_app in Hs as (_ & Hs & HsX). pose proof (sorted_nodup _ _ Hs) as Hnd. cbn in Hnd. destruct (hdr_fields _ _ _ Lfp) as [Ep Es]. cbn in Ep, Es. rewrite Efp, Ep.
  assert (Hlen : length (X ++ (fp, sfp) :: Y) = S (length F)) by (by rewrite <-E'). rewrite length_app in Hlen. cbn in Hlen.
  destruct (walk n env w Y fuel base fp LY ltac:(by rewrite Efp) ltac:(lia)) as [(l1 & [c sc] & l2 & EY & Hc & Er)|[HsY Er]].
  { left. destruct (last_of_app X (fp, sfp) l1) as (P & [pv sv] & EP & Epv). cbn in Epv. exists P, pv, sv, c, sc, l2. split; [|split; [done|]].
    - rewrite E', EY, cons_middle, !app_assoc. rewrite <-(app_assoc X), <-cons_middle. cbn. rewrite EP, <-app_assoc. done.
    - rewrite Er, <-Epv. done. }
  assert (Hfirst : first_of X fp = base). { destruct X as [|b X']; cbn in E'; [by injection E' as <- _ _|]. by injection E' as <- _. }
  destruct (walk n env w X (fuel - length Y) fp (last_of Y fp) LX) as [(l1 & [c sc] & l2 & EX & Hc & Er2)|[HsX2 Er2]].
  { rewrite Efp. apply (sorted_before X (fp, sfp)). intros b Hb. apply HsX; [done|]. by left. } { lia. }
  { destruct l1 as [|b l1]; cbn in EX.
    - rewrite EX in E'. cbn in E'. injection E' as <- <- _. cbn in Hc. lia.
    - left. destruct (last_of_app [] b l1) as (P & [pv sv] & EP & Epv). cbn in EP, Epv. exists P, pv, sv, c, sc, (l2 ++ (fp, sfp) :: Y). split; [|split; [done|]].
      + rewrite E', EX. rewrite (app_comm_cons l1), EP, <-!app_assoc. done.
      + rewrite Er. rewrite Hfirst in Er2. rewrite Er2. cbn [last_of fst]. by rewrite <-Epv. }
  rewrite Hfirst in Er2. rewrite Er, Er2. replace (fuel - length Y - length X)%nat with (S (fuel - length F - 1)) by lia. cbn [malloc_loop]. rewrite gets_mem_run, Es.
  destruct (Z.geb_spec sfp n) as [Hc|Hc].
  - left. destruct X as [|b X'] using rev_ind; [cbn in E'; injection E' as <- <- _; lia|]. destruct b as [pv sv]. exists X', pv, sv, fp, sfp, Y. split; [by rewrite E', <-app_assoc|]. split; [done|].
    by rewrite last_of_snoc.
  - right. split; [|by rewrite gets_freep_run, <-Efp, Z.eqb_refl].
    assert (Hall : Forall (λ b, b.2 < n) ((base, 0) :: F)) by (rewrite E'; apply Forall_app; split; [done|by constructor]). by apply Forall_cons in Hall as [_ Hall].
Qed.

(** ** More memory *)

(** The units that morecore asks for. *)
Definition core_units (nu : Z) : Z := if nu <? 4096 then 4096 else nu.

(** The contents of the blocks [A] are the same. *)
Definition same_data (w w' : uheap) (A : list block) : Prop := ∀ b x, b ∈ A → b.1 ≤ x < b.1 + b.2 * 16 → u_mem w' x = u_mem w x.

Lemma new_core w F A nu :
  heap_ok base w F A → 1 ≤ nu → u_brk w + nu * 16 ≤ u_limit w →
  let w1 := set_u_mem (st32 (u_mem w) (u_brk w + 8) nu) (set_u_brk (u_brk w + nu * 16) w) in
  heap_ok base w1 F ([] ++ (u_brk w, nu) :: A) ∧ same_data w w1 A.
Proof.
  intros [L1 L2 L3 L4 L5 L6 L7 L8 L9 [B0 [B1 [B2 B3]]]] Hn Hl w1. cbn [app].
  assert (HN : ∀ b, b ∈ (base, 0) :: F → b.1 + 16 ≤ u_brk w ∧ b.1 + b.2 * 16 ≤ u_brk w).
  { intros b [->|Hb]%elem_of_cons; [cbn; lia|]. pose proof (L4 b ltac:(solve_in)). pose proof (L9 b ltac:(solve_in)). lia. }
  assert (HA : ∀ b, b ∈ A → b.1 + 16 ≤ u_brk w ∧ b.1 + b.2 * 16 ≤ u_brk w).
  { intros b Hb. pose proof (L4 b ltac:(solve_in)). pose proof (L9 b ltac:(solve_in)). lia. }
  destruct (wrote_size (u_mem w) (u_brk w) nu) as [W1 W2].
  assert (Hd : same_data w w1 A). { intros b x Hb Hx. cbn. apply W2. destruct (HA b Hb). lia. }
  split; [|done]. split; cbn [w1 u_mem set_u_mem u_freep set_u_brk u_brk u_limit].
  - apply (links_frame (u_mem w)); [|done]. intros b Hb. apply W1. right. by apply HN.
  - done.
  - done.
  - intros b. rewrite elem_of_app, elem_of_cons. intros [Hb|[->|Hb]]; [apply L4; solve_in|done|apply L4; solve_in].
  - intros b c [->|Hb]%elem_of_cons Hc; [right; by apply HN|by apply L5].
  - apply sorted_cons. split; [done|]. intros c Hc. right. by apply HA.
  - intros b [->|Hb]%elem_of_cons; [cbn; lia|by apply L7].
  - intros b [->|Hb]%elem_of_cons.
    + by destruct (hdr_fields _ _ _ (hdr_put_size (u_mem w) (u_brk w) nu ltac:(lia))) as [_ H].
    + rewrite <-(L8 b) by done. destruct (hdr_fields _ _ _ (W1 b.1 ltac:(right; by apply HA))) as [_ H]. exact H.
  - intros b. rewrite elem_of_app, elem_of_cons. intros [Hb|[->|Hb]]; [destruct (HN b ltac:(solve_in)); lia|cbn; lia|destruct (HA b Hb); lia].
  - lia.
Qed.

Lemma heap_freep w F A : heap_ok base w F A → 0 < u_freep w.
Proof.
  intros [_ L2 L3 _ _ _ _ _ _ [B0 _]]. apply elem_of_cons in L2 as [->|(b & -> & Hb)%list_elem_of_fmap]; [done|].
  apply sorted_cons in L3 as [_ L3]. destruct (L3 b Hb) as [G _]. cbn in G. lia.
Qed.

Lemma sbrk_run env w n : sbrk n env w = if u_limit w <? u_brk w + n then Ret (-1) env w else Ret (u_brk w) env (set_u_brk (u_brk w + n) w).
Proof. unfold sbrk, bind, gets. by destruct (u_limit w <? u_brk w + n). Qed.

Lemma morecore_run env w F A nu fuel :
  heap_ok base w F A → 1 ≤ nu → core_units nu * 16 < 2 ^ 31 → (length F + 2 ≤ fuel)%nat →
  (u_limit w < u_brk w + core_units nu * 16 ∧ morecore fuel nu env w = Ret 0 env w) ∨
  ∃ w' F', morecore fuel nu env w = Ret (u_freep w') env w' ∧ heap_ok base w' F' A ∧ same_data w w' A ∧ (∃ c, c ∈ F' ∧ nu ≤ c.2) ∧ (length F' ≤ S (length F))%nat ∧
    (∀ x, covers F' x ↔ covers F x ∨ u_brk w ≤ x < u_brk w + core_units nu * 16) ∧ u_limit w' = u_limit w ∧ u_brk w' = u_brk w + core_units nu * 16.
Proof.
  intros HO Hn Hc Hf. unfold morecore. fold (core_units nu). change sizeof_Header with 16. assert (Hcu : 1 ≤ core_units nu ∧ nu ≤ core_units nu) by (unfold core_units; case_match; lia).
  rewrite i32_small by lia. pose proof HO as [_ _ _ _ _ _ _ _ _ [B0 [B1 [B2 B3]]]]. pose proof (sbrk_run env w (core_units nu * 16)) as Es.
  destruct (Z.ltb_spec (u_limit w) (u_brk w + core_units nu * 16)) as [Hl|Hl]; [left; split; [done|]; by rewrite (bind_Ret _ _ _ _ _ _ _ Es)|right].
  destruct (new_core w F A (core_units nu) HO ltac:(lia) ltac:(lia)) as [HO1 Hd1]. set (w1 := set_u_mem _ _) in *.
  destruct (ufree_run env w1 F [] A (u_brk w) (core_units nu) fuel HO1 Hf) as (w2 & F2 & Er & HO2 & Hcov & [K1 [K2 K3]] & (c & Hc1 & Hc2) & Hlen).
  exists w2, F2. split_and!; try done; [|intros b x Hb Hx; rewrite (K1 b) by done; by apply (Hd1 b)|exists c; split; [done|lia]].
  rewrite (bind_Ret _ _ _ _ _ _ _ Es), (proj2 (Z.eqb_neq (u_brk w) (-1))), put_size_run by lia. cbn [u_mem set_u_brk]. fold w1.
  change sizeof_Header with 16 in Er. by rewrite (bind_Ret _ _ _ _ _ _ _ Er).
Qed.

(** ** malloc *)

(** A block has been handed out, from the free memory or from new memory. *)
Definition allocated (w : uheap) (F A : list block) (n r : Z) (w' : uheap) : Prop :=
  ∃ F', heap_ok base w' F' ((r - 16, n) :: A) ∧ base < r - 16 ∧
    (∀ x, covers F x ∨ u_brk w ≤ x < u_brk w' ↔ covers F' x ∨ r - 16 ≤ x < r - 16 + n * 16) ∧ u_limit w' = u_limit w ∧
    (u_brk w' = u_brk w ∨ Forall (λ b, b.2 < n) F).

Lemma take_allocated env w F A P pv sv c sc n R :
  heap_ok base w F A → (base, 0) :: F = P ++ (pv, sv) :: (c, sc) :: R → 1 ≤ n ≤ sc →
  ∃ r w', take_block n pv c env w = Ret r env w' ∧ allocated w F A n r w' ∧ same_data w w' A ∧ u_brk w' = u_brk w.
Proof.
  intros HO E Hn. destruct (take_run w F A P pv sv c sc n R HO E Hn env) as (r & w' & Er & F' & HO' & Hcov & [K1 [K2 K3]] & Hb).
  exists r, w'. split_and!; [done| |done|done]. exists F'. split_and!; try done; [|by left]. intros x. rewrite Hcov, K2. assert (¬ u_brk w ≤ x < u_brk w) by lia. tauto.
Qed.

Lemma malloc_loop_run env w F A n fuel :
  heap_ok base w F A → 1 ≤ n → core_units n * 16 < 2 ^ 31 → (2 * length F + 3 ≤ fuel)%nat →
  ∃ r w', malloc_loop fuel n (u_freep w) (h_ptr (u_mem w) (u_freep w)) env w = Ret r env w' ∧ same_data w w' A ∧
    ((r = 0 ∧ w' = w ∧ Forall (λ b, b.2 < n) F ∧ u_limit w < u_brk w + core_units n * 16) ∨ allocated w F A n r w').
Proof.
  intros HO Hn Hc Hf. destruct (search n env w F A fuel HO Hn ltac:(lia)) as [(P & pv & sv & c & sc & R & E & Hsc & ->)|[Hsmall ->]].
  { destruct (take_allocated env w F A P pv sv c sc n R HO E ltac:(lia)) as (r & w' & Er & Ha & Hd & _). exists r, w'. auto. }
  unfold after_search. set (f := (fuel - length F - 1)%nat). destruct (morecore_run env w F A n f HO Hn Hc ltac:(lia)) as [[Hl Er]|(w1 & F1 & Er & HO1 & Hd1 & (d & Hd & Hdn) & Hlen & Hcov & Hlim & Hbrk)];
    rewrite (bind_Ret _ _ _ _ _ _ _ Er).
  { exists 0, w. split; [done|]. split; [by intros|]. by left. }
  pose proof (heap_freep _ _ _ HO1) as Hfp. rewrite (proj2 (Z.eqb_neq (u_freep w1) 0)), gets_mem_run by lia.
  destruct (search n env w1 F1 A f HO1 Hn ltac:(lia)) as [(P & pv & sv & c & sc & R & E & Hsc & ->)|[Hsmall1 _]]; [|rewrite Forall_forall in Hsmall1; apply Hsmall1 in Hd; lia].
  destruct (take_allocated env w1 F1 A P pv sv c sc n R HO1 E ltac:(lia)) as (r & w2 & Er2 & (F2 & HO2 & Hb2 & Hcov2 & Hlim2 & _) & Hd2 & Hbrk2). exists r, w2. split; [done|].
  split; [intros b x Hb Hx; rewrite (Hd2 b) by done; by apply (Hd1 b)|]. right. exists F2. split_and!; [done|done| |congruence|by right].
  intros x. rewrite <-Hcov2, Hcov, Hbrk2, Hbrk. assert (¬ u_brk w + core_units n * 16 ≤ x < u_brk w + core_units n * 16) by lia. tauto.
Qed.

(** Nothing has been allocated yet. *)
Definition fresh_heap (w : uheap) : Prop := u_freep w = 0 ∧ 0 < base ∧ base + 16 ≤ u_brk w ∧ u_brk w ≤ u_limit w ∧ u_limit w < 2 ^ 36.

(** The allocator's state: the blocks that are free and those handed out. *)
Definition heap_state (w : uheap) (F A : list block) : Prop := heap_ok base w F A ∨ (fresh_heap w ∧ F = [] ∧ A = []).

Lemma heap_init_run env w : fresh_heap w →
  let w1 := set_u_mem (st32 (st64 (u_mem w) base base) (base + 8) 0) (set_u_freep base w) in
  (put_ptr base base ;; modify (set_u_freep base) ;; put_size base 0 ;; ret base) env w = Ret base env w1 ∧ heap_ok base w1 [] [].
Proof.
  intros (H0 & B). split; [done|]. split; cbn; try done; try (by intros ? ?%elem_of_nil); try by constructor.
  - split; [|done]. rewrite hdr_put_size by lia. destruct (hdr_fields _ _ _ (hdr_put_ptr (u_mem w) base base ltac:(lia))) as [-> _]. done.
  - repeat constructor.
  - by intros b c ?%elem_of_nil.
Qed.

Lemma malloc_run env w F A nbytes fuel :
  let n := (nbytes + 15) / 16 + 1 in
  heap_state w F A → 0 ≤ nbytes → core_units n * 16 < 2 ^ 31 → (2 * length F + 3 ≤ fuel)%nat →
  ∃ r w', malloc base fuel nbytes env w = Ret r env w' ∧ same_data w w' A ∧
    ((r = 0 ∧ heap_ok base w' F A ∧ u_brk w' = u_brk w ∧ u_limit w' = u_limit w ∧ Forall (λ b, b.2 < n) F ∧ u_limit w < u_brk w + core_units n * 16) ∨ allocated w F A n r w').
Proof.
  intros n HS Hn Hc Hf. unfold malloc. change sizeof_Header with 16. assert (H0 : 0 ≤ (nbytes + 15) / 16) by (apply Z.div_pos; lia).
  assert (Hu : u32 ((nbytes + 16 - 1) / 16 + 1) = n). { replace (nbytes + 16 - 1) with (nbytes + 15) by lia. apply u32_small. fold n. unfold core_units in Hc. case_match; lia. }
  rewrite Hu, gets_freep_run. destruct HS as [HO|(Hfr & -> & ->)].
  - pose proof (heap_freep _ _ _ HO). rewrite (proj2 (Z.eqb_neq (u_freep w) 0)), bind_ret_l, gets_mem_run by lia.
    destruct (malloc_loop_run env w F A n fuel HO ltac:(unfold n; lia) Hc Hf) as (r & w' & E & Hd & [(-> & -> & Hs & Hl)|Ha]); [exists 0, w|exists r, w'; auto].
    split; [done|]. split; [done|]. left. done.
  - destruct (heap_init_run env w Hfr) as [Ei HO]. pose proof Hfr as (Hf0 & _). rewrite Hf0, Z.eqb_refl, (bind_Ret _ _ _ _ _ _ _ Ei), gets_mem_run. set (w1 := set_u_mem _ _) in *.
    destruct (malloc_loop_run env w1 [] [] n fuel HO ltac:(unfold n; lia) Hc Hf) as (r & w' & E & Hd & [(-> & -> & Hs & Hl)|Ha]); [exists 0, w1|exists r, w'].
    + split; [exact E|]. split; [by intros ? ? ?%elem_of_nil|]. left. done.
    + split; [exact E|]. split; [by intros ? ? ?%elem_of_nil|]. right. exact Ha.
Qed.
End Heap.
