(* ===== verification/UmallocClient.v ===== *)
(** * Programs that use malloc and free

    What the calls return does not depend on the bound on their loops once they
    return, and a program that calls them and writes into its blocks keeps the heap
    in order. *)

From Stdlib Require Import Sorting.Sorted.
From stdpp Require Import relations.
From S2P Require Import Prelude Types StringC Umalloc UmallocProps.

(** ** The bound on the loops *)

(** [o'] is what is known of the outcome when the bound is larger. *)
Definition extends {X} (o o' : outcome uheap X) : Prop := o = NoFuel ∨ o = o'.
Definition mextends {X} (m m' : M uheap X) : Prop := ∀ env w, extends (m env w) (m' env w).

Lemma mextends_refl {X} (m : M uheap X) : mextends m m.
Proof. by right. Qed.

Lemma mextends_bind {X Y} (m m' : M uheap X) (k k' : X → M uheap Y) :
  mextends m m' → (∀ x, mextends (k x) (k' x)) → mextends (bind m k) (bind m' k').
Proof.
  intros Hm Hk env w. unfold extends, bind. destruct (Hm env w) as [->| ->]; [by left|].
  destruct (m' env w) as [x env' w'|?|?|]; try (by right). apply Hk.
Qed.

Lemma free_place_more n k m bp p q : (n ≤ k)%nat → free_place n m bp p = Some q → free_place k m bp p = Some q.
Proof. revert k p. induction n as [|n IH]; intros [|k] p Hk; cbn; try done; [lia|]. repeat (case_match; [done|]). apply IH. lia. Qed.

Lemma ufree_more n k ap : (n ≤ k)%nat → mextends (ufree n ap) (ufree k ap).
Proof.
  intros Hk. unfold ufree. apply mextends_bind; [apply mextends_refl|]. intros m. apply mextends_bind; [apply mextends_refl|]. intros f.
  destruct (free_place n m _ f) as [q|] eqn:E; [|by left]. rewrite (free_place_more n k _ _ _ _ Hk E). apply mextends_refl.
Qed.

Lemma morecore_more n k nu : (n ≤ k)%nat → mextends (morecore n nu) (morecore k nu).
Proof.
  intros Hk. unfold morecore. apply mextends_bind; [apply mextends_refl|]. intros p. destruct (p =? -1); [apply mextends_refl|].
  apply mextends_bind; [apply mextends_refl|]. intros _. apply mextends_bind; [by apply ufree_more|]. intros _. apply mextends_refl.
Qed.

Lemma malloc_loop_more n k nu prevp p : (n ≤ k)%nat → mextends (malloc_loop n nu prevp p) (malloc_loop k nu prevp p).
Proof.
  revert k prevp p. induction n as [|n IH]; intros [|k] prevp p Hk; [by left|by left|lia|]. cbn [malloc_loop].
  apply mextends_bind; [apply mextends_refl|]. intros m. case_match; [apply mextends_refl|]. apply mextends_bind; [apply mextends_refl|]. intros f.
  case_match; [|apply IH; lia]. apply mextends_bind; [apply morecore_more; lia|]. intros q. case_match; [apply mextends_refl|].
  apply mextends_bind; [apply mextends_refl|]. intros m'. apply IH. lia.
Qed.

Lemma malloc_more base n k nbytes : (n ≤ k)%nat → mextends (malloc base n nbytes) (malloc base k nbytes).
Proof.
  intros Hk. unfold malloc. apply mextends_bind; [apply mextends_refl|]. intros p. apply mextends_bind; [apply mextends_refl|]. intros q.
  apply mextends_bind; [apply mextends_refl|]. intros m. by apply malloc_loop_more.
Qed.

(** ** Programs that use the allocator *)

(** The call returns [r], with some bound on its loops and then with every larger one. *)
Definition returns {X} (f : nat → M uheap X) (w : uheap) (r : X) (w' : uheap) : Prop := ∃ fuel, f fuel [] w = Ret r [] w'.

Lemma returns_agree {X} (f : nat → M uheap X) w r w' n r2 w2 :
  (∀ n k, (n ≤ k)%nat → mextends (f n) (f k)) → returns f w r w' → f n [] w = Ret r2 [] w2 → r2 = r ∧ w2 = w'.
Proof.
  intros Hm [k Hk] Hn. destruct (Hm k (k `max` n)%nat ltac:(lia) [] w) as [E|E]; [congruence|].
  destruct (Hm n (k `max` n)%nat ltac:(lia) [] w) as [E'|E']; [congruence|]. split; congruence.
Qed.

(** The units of a block for [nbytes] bytes, with its header. *)
Definition units (nbytes : Z) : Z := (nbytes + 15) / 16 + 1.

(** Sizes for which the request to sbrk is an int. *)
Definition ok_size (nbytes : Z) : Prop := 0 ≤ nbytes ∧ core_units (units nbytes) * 16 < 2 ^ 31.

(** A program calls malloc, frees what it was given, and writes into it. *)
Inductive client_step (base : Z) : uheap * list block → uheap * list block → Prop :=
| c_malloc w A nbytes r w' :
    ok_size nbytes → returns (λ fuel, malloc base fuel nbytes) w r w' → r ≠ 0 → client_step base (w, A) (w', (r - 16, units nbytes) :: A)
| c_refused w A nbytes w' : ok_size nbytes → returns (λ fuel, malloc base fuel nbytes) w 0 w' → client_step base (w, A) (w', A)
| c_free w A1 a s A2 w' : returns (λ fuel, ufree fuel (a + 16)) w tt w' → client_step base (w, A1 ++ (a, s) :: A2) (w', A1 ++ A2)
| c_write w A b x v : b ∈ A → b.1 + 16 ≤ x < b.1 + b.2 * 16 → client_step base (w, A) (set_u_mem (<[x := v]> (u_mem w)) w, A).

Lemma heap_state_ok base w F A b : heap_state base w F A → b ∈ A → heap_ok base w F A.
Proof. intros [H|(_ & _ & ->)] Hb; [done|]. by apply elem_of_nil in Hb. Qed.

Lemma heap_ok_write base w F A b x v :
  heap_ok base w F A → b ∈ A → b.1 + 16 ≤ x < b.1 + b.2 * 16 → heap_ok base (set_u_mem (<[x := v]> (u_mem w)) w) F A.
Proof.
  intros [L1 L2 L3 L4 L5 L6 L7 L8 L9 B] Hb Hx.
  assert (Hh : ∀ c, c + 16 ≤ b.1 ∨ b.1 + b.2 * 16 ≤ c ∨ c = b.1 → hdr (<[x := v]> (u_mem w)) c = hdr (u_mem w) c).
  { intros c Hc. unfold hdr, h_ptr, h_size, ld64, ld32. f_equal; apply ld_ext; intros y Hy; apply fn_lookup_insert_ne; lia. }
  split; try done; cbn [u_mem set_u_mem].
  - apply (links_frame (u_mem w)); [|done]. intros c Hc. apply Hh. pose proof (L5 b c Hb Hc) as Ho. unfold off in Ho. lia.
  - intros c Hc. rewrite <-(L8 c) by done. destruct (hdr_fields _ _ _ (Hh c.1 ltac:(destruct (decide (b = c)) as [->|Hne]; [tauto|]; destruct (sorted_pair _ _ _ _ L6 off_sym Hb Hc Hne) as [H|H]; lia))) as [_ E]. exact E.
Qed.

Lemma malloc_returned base w F A nbytes r w' :
  heap_state base w F A → ok_size nbytes → returns (λ fuel, malloc base fuel nbytes) w r w' →
  same_data w w' A ∧
    ((r = 0 ∧ heap_ok base w' F A ∧ Forall (λ b, b.2 < units nbytes) F ∧ u_limit w < u_brk w + core_units (units nbytes) * 16) ∨ allocated base w F A (units nbytes) r w').
Proof.
  intros HS [Hn Hc] Hr. destruct (malloc_run base [] w F A nbytes _ HS Hn Hc (le_n _)) as (r2 & w2 & E & Hd & HR).
  destruct (returns_agree _ _ _ _ _ _ _ (λ n k, malloc_more base n k nbytes) Hr E) as [-> ->]. split; [done|]. destruct HR as [(?&?&?&?&?&?)|?]; auto.
Qed.

Lemma free_returned base w F A1 a s A2 w' :
  heap_state base w F (A1 ++ (a, s) :: A2) → returns (λ fuel, ufree fuel (a + 16)) w tt w' →
  ∃ F', heap_ok base w' F' (A1 ++ A2) ∧ kept w w' (A1 ++ A2) ∧ (∀ x, covers F' x ↔ covers F x ∨ a ≤ x < a + s * 16) ∧
    (∃ c, c ∈ F' ∧ s ≤ c.2).
Proof.
  intros HS Hr. pose proof (heap_state_ok _ _ _ _ (a, s) HS ltac:(solve_in)) as HO.
  destruct (ufree_run base [] w F A1 A2 a s _ HO (le_n _)) as (w2 & F' & E & HO' & Hc & Hk & Hf & _).
  destruct (returns_agree _ _ _ _ _ _ _ (λ n k, ufree_more n k (a + 16)) Hr E) as [_ ->]. by exists F'.
Qed.

Lemma client_step_state base w A w' A' F : client_step base (w, A) (w', A') → heap_state base w F A → ∃ F', heap_state base w' F' A'.
Proof.
  intros Hs HS. inversion Hs as [? ? nbytes r ? Hn Hr Hr0|? ? nbytes ? Hn Hr|? A1 a s A2 ? Hr|? ? b x v Hb Hx]; simplify_eq.
  - destruct (malloc_returned _ _ _ _ _ _ _ HS Hn Hr) as (_ & [(-> & _)|(F' & HO & _)]); [done|]. exists F'. by left.
  - destruct (malloc_returned _ _ _ _ _ _ _ HS Hn Hr) as (_ & [(_ & HO & _)|(F' & HO & Hb & _)]); [exists F; by left|].
    destruct HO as [_ _ _ _ _ _ _ _ _ [B0 _]]. lia.
  - destruct (free_returned _ _ _ _ _ _ _ _ HS Hr) as (F' & HO & _). exists F'. by left.
  - exists F. left. eapply heap_ok_write; [by eapply heap_state_ok|done|done].
Qed.

Lemma reachable_state base w0 c : fresh_heap base w0 → rtc (client_step base) (w0, []) c → ∃ F, heap_state base c.1 F c.2.
Proof.
  intros H0. revert c. apply (rtc_ind_r (λ c, ∃ F, heap_state base c.1 F c.2)); [exists []; by right|].
  intros [w A] [w' A'] _ Hs (F & IH). cbn in *. by eapply client_step_state.
Qed.

Lemma units_ge nbytes : 0 ≤ nbytes → 16 + nbytes ≤ units nbytes * 16.
Proof. intros H. unfold units. pose proof (Z.mul_div_le (nbytes + 15) 16 ltac:(lia)). pose proof (Z.mod_pos_bound (nbytes + 15) 16 ltac:(lia)). pose proof (Z.div_mod (nbytes + 15) 16 ltac:(lia)). lia. Qed.

Lemma sorted_lookup {A} (R : A → A → Prop) l i j b c : StronglySorted R l → l !! i = Some b → l !! j = Some c → (i < j)%nat → R b c.
Proof.
  intros Hs Hi Hj Hl. rewrite <-(take_drop_middle l i b Hi) in Hs, Hj. apply sorted_app in Hs as (_ & Hs & _). apply sorted_cons in Hs as [_ Hs]. apply Hs.
  pose proof (lookup_lt_Some _ _ _ Hi). rewrite lookup_app_r in Hj by (rewrite length_take; lia). rewrite length_take in Hj. replace (j - i `min` length l)%nat with (S (j - i - 1)) in Hj by lia. by eapply list_elem_of_lookup_2.
Qed.

Lemma blocks_off base w F A i j b c : heap_state base w F A → A !! i = Some b → A !! j = Some c → i ≠ j → off b c.
Proof.
  intros HS Hi Hj Hne. pose proof (heap_state_ok _ _ _ _ b HS ltac:(by eapply list_elem_of_lookup_2)) as [_ _ _ _ _ L6 _ _ _ _].
  destruct (Nat.lt_trichotomy i j) as [H|[H|H]]; [by eapply sorted_lookup|done|]. apply off_sym. by eapply sorted_lookup.
Qed.

(** A block that malloc returned is new memory for its caller. *)
Lemma allocated_apart base w F A n r w' x : allocated base w F A n r w' → r - 16 ≤ x < r - 16 + n * 16 → ¬ covers A x.
Proof.
  intros (F' & [_ _ _ _ _ L6 _ _ L9 _] & _) Hx. apply sorted_cons in L6 as [_ L6]. intros (b & Hb & Hxb). destruct (L6 b Hb); cbn in *; lia.
Qed.

Lemma allocated_above base w F A n r w' : allocated base w F A n r w' → base + 32 ≤ r ∧ r - 16 + n * 16 ≤ u_brk w'.
Proof.
  intros (F' & [_ _ _ _ L5 _ L7 _ L9 _] & Hr & _). pose proof (L9 (r - 16, n) ltac:(rewrite elem_of_app, elem_of_cons; tauto)) as Ht.
  destruct (L5 (r - 16, n) (base, 0) ltac:(by left) ltac:(by left)) as [G|G]; cbn in *; lia.
Qed.

Lemma malloc_returns base w F A nbytes : heap_state base w F A → ok_size nbytes → ∃ r w', returns (λ fuel, malloc base fuel nbytes) w r w'.
Proof. intros HS [Hn Hc]. destruct (malloc_run base [] w F A nbytes _ HS Hn Hc (le_n _)) as (r & w' & E & _). exists r, w'. by eexists. Qed.

Lemma free_returns base w F A1 a s A2 : heap_state base w F (A1 ++ (a, s) :: A2) → ∃ w', returns (λ fuel, ufree fuel (a + 16)) w tt w'.
Proof.
  intros HS. pose proof (heap_state_ok _ _ _ _ (a, s) HS ltac:(solve_in)) as HO.
  destruct (ufree_run base [] w F A1 A2 a s _ HO (le_n _)) as (w' & F' & E & _). exists w'. by eexists.
Qed.

Lemma fits_reused base w F A s nbytes :
  heap_ok base w F A → (∃ c, c ∈ F ∧ s ≤ c.2) → ok_size nbytes → units nbytes ≤ s →
  ∃ r w', returns (λ fuel, malloc base fuel nbytes) w r w' ∧ r ≠ 0 ∧ u_brk w' = u_brk w.
Proof.
  intros HO (c & Hc & Hs) Hn Hu. assert (HS : heap_state base w F A) by (by left). destruct (malloc_returns _ _ _ _ _ HS Hn) as (r & w' & Hw). exists r, w'. split; [done|].
  assert (Hns : ¬ Forall (λ b : block, b.2 < units nbytes) F) by (rewrite Forall_forall; intros H; apply H in Hc; lia).
  destruct (malloc_returned _ _ _ _ _ _ _ HS Hn Hw) as (_ & [(_ & _ & ? & _)|HA]); [done|]. destruct (allocated_above _ _ _ _ _ _ _ HA). destruct HO as [_ _ _ _ _ _ _ _ _ [B0 _]].
  destruct HA as (_ & _ & _ & _ & _ & [Hb|?]); [|done]. split; [lia|done].
Qed.

Module Malloc.
(** C12: In a program that only uses malloc, free and the bytes of the blocks it was
    given, those blocks never overlap each other or the allocator's data, and they lie in the
    process's memory.  At any time, malloc of a size whose request fits an int returns: 0
    only if the kernel refuses more memory, or bytes that belong to no other block; and
    free of any block returns, after which malloc of a size that fits in it succeeds without
    more memory from the kernel.  Neither changes a byte of the blocks of the program. *)
Theorem malloc_safe base w0 w A :
  fresh_heap base w0 → rtc (client_step base) (w0, []) (w, A) →
  (∀ i j b c, A !! i = Some b → A !! j = Some c → i ≠ j → b.1 + b.2 * 16 ≤ c.1 ∨ c.1 + c.2 * 16 ≤ b.1) ∧
  (∀ b, b ∈ A → base + 16 ≤ b.1 ∧ b.1 + b.2 * 16 ≤ u_brk w ∧ u_brk w ≤ u_limit w) ∧
  (∀ nbytes, ok_size nbytes → ∃ r w', returns (λ fuel, malloc base fuel nbytes) w r w' ∧ same_data w w' A ∧
     ((r = 0 ∧ u_limit w < u_brk w + core_units (units nbytes) * 16) ∨
      (base + 16 ≤ r ∧ r + nbytes ≤ u_brk w' ∧ ∀ x, r ≤ x < r + nbytes → ¬ covers A x))) ∧
  (∀ A1 a s A2, A = A1 ++ (a, s) :: A2 → ∃ w', returns (λ fuel, ufree fuel (a + 16)) w tt w' ∧ same_data w w' (A1 ++ A2) ∧
     ∀ nbytes, ok_size nbytes → units nbytes ≤ s → ∃ r w'', returns (λ fuel, malloc base fuel nbytes) w' r w'' ∧ r ≠ 0 ∧ u_brk w'' = u_brk w).
Proof.
  intros H0 Hr. destruct (reachable_state _ _ _ H0 Hr) as (F & HS). cbn in HS. split_and!.
  - intros i j b c Hi Hj Hne. destruct (blocks_off _ _ _ _ _ _ _ _ HS Hi Hj Hne); tauto.
  - intros b Hb. destruct (heap_state_ok _ _ _ _ b HS Hb) as [_ _ _ _ L5 _ L7 _ L9 [B1 B2]]. pose proof (L9 b ltac:(solve_in)).
    destruct (L5 b (base, 0) Hb ltac:(solve_in)) as [G|G]; cbn in G; [|lia]. pose proof (L7 b Hb). lia.
  - intros nbytes Hn. destruct (malloc_returns _ _ _ _ _ HS Hn) as (r & w' & Hw). exists r, w'. split; [done|].
    destruct (malloc_returned _ _ _ _ _ _ _ HS Hn Hw) as (Hd & HR). split; [done|]. pose proof (units_ge nbytes ltac:(apply Hn)) as Hu.
    destruct HR as [(-> & _ & _ & Hl)|HA]; [by left|right]. split_and!.
    + destruct (allocated_above _ _ _ _ _ _ _ HA). lia.
    + destruct (allocated_above _ _ _ _ _ _ _ HA). lia.
    + intros x Hx. apply (allocated_apart _ _ _ _ _ _ _ x HA). lia.
  - intros A1 a s A2 ->. destruct (free_returns _ _ _ _ _ _ _ HS) as (w' & Hw). exists w'. split; [done|].
    destruct (free_returned _ _ _ _ _ _ _ _ HS Hw) as (F' & HO & [Hk [Hb _]] & _ & Hf). split; [done|]. intros nbytes Hn Hu. rewrite <-Hb. by eapply fits_reused.
Qed.

(** A program that has allocated 100 bytes. *)
Definition heap0 : uheap := mkUheap (λ _, 0) 0 8192 1048576.
Definition heap1 : uheap := match malloc 4096 10 100 [] heap0 with Ret _ _ w => w | _ => heap0 end.

Lemma malloc_safe_witness :
  (∃ r w', returns (λ fuel, malloc 4096 fuel 1000) heap1 r w' ∧ same_data heap1 w' [(73600, 8)] ∧
     ((r = 0 ∧ u_limit heap1 < u_brk heap1 + core_units (units 1000) * 16) ∨
      (4112 ≤ r ∧ r + 1000 ≤ u_brk w' ∧ ∀ x, r ≤ x < r + 1000 → ¬ covers [(73600, 8)] x))) ∧
  ∃ w', returns (λ fuel, ufree fuel 73616) heap1 tt w'.
Proof.
  assert (Hr : rtc (client_step 4096) (heap0, []) (heap1, [(73600, 8)])).
  { apply rtc_once. apply (c_malloc 4096 heap0 [] 100 73616 heap1); [by vm_compute| |done]. exists 10%nat. vm_compute. reflexivity. }
  destruct (malloc_safe 4096 heap0 heap1 [(73600, 8)] ltac:(by vm_compute) Hr) as (_ & _ & H3 & H4). split.
  - apply (H3 1000). by vm_compute.
  - destruct (H4 [] 73600 8 [] eq_refl) as (w' & Hw & _). by exists w'.
Defined.
End Malloc.
