(* ===== verification/User.v ===== *)
(** * User programs: system calls, user/printf.c and user/ulib.c's stat

    A process has its memory, its table of descriptors and the bytes it has written.
    The kernel is given by what it promises: which file a path leads to, in which
    pieces read returns the contents of a file, and which writes succeed. *)

From S2P Require Import Prelude Types StringC UserLib.

(** ** System calls *)

(** An open file: what fstat tells of it, and what read has not yet returned. *)
Record node := mkNode {
  n_dev : Z;
  n_ino : Z;
  n_type : Z;
  n_nlink : Z;
  n_size : Z;
  n_data : list (list Z)
}.

Record uproc := mkUproc {
  u_mem : bytes;
  u_fds : Z → option node;
  u_out : list (Z * Z)  (* the bytes written, with their descriptors *)
}.

Definition set_u_mem (v : bytes) (u : uproc) : uproc := mkUproc v (u_fds u) (u_out u).
Definition set_u_fds (v : Z → option node) (u : uproc) : uproc := mkUproc (u_mem u) v (u_out u).
Definition set_u_out (v : list (Z * Z)) (u : uproc) : uproc := mkUproc (u_mem u) (u_fds u) v.
Definition set_n_data (v : list (list Z)) (n : node) : node :=
  mkNode (n_dev n) (n_ino n) (n_type n) (n_nlink n) (n_size n) v.

Class Kernel := {
  k_look : list Z → option node;
  k_writes : list (Z * Z) → Z → list Z → bool
}.

Abbreviation U := (M uproc) (only parsing).

Definition umem : U bytes := gets u_mem.
Definition poke (a v : Z) : U unit := modify (λ u, set_u_mem (<[a := v]> (u_mem u)) u).

(** The lowest free descriptor. *)
Definition free_fd (fds : Z → option node) : option Z :=
  List.find (λ fd, match fds fd with None => true | Some _ => false end) (seqZ 0 NOFILE).

Section Calls.
Context `{Kernel}.

(** open(path, O_RDONLY); a path has less than MAXPATH characters. *)
Definition uopen (path : Z) : U Z :=
  m <- umem ;;
  fds <- gets u_fds ;;
  let s := cstr (Z.to_nat MAXPATH) m path in
  if Z.of_nat (length s) >=? MAXPATH then ret (-1) else
  match k_look s, free_fd fds with
  | Some n, Some fd => modify (λ u, set_u_fds (<[fd := Some n]> (u_fds u)) u) ;; ret fd
  | _, _ => ret (-1)
  end.

Definition uclose (fd : Z) : U unit := modify (λ u, set_u_fds (<[fd := None]> (u_fds u)) u).

(** struct stat *)
Definition put_stat (n : node) (m : bytes) (a : Z) : bytes :=
  st64 (st16 (st16 (st32 (st32 m a (n_dev n)) (a + 4) (n_ino n)) (a + 8) (n_type n)) (a + 10) (n_nlink n)) (a + 16) (n_size n).
Definition st_type (m : bytes) (a : Z) : Z := i16 (ld16 m (a + 8)).

Definition ufstat (fd st : Z) : U Z :=
  fds <- gets u_fds ;;
  match fds fd with
  | None => ret (-1)
  | Some n => modify (λ u, set_u_mem (put_stat n (u_mem u) st) u) ;; ret 0
  end.

(** read returns the next piece, or the part of it that was asked for. *)
Definition uread (fd a n : Z) : U Z :=
  fds <- gets u_fds ;;
  match fds fd with
  | None => ret (-1)
  | Some nd =>
      match n_data nd with
      | [] => ret 0
      | l :: rest =>
          let k := Z.to_nat n in
          let rest := if (length l <=? k)%nat then rest else drop k l :: rest in
          modify (λ u, mkUproc (st_bytes (u_mem u) a (take k l)) (<[fd := Some (set_n_data rest nd)]> (u_fds u)) (u_out u)) ;;
          ret (Z.of_nat (length (take k l)))
      end
  end.

(** As many rounds as a loop needs that reads a file to its end. *)
Definition read_rounds (fds : Z → option node) (fd : Z) : nat :=
  match fds fd with Some n => S (length (concat (n_data n))) | None => 1 end.

Definition write_out (fd : Z) (l : list Z) : U Z :=
  out <- gets u_out ;;
  if k_writes out fd l then modify (set_u_out (out ++ ((λ c, (fd, c)) <$> l))) ;; ret (Z.of_nat (length l)) else ret (-1).

Definition uwrite (fd a n : Z) : U Z :=
  m <- umem ;;
  write_out fd (ld_bytes m a n).

(** ** ulib.c *)

(** The longest string that the programs look at. *)
Definition ustr_max : nat := Z.to_nat PGSIZE.

Definition lift {A} (o : option A) : U A := match o with Some a => ret a | None => λ _ _, NoFuel end.

Definition ustrlen (s : Z) : U Z := m <- umem ;; lift (strlen ustr_max m s).
Definition ustrcmp (p q : Z) : U Z := m <- umem ;; lift (strcmp ustr_max m p q).
Definition ustrcpy (s t : Z) : U unit := m <- umem ;; m <- lift (strcpy ustr_max m s t) ;; modify (set_u_mem m).
Definition umove (dst src n : Z) : U unit := modify (λ u, set_u_mem (umemmove (u_mem u) dst src n) u).

Definition ustat (path st : Z) : U Z :=
  fd <- uopen path ;;
  if fd <? 0 then ret (-1) else
  r <- ufstat fd st ;;
  uclose fd ;;
  ret r.

(** ** printf.c *)

Definition putc (fd c : Z) : U unit := write_out fd [u8 c] ;; ret tt.

Definition udigits : list Z := [48; 49; 50; 51; 52; 53; 54; 55; 56; 57; 65; 66; 67; 68; 69; 70].
Definition udigit (d : Z) : Z := nth (Z.to_nat d) udigits 0.

(** [do { buf[i++] = digits[x % base]; } while ((x /= base) != 0);]  buf has 16
    elements. *)
Fixpoint int_buf (fuel : nat) (x base : Z) : list Z :=
  match fuel with
  | O => []
  | S f => udigit (x `mod` base) :: if x / base =? 0 then [] else int_buf f (x / base) base
  end.

Definition uprintint (fd xx base : Z) (sgn : bool) : U unit :=
  let neg := sgn && (xx <? 0) in
  let x := if neg then u32 (- xx) else u32 xx in
  let buf := int_buf 16 x base ++ (if neg then [minus] else []) in
  for_each (reverse buf) (putc fd).

Definition uprintptr (fd x : Z) : U unit :=
  putc fd 48 ;;
  putc fd 120 ;;
  for_each (seqZ 0 16) (λ i, putc fd (udigit (u64 (x ≪ (4 * i)) ≫ 60))).

(** [while ( *s != 0) { putc(fd, *s); s++; }] *)
Fixpoint put_string (fuel : nat) (fd s : Z) : U unit :=
  match fuel with
  | O => λ _ _, NoFuel
  | S f =>
      m <- umem ;;
      if nz (m s) then putc fd (m s) ;; put_string f fd (s + 1) else ret tt
  end.

Definition null_string : list Z := [40; 110; 117; 108; 108; 41].

(** [percent] is the state '%'; [ap] are the arguments, one per directive. *)
Fixpoint vprintf (fd : Z) (fmt : list Z) (percent : bool) (ap : list Z) : U unit :=
  match fmt with
  | [] => ret tt
  | c :: fmt =>
      if negb percent then
        if c =? 37 then vprintf fd fmt true ap else putc fd c ;; vprintf fd fmt false ap
      else
        let arg := default 0 (head ap) in
        if c =? 100 (* d *) then uprintint fd (i32 arg) 10 true ;; vprintf fd fmt false (tail ap)
        else if c =? 108 (* l *) then uprintint fd (i32 arg) 10 false ;; vprintf fd fmt false (tail ap)
        else if c =? 120 (* x *) then uprintint fd (i32 arg) 16 false ;; vprintf fd fmt false (tail ap)
        else if c =? 112 (* p *) then uprintptr fd (u64 arg) ;; vprintf fd fmt false (tail ap)
        else if c =? 115 (* s *) then
          (if arg =? 0 then for_each null_string (putc fd) else put_string ustr_max fd arg) ;;
          vprintf fd fmt false (tail ap)
        else if c =? 99 (* c *) then putc fd arg ;; vprintf fd fmt false (tail ap)
        else if c =? 37 then putc fd c ;; vprintf fd fmt false ap
        else putc fd 37 ;; putc fd c ;; vprintf fd fmt false ap
  end.

Definition text (s : string) : list Z :=
  (λ c, Z.of_N (Ascii.N_of_ascii c)) <$> String.list_ascii_of_string s.

Definition fprintf (fd : Z) (fmt : list Z) (ap : list Z) : U unit := vprintf fd fmt false ap.
Definition uprintf (fmt : list Z) (ap : list Z) : U unit := vprintf 1 fmt false ap.
End Calls.
