(* ===== verification/UserProps.v ===== *)
(** * What the library of the user programs does

    [does m u a u']: in the state [u] the code [m] returns [a] and leaves [u'].
    Strings are found in memory by [cstring]. *)

From S2P Require Import Prelude Types StringC UserLib User.

Definition does {A} (m : U A) (u : uproc) (a : A) (u' : uproc) : Prop := ∀ env, m env u = Ret a env u'.

Lemma does_ret {A} (a : A) u : does (ret a) u a u.
Proof. done. Qed.
Lemma does_gets {A} (f : uproc → A) u : does (gets f) u (f u) u.
Proof. done. Qed.
Lemma does_modify f u : does (modify f) u tt (f u).
Proof. done. Qed.
Lemma does_bind {A B} (m : U A) (k : A → U B) u a u1 b u2 :
  does m u a u1 → does (k a) u1 b u2 → does (bind m k) u b u2.
Proof. intros H1 H2 env. by rewrite (bind_Ret _ _ _ _ _ _ _ (H1 env)). Qed.
Lemma does_when_true m u u' : does m u tt u' → does (when true m) u tt u'.
Proof. done. Qed.

(** ** Strings *)

(** Two memories that agree on the string at [p]. *)
Lemma cstring_same m m' p l :
  cstring m p l → (∀ x, p ≤ x ≤ p + Z.of_nat (length l) → m' x = m x) → cstring m' p l.
Proof.
  intros (Ha & Hn & Hz) Hm. split_and!; [|done|rewrite Hm; [done|lia]].
  intros k d Hk. pose proof (lookup_lt_Some _ _ _ Hk). rewrite Hm by lia. by apply Ha.
Qed.

Lemma cstring_intro m p l : ld_bytes m p (Z.of_nat (length l)) = l → Forall (λ c, c ≠ 0) l → m (p + Z.of_nat (length l)) = 0 → cstring m p l.
Proof.
  intros Hl Hn Hz. split_and!; [|done..]. intros k d Hk. pose proof (lookup_lt_Some _ _ _ Hk).
  rewrite <-Hl in Hk. unfold ld_bytes in Hk. rewrite list_lookup_fmap, lookup_seqZ_lt in Hk by lia. by injection Hk.
Qed.

Lemma cstring_tail m p c l : cstring m p (c :: l) → m p = c ∧ c ≠ 0 ∧ cstring m (p + 1) l.
Proof.
  intros (Ha & Hn & Hz). apply Forall_cons in Hn as [Hc Hn]. split_and!; [|done|split_and!; [|done|]].
  - by rewrite <-(Ha 0%nat c eq_refl), Z.add_0_r.
  - intros k d Hk. rewrite <-(Ha (S k) d Hk). f_equal. lia.
  - rewrite <-Hz. f_equal. cbn [length]. lia.
Qed.

Lemma cstring_nil m p : cstring m p [] → m p = 0.
Proof. intros (_ & _ & Hz). by rewrite <-Hz, Z.add_0_r. Qed.

Lemma cstring_cstr m p l fuel : cstring m p l → (length l ≤ fuel)%nat → cstr fuel m p = l.
Proof. intros (Ha & Hn & Hz) Hf. by apply at_cstr. Qed.

(** cstr stops at [fuel] characters of a longer string. *)
Lemma cstring_cstr_take m p l fuel : cstring m p l → cstr fuel m p = take fuel l.
Proof.
  revert p l. induction fuel as [|fuel IH]; intros p l Hc; [done|]. cbn [cstr]. destruct l as [|c l].
  - by rewrite (cstring_nil _ _ Hc).
  - destruct (cstring_tail _ _ _ _ Hc) as (-> & Hn & Ht). rewrite (proj2 (nz_true _) Hn). cbn. by rewrite (IH _ _ Ht).
Qed.

Lemma strcmp_run m p q a b fuel :
  cstring m p a → cstring m q b → (length a < fuel)%nat → ∃ d, strcmp fuel m p q = Some d ∧ (d = 0 ↔ a = b).
Proof.
  revert m p q b fuel. induction a as [|c a IH]; intros m p q b fuel Ha Hb Hf; (destruct fuel as [|fuel]; [cbn in Hf; lia|]); cbn [strcmp].
  - rewrite (cstring_nil _ _ Ha). cbn. eexists; split; [done|]. destruct b as [|d b]; [by rewrite (cstring_nil _ _ Hb)|].
    destruct (cstring_tail _ _ _ _ Hb) as (-> & Hn & _). split; [lia|done].
  - destruct (cstring_tail _ _ _ _ Ha) as (-> & Hn & Ha'). rewrite (proj2 (nz_true _) Hn). cbn [andb].
    destruct b as [|d b].
    + rewrite (cstring_nil _ _ Hb). rewrite (proj2 (Z.eqb_neq c 0) Hn). eexists; split; [done|]. split; [lia|done].
    + destruct (cstring_tail _ _ _ _ Hb) as (-> & Hn' & Hb'). destruct (Z.eqb_spec c d) as [->|Hne].
      * destruct (IH m (p + 1) (q + 1) b fuel Ha' Hb' ltac:(cbn in Hf; lia)) as (e & He & Hiff). exists e. split; [done|].
        rewrite Hiff. split; [by intros ->|by intros [= ->]].
      * eexists; split; [done|]. split; [lia|]. by intros [= -> _].
Qed.

Lemma strcpy_run m s t l fuel :
  cstring m t l → s + Z.of_nat (length l) < t ∨ t + Z.of_nat (length l) < s → (length l < fuel)%nat →
  ∃ m', strcpy fuel m s t = Some m' ∧ cstring m' s l ∧ ∀ x, ¬ (s ≤ x ≤ s + Z.of_nat (length l)) → m' x = m x.
Proof.
  revert m s t fuel. induction l as [|c l IH]; intros m s t fuel Hl Hd Hf; (destruct fuel as [|fuel]; [cbn in Hf; lia|]); cbn [strcpy].
  - rewrite (cstring_nil _ _ Hl). cbn. eexists; split; [done|]. split.
    + split_and!; [done|done|]. cbn. by rewrite Z.add_0_r, fn_lookup_insert.
    + cbn. intros x Hx. rewrite fn_lookup_insert_ne; [done|lia].
  - destruct (cstring_tail _ _ _ _ Hl) as (-> & Hn & Hl'). rewrite (proj2 (nz_true _) Hn). cbn [length] in Hd.
    destruct (IH (<[s := c]> m) (s + 1) (t + 1) fuel) as (m' & E & Hc & Ho); [|lia|cbn in Hf; lia|].
    { apply (cstring_same m); [done|]. intros x Hx. rewrite fn_lookup_insert_ne; [done|lia]. }
    exists m'. split; [done|]. destruct Hc as (Ha & Hnn & Hz). split.
    + split_and!; [|by constructor|rewrite <-Hz; f_equal; cbn [length]; lia].
      intros [|k] d Hk; [injection Hk as <-; rewrite Z.add_0_r, Ho by lia; by rewrite fn_lookup_insert|].
      rewrite <-(Ha k d Hk). f_equal. lia.
    + intros x Hx. cbn [length] in Hx. rewrite Ho by lia. rewrite fn_lookup_insert_ne; [done|lia].
Qed.

Lemma umemmove_copy m d s n : 0 ≤ n → umemmove m d s n = mem_copy m d m s n.
Proof.
  intros Hn. extensionality x. unfold umemmove. destruct (Z.gtb_spec s d).
  - rewrite Strings.copy_up_spec by lia. by rewrite Z2Nat.id.
  - rewrite Strings.copy_down_spec by lia. rewrite Z2Nat.id by done. f_equal; lia.
Qed.

Lemma st_bytes_at m a l : at_mem (st_bytes m a l) a l.
Proof. intros k d Hk. by apply st_bytes_in. Qed.

(** ** Descriptors *)

Definition nfree (fds : Z → option node) : nat :=
  length (List.filter (λ fd, match fds fd with None => true | Some _ => false end) (seqZ 0 NOFILE)).

Lemma free_fd_None fds : free_fd fds = None ↔ nfree fds = 0%nat.
Proof.
  unfold free_fd, nfree. induction (seqZ 0 NOFILE) as [|fd l IH]; [done|]. cbn. destruct (fds fd); [done|]. cbn. done.
Qed.

Lemma free_fd_Some fds fd nd :
  free_fd fds = Some fd → 0 ≤ fd ∧ fds fd = None ∧ nfree fds = S (nfree (<[fd := Some nd]> fds)).
Proof.
  intros E. apply List.find_some in E as [Hin Hf]. apply list_elem_of_In in Hin. pose proof (NoDup_seqZ 0 NOFILE) as Hnd.
  destruct (fds fd) eqn:Efd; [done|]. split; [apply elem_of_seqZ in Hin; lia|split; [done|]]. unfold nfree. revert Hin Hnd.
  induction (seqZ 0 NOFILE) as [|x l IH]; intros Hin Hnd; [by apply elem_of_nil in Hin|].
  apply NoDup_cons in Hnd as [Hx Hnd]. cbn. destruct (decide (x = fd)) as [->|Hne].
  - rewrite Efd, fn_lookup_insert. cbn. f_equal. f_equal. apply List.filter_ext_in. intros y Hy%list_elem_of_In.
    rewrite fn_lookup_insert_ne; [done|]. by intros <-.
  - rewrite fn_lookup_insert_ne by done. apply elem_of_cons in Hin as [->|Hin]; [done|]. specialize (IH Hin Hnd).
    destruct (fds x); cbn; rewrite IH; done.
Qed.

Definition max_path : nat := Z.to_nat MAXPATH.

(** ** Calls in [does] form *)

Section Does.
Context `{Kernel}.

Lemma lift_does {A} (o : option A) u a : o = Some a → does (lift o) u a u.
Proof. by intros ->. Qed.

Lemma ustrlen_does u p l : cstring (u_mem u) p l → (length l < ustr_max)%nat → does (ustrlen p) u (Z.of_nat (length l)) u.
Proof. intros Hc Hl. eapply does_bind; [apply does_gets|]. by apply lift_does, cstring_strlen. Qed.

Lemma ustrcmp_does u p q a b :
  cstring (u_mem u) p a → cstring (u_mem u) q b → (length a < ustr_max)%nat → ∃ d, does (ustrcmp p q) u d u ∧ (d = 0 ↔ a = b).
Proof.
  intros Ha Hb Hl. destruct (strcmp_run (u_mem u) p q a b ustr_max Ha Hb Hl) as (d & E & Hd). exists d. split; [|done].
  eapply does_bind; [apply does_gets|]. by apply lift_does.
Qed.

Lemma ustrcpy_does u s t l :
  cstring (u_mem u) t l → s + Z.of_nat (length l) < t ∨ t + Z.of_nat (length l) < s → (length l < ustr_max)%nat →
  ∃ m, does (ustrcpy s t) u tt (set_u_mem m u) ∧ cstring m s l ∧ ∀ x, ¬ (s ≤ x ≤ s + Z.of_nat (length l)) → m x = u_mem u x.
Proof.
  intros Ht Hd Hl. destruct (strcpy_run (u_mem u) s t l ustr_max Ht Hd Hl) as (m & E & Hm). exists m. split; [|done].
  eapply does_bind; [apply does_gets|]. eapply does_bind; [by apply lift_does|]. apply does_modify.
Qed.

(** *** Opening files *)

Definition try_open (fds : Z → option node) (l : list Z) : option (Z * node) :=
  if (max_path <=? length l)%nat then None else
  match k_look l, free_fd fds with Some n, Some fd => Some (fd, n) | _, _ => None end.

Lemma uopen_does u path l :
  cstring (u_mem u) path l →
  match try_open (u_fds u) l with
  | Some (fd, n) => does (uopen path) u fd (set_u_fds (<[fd := Some n]> (u_fds u)) u)
  | None => does (uopen path) u (-1) u
  end.
Proof.
  intros Hc. assert (∀ a u', does (let s := take max_path l in
      if Z.of_nat (length s) >=? MAXPATH then ret (-1) else
      match k_look s, free_fd (u_fds u) with
      | Some n, Some fd => modify (λ u, set_u_fds (<[fd := Some n]> (u_fds u)) u) ;; ret fd
      | _, _ => ret (-1)
      end) u a u' → does (uopen path) u a u') as Hd.
  { intros a u' Hr. unfold uopen. eapply does_bind; [apply does_gets|]. eapply does_bind; [apply does_gets|].
    by rewrite (cstring_cstr_take _ _ _ _ Hc). }
  unfold try_open. change MAXPATH with (Z.of_nat max_path) in Hd. destruct (Nat.leb_spec max_path (length l)).
  - apply Hd. cbv zeta. rewrite length_take, Nat.min_l, Z.geb_leb, (proj2 (Z.leb_le _ _)) by lia. apply does_ret.
  - rewrite take_ge in Hd by lia. cbv zeta in Hd. rewrite Z.geb_leb, (proj2 (Z.leb_gt _ _)) in Hd by lia.
    destruct (k_look l) as [n|]; [destruct (free_fd (u_fds u)) as [fd|]|]; apply Hd; try apply does_ret.
Qed.

Lemma try_open_Some fds l fd n :
  try_open fds l = Some (fd, n) → 0 ≤ fd ∧ fds fd = None ∧ nfree fds = S (nfree (<[fd := Some n]> fds)) ∧
    (length l < max_path)%nat ∧ k_look l = Some n.
Proof.
  unfold try_open. destruct (Nat.leb_spec max_path (length l)); [done|]. destruct (k_look l) as [n'|]; [|done].
  destruct (free_fd fds) as [fd'|] eqn:E; [|done]. intros [= -> ->]. destruct (free_fd_Some fds fd n E) as (? & ? & ?). done.
Qed.

Lemma uclose_does fd u : does (uclose fd) u tt (set_u_fds (<[fd := None]> (u_fds u)) u).
Proof. done. Qed.

Lemma close_opened (fds : Z → option node) fd n : fds fd = None → <[fd := None]> (<[fd := Some n]> fds) = fds.
Proof. intros E. by rewrite fn_insert_insert, fn_insert_same. Qed.

(** *** Output *)

(** Everything that is written to the descriptor is taken. *)
Definition writes_ok (fd : Z) : Prop := ∀ o l, k_writes o fd l = true.

(** [l] is written to the descriptor [fd]. *)
Definition said_on (fd : Z) (l : list Z) (u : uproc) : uproc := set_u_out (u_out u ++ ((λ c, (fd, c)) <$> l)) u.

Lemma said_app fd l l' u : said_on fd l' (said_on fd l u) = said_on fd (l ++ l') u.
Proof. unfold said_on, set_u_out. cbn. by rewrite fmap_app, (assoc_L (++)). Qed.
Lemma said_nil fd u : said_on fd [] u = u.
Proof. unfold said_on, set_u_out. cbn. rewrite app_nil_r. by destruct u. Qed.
Lemma said_cons fd c l u : said_on fd (c :: l) u = said_on fd l (said_on fd [c] u).
Proof. by rewrite said_app. Qed.

Lemma write_out_does fd u l : writes_ok fd → does (write_out fd l) u (Z.of_nat (length l)) (said_on fd l u).
Proof.
  intros Ho. eapply does_bind; [apply does_gets|]. rewrite Ho. eapply does_bind; [apply does_modify|]. apply does_ret.
Qed.

Lemma putc_does fd u c : writes_ok fd → does (putc fd c) u tt (said_on fd [u8 c] u).
Proof. intros Ho. unfold putc. eapply does_bind; [by apply write_out_does|apply does_ret]. Qed.

Lemma u8_small c : 0 ≤ c < 256 → u8 c = c.
Proof. apply Z.mod_small. Qed.

Lemma puts_does fd l u : writes_ok fd → Forall (λ c, 0 ≤ c < 256) l → does (for_each l (putc fd)) u tt (said_on fd l u).
Proof.
  intros Ho Hl. revert u. induction Hl as [|c l Hc Hl IH]; intros u; [by rewrite said_nil|]. cbn [for_each].
  eapply does_bind; [by apply putc_does|]. rewrite u8_small, (said_cons _ c l) by done. apply IH.
Qed.

Lemma put_string_does fd fuel u s l :
  writes_ok fd → cstring (u_mem u) s l → Forall (λ c, 0 ≤ c < 256) l → (length l < fuel)%nat →
  does (put_string fuel fd s) u tt (said_on fd l u).
Proof.
  intros Ho Hc Hl. revert u s Hc fuel. induction Hl as [|c l Hb Hl IH]; intros u s Hc fuel Hf;
    (destruct fuel as [|fuel]; [cbn in Hf; lia|]); cbn [put_string]; (eapply does_bind; [apply does_gets|]).
  - rewrite (cstring_nil _ _ Hc), said_nil. apply does_ret.
  - destruct (cstring_tail _ _ _ _ Hc) as (-> & Hn & Ht). rewrite (proj2 (nz_true _) Hn).
    eapply does_bind; [by apply putc_does|]. rewrite u8_small, (said_cons _ c l) by done. apply IH; [done|cbn in Hf; lia].
Qed.
End Does.

Abbreviation out_ok := (writes_ok 1).
Abbreviation said := (said_on 1).
