(* ===== verification/UserPrintf.v ===== *)
(** * user/printf.c: what printf writes

    [prints m fmt ap out]: with the format [fmt] and the arguments [ap] the text
    [out] is to be written; the strings are in the memory [m].  Numbers are written
    without leading zeroes. *)

From S2P Require Import Prelude Types StringC UserLib User UserProps.

(** ** Numbers *)

Definition digit_val (c : Z) : Z := if c <=? 57 then c - 48 else c - 55.
Definition num_value (base : Z) (l : list Z) : Z := foldl (λ v c, v * base + digit_val c) 0 l.

(** A digit of the base. *)
Definition digit_in (base c : Z) : Prop := c ∈ udigits ∧ digit_val c < base.

(** The representation of [n], without leading zeroes. *)
Record numeral (base n : Z) (l : list Z) : Prop := {
  nm_digits : Forall (digit_in base) l;
  nm_value : num_value base l = n;
  nm_some : l ≠ [];
  nm_lead : head l = Some 48 → l = [48]
}.

Lemma num_value_snoc base l c : num_value base (l ++ [c]) = num_value base l * base + digit_val c.
Proof. unfold num_value. by rewrite foldl_app. Qed.

Lemma udigit_val d : 0 ≤ d < 16 → digit_val (udigit d) = d ∧ udigit d ∈ udigits.
Proof.
  intros Hd. assert (d ∈ seqZ 0 16) as Hin by (apply elem_of_seqZ; lia). revert Hin.
  apply (proj1 (Forall_forall (λ d, digit_val (udigit d) = d ∧ udigit d ∈ udigits) _)).
  repeat (constructor; [split; [reflexivity|apply list_elem_of_In; vm_compute; tauto]|]). constructor.
Qed.

Lemma udigits_known c : c ∈ udigits → udigit (digit_val c) = c ∧ 0 ≤ digit_val c < 16 ∧ 0 ≤ c < 256.
Proof.
  apply (proj1 (Forall_forall (λ c, udigit (digit_val c) = c ∧ 0 ≤ digit_val c < 16 ∧ 0 ≤ c < 256) _)).
  repeat (constructor; [vm_compute; repeat split; discriminate|]). constructor.
Qed.

(** The loop of printint, least significant digit first. *)
Lemma int_buf_S f x base : int_buf (S f) x base = udigit (x `mod` base) :: if x / base =? 0 then [] else int_buf f (x / base) base.
Proof. done. Qed.

Lemma int_buf_digits f x base : 2 ≤ base ≤ 16 → Forall (digit_in base) (int_buf f x base).
Proof.
  intros Hb. revert x. induction f as [|f IH]; intros x; [constructor|]. rewrite int_buf_S.
  pose proof (Z.mod_pos_bound x base ltac:(lia)). destruct (udigit_val (x `mod` base) ltac:(lia)) as [Ev Hin].
  constructor; [split; [done|lia]|]. case_match; [constructor|apply IH].
Qed.

Lemma div_fits f x base :
  2 ≤ base → 0 ≤ x < base ^ Z.of_nat (S f) → x / base ≠ 0 → 0 ≤ x / base < base ^ Z.of_nat f ∧ (0 < f)%nat.
Proof.
  intros Hb Hx Hne. rewrite Nat2Z.inj_succ, Z.pow_succ_r in Hx by lia. split.
  - split; [apply Z.div_pos; lia|apply Z.div_lt_upper_bound; lia].
  - destruct f; [|lia]. cbn in Hx. rewrite Z.mul_1_r in Hx. by rewrite Z.div_small in Hne.
Qed.

Lemma int_buf_numeral f x base :
  2 ≤ base ≤ 16 → 0 ≤ x < base ^ Z.of_nat f → (0 < f)%nat → numeral base x (reverse (int_buf f x base)).
Proof.
  intros Hb. revert x. induction f as [|f IH]; intros x Hx Hf; [lia|].
  pose proof (Z.mod_pos_bound x base ltac:(lia)) as Hm. destruct (udigit_val (x `mod` base) ltac:(lia)) as [Ev Hin].
  pose proof (Z.div_mod x base ltac:(lia)) as Hdm. split; [apply Forall_reverse, int_buf_digits; lia|..]; rewrite int_buf_S, reverse_cons.
  - destruct (Z.eqb_spec (x / base) 0) as [E|E]; rewrite num_value_snoc, Ev; [cbn; lia|].
    destruct (div_fits f x base ltac:(lia) Hx E). rewrite (nm_value _ _ _ (IH (x / base) ltac:(done) ltac:(done))). lia.
  - by destruct (reverse _).
  - destruct (Z.eqb_spec (x / base) 0) as [E|E]; [cbn; by intros [= ->]|]. intros Hh.
    destruct (div_fits f x base ltac:(lia) Hx E). destruct (IH (x / base) ltac:(done) ltac:(done)) as [_ Hv Hne Hl].
    destruct (reverse (int_buf f (x / base) base)) as [|c r]; [done|]. rewrite (Hl Hh) in Hv. cbn in Hv. by rewrite <-Hv in E.
Qed.

(** There is one numeral for a number. *)
Lemma num_value_nonneg base l : 2 ≤ base → Forall (digit_in base) l → 0 ≤ num_value base l.
Proof.
  intros Hb. induction l as [|c l IH] using rev_ind; intros Hd; [done|]. apply Forall_app in Hd as [Hd Hc].
  rewrite num_value_snoc. apply Forall_cons in Hc as [[Hc _] _]. apply udigits_known in Hc. specialize (IH Hd). nia.
Qed.

Lemma num_value_pos base l : 2 ≤ base → Forall (digit_in base) l → l ≠ [] → head l ≠ Some 48 → 0 < num_value base l.
Proof.
  intros Hb. induction l as [|c l IH] using rev_ind; intros Hd Hn Hh; [done|]. apply Forall_app in Hd as [Hd Hc].
  rewrite num_value_snoc. apply Forall_cons in Hc as [[Hc _] _]. apply udigits_known in Hc as (Ec & Hv & _). destruct l as [|d l].
  - cbn. assert (digit_val c ≠ 0) by (intros E; apply Hh; cbn; by rewrite <-Ec, E). lia.
  - specialize (IH Hd ltac:(done) Hh). nia.
Qed.

Lemma lead_app (l : list Z) c : (head (l ++ [c]) = Some 48 → l ++ [c] = [48]) → l = [] ∨ head l ≠ Some 48.
Proof. intros Hl. destruct l as [|d l]; [by left|right]. intros E. specialize (Hl E). by destruct l. Qed.

Lemma numeral_unique base n l l' : 2 ≤ base → numeral base n l → numeral base n l' → l = l'.
Proof.
  intros Hb. revert n l'. induction l as [|c l IH] using rev_ind; intros n l' [Hd Hv Hn Hl] [Hd' Hv' Hn' Hl']; [done|].
  destruct l' as [|c' l' _] using rev_ind; [done|]. rewrite num_value_snoc in Hv, Hv'.
  apply Forall_app in Hd as [Hd [[Hc Hcb] _]%Forall_cons]. apply Forall_app in Hd' as [Hd' [[Hc' Hcb'] _]%Forall_cons].
  apply udigits_known in Hc as (Ec & ? & _), Hc' as (Ec' & ? & _). apply lead_app in Hl, Hl'.
  assert (num_value base l = num_value base l' ∧ digit_val c = digit_val c') as [Ev Ed] by (apply (Z.div_mod_unique base); lia).
  assert (c = c') as <- by (rewrite <-Ec, <-Ec'; by f_equal). f_equal.
  destruct (decide (l = [])) as [->|Hne], (decide (l' = [])) as [->|Hne']; [done|..].
  - pose proof (num_value_pos base l' Hb Hd' Hne' ltac:(tauto)). cbn in Ev. lia.
  - pose proof (num_value_pos base l Hb Hd Hne ltac:(tauto)). cbn in Ev. lia.
  - apply (IH (num_value base l)); split; try done; tauto.
Qed.

(** ** The formats *)

(** The [i]th of the 16 hexadecimal digits of a pointer. *)
Definition ptr_digit (a i : Z) : Z := udigit ((u64 a / 16 ^ (15 - i)) `mod` 16).

Inductive prints (m : bytes) : list Z → list Z → list Z → Prop :=
| pr_nil ap : prints m [] ap []
| pr_end ap : prints m [37] ap []
| pr_char c fmt ap o : c ≠ 37 → prints m fmt ap o → prints m (c :: fmt) ap (u8 c :: o)
| pr_d fmt a ap l o :
    numeral 10 (Z.abs (i32 a)) l → prints m fmt ap o →
    prints m (37 :: 100 :: fmt) (a :: ap) ((if i32 a <? 0 then [minus] else []) ++ l ++ o)
| pr_l fmt a ap l o : numeral 10 (u32 a) l → prints m fmt ap o → prints m (37 :: 108 :: fmt) (a :: ap) (l ++ o)
| pr_x fmt a ap l o : numeral 16 (u32 a) l → prints m fmt ap o → prints m (37 :: 120 :: fmt) (a :: ap) (l ++ o)
| pr_p fmt a ap o : prints m fmt ap o → prints m (37 :: 112 :: fmt) (a :: ap) ([48; 120] ++ (ptr_digit a <$> seqZ 0 16) ++ o)
| pr_s fmt a ap l o :
    a ≠ 0 → cstring m a l → Forall (λ c, 0 ≤ c < 256) l → (length l < ustr_max)%nat → prints m fmt ap o →
    prints m (37 :: 115 :: fmt) (a :: ap) (l ++ o)
| pr_null fmt ap o : prints m fmt ap o → prints m (37 :: 115 :: fmt) (0 :: ap) (text "(null)" ++ o)
| pr_c fmt a ap o : prints m fmt ap o → prints m (37 :: 99 :: fmt) (a :: ap) (u8 a :: o)
| pr_percent fmt ap o : prints m fmt ap o → prints m (37 :: 37 :: fmt) ap (37 :: o)
| pr_other c fmt ap o : c ∉ [100; 108; 120; 112; 115; 99; 37] → prints m fmt ap o → prints m (37 :: c :: fmt) ap (37 :: u8 c :: o).

Lemma i32_bound x : - 2 ^ 31 ≤ i32 x < 2 ^ 31.
Proof. unfold i32. pose proof (Z.mod_pos_bound (x + 2 ^ 31) (2 ^ 32) ltac:(lia)). lia. Qed.
Lemma u32_i32 x : u32 (i32 x) = u32 x.
Proof. unfold u32, i32. rewrite Zminus_mod_idemp_l. f_equal. lia. Qed.

Section Printf.
Context `{Kernel}.

Lemma numeral_chars base n l : numeral base n l → Forall (λ c, 0 ≤ c < 256) l.
Proof. intros [Hd _ _ _]. eapply Forall_impl; [exact Hd|]. intros c [Hc _]. by apply udigits_known. Qed.

Lemma uprintint_does fd u (xx base : Z) (sgn : bool) l :
  writes_ok fd → 2 ≤ base ≤ 16 → 10 ≤ base → - 2 ^ 31 ≤ xx < 2 ^ 31 →
  numeral base (if sgn then Z.abs xx else u32 xx) l →
  does (uprintint fd xx base sgn) u tt (said_on fd ((if sgn && (xx <? 0) then [minus] else []) ++ l) u).
Proof.
  intros Ho Hb Hb' Hx Hl. unfold uprintint. cbv zeta. set (neg := sgn && (xx <? 0)).
  assert ((if neg then u32 (- xx) else u32 xx) = if sgn then Z.abs xx else u32 xx) as Ex.
  { unfold neg. destruct sgn; cbn [andb]; [|done]. destruct (Z.ltb_spec xx 0); rewrite u32_small by lia; lia. }
  rewrite Ex. set (x := if sgn then Z.abs xx else u32 xx) in *.
  assert (0 ≤ x < 2 ^ 32) as Hx32 by (unfold x, u32; destruct sgn; [lia|apply Z.mod_pos_bound; lia]).
  assert (2 ^ 32 ≤ base ^ Z.of_nat 16) as Hp by (etransitivity; [|apply (Z.pow_le_mono_l 10 base 16); lia]; done).
  rewrite (numeral_unique base x l (reverse (int_buf 16 x base))); [|lia|done|apply int_buf_numeral; [lia|lia|lia]].
  assert (reverse (int_buf 16 x base ++ (if neg then [minus] else [])) = (if neg then [minus] else []) ++ reverse (int_buf 16 x base)) as ->.
  { rewrite reverse_app. by destruct neg. }
  apply puts_does; [done|]. apply Forall_app. split; [destruct neg; repeat constructor; done|].
  apply (numeral_chars base x), int_buf_numeral; lia.
Qed.

Lemma ptr_digit_top a i : 0 ≤ i < 16 → udigit (u64 (u64 a ≪ (4 * i)) ≫ 60) = ptr_digit a i.
Proof.
  intros Hi. unfold ptr_digit. f_equal. rewrite Z.shiftr_div_pow2, Z.shiftl_mul_pow2 by lia. set (x := u64 a). unfold u64.
  change (2 ^ 64) with (2 ^ 60 * 16). rewrite Z.rem_mul_r by lia. rewrite (Z.mul_comm (2 ^ 60)), Z.div_add by lia.
  rewrite (Z.div_small (_ `mod` _)) by (apply Z.mod_pos_bound; lia). rewrite Z.add_0_l. f_equal.
  assert (16 ^ (15 - i) = 2 ^ (4 * (15 - i))) as -> by (change 16 with (2 ^ 4); by rewrite <-Z.pow_mul_r by lia). replace 60 with (4 * (15 - i) + 4 * i) at 1 by lia.
  rewrite Z.pow_add_r by lia. rewrite Z.div_mul_cancel_r by (apply Z.pow_nonzero; lia). done.
Qed.

Lemma uprintptr_does fd u a :
  writes_ok fd → does (uprintptr fd (u64 a)) u tt (said_on fd ([48; 120] ++ (ptr_digit a <$> seqZ 0 16)) u).
Proof.
  intros Ho. unfold uprintptr. eapply does_bind; [by apply putc_does|]. eapply does_bind; [by apply putc_does|].
  assert (∀ l v, Forall (λ i, 0 ≤ i < 16) l → does (for_each l (λ i, putc fd (udigit (u64 (u64 a ≪ (4 * i)) ≫ 60)))) v tt
    (said_on fd (ptr_digit a <$> l) v)) as Hl.
  { induction l as [|i l IH]; intros v Hl; [by rewrite said_nil|]. apply Forall_cons in Hl as [Hi Hl]. cbn [for_each fmap list_fmap].
    eapply does_bind; [by apply putc_does|]. rewrite ptr_digit_top by done. rewrite (said_cons _ (ptr_digit a i)), u8_small; [by apply IH|].
    apply udigits_known, udigit_val. apply Z.mod_pos_bound. lia. }
  rewrite !said_app. cbn [app]. pose proof (Hl (seqZ 0 16) (said_on fd [u8 48; u8 120] u)) as Hd. rewrite said_app in Hd. apply Hd.
  apply Forall_forall. intros i Hi%elem_of_seqZ. lia.
Qed.

Lemma vprintf_does fd u fmt ap o : writes_ok fd → prints (u_mem u) fmt ap o → does (vprintf fd fmt false ap) u tt (said_on fd o u).
Proof.
  intros Ho Hp. remember (u_mem u) as m eqn:Em. revert u Em. induction Hp; intros u Em; cbn [vprintf negb Z.eqb Pos.eqb head tail default].
  - by rewrite said_nil.
  - by rewrite said_nil.
  - rewrite (proj2 (Z.eqb_neq c 37)) by done. eapply does_bind; [by apply putc_does|]. rewrite (said_cons _ (u8 c) o). by apply IHHp.
  - rewrite (assoc_L (++)), <-said_app. eapply does_bind; [apply (uprintint_does fd _ _ 10 true l); [done|lia|lia|apply i32_bound|done]|]. by apply IHHp.
  - rewrite <-said_app. eapply does_bind; [apply (uprintint_does fd _ _ 10 false l); [done|lia|lia|apply i32_bound|]|by apply IHHp]. by rewrite u32_i32.
  - rewrite <-said_app. eapply does_bind; [apply (uprintint_does fd _ _ 16 false l); [done|lia|lia|apply i32_bound|]|by apply IHHp]. by rewrite u32_i32.
  - rewrite (assoc_L (++)), <-said_app. eapply does_bind; [by apply uprintptr_does|]. by apply IHHp.
  - rewrite <-said_app. change (id a) with a. rewrite (proj2 (Z.eqb_neq a 0)) by done. eapply does_bind; [apply put_string_does; by subst|]. by apply IHHp.
  - rewrite <-said_app. eapply does_bind; [apply puts_does; [done|by repeat constructor]|]. by apply IHHp.
  - eapply does_bind; [by apply putc_does|]. rewrite (said_cons _ (u8 a) o). by apply IHHp.
  - eapply does_bind; [by apply putc_does|]. rewrite (said_cons _ 37 o). by apply IHHp.
  - rewrite !not_elem_of_cons in H0. destruct H0 as (? & ? & ? & ? & ? & ? & ? & _).
    rewrite !(proj2 (Z.eqb_neq c _)) by done. eapply does_bind; [by apply putc_does|]. eapply does_bind; [by apply putc_does|].
    rewrite (said_cons _ 37 (u8 c :: o)), (said_cons _ (u8 c) o). by apply IHHp.
Qed.
End Printf.

(** printf("%s\n", s) *)
Lemma print_line_does `{Kernel} u s l :
  out_ok → s ≠ 0 → cstring (u_mem u) s l → Forall (λ c, 0 ≤ c < 256) l → (length l < ustr_max)%nat →
  does (uprintf [37; 115; 10] [s]) u tt (said (l ++ [10]) u).
Proof. intros Ho Hs Hc Hl Hf. apply vprintf_does; [done|]. apply pr_s; [done..|]. by repeat constructor. Qed.

Module Formats.
(** C34: printf and fprintf return, for a format with its arguments, having written what
    the format says:
    the characters outside the directives, numbers in their base without leading
    zeroes, the smallest int included, pointers with all their 16 digits, strings up
    to their NUL, (null) for a null pointer, and unknown directives as they are. *)
Theorem printf_prints `{Kernel} fd u fmt ap o :
  writes_ok fd → prints (u_mem u) fmt ap o →
  does (fprintf fd fmt ap) u tt (said_on fd o u) ∧ (fd = 1 → does (uprintf fmt ap) u tt (said_on fd o u)).
Proof. intros Ho Hp. split; [by apply vprintf_does|]. intros ->. by apply vprintf_does. Qed.

#[local] Instance open_kernel : Kernel := { k_look _ := None; k_writes _ _ _ := true }.
Definition printf_proc : uproc := mkUproc (st_bytes (λ _, 0) 0x100 (text "pid")) (λ _, None) [].

Lemma printf_prints_witness :
  does (uprintf (text "%s %d, 0x%x%%") [0x100; - 2 ^ 31; 255]) printf_proc tt (said (text "pid -2147483648, 0xFF%") printf_proc).
Proof.
  apply (printf_prints 1 printf_proc (text "%s %d, 0x%x%%") [0x100; - 2 ^ 31; 255] (text "pid -2147483648, 0xFF%")); [done| |done].
  apply (pr_s _ (text " %d, 0x%x%%") 0x100 [- 2 ^ 31; 255] (text "pid") (text " -2147483648, 0xFF%"));
    [done|apply cstring_intro; [done|by repeat constructor|done]|by repeat constructor|vm_compute; lia|].
  apply (pr_char _ 32); [done|].
  apply (pr_d _ (text ", 0x%x%%") (- 2 ^ 31) [255] (reverse (int_buf 16 (2 ^ 31) 10)) (text ", 0xFF%"));
    [apply int_buf_numeral; [lia|vm_compute; split; [discriminate|reflexivity]|lia]|].
  do 4 (apply pr_char; [done|]).
  apply (pr_x _ (text "%%") 255 [] (reverse (int_buf 16 255 16)) (text "%")); [apply int_buf_numeral; [lia|vm_compute; split; [discriminate|reflexivity]|lia]|].
  apply pr_percent, pr_nil.
Defined.
End Formats.
