(* ===== verification/Find.v ===== *)
(** * user/find.c: find

    do_find walks a tree of directories with its own frame on the stack for each
    directory, in which it builds the paths of the entries; it prints the paths whose
    last element is the name it was given.  The addresses of the frame's variables
    are a choice of the model; the stack is as large as it has to be. *)

From S2P Require Import Prelude Types StringC UserLib User.

(** ** The code *)

Definition fslash : Z := 47.

(** The static buf of basename_trim, of DIRSIZ + 1 characters. *)
Definition base_buf : Z := 0x2000.

(** [while (p >= path && P( *p)) p--;] which ends below [path] at the latest. *)
Fixpoint back_while (fuel : nat) (P : Z → bool) (m : bytes) (path p : Z) : Z :=
  match fuel with
  | O => p
  | S f => if (path <=? p) && P (m p) then back_while f P m path (p - 1) else p
  end.

Definition back (P : Z → bool) (m : bytes) (path p : Z) : Z := back_while (Z.to_nat (p - path + 1)) P m path p.

Definition basename_trim (path : Z) : U Z :=
  n <- ustrlen path ;;
  m <- umem ;;
  let p := back (λ c, c =? fslash) m path (path + n - 1) in
  if p <? path then
    poke base_buf fslash ;;
    poke (base_buf + 1) 0 ;;
    ret base_buf
  else
  let start := back (λ c, negb (c =? fslash)) m path p + 1 in
  let len := i32 (p - start + 1) in
  let len := if len >? DIRSIZ then DIRSIZ else len in
  umove base_buf start len ;;
  poke (base_buf + len) 0 ;;
  ret base_buf.

(** The variables buf, de, name, st and st2 in the frame that ends at [sp]. *)
Definition fr_buf (sp : Z) : Z := sp - 512.
Definition fr_de (sp : Z) : Z := sp - 528.
Definition fr_name (sp : Z) : Z := sp - 544.
Definition fr_st (sp : Z) : Z := sp - 568.
Definition fr_st2 (sp : Z) : Z := sp - 592.
Definition frame_size : Z := 592.
Definition sizeof_buf : Z := 512.

(** The strings "." and ".." of the program's text. *)
Definition dot_str : Z := 0x2020.
Definition dotdot_str : Z := 0x2022.

Section Find.
Context `{Kernel}.

Definition print_match (fullpath : Z) : U unit := uprintf [37; 115; 10] [fullpath].

(** The body of the loop over the entries of a directory, for the entry in de: its
    name goes to [p] in buf, and [rec] is the recursive call. *)
Definition find_entry (rec : Z → U unit) (sp p target : Z) : U unit :=
  m <- umem ;;
  if ld16 m (fr_de sp) =? 0 then ret tt else
  umove (fr_name sp) (fr_de sp + 2) DIRSIZ ;;
  poke (fr_name sp + DIRSIZ) 0 ;;
  c1 <- ustrcmp (fr_name sp) dot_str ;;
  c2 <- (if c1 =? 0 then ret 0 else ustrcmp (fr_name sp) dotdot_str) ;;
  if (c1 =? 0) || (c2 =? 0) then ret tt else
  nlen <- ustrlen (fr_name sp) ;;
  umove p (fr_name sp) nlen ;;
  poke (p + nlen) 0 ;;
  s <- ustat (fr_buf sp) (fr_st2 sp) ;;
  if s <? 0 then ret tt else
  c <- ustrcmp (fr_name sp) target ;;
  when (c =? 0) (print_match (fr_buf sp)) ;;
  m <- umem ;;
  when (st_type m (fr_st2 sp) =? T_DIR) (rec (fr_buf sp)).

Fixpoint find_entries (fuel : nat) (rec : Z → U unit) (sp fd p target : Z) : U unit :=
  match fuel with
  | O => λ _ _, NoFuel
  | S f =>
      r <- uread fd (fr_de sp) sizeof_dirent ;;
      if negb (r =? sizeof_dirent) then ret tt else
      find_entry rec sp p target ;;
      find_entries f rec sp fd p target
  end.

Fixpoint do_find (fuel : nat) (sp path target : Z) : U unit :=
  match fuel with
  | O => λ _ _, NoFuel
  | S f =>
      fd <- uopen path ;;
      if fd <? 0 then ret tt else
      r <- ufstat fd (fr_st sp) ;;
      if r <? 0 then uclose fd else
      m <- umem ;;
      if st_type m (fr_st sp) =? T_FILE then
        b <- basename_trim path ;;
        c <- ustrcmp b target ;;
        when (c =? 0) (print_match path) ;;
        uclose fd
      else if st_type m (fr_st sp) =? T_DIR then
        n <- ustrlen path ;;
        if n + 1 + DIRSIZ + 1 >? sizeof_buf then uclose fd else
        ustrcpy (fr_buf sp) path ;;
        n <- ustrlen (fr_buf sp) ;;
        m <- umem ;;
        p <- (let p := fr_buf sp + n in
              if (p =? fr_buf sp) || negb (m (p - 1) =? fslash) then poke p fslash ;; ret (p + 1) else ret p) ;;
        fds <- gets u_fds ;;
        find_entries (read_rounds fds fd) (λ q, do_find f (sp - frame_size) q target) sp fd p target ;;
        uclose fd
      else uclose fd
  end.

(** main(argc, argv) with the addresses of the arguments; the result is the
    status that is passed to exit. *)
Definition find_main (sp : Z) (argv : list Z) : U Z :=
  match argv with
  | [_; path; target] => do_find (S (Z.to_nat NOFILE)) sp path target ;; ret 0
  | _ => fprintf 2 (text "usage: find <path> <name>" ++ [10]) [] ;; ret 1
  end.
End Find.
