(* ===== verification/FindProps.v ===== *)
(** * find prints the matching paths of the tree

    [found n path] are the paths that do_find prints when [n] descriptors are free.
    When the tree is not too deep for that, they are the paths below the directory
    whose last element is the name that is looked for.  do_find returns on any
    file system, also on one with cycles, since each call holds a descriptor. *)

From S2P Require Import Prelude Types StringC UserLib User UserProps UserPrintf Find.

(** ** What is to be printed *)

(** The directory entries in the contents of a directory, of 16 bytes each. *)
Fixpoint dirents (fuel : nat) (l : list Z) : list (list Z) :=
  match fuel with
  | O => []
  | S f => if (16 <=? length l)%nat then take 16 l :: dirents f (drop 16 l) else []
  end.

Fixpoint cut_nul (l : list Z) : list Z :=
  match l with
  | [] => []
  | c :: l => if c =? 0 then [] else c :: cut_nul l
  end.

Definition de_ino (e : list Z) : Z := little_endian_to_Z 8 (take 2 e).
Definition de_str (e : list Z) : list Z := cut_nul (drop 2 e).

(** The path of the entry [name] of the directory [path]. *)
Definition ends_slash (path : list Z) : bool := bool_decide (last path = Some fslash).
Definition join (path name : list Z) : list Z := path ++ (if ends_slash path then [] else [fslash]) ++ name.

(** The last element of a path, without slashes at its end and cut to DIRSIZ. *)
Fixpoint drop_slashes (l : list Z) : list Z :=
  match l with
  | [] => []
  | c :: l' => if c =? fslash then drop_slashes l' else l
  end.
Fixpoint till_slash (l : list Z) : list Z :=
  match l with
  | [] => []
  | c :: l' => if c =? fslash then [] else c :: till_slash l'
  end.
Definition base_name (path : list Z) : list Z :=
  match drop_slashes (reverse path) with
  | [] => [fslash]
  | l => take (Z.to_nat DIRSIZ) (reverse (till_slash l))
  end.

Section Spec.
Context `{Kernel} (target : list Z).

Definition contents (nd : node) : list (list Z) := let l := concat (n_data nd) in dirents (length l) l.
Definition is_dots (name : list Z) : bool := bool_decide (name = [46]) || bool_decide (name = [46; 46]).

(** What an entry of the directory [path] gives, with [below] for what is found in a
    directory; [n] descriptors are free. *)
Definition found_entry (n : nat) (below : list Z → list (list Z)) (path e : list Z) : list (list Z) :=
  let name := de_str e in
  let q := join path name in
  if (de_ino e =? 0) || is_dots name then [] else
  if (n =? 0)%nat || (max_path <=? length q)%nat then [] else
  match k_look q with
  | None => []
  | Some nd => (if bool_decide (name = target) then [q] else []) ++ (if i16 (n_type nd) =? T_DIR then below q else [])
  end.

Fixpoint found (n : nat) (path : list Z) : list (list Z) :=
  match n with
  | O => []
  | S n =>
      if (max_path <=? length path)%nat then [] else
      match k_look path with
      | None => []
      | Some nd =>
          if i16 (n_type nd) =? T_FILE then if bool_decide (base_name path = target) then [path] else []
          else if i16 (n_type nd) =? T_DIR then concat (found_entry n (found n) path <$> contents nd)
          else []
      end
  end.
End Spec.

Definition lines (l : list (list Z)) : list Z := concat ((λ p, p ++ [10]) <$> l).

(** ** Memory *)

Definition stack_low : Z := 0x3000.

(** What do_find may change when its frames end at [sp]. *)
Definition scratch (sp x : Z) : Prop := base_buf ≤ x < base_buf + 15 ∨ stack_low ≤ x < sp.
Definition same_mem (sp : Z) (m m' : bytes) : Prop := ∀ x, ¬ scratch sp x → m' x = m x.

Definition is_char (c : Z) : Prop := 0 ≤ c < 256.

(** A string out of the reach of do_find. *)
Record str_at (sp : Z) (m : bytes) (p : Z) (l : list Z) : Prop := {
  sa_str : cstring m p l;
  sa_ptr : p ≠ 0;
  sa_safe : ∀ x, p ≤ x ≤ p + Z.of_nat (length l) → ¬ scratch sp x;
  sa_char : Forall is_char l;
  sa_short : (length l < ustr_max)%nat
}.

Lemma same_mem_refl sp m : same_mem sp m m.
Proof. done. Qed.
Lemma same_mem_trans sp m1 m2 m3 : same_mem sp m1 m2 → same_mem sp m2 m3 → same_mem sp m1 m3.
Proof. intros H1 H2 x Hx. by rewrite H2, H1. Qed.
Lemma same_mem_below sp sp' m m' : sp' ≤ sp → same_mem sp' m m' → same_mem sp m m'.
Proof. intros Hs H x Hx. apply H. intros Hc. apply Hx. unfold scratch in *. lia. Qed.

Lemma str_at_same sp m m' p l : same_mem sp m m' → str_at sp m p l → str_at sp m' p l.
Proof. intros Hm []. split; try done. apply (cstring_same m); [done|]. intros x Hx. by apply Hm, sa_safe0. Qed.
Lemma str_at_below sp sp' m p l : sp' ≤ sp → str_at sp m p l → str_at sp' m p l.
Proof. intros Hs []. split; try done. intros x Hx Hc. apply (sa_safe0 x Hx). unfold scratch in *. lia. Qed.

(** ** basename_trim *)

Fixpoint dropw (P : Z → bool) (l : list Z) : list Z :=
  match l with
  | [] => []
  | c :: l' => if P c then dropw P l' else l
  end.

Lemma dropw_length P l : (length (dropw P l) ≤ length l)%nat.
Proof. induction l as [|c l IH]; cbn; [done|]. destruct (P c); cbn; lia. Qed.

Lemma drop_slashes_dropw l : drop_slashes l = dropw (λ c, c =? fslash) l.
Proof. induction l as [|c l IH]; [done|]. cbn. by rewrite IH. Qed.

Lemma till_slash_dropw l : l = till_slash l ++ dropw (λ c, negb (c =? fslash)) l.
Proof. induction l as [|c l IH]; [done|]. cbn. destruct (c =? fslash); [done|]. cbn. by f_equal. Qed.

Lemma dropw_suffix P l : ∃ k, l = k ++ dropw P l.
Proof. induction l as [|c l [k IH]]; [by exists []|]. cbn. destruct (P c); [exists (c :: k); cbn; by f_equal|by exists []]. Qed.

(** The loops that go back from the end of a string. *)
Lemma back_while_run P m path l fuel :
  at_mem m path l → (length l ≤ fuel)%nat →
  back_while fuel P m path (path + Z.of_nat (length l) - 1) = path + Z.of_nat (length (dropw P (reverse l))) - 1.
Proof.
  revert fuel. induction l as [|c l IH] using rev_ind; intros fuel Ha Hf.
  - cbn. destruct fuel; [done|]. cbn. rewrite (proj2 (Z.leb_gt path _)) by lia. done.
  - rewrite length_app in *. cbn [length] in *. destruct fuel as [|fuel]; [lia|].
    assert (m (path + Z.of_nat (length l)) = c) as Ec by (apply Ha; by rewrite list_lookup_middle).
    cbn [back_while]. replace (path + Z.of_nat (length l + 1) - 1) with (path + Z.of_nat (length l)) by lia.
    rewrite (proj2 (Z.leb_le _ _)), Ec by lia. cbn [andb]. rewrite reverse_snoc. cbn [dropw]. destruct (P c).
    + rewrite IH; [done| |lia]. intros k d Hk. apply Ha. by apply lookup_app_l_Some.
    + cbn [length]. rewrite length_reverse. lia.
Qed.

Lemma back_run P m path l :
  at_mem m path l → back P m path (path + Z.of_nat (length l) - 1) = path + Z.of_nat (length (dropw P (reverse l))) - 1.
Proof. intros Ha. unfold back. apply back_while_run; [done|lia]. Qed.

(** Bytes of a string copied elsewhere, with a NUL after them. *)
Lemma copied_cstring m d s l :
  at_mem m s l → Forall (λ c, c ≠ 0) l → cstring (<[d + Z.of_nat (length l) := 0]> (mem_copy m d m s (Z.of_nat (length l)))) d l.
Proof.
  intros Ha Hn. split_and!; [|done|by rewrite fn_lookup_insert]. intros k x Hk. pose proof (lookup_lt_Some _ _ _ Hk).
  rewrite fn_lookup_insert_ne by lia. rewrite mem_copy_in by lia. rewrite <-(Ha k x Hk). f_equal. lia.
Qed.

Lemma base_name_all (P : Z → Prop) l : P fslash → Forall P l → Forall P (base_name l).
Proof.
  intros Hs Hl. unfold base_name. rewrite drop_slashes_dropw. apply Forall_reverse in Hl.
  destruct (dropw_suffix (λ c, c =? fslash) (reverse l)) as [k Ek]. rewrite Ek in Hl. apply Forall_app in Hl as [_ Hl].
  destruct (dropw _ _) as [|c r]; [by repeat constructor|]. apply Forall_take, Forall_reverse.
  rewrite (till_slash_dropw (c :: r)) in Hl. by apply Forall_app in Hl as [? _].
Qed.

(** What basename_trim finds: where the last element starts. *)
Lemma base_parts m path l :
  at_mem m path l → let p := back (λ c, c =? fslash) m path (path + Z.of_nat (length l) - 1) in
  if p <? path then base_name l = [fslash]
  else ∃ e, p - back (λ c, negb (c =? fslash)) m path p = Z.of_nat (length e) ∧ (length e ≤ length l)%nat ∧
    at_mem m (back (λ c, negb (c =? fslash)) m path p + 1) e ∧ base_name l = take (Z.to_nat DIRSIZ) e.
Proof.
  intros Ha. cbv zeta. rewrite back_run by done. unfold base_name. rewrite drop_slashes_dropw.
  destruct (dropw_suffix (λ c, c =? fslash) (reverse l)) as [k Ek]. destruct (dropw _ (reverse l)) as [|c r'] eqn:Er.
  { cbn. by rewrite (proj2 (Z.ltb_lt _ _)) by lia. }
  set (r := c :: r') in *. rewrite (proj2 (Z.ltb_ge _ _)) by (cbn; lia).
  assert (l = reverse r ++ reverse k) as El by (by rewrite <-reverse_app, <-Ek, reverse_involutive).
  rewrite El in Ha. apply at_mem_app in Ha as [Ha _].
  pose proof (back_run (λ c, negb (c =? fslash)) m path (reverse r) Ha) as Eb. rewrite length_reverse, reverse_involutive in Eb. rewrite Eb.
  set (dw := dropw _ r) in *. pose proof (till_slash_dropw r) as Et. fold dw in Et. rewrite Et, reverse_app in Ha.
  apply at_mem_app in Ha as [_ Ha]. rewrite length_reverse in Ha. exists (reverse (till_slash r)).
  assert (length r = length (till_slash r) + length dw)%nat by (rewrite Et at 1; by rewrite length_app).
  assert (length r ≤ length l)%nat by (rewrite El, length_app, length_reverse; lia).
  split_and!; [rewrite length_reverse; lia|rewrite length_reverse; lia| |done].
  by replace (path + Z.of_nat (length dw) - 1 + 1) with (path + Z.of_nat (length dw)) by lia.
Qed.

Section Run.
Context `{Kernel}.

Lemma poke_does a v u : does (poke a v) u tt (set_u_mem (<[a := v]> (u_mem u)) u).
Proof. done. Qed.
Lemma umove_does d s n u : 0 ≤ n → does (umove d s n) u tt (set_u_mem (mem_copy (u_mem u) d (u_mem u) s n) u).
Proof. intros Hn env. unfold umove. rewrite <-(umemmove_copy (u_mem u) d s n Hn). done. Qed.

Lemma basename_does u path l :
  cstring (u_mem u) path l → (length l < ustr_max)%nat →
  ∃ m, does (basename_trim path) u base_buf (set_u_mem m u) ∧ cstring m base_buf (base_name l) ∧
    ∀ x, ¬ (base_buf ≤ x < base_buf + 15) → m x = u_mem u x.
Proof.
  intros Hc Hl. pose proof Hc as (Ha & Hn & _). pose proof (base_parts _ _ _ Ha) as Hp. cbv zeta in Hp.
  unfold basename_trim. set (p := back _ _ _ _) in Hp. destruct (p <? path) eqn:Ep.
  - eexists. split; [|split].
    + eapply does_bind; [by apply ustrlen_does|]. eapply does_bind; [apply does_gets|]. cbv zeta. fold p. rewrite Ep.
      eapply does_bind; [apply poke_does|]. eapply does_bind; [apply poke_does|]. apply does_ret.
    + rewrite Hp. split_and!; [|by repeat constructor|by rewrite fn_lookup_insert].
      intros [|k] d Hk; [injection Hk as <-|done]. rewrite Z.add_0_r. rewrite fn_lookup_insert_ne by lia. cbn [u_mem set_u_mem].
      by rewrite fn_lookup_insert.
    + intros x Hx. cbn. rewrite !fn_lookup_insert_ne by lia. done.
  - destruct Hp as (e & Elen & Hle & He & Eb). set (b := back _ _ path p) in *.
    assert (Z.of_nat ustr_max = 4096) as Hu by done. pose proof (base_name_all (λ c, c ≠ 0) l ltac:(done) Hn) as Hbn.
    assert ((if i32 (p - (b + 1) + 1) >? DIRSIZ then DIRSIZ else i32 (p - (b + 1) + 1)) = Z.of_nat (length (base_name l))) as En.
    { rewrite Eb, length_take. replace (p - (b + 1) + 1) with (Z.of_nat (length e)) by lia. rewrite i32_small by lia.
      change DIRSIZ with 14. destruct (Z.gtb_spec (Z.of_nat (length e)) 14); lia. }
    eexists. split; [|split].
    + eapply does_bind; [by apply ustrlen_does|]. eapply does_bind; [apply does_gets|]. cbv zeta. fold p. rewrite Ep. fold b. rewrite En.
      eapply does_bind; [apply umove_does; lia|]. eapply does_bind; [apply poke_does|]. apply does_ret.
    + apply copied_cstring; [|done]. rewrite Eb. rewrite <-(take_drop (Z.to_nat DIRSIZ) e) in He. by apply at_mem_app in He as [? _].
    + intros x Hx. cbn. assert (length (base_name l) ≤ 14)%nat by (rewrite Eb, length_take; change (Z.to_nat DIRSIZ) with 14%nat; lia).
      rewrite fn_lookup_insert_ne by lia. by rewrite mem_copy_out by lia.
Qed.

(** *** Opening files *)

Lemma ufstat_does u fd n st : u_fds u fd = Some n → does (ufstat fd st) u 0 (set_u_mem (put_stat n (u_mem u) st) u).
Proof. intros E env. unfold ufstat. rewrite (bind_Ret (gets u_fds) _ _ _ _ _ _ eq_refl). by rewrite E. Qed.

Lemma i16_u16 x : i16 (x `mod` 2 ^ (2 * 8)) = i16 x.
Proof. unfold i16. change (2 * 8) with 16. by rewrite Zplus_mod_idemp_l. Qed.

Lemma put_stat_type n m a : st_type (put_stat n m a) a = i16 (n_type n).
Proof.
  unfold st_type, put_stat, ld16, st64, st32, st16. rewrite !ld_st_ne by lia. rewrite ld_st_eq by lia. apply i16_u16.
Qed.

Lemma put_stat_out n m a x : ¬ (a ≤ x < a + 24) → put_stat n m a x = m x.
Proof. intros Hx. unfold put_stat, st64, st32, st16. by rewrite !st_out by lia. Qed.

Lemma ustat_does u path l st :
  cstring (u_mem u) path l →
  match try_open (u_fds u) l with
  | Some (fd, n) => does (ustat path st) u 0 (set_u_mem (put_stat n (u_mem u) st) u)
  | None => does (ustat path st) u (-1) u
  end.
Proof.
  intros Hc. pose proof (uopen_does u path l Hc) as Ho. unfold ustat. destruct (try_open (u_fds u) l) as [[fd n]|] eqn:E.
  - destruct (try_open_Some _ _ _ _ E) as (Hp & Hn & _). eapply does_bind; [exact Ho|]. rewrite (proj2 (Z.ltb_ge fd 0)) by lia.
    eapply does_bind; [apply ufstat_does; apply fn_lookup_insert|]. eapply does_bind; [apply uclose_does|].
    unfold set_u_mem, set_u_fds. cbn. rewrite close_opened by done. apply does_ret.
  - eapply does_bind; [exact Ho|]. apply does_ret.
Qed.

(** *** Reading a directory *)

(** read returns as much as is asked for: the contents are one piece. *)
Definition whole (n : node) : Prop := (length (n_data n) ≤ 1)%nat.
Definition rest_of (n : node) : list Z := concat (n_data n).

Lemma uread_does u fd n a :
  u_fds u fd = Some n → whole n →
  ∃ n', does (uread fd a 16) u (Z.of_nat (length (take 16 (rest_of n))))
          (mkUproc (st_bytes (u_mem u) a (take 16 (rest_of n))) (<[fd := Some n']> (u_fds u)) (u_out u)) ∧
    whole n' ∧ rest_of n' = drop 16 (rest_of n).
Proof.
  intros E Hw. unfold whole, rest_of in *. destruct (n_data n) as [|l [|? ?]] eqn:Ed; [| |cbn in Hw; lia].
  - exists n. cbn. rewrite Ed. split; [|cbn; split; [lia|done]]. unfold uread. eapply does_bind; [apply does_gets|]. rewrite E, Ed.
    rewrite fn_insert_same by done. destruct u. apply does_ret.
  - cbn [concat]. rewrite app_nil_r. exists (set_n_data (if (length l <=? 16)%nat then [] else [drop 16 l]) n). split; [|split].
    + unfold uread. eapply does_bind; [apply does_gets|]. rewrite E, Ed. cbv zeta. change (Z.to_nat 16) with 16%nat.
      eapply does_bind; [apply does_modify|]. apply does_ret.
    + cbn. destruct (_ <=? _)%nat; cbn; lia.
    + cbn. destruct (Nat.leb_spec (length l) 16); cbn; [by rewrite drop_ge|by rewrite app_nil_r].
Qed.

Lemma cut_nul_cstring m a l : at_mem m a l → m (a + Z.of_nat (length l)) = 0 → cstring m a (cut_nul l).
Proof.
  revert a. induction l as [|c l IH]; intros a Ha Hz; [split_and!; [done|done|exact Hz]|]. cbn [cut_nul].
  pose proof (Ha 0%nat c eq_refl) as E. rewrite Z.add_0_r in E. destruct (Z.eqb_spec c 0) as [->|Hn].
  { split_and!; [done|done|]. cbn. by rewrite Z.add_0_r. }
  destruct (IH (a + 1)) as (H1 & H2 & H3).
  { intros k d Hk. rewrite <-(Ha (S k) d Hk). f_equal. lia. }
  { rewrite <-Hz. f_equal. cbn [length]. lia. }
  split_and!; [|by constructor|rewrite <-H3; f_equal; cbn [length]; lia].
  intros [|k] d Hk; [injection Hk as <-; by rewrite Z.add_0_r|]. rewrite <-(H1 k d Hk). f_equal. lia.
Qed.

Lemma cut_nul_all (P : Z → Prop) l : Forall P l → Forall P (cut_nul l).
Proof. induction 1 as [|c l Hc Hl IH]; cbn; [done|]. destruct (c =? 0); [done|by constructor]. Qed.
Lemma cut_nul_length l : (length (cut_nul l) ≤ length l)%nat.
Proof. induction l as [|c l IH]; cbn; [done|]. destruct (c =? 0); cbn; lia. Qed.

(** An entry in de, its name copied to name. *)
Lemma name_does u sp e :
  at_mem (u_mem u) (fr_de sp) e → length e = 16%nat →
  ∃ m, does (umove (fr_name sp) (fr_de sp + 2) DIRSIZ ;; poke (fr_name sp + DIRSIZ) 0) u tt (set_u_mem m u) ∧
    cstring m (fr_name sp) (de_str e) ∧ ∀ x, ¬ (fr_name sp ≤ x < fr_name sp + 15) → m x = u_mem u x.
Proof.
  intros Ha Hl. exists (<[fr_name sp + DIRSIZ := 0]> (mem_copy (u_mem u) (fr_name sp) (u_mem u) (fr_de sp + 2) DIRSIZ)).
  split; [eapply does_bind; [by apply umove_does|done]|]. change DIRSIZ with 14. split.
  - apply cut_nul_cstring; [|rewrite length_drop, Hl; by rewrite fn_lookup_insert].
    intros k d Hk. pose proof (lookup_lt_Some _ _ _ Hk) as Hlt. rewrite length_drop, Hl in Hlt.
    rewrite fn_lookup_insert_ne by lia. rewrite mem_copy_in by lia. rewrite lookup_drop in Hk. rewrite <-(Ha _ d Hk). f_equal. lia.
  - intros x Hx. rewrite fn_lookup_insert_ne by lia. by rewrite mem_copy_out by lia.
Qed.

Lemma does_seq2 {B} (m1 m2 : U unit) (k : U B) u u1 b u2 :
  does (m1 ;; m2) u tt u1 → does k u1 b u2 → does (m1 ;; m2 ;; k) u b u2.
Proof. intros H1 H2 env. rewrite <-bind_assoc. by rewrite (bind_Ret _ _ _ _ _ _ _ (H1 env)). Qed.

(** *** An entry *)

Definition pre (l : list Z) : list Z := l ++ (if ends_slash l then [] else [fslash]).

Lemma join_pre l nm : join l nm = pre l ++ nm.
Proof. unfold join, pre. by rewrite <-(assoc_L (++)). Qed.

Lemma pre_length l : (length l ≤ length (pre l) ≤ S (length l))%nat.
Proof. unfold pre. rewrite length_app. destruct (ends_slash l); cbn; lia. Qed.

(** While the entries of the directory [l] are looked at. *)
Record ready (sp t : Z) (tl l : list Z) (m : bytes) : Prop := {
  rd_stack : stack_low + frame_size ≤ sp;
  rd_target : str_at sp m t tl;
  rd_dot : cstring m dot_str [46];
  rd_dotdot : cstring m dotdot_str [46; 46];
  rd_pre : at_mem m (fr_buf sp) (pre l);
  rd_pre_str : Forall is_char (pre l) ∧ Forall (λ c, c ≠ 0) (pre l);
  rd_short : (length l < max_path)%nat
}.

Definition buf_end (sp : Z) (l : list Z) : Z := fr_buf sp + Z.of_nat (length (pre l)).

Lemma ready_same sp t tl l m m' :
  ready sp t tl l m →
  (∀ x, ¬ (stack_low ≤ x < fr_buf sp) → ¬ (buf_end sp l ≤ x < sp) → ¬ (base_buf ≤ x < base_buf + 15) → m' x = m x) →
  ready sp t tl l m'.
Proof.
  intros [Hst Ht Hd Hdd Hp Hpc Hl] Hm. pose proof (pre_length l). change max_path with 128%nat in *.
  unfold stack_low, frame_size, base_buf, buf_end, fr_buf in *.
  split; try done.
  - apply (str_at_same sp m); [|done]. intros x Hx. unfold scratch, stack_low, base_buf in Hx. apply Hm; lia.
  - apply (cstring_same m); [done|]. unfold dot_str. cbn. intros x Hx. apply Hm; lia.
  - apply (cstring_same m); [done|]. unfold dotdot_str. cbn. intros x Hx. apply Hm; lia.
  - apply (at_mem_same m); [|done]. intros x Hx. apply Hm; unfold fr_buf in *; lia.
Qed.

Lemma cstring_app m p a b : at_mem m p a → Forall (λ c, c ≠ 0) a → cstring m (p + Z.of_nat (length a)) b → cstring m p (a ++ b).
Proof.
  intros Ha Hn (Hb & Hnb & Hz). split_and!.
  - intros k d Hk. apply lookup_app_Some in Hk as [Hk|[Hle Hk]]; [by apply Ha|]. rewrite <-(Hb _ d Hk). f_equal. lia.
  - by apply Forall_app.
  - rewrite <-Hz. f_equal. rewrite length_app. lia.
Qed.

(** The name is put after the path of the directory. *)
Lemma path_does u sp t tl l nm :
  ready sp t tl l (u_mem u) → cstring (u_mem u) (fr_name sp) nm → (length nm ≤ 14)%nat →
  ∃ m, does (umove (buf_end sp l) (fr_name sp) (Z.of_nat (length nm)) ;; poke (buf_end sp l + Z.of_nat (length nm)) 0) u tt (set_u_mem m u) ∧
    cstring m (fr_buf sp) (join l nm) ∧ ∀ x, ¬ (buf_end sp l ≤ x < sp) → m x = u_mem u x.
Proof.
  intros Hr Hc Hn. pose proof (pre_length l). pose proof (rd_short _ _ _ _ _ Hr) as Hl. change max_path with 128%nat in Hl.
  pose proof Hc as (Ha & Hnz & _). set (e := buf_end sp l). set (k := Z.of_nat (length nm)).
  exists (<[e + k := 0]> (mem_copy (u_mem u) e (u_mem u) (fr_name sp) k)).
  assert (∀ x, ¬ (e ≤ x ≤ e + k) → <[e + k := 0]> (mem_copy (u_mem u) e (u_mem u) (fr_name sp) k) x = u_mem u x) as Ho.
  { intros x Hx. rewrite fn_lookup_insert_ne by lia. by rewrite mem_copy_out by lia. }
  assert (e + k < sp) by (unfold e, k, buf_end, fr_buf; lia).
  split; [eapply does_bind; [apply umove_does; lia|done]|]. split; [|intros x Hx; apply Ho; lia].
  rewrite join_pre. apply cstring_app; [|apply (rd_pre_str _ _ _ _ _ Hr)|by apply copied_cstring].
  apply (at_mem_same (u_mem u)); [|apply (rd_pre _ _ _ _ _ Hr)]. intros x Hx. apply Ho. unfold e, buf_end. lia.
Qed.

(** What do_find promises for a path that lies in the frame of its caller. *)
Definition rec_ok (rec : Z → U unit) (sp t : Z) (tl : list Z) (n : nat) : Prop :=
  ∀ u q, nfree (u_fds u) = n → str_at (sp - frame_size) (u_mem u) (fr_buf sp) q → str_at sp (u_mem u) t tl →
    cstring (u_mem u) dot_str [46] → cstring (u_mem u) dotdot_str [46; 46] →
    ∃ m, does (rec (fr_buf sp)) u tt (said (lines (found tl n q)) (set_u_mem m u)) ∧ same_mem (sp - frame_size) (u_mem u) m.

Lemma lines_app a b : lines (a ++ b) = lines a ++ lines b.
Proof. unfold lines. by rewrite fmap_app, concat_app. Qed.

Lemma de_ino_ld m a e : at_mem m a e → length e = 16%nat → ld16 m a = de_ino e.
Proof.
  intros Ha Hl. unfold ld16, ld, de_ino. f_equal. rewrite <-(take_drop 2 e) in Ha. apply at_mem_app in Ha as [Ha _].
  rewrite <-(at_mem_ld m a (take 2 e) Ha) at 1. f_equal. rewrite length_take, Hl. done.
Qed.

(** What is printed for the path [q] with the last element [nm]. *)
Definition found_path (tl : list Z) (n : nat) (below : list Z → list (list Z)) (nm q : list Z) : list (list Z) :=
  if (n =? 0)%nat || (max_path <=? length q)%nat then [] else
  match k_look q with
  | None => []
  | Some nd => (if bool_decide (nm = tl) then [q] else []) ++ (if i16 (n_type nd) =? T_DIR then below q else [])
  end.

Lemma found_path_open tl below nm q fds :
  found_path tl (nfree fds) below nm q =
    match try_open fds q with
    | None => []
    | Some (_, nd) => (if bool_decide (nm = tl) then [q] else []) ++ (if i16 (n_type nd) =? T_DIR then below q else [])
    end.
Proof.
  unfold found_path, try_open. destruct (Nat.eqb_spec (nfree fds) 0) as [E|E]; cbn [orb].
  - apply free_fd_None in E. rewrite E. destruct (_ <=? _)%nat; [done|]. by destruct (k_look q).
  - destruct (_ <=? _)%nat; [done|]. destruct (k_look q); [|done]. destruct (free_fd fds) eqn:F; [done|]. by apply free_fd_None in F.
Qed.

(** The rest of the body, when the path of the entry is in buf. *)
Definition visit (rec : Z → U unit) (sp t : Z) : U unit :=
  s <- ustat (fr_buf sp) (fr_st2 sp) ;;
  if s <? 0 then ret tt else
  c <- ustrcmp (fr_name sp) t ;;
  when (c =? 0) (print_match (fr_buf sp)) ;;
  m <- umem ;;
  when (st_type m (fr_st2 sp) =? T_DIR) (rec (fr_buf sp)).

Lemma said_lines_nil u : said (lines []) u = u.
Proof. apply said_nil. Qed.
Lemma said_mem l m u : said l (set_u_mem m u) = set_u_mem m (said l u).
Proof. done. Qed.

Lemma print_if_does b u sp p q : out_ok → str_at sp (u_mem u) p q → does (when b (print_match p)) u tt (said (lines (if b then [q] else [])) u).
Proof.
  intros Ho []. destruct b; [|by rewrite said_lines_nil]. apply does_when_true.
  replace (lines [q]) with (q ++ [10]) by (unfold lines; cbn; by rewrite app_nil_r). by apply print_line_does.
Qed.

Lemma visit_does rec u sp t tl l nm q :
  out_ok → ready sp t tl l (u_mem u) → cstring (u_mem u) (fr_name sp) nm → (length nm ≤ 14)%nat →
  cstring (u_mem u) (fr_buf sp) q → Forall is_char q → (length q < 256)%nat → rec_ok rec sp t tl (nfree (u_fds u)) →
  ∃ m, does (visit rec sp t) u tt (said (lines (found_path tl (nfree (u_fds u)) (found tl (nfree (u_fds u))) nm q)) (set_u_mem m u)) ∧
    same_mem (fr_name sp) (u_mem u) m.
Proof.
  intros Ho Hr Hn Hnl Hq Hqc Hql Hrec. rewrite found_path_open. pose proof (ustat_does u (fr_buf sp) q (fr_st2 sp) Hq) as Hs.
  unfold visit. destruct (try_open (u_fds u) q) as [[fd nd]|].
  2: { exists (u_mem u). split; [|done]. eapply does_bind; [exact Hs|]. rewrite said_lines_nil. destruct u. apply does_ret. }
  pose proof (rd_stack _ _ _ _ _ Hr) as Hst. set (m := put_stat nd (u_mem u) (fr_st2 sp)) in Hs.
  assert (∀ x, ¬ (sp - 592 ≤ x < sp - 568) → m x = u_mem u x) as Hm by (intros x Hx; apply put_stat_out; unfold fr_st2; lia).
  unfold stack_low, frame_size, base_buf in *.
  assert (ready sp t tl l m) as Hr'.
  { apply (ready_same _ _ _ _ (u_mem u)); [done|]. intros x Hx _ _. apply Hm. unfold stack_low, fr_buf in Hx. lia. }
  assert (cstring m (fr_name sp) nm) as Hn' by (apply (cstring_same (u_mem u)); [done|unfold fr_name; intros x Hx; apply Hm; lia]).
  assert (cstring m (fr_buf sp) q) as Hq' by (apply (cstring_same (u_mem u)); [done|unfold fr_buf; intros x Hx; apply Hm; lia]).
  assert (str_at (sp - frame_size) m (fr_buf sp) q) as Hsq.
  { split; [done|unfold fr_buf; lia| |done|change ustr_max with (Z.to_nat 4096); lia].
    intros x Hx. unfold scratch, stack_low, base_buf, frame_size, fr_buf in *. lia. }
  destruct (ustrcmp_does (set_u_mem m u) (fr_name sp) t nm tl Hn' (sa_str _ _ _ _ (rd_target _ _ _ _ _ Hr'))) as (c & Hcmp & Hc0).
  { change ustr_max with (Z.to_nat 4096). lia. }
  set (u1 := said (lines (if c =? 0 then [q] else [])) (set_u_mem m u)).
  assert (∃ m', does (when (st_type m (fr_st2 sp) =? T_DIR) (rec (fr_buf sp))) u1 tt
      (said (lines (if i16 (n_type nd) =? T_DIR then found tl (nfree (u_fds u)) q else [])) (set_u_mem m' u1)) ∧ same_mem (sp - frame_size) m m')
    as (m' & Hd & Hm').
  { unfold m. rewrite put_stat_type. fold m. destruct (i16 (n_type nd) =? T_DIR); cycle 1.
    { exists m. split; [|done]. change (does (ret tt) u1 tt (said (lines []) (set_u_mem m u1))). by rewrite said_lines_nil. }
    destruct (Hrec u1 q) as (m' & Hd & Hsm); [done|done|apply Hr'|apply Hr'|apply Hr'|]. by exists m'. }
  exists m'. split.
  - eapply does_bind; [exact Hs|]. eapply does_bind; [exact Hcmp|]. eapply does_bind; [by apply (print_if_does _ _ (sp - frame_size))|]. fold u1.
    eapply does_bind; [apply does_gets|]. replace (bool_decide (nm = tl)) with (c =? 0).
    2: { destruct (Z.eqb_spec c 0); [rewrite bool_decide_true by (by apply Hc0)|rewrite bool_decide_false by (by intros ?%Hc0)]; done. }
    rewrite lines_app, <-said_app. exact Hd.
  - intros x Hx. unfold scratch, stack_low, base_buf, frame_size, fr_name in *. rewrite Hm', Hm; [done|lia|]. unfold scratch, stack_low, base_buf. lia.
Qed.

Lemma dots_does (u : uproc) sp nm :
  cstring (u_mem u) (fr_name sp) nm → (length nm ≤ 14)%nat →
  cstring (u_mem u) dot_str [46] → cstring (u_mem u) dotdot_str [46; 46] →
  ∃ c1 c2, does (ustrcmp (fr_name sp) dot_str) u c1 u ∧
    does (if c1 =? 0 then ret 0 else ustrcmp (fr_name sp) dotdot_str) u c2 u ∧ (c1 =? 0) || (c2 =? 0) = is_dots nm.
Proof.
  intros Hn Hl H1 H2. assert (length nm < ustr_max)%nat as Hlt by (change ustr_max with (Z.to_nat 4096); lia).
  destruct (ustrcmp_does u _ _ _ _ Hn H1 Hlt) as (c1 & Hd1 & Hc1), (ustrcmp_does u _ _ _ _ Hn H2 Hlt) as (c2 & Hd2 & Hc2).
  unfold is_dots. destruct (Z.eqb_spec c1 0) as [E1|E1].
  - exists c1, 0. rewrite (bool_decide_true (nm = [46])) by (by apply Hc1). by subst c1.
  - exists c1, c2. rewrite (bool_decide_false (nm = [46])) by (by intros ?%Hc1).
    rewrite (proj2 (Z.eqb_neq c1 0) E1). split_and!; [done|done|]. cbn [orb].
    destruct (Z.eqb_spec c2 0); [rewrite bool_decide_true by (by apply Hc2)|rewrite bool_decide_false by (by intros ?%Hc2)]; done.
Qed.

Lemma de_str_chars e : Forall is_char e → Forall is_char (de_str e).
Proof. intros He. by apply cut_nul_all, Forall_drop. Qed.
Lemma de_str_length e : length e = 16%nat → (length (de_str e) ≤ 14)%nat.
Proof. intros He. pose proof (cut_nul_length (drop 2 e)) as Hc. rewrite length_drop, He in Hc. done. Qed.

Lemma join_fits l nm : (length l < max_path)%nat → (length nm ≤ 14)%nat → (length (join l nm) < 256)%nat.
Proof. intros Hl Hn. rewrite join_pre, length_app. pose proof (pre_length l). change max_path with 128%nat in Hl. lia. Qed.

(** What the body of the loop leaves alone. *)
Definition moved (sp : Z) (l : list Z) (m m' : bytes) : Prop :=
  ∀ x, ¬ (stack_low ≤ x < fr_buf sp) → ¬ (buf_end sp l ≤ x < sp) → ¬ (base_buf ≤ x < base_buf + 15) → m' x = m x.

Lemma find_entry_does rec u sp t tl l e :
  out_ok → ready sp t tl l (u_mem u) → at_mem (u_mem u) (fr_de sp) e → length e = 16%nat → Forall is_char e →
  rec_ok rec sp t tl (nfree (u_fds u)) →
  ∃ m, does (find_entry rec sp (buf_end sp l) t) u tt
      (said (lines (found_entry tl (nfree (u_fds u)) (found tl (nfree (u_fds u))) l e)) (set_u_mem m u)) ∧
    moved sp l (u_mem u) m.
Proof.
  intros Ho Hr Ha He Hec Hrec. unfold found_entry. fold (found_path tl (nfree (u_fds u)) (found tl (nfree (u_fds u))) (de_str e) (join l (de_str e))).
  pose proof (de_ino_ld _ _ _ Ha He) as Eino. pose proof (de_str_length e He) as Hnl. pose proof (rd_stack _ _ _ _ _ Hr) as Hst.
  unfold find_entry. destruct (de_ino e =? 0) eqn:E0; cbn [orb].
  { exists (u_mem u). split; [|done]. eapply does_bind; [apply does_gets|]. rewrite Eino, E0, said_lines_nil. by destruct u. }
  destruct (name_does u sp e Ha He) as (m1 & Hd1 & Hn1 & Hm1).
  assert (moved sp l (u_mem u) m1) as Hv1 by (intros x Hx _ _; apply Hm1; unfold fr_buf, fr_name, stack_low, frame_size in *; lia).
  assert (ready sp t tl l m1) as Hr1 by (by apply (ready_same _ _ _ _ (u_mem u))).
  destruct (dots_does (set_u_mem m1 u) sp (de_str e)) as (c1 & c2 & Hc1 & Hc2 & Ec); [done|done|apply Hr1|apply Hr1|].
  destruct (is_dots (de_str e)).
  { exists m1. split; [|done]. eapply does_bind; [apply does_gets|]. rewrite Eino, E0. eapply does_seq2; [exact Hd1|].
    eapply does_bind; [exact Hc1|]. eapply does_bind; [exact Hc2|]. by rewrite Ec, said_lines_nil. }
  destruct (path_does (set_u_mem m1 u) sp t tl l (de_str e)) as (m2 & Hd2 & Hq2 & Hm2); [done|done|done|].
  assert (moved sp l m1 m2) as Hv2 by (intros x _ Hx _; by apply Hm2).
  assert (ready sp t tl l m2) as Hr2 by (by apply (ready_same _ _ _ _ m1)).
  assert (cstring m2 (fr_name sp) (de_str e)) as Hn2.
  { apply (cstring_same m1); [done|]. intros x Hx. apply Hm2. unfold buf_end, fr_buf, fr_name in *. lia. }
  destruct (visit_does rec (set_u_mem m2 u) sp t tl l (de_str e) (join l (de_str e))) as (m3 & Hd3 & Hm3); try done.
  { rewrite join_pre. apply Forall_app. split; [apply Hr|by apply de_str_chars]. }
  { apply join_fits; [apply Hr|done]. }
  exists m3. split.
  - eapply does_bind; [apply does_gets|]. rewrite Eino, E0. eapply does_seq2; [exact Hd1|].
    eapply does_bind; [exact Hc1|]. eapply does_bind; [exact Hc2|]. rewrite Ec.
    eapply does_bind; [apply (ustrlen_does _ _ (de_str e)); [done|change ustr_max with (Z.to_nat 4096); lia]|].
    eapply does_seq2; [exact Hd2|]. exact Hd3.
  - intros x H1 H2 H3. rewrite Hm3; [by rewrite Hv2, Hv1|]. unfold scratch, stack_low, fr_name, fr_buf, base_buf in *. cbn. lia.
Qed.

(** *** All entries of a directory *)

Lemma nfree_replace fds fd (n n' : node) : fds fd = Some n → nfree (<[fd := Some n']> fds) = nfree fds.
Proof.
  intros E. unfold nfree. f_equal. apply List.filter_ext_in. intros x _. destruct (decide (x = fd)) as [->|Hne].
  - by rewrite fn_lookup_insert, E.
  - by rewrite fn_lookup_insert_ne.
Qed.

Lemma moved_trans sp l m1 m2 m3 : moved sp l m1 m2 → moved sp l m2 m3 → moved sp l m1 m3.
Proof. intros H1 H2 x ???. by rewrite H2, H1. Qed.

Lemma lines_nil : lines [] = [].
Proof. done. Qed.

Lemma find_entries_does rec sp t tl l fd n0 fuel k u n :
  out_ok → rec_ok rec sp t tl n0 → ready sp t tl l (u_mem u) →
  u_fds u fd = Some n → whole n → Forall is_char (rest_of n) → nfree (u_fds u) = n0 →
  (length (rest_of n) < fuel)%nat → (length (rest_of n) ≤ k)%nat →
  ∃ m n', does (find_entries fuel rec sp fd (buf_end sp l) t) u tt
      (said (lines (concat (found_entry tl n0 (found tl n0) l <$> dirents k (rest_of n)))) (mkUproc m (<[fd := Some n']> (u_fds u)) (u_out u))) ∧
    moved sp l (u_mem u) m.
Proof.
  intros Ho Hrec. revert k u n. induction fuel as [|fuel IH]; intros k u n Hr E Hw Hc Hf Hlt Hk; [lia|].
  pose proof (rd_stack _ _ _ _ _ Hr) as Hst. destruct (uread_does u fd n (fr_de sp) E Hw) as (n1 & Hd1 & Hw1 & Er1).
  set (m1 := st_bytes _ _ _) in Hd1. set (e := take 16 (rest_of n)) in *.
  assert (moved sp l (u_mem u) m1) as Hv1.
  { intros x Hx _ _. apply st_bytes_out. unfold e. rewrite length_take. unfold fr_buf, fr_de, stack_low, frame_size in *. lia. }
  assert (ready sp t tl l m1) as Hr1 by (by apply (ready_same _ _ _ _ (u_mem u))).
  assert (length e = if (16 <=? length (rest_of n))%nat then 16%nat else length (rest_of n)) as El.
  { unfold e. rewrite length_take. destruct (Nat.leb_spec 16 (length (rest_of n))); lia. }
  cbn [find_entries]. change sizeof_dirent with 16. destruct (Nat.leb_spec 16 (length (rest_of n))) as [Hge|Hlt']; cycle 1.
  { exists m1, n1. split; [|done]. eapply does_bind; [exact Hd1|]. rewrite El, (proj2 (Z.eqb_neq _ _)) by lia.
    replace (dirents k (rest_of n)) with (@nil (list Z)); [rewrite said_lines_nil; apply does_ret|].
    destruct k; [done|]. cbn [dirents]. by rewrite (proj2 (Nat.leb_gt _ _)) by lia. }
  set (u1 := mkUproc m1 (<[fd := Some n1]> (u_fds u)) (u_out u)) in Hd1.
  assert (nfree (u_fds u1) = n0) as Hf1 by (cbn; by rewrite (nfree_replace _ _ n)).
  destruct (find_entry_does rec u1 sp t tl l e) as (m2 & Hd2 & Hv2); [done|done|apply st_bytes_at|done|by apply Forall_take|by rewrite Hf1|].
  rewrite Hf1 in Hd2. set (o := lines _) in Hd2. assert (ready sp t tl l m2) as Hr2 by (by apply (ready_same _ _ _ _ m1)).
  destruct k as [|k]; [lia|].
  destruct (IH k (said o (set_u_mem m2 u1)) n1) as (m3 & n3 & Hd3 & Hv3); [done|by apply fn_lookup_insert|done| |done| | |].
  { rewrite Er1. by apply Forall_drop. }
  { rewrite Er1, length_drop. lia. }
  { rewrite Er1, length_drop. lia. }
  exists m3, n3. split; [|by eapply moved_trans; [|exact Hv3]; eapply moved_trans].
  eapply does_bind; [exact Hd1|]. rewrite El. eapply does_bind; [exact Hd2|]. cbn [dirents].
  rewrite (proj2 (Nat.leb_le 16 (length (rest_of n)))) by lia. fold e. rewrite fmap_cons. cbn [concat]. rewrite lines_app, <-said_app. fold o.
  rewrite Er1 in Hd3. cbn [u_fds said_on set_u_mem set_u_out u1] in Hd3. rewrite fn_insert_insert in Hd3. exact Hd3.
Qed.

(** *** A directory *)

(** Where the names of the entries go: after a slash. *)
Definition put_slash (sp n : Z) (m : bytes) : U Z :=
  let p := fr_buf sp + n in
  if (p =? fr_buf sp) || negb (m (p - 1) =? fslash) then poke p fslash ;; ret (p + 1) else ret p.

Lemma put_slash_does u sp l :
  cstring (u_mem u) (fr_buf sp) l →
  ∃ m, does (put_slash sp (Z.of_nat (length l)) (u_mem u)) u (buf_end sp l) (set_u_mem m u) ∧ at_mem m (fr_buf sp) (pre l) ∧
    ∀ x, x ≠ fr_buf sp + Z.of_nat (length l) → m x = u_mem u x.
Proof.
  intros (Ha & Hn & _). set (p := fr_buf sp + Z.of_nat (length l)).
  assert ((p =? fr_buf sp) || negb (u_mem u (p - 1) =? fslash) = negb (ends_slash l)) as Eb.
  { unfold p, ends_slash. destruct l as [|c l _] using rev_ind.
    { by rewrite (proj2 (Z.eqb_eq _ _)) by (cbn; lia). }
    rewrite length_app, last_snoc. cbn [length]. rewrite (proj2 (Z.eqb_neq _ _)) by lia. cbn [orb].
    rewrite <-(Ha (length l) c) by (by rewrite list_lookup_middle). replace (fr_buf sp + Z.of_nat (length l + 1) - 1) with (fr_buf sp + Z.of_nat (length l)) by lia.
    f_equal. destruct (Z.eqb_spec (u_mem u (fr_buf sp + Z.of_nat (length l))) fslash) as [E|E].
    - by rewrite bool_decide_true by (by rewrite E).
    - by rewrite bool_decide_false by congruence. }
  unfold put_slash. fold p. cbv zeta. rewrite Eb. unfold buf_end, pre. destruct (ends_slash l); cbn [negb].
  - exists (u_mem u). rewrite app_nil_r. split_and!; [|done|done]. destruct u. apply does_ret.
  - exists (<[p := fslash]> (u_mem u)). split_and!; [|intros k d Hk|intros x Hx; by rewrite fn_lookup_insert_ne].
    + rewrite length_app. cbn [length]. replace (fr_buf sp + Z.of_nat (length l + 1)) with (p + 1) by (unfold p; lia).
      eapply does_bind; [apply poke_does|]. apply does_ret.
    + pose proof (lookup_lt_Some _ _ _ Hk) as Hlt. apply lookup_app_Some in Hk as [Hk|[Hle Hk]].
      * pose proof (lookup_lt_Some _ _ _ Hk). rewrite fn_lookup_insert_ne by (unfold p; lia). by apply Ha.
      * rewrite length_app in Hlt. cbn in Hlt. replace k with (length l) in * by lia. rewrite Nat.sub_diag in Hk. injection Hk as <-.
        by rewrite fn_lookup_insert.
Qed.

(** What do_find does for a directory. *)
Definition walk (rec : Z → U unit) (sp fd path target : Z) : U unit :=
  n <- ustrlen path ;;
  if n + 1 + DIRSIZ + 1 >? sizeof_buf then uclose fd else
  ustrcpy (fr_buf sp) path ;;
  n <- ustrlen (fr_buf sp) ;;
  m <- umem ;;
  p <- put_slash sp n m ;;
  fds <- gets u_fds ;;
  find_entries (read_rounds fds fd) rec sp fd p target ;;
  uclose fd.

Record args_ok (sp path t : Z) (l tl : list Z) (m : bytes) : Prop := {
  ao_path : str_at sp m path l;
  ao_target : str_at sp m t tl;
  ao_dot : cstring m dot_str [46];
  ao_dotdot : cstring m dotdot_str [46; 46]
}.

Lemma args_ok_same sp path t l tl m m' : stack_low ≤ sp → same_mem sp m m' → args_ok sp path t l tl m → args_ok sp path t l tl m'.
Proof.
  intros Hsp Hm []. split; [by eapply str_at_same|by eapply str_at_same| |].
  - apply (cstring_same m); [done|]. unfold dot_str. cbn. intros x Hx. apply Hm. unfold scratch, base_buf, stack_low in *. lia.
  - apply (cstring_same m); [done|]. unfold dotdot_str. cbn. intros x Hx. apply Hm. unfold scratch, base_buf, stack_low in *. lia.
Qed.

(** The path of the directory is copied to the frame. *)
Lemma ready_does u sp path t l tl :
  stack_low + frame_size ≤ sp → args_ok sp path t l tl (u_mem u) → (length l < max_path)%nat →
  ∃ m1 m2, does (ustrcpy (fr_buf sp) path) u tt (set_u_mem m1 u) ∧ cstring m1 (fr_buf sp) l ∧
    does (put_slash sp (Z.of_nat (length l)) m1) (set_u_mem m1 u) (buf_end sp l) (set_u_mem m2 u) ∧
    ready sp t tl l m2 ∧ same_mem sp (u_mem u) m2.
Proof.
  intros Hst Hao Hl. pose proof (ao_path _ _ _ _ _ _ Hao) as [Hc _ Hsafe Hch Hsh]. change max_path with 128%nat in *.
  destruct (ustrcpy_does u (fr_buf sp) path l) as (m1 & Hd1 & Hc1 & Hm1); [done| |done|].
  { pose proof (Hsafe path ltac:(lia)). pose proof (Hsafe (path + Z.of_nat (length l)) ltac:(lia)).
    unfold scratch, stack_low, frame_size, fr_buf in *. lia. }
  destruct (put_slash_does (set_u_mem m1 u) sp l Hc1) as (m2 & Hd2 & Ha2 & Hm2). exists m1, m2.
  assert (same_mem sp (u_mem u) m2) as Hs.
  { intros x Hx. unfold scratch, stack_low, frame_size, fr_buf in *. rewrite Hm2 by lia. cbn. apply Hm1. lia. }
  split_and!; [done|done|done| |done]. pose proof Hc as (_ & Hnz & _).
  eapply args_ok_same in Hao as []; [|unfold frame_size in Hst; lia|exact Hs]. split; try done.
  unfold pre. destruct (ends_slash l); rewrite ?app_nil_r, ?Forall_app; [done|]. split; (split; [done|by repeat constructor]).
Qed.

Lemma walk_does rec u sp path t l tl fd n :
  out_ok → stack_low + frame_size ≤ sp → args_ok sp path t l tl (u_mem u) → (length l < max_path)%nat →
  u_fds u fd = Some n → whole n → Forall is_char (rest_of n) → rec_ok rec sp t tl (nfree (u_fds u)) →
  ∃ m, does (walk rec sp fd path t) u tt
      (said (lines (concat (found_entry tl (nfree (u_fds u)) (found tl (nfree (u_fds u))) l <$> contents n)))
         (mkUproc m (<[fd := None]> (u_fds u)) (u_out u))) ∧ same_mem sp (u_mem u) m.
Proof.
  intros Ho Hst Hao Hl Hfd Hw Hch Hrec. destruct (ready_does u sp path t l tl Hst Hao Hl) as (m1 & m2 & Hd1 & Hc1 & Hd2 & Hr2 & Hs2).
  destruct (find_entries_does rec sp t tl l fd (nfree (u_fds u)) (S (length (rest_of n))) (length (rest_of n)) (set_u_mem m2 u) n)
    as (m3 & n3 & Hd3 & Hv3); try done; [lia|].
  exists m3. change max_path with 128%nat in *. split.
  - unfold walk. eapply does_bind; [apply (ustrlen_does _ _ l); [apply Hao|change ustr_max with (Z.to_nat 4096); lia]|].
    change DIRSIZ with 14. change sizeof_buf with 512. rewrite Z.gtb_ltb, (proj2 (Z.ltb_ge _ _)) by lia.
    eapply does_bind; [exact Hd1|]. eapply does_bind; [apply (ustrlen_does _ _ l); [done|change ustr_max with (Z.to_nat 4096); lia]|].
    eapply does_bind; [apply does_gets|]. eapply does_bind; [exact Hd2|]. eapply does_bind; [apply does_gets|].
    assert (read_rounds (u_fds u) fd = S (length (rest_of n))) as Er by (unfold read_rounds; by rewrite Hfd).
    cbn [u_fds set_u_mem]. rewrite Er. eapply does_bind; [exact Hd3|]. unfold contents. fold (rest_of n).
    intros env. pose proof (uclose_does fd) as Hcl. unfold does in Hcl. rewrite Hcl. unfold said_on, set_u_fds, set_u_out. cbn. by rewrite fn_insert_insert.
  - intros x Hx. pose proof (pre_length l). rewrite Hv3; [by apply Hs2|..]; unfold scratch, stack_low, frame_size, buf_end, fr_buf in *; lia.
Qed.

(** *** A file *)

(** What do_find does for a file. *)
Definition compare (fd path target : Z) : U unit :=
  b <- basename_trim path ;;
  c <- ustrcmp b target ;;
  when (c =? 0) (print_match path) ;;
  uclose fd.

Lemma base_name_length l : (length (base_name l) ≤ 14)%nat.
Proof. unfold base_name. destruct (drop_slashes (reverse l)); [cbn; lia|]. rewrite length_take. change (Z.to_nat DIRSIZ) with 14%nat. lia. Qed.

Lemma compare_does u sp path t l tl fd :
  out_ok → stack_low ≤ sp → args_ok sp path t l tl (u_mem u) →
  ∃ m, does (compare fd path t) u tt
      (said (lines (if bool_decide (base_name l = tl) then [l] else [])) (mkUproc m (<[fd := None]> (u_fds u)) (u_out u))) ∧
    same_mem sp (u_mem u) m.
Proof.
  intros Ho Hsp Hao. destruct (basename_does u path l) as (m & Hd & Hb & Hm); [apply Hao|apply Hao|].
  assert (same_mem sp (u_mem u) m) as Hs by (intros x Hx; apply Hm; unfold scratch in Hx; lia).
  eapply args_ok_same in Hao; [|exact Hsp|exact Hs].
  destruct (ustrcmp_does (set_u_mem m u) base_buf t (base_name l) tl) as (c & Hc & Ec); [done|apply Hao| |].
  { pose proof (base_name_length l). change ustr_max with (Z.to_nat 4096). lia. }
  exists m. split; [|done]. unfold compare. eapply does_bind; [exact Hd|]. eapply does_bind; [exact Hc|].
  eapply does_bind; [apply (print_if_does _ _ sp); [done|apply Hao]|]. replace (bool_decide (base_name l = tl)) with (c =? 0); [done|].
  destruct (Z.eqb_spec c 0); [rewrite bool_decide_true by (by apply Ec)|rewrite bool_decide_false by (by intros ?%Ec)]; done.
Qed.

(** *** do_find *)

(** The kernel returns bytes, and as many as are asked for while there are some. *)
Definition reads_ok : Prop := ∀ l nd, k_look l = Some nd → whole nd ∧ Forall is_char (rest_of nd).

Lemma found_open tl fds l :
  found tl (nfree fds) l =
    match try_open fds l with
    | None => []
    | Some (fd, nd) =>
        let n := nfree (<[fd := Some nd]> fds) in
        if i16 (n_type nd) =? T_FILE then if bool_decide (base_name l = tl) then [l] else []
        else if i16 (n_type nd) =? T_DIR then concat (found_entry tl n (found tl n) l <$> contents nd)
        else []
    end.
Proof.
  destruct (try_open fds l) as [[fd nd]|] eqn:E.
  - destruct (try_open_Some _ _ _ _ E) as (_ & _ & -> & Hl & Hk). cbn [found]. by rewrite (proj2 (Nat.leb_gt _ _)), Hk by lia.
  - unfold try_open in E. destruct (nfree fds) eqn:En; [done|]. cbn [found]. destruct (_ <=? _)%nat; [done|].
    destruct (k_look l); [|done]. destruct (free_fd fds) eqn:F; [done|]. apply free_fd_None in F. lia.
Qed.

Lemma do_find_does fuel sp path t l tl u :
  out_ok → reads_ok → (nfree (u_fds u) < fuel)%nat → stack_low + Z.of_nat (nfree (u_fds u)) * frame_size ≤ sp →
  args_ok sp path t l tl (u_mem u) →
  ∃ m, does (do_find fuel sp path t) u tt (said (lines (found tl (nfree (u_fds u)) l)) (set_u_mem m u)) ∧ same_mem sp (u_mem u) m.
Proof.
  intros Ho Hk. revert sp path l u. induction fuel as [|fuel IH]; intros sp path l u Hf Hsp Hao; [lia|].
  pose proof (uopen_does u path l (sa_str _ _ _ _ (ao_path _ _ _ _ _ _ Hao))) as Hopen. rewrite found_open. cbn [do_find].
  destruct (try_open (u_fds u) l) as [[fd nd]|] eqn:E; cycle 1.
  { exists (u_mem u). split; [|done]. eapply does_bind; [exact Hopen|]. rewrite said_lines_nil. destruct u. apply does_ret. }
  destruct (try_open_Some _ _ _ _ E) as (Hfd & Hnone & En & Hl & Hlook). destruct (Hk _ _ Hlook) as [Hw Hch]. cbv zeta.
  set (fds := <[fd := Some nd]> (u_fds u)) in *. set (m0 := put_stat nd (u_mem u) (fr_st sp)). set (u0 := mkUproc m0 fds (u_out u)).
  rewrite En in Hsp. assert (stack_low + frame_size ≤ sp) as Hst by (unfold frame_size in *; lia).
  assert (same_mem sp (u_mem u) m0) as Hs0.
  { intros x Hx. apply put_stat_out. unfold scratch, fr_st, stack_low, frame_size in *. lia. }
  assert (args_ok sp path t l tl (u_mem u0)) as Hao0 by (eapply args_ok_same; [unfold frame_size in Hst; lia|exact Hs0|done]).
  assert (∃ m, does (if st_type m0 (fr_st sp) =? T_FILE then compare fd path t
      else if st_type m0 (fr_st sp) =? T_DIR then walk (λ q, do_find fuel (sp - frame_size) q t) sp fd path t else uclose fd) u0 tt
      (said (lines (if i16 (n_type nd) =? T_FILE then if bool_decide (base_name l = tl) then [l] else []
        else if i16 (n_type nd) =? T_DIR then concat (found_entry tl (nfree fds) (found tl (nfree fds)) l <$> contents nd) else []))
        (mkUproc m (<[fd := None]> fds) (u_out u))) ∧ same_mem sp m0 m) as (m & Hd & Hs).
  { unfold m0 at 1 2. rewrite put_stat_type. destruct (_ =? T_FILE).
    { apply (compare_does u0 sp path t l tl fd); [done|unfold frame_size in Hst; lia|done]. }
    destruct (_ =? T_DIR); [|exists m0; split; [by rewrite said_lines_nil|done]].
    apply (walk_does _ u0 sp path t l tl fd nd); try done; [apply fn_lookup_insert|]. intros v q Hv Hq Ht Hd1 Hd2. rewrite <-Hv.
    cbn in Hv. apply IH; [rewrite Hv; lia|rewrite Hv; unfold frame_size in *; lia|]. split; try done. apply (str_at_below sp); [unfold frame_size; lia|done]. }
  exists m. split; [|by eapply same_mem_trans]. eapply does_bind; [exact Hopen|]. rewrite (proj2 (Z.ltb_ge fd 0)) by lia.
  eapply does_bind; [apply ufstat_does; apply fn_lookup_insert|]. eapply does_bind; [apply does_gets|].
  assert (<[fd := None]> fds = u_fds u) as Ec by (by apply close_opened). rewrite Ec in Hd. exact Hd.
Qed.
End Run.

(** ** The paths of a tree *)

Module Finding.
Section Tree.
Context `{Kernel}.

Definition is_a (ty : Z) (path : list Z) : Prop := ∃ nd, k_look path = Some nd ∧ i16 (n_type nd) = ty.

(** [q] is the path of an entry of the directory [path] with the name [name]. *)
Definition child (path q name : list Z) : Prop :=
  ∃ nd e nd', k_look path = Some nd ∧ i16 (n_type nd) = T_DIR ∧ e ∈ contents nd ∧ de_ino e ≠ 0 ∧ name = de_str e ∧
    is_dots name = false ∧ q = join path name ∧ (length q < max_path)%nat ∧ k_look q = Some nd'.

(** [q] is [d] levels below [path], and its last element is [name]. *)
Inductive under : nat → list Z → list Z → list Z → Prop :=
| under_child path q name : child path q name → under 1 path q name
| under_down d path p pname q name : child path p pname → under d p q name → under (S d) path q name.

(** What find looks for: the file itself, or a path at most as deep as the free
    descriptors allow, since each level of the tree takes one and stat another. *)
Definition wanted (n : nat) (path name q : list Z) : Prop :=
  (length path < max_path)%nat ∧
  ((is_a T_FILE path ∧ (0 < n)%nat ∧ base_name path = name ∧ q = path) ∨ ∃ d, (d < n)%nat ∧ under d path q name).

Lemma under_dir d path q name : under d path q name → is_a T_DIR path ∧ (1 ≤ d)%nat.
Proof.
  destruct 1 as [path q name (nd & e & nd' & Hk & Ht & _)|d path p pname q name (nd & e & nd' & Hk & Ht & _) Hu].
  - split; [by exists nd|lia].
  - split; [by exists nd|lia].
Qed.

Lemma is_dir_not_file path : is_a T_DIR path → ¬ is_a T_FILE path.
Proof. intros (nd & Hk & Ht) (nd' & Hk' & Ht'). rewrite Hk in Hk'. injection Hk' as <-. rewrite Ht in Ht'. done. Qed.

Lemma elem_found_entry tl n below path nd e q :
  k_look path = Some nd → i16 (n_type nd) = T_DIR → e ∈ contents nd →
  q ∈ found_entry tl n below path e ↔
    (0 < n)%nat ∧ ∃ p pn, pn = de_str e ∧ p = join path pn ∧ de_ino e ≠ 0 ∧ child path p pn ∧
      ((q = p ∧ pn = tl) ∨ (is_a T_DIR p ∧ q ∈ below p)).
Proof.
  intros Hk Ht He. unfold found_entry. cbv zeta. destruct (Z.eqb_spec (de_ino e) 0) as [E0|E0]; cbn [orb].
  { split; [by intros ?%elem_of_nil|]. intros (_ & p & pn & _ & _ & ? & _). done. }
  destruct (is_dots (de_str e)) eqn:Ed.
  { split; [by intros ?%elem_of_nil|]. intros (_ & p & pn & -> & _ & _ & (? & ? & ? & _ & _ & _ & _ & _ & Ed' & _) & _). by rewrite Ed in Ed'. }
  destruct (Nat.eqb_spec n 0) as [En|En]; cbn [orb]; [split; [by intros ?%elem_of_nil|lia]|].
  destruct (Nat.leb_spec max_path (length (join path (de_str e)))) as [Hl|Hl].
  { split; [by intros ?%elem_of_nil|]. intros (_ & p & pn & -> & -> & _ & (? & ? & ? & _ & _ & _ & _ & _ & _ & _ & ? & _) & _). lia. }
  destruct (k_look (join path (de_str e))) as [nd'|] eqn:Ek; cycle 1.
  { split; [by intros ?%elem_of_nil|]. intros (_ & p & pn & -> & -> & _ & (? & ? & ? & _ & _ & _ & _ & _ & _ & _ & _ & ?) & _). congruence. }
  assert (child path (join path (de_str e)) (de_str e)) as Hc by (by exists nd, e, nd').
  rewrite elem_of_app. split.
  - intros Hq. split; [lia|]. exists (join path (de_str e)), (de_str e). split_and!; try done. destruct Hq as [Hq|Hq].
    + destruct (bool_decide_reflect (de_str e = tl)); [|by apply elem_of_nil in Hq]. apply list_elem_of_singleton in Hq. by left.
    + destruct (Z.eqb_spec (i16 (n_type nd')) T_DIR); [|by apply elem_of_nil in Hq]. right. split; [by exists nd'|done].
  - intros (_ & p & pn & -> & -> & _ & _ & [[-> Etl]|[(nd2 & Hk2 & Ht2) Hq]]).
    + left. rewrite bool_decide_true by done. by apply list_elem_of_singleton.
    + right. rewrite Ek in Hk2. injection Hk2 as <-. by rewrite (proj2 (Z.eqb_eq _ _) Ht2).
Qed.

Lemma child_short path q name : child path q name → (length q < max_path)%nat.
Proof. by intros (? & ? & ? & _ & _ & _ & _ & _ & _ & _ & ? & _). Qed.

Lemma elem_concat {A} (f : A → list (list Z)) l q : q ∈ concat (f <$> l) ↔ ∃ x, x ∈ l ∧ q ∈ f x.
Proof.
  induction l as [|x l IH]; cbn; [split; [by intros ?%elem_of_nil|intros (? & ?%elem_of_nil & _); done]|].
  rewrite elem_of_app, IH. split.
  - intros [Hq|(y & Hy & Hq)]; [exists x; split; [by left|done]|exists y; split; [by right|done]].
  - intros (y & [->|Hy]%elem_of_cons & Hq); [by left|right; by exists y].
Qed.

Lemma elem_found tl n path q : q ∈ found tl n path ↔ wanted n path tl q.
Proof.
  revert path. induction n as [|n IH]; intros path; cbn [found].
  { split; [by intros ?%elem_of_nil|]. intros (_ & [(_ & ? & _)|(? & ? & _)]); lia. }
  unfold wanted. destruct (Nat.leb_spec max_path (length path)) as [Hl|Hl]; [split; [by intros ?%elem_of_nil|lia]|].
  destruct (k_look path) as [nd|] eqn:Ek; cycle 1.
  { split; [by intros ?%elem_of_nil|]. intros (_ & [((? & ? & _) & _)|(d & _ & [(? & ? & _) _]%under_dir)]); congruence. }
  destruct (Z.eqb_spec (i16 (n_type nd)) T_FILE) as [Ef|Ef].
  { assert (is_a T_FILE path) as Hf by (by exists nd). destruct (bool_decide_reflect (base_name path = tl)) as [Eb|Eb].
    - rewrite list_elem_of_singleton. split; [intros ->; split; [done|left; split_and!; [done|lia|done|done]]|].
      intros (_ & [(_ & _ & _ & ->)|(d & _ & [Hd _]%under_dir)]); [done|by apply is_dir_not_file in Hd].
    - split; [by intros ?%elem_of_nil|]. intros (_ & [(_ & _ & ? & _)|(d & _ & [Hd _]%under_dir)]); [done|by apply is_dir_not_file in Hd]. }
  assert (¬ is_a T_FILE path) as Hf by (intros (nd' & Hk' & Ht'); congruence).
  destruct (Z.eqb_spec (i16 (n_type nd)) T_DIR) as [Et|Et]; cycle 1.
  { split; [by intros ?%elem_of_nil|]. intros (_ & [(? & _)|(d & _ & [(nd' & Hk' & Ht') _]%under_dir)]); [done|congruence]. }
  rewrite elem_concat. split.
  - intros (e & He & Hq). apply (elem_found_entry _ _ _ _ nd) in Hq as (Hn & p & pn & -> & -> & He0 & Hc & Hq); [|done..].
    split; [done|]. right. destruct Hq as [[-> <-]|[Hdir Hq]]; [exists 1%nat; split; [lia|by constructor]|].
    apply IH in Hq as (_ & [(? & _)|(d & Hd & Hu)]); [by apply is_dir_not_file in Hdir|]. exists (S d). split; [lia|]. by econstructor.
  - intros (_ & [(? & _)|(d & Hd & Hu)]); [done|].
    assert (∃ p pn, child path p pn ∧ (0 < n)%nat ∧ ((q = p ∧ pn = tl) ∨ (is_a T_DIR p ∧ q ∈ found tl n p))) as (p & pn & Hc & Hn & Hq).
    { inversion Hu as [? ? ? Hc|d' ? p pn ? ? Hc Hu']; subst; [exists q, tl; split_and!; [done|lia|by left]|].
      pose proof (under_dir _ _ _ _ Hu') as [Hp ?]. exists p, pn. split_and!; [done|lia|]. right. split; [done|].
      apply IH. split; [by eapply child_short|]. right. exists d'. split; [lia|done]. }
    pose proof Hc as (nd0 & e & nd' & Hk0 & _ & He & He0 & Epn & _ & Ep & _). rewrite Ek in Hk0. injection Hk0 as <-.
    exists e. split; [done|]. apply (elem_found_entry _ _ _ _ nd); [done..|]. split; [done|]. by exists p, pn.
Qed.

End Tree.

(** A directory "/" with a file x and a directory d that has a file x too. *)
Definition dirent (ino : Z) (name : string) : list Z := let l := text name in [ino; 0] ++ l ++ replicate (14 - length l) 0.
Definition dir_node (ino : Z) (es : list (list Z)) : node := mkNode 1 ino T_DIR 1 (Z.of_nat (length (concat es))) [concat es].
Definition example_files : list (list Z * node) :=
  [(text "/", dir_node 1 [dirent 1 "."; dirent 1 ".."; dirent 2 "x"; dirent 0 "x"; dirent 3 "d"]);
   (text "/x", mkNode 1 2 T_FILE 1 0 []);
   (text "/d", dir_node 3 [dirent 3 "."; dirent 1 ".."; dirent 4 "x"; dirent 5 "y"]);
   (text "/d/x", mkNode 1 4 T_FILE 1 0 []);
   (text "/d/y", mkNode 1 5 T_FILE 1 0 [])].

#[local] Instance example_kernel : Kernel := {
  k_look p := snd <$> List.find (λ f, bool_decide (f.1 = p)) example_files;
  k_writes _ _ _ := true
}.

Definition example_mem : bytes :=
  st_bytes (st_bytes (st_bytes (st_bytes (λ _, 0) dot_str [46]) dotdot_str [46; 46]) 0x8000 (text "/")) 0x8010 (text "x").
Definition example_proc : uproc := mkUproc example_mem (λ fd, if fd <? 3 then Some (mkNode 0 0 T_DEVICE 0 0 []) else None) [].

Lemma example_reads : reads_ok.
Proof.
  intros l nd Hk. assert (Forall (λ f : list Z * node, whole f.2 ∧ Forall is_char (rest_of f.2)) example_files) as Ha.
  { repeat constructor; try (cbn; lia); cbn; repeat constructor. }
  rewrite Forall_forall in Ha. cbn [k_look example_kernel] in Hk. destruct (List.find _ example_files) as [f|] eqn:E; [|done].
  injection Hk as <-. apply List.find_some in E as [E _]. by apply Ha, list_elem_of_In.
Qed.

Lemma example_string p l :
  ld_bytes example_mem p (Z.of_nat (length l)) = l → forallb (λ c, (0 <? c) && (c <? 256)) l = true → example_mem (p + Z.of_nat (length l)) = 0 →
  0x8000 ≤ p → (length l < 4096)%nat → str_at 0x8000 example_mem p l.
Proof.
  intros Hl Hb Hz Hp Hlen. 
  assert (Forall (λ c, 0 < c < 256) l) as Hf.
  { apply Forall_forall. intros c Hc. rewrite List.forallb_forall in Hb. specialize (Hb c (proj1 (list_elem_of_In _ _) Hc)). lia. }
  split; [apply cstring_intro; [done| |done]|lia| |  |done].
  - eapply Forall_impl; [exact Hf|]. cbn. lia.
  - intros x Hx. unfold scratch, base_buf, stack_low. lia.
  - eapply Forall_impl; [exact Hf|]. unfold is_char. lia.
Qed.

End Finding.
