(* ===== verification/Filters.v ===== *)
(** * user/cat.c, user/wc.c and user/echo.c

    A call of exit in a function is its result [Some status]; [None] is a return.
    The addresses of the buffer and of the string literals are a choice of the
    model. *)

From S2P Require Import Prelude Types StringC UserLib User.

(** [char buf[512];] *)
Definition fbuf : Z := 0x2000.
Definition sizeof_fbuf : Z := 512.

Definition newline : Z := 10.
Definition line (s : string) : list Z := text s ++ [newline].

Section Filters.
Context `{Kernel}.

(** ** cat *)

Fixpoint cat_loop (fuel : nat) (fd : Z) : U (option Z) :=
  match fuel with
  | O => λ _ _, NoFuel
  | S f =>
      n <- uread fd fbuf sizeof_fbuf ;;
      if n >? 0 then
        w <- uwrite 1 fbuf n ;;
        if negb (w =? n) then fprintf 2 (line "cat: write error") [] ;; ret (Some 1) else cat_loop f fd
      else if n <? 0 then fprintf 2 (line "cat: read error") [] ;; ret (Some 1)
      else ret None
  end.

Definition cat (fd : Z) : U (option Z) :=
  fds <- gets u_fds ;;
  cat_loop (read_rounds fds fd) fd.

(** [for (i = 1; i < argc; i++)] *)
Fixpoint cat_files (argv : list Z) : U Z :=
  match argv with
  | [] => ret 0
  | a :: argv =>
      fd <- uopen a ;;
      if fd <? 0 then fprintf 2 (line "cat: cannot open %s") [a] ;; ret 1 else
      e <- cat fd ;;
      match e with
      | Some status => ret status
      | None => uclose fd ;; cat_files argv
      end
  end.

Definition cat_main (argv : list Z) : U Z :=
  if (length argv <=? 1)%nat then e <- cat 0 ;; ret (default 0 e) else cat_files (tail argv).

(** ** wc *)

(** The literals with the characters between words, and the empty one. *)
Definition wc_spaces : Z := 0x2200.
Definition wc_empty : Z := 0x2206.
Definition spaces : list Z := [32; 13; 9; 10; 11].

(** l, w, c and inword *)
Record wstate := mkWstate { ws_l : Z; ws_w : Z; ws_c : Z; ws_inword : bool }.

(** The body of the loop over the buffer. *)
Definition wc_char (ch : Z) (st : wstate) : U wstate :=
  let c := i32 (ws_c st + 1) in
  let l := if ch =? newline then i32 (ws_l st + 1) else ws_l st in
  m <- umem ;;
  s <- lift (strchr ustr_max m wc_spaces ch) ;;
  ret (match s with
       | Some _ => mkWstate l (ws_w st) c false
       | None => if negb (ws_inword st) then mkWstate l (i32 (ws_w st + 1)) c true else mkWstate l (ws_w st) c (ws_inword st)
       end).

(** [for (i = 0; i < n; i++)] with [k] rounds left. *)
Fixpoint wc_buf (k : nat) (i : Z) (st : wstate) : U wstate :=
  match k with
  | O => ret st
  | S k =>
      m <- umem ;;
      st <- wc_char (m (fbuf + i)) st ;;
      wc_buf k (i + 1) st
  end.

(** The last result of read, and the counts. *)
Fixpoint wc_loop (fuel : nat) (fd : Z) (st : wstate) : U (Z * wstate) :=
  match fuel with
  | O => λ _ _, NoFuel
  | S f =>
      n <- uread fd fbuf sizeof_fbuf ;;
      if n >? 0 then st <- wc_buf (Z.to_nat n) 0 st ;; wc_loop f fd st
      else ret (n, st)
  end.

Definition wc (fd name : Z) : U (option Z) :=
  fds <- gets u_fds ;;
  r <- wc_loop (read_rounds fds fd) fd (mkWstate 0 0 0 false) ;;
  let st := r.2 in
  if r.1 <? 0 then uprintf (line "wc: read error") [] ;; ret (Some 1) else
  uprintf (line "%d %d %d %s") [ws_l st; ws_w st; ws_c st; name] ;;
  ret None.

Fixpoint wc_files (argv : list Z) : U Z :=
  match argv with
  | [] => ret 0
  | a :: argv =>
      fd <- uopen a ;;
      if fd <? 0 then uprintf (line "wc: cannot open %s") [a] ;; ret 1 else
      e <- wc fd a ;;
      match e with
      | Some status => ret status
      | None => uclose fd ;; wc_files argv
      end
  end.

Definition wc_main (argv : list Z) : U Z :=
  if (length argv <=? 1)%nat then e <- wc 0 wc_empty ;; ret (default 0 e) else wc_files (tail argv).

(** ** echo *)

Fixpoint echo_args (argv : list Z) : U unit :=
  match argv with
  | [] => ret tt
  | a :: argv =>
      n <- ustrlen a ;;
      uwrite 1 a n ;;
      write_out 1 (match argv with [] => [newline] | _ => [32] end) ;;
      echo_args argv
  end.

Definition echo_main (argv : list Z) : U Z := echo_args (tail argv) ;; ret 0.
End Filters.
