(* ===== verification/FilterProps.v ===== *)
(** * cat, wc and echo do what they are for

    However read cuts the contents of a file into pieces, cat copies the bytes of
    the file and wc counts its lines, words and bytes. *)

From S2P Require Import Prelude Types StringC UserLib User UserProps UserPrintf Filters.

(** ** What wc counts *)

Definition is_space (c : Z) : bool := bool_decide (c ∈ spaces).
Definition nlines (l : list Z) : nat := length (List.filter (λ c, c =? newline) l).

(** A text cut at its white space; its words are the parts that are not empty. *)
Fixpoint cut_spaces (l : list Z) : list Z * list (list Z) :=
  match l with
  | [] => ([], [])
  | c :: l => let '(w, ws) := cut_spaces l in if is_space c then ([], w :: ws) else (c :: w, ws)
  end.
Definition is_word (w : list Z) : bool := match w with [] => false | _ => true end.
Definition words (l : list Z) : list (list Z) := let '(w, ws) := cut_spaces l in List.filter is_word (w :: ws).

(** The step of wc on its counts. *)
Definition count_char (st : wstate) (ch : Z) : wstate :=
  let l := if ch =? newline then i32 (ws_l st + 1) else ws_l st in
  let c := i32 (ws_c st + 1) in
  if is_space ch then mkWstate l (ws_w st) c false
  else if negb (ws_inword st) then mkWstate l (i32 (ws_w st + 1)) c true else mkWstate l (ws_w st) c (ws_inword st).

Lemma i32_succ x : i32 (i32 x + 1) = i32 (x + 1).
Proof.
  unfold i32. f_equal. replace ((x + 2 ^ 31) `mod` 2 ^ 32 - 2 ^ 31 + 1 + 2 ^ 31) with ((x + 2 ^ 31) `mod` 2 ^ 32 + 1) by lia.
  rewrite Zplus_mod_idemp_l. f_equal. lia.
Qed.

(** The words that start in [l], where a word is under way or not. *)
Definition new_words (inword : bool) (l : list Z) : Z :=
  let '(w, ws) := cut_spaces l in Z.of_nat (length (List.filter is_word ws)) + (if is_word w && negb inword then 1 else 0).

Lemma new_words_cons b c l :
  new_words b (c :: l) = if is_space c then new_words false l else (if b then 0 else 1) + new_words true l.
Proof.
  unfold new_words. cbn [cut_spaces]. destruct (cut_spaces l) as [w ws]. destruct (is_space c); cbn [is_word andb List.filter].
  - destruct w; cbn [is_word andb negb length]; lia.
  - destruct b; cbn [negb]; rewrite andb_false_r; lia.
Qed.

Lemma new_words_all l : new_words false l = Z.of_nat (length (words l)).
Proof. unfold new_words, words. destruct (cut_spaces l) as [w ws]. cbn [List.filter]. destruct w; cbn; lia. Qed.

Lemma count_chars l L W C b :
  ∃ b', foldl count_char (mkWstate (i32 L) (i32 W) (i32 C) b) l =
    mkWstate (i32 (L + Z.of_nat (nlines l))) (i32 (W + new_words b l)) (i32 (C + Z.of_nat (length l))) b'.
Proof.
  revert L W C b. induction l as [|c l IH]; intros L W C b.
  { exists b. cbn. destruct b; cbn; by rewrite !Z.add_0_r. }
  cbn [foldl]. rewrite new_words_cons. unfold count_char at 2. cbn [ws_l ws_w ws_c ws_inword]. rewrite !i32_succ.
  replace (if c =? newline then i32 (L + 1) else i32 L) with (i32 (L + if c =? newline then 1 else 0)) by (destruct (c =? newline); [done|by rewrite Z.add_0_r]).
  assert (∀ W' b', i32 (W' + new_words b' l) = i32 (W + (if is_space c then new_words false l else (if b then 0 else 1) + new_words true l)) →
    ∃ b'', foldl count_char (mkWstate (i32 (L + if c =? newline then 1 else 0)) (i32 W') (i32 (C + 1)) b') l =
      mkWstate (i32 (L + Z.of_nat (nlines (c :: l)))) (i32 (W + (if is_space c then new_words false l else (if b then 0 else 1) + new_words true l)))
        (i32 (C + Z.of_nat (length (c :: l)))) b'') as Hgo.
  { intros W' b' E. destruct (IH (L + if c =? newline then 1 else 0) W' (C + 1) b') as (b'' & ->). exists b''. rewrite E.
    unfold nlines. cbn [List.filter length]. f_equal; [|f_equal; lia]. f_equal. destruct (c =? newline); cbn [length]; lia. }
  destruct (is_space c) eqn:Es; [by apply Hgo|]. destruct b; cbn [negb]; apply Hgo; f_equal; lia.
Qed.

(** ** Memory and files *)

Section Run.
Context `{Kernel}.

(** A string that the buffer does not reach. *)
Record arg_str (m : bytes) (p : Z) (l : list Z) : Prop := {
  as_str : cstring m p l;
  as_ptr : p ≠ 0;
  as_safe : ∀ x, p ≤ x ≤ p + Z.of_nat (length l) → ¬ (fbuf ≤ x < fbuf + sizeof_fbuf);
  as_char : Forall (λ c, 0 ≤ c < 256) l;
  as_short : (length l < ustr_max)%nat
}.

Definition same_but_buf (m m' : bytes) : Prop := ∀ x, ¬ (fbuf ≤ x < fbuf + sizeof_fbuf) → m' x = m x.

Lemma arg_str_same m m' p l : same_but_buf m m' → arg_str m p l → arg_str m' p l.
Proof. intros Hm []. split; try done. apply (cstring_same m); [done|]. intros x Hx. by apply Hm, as_safe0. Qed.

Lemma same_but_buf_trans m1 m2 m3 : same_but_buf m1 m2 → same_but_buf m2 m3 → same_but_buf m1 m3.
Proof. intros H1 H2 x Hx. by rewrite H2, H1. Qed.

(** What is left of a file, in the pieces in which read returns it. *)
Definition pieces (n : node) : Prop := Forall (λ l, l ≠ []) (n_data n).
Definition data (n : node) : list Z := concat (n_data n).

Lemma uread_pieces u fd n :
  u_fds u fd = Some n → pieces n →
  ∃ l n', does (uread fd fbuf sizeof_fbuf) u (Z.of_nat (length l)) (mkUproc (st_bytes (u_mem u) fbuf l) (<[fd := Some n']> (u_fds u)) (u_out u)) ∧
    pieces n' ∧ data n = l ++ data n' ∧ Z.of_nat (length l) ≤ sizeof_fbuf ∧ (l = [] → data n = []).
Proof.
  intros E Hp. unfold pieces, data in *. destruct (n_data n) as [|l rest] eqn:Ed.
  - exists [], n. rewrite Ed. split_and!; [|done|done|done|done]. unfold uread. eapply does_bind; [apply does_gets|]. rewrite E, Ed.
    rewrite fn_insert_same by done. destruct u. apply does_ret.
  - apply Forall_cons in Hp as [Hl Hp].
    exists (take 512 l), (set_n_data (if (length l <=? 512)%nat then rest else drop 512 l :: rest) n). split_and!.
    + unfold uread. eapply does_bind; [apply does_gets|]. rewrite E, Ed. cbv zeta. change (Z.to_nat sizeof_fbuf) with 512%nat.
      eapply does_bind; [apply does_modify|]. apply does_ret.
    + cbn. destruct (Nat.leb_spec (length l) 512); [done|]. constructor; [|done]. intros E0. apply (f_equal length) in E0. rewrite length_drop in E0. cbn in E0. lia.
    + cbn. destruct (Nat.leb_spec (length l) 512); cbn; [by rewrite take_ge by lia|]. by rewrite (assoc_L (++)), take_drop.
    + rewrite length_take. unfold sizeof_fbuf. lia.
    + destruct l as [|c l]; [done|discriminate].
Qed.

Lemma st_fbuf_same m l : Z.of_nat (length l) ≤ sizeof_fbuf → same_but_buf m (st_bytes m fbuf l).
Proof. intros Hl x Hx. apply st_bytes_out. lia. Qed.

(** ** cat *)

Lemma cat_loop_does fuel u fd n :
  out_ok → u_fds u fd = Some n → pieces n → (length (data n) < fuel)%nat →
  ∃ m n', does (cat_loop fuel fd) u None (said (data n) (mkUproc m (<[fd := Some n']> (u_fds u)) (u_out u))) ∧ same_but_buf (u_mem u) m.
Proof.
  intros Ho. revert u n. induction fuel as [|fuel IH]; intros u n E Hp Hf; [lia|]. cbn [cat_loop].
  destruct (uread_pieces u fd n E Hp) as (l & n1 & Hd & Hp1 & Ed & Hl & Hnil). pose proof (st_fbuf_same (u_mem u) l Hl) as Hs.
  set (u1 := mkUproc _ _ _) in Hd. destruct l as [|c l].
  { exists (u_mem u), n1. split; [|done]. rewrite Hnil, said_nil by done. eapply does_bind; [exact Hd|]. apply does_ret. }
  rewrite Ed, length_app in Hf. set (l' := c :: l) in *.
  destruct (IH (said l' u1) n1) as (m & n' & Hd' & Hs'); [apply fn_lookup_insert|done|cbn in *; lia|].
  exists m, n'. split; [|by eapply same_but_buf_trans]. eapply does_bind; [exact Hd|]. rewrite Z.gtb_ltb, (proj2 (Z.ltb_lt _ _)) by (cbn; lia).
  eapply does_bind.
  { unfold uwrite. eapply does_bind; [apply does_gets|]. cbn [u_mem u1]. rewrite (at_mem_ld _ _ l' (st_bytes_at _ _ _)). by apply write_out_does. }
  rewrite Z.eqb_refl. cbn [negb]. rewrite Ed, <-said_app. cbn [u_fds said_on set_u_out u1] in Hd'. rewrite fn_insert_insert in Hd'. exact Hd'.
Qed.

Lemma cat_does u fd n :
  out_ok → u_fds u fd = Some n → pieces n →
  ∃ m n', does (cat fd) u None (said (data n) (mkUproc m (<[fd := Some n']> (u_fds u)) (u_out u))) ∧ same_but_buf (u_mem u) m.
Proof.
  intros Ho E Hp. destruct (cat_loop_does (read_rounds (u_fds u) fd) u fd n) as (m & n' & Hd & Hs); [done|done|done| |].
  { unfold read_rounds. rewrite E. fold (data n). lia. }
  exists m, n'. split; [|done]. eapply does_bind; [apply does_gets|exact Hd].
Qed.

(** *** Messages and files *)

Lemma prints_text m (s fmt ap o : list Z) :
  forallb (λ c, (0 <=? c) && (c <? 256) && negb (c =? 37)) s = true → prints m fmt ap o → prints m (s ++ fmt) ap (s ++ o).
Proof.
  induction s as [|c s IH]; intros Hs Hp; [done|]. cbn [forallb] in Hs. apply andb_true_iff in Hs as [Hc Hs]. cbn [app].
  rewrite <-(u8_small c) at 2 by lia. apply pr_char; [lia|by apply IH].
Qed.

Lemma message_does fd (fmt : list Z) (s : list Z) u p l :
  writes_ok fd → arg_str (u_mem u) p l → fmt = s ++ [37; 115; newline] →
  forallb (λ c, (0 <=? c) && (c <? 256) && negb (c =? 37)) s = true →
  does (vprintf fd fmt false [p]) u tt (said_on fd (s ++ l ++ [newline]) u).
Proof.
  intros Ho [] -> Hs. apply vprintf_does; [done|]. apply prints_text; [done|]. apply pr_s; [done..|]. by repeat constructor.
Qed.

(** [o] is written, each byte with its descriptor. *)
Definition wrote (o : list (Z * Z)) (u : uproc) : uproc := set_u_out (u_out u ++ o) u.
Definition on (fd : Z) (l : list Z) : list (Z * Z) := (λ c, (fd, c)) <$> l.

Lemma said_wrote fd l u : said_on fd l u = wrote (on fd l) u.
Proof. done. Qed.
Lemma wrote_wrote o o' u : wrote o' (wrote o u) = wrote (o ++ o') u.
Proof. unfold wrote, set_u_out. cbn. by rewrite (assoc_L (++)). Qed.
Lemma wrote_none u : wrote [] u = u.
Proof. unfold wrote, set_u_out. rewrite app_nil_r. by destruct u. Qed.

(** read never returns 0 before the end of a file. *)
Definition files_ok : Prop := ∀ l nd, k_look l = Some nd → pieces nd.

Lemma args_same m m' args names : same_but_buf m m' → Forall2 (arg_str m) args names → Forall2 (arg_str m') args names.
Proof. intros Hm Ha. eapply Forall2_impl; [exact Ha|]. intros p l. by apply arg_str_same. Qed.

(** A file is opened, read and closed again. *)
Lemma opened_closed (fds : Z → option node) fd (n n' : node) :
  fds fd = None → <[fd := None]> (<[fd := Some n']> (<[fd := Some n]> fds)) = fds.
Proof. intros E. rewrite !fn_insert_insert. by apply fn_insert_same. Qed.

(** What cat writes for the files [names], and its status. *)
Fixpoint cat_report (fds : Z → option node) (names : list (list Z)) : list (Z * Z) * Z :=
  match names with
  | [] => ([], 0)
  | nm :: names =>
      match try_open fds nm with
      | None => (on 2 (text "cat: cannot open " ++ nm ++ [newline]), 1)
      | Some (_, nd) => let '(o, status) := cat_report fds names in (on 1 (data nd) ++ o, status)
      end
  end.

Lemma cat_files_does u args names :
  out_ok → writes_ok 2 → files_ok → Forall2 (arg_str (u_mem u)) args names →
  ∃ m, does (cat_files args) u (cat_report (u_fds u) names).2 (wrote (cat_report (u_fds u) names).1 (set_u_mem m u)) ∧ same_but_buf (u_mem u) m.
Proof.
  intros Ho Ho2 Hk. revert u names. induction args as [|a args IH]; intros u names Ha.
  { apply Forall2_nil_inv_l in Ha as ->. exists (u_mem u). split; [|done]. cbn. rewrite wrote_none. destruct u. apply does_ret. }
  apply Forall2_cons_inv_l in Ha as (nm & names' & Hn & Ha & ->). cbn [cat_files cat_report].
  pose proof (uopen_does u a nm (as_str _ _ _ Hn)) as Hop. destruct (try_open (u_fds u) nm) as [[fd nd]|] eqn:E.
  2: { exists (u_mem u). split; [|done]. eapply does_bind; [exact Hop|]. cbn [Z.ltb Z.compare].
       unfold fprintf. eapply does_bind; [by apply (message_does 2 _ (text "cat: cannot open ") _ _ nm)|]. destruct u. apply does_ret. }
  destruct (try_open_Some _ _ _ _ E) as (Hfd & Hnone & _ & _ & Hl). set (u1 := set_u_fds _ u) in Hop.
  destruct (cat_does u1 fd nd) as (m1 & n' & Hc & Hs1); [done|apply fn_lookup_insert|by eapply Hk|].
  set (u2 := mkUproc m1 (u_fds u) (u_out u ++ on 1 (data nd))). destruct (IH u2 names') as (m2 & Hd & Hs2); [by eapply args_same|].
  cbn [u_fds u2] in Hd. destruct (cat_report (u_fds u) names') as [o status]. exists m2. split; [|by eapply same_but_buf_trans].
  eapply does_bind; [exact Hop|]. rewrite (proj2 (Z.ltb_ge fd 0)) by lia. eapply does_bind; [exact Hc|]. cbv iota beta.
  eapply does_bind; [apply uclose_does|]. cbn [fst snd] in *. rewrite <-wrote_wrote.
  unfold said_on, set_u_out, set_u_fds. cbn [u_mem u_fds u_out u1 set_u_fds]. rewrite opened_closed by done. exact Hd.
Qed.

(** ** wc *)

Lemma strchr_run m p l c fuel :
  cstring m p l → (length l < fuel)%nat → ∃ r, strchr fuel m p c = Some r ∧ (is_Some r ↔ c ∈ l).
Proof.
  revert p fuel. induction l as [|d l IH]; intros p fuel Hc Hf; (destruct fuel as [|fuel]; [cbn in Hf; lia|]); cbn [strchr].
  - rewrite (cstring_nil _ _ Hc). exists None. split; [done|]. split; [by intros [? ?]|by intros ?%elem_of_nil].
  - destruct (cstring_tail _ _ _ _ Hc) as (-> & Hn & Ht). rewrite (proj2 (nz_true _) Hn). destruct (Z.eqb_spec d c) as [->|Hne].
    + eexists. split; [done|]. split; [by left|done].
    + destruct (IH (p + 1) fuel Ht ltac:(cbn in Hf; lia)) as (r & Er & Hr). exists r. split; [done|]. rewrite Hr, elem_of_cons.
      split; [by right|]. by intros [->|?].
Qed.

Lemma wc_char_does u ch st : cstring (u_mem u) wc_spaces spaces → does (wc_char ch st) u (count_char st ch) u.
Proof.
  intros Hs. destruct (strchr_run (u_mem u) wc_spaces spaces ch ustr_max Hs) as (r & Er & Hr).
  { change ustr_max with (Z.to_nat 4096). cbn. lia. }
  unfold wc_char. eapply does_bind; [apply does_gets|]. eapply does_bind; [by apply lift_does|]. unfold count_char, is_space.
  destruct r as [q|]; [rewrite bool_decide_true by (by apply Hr); apply does_ret|].
  rewrite bool_decide_false by (intros Hin%Hr; by destruct Hin). apply does_ret.
Qed.

Lemma wc_buf_does u l i st :
  cstring (u_mem u) wc_spaces spaces → at_mem (u_mem u) (fbuf + i) l → does (wc_buf (length l) i st) u (foldl count_char st l) u.
Proof.
  intros Hs. revert i st. induction l as [|c l IH]; intros i st Ha; [apply does_ret|]. cbn [wc_buf length foldl].
  eapply does_bind; [apply does_gets|]. assert (u_mem u (fbuf + i) = c) as -> by (rewrite <-(Ha 0%nat c eq_refl); f_equal; lia).
  eapply does_bind; [by apply wc_char_does|]. apply IH. intros k d Hk. rewrite <-(Ha (S k) d Hk). f_equal. lia.
Qed.

Lemma wc_loop_does fuel u fd n st :
  cstring (u_mem u) wc_spaces spaces → u_fds u fd = Some n → pieces n → (length (data n) < fuel)%nat →
  ∃ m n', does (wc_loop fuel fd st) u (0, foldl count_char st (data n)) (mkUproc m (<[fd := Some n']> (u_fds u)) (u_out u)) ∧ same_but_buf (u_mem u) m.
Proof.
  revert u n st. induction fuel as [|fuel IH]; intros u n st Hsp E Hp Hf; [lia|]. cbn [wc_loop].
  destruct (uread_pieces u fd n E Hp) as (l & n1 & Hd & Hp1 & Ed & Hl & Hnil). pose proof (st_fbuf_same (u_mem u) l Hl) as Hs.
  set (m1 := st_bytes _ _ _) in *. set (u1 := mkUproc _ _ _) in Hd. destruct l as [|c l].
  { exists m1, n1. split; [|done]. rewrite Hnil by done. eapply does_bind; [exact Hd|]. apply does_ret. }
  rewrite Ed, length_app in Hf. set (l' := c :: l) in *.
  assert (cstring m1 wc_spaces spaces) as Hsp1 by (apply (cstring_same (u_mem u)); [done|]; intros x Hx; apply Hs; cbn in Hx; unfold fbuf, sizeof_fbuf, wc_spaces in *; lia).
  destruct (IH u1 n1 (foldl count_char st l')) as (m & n' & Hd' & Hs'); [done|apply fn_lookup_insert|done|cbn in *; lia|].
  exists m, n'. split; [|by eapply same_but_buf_trans]. eapply does_bind; [exact Hd|]. rewrite Z.gtb_ltb, (proj2 (Z.ltb_lt _ _)) by (cbn; lia).
  eapply does_bind; [rewrite Nat2Z.id; apply (wc_buf_does u1 l' 0); [done|rewrite Z.add_0_r; apply st_bytes_at]|].
  rewrite Ed, foldl_app. cbn [u_fds u_out u1] in Hd'. rewrite fn_insert_insert in Hd'. exact Hd'.
Qed.

(** The line that wc prints for a file. *)
Definition wc_line (l nm o : list Z) : Prop :=
  ∃ dl dw dc, numeral 10 (Z.of_nat (nlines l)) dl ∧ numeral 10 (Z.of_nat (length (words l))) dw ∧ numeral 10 (Z.of_nat (length l)) dc ∧
    o = dl ++ [32] ++ dw ++ [32] ++ dc ++ [32] ++ nm ++ [newline].

Lemma nlines_le l : (nlines l ≤ length l)%nat.
Proof. apply List.filter_length_le. Qed.

Lemma words_le l : (length (words l) ≤ length l)%nat.
Proof.
  cut (new_words false l ≤ Z.of_nat (length l)); [rewrite new_words_all; lia|].
  assert (∀ b, new_words b l ≤ Z.of_nat (length l)) as Hn; [|done]. induction l as [|c l IH]; intros b; [by destruct b|].
  rewrite new_words_cons. pose proof (IH true). pose proof (IH false). cbn [length]. destruct (is_space c); [lia|]. destruct b; lia.
Qed.

Lemma decimal_numeral n : 0 ≤ n < 2 ^ 31 → ∃ l, numeral 10 n l.
Proof.
  intros Hn. exists (reverse (int_buf 16 n 10)). apply int_buf_numeral; [lia|change (10 ^ Z.of_nat 16) with 10000000000000000; lia|lia].
Qed.

Lemma pr_nat m fmt n ap l o : 0 ≤ n < 2 ^ 31 → numeral 10 n l → prints m fmt ap o → prints m (37 :: 100 :: fmt) (n :: ap) (l ++ o).
Proof.
  intros Hn Hl Hp. pose proof (pr_d m fmt n ap l o) as Hd. rewrite i32_small, Z.abs_eq, (proj2 (Z.ltb_ge n 0)) in Hd by lia. by apply Hd.
Qed.

Lemma wc_does u fd n name nm :
  out_ok → cstring (u_mem u) wc_spaces spaces → arg_str (u_mem u) name nm → u_fds u fd = Some n → pieces n →
  Z.of_nat (length (data n)) < 2 ^ 31 →
  ∃ m n' o, does (wc fd name) u None (said o (mkUproc m (<[fd := Some n']> (u_fds u)) (u_out u))) ∧ wc_line (data n) nm o ∧ same_but_buf (u_mem u) m.
Proof.
  intros Ho Hsp Hnm E Hp Hlen. destruct (wc_loop_does (read_rounds (u_fds u) fd) u fd n (mkWstate 0 0 0 false)) as (m & n' & Hd & Hs); [done|done|done| |].
  { unfold read_rounds. rewrite E. fold (data n). lia. }
  destruct (count_chars (data n) 0 0 0 false) as (b & Ec). change (i32 0) with 0 in Ec. rewrite Ec, !Z.add_0_l, new_words_all in Hd.
  pose proof (nlines_le (data n)) as Hnl. pose proof (words_le (data n)) as Hw. rewrite !i32_small in Hd by lia.
  destruct (decimal_numeral (Z.of_nat (nlines (data n)))) as (dl & Hl1); [lia|].
  destruct (decimal_numeral (Z.of_nat (length (words (data n))))) as (dw & Hw1); [lia|].
  destruct (decimal_numeral (Z.of_nat (length (data n)))) as (dc & Hc1); [lia|].
  exists m, n', (dl ++ [32] ++ dw ++ [32] ++ dc ++ [32] ++ nm ++ [newline]). split_and!; [|by exists dl, dw, dc|done].
  unfold wc. eapply does_bind; [apply does_gets|]. eapply does_bind; [exact Hd|]. cbn [fst snd Z.ltb Z.compare ws_l ws_w ws_c].
  eapply does_bind; [|apply does_ret]. apply vprintf_does; [done|]. cbn [u_mem]. eapply arg_str_same in Hnm as []; [|exact Hs].
  apply (pr_nat _ [32; 37; 100; 32; 37; 100; 32; 37; 115; newline]); [lia|done|]. apply (pr_char _ 32); [done|].
  apply (pr_nat _ [32; 37; 100; 32; 37; 115; newline]); [lia|done|]. apply (pr_char _ 32); [done|].
  apply (pr_nat _ [32; 37; 115; newline]); [lia|done|]. apply (pr_char _ 32); [done|].
  apply (pr_s _ [newline]); [done..|]. by repeat constructor.
Qed.

(** What wc prints for the files [names], and its status. *)
Inductive wc_report (fds : Z → option node) : list (list Z) → list Z → Z → Prop :=
| wr_nil : wc_report fds [] [] 0
| wr_fail nm names : try_open fds nm = None → wc_report fds (nm :: names) (text "wc: cannot open " ++ nm ++ [newline]) 1
| wr_file nm names fd nd o o' status :
    try_open fds nm = Some (fd, nd) → wc_line (data nd) nm o → wc_report fds names o' status →
    wc_report fds (nm :: names) (o ++ o') status.

(** No file is too long for an int. *)
Definition files_fit : Prop := ∀ l nd, k_look l = Some nd → Z.of_nat (length (data nd)) < 2 ^ 31.

Lemma spaces_same m m' : same_but_buf m m' → cstring m wc_spaces spaces → cstring m' wc_spaces spaces.
Proof.
  intros Hs Hc. apply (cstring_same m); [done|]. intros x Hx. apply Hs. cbn in Hx. unfold fbuf, sizeof_fbuf, wc_spaces in *. lia.
Qed.

Lemma wc_files_does u args names :
  out_ok → files_ok → files_fit → cstring (u_mem u) wc_spaces spaces → Forall2 (arg_str (u_mem u)) args names →
  ∃ m o status, does (wc_files args) u status (said o (set_u_mem m u)) ∧ wc_report (u_fds u) names o status ∧ same_but_buf (u_mem u) m.
Proof.
  intros Ho Hk Hfit. revert u names. induction args as [|a args IH]; intros u names Hsp Ha.
  { apply Forall2_nil_inv_l in Ha as ->. exists (u_mem u), [], 0. rewrite said_nil. split_and!; [|constructor|done]. destruct u. apply does_ret. }
  apply Forall2_cons_inv_l in Ha as (nm & names' & Hn & Ha & ->). cbn [wc_files].
  pose proof (uopen_does u a nm (as_str _ _ _ Hn)) as Hop. destruct (try_open (u_fds u) nm) as [[fd nd]|] eqn:E.
  2: { exists (u_mem u), (text "wc: cannot open " ++ nm ++ [newline]), 1. split_and!; [|by constructor|done]. eapply does_bind; [exact Hop|]. cbn [Z.ltb Z.compare].
       unfold uprintf. eapply does_bind; [by apply (message_does 1 _ (text "wc: cannot open ") _ _ nm)|]. destruct u. apply does_ret. }
  destruct (try_open_Some _ _ _ _ E) as (Hfd & Hnone & _ & _ & Hl). set (u1 := set_u_fds _ u) in Hop.
  destruct (wc_does u1 fd nd a nm) as (m1 & n' & o & Hc & Hline & Hs1); [done|done|done|apply fn_lookup_insert|by eapply Hk|by eapply Hfit|].
  set (u2 := mkUproc m1 (u_fds u) (u_out u ++ on 1 o)).
  destruct (IH u2 names') as (m2 & o' & status & Hd & Hr & Hs2); [by eapply spaces_same|by eapply args_same|].
  exists m2, (o ++ o'), status. split_and!; [|by econstructor|by eapply same_but_buf_trans].
  eapply does_bind; [exact Hop|]. rewrite (proj2 (Z.ltb_ge fd 0)) by lia. eapply does_bind; [exact Hc|]. cbv iota beta.
  eapply does_bind; [apply uclose_does|]. rewrite <-said_app.
  unfold said_on at 1, set_u_out, set_u_fds. cbn [u_mem u_fds u_out u1 set_u_fds]. rewrite opened_closed by done. exact Hd.
Qed.

(** ** echo *)

Fixpoint echo_text (names : list (list Z)) : list Z :=
  match names with
  | [] => []
  | nm :: names => nm ++ (match names with [] => [newline] | _ => [32] end) ++ echo_text names
  end.

Lemma echo_args_does u args names :
  out_ok → Forall2 (arg_str (u_mem u)) args names → does (echo_args args) u tt (said (echo_text names) u).
Proof.
  intros Ho. revert u names. induction args as [|a args IH]; intros u names Ha.
  { apply Forall2_nil_inv_l in Ha as ->. by rewrite said_nil. }
  apply Forall2_cons_inv_l in Ha as (nm & names' & Hn & Ha & ->). cbn [echo_args echo_text]. destruct Hn.
  eapply does_bind; [by apply ustrlen_does|]. eapply does_bind.
  { unfold uwrite. eapply does_bind; [apply does_gets|]. rewrite (cstring_rest _ _ nm) by done. by apply write_out_does. }
  eapply does_bind; [by apply write_out_does|]. rewrite <-!said_app.
  replace (match args with [] => [newline] | _ => [32] end) with (match names' with [] => [newline] | _ => [32] end); [by apply IH|].
  by destruct Ha.
Qed.
End Run.

Module Texts.
(** cat writes the bytes of the files named by its arguments, one after another and
    however read cuts them, up to the first that cannot be opened, for which there is
    a message and the status 1.  Without arguments it copies its standard input. *)
Theorem cat_copies `{Kernel} u prog args names :
  out_ok → writes_ok 2 → files_ok → Forall2 (arg_str (u_mem u)) args names →
  (args ≠ [] → ∃ m, does (cat_main (prog :: args)) u (cat_report (u_fds u) names).2 (wrote (cat_report (u_fds u) names).1 (set_u_mem m u)) ∧
    same_but_buf (u_mem u) m) ∧
  (∀ n, u_fds u 0 = Some n → pieces n →
    ∃ m n', does (cat_main [prog]) u 0 (said (data n) (mkUproc m (<[0 := Some n']> (u_fds u)) (u_out u))) ∧ same_but_buf (u_mem u) m).
Proof.
  intros Ho Ho2 Hk Ha. split.
  - intros Hne. destruct args as [|a args]; [done|]. by apply cat_files_does.
  - intros n E Hp. destruct (cat_does u 0 n Ho E Hp) as (m & n' & Hd & Hs). exists m, n'. split; [|done].
    unfold cat_main. eapply does_bind; [exact Hd|]. apply does_ret.
Qed.

(** C35: wc prints a line for each file named by its arguments with the number of its
    lines, its words and its bytes, where the words are the parts of the text between
    white space, however read cuts the text; at the first file that cannot be opened
    it ends with a message and the status 1.  Without arguments it counts its standard
    input. *)
Theorem wc_counts `{Kernel} u prog args names :
  out_ok → files_ok → files_fit → cstring (u_mem u) wc_spaces spaces → Forall2 (arg_str (u_mem u)) args names →
  (args ≠ [] → ∃ m o status, does (wc_main (prog :: args)) u status (said o (set_u_mem m u)) ∧ wc_report (u_fds u) names o status ∧
    same_but_buf (u_mem u) m) ∧
  (∀ n, u_fds u 0 = Some n → pieces n → Z.of_nat (length (data n)) < 2 ^ 31 → u_mem u wc_empty = 0 →
    ∃ m n' o, does (wc_main [prog]) u 0 (said o (mkUproc m (<[0 := Some n']> (u_fds u)) (u_out u))) ∧ wc_line (data n) [] o ∧
      same_but_buf (u_mem u) m).
Proof.
  intros Ho Hk Hfit Hsp Ha. split.
  - intros Hne. destruct args as [|a args]; [done|]. by apply wc_files_does.
  - intros n E Hp Hlen Hz. destruct (wc_does u 0 n wc_empty []) as (m & n' & o & Hd & Hl & Hs); try done.
    { split; [|done| |done|change ustr_max with (Z.to_nat 4096); cbn; lia].
      - split_and!; [by intros k d Hk'|done|cbn; by rewrite Z.add_0_r].
      - cbn. intros x Hx. unfold fbuf, sizeof_fbuf, wc_empty in *. lia. }
    exists m, n', o. split_and!; [|done|done]. unfold wc_main. eapply does_bind; [exact Hd|]. apply does_ret.
Qed.

(** A file in two pieces that cut a word. *)
Definition text_node : node := mkNode 1 2 T_FILE 1 7 [text "ab c"; text "d" ++ [newline] ++ text "e"].
#[local] Instance text_kernel : Kernel := { k_look p := if bool_decide (p = text "a") then Some text_node else None; k_writes _ _ _ := true }.
Definition text_mem : bytes := st_bytes (st_bytes (st_bytes (λ _, 0) wc_spaces spaces) 0x3000 (text "a")) 0x3010 (text "b").
Definition text_proc : uproc := mkUproc text_mem (λ fd, if fd <? 3 then Some (mkNode 0 0 T_DEVICE 0 0 []) else None) [].

Lemma text_files : files_ok ∧ files_fit.
Proof.
  split; intros l nd Hk; cbn [k_look text_kernel] in Hk; destruct (bool_decide (l = text "a")); [|done| |done]; injection Hk as <-; [by repeat constructor|done].
Qed.

Lemma text_arg p c : 0x3000 ≤ p → text_mem p = c → 0 < c < 256 → text_mem (p + 1) = 0 → arg_str text_mem p [c].
Proof.
  intros Hp Hm Hc Hz. split; [split_and!| | | |].
  - intros [|k] d Hk; [injection Hk as <-; by rewrite Z.add_0_r|done].
  - repeat constructor. lia.
  - done.
  - lia.
  - cbn. intros x Hx. unfold fbuf, sizeof_fbuf. lia.
  - repeat constructor; lia.
  - change ustr_max with (Z.to_nat 4096). cbn. lia.
Qed.

Lemma text_args : Forall2 (arg_str text_mem) [0x3000; 0x3010] [text "a"; text "b"].
Proof. constructor; [|constructor; [|constructor]]; apply text_arg; first [lia|reflexivity|by split]. Qed.

Lemma cat_copies_witness :
  ∃ m, does (cat_main [0; 0x3000; 0x3010]) text_proc 1
    (wrote (on 1 (text "ab cd" ++ [newline] ++ text "e") ++ on 2 (line "cat: cannot open b")) (set_u_mem m text_proc)).
Proof.
  destruct (cat_copies text_proc 0 [0x3000; 0x3010] [text "a"; text "b"]) as [Hc _];
    [done|done|apply text_files|apply text_args|]. destruct Hc as (m & Hd & _); [done|]. exists m. exact Hd.
Defined.

Lemma wc_counts_witness :
  ∃ m o, does (wc_main [0; 0x3000; 0x3010]) text_proc 1 (said (o ++ line "wc: cannot open b") (set_u_mem m text_proc)) ∧
    wc_line (text "ab cd" ++ [newline] ++ text "e") (text "a") o.
Proof.
  destruct (wc_counts text_proc 0 [0x3000; 0x3010] [text "a"; text "b"]) as [Hc _];
    [done|apply text_files|apply text_files|apply cstring_intro; [reflexivity|by repeat constructor|reflexivity]|apply text_args|].
  destruct Hc as (m & o & status & Hd & Hr & _); [done|]. exists m.
  inversion Hr as [|? ? E|? ? fd nd o1 o2 ? E Hl Hr2]; subst; [vm_compute in E; discriminate|]. exists o1.
  inversion Hr2 as [|? ? E2|? ? ? ? ? ? ? E2 ? ?]; subst; [|vm_compute in E2; discriminate]. split; [exact Hd|].
  assert (nd = text_node) as -> by (vm_compute in E; by injection E). exact Hl.
Defined.
End Texts.
