(* ===== verification/Mkfs.v ===== *)
(** * mkfs/mkfs.c: the initial file system

    mkfs builds the image that the kernel mounts.  The image is an array of
    sectors; the host's lseek, read and write on it are [rsect] and [wsect], on a
    little-endian host, and a failed assert is a panic.  The files to be copied are
    given by their name and by the pieces in which the host's read returns them. *)

From S2P Require Import Prelude Types StringC Fs.

Definition NINODES : Z := 200.

Definition nbitmap : Z := FSSIZE / (BSIZE * 8) + 1.
Definition ninodeblocks : Z := NINODES / IPB + 1.
Definition nlog : Z := LOGSIZE.
Definition nmeta : Z := 2 + nlog + ninodeblocks + nbitmap.
Definition nblocks : Z := FSSIZE - nmeta.

(** The image and the globals freeinode and freeblock. *)
Record image := mkImage {
  g_sect : Z → bytes;
  g_freeinode : Z;
  g_freeblock : Z
}.

Definition set_sect (v : Z → bytes) (g : image) : image := mkImage v (g_freeinode g) (g_freeblock g).
Definition set_freeinode (v : Z) (g : image) : image := mkImage (g_sect g) v (g_freeblock g).
Definition set_freeblock (v : Z) (g : image) : image := mkImage (g_sect g) (g_freeinode g) v.

Abbreviation G := (M image) (only parsing).

(** The bytes of x, from the low one on, read as a number of the host. *)
Definition xshort (x : Z) : Z := ld16 (st8 (st8 zeroes 0 x) 1 (x ≫ 8)) 0.
Definition xint (x : Z) : Z := ld32 (st8 (st8 (st8 (st8 zeroes 0 x) 1 (x ≫ 8)) 2 (x ≫ 16)) 3 (x ≫ 24)) 0.

(** The global sb, as main sets it. *)
Definition mk_sb : superblock :=
  mkSuperblock FSMAGIC (xint FSSIZE) (xint nblocks) (xint NINODES) (xint nlog) (xint 2) (xint (2 + nlog)) (xint (2 + nlog + ninodeblocks)).

Definition wsect (sec : Z) (buf : bytes) : G unit := modify (λ g, set_sect (<[sec := buf]> (g_sect g)) g).

(** The file has FSSIZE sectors, and reading past its end fails. *)
Definition rsect (sec : Z) : G bytes := if sec <? FSSIZE then gets (λ g, g_sect g sec) else panic "read".

(** bzero(&din, sizeof(din)) *)
Definition no_dinode : inode := mkInode 0 0 0 false 0 0 0 0 0 (λ _, 0).

(** Where inode [inum] lies in its block. *)
Definition dinode_at (inum : Z) : Z := inum `mod` IPB * sizeof_dinode.

Definition winode (inum : Z) (ip : inode) : G unit :=
  let bn := IBLOCK inum mk_sb in
  buf <- rsect bn ;;
  wsect bn (store_dinode ip buf (dinode_at inum)).

Definition rinode (inum : Z) : G inode :=
  let bn := IBLOCK inum mk_sb in
  buf <- rsect bn ;;
  ret (load_dinode buf (dinode_at inum) no_dinode).

Definition mk_ialloc (type : Z) : G Z :=
  inum <- gets g_freeinode ;;
  modify (set_freeinode (u32 (inum + 1))) ;;
  let din := set_i_size (xint 0) (set_i_nlink (xshort 1) (set_i_type (xshort type) no_dinode)) in
  winode inum din ;;
  ret inum.

Definition mk_balloc (used : Z) : G unit :=
  if negb (used <? BSIZE * 8) then panic "assert" else
  wsect (sb_bmapstart mk_sb)
    (foldl (λ buf i, <[i / 8 := u8 (Z.lor (buf (i / 8)) (1 ≪ (i `mod` 8)))]> buf) zeroes (seqZ 0 used)).

(** freeblock++ *)
Definition next_block : G Z :=
  b <- gets g_freeblock ;;
  modify (set_freeblock (u32 (b + 1))) ;;
  ret b.

(** The block of the file that [off] is in, allocated when the file has none. *)
Definition iappend_block (din : inode) (fbn : Z) : G (inode * Z) :=
  if fbn <? NDIRECT then
    din <- (if xint (i_addrs din fbn) =? 0
            then b <- next_block ;; ret (set_i_addrs (<[fbn := xint b]> (i_addrs din)) din)
            else ret din) ;;
    ret (din, xint (i_addrs din fbn))
  else
    din <- (if xint (i_addrs din NDIRECT) =? 0
            then b <- next_block ;; ret (set_i_addrs (<[NDIRECT := xint b]> (i_addrs din)) din)
            else ret din) ;;
    indirect <- rsect (xint (i_addrs din NDIRECT)) ;;
    indirect <- (if ld32 indirect (4 * (fbn - NDIRECT)) =? 0
                 then
                   b <- next_block ;;
                   let indirect := st32 indirect (4 * (fbn - NDIRECT)) (xint b) in
                   wsect (xint (i_addrs din NDIRECT)) indirect ;;
                   ret indirect
                 else ret indirect) ;;
    ret (din, xint (ld32 indirect (4 * (fbn - NDIRECT)))).

(** The loop of iappend: [n] bytes of [p] from [s] on are left, for [off].  Every
    round takes a byte at least, and the last one finds that none is left. *)
Fixpoint iappend_loop (fuel : nat) (din : inode) (p : bytes) (s off n : Z) : G (inode * Z) :=
  match fuel with
  | O => λ _ _, NoFuel
  | S fuel =>
      if negb (n >? 0) then ret (din, off) else
      let fbn := off / BSIZE in
      if negb (fbn <? MAXFILE) then panic "assert" else
      x <- iappend_block din fbn ;;
      let n1 := Z.min n ((fbn + 1) * BSIZE - off) in
      buf <- rsect x.2 ;;
      wsect x.2 (mem_copy buf (off - fbn * BSIZE) p s n1) ;;
      iappend_loop fuel x.1 p (s + n1) (off + n1) (n - n1)
  end.

Definition iappend (inum : Z) (p : bytes) (n : Z) : G unit :=
  din <- rinode inum ;;
  r <- iappend_loop (S (Z.to_nat n)) din p 0 (xint (i_size din)) n ;;
  winode inum (set_i_size (xint r.2) r.1).

(** ** main *)

(** memmove(buf, &sb, sizeof(sb)) *)
Definition store_sb (sb : superblock) (d : bytes) : bytes :=
  let d := st32 d 0 (sb_magic sb) in
  let d := st32 d 4 (sb_size sb) in
  let d := st32 d 8 (sb_nblocks sb) in
  let d := st32 d 12 (sb_ninodes sb) in
  let d := st32 d 16 (sb_nlog sb) in
  let d := st32 d 20 (sb_logstart sb) in
  let d := st32 d 24 (sb_inodestart sb) in
  st32 d 28 (sb_bmapstart sb).

(** A zeroed struct dirent with inum and with the first DIRSIZ characters of the
    name. *)
Definition mk_dirent (inum : Z) (name : list Z) : bytes :=
  st16 (λ x, if (2 <=? x) && (x <? sizeof_dirent) then string_bytes name (x - 2) else 0) 0 (xshort inum).

Definition period : Z := 46.
Definition underscore : Z := 95.
Definition user_dir : list Z := [117; 115; 101; 114; 47].

(** Without a leading "user/". *)
Definition shorten (arg : list Z) : list Z := if bool_decide (take 5 arg = user_dir) then drop 5 arg else arg.

(** Without a leading underscore. *)
Definition skip_underscore (name : list Z) : list Z :=
  match name with c :: rest => if c =? underscore then rest else name | [] => [] end.

Definition add_file (rootino : Z) (file : list Z * list (list Z)) : G unit :=
  let shortname := shorten file.1 in
  if bool_decide (slash ∈ shortname) then panic "assert" else
  let shortname := skip_underscore shortname in
  inum <- mk_ialloc T_FILE ;;
  iappend rootino (mk_dirent inum shortname) sizeof_dirent ;;
  for_each file.2 (λ buf, iappend inum (string_bytes buf) (Z.of_nat (length buf))).

(** The rest of main: the size of the root directory is rounded up, and the bitmap
    is written. *)
Definition mkfs_end (rootino : Z) : G unit :=
  din <- rinode rootino ;;
  let off := xint (i_size din) in
  let off := (off / BSIZE + 1) * BSIZE in
  winode rootino (set_i_size (xint off) din) ;;
  used <- gets g_freeblock ;;
  mk_balloc used.

Definition mkfs (files : list (list Z * list (list Z))) : G unit :=
  modify (set_freeblock nmeta) ;;
  for_each (seqZ 0 FSSIZE) (λ i, wsect i zeroes) ;;
  wsect 1 (store_sb mk_sb zeroes) ;;
  rootino <- mk_ialloc T_DIR ;;
  if negb (rootino =? ROOTINO) then panic "assert" else
  iappend rootino (mk_dirent rootino [period]) sizeof_dirent ;;
  iappend rootino (mk_dirent rootino [period; period]) sizeof_dirent ;;
  for_each files (add_file rootino) ;;
  mkfs_end rootino.

(** The program's globals and the image before it is truncated. *)
Definition start_image (d : Z → bytes) : image := mkImage d 1 0.
