(* ===== verification/MkfsProps.v ===== *)
(** * The image that mkfs makes

    What lies in the image is described by an abstract file system: the contents
    [C] of every file.  [store] says where the blocks of the files are, and mkfs
    keeps it; in the end the kernel's definitions of files and directories find in
    the image exactly the files that mkfs was given. *)

From S2P Require Import Prelude Types StringC Run Bio Tx Fs FsPure FsBlocks FsFile FsProps FsDir Mkfs.

(** ** Numbers *)

Lemma xint_mod x : xint x = x `mod` 2 ^ 32.
Proof.
  assert (E : Z_to_little_endian 4 8 x = [u8 x; u8 (x ≫ 8); u8 (x ≫ 16); u8 (x ≫ 24)]).
  { cbv [Z_to_little_endian Z.iter Pos.iter]. cbn. rewrite !Z.shiftr_shiftr by lia. unfold u8. by rewrite !Z.land_ones by lia. }
  transitivity (ld32 (st32 zeroes 0 x) 0); [|unfold ld32, st32; by rewrite ld_st_eq by lia].
  apply ld_ext. intros a Ha. unfold st32, st. by rewrite E.
Qed.

Lemma xint_small x : 0 ≤ x < 2 ^ 32 → xint x = x.
Proof. intros Hx. rewrite xint_mod. by apply Z.mod_small. Qed.

Lemma xshort_small x : 0 ≤ x < 2 ^ 16 → xshort x = x.
Proof.
  intros Hx. assert (E : Z_to_little_endian 2 8 x = [u8 x; u8 (x ≫ 8)]).
  { cbv [Z_to_little_endian Z.iter Pos.iter]. cbn. unfold u8. by rewrite !Z.land_ones by lia. }
  transitivity (ld16 (st16 zeroes 0 x) 0); [|unfold ld16, st16; rewrite ld_st_eq by lia; by apply Z.mod_small].
  apply ld_ext. intros a Ha. unfold st16, st. by rewrite E.
Qed.

(** ** The blocks of a file

    Slot [s] of a file is where its block [s] is recorded; slot -1 is the indirect
    block. *)

Definition slot (V : Z → bytes) (r : inode) (s : Z) : Z := if s =? -1 then i_addrs r NDIRECT else block_of V r s.

(** The slots that exist: those of the indirect block only when it does. *)
Definition reach (U : Z → Z → bool) (i s : Z) : Prop :=
  s = -1 ∨ 0 ≤ s < NDIRECT ∨ (NDIRECT ≤ s < MAXFILE ∧ U i (-1) = true).

(** The files [R] with contents [C] in the blocks [V]: [U] are the slots in use;
    the blocks from [fb] on are free and zero. *)
Record store (V : Z → bytes) (fb : Z) (R : Z → inode) (U : Z → Z → bool) (C : Z → list Z) : Prop := {
  s_bound : nmeta ≤ fb ≤ FSSIZE;
  s_fresh b : fb ≤ b < FSSIZE → V b = zeroes;
  s_reach i s : U i s = true → reach U i s;
  s_used i s : U i s = true → nmeta ≤ slot V (R i) s < fb;
  s_free i s : U i s = false → reach U i s → slot V (R i) s = 0;
  s_inj i s j t : U i s = true → U j t = true → slot V (R i) s = slot V (R j) t → i = j ∧ s = t;
  s_data i s x : U i s = true → 0 ≤ s → 0 ≤ x < BSIZE → V (slot V (R i) s) x = default 0 (C i !! Z.to_nat (s * BSIZE + x))
}.

Lemma slot_ind V r : slot V r (-1) = i_addrs r NDIRECT.
Proof. done. Qed.

Lemma slot_direct V r s : 0 ≤ s < NDIRECT → slot V r s = i_addrs r s.
Proof. intros Hs. unfold slot, block_of. rewrite (proj2 (Z.eqb_neq _ _)), (proj2 (Z.ltb_lt _ _)) by lia. done. Qed.

Lemma slot_indirect V r s : NDIRECT ≤ s → slot V r s = ld32 (V (slot V r (-1))) (4 * (s - NDIRECT)).
Proof. intros Hs. unfold slot at 1, block_of. unfold NDIRECT in *. rewrite (proj2 (Z.eqb_neq _ _)), (proj2 (Z.ltb_ge _ _)) by lia. done. Qed.

(** The slots of a file do not change when its indirect block does not. *)
Lemma slot_same V V' U r i s : reach U i s → (U i (-1) = true → V' (slot V r (-1)) = V (slot V r (-1))) → slot V' r s = slot V r s.
Proof.
  intros [->|[Hs|[Hs Hi]]] HV; [done|by rewrite !slot_direct|]. rewrite (slot_indirect V'), (slot_indirect V) by lia.
  change (slot V' r (-1)) with (slot V r (-1)). by rewrite (HV Hi).
Qed.

(** Recording block [b] in slot [s]. *)
Definition set_slot (V : Z → bytes) (r : inode) (s b : Z) : (Z → bytes) * inode :=
  if s <? NDIRECT then (V, set_i_addrs (<[(if s =? -1 then NDIRECT else s) := b]> (i_addrs r)) r)
  else let a := i_addrs r NDIRECT in (<[a := st32 (V a) (4 * (s - NDIRECT)) b]> V, r).

Definition use (U : Z → Z → bool) (i s : Z) : Z → Z → bool := λ j t, bool_decide (i = j ∧ s = t) || U j t.

Lemma use_same U i s : use U i s i s = true.
Proof. unfold use. by rewrite bool_decide_eq_true_2. Qed.

Lemma use_true U i s j t : use U i s j t = true ↔ (i = j ∧ s = t) ∨ U j t = true.
Proof. unfold use. by rewrite orb_true_iff, bool_decide_eq_true. Qed.

Lemma use_false U i s j t : use U i s j t = false ↔ ¬ (i = j ∧ s = t) ∧ U j t = false.
Proof. unfold use. by rewrite orb_false_iff, bool_decide_eq_false. Qed.

Section Slots.
Context (V : Z → bytes) (fb : Z) (R : Z → inode) (U : Z → Z → bool) (C : Z → list Z).
Context (Hst : store V fb R U C).

(** A new block for slot [s] of file [i]: the slots afterwards. *)
Lemma set_slot_slots i s j t :
  U i s = false → reach U i s → fb < FSSIZE → reach (use U i s) j t → 
  slot (set_slot V (R i) s fb).1 (<[i := (set_slot V (R i) s fb).2]> R j) t = if bool_decide (i = j ∧ s = t) then fb else
    if bool_decide (i = j ∧ s = -1 ∧ NDIRECT ≤ t) then 0 else slot V (R j) t.
Proof.
  intros Hu Hr Hf Hrj. pose proof (s_bound _ _ _ _ _ Hst) as Hb. unfold set_slot.
  assert (HF : FSSIZE < 2 ^ 32) by done. assert (Hm : nmeta = 46) by done.
  destruct (Z.ltb_spec s NDIRECT) as [Hs|Hs]; cbn [fst snd].
  - rewrite fn_lookup_insert_if. case_decide as Eij; [subst j|].
    2:{ rewrite !bool_decide_eq_false_2 by naive_solver. done. }
    assert (Hlow : s = -1 ∨ 0 ≤ s) by (destruct Hr as [?|[?|[? _]]]; lia). unfold reach in Hrj.
    assert (Ht : t = -1 ∨ 0 ≤ t < NDIRECT ∨ NDIRECT ≤ t < MAXFILE) by (destruct Hrj as [?|[?|[? _]]]; lia).
    destruct Ht as [->|[Ht|Ht]].
    + unfold slot. cbn [i_addrs set_i_addrs]. change (-1 =? -1) with true. cbn iota. rewrite fn_lookup_insert_if.
      destruct (Z.eqb_spec s (-1)) as [->|Hne].
      * by rewrite decide_True, bool_decide_eq_true_2 by done.
      * rewrite decide_False by lia. by rewrite !bool_decide_eq_false_2 by (unfold NDIRECT; lia).
    + rewrite !slot_direct by done. cbn [i_addrs set_i_addrs]. rewrite fn_lookup_insert_if.
      rewrite (bool_decide_eq_false_2 (i = i ∧ s = -1 ∧ NDIRECT ≤ t)) by lia.
      destruct (Z.eqb_spec s (-1)) as [->|Hne]; [rewrite decide_False, bool_decide_eq_false_2 by lia; done|].
      case_decide; [rewrite bool_decide_eq_true_2 by lia|rewrite bool_decide_eq_false_2 by lia]; done.
    + rewrite (bool_decide_eq_false_2 (i = i ∧ s = t)) by lia. rewrite slot_indirect, (slot_indirect V (R i)) by lia. unfold slot. cbn [i_addrs set_i_addrs].
      change (-1 =? -1) with true. cbn iota. rewrite fn_lookup_insert_if. destruct (Z.eqb_spec s (-1)) as [->|Hne].
      * rewrite decide_True, bool_decide_eq_true_2 by lia. rewrite (s_fresh _ _ _ _ _ Hst) by lia. by apply ld_zero.
      * rewrite decide_False, bool_decide_eq_false_2 by lia. done.
  - rewrite fn_insert_id. assert (Hi : U i (-1) = true) by (destruct Hr as [->|[?|[_ ?]]]; [unfold NDIRECT in Hs; lia|lia|done]).
    set (a := i_addrs (R i) NDIRECT) in *. rewrite (bool_decide_eq_false_2 (i = j ∧ s = -1 ∧ _)) by (unfold NDIRECT in Hs; lia).
    assert (Hrj' : reach U j t).
    { destruct Hrj as [?|[?|[Ht Hj]]]; [by left|by right; left|right; right]. split; [done|]. apply use_true in Hj as [[-> ->]|]; done. }
    destruct (decide (i = j)) as [<-|Hij].
    + destruct Hrj' as [->|[Ht|[Ht _]]].
      * rewrite bool_decide_eq_false_2 by (unfold NDIRECT in Hs; lia). done.
      * rewrite bool_decide_eq_false_2 by lia. by rewrite !slot_direct.
      * rewrite slot_indirect, (slot_indirect V) by lia. change (slot _ (R i) (-1)) with a. rewrite fn_lookup_insert. unfold ld32, st32.
        case_bool_decide as E.
        -- destruct E as [_ ->]. rewrite ld_st_eq by lia. apply Z.mod_small. lia.
        -- rewrite ld_st_ne by lia. done.
    + rewrite bool_decide_eq_false_2 by naive_solver. eapply slot_same; [exact Hrj'|]. intros Hj. apply fn_lookup_insert_ne. intros E.
      destruct (s_inj _ _ _ _ _ Hst i (-1) j (-1) Hi Hj E). done.
Qed.

(** Only the indirect block of the file changes. *)
Lemma set_slot_blocks i s b x :
  reach U i s → (U i (-1) = true → x ≠ slot V (R i) (-1)) → (set_slot V (R i) s b).1 x = V x.
Proof.
  intros Hr Hx. unfold set_slot. destruct (Z.ltb_spec s NDIRECT) as [|Hs]; [done|]. cbn.
  assert (Hi : U i (-1) = true) by (destruct Hr as [->|[?|[_ ?]]]; [unfold NDIRECT in Hs; lia|lia|done]).
  apply fn_lookup_insert_ne. intros E. by apply Hx.
Qed.

Lemma reach_use i s j t : reach U j t → reach (use U i s) j t.
Proof. intros [?|[?|[? Hj]]]; [by left|by right; left|right; right]. split; [done|]. apply use_true. by right. Qed.

Lemma reach_use_inv i s j t : reach (use U i s) j t → ¬ (i = j ∧ s = -1 ∧ NDIRECT ≤ t) → reach U j t.
Proof.
  intros [?|[?|[? Hj]]] Hn; [by left|by right; left|right; right]. split; [done|]. apply use_true in Hj as [[-> ->]|]; [|done].
  exfalso. apply Hn. lia.
Qed.

Lemma store_add i s :
  U i s = false → reach U i s → fb < FSSIZE → s = -1 ∨ Z.of_nat (length (C i)) ≤ s * BSIZE →
  store (set_slot V (R i) s fb).1 (fb + 1) (<[i := (set_slot V (R i) s fb).2]> R) (use U i s) C.
Proof.
  intros Hu Hr Hf HC. pose proof (s_bound _ _ _ _ _ Hst) as Hb. pose proof (set_slot_slots i s) as Hs.
  assert (Hold : ∀ j t, U j t = true → slot (set_slot V (R i) s fb).1 (<[i := (set_slot V (R i) s fb).2]> R j) t = slot V (R j) t).
  { intros j t Hj. pose proof (s_reach _ _ _ _ _ Hst j t Hj) as Hrj. rewrite Hs by (done || by apply reach_use).
    rewrite bool_decide_eq_false_2 by (intros [-> ->]; congruence). rewrite bool_decide_eq_false_2; [done|].
    intros (-> & -> & Ht). destruct Hrj as [->|[?|[_ ?]]]; [unfold NDIRECT in Ht; lia|lia|congruence]. }
  assert (Hnew : slot (set_slot V (R i) s fb).1 (<[i := (set_slot V (R i) s fb).2]> R i) s = fb).
  { rewrite Hs by (done || by apply reach_use). by rewrite bool_decide_eq_true_2. }
  assert (Hblk : ∀ x, (U i (-1) = true → x ≠ slot V (R i) (-1)) → (set_slot V (R i) s fb).1 x = V x) by (intros; by apply set_slot_blocks).
  split.
  - lia.
  - intros b Hbb. rewrite Hblk; [apply (s_fresh _ _ _ _ _ Hst); lia|]. intros Hi ->. pose proof (s_used _ _ _ _ _ Hst i (-1) Hi). lia.
  - intros j t [[-> ->]|Hj]%use_true; [by apply reach_use|]. by apply reach_use, (s_reach _ _ _ _ _ Hst).
  - intros j t [[-> ->]|Hj]%use_true; [rewrite Hnew; lia|]. rewrite Hold by done. pose proof (s_used _ _ _ _ _ Hst j t Hj). lia.
  - intros j t [Hne Hj]%use_false Hrj. rewrite Hs by done. rewrite bool_decide_eq_false_2 by done. case_bool_decide as E; [done|].
    apply (s_free _ _ _ _ _ Hst); [done|]. by eapply reach_use_inv.
  - intros j t j' t' [[-> ->]|Hj]%use_true [[-> ->]|Hj']%use_true; rewrite ?Hnew, ?Hold by done; [done|..].
    + pose proof (s_used _ _ _ _ _ Hst _ _ Hj'). lia.
    + pose proof (s_used _ _ _ _ _ Hst _ _ Hj). lia.
    + by apply (s_inj _ _ _ _ _ Hst).
  - intros j t x [[-> ->]|Hj]%use_true Ht Hx.
    + rewrite Hnew, Hblk. { rewrite (s_fresh _ _ _ _ _ Hst) by lia. rewrite lookup_ge_None_2; [done|]. lia. }
      intros Hi E. pose proof (s_used _ _ _ _ _ Hst _ _ Hi). lia.
    + rewrite Hold, Hblk by done || (intros Hi E; destruct (s_inj _ _ _ _ _ Hst _ _ _ _ Hj Hi E); lia).
      by apply (s_data _ _ _ _ _ Hst).
Qed.

(** Writing bytes at the end of a file, into the block of slot [s]. *)
Lemma store_write i s o l d :
  U i s = true → 0 ≤ s → Z.of_nat (length (C i)) = s * BSIZE + o → 0 ≤ o → o + Z.of_nat (length l) ≤ BSIZE →
  (∀ x, 0 ≤ x < BSIZE → d x = if decide (o ≤ x < o + Z.of_nat (length l)) then default 0 (l !! Z.to_nat (x - o)) else V (slot V (R i) s) x) →
  store (<[slot V (R i) s := d]> V) fb R U (<[i := C i ++ l]> C).
Proof.
  intros Hu H0 HC Ho Hl Hd. set (a := slot V (R i) s) in *. set (V' := <[a := d]> V).
  assert (Hind : ∀ j, U j (-1) = true → V' (slot V (R j) (-1)) = V (slot V (R j) (-1))).
  { intros j Hj. apply fn_lookup_insert_ne. intros E. destruct (s_inj _ _ _ _ _ Hst _ _ _ _ Hu Hj E). lia. }
  assert (Hsl : ∀ j t, reach U j t → slot V' (R j) t = slot V (R j) t) by (intros j t Hr; eapply slot_same; [exact Hr|apply Hind]).
  destruct Hst as [S1 S2 S3 S4 S5 S6 S7]. change BSIZE with 1024 in *. split; change BSIZE with 1024; try done.
  - intros b Hb. unfold V'. rewrite fn_lookup_insert_ne; [by apply S2|]. intros <-. pose proof (S4 i s Hu) as Ha. fold a in Ha. lia.
  - intros j t Hj. rewrite Hsl by by apply S3. by apply S4.
  - intros j t Hj Hr. rewrite Hsl by done. by apply S5.
  - intros j t j' t' Hj Hj'. rewrite !Hsl by by apply S3. by apply S6.
  - intros j t x Hj Ht Hx. rewrite Hsl by by apply S3. unfold V'. rewrite !fn_lookup_insert_if. case_decide as Ea.
    + destruct (S6 i s j t Hu Hj Ea) as [<- <-]. rewrite decide_True by done. rewrite Hd by done. case_decide as Eo.
      * rewrite lookup_app_r by lia. do 2 f_equal. lia.
      * unfold a. rewrite S7 by done. destruct (decide (x < o)).
        -- by rewrite lookup_app_l by lia.
        -- rewrite !lookup_ge_None_2; [done|rewrite length_app; lia|lia].
    + case_decide as Eij; [subst j|by apply S7]. rewrite S7 by done.
      assert (t ≠ s) by (intros ->; done). destruct (decide (t < s)).
      * by rewrite lookup_app_l by lia.
      * rewrite !lookup_ge_None_2; [done|rewrite length_app; lia|lia].
Qed.

(** Blocks below [nmeta] do not matter. *)
Lemma store_meta V' : (∀ b, nmeta ≤ b → V' b = V b) → store V' fb R U C.
Proof.
  intros HV. destruct Hst as [S1 S2 S3 S4 S5 S6 S7].
  assert (Hsl : ∀ j t, reach U j t → slot V' (R j) t = slot V (R j) t).
  { intros j t Hr. eapply slot_same; [exact Hr|]. intros Hj. apply HV. by apply S4. }
  split; try done.
  - intros b Hb. rewrite HV by lia. by apply S2.
  - intros j t Hj. rewrite Hsl by by apply S3. by apply S4.
  - intros j t Hj Hr. rewrite Hsl by done. by apply S5.
  - intros j t j' t' Hj Hj'. rewrite !Hsl by by apply S3. by apply S6.
  - intros j t x Hj Ht Hx. rewrite Hsl by by apply S3. rewrite HV; [by apply S7|]. by apply S4.
Qed.

(** Only the addresses of the inodes matter. *)
Lemma store_inodes R' : (∀ i s, 0 ≤ s ≤ NDIRECT → i_addrs (R' i) s = i_addrs (R i) s) → store V fb R' U C.
Proof.
  intros HR. destruct Hst as [S1 S2 S3 S4 S5 S6 S7].
  assert (Hsl : ∀ j t, reach U j t → slot V (R' j) t = slot V (R j) t).
  { intros j t [->|[Ht|[Ht _]]].
    - unfold slot. apply HR. by unfold NDIRECT.
    - rewrite !slot_direct by done. apply HR. lia.
    - rewrite slot_indirect, (slot_indirect V (R j)) by lia. unfold slot. cbn. do 2 f_equal. apply HR. by unfold NDIRECT. }
  split; try done.
  - intros j t Hj. rewrite Hsl by by apply S3. by apply S4.
  - intros j t Hj Hr. rewrite Hsl by done. by apply S5.
  - intros j t j' t' Hj Hj'. rewrite !Hsl by by apply S3. by apply S6.
  - intros j t x Hj Ht Hx. rewrite Hsl by by apply S3. by apply S7.
Qed.
End Slots.

(** ** Allocation *)


(** The inode of file [i], the blocks and the next free block once slot [s] is in
    use. *)
Definition grab (U : Z → Z → bool) (R : Z → inode) (i s : Z) (g : Z * (Z → bytes)) : Z * (Z → bytes) * inode :=
  let '(fb, V) := g in
  if U i s then (fb, V, R i) else (fb + 1, (set_slot V (R i) s fb).1, (set_slot V (R i) s fb).2).

(** The blocks that this takes. *)
Definition cost (U : Z → Z → bool) (i s : Z) : Z := if U i s then 0 else 1.

Lemma use_id U i s : U i s = true → use U i s = U.
Proof.
  intros H. extensionality j. extensionality t. unfold use. case_bool_decide as E; [|done]. destruct E as [-> ->]. by rewrite H.
Qed.

Lemma store_grab V fb R U C i s fb' V' r' :
  store V fb R U C → reach U i s → fb + cost U i s ≤ FSSIZE → s = -1 ∨ U i s = true ∨ Z.of_nat (length (C i)) ≤ s * BSIZE →
  grab U R i s (fb, V) = (fb', V', r') →
  store V' fb' (<[i := r']> R) (use U i s) C ∧ fb' = fb + cost U i s ∧ (∀ b, b < nmeta → V' b = V b) ∧ ∃ f, r' = set_i_addrs f (R i).
Proof.
  intros Hst Hr Hf HC. unfold grab, cost in *. destruct (U i s) eqn:Hu; intros [= <- <- <-].
  - rewrite fn_insert_id, use_id by done. split; [done|]. split; [lia|]. split; [done|]. exists (i_addrs (R i)). by destruct (R i).
  - split_and!; [|lia| |].
    + apply store_add; try done; [lia|]. naive_solver.
    + intros b Hb. eapply set_slot_blocks; [exact Hr|]. intros Hi ->. pose proof (s_used _ _ _ _ _ Hst i (-1) Hi). lia.
    + unfold set_slot. case_match; cbn; [by eexists|]. exists (i_addrs (R i)). by destruct (R i).
Qed.

Lemma next_block_run env g :
  0 ≤ g_freeblock g < FSSIZE → next_block env g = Ret (g_freeblock g) env (set_freeblock (g_freeblock g + 1) g).
Proof. intros Hg. unfold next_block. mstep. rewrite u32_small; [done|]. unfold FSSIZE in Hg. lia. Qed.

Lemma slot_zero V fb R U C i s : store V fb R U C → reach U i s →
  (slot V (R i) s =? 0) = negb (U i s) ∧ xint (slot V (R i) s) = slot V (R i) s.
Proof.
  intros Hst Hr. pose proof (s_bound _ _ _ _ _ Hst). change nmeta with 46 in *. change FSSIZE with 1000 in *. destruct (U i s) eqn:Hu.
  - pose proof (s_used _ _ _ _ _ Hst i s Hu). change nmeta with 46 in *. rewrite xint_small by lia. split; [|done]. by apply Z.eqb_neq; lia.
  - by rewrite (s_free _ _ _ _ _ Hst i s Hu Hr).
Qed.

(** An address in the inode. *)
Lemma grab_addr_run env V fi fb R U C i s fb' V' r' :
  let k := if s =? -1 then NDIRECT else s in
  store V fb R U C → reach U i s → s < NDIRECT → fb + cost U i s ≤ FSSIZE → grab U R i s (fb, V) = (fb', V', r') →
  (if xint (i_addrs (R i) k) =? 0 then b <- next_block ;; ret (set_i_addrs (<[k := xint b]> (i_addrs (R i))) (R i)) else ret (R i))
    env (mkImage V fi fb) = Ret r' env (mkImage V' fi fb').
Proof.
  intros k Hst Hr Hs Hf. pose proof (s_bound _ _ _ _ _ Hst) as Hb. change nmeta with 46 in Hb. change FSSIZE with 1000 in *.
  assert (Ek : i_addrs (R i) k = slot V (R i) s).
  { unfold k, slot, block_of. destruct (s =? -1); [done|]. by rewrite (proj2 (Z.ltb_lt _ _)). }
  rewrite Ek. destruct (slot_zero _ _ _ _ _ i s Hst Hr) as [Ez ->]. rewrite Ez. unfold grab, set_slot. rewrite (proj2 (Z.ltb_lt s NDIRECT)) by done. fold k.
  unfold cost in Hf. destruct (U i s); intros [= <- <- <-]; cbn [negb]; [done|].
  rewrite (bind_Ret _ _ _ _ _ _ _ (next_block_run env (mkImage V fi fb) ltac:(cbn; change FSSIZE with 1000; lia))). cbn. rewrite xint_small by lia. done.
Qed.

Lemma iappend_block_run env g R U C i fbn :
  let k := cost U i fbn + if fbn <? NDIRECT then 0 else cost U i (-1) in
  store (g_sect g) (g_freeblock g) R U C → 0 ≤ fbn < MAXFILE → g_freeblock g + k ≤ FSSIZE →
  U i fbn = true ∨ Z.of_nat (length (C i)) ≤ fbn * BSIZE →
  ∃ V fb r, iappend_block (R i) fbn env g = Ret (r, slot V r fbn) env (mkImage V (g_freeinode g) fb) ∧
    store V fb (<[i := r]> R) (use (if fbn <? NDIRECT then U else use U i (-1)) i fbn) C ∧ fb = g_freeblock g + k ∧
    (∀ b, b < nmeta → V b = g_sect g b) ∧ ∃ f, r = set_i_addrs f (R i).
Proof.
  destruct g as [V fi fb]. cbn [g_sect g_freeblock g_freeinode]. intros Hst Hfbn Hfb HC. unfold iappend_block.
  pose proof (s_bound _ _ _ _ _ Hst) as Hb. change nmeta with 46 in Hb. change FSSIZE with 1000 in *.
  destruct (Z.ltb_spec fbn NDIRECT) as [Hd|Hd].
  - assert (Hr : reach U i fbn) by (right; left; lia). destruct (grab U R i fbn (fb, V)) as [[fb' V'] r'] eqn:Eg.
    pose proof (store_grab _ _ _ _ _ _ _ _ _ _ Hst Hr ltac:(change FSSIZE with 1000; lia) ltac:(tauto) Eg) as (Hst' & -> & HV' & Hr').
    eexists V', _, r'. split; [|split; [done|split; [lia|done]]].
    pose proof (grab_addr_run env V fi fb R U C i fbn _ _ _ Hst Hr Hd ltac:(change FSSIZE with 1000; lia) Eg) as Er. cbv zeta in Er.
    rewrite (proj2 (Z.eqb_neq fbn (-1))) in Er by lia. rewrite (bind_Ret _ _ _ _ _ _ _ Er).
    destruct (slot_zero _ _ _ _ _ i fbn Hst' (reach_use _ _ _ _ _ Hr)) as [_ Ex]. rewrite fn_lookup_insert, slot_direct in Ex by lia.
    mstep. by rewrite Ex, slot_direct by lia.
  - assert (Hr : reach U i (-1)) by by left. destruct (grab U R i (-1) (fb, V)) as [[fb1 V1] r1] eqn:Eg.
    assert (Hc : 0 ≤ cost U i fbn) by (unfold cost; case_match; lia).
    pose proof (store_grab _ _ _ _ _ _ _ _ _ _ Hst Hr ltac:(change FSSIZE with 1000; lia) ltac:(by left) Eg) as (Hst1 & Hfb1 & HV1 & f1 & Ef1).
    pose proof (grab_addr_run env V fi fb R U C i (-1) _ _ _ Hst Hr ltac:(by unfold NDIRECT) ltac:(change FSSIZE with 1000; lia) Eg) as Er. cbv zeta in Er.
    change (-1 =? -1) with true in Er. cbn iota in Er. rewrite (bind_Ret _ _ _ _ _ _ _ Er). clear Er.
    set (R1 := <[i := r1]> R) in *. set (U1 := use U i (-1)) in *. assert (ER1 : R1 i = r1) by apply fn_lookup_insert.
    assert (Hi1 : U1 i (-1) = true) by apply use_same. assert (Hr1 : reach U1 i fbn) by (right; right; split; [lia|done]).
    assert (HC1 : fbn = -1 ∨ U1 i fbn = true ∨ Z.of_nat (length (C i)) ≤ fbn * BSIZE).
    { destruct HC as [HC|HC]; [|by right; right]. right. left. apply use_true. by right. }
    assert (Ec : cost U1 i fbn = cost U i fbn) by (unfold cost, U1, use; by rewrite bool_decide_eq_false_2 by lia).
    destruct (grab U1 R1 i fbn (fb1, V1)) as [[fb2 V2] r2] eqn:Eg2.
    pose proof (store_grab _ _ _ _ _ _ _ _ _ _ Hst1 Hr1 ltac:(rewrite Ec; change FSSIZE with 1000; lia) HC1 Eg2) as (Hst2 & Hfb2 & HV2 & f2 & Ef2).
    pose proof (s_used _ _ _ _ _ Hst1 i (-1) Hi1) as Ha. destruct (slot_zero _ _ _ _ _ i (-1) Hst1 (s_reach _ _ _ _ _ Hst1 _ _ Hi1)) as [_ Exa].
    destruct (slot_zero _ _ _ _ _ i fbn Hst1 Hr1) as [Ez _]. destruct (slot_zero _ _ _ _ _ i fbn Hst2 (reach_use _ _ _ _ _ Hr1)) as [_ Ex].
    rewrite fn_lookup_insert in Ex. rewrite ER1 in *. rewrite slot_ind in Exa, Ha. set (a := i_addrs r1 NDIRECT) in *.
    exists V2, fb2, r2. split; [|split_and!; [|lia|intros b Hbb; by rewrite HV2, HV1|exists f2; rewrite Ef2, Ef1; by destruct (R i)]].
    2:{ unfold R1 in Hst2. by rewrite fn_insert_insert in Hst2. }
    rewrite Exa. unfold rsect. change FSSIZE with 1000. rewrite (proj2 (Z.ltb_lt a 1000)) by lia. mstep. cbn [g_sect].
    rewrite slot_indirect in Ez by lia. change (slot V1 r1 (-1)) with a in Ez. rewrite Ez. clear Ez.
    unfold grab in Eg2. destruct (U1 i fbn) eqn:Hu; cbn [negb].
    + rewrite ER1 in Eg2. injection Eg2 as <- <- <-. mstep. rewrite <-Ex. by rewrite slot_indirect by lia.
    + change nmeta with 46 in Ha. assert (Ec1 : cost U i fbn = 1) by (rewrite <-Ec; unfold cost; by rewrite Hu).
      unfold set_slot in Eg2. rewrite ER1, (proj2 (Z.ltb_ge fbn NDIRECT)) in Eg2 by lia. fold a in Eg2. injection Eg2 as <- <- <-.
      rewrite (bind_assoc next_block). rewrite (bind_Ret _ _ _ _ _ _ _ (next_block_run env (mkImage V1 fi fb1) ltac:(cbn; change FSSIZE with 1000; lia))).
      cbn [g_freeblock set_freeblock g_sect g_freeinode fst snd] in Ex |- *. unfold wsect. mstep. cbn [set_sect g_sect g_freeinode g_freeblock].
      rewrite <-Ex. rewrite slot_indirect by lia. change (slot _ r1 (-1)) with a. rewrite fn_lookup_insert, !(xint_small fb1) by lia. done.
Qed.

(** ** Appending *)

Definition len (l : list Z) : Z := Z.of_nat (length l).

(** The slots that the contents of the files need. *)
Definition used_by (C : Z → list Z) : Z → Z → bool := λ i s,
  bool_decide ((0 ≤ s ∧ s * BSIZE < len (C i)) ∨ (s = -1 ∧ NDIRECT * BSIZE < len (C i))).

(** The number of blocks of a file of [n] bytes. *)
Definition nb (n : Z) : Z := (n + BSIZE - 1) / BSIZE + if NDIRECT * BSIZE <? n then 1 else 0.

Lemma used_true C i s : used_by C i s = true ↔ (0 ≤ s ∧ s * BSIZE < len (C i)) ∨ (s = -1 ∧ NDIRECT * BSIZE < len (C i)).
Proof. apply bool_decide_eq_true. Qed.

(** The round of iappend at the end of file [i]: the slots and blocks it takes. *)
Lemma append_used C i l :
  let off := len (C i) in let fbn := off / BSIZE in
  0 < len l → len l ≤ (fbn + 1) * BSIZE - off →
  use (if fbn <? NDIRECT then used_by C else use (used_by C) i (-1)) i fbn = used_by (<[i := C i ++ l]> C).
Proof.
  intros off fbn Hl Hb. extensionality j. extensionality t. pose proof (Z.mul_div_le off BSIZE ltac:(done)) as H1.
  pose proof (Z.mul_succ_div_gt off BSIZE ltac:(done)) as H2. fold fbn in H1, H2. change BSIZE with 1024 in *. change NDIRECT with 12 in *.
  assert (H0 : 0 ≤ off) by (unfold off, len; lia). assert (Hf : 0 ≤ fbn) by (apply Z.div_pos; lia).
  apply eq_true_iff_eq. rewrite use_true. destruct (Z.ltb_spec fbn 12) as [Hd|Hd]; rewrite ?use_true, !used_true, fn_lookup_insert_if; change BSIZE with 1024; change NDIRECT with 12.
  - case_decide as E; [subst j|naive_solver]. unfold len in *. rewrite length_app. fold off. split; [|lia]. intros Ht. lia.
  - case_decide as E; [subst j|naive_solver]. unfold len in *. rewrite length_app. fold off. lia.
Qed.

Lemma append_cost C i n1 :
  let off := len (C i) in let fbn := off / BSIZE in
  0 < n1 → n1 ≤ (fbn + 1) * BSIZE - off →
  cost (used_by C) i fbn + (if fbn <? NDIRECT then 0 else cost (used_by C) i (-1)) = nb (off + n1) - nb off.
Proof.
  intros off fbn Hl Hb. pose proof (Z.mul_div_le off BSIZE ltac:(done)) as H1. pose proof (Z.mul_succ_div_gt off BSIZE ltac:(done)) as H2.
  fold fbn in H1, H2. change BSIZE with 1024 in *. assert (H0 : 0 ≤ off) by (unfold off, len; lia). assert (Hf : 0 ≤ fbn) by (apply Z.div_pos; lia).
  unfold nb, cost, used_by. change BSIZE with 1024. change NDIRECT with 12. fold off.
  rewrite <-(Z.div_unique (off + n1 + 1024 - 1) 1024 (fbn + 1) (off + n1 + 1024 - 1 - 1024 * (fbn + 1))) by lia.
  destruct (decide (off = fbn * 1024)) as [E|E].
  - rewrite <-(Z.div_unique (off + 1024 - 1) 1024 fbn 1023) by lia. rewrite bool_decide_eq_false_2 by lia.
    destruct (Z.ltb_spec fbn 12), (Z.ltb_spec (12 * 1024) (off + n1)), (Z.ltb_spec (12 * 1024) off); try lia; case_bool_decide; lia.
  - rewrite <-(Z.div_unique (off + 1024 - 1) 1024 (fbn + 1) (off + 1023 - 1024 * (fbn + 1))) by lia. rewrite bool_decide_eq_true_2 by lia.
    destruct (Z.ltb_spec fbn 12), (Z.ltb_spec (12 * 1024) (off + n1)), (Z.ltb_spec (12 * 1024) off); try lia; case_bool_decide; lia.
Qed.

Lemma nb_mono a b : a ≤ b → nb a ≤ nb b.
Proof.
  intros H. unfold nb. pose proof (Z.div_le_mono (a + BSIZE - 1) (b + BSIZE - 1) BSIZE ltac:(done) ltac:(lia)).
  change BSIZE with 1024 in *. change NDIRECT with 12. destruct (Z.ltb_spec (12 * 1024) a), (Z.ltb_spec (12 * 1024) b); lia.
Qed.

Lemma ld_bytes_split p s a b : 0 ≤ a → 0 ≤ b → ld_bytes p s (a + b) = ld_bytes p s a ++ ld_bytes p (s + a) b.
Proof. intros Ha Hb. unfold ld_bytes. by rewrite seqZ_app, fmap_app by done. Qed.

Lemma ld_bytes_at p s n k : 0 ≤ k < n → ld_bytes p s n !! Z.to_nat k = Some (p (s + k)).
Proof. intros Hk. unfold ld_bytes. rewrite list_lookup_fmap, lookup_seqZ_lt by lia. cbn. do 2 f_equal. lia. Qed.

Lemma len_ld_bytes p s n : 0 ≤ n → len (ld_bytes p s n) = n.
Proof. intros Hn. unfold len. rewrite ld_bytes_length. lia. Qed.

Lemma iappend_loop_run fuel env g R C i p s n :
  let off := len (C i) in let C' := <[i := C i ++ ld_bytes p s n]> C in
  store (g_sect g) (g_freeblock g) R (used_by C) C → 0 ≤ n → off + n ≤ MAXFILE * BSIZE → (Z.to_nat n < fuel)%nat →
  g_freeblock g + (nb (off + n) - nb off) ≤ FSSIZE →
  ∃ V r, let fb := g_freeblock g + (nb (off + n) - nb off) in
    iappend_loop fuel (R i) p s off n env g = Ret (r, off + n) env (mkImage V (g_freeinode g) fb) ∧
    store V fb (<[i := r]> R) (used_by C') C' ∧ (∀ b, b < nmeta → V b = g_sect g b) ∧ ∃ f, r = set_i_addrs f (R i).
Proof.
  revert g R C s n. induction fuel as [|fuel IH]; intros g R C s n off C' Hst Hn Hmax Hf Hfb; [lia|]. cbn [iappend_loop].
  destruct (Z.gtb_spec n 0) as [Hpos|Hz]; cbn [negb].
  2:{ assert (n = 0) as -> by lia. exists (g_sect g), (R i). cbv zeta. unfold C'. rewrite app_nil_r, !fn_insert_id, Z.add_0_r, Z.sub_diag, Z.add_0_r.
      split_and!; [by destruct g|done|done|]. exists (i_addrs (R i)). by destruct (R i). }
  set (fbn := off / BSIZE). pose proof (Z.mul_div_le off BSIZE ltac:(done)) as H1. pose proof (Z.mul_succ_div_gt off BSIZE ltac:(done)) as H2. fold fbn in H1, H2.
  assert (H0 : 0 ≤ off) by (unfold off, len; lia). assert (Hfbn : 0 ≤ fbn < MAXFILE).
  { split; [apply Z.div_pos; [lia|done]|]. change BSIZE with 1024 in *. lia. }
  rewrite (proj2 (Z.ltb_lt fbn MAXFILE)) by lia. cbn [negb]. set (n1 := Z.min n ((fbn + 1) * BSIZE - off)).
  assert (Hn1 : 0 < n1 ≤ n ∧ n1 ≤ (fbn + 1) * BSIZE - off) by (change BSIZE with 1024 in *; lia). destruct Hn1 as [Hn1 Hn1'].
  pose proof (append_cost C i n1 ltac:(lia) Hn1') as Hcost. pose proof (nb_mono (off + n1) (off + n) ltac:(lia)) as Hmono.
  set (l := ld_bytes p s n1). assert (Hll : len l = n1) by (apply len_ld_bytes; lia).
  destruct (iappend_block_run env g R (used_by C) C i fbn) as (V1 & fb1 & r1 & E1 & S1 & F1 & M1 & f1 & A1); [done|done| | |].
  { fold off fbn in Hcost. rewrite Hcost. lia. }
  { unfold used_by. case_bool_decide as E; [by left|right]. fold off in E |- *. change BSIZE with 1024 in *. unfold len in off. lia. }
  fold off fbn in Hcost. rewrite Hcost in F1. pose proof (append_used C i l ltac:(lia) ltac:(rewrite Hll; exact Hn1')) as Hau.
  fold off fbn in Hau. rewrite Hau in S1.
  rewrite (bind_Ret _ _ _ _ _ _ _ E1). cbn [fst snd].
  assert (Hu : used_by (<[i := C i ++ l]> C) i fbn = true).
  { apply used_true. left. rewrite fn_lookup_insert. unfold len in *. rewrite length_app. unfold off in *. change BSIZE with 1024 in *. lia. }
  pose proof (s_used _ _ _ _ _ S1 i fbn Hu) as Ha. rewrite fn_lookup_insert in Ha. pose proof (s_bound _ _ _ _ _ S1) as Hb1.
  set (d := mem_copy (V1 (slot V1 r1 fbn)) (off - fbn * BSIZE) p s n1).
  assert (Hoff : Z.of_nat (length (C i)) = fbn * BSIZE + (off - fbn * BSIZE)) by (unfold off, len; lia).
  assert (S2 : store (<[slot V1 r1 fbn := d]> V1) fb1 (<[i := r1]> R) (used_by (<[i := C i ++ l]> C)) (<[i := C i ++ l]> C)).
  { replace (slot V1 r1 fbn) with (slot V1 (<[i := r1]> R i) fbn) in * by by rewrite fn_lookup_insert.
    apply (store_write _ _ _ _ _ S1 i fbn (off - fbn * BSIZE) l); try done; [lia|lia|unfold len in Hll; lia|].
    intros x Hx. unfold len in Hll. rewrite Hll. unfold d. case_decide as E.
    - rewrite mem_copy_in by done. unfold l. rewrite ld_bytes_at by lia. cbn. f_equal. lia.
    - rewrite mem_copy_out by done. by rewrite fn_lookup_insert. }
  assert (Eoff : len (<[i := C i ++ l]> C i) = off + n1) by (rewrite fn_lookup_insert; unfold len in *; rewrite length_app; fold off; lia).
  destruct (IH (mkImage (<[slot V1 r1 fbn := d]> V1) (g_freeinode g) fb1) (<[i := r1]> R) (<[i := C i ++ l]> C) (s + n1) (n - n1)) as (V & r & E & S3 & M3 & f3 & A3);
    cbn [g_sect g_freeblock g_freeinode]; rewrite ?Eoff; try done; [lia|lia|lia| |].
  { replace (off + n1 + (n - n1)) with (off + n) by lia. lia. }
  rewrite Eoff in E, S3. cbn [g_sect g_freeblock g_freeinode] in E, S3, M3. replace (off + n1 + (n - n1)) with (off + n) in E, S3 by lia.
  replace (fb1 + (nb (off + n) - nb (off + n1))) with (g_freeblock g + (nb (off + n) - nb off)) in E, S3 by lia.
  rewrite fn_lookup_insert in E, A3. rewrite fn_lookup_insert, !fn_insert_insert, <-app_assoc in S3.
  assert (El : l ++ ld_bytes p (s + n1) (n - n1) = ld_bytes p s n) by (unfold l; rewrite <-ld_bytes_split by lia; f_equal; lia).
  rewrite El in S3. exists V, r. split_and!; [|done| |exists f3; rewrite A3, A1; by destruct (R i)].
  - unfold rsect. rewrite (proj2 (Z.ltb_lt _ _)) by lia. unfold wsect. msteps. exact E.
  - intros b Hb. rewrite M3 by done. rewrite fn_lookup_insert_ne by lia. by apply M1.
Qed.

(** ** The inode table *)

(** Inode [i] as the kernel's ilock would load it. *)
Definition inode_at (V : Z → bytes) (i : Z) : inode := load_dinode (V (IBLOCK i mk_sb)) (dinode_at i) no_dinode.

(** The inodes of the file system, of which the first [n - 1] are in use. *)
Definition table (V : Z → bytes) (n i : Z) : inode := if (1 <=? i) && (i <? n) then inode_at V i else no_dinode.

Lemma iblock_range i : 0 ≤ i < NINODES → IBLOCK i mk_sb = i / 16 + 32 ∧ 32 ≤ IBLOCK i mk_sb < 45.
Proof.
  intros Hi. unfold IBLOCK. change (sb_inodestart mk_sb) with 32. change IPB with 16. unfold NINODES in Hi.
  pose proof (Z.div_pos i 16). pose proof (Z.div_lt_upper_bound i 16 13). rewrite u32_small by lia. lia.
Qed.

Lemma dinode_apart i j : 0 ≤ i → 0 ≤ j → i ≠ j → i / 16 = j / 16 →
  dinode_at i + sizeof_dinode ≤ dinode_at j ∨ dinode_at j + sizeof_dinode ≤ dinode_at i.
Proof.
  intros Hi Hj Hne E. unfold dinode_at. change IPB with 16. change sizeof_dinode with 64.
  pose proof (Z.div_mod i 16 ltac:(lia)). pose proof (Z.div_mod j 16 ltac:(lia)). lia.
Qed.

Lemma load_dinode_apart ip d o o' jp :
  o + sizeof_dinode ≤ o' ∨ o' + sizeof_dinode ≤ o → load_dinode (store_dinode ip d o) o' jp = load_dinode d o' jp.
Proof.
  intros Ho. change sizeof_dinode with 64 in Ho. unfold load_dinode, ld16, ld32. rewrite !store_dinode_ld by (change sizeof_dinode with 64; lia). f_equal.
  extensionality k. destruct ((0 <=? k) && (k <=? NDIRECT)) eqn:E; [|done]. unfold NDIRECT in E.
  apply store_dinode_ld. change sizeof_dinode with 64. lia.
Qed.

Lemma winode_run env g i ip :
  0 ≤ i < NINODES →
  winode i ip env g = Ret tt env (set_sect (<[IBLOCK i mk_sb := store_dinode ip (g_sect g (IBLOCK i mk_sb)) (dinode_at i)]> (g_sect g)) g).
Proof.
  intros Hi. destruct (iblock_range i Hi) as [_ Hb]. unfold winode, rsect. change FSSIZE with 1000. rewrite (proj2 (Z.ltb_lt _ _)) by lia. mstep. done.
Qed.

Lemma rinode_run env g i : 0 ≤ i < NINODES → rinode i env g = Ret (inode_at (g_sect g) i) env g.
Proof.
  intros Hi. destruct (iblock_range i Hi) as [_ Hb]. unfold rinode, rsect. change FSSIZE with 1000. rewrite (proj2 (Z.ltb_lt _ _)) by lia. mstep. done.
Qed.

Lemma inode_at_write V i ip j : 0 ≤ i < NINODES → 0 ≤ j < NINODES →
  let V' := <[IBLOCK i mk_sb := store_dinode ip (V (IBLOCK i mk_sb)) (dinode_at i)]> V in
  (j = i → dinode_fits ip → same_dinode (inode_at V' j) ip) ∧ (j ≠ i → inode_at V' j = inode_at V j).
Proof.
  intros Hi Hj V'. split; intros E; unfold inode_at, V'.
  - subst j. rewrite fn_lookup_insert. apply load_store_dinode.
  - rewrite fn_lookup_insert_if. case_decide as Eb; [|done]. rewrite <-Eb. apply load_dinode_apart.
    destruct (iblock_range i Hi) as [Ei _], (iblock_range j Hj) as [Ej _]. apply dinode_apart; lia.
Qed.

(** ** The file system while it is being built *)

Definition itype (i : Z) : Z := if i =? ROOTINO then T_DIR else T_FILE.

Record fsinv (g : image) (n : Z) (C : Z → list Z) (fb : Z) : Prop := {
  fi_n : 1 ≤ n ≤ NINODES;
  fi_next : g_freeinode g = n;
  fi_fb : g_freeblock g = fb;
  fi_store : store (g_sect g) fb (table (g_sect g) n) (used_by C) C;
  fi_node i : 1 ≤ i < n → let r := inode_at (g_sect g) i in
    i_type r = itype i ∧ i_nlink r = 1 ∧ i_major r = 0 ∧ i_minor r = 0 ∧ i_size r = len (C i);
  fi_max i : len (C i) ≤ MAXFILE * BSIZE;
  fi_boot : g_sect g 0 = zeroes;
  fi_sb : g_sect g 1 = store_sb mk_sb zeroes;
  fi_free i : n ≤ i < NINODES → i_type (inode_at (g_sect g) i) = 0
}.

Lemma slot_of_addr V fb R U C i k : store V fb R U C → 0 ≤ k ≤ NDIRECT → 0 ≤ i_addrs (R i) k < FSSIZE.
Proof.
  intros Hst Hk. pose proof (s_bound _ _ _ _ _ Hst) as Hb. change nmeta with 46 in Hb.
  assert (Hs : ∃ s, reach U i s ∧ slot V (R i) s = i_addrs (R i) k).
  { destruct (decide (k = NDIRECT)) as [->|Hne]; [exists (-1); split; [by left|done]|].
    exists k. split; [right; left; lia|apply slot_direct; lia]. }
  destruct Hs as (s & Hr & <-). destruct (U i s) eqn:Hu.
  - pose proof (s_used _ _ _ _ _ Hst i s Hu). change nmeta with 46 in *. lia.
  - rewrite (s_free _ _ _ _ _ Hst i s Hu Hr). done.
Qed.

Lemma iappend_fs env g n C fb i p m :
  fsinv g n C fb → 1 ≤ i < n → 0 ≤ m → len (C i) + m ≤ MAXFILE * BSIZE →
  let fb' := fb + (nb (len (C i) + m) - nb (len (C i))) in fb' ≤ FSSIZE →
  ∃ g', iappend i p m env g = Ret tt env g' ∧ fsinv g' n (<[i := C i ++ ld_bytes p 0 m]> C) fb'.
Proof.
  intros [N1 N2 N3 S1 D1 M1 O1 B1 F1] Hi Hm Hmax fb' Hfb. unfold iappend. assert (HiN : 0 ≤ i < NINODES) by lia.
  rewrite (bind_Ret _ _ _ _ _ _ _ (rinode_run env g i HiN)). destruct (D1 i Hi) as (T & L & Ma & Mi & Sz).
  assert (HM : len (C i) + m < 2 ^ 32) by (change (MAXFILE * BSIZE) with 274432 in Hmax; lia). assert (H0 : 0 ≤ len (C i)) by (unfold len; lia).
  rewrite Sz, xint_small by lia. assert (Et : table (g_sect g) n i = inode_at (g_sect g) i) by (unfold table; by rewrite (proj2 (andb_true_iff _ _)) by lia).
  destruct (iappend_loop_run (S (Z.to_nat m)) env g (table (g_sect g) n) C i p 0 m) as (V & r & E & S2 & M2 & f & A); [by rewrite N3|done|done|lia|by rewrite N3|].
  rewrite Et, N3 in E. rewrite N3 in S2. fold fb' in E, S2. rewrite (bind_Ret _ _ _ _ _ _ _ E). cbn [fst snd]. rewrite xint_small by lia.
  set (ip := set_i_size (len (C i) + m) r). rewrite winode_run by done. cbn [g_sect]. rewrite Et in A.
  assert (Hfits : dinode_fits ip).
  { split; unfold ip; rewrite A; cbn -[inode_at]; rewrite ?T, ?L, ?Ma, ?Mi; try done; [unfold itype; case_match; done|lia|].
    intros k Hk. pose proof (slot_of_addr _ _ _ _ _ i k S2 Hk) as Hr. rewrite fn_lookup_insert, A in Hr. cbn in Hr. change FSSIZE with 1000 in Hr. lia. }
  set (V' := <[_ := _]> V). assert (Hbi : ∀ j, 1 ≤ j < NINODES → IBLOCK j mk_sb < nmeta ∧ 0 ≤ j < NINODES).
  { intros j Hj. destruct (iblock_range j ltac:(lia)) as [_ Hb]. change nmeta with 46. lia. }
  assert (Hself : same_dinode (inode_at V' i) ip) by (by apply inode_at_write).
  assert (Hother : ∀ j, 1 ≤ j < NINODES → j ≠ i → inode_at V' j = inode_at (g_sect g) j).
  { intros j Hj Hne. destruct (Hbi j ltac:(lia)) as [Hb HjN]. transitivity (inode_at V j); [by apply inode_at_write|]. unfold inode_at. by rewrite M2. }
  eexists. split; [done|]. split; cbn [set_sect g_sect g_freeinode g_freeblock]; try done.
  - eapply (store_inodes _ _ (<[i := r]> (table (g_sect g) n))).
    + apply (store_meta V); [done|]. intros b Hb. unfold V'. apply fn_lookup_insert_ne. pose proof (Hbi i ltac:(lia)). lia.
    + intros j k Hk. unfold table at 1. rewrite fn_lookup_insert_if. destruct ((1 <=? j) && (j <? n)) eqn:Ej.
      * case_decide as E1; [subst j; by apply Hself|]. unfold table. rewrite Ej. by rewrite Hother by (lia || done).
      * rewrite decide_False by lia. unfold table. by rewrite Ej.
  - intros j Hj. rewrite fn_lookup_insert_if. case_decide as E1.
    + subst j. destruct Hself as (H1 & H2 & H3 & H4 & H5 & _). rewrite H1, H2, H3, H4, H5. unfold ip. rewrite A. cbn -[inode_at].
      rewrite T, L, Ma, Mi. split_and!; try done. unfold len. rewrite length_app, ld_bytes_length. unfold len in *. lia.
    + rewrite Hother by (lia || done). by apply D1.
  - intros j. rewrite fn_lookup_insert_if. case_decide; [|done]. unfold len in *. rewrite length_app, ld_bytes_length. lia.
  - unfold V'. rewrite fn_lookup_insert_ne by (destruct (iblock_range i HiN); lia). by rewrite M2.
  - unfold V'. rewrite fn_lookup_insert_ne by (destruct (iblock_range i HiN); lia). by rewrite M2.
  - intros j Hj. rewrite Hother by lia. by apply F1.
Qed.

Lemma ialloc_fs env g n C fb type :
  fsinv g n C fb → n < NINODES → C n = [] → type = itype n →
  ∃ g', mk_ialloc type env g = Ret n env g' ∧ fsinv g' (n + 1) C fb.
Proof.
  intros [N1 N2 N3 S1 D1 M1 O1 B1 F1] Hn HC ->. assert (HnN : 0 ≤ n < NINODES) by lia. unfold NINODES in Hn, N1.
  set (ip := set_i_size 0 (set_i_nlink 1 (set_i_type (itype n) no_dinode))).
  set (V' := <[IBLOCK n mk_sb := store_dinode ip (g_sect g (IBLOCK n mk_sb)) (dinode_at n)]> (g_sect g)).
  assert (E : mk_ialloc (itype n) env g = Ret n env (set_sect V' (set_freeinode (n + 1) g))).
  { unfold mk_ialloc. mstep. rewrite N2. mstep. rewrite u32_small, (xshort_small 1), xint_small by lia.
    rewrite xshort_small by (unfold itype; by case_match). by rewrite (bind_Ret _ _ _ _ _ _ _ (winode_run _ _ _ _ HnN)). }
  assert (Hfits : dinode_fits ip) by (split; unfold ip; cbn; try done; unfold itype; case_match; done).
  assert (Hself : same_dinode (inode_at V' n) ip) by (by apply inode_at_write).
  assert (Hother : ∀ j, 1 ≤ j < NINODES → j ≠ n → inode_at V' j = inode_at (g_sect g) j).
  { intros j Hj Hne. apply inode_at_write; [done|lia|done]. }
  eexists. split; [exact E|]. split; cbn [set_sect set_freeinode g_sect g_freeinode g_freeblock]; try done.
  - unfold NINODES. lia.
  - eapply (store_inodes _ _ (table (g_sect g) n)).
    + apply (store_meta (g_sect g)); [done|]. intros b Hb. unfold V'. apply fn_lookup_insert_ne. destruct (iblock_range n HnN). change nmeta with 46 in Hb. lia.
    + intros j k Hk. unfold table. destruct (decide (j = n)) as [->|Hne].
      * replace ((1 <=? n) && (n <? n + 1)) with true by lia. replace ((1 <=? n) && (n <? n)) with false by lia. by apply Hself.
      * replace ((1 <=? j) && (j <? n + 1)) with ((1 <=? j) && (j <? n)) by lia. destruct ((1 <=? j) && (j <? n)) eqn:Ej; [|done]. by rewrite Hother by (unfold NINODES; lia).
  - intros j Hj. destruct (decide (j = n)) as [->|Hne].
    + destruct Hself as (H1 & H2 & H3 & H4 & H5 & _). rewrite H1, H2, H3, H4, H5. unfold ip. cbn. rewrite HC. done.
    + rewrite Hother by (unfold NINODES; lia). apply D1. lia.
  - unfold V'. by rewrite fn_lookup_insert_ne by (destruct (iblock_range n HnN); lia).
  - unfold V'. by rewrite fn_lookup_insert_ne by (destruct (iblock_range n HnN); lia).
  - intros j Hj. rewrite Hother by lia. apply F1. lia.
Qed.

Lemma string_bytes_ld l : ld_bytes (string_bytes l) 0 (len l) = l.
Proof.
  apply list_eq. intros i. unfold ld_bytes, len. rewrite list_lookup_fmap. destruct (decide (i < length l)%nat) as [Hi|Hi].
  - rewrite lookup_seqZ_lt by lia. cbn. unfold string_bytes. rewrite (proj2 (Z.ltb_ge _ _)) by lia. rewrite Z.add_0_l, Nat2Z.id.
    destruct (lookup_lt_is_Some_2 l i Hi) as [x ->]. done.
  - rewrite lookup_seqZ_ge by lia. symmetry. apply lookup_ge_None. lia.
Qed.

Lemma append_chunks env g n C fb i chunks :
  fsinv g n C fb → 1 ≤ i < n → len (C i ++ mjoin chunks) ≤ MAXFILE * BSIZE →
  let fb' := fb + (nb (len (C i ++ mjoin chunks)) - nb (len (C i))) in fb' ≤ FSSIZE →
  ∃ g', for_each chunks (λ buf, iappend i (string_bytes buf) (Z.of_nat (length buf))) env g = Ret tt env g' ∧
    fsinv g' n (<[i := C i ++ mjoin chunks]> C) fb'.
Proof.
  revert g C fb. induction chunks as [|c chunks IH]; intros g C fb HI Hi Hmax fb' Hfb; unfold fb' in *; clear fb'; cbn [for_each].
  - exists g. change (mjoin []) with (@nil Z). rewrite app_nil_r, fn_insert_id, Z.sub_diag, Z.add_0_r. done.
  - change (mjoin (c :: chunks)) with (c ++ mjoin chunks) in *.
    assert (Hl : ∀ a b, len (a ++ b) = len a + len b) by (intros; unfold len; rewrite length_app; lia).
    set (J := mjoin chunks) in *. rewrite !Hl in *. assert (0 ≤ len (C i) ∧ 0 ≤ len c ∧ 0 ≤ len J) by (unfold len; lia).
    pose proof (nb_mono (len (C i) + len c) (len (C i) + (len c + len J)) ltac:(lia)).
    destruct (iappend_fs env g n C fb i (string_bytes c) (len c)) as (g1 & E1 & HI1); try done; [lia..|].
    rewrite string_bytes_ld in HI1. unfold len at 1 in E1. rewrite (bind_Ret _ _ _ _ _ _ _ E1).
    assert (Ea : len (C i) + len c + len J = len (C i) + (len c + len J)) by lia.
    destruct (IH g1 _ _ HI1 Hi) as (g2 & E2 & HI2).
    + rewrite fn_lookup_insert, !Hl. lia.
    + rewrite fn_lookup_insert, !Hl, Ea. lia.
    + exists g2. split; [done|]. rewrite fn_lookup_insert, fn_insert_insert, !Hl, Ea, <-app_assoc in HI2.
      match goal with H : fsinv _ _ _ ?a |- fsinv _ _ _ ?b => replace b with a; [done|lia] end.
Qed.

(** ** The files *)

Definition file_name (arg : list Z) : list Z := skip_underscore (shorten arg).
Definition dir_bytes (inum : Z) (name : list Z) : list Z := ld_bytes (mk_dirent inum name) 0 sizeof_dirent.

(** The names in the root directory with their inode numbers. *)
Definition entries (files : list (list Z * list (list Z))) : list (list Z * Z) :=
  [([period], ROOTINO); ([period; period], ROOTINO)] ++ imap (λ k f, (file_name f.1, Z.of_nat k + 2)) files.

(** The contents of the root directory and of the files. *)
Definition root_dir (files : list (list Z * list (list Z))) : list Z := mjoin ((λ e, dir_bytes e.2 e.1) <$> entries files).

Definition body (f : list Z * list (list Z)) : list Z := mjoin f.2.

Definition contents (files : list (list Z * list (list Z))) (i : Z) : list Z :=
  if i =? ROOTINO then root_dir files
  else if i <? 2 then [] else from_option body [] (files !! Z.to_nat (i - 2)).

(** The first free block. *)
Definition used_blocks (files : list (list Z * list (list Z))) : Z :=
  nmeta + nb (len (root_dir files)) + foldr (λ f n, nb (len (body f)) + n) 0 files.

Lemma nb_pos n : 0 ≤ n → 0 ≤ nb n.
Proof. intros Hn. pose proof (nb_mono 0 n Hn). done. Qed.

Lemma dir_bytes_len inum name : len (dir_bytes inum name) = 16.
Proof. unfold dir_bytes. by rewrite len_ld_bytes. Qed.

Lemma entries_snoc files f : entries (files ++ [f]) = entries files ++ [(file_name f.1, Z.of_nat (length files) + 2)].
Proof. unfold entries. rewrite imap_app. cbn. by rewrite Nat.add_0_r. Qed.

Lemma root_dir_snoc files f : root_dir (files ++ [f]) = root_dir files ++ dir_bytes (Z.of_nat (length files) + 2) (file_name f.1).
Proof. unfold root_dir. rewrite entries_snoc, fmap_app, join_app. cbn. by rewrite app_nil_r. Qed.

Lemma join_dirs_len l : len (mjoin ((λ e, dir_bytes e.2 e.1) <$> l)) = 16 * Z.of_nat (length l).
Proof.
  induction l as [|[name inum] l IH]; [done|]. cbn [fmap list_fmap length]. change (mjoin (?a :: ?b)) with (a ++ mjoin b).
  pose proof (dir_bytes_len inum name) as H. unfold len in *. rewrite length_app. cbn [fst snd] in *. lia.
Qed.

Lemma entries_len files : length (entries files) = (2 + length files)%nat.
Proof. unfold entries. rewrite length_app, length_imap. done. Qed.

Lemma root_dir_len files : len (root_dir files) = 16 * (2 + Z.of_nat (length files)).
Proof. unfold root_dir. rewrite join_dirs_len, entries_len. lia. Qed.

Lemma used_blocks_snoc files f : used_blocks (files ++ [f]) = used_blocks files + (nb (len (root_dir (files ++ [f]))) - nb (len (root_dir files))) + nb (len (body f)).
Proof.
  unfold used_blocks. rewrite foldr_app. cbn.
  assert (H : ∀ n, foldr (λ f n, nb (len (body f)) + n) n files = foldr (λ f n, nb (len (body f)) + n) 0 files + n).
  { intros n. induction files as [|x files IH]; cbn; [lia|]. rewrite IH. lia. }
  rewrite H. lia.
Qed.

Lemma contents_root files : contents files ROOTINO = root_dir files.
Proof. done. Qed.

Lemma contents_file files k : contents files (Z.of_nat k + 2) = from_option body [] (files !! k).
Proof.
  unfold contents. rewrite (proj2 (Z.eqb_neq _ _)), (proj2 (Z.ltb_ge _ _)) by (unfold ROOTINO; lia). by rewrite Z.add_simpl_r, Nat2Z.id.
Qed.

Lemma contents_snoc files f :
  let n := Z.of_nat (length files) + 2 in
  contents (files ++ [f]) = <[n := body f]> (<[ROOTINO := contents files ROOTINO ++ dir_bytes n (file_name f.1)]> (contents files)).
Proof.
  intros n. extensionality i. rewrite !fn_lookup_insert_if, contents_root. unfold contents, ROOTINO, n. case_decide as E.
  - subst i. rewrite (proj2 (Z.eqb_neq _ _)), (proj2 (Z.ltb_ge _ _)) by lia. rewrite Z.add_simpl_r, Nat2Z.id. by rewrite list_lookup_middle.
  - case_decide as E1; [subst i; apply root_dir_snoc|]. rewrite (proj2 (Z.eqb_neq _ _)) by done. destruct (Z.ltb_spec i 2); [done|].
    destruct (decide (Z.to_nat (i - 2) < length files)%nat).
    + by rewrite lookup_app_l.
    + rewrite !lookup_ge_None_2; [done|lia|rewrite length_app; cbn; lia].
Qed.

Lemma used_blocks_mono files f : used_blocks files ≤ used_blocks files + (nb (len (root_dir (files ++ [f]))) - nb (len (root_dir files))) ≤ used_blocks (files ++ [f]).
Proof.
  pose proof (used_blocks_snoc files f) as E. rewrite (root_dir_len files), (root_dir_len (files ++ [f])), length_app in *.
  pose proof (nb_mono (16 * (2 + Z.of_nat (length files))) (16 * (2 + Z.of_nat (length files + length [f]))) ltac:(cbn; lia)).
  pose proof (nb_pos (len (body f)) ltac:(unfold len; lia)). lia.
Qed.

(** A file that mkfs takes. *)
Definition ok_file (f : list Z * list (list Z)) : Prop := slash ∉ shorten f.1 ∧ len (body f) ≤ MAXFILE * BSIZE.

Lemma add_file_fs env g seen f :
  let n := Z.of_nat (length seen) + 2 in
  fsinv g n (contents seen) (used_blocks seen) → n < NINODES → ok_file f → used_blocks (seen ++ [f]) ≤ FSSIZE →
  ∃ g', add_file ROOTINO f env g = Ret tt env g' ∧ fsinv g' (n + 1) (contents (seen ++ [f])) (used_blocks (seen ++ [f])).
Proof.
  intros n HI Hn [Hs Hb] Hf. unfold add_file. rewrite bool_decide_eq_false_2 by done. pose proof (used_blocks_mono seen f) as Hm.
  assert (Cn : contents seen n = []) by (unfold n; rewrite contents_file, lookup_ge_None_2; done).
  destruct (ialloc_fs env g n _ _ T_FILE HI) as (g1 & E1 & HI1); [done|done| |].
  { unfold itype. by rewrite (proj2 (Z.eqb_neq _ _)) by (unfold n, ROOTINO; lia). }
  rewrite (bind_Ret _ _ _ _ _ _ _ E1).
  assert (El : len (root_dir (seen ++ [f])) = len (contents seen ROOTINO) + 16).
  { rewrite contents_root, root_dir_snoc. unfold len at 1. rewrite length_app, Nat2Z.inj_add. fold (len (root_dir seen)).
    fold (len (dir_bytes (Z.of_nat (length seen) + 2) (file_name f.1))). by rewrite dir_bytes_len. }
  pose proof (root_dir_len seen) as Hrl. unfold NINODES, n in Hn.
  destruct (iappend_fs env g1 (n + 1) _ _ ROOTINO (mk_dirent n (file_name f.1)) sizeof_dirent HI1) as (g2 & E2 & HI2).
  { unfold n, ROOTINO. lia. } { done. }
  { rewrite contents_root. change (MAXFILE * BSIZE) with 274432. change sizeof_dirent with 16. lia. }
  { change sizeof_dirent with 16. rewrite <-El, contents_root. lia. }
  rewrite (bind_Ret _ _ _ _ _ _ _ E2). change sizeof_dirent with 16 in HI2. rewrite <-El, contents_root in HI2.
  destruct (append_chunks env g2 (n + 1) _ _ n f.2 HI2) as (g3 & E3 & HI3); rewrite ?(fn_lookup_insert_ne _ ROOTINO n), ?Cn by (unfold n, ROOTINO; lia).
  { unfold n. lia. } { done. }
  { pose proof (used_blocks_snoc seen f) as Es. change (len []) with 0. change (nb 0) with 0. cbn [app]. fold (body f). lia. }
  exists g3. split; [exact E3|]. rewrite contents_snoc, used_blocks_snoc. rewrite (fn_lookup_insert_ne _ ROOTINO n), Cn in HI3 by (unfold n, ROOTINO; lia).
  change (len []) with 0 in HI3. change (nb 0) with 0 in HI3. rewrite Z.sub_0_r in HI3. exact HI3.
Qed.

Lemma add_files_fs env g seen files :
  let n := Z.of_nat (length seen) + 2 in
  fsinv g n (contents seen) (used_blocks seen) → n + Z.of_nat (length files) ≤ NINODES → Forall ok_file files →
  used_blocks (seen ++ files) ≤ FSSIZE →
  ∃ g', for_each files (add_file ROOTINO) env g = Ret tt env g' ∧
    fsinv g' (n + Z.of_nat (length files)) (contents (seen ++ files)) (used_blocks (seen ++ files)).
Proof.
  revert g seen. induction files as [|f files IH]; intros g seen n HI Hn Hok Hf; cbn [for_each].
  - exists g. rewrite app_nil_r. split; [done|]. cbn. by rewrite Z.add_0_r.
  - apply Forall_cons in Hok as [Hf1 Hfs]. cbn [length] in Hn |- *. rewrite cons_middle, app_assoc in Hf |- *.
    assert (Hle : used_blocks (seen ++ [f]) ≤ used_blocks ((seen ++ [f]) ++ files)).
    { clear. generalize (seen ++ [f]). intros l. induction files as [|x fs IH] using rev_ind; [rewrite app_nil_r; lia|].
      rewrite app_assoc. pose proof (used_blocks_mono (l ++ fs) x). lia. }
    destruct (add_file_fs env g seen f HI) as (g1 & E1 & HI1); [fold n; lia|done|lia|]. rewrite (bind_Ret _ _ _ _ _ _ _ E1).
    assert (Ell : Z.of_nat (length (seen ++ [f])) + 2 = n + 1) by (rewrite length_app; cbn; unfold n; lia).
    destruct (IH g1 (seen ++ [f])) as (g2 & E2 & HI2); rewrite ?Ell; [done|lia|done|done|].
    exists g2. split; [done|]. rewrite Ell in HI2. by replace (n + Z.of_nat (S (length files))) with (n + 1 + Z.of_nat (length files)) by lia.
Qed.

(** ** The image before and after the files *)

Lemma zero_run env l d fi fb :
  for_each l (λ i, wsect i zeroes) env (mkImage d fi fb) = Ret tt env (mkImage (λ i, if bool_decide (i ∈ l) then zeroes else d i) fi fb).
Proof.
  revert d. induction l as [|a l IH]; intros d; cbn [for_each].
  - cbn. repeat f_equal.
  - unfold wsect at 1. mstep. unfold set_sect. cbn [g_sect g_freeinode g_freeblock]. rewrite IH. repeat f_equal.
    extensionality i. rewrite fn_lookup_insert_if. case_bool_decide as E1; case_bool_decide as E2; try case_decide; try done; subst; set_solver.
Qed.

Lemma start_fs d :
  fsinv (mkImage (<[1 := store_sb mk_sb zeroes]> (λ i, if bool_decide (i ∈ seqZ 0 FSSIZE) then zeroes else d i)) 1 nmeta) 1 (λ _, []) nmeta.
Proof.
  set (V := <[1 := _]> _). assert (HV : ∀ i, i ≠ 1 → 0 ≤ i < FSSIZE → V i = zeroes).
  { intros i Hi Hr. unfold V. rewrite fn_lookup_insert_ne by lia. rewrite bool_decide_eq_true_2; [done|]. by apply elem_of_seqZ. }
  assert (Hu : ∀ i s, used_by (λ _, []) i s = false).
  { intros i s. apply bool_decide_eq_false. change (len []) with 0. unfold BSIZE, NDIRECT. lia. }
  split; cbn [g_sect g_freeinode g_freeblock]; try done.
  - split; try (intros i s *; by rewrite Hu).
    + done.
    + intros b Hb. change nmeta with 46 in Hb. apply HV; lia.
    + intros i s _ [->|[Hs|[_ Hs]]]; [| |by rewrite Hu in Hs]; unfold table.
      * case_match eqn:E; [lia|done].
      * case_match eqn:E; [lia|]. by rewrite slot_direct.
  - intros i Hi. lia.
  - intros i Hi. destruct (iblock_range i ltac:(lia)) as [_ Hb]. unfold inode_at. rewrite HV by (change FSSIZE with 1000; lia).
    unfold load_dinode. cbn [i_type]. unfold ld16. by rewrite ld_zero.
Qed.


Lemma mkfs_files_run env d files :
  Z.of_nat (length files) + 2 ≤ NINODES → Forall ok_file files → used_blocks files ≤ FSSIZE →
  ∃ g, mkfs files env (start_image d) = mkfs_end ROOTINO env g ∧ fsinv g (Z.of_nat (length files) + 2) (contents files) (used_blocks files).
Proof.
  intros Hn Hok Hf. pose proof (start_fs d) as HI. set (g0 := mkImage _ _ _) in HI.
  destruct (ialloc_fs env g0 1 _ _ T_DIR HI) as (g1 & E1 & HI1); try done.
  destruct (iappend_fs env g1 2 _ _ ROOTINO (mk_dirent 1 [period]) sizeof_dirent HI1) as (g2 & E2 & HI2); try done.
  destruct (iappend_fs env g2 2 _ _ ROOTINO (mk_dirent 1 [period; period]) sizeof_dirent HI2) as (g3 & E3 & HI3); try done.
  rewrite fn_lookup_insert, fn_insert_insert in HI3. cbn [app] in HI3.
  destruct (add_files_fs env g3 [] files) as (g4 & E4 & HI4); [|cbn [length]; lia|done|done|].
  - match goal with H : fsinv g3 2 ?C ?f |- _ => assert (contents [] = C) as ->; [|exact H] end.
    extensionality i. rewrite fn_lookup_insert_if. unfold contents. case_decide as E; [by subst i|].
    rewrite (proj2 (Z.eqb_neq _ _)) by done. by destruct (i <? 2).
  - exists g4. split; [|cbn [app length] in HI4; by replace (Z.of_nat (length files) + 2) with (Z.of_nat 0 + 2 + Z.of_nat (length files)) by lia].
    unfold mkfs, start_image. mstep. unfold set_freeblock at 1. cbn [g_sect g_freeinode].
    rewrite (bind_Ret _ _ _ _ _ _ _ (zero_run env (seqZ 0 FSSIZE) d 1 nmeta)). unfold wsect at 1. mstep.
    unfold set_sect at 1. cbn [g_sect g_freeinode g_freeblock]. fold g0. change ROOTINO with 1 in *.
    rewrite (bind_Ret _ _ _ _ _ _ _ E1). change (negb (1 =? 1)) with false. cbn iota.
    by rewrite (bind_Ret _ _ _ _ _ _ _ E2), (bind_Ret _ _ _ _ _ _ _ E3), (bind_Ret _ _ _ _ _ _ _ E4).
Qed.

Lemma set_bits d l j : Forall (λ i, 0 ≤ i) l → 0 ≤ j → bit_at (foldl set_bit d l) j = bool_decide (j ∈ l) || bit_at d j.
Proof.
  intros Hl Hj. revert d. induction Hl as [|i l Hi Hl IH]; intros d; cbn [foldl].
  - by rewrite bool_decide_eq_false_2 by set_solver.
  - rewrite IH, set_bit_at by done. destruct (decide (j = i)) as [->|Hne].
    + by rewrite (bool_decide_eq_true_2 (i = i)), (bool_decide_eq_true_2 (i ∈ i :: l)), orb_true_r by set_solver.
    + rewrite (bool_decide_eq_false_2 (i = j)) by done. cbn. f_equal. apply bool_decide_ext. set_solver.
Qed.

(** ** Files and directories of the image *)

(** A byte of file [i], or zero past its end. *)
Lemma store_byte V fb R C i o :
  store V fb R (used_by C) C → V 0 = zeroes → 0 ≤ o → o < len (C i) ∨ o < NDIRECT * BSIZE →
  file_byte V (R i) o = default 0 (C i !! Z.to_nat o).
Proof.
  intros Hst H0 Ho Hr. unfold file_byte. pose proof (Z.div_mod o BSIZE ltac:(done)) as E. pose proof (Z.mod_pos_bound o BSIZE ltac:(done)) as Hm.
  assert (Hd : 0 ≤ o / BSIZE) by (apply Z.div_pos; [done|lia]). set (s := o / BSIZE) in *.
  replace (block_of V (R i) s) with (slot V (R i) s) by (unfold slot; by rewrite (proj2 (Z.eqb_neq _ _)) by lia).
  destruct (used_by C i s) eqn:Hu.
  - rewrite (s_data _ _ _ _ _ Hst) by done. do 2 f_equal. lia.
  - apply bool_decide_eq_false in Hu. change BSIZE with 1024 in *. change NDIRECT with 12 in *.
    rewrite (s_free _ _ _ _ _ Hst), H0; [|apply bool_decide_eq_false; change BSIZE with 1024; change NDIRECT with 12; lia|right; left; change NDIRECT with 12; lia].
    rewrite lookup_ge_None_2; [done|]. unfold len in Hu. lia.
Qed.

Lemma store_bytes V fb R C i :
  store V fb R (used_by C) C → V 0 = zeroes → file_bytes V (R i) 0 (len (C i)) = C i.
Proof.
  intros Hst H0. apply list_eq. intros k. unfold file_bytes. rewrite list_lookup_fmap. destruct (decide (k < length (C i))%nat) as [Hk|Hk].
  - unfold len. rewrite lookup_seqZ_lt by lia. cbn [fmap option_fmap option_map]. rewrite (store_byte _ _ _ _ _ _ Hst) by (done || unfold len; lia).
    destruct (lookup_lt_is_Some_2 (C i) k Hk) as [x Hx]. replace (Z.to_nat (0 + (0 + Z.of_nat k))) with k by lia. by rewrite Hx.
  - unfold len. rewrite lookup_seqZ_ge by lia. rewrite lookup_ge_None_2 by lia. done.
Qed.

Lemma join_dirs_at l k x :
  0 ≤ x < 16 → mjoin ((λ e, dir_bytes e.2 e.1) <$> l) !! Z.to_nat (Z.of_nat k * 16 + x) = (λ e, mk_dirent e.2 e.1 x) <$> l !! k.
Proof.
  intros Hx. revert k. induction l as [|[name inum] l IH]; intros k; cbn [fmap list_fmap]; [done|].
  change (mjoin (?a :: ?b)) with (a ++ mjoin b). cbn [fst snd]. pose proof (dir_bytes_len inum name) as Hl. unfold len in Hl. destruct k as [|k].
  - rewrite lookup_app_l by lia. unfold dir_bytes, ld_bytes. rewrite list_lookup_fmap. change sizeof_dirent with 16. rewrite lookup_seqZ_lt by lia. cbn. do 2 f_equal. lia.
  - rewrite lookup_app_r by lia. replace (Z.to_nat (Z.of_nat (S k) * 16 + x) - length (dir_bytes inum name))%nat with (Z.to_nat (Z.of_nat k * 16 + x)) by lia.
    apply IH.
Qed.

Lemma mk_dirent_inum inum name : 0 ≤ inum < 2 ^ 16 → de_inum (mk_dirent inum name) = inum.
Proof.
  intros Hi. unfold de_inum, mk_dirent, ld16, st16. rewrite ld_st_eq by lia. rewrite xshort_small by done. by apply Z.mod_small.
Qed.

Lemma mk_dirent_name inum name q : same_name q (de_name (mk_dirent inum name)) = same_name q (string_bytes name).
Proof.
  apply same_name_cong. unfold same_name. apply bool_decide_eq_true. apply cstr_shift. intros x Hx. change (Z.of_nat (Z.to_nat DIRSIZ)) with 14 in Hx.
  unfold de_name, mk_dirent, st16. rewrite st_out by lia. change sizeof_dirent with 16.
  replace ((2 <=? 0 + x + 2) && (0 + x + 2 <? 16)) with true by lia. f_equal. lia.
Qed.

(** Searching a list by index. *)
Lemma find_by_index {A B} (l : list A) (Q : A → bool) (P : Z → bool) (f : A → B) (h : Z → B) a m :
  Z.of_nat (length l) ≤ m → (∀ k, (k < Z.to_nat m)%nat → P (a + Z.of_nat k) = from_option Q false (l !! k)) →
  (∀ k e, l !! k = Some e → h (a + Z.of_nat k) = f e) → h <$> List.find P (seqZ a m) = f <$> List.find Q l.
Proof.
  revert a m. induction l as [|e l IH]; intros a m Hm HP Hh.
  - destruct (List.find P (seqZ a m)) as [i|] eqn:E; [|done]. apply find_in in E as [[Ha Hb]%elem_of_seqZ HPi].
    specialize (HP (Z.to_nat (i - a)) ltac:(lia)). rewrite Z2Nat.id in HP by lia. replace (a + (i - a)) with i in HP by lia. rewrite HP in HPi. done.
  - cbn [length] in Hm. rewrite seqZ_cons by lia. cbn [List.find].
    pose proof (HP O ltac:(lia)) as H0. pose proof (Hh O e eq_refl) as H1. rewrite Z.add_0_r in H0, H1. rewrite H0. cbn [lookup list_lookup from_option].
    destruct (Q e); [cbn; by rewrite H1|]. apply IH; [lia|..].
    + intros k Hk. specialize (HP (S k) ltac:(lia)). replace (Z.succ a + Z.of_nat k) with (a + Z.of_nat (S k)) by lia. done.
    + intros k x Hk. specialize (Hh (S k) x Hk). replace (Z.succ a + Z.of_nat k) with (a + Z.of_nat (S k)) by lia. done.
Qed.

Lemma find_fmap {A B} (f : A → B) (P : B → bool) l : List.find P (f <$> l) = f <$> List.find (P ∘ f) l.
Proof. induction l as [|x l IH]; [done|]. cbn. by destruct (P (f x)). Qed.

(** A directory that holds the entries [l], in the first blocks of a file. *)
Lemma store_dir V fb R C i l q :
  store V fb R (used_by C) C → V 0 = zeroes → C i = mjoin ((λ e, dir_bytes e.2 e.1) <$> l) → Forall (λ e, 0 < e.2 < 2 ^ 16) l →
  i_size (R i) `mod` sizeof_dirent = 0 → sizeof_dirent * Z.of_nat (length l) ≤ i_size (R i) ≤ NDIRECT * BSIZE →
  dir_get V (R i) q = snd <$> List.find (λ e, same_name q (string_bytes e.1)) l.
Proof.
  intros Hst H0 HC Hl Hm Hs. change sizeof_dirent with 16 in *. change (NDIRECT * BSIZE) with 12288 in Hs. pose proof (Z.div_mod (i_size (R i)) 16 ltac:(lia)) as Hd.
  assert (Hb : ∀ k x, (k < Z.to_nat (i_size (R i) / 16))%nat → 0 ≤ x < 16 →
    dirent_at V (R i) (Z.of_nat k * 16) x = from_option (λ e, mk_dirent e.2 e.1 x) 0 (l !! k)).
  { intros k x Hk Hx. unfold dirent_at. change sizeof_dirent with 16. rewrite decide_True by done.
    rewrite (store_byte _ _ _ _ _ _ Hst) by (done || (change (NDIRECT * BSIZE) with 12288; lia) || lia). rewrite HC, join_dirs_at by done. by destruct (l !! k). }
  assert (Hlk : ∀ k e, l !! k = Some e → (k < length l)%nat ∧ 0 < e.2 < 2 ^ 16).
  { intros k e Hk. split; [by eapply lookup_lt_Some|]. by eapply (Forall_lookup_1 _ _ _ _ Hl). }
  assert (Hin : ∀ k e, l !! k = Some e → de_inum (dirent_at V (R i) (Z.of_nat k * 16)) = e.2 ∧
    same_name q (de_name (dirent_at V (R i) (Z.of_nat k * 16))) = same_name q (string_bytes e.1)).
  { intros k e Hk. destruct (Hlk k e Hk) as [Hkl He]. assert (Hkk : (k < Z.to_nat (i_size (R i) / 16))%nat) by lia. split.
    - rewrite <-(mk_dirent_inum e.2 e.1) by lia. apply ld_ext. intros a Ha. rewrite Hb, Hk by (done || lia). done.
    - rewrite <-(mk_dirent_name e.2 e.1). unfold same_name. apply bool_decide_ext. rewrite (cstr_shift _ (de_name (dirent_at V (R i) (Z.of_nat k * 16))) (de_name (mk_dirent e.2 e.1)) 0 0); [done|].
      intros x Hx. change (Z.of_nat (Z.to_nat DIRSIZ)) with 14 in Hx. unfold de_name. rewrite Hb, Hk by (done || lia). done. }
  unfold dir_get, dir_find, dir_offs. change sizeof_dirent with 16.
  replace ((i_size (R i) + 16 - 1) / 16) with (i_size (R i) / 16) by (apply (Z.div_unique _ _ _ 15); lia).
  rewrite find_fmap, <-option_fmap_compose. apply find_by_index; cbn [compose].
  - lia.
  - intros k Hk. rewrite Z.add_0_l. unfold names, compose. destruct (l !! k) as [e|] eqn:E; cbn [from_option].
    + destruct (Hin k e E) as [-> ->]. destruct (Hlk k e E). by rewrite (proj2 (Z.eqb_neq _ _)) by lia.
    + replace (de_inum _) with 0; [done|]. symmetry. transitivity (de_inum zeroes); [|done]. apply ld_ext. intros a Ha. rewrite Hb, E by (done || lia). done.
  - intros k e E. rewrite Z.add_0_l. by apply Hin.
Qed.

Lemma table_at V n i : 1 ≤ i < n → table V n i = inode_at V i.
Proof. intros Hi. unfold table. by replace ((1 <=? i) && (i <? n)) with true by lia. Qed.

Lemma mkfs_end_run env g n C fb :
  fsinv g n C fb → 2 ≤ n → len (C ROOTINO) < NDIRECT * BSIZE →
  let size := (len (C ROOTINO) / BSIZE + 1) * BSIZE in
  ∃ V, mkfs_end ROOTINO env g = Ret tt env (set_sect V g) ∧ (∀ b, b < 2 ∨ nmeta ≤ b → V b = g_sect g b) ∧
    (∀ j, 1 ≤ j < NINODES → j ≠ ROOTINO → inode_at V j = inode_at (g_sect g) j) ∧
    same_dinode (inode_at V ROOTINO) (set_i_size size (inode_at (g_sect g) ROOTINO)) ∧
    (∀ b, 0 ≤ b → bit_at (V (sb_bmapstart mk_sb)) b = (b <? fb)).
Proof.
  intros [N1 N2 N3 S1 D1 M1 O1 B1 F1] Hn Hl size. destruct (D1 ROOTINO ltac:(unfold ROOTINO; lia)) as (T & L & Ma & Mi & Sz).
  assert (Hlen : 0 ≤ len (C ROOTINO)) by (unfold len; lia). change (NDIRECT * BSIZE) with 12288 in Hl.
  pose proof (Z.div_pos (len (C ROOTINO)) 1024 ltac:(lia) ltac:(lia)). pose proof (Z.div_lt_upper_bound (len (C ROOTINO)) 1024 12 ltac:(lia) ltac:(lia)).
  set (r := inode_at (g_sect g) ROOTINO) in *. set (a := IBLOCK ROOTINO mk_sb).
  set (V1 := <[a := store_dinode (set_i_size size r) (g_sect g a) (dinode_at ROOTINO)]> (g_sect g)).
  exists (<[sb_bmapstart mk_sb := foldl set_bit zeroes (seqZ 0 fb)]> V1). change (sb_bmapstart mk_sb) with 45.
  pose proof (s_bound _ _ _ _ _ S1) as Hfb. change nmeta with 46 in *. change FSSIZE with 1000 in *. unfold size in *. change BSIZE with 1024 in *.
  assert (Hbm : ∀ j, 0 ≤ j < NINODES → inode_at (<[45 := foldl set_bit zeroes (seqZ 0 fb)]> V1) j = inode_at V1 j).
  { intros j Hj. unfold inode_at. rewrite fn_lookup_insert_ne; [done|]. destruct (iblock_range j Hj). lia. }
  assert (Hfits : dinode_fits (set_i_size ((len (C ROOTINO) / 1024 + 1) * 1024) r)).
  { split; cbn -[inode_at]; rewrite ?T, ?L, ?Ma, ?Mi; try done; [lia|]. intros k Hk. pose proof (slot_of_addr _ _ _ _ _ ROOTINO k S1 Hk) as Hk'.
    rewrite table_at in Hk' by (unfold ROOTINO; lia). fold r in Hk'. change FSSIZE with 1000 in Hk'. lia. }
  split_and!.
  - unfold mkfs_end. rewrite (bind_Ret _ _ _ _ _ _ _ (rinode_run env g ROOTINO ltac:(done))). fold r. rewrite Sz, (xint_small (len (C ROOTINO))) by lia. change BSIZE with 1024.
    rewrite xint_small by lia. rewrite (bind_Ret _ _ _ _ _ _ _ (winode_run env g ROOTINO _ ltac:(done))). mstep. cbn [set_sect g_freeblock]. rewrite N3.
    unfold mk_balloc. change (BSIZE * 8) with 8192. rewrite (proj2 (Z.ltb_lt fb 8192)) by lia. cbn [negb]. unfold wsect, set_sect. mstep. cbn [g_sect g_freeinode g_freeblock]. change (sb_bmapstart mk_sb) with 45. fold a. fold V1. reflexivity.
  - intros b Hb. rewrite fn_lookup_insert_ne by lia. unfold V1. rewrite fn_lookup_insert_ne; [done|]. change a with 32. lia.
  - intros j Hj Hne. rewrite Hbm by lia. apply inode_at_write; [done|lia|done].
  - rewrite Hbm by done. exact (proj1 (inode_at_write (g_sect g) ROOTINO _ ROOTINO ltac:(done) ltac:(done)) eq_refl Hfits).
  - intros b Hb. rewrite fn_lookup_insert, set_bits; [|by apply Forall_seqZ; lia|done]. replace (bit_at zeroes b) with false.
    + rewrite orb_false_r. apply eq_true_iff_eq. rewrite bool_decide_eq_true, elem_of_seqZ, Z.ltb_lt. lia.
    + symmetry. rewrite bit_at_testbit by done. apply Z.testbit_0_l.
Qed.

(** ** The image *)

Module Image.
(** What the kernel finds in the image [V] of [files]. *)
Record image_of (files : list (list Z * list (list Z))) (V : Z → bytes) : Prop := {
  im_super : load_sb (V 1) = mk_sb;
  im_root : let r := inode_at V ROOTINO in
    i_type r = T_DIR ∧ i_nlink r = 1 ∧ i_size r = (len (root_dir files) / BSIZE + 1) * BSIZE;
  im_lookup q : dir_get V (inode_at V ROOTINO) q = snd <$> List.find (λ e, same_name q (string_bytes e.1)) (entries files);
  im_file k f : files !! k = Some f → let r := inode_at V (Z.of_nat k + 2) in
    i_type r = T_FILE ∧ i_nlink r = 1 ∧ i_size r = len (body f) ∧ file_bytes V r 0 (i_size r) = body f;
  im_free i : Z.of_nat (length files) + 2 ≤ i < NINODES → i_type (inode_at V i) = 0;
  im_bitmap b : 0 ≤ b < FSSIZE → bit_at (V (BBLOCK b mk_sb)) (b `mod` BPB) = (b <? used_blocks files);
  im_blocks i s : 1 ≤ i < Z.of_nat (length files) + 2 → used_by (contents files) i s = true →
    nmeta ≤ slot V (inode_at V i) s < used_blocks files;
  im_apart i s j t : 1 ≤ i < Z.of_nat (length files) + 2 → 1 ≤ j < Z.of_nat (length files) + 2 →
    used_by (contents files) i s = true → used_by (contents files) j t = true →
    slot V (inode_at V i) s = slot V (inode_at V j) t → i = j ∧ s = t
}.

Lemma entries_inums files : Z.of_nat (length files) + 2 ≤ NINODES → Forall (λ e, 0 < e.2 < 2 ^ 16) (entries files).
Proof.
  intros Hn. unfold NINODES in Hn. unfold entries. apply Forall_app. split; [repeat constructor|]. apply Forall_lookup. intros k e.
  rewrite list_lookup_imap. destruct (files !! k) as [f|] eqn:E; [|done]. intros [= <-]. apply lookup_lt_Some in E. cbn. lia.
Qed.

(** The size of the root directory. *)
Lemma root_size files : Z.of_nat (length files) + 2 ≤ NINODES →
  let size := (len (root_dir files) / BSIZE + 1) * BSIZE in
  len (root_dir files) < size ≤ NDIRECT * BSIZE ∧ size `mod` sizeof_dirent = 0.
Proof.
  intros Hn size. unfold size, NINODES in *. change sizeof_dirent with 16. change (NDIRECT * BSIZE) with 12288. change BSIZE with 1024. rewrite root_dir_len.
  set (n := 16 * _). pose proof (Z.div_mod n 1024 ltac:(lia)). pose proof (Z.mod_pos_bound n 1024 ltac:(lia)). split; [unfold n in *; lia|].
  replace ((n / 1024 + 1) * 1024) with ((n / 1024 + 1) * 64 * 16) by lia. by apply Z.mod_mul.
Qed.

(** C7: the image that mkfs makes is the file system the kernel expects.  mkfs
    comes to its end for files with proper names that fit the image; the kernel
    then finds in it the super block, a root directory in which exactly the names
    of the files are, each with an inode whose size and bytes are those of the
    file, the other inodes free, and a bitmap that marks exactly the blocks in
    use, no two of which are shared. *)
Theorem mkfs_image env d files :
  Z.of_nat (length files) + 2 ≤ NINODES → Forall ok_file files → used_blocks files ≤ FSSIZE →
  ∃ g, mkfs files env (start_image d) = Ret tt env g ∧ image_of files (g_sect g).
Proof.
  intros Hn Hok Hf. destruct (mkfs_files_run env d files Hn Hok Hf) as (g & -> & HI). set (n := Z.of_nat (length files) + 2) in *.
  destruct (root_size files Hn) as [Hsz Hmod]. set (C := contents files) in *. change (root_dir files) with (C ROOTINO) in Hsz, Hmod.
  destruct (mkfs_end_run env g n C _ HI) as (V & E & HV & Hino & Hroot & Hbits); [unfold n; lia|lia|]. exists (set_sect V g). split; [exact E|].
  destruct HI as [N1 N2 N3 S1 D1 M1 O1 B1 F1]. cbn [set_sect g_sect].
  assert (S2 : store V (used_blocks files) (table V n) (used_by C) C).
  { apply (store_inodes _ _ (table (g_sect g) n)); [apply (store_meta (g_sect g)); [done|]; intros b Hb; apply HV; by right|].
    intros i s Hs. unfold table. destruct ((1 <=? i) && (i <? n)) eqn:Ei; [|done]. destruct (decide (i = ROOTINO)) as [->|Hne].
    - destruct Hroot as (_ & _ & _ & _ & _ & ->); done.
    - rewrite Hino by (done || lia). done. }
  assert (H0 : V 0 = zeroes) by (rewrite HV by lia; done).
  assert (Et : ∀ i, 1 ≤ i < n → table V n i = inode_at V i) by (intros; by apply table_at).
  destruct (D1 ROOTINO) as (T & L & _ & _ & _); [unfold n, ROOTINO; lia|]. destruct Hroot as (RT & _ & _ & RL & RS & _). cbn [set_i_size i_type i_nlink i_size] in RT, RL, RS.
  split.
  - rewrite HV, B1 by lia. vm_compute. reflexivity.
  - cbn zeta. rewrite RT, RL, RS, T, L. done.
  - intros q. rewrite <-Et by (unfold n, ROOTINO; lia). apply (store_dir _ _ _ _ _ _ q S2 H0); [done|by apply entries_inums|..];
      rewrite Et, RS by (unfold n, ROOTINO; lia); [done|]. change (C ROOTINO) with (root_dir files) in *. rewrite entries_len.
    pose proof (root_dir_len files). change sizeof_dirent with 16. lia.
  - intros k f Hk. pose proof (lookup_lt_Some _ _ _ Hk) as Hlt. assert (Hr : 1 ≤ Z.of_nat k + 2 < n) by (unfold n; lia).
    assert (Hnr : Z.of_nat k + 2 ≠ ROOTINO) by (unfold ROOTINO; lia). destruct (D1 _ Hr) as (T' & L' & _ & _ & S').
    assert (Eb : C (Z.of_nat k + 2) = body f) by (unfold C; rewrite contents_file, Hk; done). cbn zeta. rewrite Hino by (done || lia).
    rewrite T', L', S', Eb. unfold itype. rewrite (proj2 (Z.eqb_neq _ _)) by done. split_and!; try done.
    rewrite <-(Hino (Z.of_nat k + 2) ltac:(lia) Hnr), <-Et, <-Eb by done. by apply (store_bytes _ _ _ _ _ S2).
  - intros i Hi. rewrite Hino by (unfold ROOTINO; lia). by apply F1.
  - intros b Hb. unfold BBLOCK. change FSSIZE with 1000 in Hb. change BPB with 8192. rewrite (Z.div_small b), (Z.mod_small b) by lia. apply Hbits. lia.
  - intros i s Hi Hu. rewrite <-Et by done. by apply (s_used _ _ _ _ _ S2).
  - intros i s j t Hi Hj. rewrite <-!Et by done. by apply (s_inj _ _ _ _ _ S2).
Qed.

(** Two files: README with "hi", and user/_cat in two pieces. *)
Lemma mkfs_image_witness :
  let files := [([82; 69; 65; 68; 77; 69], [[104; 105]]); ([117; 115; 101; 114; 47; 95; 99; 97; 116], [[1; 2; 3]; [4]])] in
  ∃ g, mkfs files [] (start_image (λ _, zeroes)) = Ret tt [] g ∧ image_of files (g_sect g).
Proof.
  intros files. apply mkfs_image; [done| |done].
  apply Forall_cons; split; [|apply Forall_cons; split; [|done]]; split; (apply (bool_decide_unpack _); vm_compute; done) || done.
Defined.
End Image.
